(* ===== verification/_CoqProject ===== *)
-Q . S2P
Prelude.v
CMemory.v
WasmTypes.v
PoolInfo.v
Table.v
ExecEnv.v
Memory.v
MemInit.v
Dump.v
Restore.v
Format.v
Codec.v
Records.v
Searches.v
Heap.v
Frames.v
Checkpoint.v
Extents.v
TableImage.v
FrameImage.v
Migration.v
Correctness.v
Opcodes.v
Numeric.v
Float.v
FloatTrunc.v
Loop.v
Leb.v
FindBlock.v
Blocks.v
MemGrow.v
Regs.v
Macros.v
DataOps.v
NumericOps.v
Control.v
InterpState.v
Moved.v
Restart.v
EndToEnd.v
LoaderCtx.v
Validate.v
Typing.v
Wp.v
LoaderInv.v
LoaderOps.v
LoaderStep.v
LoaderBlocks.v
LoaderLoop.v
Dialects.v
Validation.v
LoaderModule.v
Sections.v
LoadModule.v
LoadInv.v
Loaded.v
SectionProofs.v
ImportProofs.v
FunctionProofs.v
LoadProofs.v
FinishProofs.v
CheckProofs.v
ResetProofs.v
Loading.v
Utf8.v
LoadTheorems.v
Interp.v
Sample.v
Schedule.v
Steps.v
IntOps.v
Branch.v
Functions.v
Returns.v
Entry.v
Calls.v
Grow.v
MemOps.v
Termination.v
