(* ===== verification/Prelude.v ===== *)
(** * Checkpoint and restart of a WebAssembly runtime

    This development models the part of the runtime that lets a running module
    move to another process: [abs_translation], [dump_runtime] and
    [restore_runtime] (src/core/iwasm/common/wasm_memory.c), the dump routines
    (common/wasm_dump.c), the restore routines (common/wasm_restore.c), the
    stack of frames (common/wasm_exec_env.h), and the interpreter that is moved:
    [wasm_interp_call_func_bytecode] with its checkpoint and restart
    (interpreter/wasm_interp_classic.c), [wasm_enlarge_memory]
    (interpreter/wasm_runtime.c), and the loader (interpreter/wasm_loader.c): the
    sections of a module, the check of function bodies
    ([wasm_loader_prepare_bytecode]), [wasm_loader_load] and [wasm_loader_unload],
    the search for the end of a block, the LEB128 reader.  The configuration is
    x86-64 Linux, classic interpreter, WASI on; AOT, multi-module, bulk memory,
    threads, reference types, SIMD and labels-as-values off.

    ** How the program works

    Every object the runtime allocates is recorded in the list [root_info] with
    its address, its kind and its offset from the base of the pool.  A
    checkpoint writes four files: pool_info.img, the table; dump.img, one record
    per object with each pointer written as an offset; frame.img, one record per
    interpreter frame; interp.img, the local variables of the interpreter.  A
    restart reads the table and allocates a block per object, reads the records
    into the blocks with the offsets looked up in the new table, allocates the
    frames again in the order of their old addresses, fills them, and reads the
    local variables.

    The interpreter looks for a signal before it dispatches an opcode; when there
    is one it stores its registers in the frame, writes the four files and ends
    the process.  A restarted process executes the opcode that was fetched and
    goes on in the same loop.

    The module comes from the loader: it cuts the binary into sections, copies each
    into a block, reads them in order into the structures of the module, looks for
    the stack, the heap and the allocator of the module among its exports, checks
    the bodies of the functions and rewrites some of their instructions.

    ** State and effects

    Memory is a finite map from addresses to bytes ([CMemory.mem]); structures
    are laid out by [CMemory.ctype], which computes the offsets and sizes the
    x86-64 ABI gives.  [PoolInfo.world] is the state of the process: memory, the
    table, the frames, the two image files and the statics of the two passes.
    [Prelude.M] is the monad of the code: a run ends with a result ([Ok]), with
    [exit(n)] ([Exited]), or has no meaning in C ([Stuck]: null dereference,
    read past a file, call through a null slot, fuel used up).

    The interpreter works in [Regs.R], the same monad over pairs of the local
    variables of the C function ([Regs.locals]) and the world.  What lies outside
    the sources is a parameter in the record [Interp.host]: the allocator and the
    functions of the embedder, [mem_allocator_migrate], the host functions a
    module imports, WASI, symbol lookup, and the bits of NaN results, which C
    leaves open.  A run of the loop takes a list of booleans, whether a signal is
    pending at each turn; its length is the number of turns ([Running] at the
    end of the list).

    ** Files

    - [Prelude]: machine integers, bytes, the monad, tactics.
    - [CMemory]: memory, regions, structure layout.
    - [WasmTypes]: the object kinds and structures (wasm_memory.h, wasm.h,
      wasm_runtime.h, wasm_interp.h, wasm_exec_env.h) and [set_data_size].
    - [PoolInfo], [Table]: the table, its operations, its invariant [table_ok].
    - [ExecEnv]: the stack of frames and the frame list of a restart.
    - [Memory]: [wasm_runtime_malloc/realloc/free], set-up and tear-down; the
      class [Allocator] is the contract the allocator below owes.
    - [Dump], [Restore]: one definition per routine of the two files.
    - [Format], [Codec]: a small language of record formats with its writer, its
      reader and its meaning, and the class [Codec t]: the routines of kind [t]
      write and read the format of [t].
    - [Records], [Searches]: the instances of [Codec], for kinds whose routines
      only copy and for kinds that search the module (names, imports, the block
      cache).
    - [Heap]: all records of a table, one after the other.
    - [Frames], [FrameImage]: one frame, all frames.
    - [Checkpoint], [TableImage]: [dump_runtime], [restore_runtime] and
      pool_info.img.
    - [Extents], [Migration], [Correctness]: objects stay in their blocks; the
      round trip of the whole heap.
    - [MemInit]: setting up and tearing down the memory front end.
    - [Opcodes]: the opcodes with their bytes, value types, label types.
    - [Numeric], [Float]: the arithmetic of the interpreter; integers as
      machine words, floats as bit patterns over SpecFloat. [FloatTrunc]: float to
      integer conversions against the exact integer part.
    - [Loop]: loops with a bound of 2^64 turns. [Leb]: the LEB128 readers of the
      interpreter and the loader, and the encodings they are specified by.
    - [FindBlock], [Blocks]: [wasm_loader_find_block_addr] with its cache, and the
      grammar of blocks it is proved against.
    - [MemGrow]: [wasm_enlarge_memory].
    - [Regs], [Macros]: the local variables and the macros of the interpreter
      (operand stack, label stack, frame registers, bounds check).
    - [DataOps], [NumericOps], [Control]: one handler per opcode.
    - [InterpState]: interp.img, checkpoint and restart of the registers.
    - [Moved], [Restart], [EndToEnd]: a whole migration. [Moved]: where each object
      and each of its fields is in the restored heap; [Restart]: the phases after
      the heap (frames, WASI, imports, registers) and that none of them disturbs
      another; [EndToEnd]: the theorem and a small process it is evaluated on.
    - [Interp]: call and return, dispatch, the loop, the entry from the host.
    - [Sample]: a module instance on which the theorems are evaluated.
    - [Schedule], [Steps], [IntOps], [MemOps], [Branch], [Functions], [Returns],
      [Entry], [Calls], [Grow]: theorems about the interpreter and the lemmas
      they share.
    - [Termination]: the loops over the image files end on every input.
    - [LoaderCtx], [Validate]: the check of a function body.  The first file has
      the context of the check (the types of the operands, the open blocks, the
      heap they are kept in) and the routines on it, the second the handlers, the
      loop and [wasm_loader_prepare_bytecode] with its rewriting of the code.
    - [Typing]: the specification of the check: the instructions the bytes stand
      for, and the validation algorithm of the WebAssembly specification with
      two variants, what the loader implements ([Loader]) and the specification
      without two rules that do not matter to safety ([Lenient]).
    - [Wp], [LoaderInv], [LoaderOps], [LoaderStep], [LoaderBlocks], [LoaderLoop]:
      the check implements the algorithm.  [wp] says what holds when a routine
      succeeds and when it fails; [inv] ties the context to the state of the
      algorithm; then the routines on the stacks, the instructions, the blocks,
      one turn of the loop and the function.
    - [Dialects]: how the three variants relate. [Validation]: the theorems.
    - [LoaderModule], [Sections], [LoadModule]: loading a module.  The first file has
      the module as a record whose arrays are blocks with their elements, the state
      ([LoaderModule.loading]: the loader of [LoaderCtx] and the module), readers and
      strings; the second one definition per [load_*] routine of a section; the
      third the loop over the sections, what is resolved behind them ([resolve],
      [prepare_function], [reset_memories]), [create_sections], [load],
      [wasm_loader_load] and [wasm_loader_unload].  An access outside a section or an
      array is [Stuck].
    - [LoadInv]: the invariant of loading ([load_ok]: which block belongs to whom) and
      the rules for reading, allocating and storing. [Loaded]: the specification,
      [module_ok].
    - [SectionProofs], [ImportProofs], [FunctionProofs]: each section meets it.
      [LoadProofs]: all sections, and the cutting of the binary. [FinishProofs],
      [CheckProofs], [ResetProofs]: what comes behind them. [Loading]: whole loads
      and unloading. [LoadTheorems]: the theorems, on a small heap and small modules
      the ones that are evaluated. [Utf8]: the names.

    ** What the theorems show

    - A migration: the state a checkpoint finds, if it is [migratable], comes back in
      a fresh process as [migrated] says.  WASI and symbol lookup are any that keep
      their contract ([wasi_contract]); [registers_misled] shows what happens when
      WASI does not.
    - Round trips: heap, table, frames, registers and single records come back
      as they were, up to the relocation of addresses.
    - Invariants: the table stays well formed; frames are sorted; offsets fit.
    - Safety and termination: a restore routine writes inside its block; every
      reading loop ends.
    - The check of function bodies: it always ends and gives its memory back; it
      accepts a body if and only if the algorithm does, in the loader's dialect,
      unless the heap refuses memory; what it accepts is well typed, only bytes
      of the body are rewritten, and the sizes it notes for the frame are enough;
      valid code without dead instructions is accepted.  The hypotheses are those
      of a module whose other sections are loaded ([module_wf], [func_wf]), a heap
      that never grants more than a gigabyte at once ([BoundedPool]: the counters
      have 32 bits) and code without the label 2^32 - 1 ([tame]), for which the
      check is wrong ([invalid_code_accepted]).
    - Loading: reading the sections of any bytes ends without a step out of the
      binary or of an array, and leaves a well-formed module ([module_ok]) and
      whatever was there before as it was; a module that is loaded is valid
      ([valid_module]); a module that is refused or unloaded leaves nothing but
      copies of bytes (the bodies of sections, code and data, which nothing frees)
      and, when it is refused, structures of sections.  The heap is any that grants
      a request outside its live blocks ([PlacedPool], with [BoundedPool]).  What
      comes behind the sections is right for modules that are [checkable]: the
      loader does not check that function types and globals are of value types
      ([value_types]), and reads outside the globals when the exported heap base is
      an imported one ([aux_own]); [imported_heap_base_read] and [wrongly_loaded] show
      what happens otherwise.
    - Errors: unknown records, pointers into the middle of an object, overlong
      arrays, stack overflow, and the places where the code loses information
      (the current global's address, a null [else_addr], names outside the
      string list, reference globals, the entry frame).
    - The interpreter: a checkpoint and a restart neither lose nor repeat an
      instruction; loads and stores stay inside the linear memory or trap;
      integer instructions and float to integer conversions compute the result
      of the WebAssembly specification; branches, calls, returns and
      [memory.grow] do what they promise to the operand stack, the label stack,
      the frames, the object table and the memory, and touch nothing else; the
      block search finds the end of the block of the grammar, with or without its
      cache; LEB128 readers and encodings agree.

    ** Fuel

    Loops over an image take the length of the image plus one as fuel, each turn
    reads at least one integer: [Termination] proves it is enough.  Searches
    through the string list and the imports take as fuel the number of objects
    in the table ([Dump.loop_fuel]); a list longer than that leaves the table.
    Loops of the interpreter and the block search whose bound is a length of the
    code run under [Loop.loop_pow], whose bound of 2^64 turns no 64-bit counter
    exceeds; LEB128 readers have the fuel of the longest encoding.  The check of a
    body has as fuel its size plus one, since every turn reads a byte:
    [LoaderLoop] proves that it is not used up.  [create_sections] has the size of the
    binary plus one, since every section has two bytes ([create_sections_ok]).

    ** Not modelled

    The allocator itself, the host functions, [wasm_runtime_init_wasi],
    [wasm_native_resolve_symbol] and the bits of NaN results are parameters.
    Floating-point fields of the images are the bytes they occupy.  Messages
    printed on the way are not part of the state.  Of the loader the routines for
    several modules, reference types, SIMD, bulk memory and the name section are
    off in this configuration; the heap of the loader is a table of blocks with a
    function that grants places, not the list of [PoolInfo].  The instantiation of
    a module, the AOT and fast interpreters, the embedding APIs and the host
    libraries are not modelled: a checkpoint and a restart happen after loading,
    in the classic interpreter.  The theorem on checkpoint and restart at a signal
    takes the state the restart reads back as given; that the images bring it back,
    at other addresses, is the theorem of [EndToEnd]. *)
From stdpp Require Import base gmap list numbers.
From Stdlib Require Import Strings.Byte ZArith Lia.

Declare Scope c_scope.
Delimit Scope c_scope with c.
#[global] Open Scope Z_scope.

(** * Hint databases and tactics *)

Create HintDb mig discriminated.
Create Rewrite HintDb migrw.

Ltac Zify.zify_post_hook ::= Z.div_mod_to_equations.

(** [zbool] turns boolean comparisons on [Z] in the context and the goal into
    propositions. *)
Ltac zbool :=
  repeat match goal with
  | H : (_ =? _) = true |- _ => apply Z.eqb_eq in H
  | H : (_ =? _) = false |- _ => apply Z.eqb_neq in H
  | H : (_ <? _) = true |- _ => apply Z.ltb_lt in H
  | H : (_ <? _) = false |- _ => apply Z.ltb_ge in H
  | H : (_ <=? _) = true |- _ => apply Z.leb_le in H
  | H : (_ <=? _) = false |- _ => apply Z.leb_gt in H
  | H : andb _ _ = true |- _ => apply andb_prop in H as [??]
  | |- (_ =? _) = true => apply Z.eqb_eq
  | |- (_ =? _) = false => apply Z.eqb_neq
  | |- (_ <? _) = true => apply Z.ltb_lt
  | |- (_ <=? _) = true => apply Z.leb_le
  | |- (_ <? _) = false => apply Z.ltb_ge
  | |- (_ <=? _) = false => apply Z.leb_gt
  end.

(** [zcase] decides the first boolean comparison of the goal. *)
Ltac zcase :=
  match goal with
  | |- context [?a =? ?b] => destruct (a =? b) eqn:?
  | |- context [?a <? ?b] => destruct (a <? b) eqn:?
  | |- context [?a <=? ?b] => destruct (a <=? b) eqn:?
  end; zbool.

(** * Machine integers

    A C integer of width [w] is a [Z]; [wrap w] is the unsigned reduction and
    [swrap w] the two's complement one. *)

Definition wrap (w z : Z) : Z := z mod 2 ^ w.
Definition swrap (w z : Z) : Z := (z + 2 ^ (w - 1)) mod 2 ^ w - 2 ^ (w - 1).

(** [(int)x] on a 64-bit value, [(unsigned)x], [(uint64)x]. *)
Definition int32 : Z → Z := swrap 32.
Definition uint32 : Z → Z := wrap 32.
Definition uint64 : Z → Z := wrap 64.

Lemma wrap_range w z : 0 <= w → 0 <= wrap w z < 2 ^ w.
Proof. intros. apply Z.mod_pos_bound. lia. Qed.

Lemma wrap_small w z : 0 <= z < 2 ^ w → wrap w z = z.
Proof. apply Z.mod_small. Qed.

Lemma wrap_wrap w z : 0 <= w → wrap w (wrap w z) = wrap w z.
Proof. intros. apply wrap_small, wrap_range. done. Qed.

Lemma swrap_range w z : 1 <= w → - 2 ^ (w - 1) <= swrap w z < 2 ^ (w - 1).
Proof.
  intros. unfold swrap.
  assert (2 ^ w = 2 * 2 ^ (w - 1)) as E by (rewrite <- Z.pow_succ_r; f_equal; lia).
  pose proof (Z.mod_pos_bound (z + 2 ^ (w - 1)) (2 ^ w)). lia.
Qed.

Lemma swrap_small w z : 1 <= w → - 2 ^ (w - 1) <= z < 2 ^ (w - 1) → swrap w z = z.
Proof.
  intros. unfold swrap.
  assert (2 ^ w = 2 * 2 ^ (w - 1)) as E by (rewrite <- Z.pow_succ_r; f_equal; lia).
  rewrite Z.mod_small; lia.
Qed.

Lemma swrap_wrap w z : 0 <= w → swrap w (wrap w z) = swrap w z.
Proof.
  intros. unfold swrap, wrap.
  rewrite Zplus_mod_idemp_l. done.
Qed.

Lemma wrap_swrap w z : 1 <= w → wrap w (swrap w z) = wrap w z.
Proof.
  intros. unfold swrap, wrap.
  rewrite Zminus_mod_idemp_l. f_equal. lia.
Qed.

Lemma int32_small z : - 2 ^ 31 <= z < 2 ^ 31 → int32 z = z.
Proof. intros. apply swrap_small; lia. Qed.

Lemma int32_range z : - 2 ^ 31 <= int32 z < 2 ^ 31.
Proof. apply (swrap_range 32). lia. Qed.

(** * Bytes and little-endian words *)

#[export] Instance byte_inhabited : Inhabited byte := populate x00.
#[export] Instance byte_eq_dec : EqDecision byte := Byte.byte_eq_dec.

Definition byte_Z (b : byte) : Z := Z.of_N (Byte.to_N b).

Definition Z_byte (z : Z) : byte :=
  match Byte.of_N (Z.to_N (z mod 256)) with Some b => b | None => x00 end.

Lemma byte_Z_range b : 0 <= byte_Z b < 256.
Proof. unfold byte_Z. pose proof (Byte.to_N_bounded b). lia. Qed.

Lemma byte_Z_byte z : byte_Z (Z_byte z) = z mod 256.
Proof.
  unfold byte_Z, Z_byte.
  destruct (Byte.of_N (Z.to_N (z mod 256))) as [b|] eqn:E.
  - apply Byte.to_of_N in E. rewrite E. lia.
  - apply Byte.of_N_None_iff in E. lia.
Qed.

Lemma Z_byte_Z b : Z_byte (byte_Z b) = b.
Proof.
  unfold Z_byte. rewrite Z.mod_small by apply byte_Z_range.
  unfold byte_Z. rewrite N2Z.id, Byte.of_to_N. done.
Qed.

(** [le_bytes n z] is the [n]-byte little-endian image of [z] and [le_Z] reads
    one back. *)
Fixpoint le_bytes (n : nat) (z : Z) : list byte :=
  match n with
  | O => []
  | S n => Z_byte z :: le_bytes n (z / 256)
  end.

Fixpoint le_Z (bs : list byte) : Z :=
  match bs with
  | [] => 0
  | b :: bs => byte_Z b + 256 * le_Z bs
  end.

Lemma length_le_bytes n z : length (le_bytes n z) = n.
Proof. revert z. induction n; intros; simpl; auto. Qed.

Lemma le_Z_range bs : 0 <= le_Z bs < 256 ^ Z.of_nat (length bs).
Proof.
  induction bs as [|b bs IH]; [simpl; lia|].
  cbn [le_Z length]. pose proof (byte_Z_range b).
  rewrite Nat2Z.inj_succ, Z.pow_succ_r by lia. lia.
Qed.

Lemma le_Z_bytes n z : le_Z (le_bytes n z) = z mod 256 ^ Z.of_nat n.
Proof.
  revert z. induction n as [|n IH]; intros z; cbn [le_bytes le_Z].
  - rewrite Z.pow_0_r, Z.mod_1_r. done.
  - rewrite IH, byte_Z_byte, Nat2Z.inj_succ, Z.pow_succ_r by lia.
    rewrite (Z.rem_mul_r z 256) by lia. done.
Qed.

Lemma le_bytes_Z bs : le_bytes (length bs) (le_Z bs) = bs.
Proof.
  induction bs as [|b bs IH]; [done|]. cbn [length le_bytes le_Z]. f_equal.
  - rewrite <- (Z_byte_Z b) at 2. unfold Z_byte.
    do 2 f_equal. pose proof (byte_Z_range b). f_equal.
    rewrite Z.mul_comm, Z_mod_plus_full. done.
  - rewrite Z.add_comm, Z.mul_comm, Z.div_add_l by lia.
    rewrite Z.div_small by apply byte_Z_range. rewrite Z.add_0_r. done.
Qed.

Lemma le_Z_inj bs bs' : length bs = length bs' → le_Z bs = le_Z bs' → bs = bs'.
Proof. intros Hl He. rewrite <- (le_bytes_Z bs), Hl, He. apply le_bytes_Z. Qed.

Lemma le_bytes_mod n z : le_bytes n (z mod 256 ^ Z.of_nat n) = le_bytes n z.
Proof.
  apply le_Z_inj; [by rewrite !length_le_bytes|].
  rewrite !le_Z_bytes, Z.mod_mod; lia.
Qed.

Lemma le_Z_bytes_small n z : 0 <= z < 256 ^ Z.of_nat n → le_Z (le_bytes n z) = z.
Proof. intros. rewrite le_Z_bytes. by apply Z.mod_small. Qed.

#[global] Arguments le_bytes : simpl never.

#[export] Hint Rewrite length_le_bytes @length_app @length_nil @length_cons : migrw.

(** * The effect monad

    A C routine that works on a state [S] is [M S A]: it returns ([Ok]), ends
    the process ([Exited code], a call of [exit]), or does something the C code
    gives no meaning to ([Stuck]: a call through a null function pointer, a
    read past the end of a file whose result is used, a loop that runs out of
    its bound). *)

Inductive outcome (S A : Type) : Type :=
| Ok (a : A) (s : S)
| Exited (code : Z)
| Stuck.
Arguments Ok {S A} a s.
Arguments Exited {S A} code.
Arguments Stuck {S A}.

Definition M (S A : Type) : Type := S → outcome S A.

Definition mret {S A} (a : A) : M S A := fun s => Ok a s.
Definition mbind {S A B} (c : M S A) (k : A → M S B) : M S B := fun s =>
  match c s with
  | Ok a s' => k a s'
  | Exited n => Exited n
  | Stuck => Stuck
  end.
Definition mexit {S A} (code : Z) : M S A := fun _ => Exited code.
Definition mstuck {S A} : M S A := fun _ => Stuck.
Definition gets {S A} (f : S → A) : M S A := fun s => Ok (f s) s.
Definition modify {S} (f : S → S) : M S unit := fun s => Ok tt (f s).
Definition skip {S} : M S unit := mret tt.

Notation "'let*' x ':=' c 'in' k" := (mbind c (fun x => k))
  (at level 10, x name, c at level 200, k at level 200,
   format "'[v' 'let*'  x  ':='  c  'in' '/' k ']'") : c_scope.
Notation "c ;;; k" := (mbind c (fun _ => k))
  (at level 100, right associativity) : c_scope.
#[global] Open Scope c_scope.

Lemma mbind_ok {S A B} (c : M S A) (k : A → M S B) s a s' :
  c s = Ok a s' → mbind c k s = k a s'.
Proof. unfold mbind. by intros ->. Qed.

Lemma mbind_assoc {S A B C} (c : M S A) (k : A → M S B) (h : B → M S C) s :
  mbind (mbind c k) h s = mbind c (fun a => mbind (k a) h) s.
Proof. unfold mbind. by destruct (c s). Qed.

Lemma mbind_ext {S A B} (c c' : M S A) (k k' : A → M S B) s :
  c s = c' s → (∀ a s', k a s' = k' a s') → mbind c k s = mbind c' k' s.
Proof. unfold mbind. intros -> Hk. destruct (c' s); auto. Qed.

Lemma mbind_skip_r {S} (c : M S unit) s : mbind c (fun _ => skip) s = c s.
Proof. unfold mbind. by destruct (c s) as [[]| |]. Qed.

(** [mfor l body] is a counted loop over the indices [l]. *)
Fixpoint mfor {S X} (l : list X) (body : X → M S unit) : M S unit :=
  match l with
  | [] => skip
  | x :: l => body x ;;; mfor l body
  end.

Lemma mfor_app {S X} (l1 l2 : list X) (body : X → M S unit) s :
  mfor (l1 ++ l2) body s = (mfor l1 body ;;; mfor l2 body) s.
Proof.
  revert s. induction l1 as [|x l1 IH]; intros s; [done|].
  cbn [mfor app]. rewrite mbind_assoc. apply mbind_ext; auto.
Qed.

(** * Lists *)

Lemma take_app_eq {A} (l k : list A) n : n = length l → take n (l ++ k) = l.
Proof. intros ->. apply take_app_length. Qed.

Lemma drop_app_eq {A} (l k : list A) n : n = length l → drop n (l ++ k) = k.
Proof. intros ->. apply drop_app_length. Qed.
