(* ===== verification/CMemory.v ===== *)
(** The C abstract machine the migration code works on: a byte-addressed memory
    with little-endian words, and the layout (size, alignment, field offsets) of
    C types under the LP64 ABI of x86-64 Linux. *)
From stdpp Require Import base gmap list numbers strings.
From Stdlib Require Import Strings.Ascii Strings.Byte ZArith Lia.
From S2P Require Import Prelude.

(** * Memory

    Memory is total: an address that was never written reads as some byte.  A
    block that [malloc] returns has arbitrary contents, which the theorems
    cover by quantifying over the memory. *)

Abbreviation mem := (gmap Z byte).

Fixpoint load (m : mem) (a : Z) (n : nat) : list byte :=
  match n with
  | O => []
  | S n => (m !!! a) :: load m (a + 1) n
  end.

Fixpoint store (m : mem) (a : Z) (bs : list byte) : mem :=
  match bs with
  | [] => m
  | b :: bs => store (<[a := b]> m) (a + 1) bs
  end.

(** Unsigned words of [n] bytes read from and written to address [a]. *)
Definition load_Z (m : mem) (a : Z) (n : Z) : Z := le_Z (load m a (Z.to_nat n)).
Definition store_Z (m : mem) (a : Z) (n : Z) (v : Z) : mem :=
  store m a (le_bytes (Z.to_nat n) v).

Lemma length_load m a n : length (load m a n) = n.
Proof. revert a. induction n; intros; simpl; auto. Qed.
#[export] Hint Rewrite length_load : migrw.

Lemma load_app m a n k : load m a (n + k) = load m a n ++ load m (a + Z.of_nat n) k.
Proof.
  revert a. induction n as [|n IH]; intros a; simpl.
  - by rewrite Z.add_0_r.
  - rewrite IH. do 2 f_equal. f_equal. lia.
Qed.

Lemma load_ext m m' a n :
  (∀ x, a <= x < a + Z.of_nat n → m !!! x = m' !!! x) → load m a n = load m' a n.
Proof.
  revert a. induction n as [|n IH]; intros a H; [done|]. simpl.
  rewrite H by lia. f_equal. apply IH. intros. apply H. lia.
Qed.

Lemma store_out m a bs x :
  x < a ∨ a + Z.of_nat (length bs) <= x → store m a bs !!! x = m !!! x.
Proof.
  revert m a. induction bs as [|b bs IH]; intros m a H; [done|]. simpl in *.
  rewrite IH by lia. apply lookup_total_insert_ne. lia.
Qed.

Lemma load_store_eq m a bs n : n = length bs → load (store m a bs) a n = bs.
Proof.
  intros ->. revert m a. induction bs as [|b bs IH]; intros m a; [done|]. simpl.
  rewrite IH, store_out, lookup_total_insert_eq by lia. done.
Qed.

Lemma load_store_ne m a bs a' n :
  a' + Z.of_nat n <= a ∨ a + Z.of_nat (length bs) <= a' →
  load (store m a bs) a' n = load m a' n.
Proof. intros. apply load_ext. intros. apply store_out. lia. Qed.

Lemma store_app m a bs bs' :
  store m a (bs ++ bs') = store (store m a bs) (a + Z.of_nat (length bs)) bs'.
Proof.
  revert m a. induction bs as [|b bs IH]; intros m a; simpl.
  - by rewrite Z.add_0_r.
  - rewrite IH. f_equal. lia.
Qed.

Lemma load_Z_range m a n : 0 <= n → 0 <= load_Z m a n < 256 ^ n.
Proof.
  intros. unfold load_Z. pose proof (le_Z_range (load m a (Z.to_nat n))) as H1.
  rewrite length_load, Z2Nat.id in H1 by lia. done.
Qed.

Lemma load_store_Z_eq m a n v :
  0 <= n → load_Z (store_Z m a n v) a n = v mod 256 ^ n.
Proof.
  intros. unfold load_Z, store_Z.
  rewrite load_store_eq by (by rewrite length_le_bytes).
  rewrite le_Z_bytes, Z2Nat.id by lia. done.
Qed.

Lemma load_store_Z_ne m a n v a' k :
  0 <= n → 0 <= k → a' + k <= a ∨ a + n <= a' →
  load_Z (store_Z m a n v) a' k = load_Z m a' k.
Proof.
  intros. unfold load_Z, store_Z. rewrite load_store_ne; [done|].
  rewrite length_le_bytes. lia.
Qed.

Lemma load_Z_store_ne m a bs a' n :
  0 <= n → a' + n <= a ∨ a + Z.of_nat (length bs) <= a' →
  load_Z (store m a bs) a' n = load_Z m a' n.
Proof. intros. unfold load_Z. by rewrite load_store_ne by lia. Qed.

(** * Regions

    A region is a base address with a length; a memory is unchanged outside a
    list of regions when every byte that none of them holds is the same. *)

Abbreviation region := (Z * Z)%type.

Definition in_region (x : Z) (r : region) : Prop := r.1 <= x < r.1 + r.2.
Definition disjoint_region (r s : region) : Prop :=
  r.1 + r.2 <= s.1 ∨ s.1 + s.2 <= r.1.

Definition unchanged_outside (rs : list region) (m m' : mem) : Prop :=
  ∀ x, (∀ r, In r rs → ¬ in_region x r) → m' !!! x = m !!! x.

Lemma unchanged_refl rs m : unchanged_outside rs m m.
Proof. done. Qed.

Lemma unchanged_trans rs rs' m m' m'' :
  unchanged_outside rs m m' → unchanged_outside rs' m' m'' →
  unchanged_outside (rs ++ rs') m m''.
Proof.
  intros H H' x Hx. rewrite H', H; [done| |]; intros r Hr; apply Hx, in_or_app; auto.
Qed.

Lemma unchanged_weaken rs rs' m m' :
  (∀ x r, In r rs → in_region x r → ∃ r', In r' rs' ∧ in_region x r') →
  unchanged_outside rs m m' → unchanged_outside rs' m m'.
Proof.
  intros Hs H x Hx. apply H. intros r Hr Hin.
  destruct (Hs x r Hr Hin) as (r' & Hr' & Hin'). by apply (Hx r').
Qed.

Lemma unchanged_incl rs rs' m m' :
  (∀ r, In r rs → In r rs') → unchanged_outside rs m m' → unchanged_outside rs' m m'.
Proof. intros. eapply unchanged_weaken; [|done]. eauto. Qed.

Lemma unchanged_store m a bs :
  unchanged_outside [(a, Z.of_nat (length bs))] m (store m a bs).
Proof.
  intros x Hx. apply store_out.
  specialize (Hx (a, Z.of_nat (length bs)) (or_introl eq_refl)).
  unfold in_region in Hx. simpl in Hx. lia.
Qed.

Lemma unchanged_load rs m m' a n :
  unchanged_outside rs m m' →
  (∀ r, In r rs → disjoint_region r (a, Z.of_nat n)) →
  load m' a n = load m a n.
Proof.
  intros H Hd. apply load_ext. intros x Hx. apply H. intros r Hr Hin.
  specialize (Hd r Hr). unfold disjoint_region, in_region in *. simpl in *. lia.
Qed.

#[export] Hint Resolve unchanged_refl unchanged_store : mig.

(** * C types *)

Inductive ctype : Type :=
| TInt (n : Z)                              (* size and alignment [n] *)
| TArr (t : ctype) (n : Z)
| TStruct (fs : list (string * ctype))
| TUnion (fs : list (string * ctype)).

Definition u8 := TInt 1.
Definition u16 := TInt 2.
Definition u32 := TInt 4.
Definition u64 := TInt 8.
Definition tbool := TInt 1.
Definition tchar := TInt 1.
Definition cint := TInt 4.
Definition ptr := TInt 8.
Definition uintptr := TInt 8.

Definition align_up (o a : Z) : Z := (o + a - 1) / a * a.

Fixpoint alignof (t : ctype) : Z :=
  match t with
  | TInt n => n
  | TArr t _ => alignof t
  | TStruct fs | TUnion fs =>
      (fix go fs := match fs with
                    | [] => 1
                    | (_, t) :: fs => Z.max (alignof t) (go fs)
                    end) fs
  end.

Fixpoint sizeof (t : ctype) : Z :=
  match t with
  | TInt n => n
  | TArr t n => sizeof t * n
  | TStruct fs =>
      align_up ((fix go o fs := match fs with
                                | [] => o
                                | (_, t) :: fs => go (align_up o (alignof t) + sizeof t) fs
                                end) 0 fs) (alignof t)
  | TUnion fs =>
      align_up ((fix go fs := match fs with
                              | [] => 0
                              | (_, t) :: fs => Z.max (sizeof t) (go fs)
                              end) fs) (alignof t)
  end.

(** Offset and type of a direct member of a struct or union. *)
Fixpoint struct_member (o : Z) (fs : list (string * ctype)) (f : string) :
    option (Z * ctype) :=
  match fs with
  | [] => None
  | (g, t) :: fs =>
      if String.eqb f g then Some (align_up o (alignof t), t)
      else struct_member (align_up o (alignof t) + sizeof t) fs f
  end.

Fixpoint union_member (fs : list (string * ctype)) (f : string) : option (Z * ctype) :=
  match fs with
  | [] => None
  | (g, t) :: fs => if String.eqb f g then Some (0, t) else union_member fs f
  end.

Fixpoint member (t : ctype) (path : list string) : option (Z * ctype) :=
  match path with
  | [] => Some (0, t)
  | f :: path =>
      match (match t with
             | TStruct fs => struct_member 0 fs f
             | TUnion fs => union_member fs f
             | _ => None
             end) with
      | Some (o, t') =>
          match member t' path with
          | Some (o', t'') => Some (o + o', t'')
          | None => None
          end
      | None => None
      end
  end.

(** Splits a dotted member path such as ["u.table.flags"]. *)
Fixpoint split_path (acc s : string) : list string :=
  match s with
  | EmptyString => [acc]
  | String c s =>
      if Ascii.eqb c "."%char then acc :: split_path EmptyString s
      else split_path (String.append acc (String c EmptyString)) s
  end.

(** [OFS T "f"] is [offsetof(T, f)], computed when a definition is checked (an
    unknown member is an error there); [FLD p T "f"] is the address of the member [f] of the [T] at [p]. *)
Ltac solve_ofs T f :=
  let r := eval vm_compute in (member T (split_path EmptyString f)) in
  match r with Some (?o, _) => exact o end.

Ltac solve_sizeof T := let r := eval vm_compute in (sizeof T) in exact r.

Abbreviation OFS T f := (ltac:(solve_ofs T f)) (only parsing).
Abbreviation FLD p T f := (p + (ltac:(solve_ofs T f))) (only parsing).
Abbreviation SIZEOF T := (ltac:(solve_sizeof T)) (only parsing).
