(* ===== verification/WasmTypes.v ===== *)
(** The C structures the migration code reads and writes (wasm.h, wasm_runtime.h,
    wasm_interp.h, wasm_exec_env.h, wasm_export.h), with their layout computed
    by [CMemory.sizeof] and [CMemory.member]; the enumeration [Data_Type] of
    wasm_memory.h; and the table [data_size] of wasm_util.h.

    Build configuration: x86-64 Linux, classic interpreter, WASI libc on, AOT,
    multi-module, bulk memory, threads, shared memory, reference types and
    profiling off, hardware bound check on. *)
From stdpp Require Import base gmap list numbers strings.
From Stdlib Require Import ZArith Lia.
From S2P Require Import Prelude CMemory.

(** * Object kinds (wasm_memory.h, [Data_Type]) *)

Inductive Data_Type : Type :=
| charT | charTT | uint8T | uint16T | uint32T | uint64T | gc_heap_tT
| base_addrT | WASIContextT | WASMThreadArgT | ExternRefMapNodeT | fd_tableT
| fd_prestatsT | argv_environ_valuesT | uvwasi_tT | uvwasi_preopen_tT
| wasm_val_tT | wasm_instance_tT | wasm_engine_tT | wasm_store_tT | VectorT
| wasm_valtype_tT | wasm_functype_tT | wasm_valtype_vec_tT
| wasm_globaltype_tT | wasm_tabletype_tT | wasm_memorytype_tT
| wasm_importtype_tT | wasm_byte_vec_tT | wasm_exporttype_tT | wasm_ref_tT
| wasm_frame_tT | wasm_trap_tT | wasm_foreign_tT | wasm_module_ex_tT
| wasm_func_tT | wasm_global_tT | wasm_table_tT | wasm_memory_tT
| wasm_store_vec_tT | wasm_module_vec_tT | wasm_instance_vec_tT
| wasm_extern_vec_tT | WASMExecEnvT | NativeSymbolsNodeT | WASMModuleCommonT
| WASMModuleInstanceCommonT | WASMModuleMemConsumptionT
| WASMModuleInstMemConsumptionT | WASMMemoryInstanceCommonT | WASMSectionT
| WASMCApiFrameT | WASMRegisteredModuleT | LoadingModuleT | WASMSharedMemNodeT
| WASMModuleT | WASMFunctionT | WASMFunctionTT | WASMGlobalT | WASMExportT
| V128T | WASMValueT | InitializerExpressionT | WASMTypeT | WASMTypeTT
| WASMTableT | WASMMemoryT | WASMTableImportT | WASMMemoryImportT
| WASMFunctionImportT | WASMGlobalImportT | WASMImportT | WASMTableSegT
| WASMDataSegT | WASMDataSegTT | BlockAddrT | WASIArgumentsT | StringNodeT
| BlockTypeT | WASMBranchBlockT | WASMInterpFrameT | BranchBlockT
| BranchBlockPatchT | WASMLoaderContextT | ConstT | WASMModuleInstanceT
| WASMFunctionInstanceT | WASMMemoryInstanceT | WASMMemoryInstanceTT
| WASMTableInstanceT | WASMTableInstanceTT | WASMGlobalInstanceT
| WASMExportFuncInstanceT | WASMExportGlobInstanceT | WASMSubModInstNodeT
| WASMRuntimeFrameT | WASMOpcodeT | WASMMiscEXTOpcodeT | WASMSimdEXTOpcodeT
| WASMAtomicEXTOpcodeT | HashMapElemT | HashMapT | timer_ctx_tT | app_timer_tT
| bh_queueT | bh_queue_nodeT | AtomicWaitInfoT | AtomicWaitNodeT
| wasi_iovec_tT | wasi_ciovec_tT | WASI_FILE_T.

(** The enumerators in declaration order; the value of one is its position. *)
Definition all_types : list Data_Type :=
  [charT; charTT; uint8T; uint16T; uint32T; uint64T; gc_heap_tT; base_addrT;
   WASIContextT; WASMThreadArgT; ExternRefMapNodeT; fd_tableT; fd_prestatsT;
   argv_environ_valuesT; uvwasi_tT; uvwasi_preopen_tT; wasm_val_tT;
   wasm_instance_tT; wasm_engine_tT; wasm_store_tT; VectorT; wasm_valtype_tT;
   wasm_functype_tT; wasm_valtype_vec_tT; wasm_globaltype_tT;
   wasm_tabletype_tT; wasm_memorytype_tT; wasm_importtype_tT;
   wasm_byte_vec_tT; wasm_exporttype_tT; wasm_ref_tT; wasm_frame_tT;
   wasm_trap_tT; wasm_foreign_tT; wasm_module_ex_tT; wasm_func_tT;
   wasm_global_tT; wasm_table_tT; wasm_memory_tT; wasm_store_vec_tT;
   wasm_module_vec_tT; wasm_instance_vec_tT; wasm_extern_vec_tT;
   WASMExecEnvT; NativeSymbolsNodeT; WASMModuleCommonT;
   WASMModuleInstanceCommonT; WASMModuleMemConsumptionT;
   WASMModuleInstMemConsumptionT; WASMMemoryInstanceCommonT; WASMSectionT;
   WASMCApiFrameT; WASMRegisteredModuleT; LoadingModuleT; WASMSharedMemNodeT;
   WASMModuleT; WASMFunctionT; WASMFunctionTT; WASMGlobalT; WASMExportT;
   V128T; WASMValueT; InitializerExpressionT; WASMTypeT; WASMTypeTT;
   WASMTableT; WASMMemoryT; WASMTableImportT; WASMMemoryImportT;
   WASMFunctionImportT; WASMGlobalImportT; WASMImportT; WASMTableSegT;
   WASMDataSegT; WASMDataSegTT; BlockAddrT; WASIArgumentsT; StringNodeT;
   BlockTypeT; WASMBranchBlockT; WASMInterpFrameT; BranchBlockT;
   BranchBlockPatchT; WASMLoaderContextT; ConstT; WASMModuleInstanceT;
   WASMFunctionInstanceT; WASMMemoryInstanceT; WASMMemoryInstanceTT;
   WASMTableInstanceT; WASMTableInstanceTT; WASMGlobalInstanceT;
   WASMExportFuncInstanceT; WASMExportGlobInstanceT; WASMSubModInstNodeT;
   WASMRuntimeFrameT; WASMOpcodeT; WASMMiscEXTOpcodeT; WASMSimdEXTOpcodeT;
   WASMAtomicEXTOpcodeT; HashMapElemT; HashMapT; timer_ctx_tT; app_timer_tT;
   bh_queueT; bh_queue_nodeT; AtomicWaitInfoT; AtomicWaitNodeT;
   wasi_iovec_tT; wasi_ciovec_tT; WASI_FILE_T].

Definition type_code (t : Data_Type) : Z :=
  match t with
  | charT => 0 | charTT => 1 | uint8T => 2 | uint16T => 3 | uint32T => 4
  | uint64T => 5 | gc_heap_tT => 6 | base_addrT => 7 | WASIContextT => 8
  | WASMThreadArgT => 9 | ExternRefMapNodeT => 10 | fd_tableT => 11
  | fd_prestatsT => 12 | argv_environ_valuesT => 13 | uvwasi_tT => 14
  | uvwasi_preopen_tT => 15 | wasm_val_tT => 16 | wasm_instance_tT => 17
  | wasm_engine_tT => 18 | wasm_store_tT => 19 | VectorT => 20
  | wasm_valtype_tT => 21 | wasm_functype_tT => 22 | wasm_valtype_vec_tT => 23
  | wasm_globaltype_tT => 24 | wasm_tabletype_tT => 25
  | wasm_memorytype_tT => 26 | wasm_importtype_tT => 27
  | wasm_byte_vec_tT => 28 | wasm_exporttype_tT => 29 | wasm_ref_tT => 30
  | wasm_frame_tT => 31 | wasm_trap_tT => 32 | wasm_foreign_tT => 33
  | wasm_module_ex_tT => 34 | wasm_func_tT => 35 | wasm_global_tT => 36
  | wasm_table_tT => 37 | wasm_memory_tT => 38 | wasm_store_vec_tT => 39
  | wasm_module_vec_tT => 40 | wasm_instance_vec_tT => 41
  | wasm_extern_vec_tT => 42 | WASMExecEnvT => 43 | NativeSymbolsNodeT => 44
  | WASMModuleCommonT => 45 | WASMModuleInstanceCommonT => 46
  | WASMModuleMemConsumptionT => 47 | WASMModuleInstMemConsumptionT => 48
  | WASMMemoryInstanceCommonT => 49 | WASMSectionT => 50
  | WASMCApiFrameT => 51 | WASMRegisteredModuleT => 52 | LoadingModuleT => 53
  | WASMSharedMemNodeT => 54 | WASMModuleT => 55 | WASMFunctionT => 56
  | WASMFunctionTT => 57 | WASMGlobalT => 58 | WASMExportT => 59 | V128T => 60
  | WASMValueT => 61 | InitializerExpressionT => 62 | WASMTypeT => 63
  | WASMTypeTT => 64 | WASMTableT => 65 | WASMMemoryT => 66
  | WASMTableImportT => 67 | WASMMemoryImportT => 68
  | WASMFunctionImportT => 69 | WASMGlobalImportT => 70 | WASMImportT => 71
  | WASMTableSegT => 72 | WASMDataSegT => 73 | WASMDataSegTT => 74
  | BlockAddrT => 75 | WASIArgumentsT => 76 | StringNodeT => 77
  | BlockTypeT => 78 | WASMBranchBlockT => 79 | WASMInterpFrameT => 80
  | BranchBlockT => 81 | BranchBlockPatchT => 82 | WASMLoaderContextT => 83
  | ConstT => 84 | WASMModuleInstanceT => 85 | WASMFunctionInstanceT => 86
  | WASMMemoryInstanceT => 87 | WASMMemoryInstanceTT => 88
  | WASMTableInstanceT => 89 | WASMTableInstanceTT => 90
  | WASMGlobalInstanceT => 91 | WASMExportFuncInstanceT => 92
  | WASMExportGlobInstanceT => 93 | WASMSubModInstNodeT => 94
  | WASMRuntimeFrameT => 95 | WASMOpcodeT => 96 | WASMMiscEXTOpcodeT => 97
  | WASMSimdEXTOpcodeT => 98 | WASMAtomicEXTOpcodeT => 99
  | HashMapElemT => 100 | HashMapT => 101 | timer_ctx_tT => 102
  | app_timer_tT => 103 | bh_queueT => 104 | bh_queue_nodeT => 105
  | AtomicWaitInfoT => 106 | AtomicWaitNodeT => 107 | wasi_iovec_tT => 108
  | wasi_ciovec_tT => 109 | WASI_FILE_T => 110
  end.

Definition ERRORT : Z := 111.

(** The enumerator with a given value, if any. *)
Definition type_of_code (z : Z) : option Data_Type :=
  if (0 <=? z) && (z <? ERRORT) then all_types !! Z.to_nat z else None.

Lemma type_of_code_code t : type_of_code (type_code t) = Some t.
Proof. by destruct t. Qed.

Lemma type_code_range t : 0 <= type_code t < ERRORT.
Proof. by destruct t. Qed.

Lemma type_code_inj t t' : type_code t = type_code t' → t = t'.
Proof.
  intros H. apply (f_equal type_of_code) in H. rewrite !type_of_code_code in H. congruence.
Qed.

#[export] Instance Data_Type_eq_dec : EqDecision Data_Type.
Proof.
  intros t t'. destruct (decide (type_code t = type_code t')) as [H|H].
  - left. by apply type_code_inj.
  - right. by intros ->.
Defined.

(** * Constants of wasm.h and config.h *)

Definition INIT_EXPR_TYPE_I32_CONST : Z := 65.      (* 0x41 *)
Definition INIT_EXPR_TYPE_I64_CONST : Z := 66.      (* 0x42 *)
Definition INIT_EXPR_TYPE_F32_CONST : Z := 67.      (* 0x43 *)
Definition INIT_EXPR_TYPE_F64_CONST : Z := 68.      (* 0x44 *)
Definition INIT_EXPR_TYPE_V128_CONST : Z := 253.    (* 0xFD *)
Definition INIT_EXPR_TYPE_FUNCREF_CONST : Z := 210. (* 0xD2 *)
Definition INIT_EXPR_TYPE_REFNULL_CONST : Z := 208. (* 0xD0 *)
Definition INIT_EXPR_TYPE_GET_GLOBAL : Z := 35.     (* 0x23 *)

Definition IMPORT_KIND_FUNC : Z := 0.
Definition IMPORT_KIND_TABLE : Z := 1.
Definition IMPORT_KIND_MEMORY : Z := 2.
Definition IMPORT_KIND_GLOBAL : Z := 3.

Definition BLOCK_ADDR_CACHE_SIZE : Z := 64.
Definition BLOCK_ADDR_CONFLICT_SIZE : Z := 2.

Definition NULL : Z := 0.

(** * Structures of wasm.h *)

Definition V128 : ctype :=
  TUnion [("i8x16", TArr u8 16); ("i16x8", TArr u16 8); ("i32x8", TArr u32 4);
          ("i64x2", TArr u64 2); ("f32x4", TArr u32 4); ("f64x2", TArr u64 2)].

Definition WASMValue : ctype :=
  TUnion [("i32", u32); ("u32", u32); ("global_index", u32); ("ref_index", u32);
          ("i64", u64); ("u64", u64); ("f32", u32); ("f64", u64);
          ("addr", uintptr); ("v128", V128)].

Definition InitializerExpression : ctype :=
  TStruct [("init_expr_type", u8); ("u", WASMValue)].

Definition WASMType : ctype :=
  TStruct [("param_count", u16); ("result_count", u16); ("param_cell_num", u16);
           ("ret_cell_num", u16); ("types", TArr u8 1)].

Definition WASMTable : ctype :=
  TStruct [("elem_type", u8); ("flags", u32); ("init_size", u32); ("max_size", u32);
           ("possible_grow", tbool)].

Definition WASMMemory : ctype :=
  TStruct [("flags", u32); ("num_bytes_per_page", u32); ("init_page_count", u32);
           ("max_page_count", u32)].

Definition WASMTableImport : ctype :=
  TStruct [("module_name", ptr); ("field_name", ptr); ("elem_type", u8); ("flags", u32);
           ("init_size", u32); ("max_size", u32); ("possible_grow", tbool)].

Definition WASMMemoryImport : ctype :=
  TStruct [("module_name", ptr); ("field_name", ptr); ("flags", u32);
           ("num_bytes_per_page", u32); ("init_page_count", u32); ("max_page_count", u32)].

Definition WASMFunctionImport : ctype :=
  TStruct [("module_name", ptr); ("field_name", ptr); ("func_type", ptr);
           ("func_ptr_linked", ptr); ("signature", ptr); ("attachment", ptr);
           ("call_conv_raw", tbool); ("call_conv_wasm_c_api", tbool);
           ("wasm_c_api_with_env", tbool)].

Definition WASMGlobalImport : ctype :=
  TStruct [("module_name", ptr); ("field_name", ptr); ("type", u8); ("is_mutable", tbool);
           ("global_data_linked", WASMValue); ("is_linked", tbool)].

Definition WASMImport : ctype :=
  TStruct [("kind", u8);
           ("u", TUnion [("function", WASMFunctionImport); ("table", WASMTableImport);
                         ("memory", WASMMemoryImport); ("global", WASMGlobalImport);
                         ("names", TStruct [("module_name", ptr); ("field_name", ptr)])])].

Definition WASMFunction : ctype :=
  TStruct [("func_type", ptr); ("local_count", u32); ("local_types", ptr);
           ("param_cell_num", u16); ("ret_cell_num", u16); ("local_cell_num", u16);
           ("local_offsets", ptr); ("max_stack_cell_num", u32); ("max_block_num", u32);
           ("has_op_memory_grow", tbool); ("has_op_func_call", tbool);
           ("code_size", u32); ("code", ptr)].

Definition WASMGlobal : ctype :=
  TStruct [("type", u8); ("is_mutable", tbool); ("init_expr", InitializerExpression)].

Definition WASMExport : ctype := TStruct [("name", ptr); ("kind", u8); ("index", u32)].

Definition WASMTableSeg : ctype :=
  TStruct [("mode", u32); ("elem_type", u32); ("is_dropped", tbool); ("table_index", u32);
           ("base_offset", InitializerExpression); ("function_count", u32);
           ("func_indexes", ptr)].

Definition WASMDataSeg : ctype :=
  TStruct [("memory_index", u32); ("base_offset", InitializerExpression);
           ("data_length", u32); ("data", ptr)].

Definition BlockAddr : ctype :=
  TStruct [("start_addr", ptr); ("else_addr", ptr); ("end_addr", ptr)].

Definition WASIArguments : ctype :=
  TStruct [("dir_list", ptr); ("dir_count", u32); ("map_dir_list", ptr);
           ("map_dir_count", u32); ("env", ptr); ("env_count", u32); ("argv", ptr);
           ("argc", u32); ("stdio", TArr cint 3)].

Definition StringNode : ctype := TStruct [("next", ptr); ("str", ptr)].

Definition WASMModule : ctype :=
  TStruct [("module_type", u32); ("type_count", u32); ("import_count", u32);
           ("function_count", u32); ("table_count", u32); ("memory_count", u32);
           ("global_count", u32); ("export_count", u32); ("table_seg_count", u32);
           ("data_seg_count", u32); ("import_function_count", u32);
           ("import_table_count", u32); ("import_memory_count", u32);
           ("import_global_count", u32); ("import_functions", ptr); ("import_tables", ptr);
           ("import_memories", ptr); ("import_globals", ptr); ("types", ptr);
           ("imports", ptr); ("functions", ptr); ("tables", ptr); ("memories", ptr);
           ("globals", ptr); ("exports", ptr); ("table_segments", ptr);
           ("data_segments", ptr); ("start_function", u32);
           ("aux_data_end_global_index", u32); ("aux_data_end", u32);
           ("aux_heap_base_global_index", u32); ("aux_heap_base", u32);
           ("aux_stack_top_global_index", u32); ("aux_stack_bottom", u32);
           ("aux_stack_size", u32); ("malloc_function", u32); ("free_function", u32);
           ("retain_function", u32); ("possible_memory_grow", tbool);
           ("const_str_list", ptr); ("wasi_args", WASIArguments);
           ("is_wasi_module", tbool)].

Definition WASMBranchBlock : ctype :=
  TStruct [("begin_addr", ptr); ("target_addr", ptr); ("frame_sp", ptr); ("cell_num", u32)].

(** * Structures of wasm_runtime.h *)

Definition WASMMemoryInstance : ctype :=
  TStruct [("module_type", u32); ("is_shared", tbool); ("num_bytes_per_page", u32);
           ("cur_page_count", u32); ("max_page_count", u32); ("heap_data", ptr);
           ("heap_data_end", ptr); ("heap_handle", ptr); ("memory_data_end", ptr);
           ("memory_data", ptr)].

Definition WASMTableInstance : ctype :=
  TStruct [("elem_type", u8); ("cur_size", u32); ("max_size", u32);
           ("base_addr", TArr u8 1)].

Definition WASMGlobalInstance : ctype :=
  TStruct [("type", u8); ("is_mutable", tbool); ("data_offset", u32);
           ("initial_value", WASMValue)].

Definition WASMFunctionInstance : ctype :=
  TStruct [("is_import_func", tbool); ("param_count", u16); ("local_count", u16);
           ("param_cell_num", u16); ("ret_cell_num", u16); ("local_cell_num", u16);
           ("local_offsets", ptr); ("param_types", ptr); ("local_types", ptr);
           ("u", TUnion [("func_import", ptr); ("func", ptr)])].

Definition WASMExportFuncInstance : ctype := TStruct [("name", ptr); ("function", ptr)].

Definition WASMModuleInstance : ctype :=
  TStruct [("module_type", u32); ("memory_count", u32); ("table_count", u32);
           ("global_count", u32); ("function_count", u32); ("export_func_count", u32);
           ("memories", ptr); ("tables", ptr); ("globals", ptr); ("functions", ptr);
           ("export_functions", ptr); ("default_memory", ptr); ("default_table", ptr);
           ("global_data", ptr); ("start_function", ptr); ("malloc_function", ptr);
           ("free_function", ptr); ("retain_function", ptr); ("module", ptr);
           ("wasi_ctx", ptr); ("exec_env_singleton", ptr); ("temp_ret", u32);
           ("llvm_stack", u32); ("default_wasm_stack_size", u32);
           ("cur_exception", TArr tchar 128); ("custom_data", ptr)].

(** * Structures of wasm_interp.h, wasm_exec_env.h, wasm_export.h,
    wasm_runtime_common.h and wasm_loader.h *)

Definition WASMInterpFrame : ctype :=
  TStruct [("prev_frame", ptr); ("function", ptr); ("ip", ptr); ("sp_bottom", ptr);
           ("sp_boundary", ptr); ("sp", ptr); ("csp_bottom", ptr); ("csp_boundary", ptr);
           ("csp", ptr); ("lp", TArr u32 1)].

Definition WASMExecEnv : ctype :=
  TStruct [("next", ptr); ("prev", ptr); ("module_inst", ptr);
           ("native_stack_boundary", ptr);
           ("suspend_flags", TUnion [("flags", u32); ("__padding__", uintptr)]);
           ("aux_stack_boundary", TUnion [("boundary", u32); ("__padding__", uintptr)]);
           ("aux_stack_bottom", TUnion [("bottom", u32); ("__padding__", uintptr)]);
           ("attachment", ptr); ("user_data", ptr); ("cur_frame", ptr);
           ("handle", u64);
           ("block_addr_cache",
              TArr (TArr BlockAddr BLOCK_ADDR_CONFLICT_SIZE) BLOCK_ADDR_CACHE_SIZE);
           ("jmpbuf_stack_top", ptr); ("wasm_stack_size", u32);
           ("wasm_stack",
              TUnion [("__make_it_8_byte_aligned_", u64);
                      ("s", TStruct [("top_boundary", ptr); ("top", ptr);
                                     ("bottom", TArr u8 1)])])].

Definition wasm_val_t : ctype :=
  TStruct [("kind", u8);
           ("of", TUnion [("i32", u32); ("i64", u64); ("f32", u32); ("f64", u64);
                          ("ref", ptr)])].

Definition WASMSection : ctype :=
  TStruct [("next", ptr); ("section_type", cint); ("section_body", ptr);
           ("section_body_size", u32)].

Definition WASMModuleCommon : ctype :=
  TStruct [("module_type", u32); ("module_data", TArr u8 1)].

Definition WASMMemoryInstanceCommon : ctype :=
  TStruct [("module_type", u32); ("memory_inst_data", TArr u8 1)].

Definition WASMModuleMemConsumption : ctype :=
  TStruct [("total_size", u32); ("module_struct_size", u32); ("types_size", u32);
           ("imports_size", u32); ("functions_size", u32); ("tables_size", u32);
           ("memories_size", u32); ("globals_size", u32); ("exports_size", u32);
           ("table_segs_size", u32); ("data_segs_size", u32); ("const_strs_size", u32)].

Definition WASMModuleInstMemConsumption : ctype :=
  TStruct [("total_size", u32); ("module_inst_struct_size", u32); ("memories_size", u32);
           ("app_heap_size", u32); ("tables_size", u32); ("globals_size", u32);
           ("functions_size", u32); ("exports_size", u32)].

Definition Const : ctype :=
  TStruct [("value", WASMValue); ("slot_index", u16); ("value_type", u8)].

(** * Sizes (wasm_util.h, [set_data_size])

    [None] for the kinds whose structure is not modelled; a slot that the source
    leaves unset (commented out there) is zero. *)
Definition data_size (t : Data_Type) : option Z :=
  match t with
  | charT => Some (sizeof tchar)
  | charTT => Some (sizeof ptr)
  | uint8T => Some (sizeof u8)
  | uint16T => Some (sizeof u16)
  | uint32T => Some (sizeof u32)
  | uint64T => Some (sizeof u64)
  | wasm_val_tT => Some (sizeof wasm_val_t)
  | WASMExecEnvT => Some (OFS WASMExecEnv "wasm_stack.s.bottom")
  | WASMModuleCommonT => Some (sizeof WASMModuleCommon)
  | WASMModuleMemConsumptionT => Some (sizeof WASMModuleMemConsumption)
  | WASMModuleInstMemConsumptionT => Some (sizeof WASMModuleInstMemConsumption)
  | WASMMemoryInstanceCommonT => Some (sizeof WASMMemoryInstanceCommon)
  | WASMSectionT => Some (sizeof WASMSection)
  | WASMModuleT => Some (sizeof WASMModule)
  | WASMFunctionT => Some (sizeof WASMFunction)
  | WASMFunctionTT => Some (sizeof ptr)
  | WASMGlobalT => Some (sizeof WASMGlobal)
  | WASMExportT => Some (sizeof WASMExport)
  | V128T => Some (sizeof V128)
  | WASMValueT => Some (sizeof WASMValue)
  | InitializerExpressionT => Some (sizeof InitializerExpression)
  | WASMTypeT => Some (OFS WASMType "types")
  | WASMTypeTT => Some (sizeof ptr)
  | WASMTableT => Some (sizeof WASMTable)
  | WASMMemoryT => Some (sizeof WASMMemory)
  | WASMTableImportT => Some (sizeof WASMTableImport)
  | WASMMemoryImportT => Some (sizeof WASMMemoryImport)
  | WASMFunctionImportT => Some (sizeof WASMFunctionImport)
  | WASMGlobalImportT => Some (sizeof WASMGlobalImport)
  | WASMImportT => Some (sizeof WASMImport)
  | WASMTableSegT => Some (sizeof WASMTableSeg)
  | WASMDataSegT => Some (sizeof WASMDataSeg)
  | WASMDataSegTT => Some (sizeof ptr)
  | BlockAddrT => Some (sizeof BlockAddr)
  | WASIArgumentsT => Some (sizeof WASIArguments)
  | StringNodeT => Some (sizeof StringNode)
  | WASMBranchBlockT => Some (sizeof WASMBranchBlock)
  | WASMInterpFrameT => Some (OFS WASMInterpFrame "lp")
  | ConstT => Some (sizeof Const)
  | WASMModuleInstanceT => Some (sizeof WASMModuleInstance)
  | WASMFunctionInstanceT => Some (sizeof WASMFunctionInstance)
  | WASMMemoryInstanceT => Some (sizeof WASMMemoryInstance)
  | WASMMemoryInstanceTT => Some (sizeof ptr)
  | WASMTableInstanceT => Some (OFS WASMTableInstance "base_addr")
  | WASMTableInstanceTT => Some (sizeof ptr)
  | WASMGlobalInstanceT => Some (sizeof WASMGlobalInstance)
  | WASMExportFuncInstanceT => Some (sizeof WASMExportFuncInstance)
  | WASMRuntimeFrameT => Some (sizeof WASMInterpFrame)
  | wasi_iovec_tT | wasi_ciovec_tT => Some (sizeof (TStruct [("buf", ptr); ("buf_len", u64)]))
  | base_addrT | WASMThreadArgT | ExternRefMapNodeT | fd_tableT | fd_prestatsT
  | argv_environ_valuesT | uvwasi_tT | uvwasi_preopen_tT | WASMRegisteredModuleT
  | LoadingModuleT | BranchBlockPatchT | WASMExportGlobInstanceT | WASMSubModInstNodeT
  | WASI_FILE_T => Some 0
  | _ => None
  end.

(** [v] rounded up to a multiple of [b], a power of two. *)
Definition align_uint (v b : Z) : Z := uint32 (Z.land (v + (b - 1)) (2 ^ 32 - b)).
