(* ===== verification/PoolInfo.v ===== *)
(** The runtime state the migration code shares, its byte streams, and the
    table of live objects ([Pool_Info], wasm_memory.c): every block the runtime
    allocates is recorded with its kind, its size and its offset from the base
    of the memory pool ([p_abs], the address that survives a migration). *)
From stdpp Require Import base gmap list numbers strings.
From Stdlib Require Import Strings.Byte ZArith Lia.
From S2P Require Import Prelude CMemory WasmTypes.

(** * Data *)

(** One [Pool_Info] node.  [Pool_Info.list] links the nodes of the elements of
    one array and [Pool_Info.next] the arrays; the model has the first as
    [chain] and the second as the order of the list [root_info]. *)
Record Pool_Elem := mkElem {
  p_abs : Z;              (* int *)
  p_raw : Z;              (* void * *)
  size : Z;               (* int *)
  type : Data_Type
}.

Record Pool_Info := mkInfo {
  head :> Pool_Elem;
  chain : list Pool_Elem  (* the nodes reached through [list] *)
}.

Definition elems (i : Pool_Info) : list Pool_Elem := head i :: chain i.
Definition all_elems (root : list Pool_Info) : list Pool_Elem := root ≫= elems.
#[global] Arguments all_elems : simpl never.

(** A [FILE *] open for writing holds what was written, one open for reading
    holds what is left to read. *)
Inductive file :=
| FClosed
| FWrite (bs : list byte)
| FRead (bs : list byte).

Record world := mkWorld {
  wmem : mem;
  w_fp : file;                      (* dump.img *)
  w_gp : file;                      (* frame.img *)
  root_info : list Pool_Info;
  root_frame : list Pool_Info;
  pool_allocator : Z;               (* base of the pool *)
  dump_base : Z;                    (* statics of wasm_dump.c *)
  wasm_module : Z;
  dump_exec_env : Z;
  r_module : Z;                     (* statics of wasm_restore.c *)
  r_module_inst : Z;
  r_exec_env : Z
}.

Definition set_mem (m : mem) (w : world) : world :=
  mkWorld m (w_fp w) (w_gp w) (root_info w) (root_frame w) (pool_allocator w)
    (dump_base w) (wasm_module w) (dump_exec_env w) (r_module w) (r_module_inst w) (r_exec_env w).
Definition set_fp (f : file) (w : world) : world :=
  mkWorld (wmem w) f (w_gp w) (root_info w) (root_frame w) (pool_allocator w)
    (dump_base w) (wasm_module w) (dump_exec_env w) (r_module w) (r_module_inst w) (r_exec_env w).
Definition set_gp (f : file) (w : world) : world :=
  mkWorld (wmem w) (w_fp w) f (root_info w) (root_frame w) (pool_allocator w)
    (dump_base w) (wasm_module w) (dump_exec_env w) (r_module w) (r_module_inst w) (r_exec_env w).
Definition set_root_info (l : list Pool_Info) (w : world) : world :=
  mkWorld (wmem w) (w_fp w) (w_gp w) l (root_frame w) (pool_allocator w)
    (dump_base w) (wasm_module w) (dump_exec_env w) (r_module w) (r_module_inst w) (r_exec_env w).
Definition set_root_frame (l : list Pool_Info) (w : world) : world :=
  mkWorld (wmem w) (w_fp w) (w_gp w) (root_info w) l (pool_allocator w)
    (dump_base w) (wasm_module w) (dump_exec_env w) (r_module w) (r_module_inst w) (r_exec_env w).
Definition set_dump_base (p : Z) (w : world) : world :=
  mkWorld (wmem w) (w_fp w) (w_gp w) (root_info w) (root_frame w) (pool_allocator w)
    p (wasm_module w) (dump_exec_env w) (r_module w) (r_module_inst w) (r_exec_env w).
Definition set_WASMModule (p : Z) (w : world) : world :=
  mkWorld (wmem w) (w_fp w) (w_gp w) (root_info w) (root_frame w) (pool_allocator w)
    (dump_base w) p (dump_exec_env w) (r_module w) (r_module_inst w) (r_exec_env w).
Definition set_WASMExecEnv (p : Z) (w : world) : world :=
  mkWorld (wmem w) (w_fp w) (w_gp w) (root_info w) (root_frame w) (pool_allocator w)
    (dump_base w) (wasm_module w) p (r_module w) (r_module_inst w) (r_exec_env w).
Definition set_r_module (p : Z) (w : world) : world :=
  mkWorld (wmem w) (w_fp w) (w_gp w) (root_info w) (root_frame w) (pool_allocator w)
    (dump_base w) (wasm_module w) (dump_exec_env w) p (r_module_inst w) (r_exec_env w).
Definition set_r_module_inst (p : Z) (w : world) : world :=
  mkWorld (wmem w) (w_fp w) (w_gp w) (root_info w) (root_frame w) (pool_allocator w)
    (dump_base w) (wasm_module w) (dump_exec_env w) (r_module w) p (r_exec_env w).
Definition set_r_exec_env (p : Z) (w : world) : world :=
  mkWorld (wmem w) (w_fp w) (w_gp w) (root_info w) (root_frame w) (pool_allocator w)
    (dump_base w) (wasm_module w) (dump_exec_env w) (r_module w) (r_module_inst w) p.

Abbreviation C := (M world).

(** * Memory access and streams *)

Definition ld (n : Z) (a : Z) : C Z := gets (fun w => load_Z (wmem w) a n).
Definition st (n : Z) (a v : Z) : C unit := modify (fun w => set_mem (store_Z (wmem w) a n v) w).

Inductive stream := FP | GP.
Definition get_file (s : stream) (w : world) : file :=
  match s with FP => w_fp w | GP => w_gp w end.
Definition set_file (s : stream) (f : file) (w : world) : world :=
  match s with FP => set_fp f w | GP => set_gp f w end.

(** [fwrite] of the bytes of a local variable, and of [size * n] bytes at an
    address.  On a stream open for reading it fails and changes nothing.  A
    negative count is converted to [size_t], a read far out of bounds. *)
Definition fwrite_bytes (s : stream) (bs : list byte) : C unit := modify (fun w =>
  match get_file s w with
  | FWrite out => set_file s (FWrite (out ++ bs)) w
  | _ => w
  end).

Definition fwrite (s : stream) (a size n : Z) : C unit := fun w =>
  if n <? 0 then Stuck
  else fwrite_bytes s (load (wmem w) a (Z.to_nat (size * n))) w.

Definition fwrite_int (s : stream) (v : Z) : C unit := fwrite_bytes s (le_bytes 4 v).

(** [fread] of [n] bytes; a short read leaves the destination indeterminate, and
    the code goes on to use it. *)
Definition fread_bytes (s : stream) (n : Z) : C (list byte) := fun w =>
  match get_file s w with
  | FRead rest =>
      if (n <? 0) || (Z.of_nat (length rest) <? n) then Stuck
      else Ok (take (Z.to_nat n) rest) (set_file s (FRead (drop (Z.to_nat n) rest)) w)
  | _ => Stuck
  end.

Definition fread (s : stream) (a size n : Z) : C unit :=
  let* bs := fread_bytes s (size * n) in
  modify (fun w => set_mem (store (wmem w) a bs) w).

Definition fread_int (s : stream) : C Z :=
  let* bs := fread_bytes s 4 in mret (int32 (le_Z bs)).
Definition fread_uint (s : stream) (n : Z) : C Z :=
  let* bs := fread_bytes s n in mret (le_Z bs).

(** * Searching the table (wasm_memory.c) *)

Fixpoint find_chain (p : Pool_Elem → bool) (e : Pool_Elem) (rest : list Pool_Elem) :
    option Pool_Info :=
  if p e then Some (mkInfo e rest)
  else match rest with
       | [] => None
       | e' :: rest' => find_chain p e' rest'
       end.

Fixpoint find_info (p : Pool_Elem → bool) (root : list Pool_Info) : option Pool_Info :=
  match root with
  | [] => None
  | i :: root =>
      match find_chain p (head i) (chain i) with
      | Some r => Some r
      | None => find_info p root
      end
  end.

(** A null pointer is [None]; a miss ends the process. *)
Definition get_raw (addr : Z) : C (option Pool_Info) := fun w =>
  if addr =? NULL then Ok None w
  else match find_info (fun e => p_raw e =? addr) (root_info w) with
       | Some r => Ok (Some r) w
       | None => Exited 1
       end.

Definition get_info (abs : Z) : C (option Pool_Info) := fun w =>
  if abs =? -1 then Ok None w
  else match find_info (fun e => abs =? p_abs e) (root_info w) with
       | Some r => Ok (Some r) w
       | None => Exited 1
       end.

Definition get_frame_info (abs : Z) : C (option Pool_Info) := fun w =>
  if abs =? -1 then Ok None w
  else match find (fun i => p_abs (head i) =? abs) (root_frame w) with
       | Some r => Ok (Some r) w
       | None => Exited 1
       end.

Definition get_root_frame_info : C (list Pool_Info) := gets root_frame.
Definition get_base_addr : C Z := gets pool_allocator.

(** [abs_translation]: the offsets of every node for the current pool. *)
Definition retranslate (base : Z) (e : Pool_Elem) : Pool_Elem :=
  mkElem (int32 (p_raw e - base)) (p_raw e) (size e) (type e).

Definition abs_translation : C unit := modify (fun w =>
  set_root_info
    (map (fun i => mkInfo (retranslate (pool_allocator w) (head i))
                          (map (retranslate (pool_allocator w)) (chain i)))
         (root_info w)) w).

(** * Recording and forgetting objects *)

Definition alloc_node (addr : Z) (t : Data_Type) (n : Z) (w : world) : world :=
  set_root_info (mkInfo (mkElem (int32 (addr - pool_allocator w)) addr (int32 n) t) []
                 :: root_info w) w.

Definition alloc_info_buf (addr : Z) (t : Data_Type) (n : Z) : C unit :=
  if addr =? NULL then mexit 1 else modify (alloc_node addr t n).

Definition alloc_info (addr : Z) (t : Data_Type) : C unit :=
  (if decide (t = WASMModuleT) then modify (set_WASMModule addr) else skip) ;;;
  alloc_info_buf addr t 1.

Definition alloc_info_ex (addr : Z) (t : Data_Type) (n : Z) : C unit :=
  if addr =? NULL then mexit 1
  else (if decide (t = WASMExecEnvT) then modify (set_WASMExecEnv addr) else skip) ;;;
       modify (alloc_node addr t n).

(** The cases of the [switch] of [alloc_infos]: no case, the element size of the
    case, or a case whose structure is not modelled. *)
Inductive infos_case := NoCase | CaseSize (n : Z) | CaseOther.

Definition case_infos (t : Data_Type) : infos_case :=
  match t with
  | charT => CaseSize (sizeof tchar)
  | uint8T => CaseSize (sizeof u8)
  | uint16T => CaseSize (sizeof u16)
  | uint32T => CaseSize (sizeof u32)
  | uint64T => CaseSize (sizeof u64)
  | WASIArgumentsT => CaseSize (sizeof WASIArguments)
  | wasi_iovec_tT | wasi_ciovec_tT => CaseSize (sizeof (TStruct [("buf", ptr); ("buf_len", u64)]))
  | wasm_val_tT => CaseSize (sizeof wasm_val_t)
  | WASMExecEnvT => CaseSize (sizeof WASMExecEnv)
  | WASMModuleCommonT => CaseSize (sizeof WASMModuleCommon)
  | WASMModuleMemConsumptionT => CaseSize (sizeof WASMModuleMemConsumption)
  | WASMModuleInstMemConsumptionT => CaseSize (sizeof WASMModuleInstMemConsumption)
  | WASMMemoryInstanceCommonT => CaseSize (sizeof WASMMemoryInstanceCommon)
  | WASMSectionT => CaseSize (sizeof WASMSection)
  | WASMModuleT => CaseSize (sizeof WASMModule)
  | WASMFunctionT => CaseSize (sizeof WASMFunction)
  | WASMGlobalT => CaseSize (sizeof WASMGlobal)
  | WASMExportT => CaseSize (sizeof WASMExport)
  | V128T => CaseSize (sizeof V128)
  | WASMValueT => CaseSize (sizeof WASMValue)
  | InitializerExpressionT => CaseSize (sizeof InitializerExpression)
  | WASMTypeT => CaseSize (sizeof WASMType)
  | WASMTableT => CaseSize (sizeof WASMTable)
  | WASMMemoryT => CaseSize (sizeof WASMMemory)
  | WASMTableImportT => CaseSize (sizeof WASMTableImport)
  | WASMMemoryImportT => CaseSize (sizeof WASMMemoryImport)
  | WASMFunctionImportT => CaseSize (sizeof WASMFunctionImport)
  | WASMGlobalImportT => CaseSize (sizeof WASMGlobalImport)
  | WASMImportT => CaseSize (sizeof WASMImport)
  | WASMTableSegT => CaseSize (sizeof WASMTableSeg)
  | WASMDataSegT => CaseSize (sizeof WASMDataSeg)
  | BlockAddrT => CaseSize (sizeof BlockAddr)
  | StringNodeT => CaseSize (sizeof StringNode)
  | WASMBranchBlockT => CaseSize (sizeof WASMBranchBlock)
  | WASMInterpFrameT | WASMRuntimeFrameT => CaseSize (sizeof WASMInterpFrame)
  | ConstT => CaseSize (sizeof Const)
  | WASMModuleInstanceT => CaseSize (sizeof WASMModuleInstance)
  | WASMFunctionInstanceT => CaseSize (sizeof WASMFunctionInstance)
  | WASMMemoryInstanceT => CaseSize (sizeof WASMMemoryInstance)
  | WASMTableInstanceT => CaseSize (sizeof WASMTableInstance)
  | WASMGlobalInstanceT => CaseSize (sizeof WASMGlobalInstance)
  | WASMExportFuncInstanceT => CaseSize (sizeof WASMExportFuncInstance)
  | charTT | base_addrT | WASMThreadArgT | ExternRefMapNodeT | fd_tableT | fd_prestatsT
  | argv_environ_valuesT | uvwasi_tT | uvwasi_preopen_tT | WASMRegisteredModuleT
  | LoadingModuleT | WASMFunctionTT | WASMTypeTT | WASMDataSegTT | WASMMemoryInstanceTT
  | WASMTableInstanceTT | WASMExportGlobInstanceT | WASMSubModInstNodeT
  | BranchBlockPatchT | WASI_FILE_T => NoCase
  | _ => CaseOther
  end.

(** The nodes [CASE_INFOS] links after the first, for the indices [1 .. n-1]. *)
Definition infos_chain (base addr esize n : Z) (t : Data_Type) : list Pool_Elem :=
  map (fun i => mkElem (int32 (addr - base + i * esize)) (addr + i * esize) (-1) t)
      (seqZ 1 (n - 1)).

Definition alloc_infos (addr : Z) (t : Data_Type) (n : Z) : C unit :=
  if addr =? NULL then mexit 1
  else match case_infos t with
       | NoCase => modify (alloc_node addr t n)
       | CaseOther => mstuck
       | CaseSize esize => modify (fun w =>
           set_root_info
             (mkInfo (mkElem (int32 (addr - pool_allocator w)) addr (int32 n) t)
                     (infos_chain (pool_allocator w) addr esize n t) :: root_info w) w)
       end.

(** [free_info]: drops the first node whose head is at [addr], from the object
    list or else from the frame list.  (The last loop of the source compares
    the address of a table node with [addr]; table nodes live outside the pool,
    so it never finds one and the process ends.) *)
Fixpoint remove_raw (addr : Z) (root : list Pool_Info) : option (list Pool_Info) :=
  match root with
  | [] => None
  | i :: root =>
      if p_raw i =? addr then Some root
      else match remove_raw addr root with
           | Some root' => Some (i :: root')
           | None => None
           end
  end.

Definition free_info (addr : Z) : C unit := fun w =>
  match remove_raw addr (root_info w) with
  | Some l => Ok tt (set_root_info l w)
  | None =>
      match remove_raw addr (root_frame w) with
      | Some l => Ok tt (set_root_frame l w)
      | None => Exited 1
      end
  end.
