(* ===== verification/Table.v ===== *)
(** The table of live objects keeps its invariant: every node holds the offset
    of its object from the base of the pool, and no object is recorded twice.
    From it follow the lookups: an object is found by its address and by its
    offset, and an object that was freed is not found any more. *)
From stdpp Require Import base gmap list numbers strings.
From Stdlib Require Import Strings.Byte ZArith Lia.
From S2P Require Import Prelude CMemory WasmTypes PoolInfo.

(** * The invariant *)

(** Objects lie behind the allocator structure at the base of the pool and
    within 2 GB of it, so that an offset fits an [int]. *)
Definition near (base a : Z) : Prop := 0 < a - base < 2 ^ 31.

Definition elem_at (base : Z) (e : Pool_Elem) : Prop :=
  p_abs e = int32 (p_raw e - base).

Record table_ok (base : Z) (root : list Pool_Info) : Prop := {
  tk_abs : Forall (elem_at base) (all_elems root);
  tk_near : Forall (fun e => near base (p_raw e)) (all_elems root);
  tk_raw : NoDup (p_raw <$> all_elems root)
}.

Lemma near_abs base e : elem_at base e → near base (p_raw e) → p_abs e = p_raw e - base.
Proof. intros -> ?. apply int32_small. unfold near in *. lia. Qed.

Lemma all_elems_cons i root : all_elems (i :: root) = elems i ++ all_elems root.
Proof. done. Qed.

Lemma all_elems_app l k : all_elems (l ++ k) = all_elems l ++ all_elems k.
Proof. apply bind_app. Qed.

Lemma in_all_elems e root : e ∈ all_elems root ↔ ∃ i, i ∈ root ∧ e ∈ elems i.
Proof. unfold all_elems. rewrite list_elem_of_bind. firstorder. Qed.

Lemma NoDup_p_abs base root : table_ok base root → NoDup (p_abs <$> all_elems root).
Proof.
  intros [Ha Hn Hr]. induction (all_elems root) as [|e l IH]; [constructor|].
  apply Forall_cons in Ha as [Ha1 Ha], Hn as [Hn1 Hn].
  apply NoDup_cons in Hr as [Hni Hr]. constructor; [|auto].
  intros (e'&E&Hin)%list_elem_of_fmap. apply Hni. apply list_elem_of_fmap. exists e'.
  split; [|done]. rewrite Forall_forall in *.
  rewrite (near_abs base e), (near_abs base e') in E by auto. lia.
Qed.

(** * Lookups *)

(** The first node of a list with a key that no other node has. *)
Lemma find_chain_some p e rest r :
  find_chain p e rest = Some r → ∃ pre, e :: rest = pre ++ elems r ∧ p (head r) = true
                                        ∧ Forall (fun x => p x = false) pre.
Proof.
  revert e. induction rest as [|e' rest IH]; intros e; simpl; destruct (p e) eqn:E; intros H;
    simplify_eq.
  - by exists [].
  - by exists [].
  - destruct (IH e' H) as (pre&->&?&?). exists (e :: pre). split; [done|]. auto.
Qed.

Lemma find_chain_none p e rest :
  find_chain p e rest = None ↔ Forall (fun x => p x = false) (e :: rest).
Proof.
  revert e. induction rest as [|e' rest IH]; intros e; simpl; destruct (p e) eqn:E.
  - split; [done|]. inversion 1. congruence.
  - split; [|done]. intros _. by repeat constructor.
  - split; [done|]. inversion 1. congruence.
  - rewrite IH. split; [by constructor|]. by inversion 1.
Qed.

Lemma find_info_some p root r :
  find_info p root = Some r →
  ∃ i pre, i ∈ root ∧ elems i = pre ++ elems r ∧ p (head r) = true.
Proof.
  induction root as [|i root IH]; simpl; [done|].
  destruct (find_chain p (head i) (chain i)) as [r'|] eqn:E; intros H.
  - simplify_eq. destruct (find_chain_some _ _ _ _ E) as (pre&?&?&_).
    exists i, pre. split; [left|done].
  - destruct (IH H) as (j&pre&?&?&?). exists j, pre. split; [by right|done].
Qed.

Lemma find_info_none p root :
  find_info p root = None ↔ Forall (fun e => p e = false) (all_elems root).
Proof.
  induction root as [|i root IH]; [by split|]. cbn [find_info].
  rewrite all_elems_cons, Forall_app, <- IH. unfold elems.
  rewrite <- (find_chain_none p (head i) (chain i)).
  destruct (find_chain p (head i) (chain i)); intuition congruence.
Qed.

Lemma find_info_app p l k :
  find_info p (l ++ k) = match find_info p l with Some r => Some r | None => find_info p k end.
Proof.
  induction l as [|i l IH]; [done|]. cbn [app find_info]. by destruct (find_chain p (head i) (chain i)).
Qed.

(** An element belongs to one object. *)
Lemma same_info {K} (key : Pool_Elem → K) root i j e e2 :
  NoDup (key <$> all_elems root) → i ∈ root → j ∈ root → e ∈ elems i → e2 ∈ elems j → key e = key e2 → i = j.
Proof.
  induction root as [|x root IH]; [by intros _ H%not_elem_of_nil|].
  rewrite all_elems_cons, fmap_app. intros (_&Hd&Hn)%NoDup_app Hi Hj He He2 Ek.
  assert (∀ y a b, y ∈ root → a ∈ elems x → b ∈ elems y → key a = key b → False) as Hx.
  { intros y a b Hy Ha Hb E. apply (Hd (key a)); [by apply list_elem_of_fmap_2|]. rewrite E.
    apply list_elem_of_fmap_2, in_all_elems. by exists y. }
  apply elem_of_cons in Hi as [->|Hi], Hj as [->|Hj]; [done|..]; [| |by apply IH].
  - by destruct (Hx j e e2).
  - by destruct (Hx i e2 e).
Qed.

Section Key.
Context {K : Type} (key : Pool_Elem → K) (eqb : Pool_Elem → bool) (k : K).
Context (Heq : ∀ e, eqb e = true ↔ key e = k).

Lemma find_info_key root e :
  NoDup (key <$> all_elems root) → e ∈ all_elems root → key e = k →
  ∃ i, find_info eqb root = Some i ∧ head i = e.
Proof.
  intros Hnd Hin Hk. destruct (find_info eqb root) as [r|] eqn:E.
  - exists r. split; [done|]. destruct (find_info_some _ _ _ E) as (i&pre&Hi&Hel&Hp).
    apply Heq in Hp.
    assert (head r ∈ all_elems root) as Hr.
    { apply in_all_elems. exists i. split; [done|]. rewrite Hel. apply elem_of_app. right.
      by left. }
    apply list_elem_of_lookup_1 in Hin as [n1 H1]. apply list_elem_of_lookup_1 in Hr as [n2 H2].
    assert (n1 = n2) as ->; [|congruence].
    eapply NoDup_lookup; [exact Hnd|by rewrite list_lookup_fmap, H1|].
    rewrite list_lookup_fmap, H2; simpl; congruence.
  - apply find_info_none in E. rewrite Forall_forall in E. specialize (E e Hin).
    rewrite (proj2 (Heq e) Hk) in E. done.
Qed.

(** The head of an array gives the whole array. *)
Lemma find_info_head root i :
  NoDup (key <$> all_elems root) → i ∈ root → key (head i) = k →
  find_info eqb root = Some i.
Proof.
  intros Hnd Hin Hk. induction root as [|j root IH]; [by apply not_elem_of_nil in Hin|].
  rewrite all_elems_cons, fmap_app in Hnd. apply NoDup_app in Hnd as (Hn1&Hn2&Hn3). simpl.
  apply elem_of_cons in Hin as [->|Hin].
  - destruct j as [e ch]. simpl in *. destruct ch; simpl; by rewrite (proj2 (Heq e) Hk).
  - replace (find_chain eqb (head j) (chain j)) with (@None Pool_Info); [by apply IH|].
    symmetry. apply find_chain_none. fold (elems j). apply Forall_forall. intros e He.
    destruct (eqb e) eqn:E; [|done]. apply Heq in E. destruct (Hn2 (key e)).
    + by apply list_elem_of_fmap_2.
    + rewrite E, <- Hk. apply list_elem_of_fmap_2, in_all_elems. exists i. split; [done|by left].
Qed.
End Key.

Lemma abs_key a e : (a =? p_abs e) = true ↔ p_abs e = a.
Proof. rewrite Z.eqb_eq. naive_solver. Qed.
Lemma raw_key a e : (p_raw e =? a) = true ↔ p_raw e = a.
Proof. apply Z.eqb_eq. Qed.

(** * Operations *)

Definition raws (root : list Pool_Info) : list Z := p_raw <$> all_elems root.

(** A recorded object is found by its address and by its offset. *)
Lemma get_raw_found w e :
  table_ok (pool_allocator w) (root_info w) → e ∈ all_elems (root_info w) → p_raw e ≠ NULL →
  ∃ i, get_raw (p_raw e) w = Ok (Some i) w ∧ head i = e.
Proof.
  intros Hok Hin Hn. unfold get_raw. rewrite (proj2 (Z.eqb_neq _ _)) by done.
  destruct (find_info_key p_raw (fun x => p_raw x =? p_raw e) (p_raw e) (raw_key _)
    (root_info w) e) as (i&->&?); [apply Hok|done|done|]. by exists i.
Qed.

Lemma p_abs_positive base root e :
  table_ok base root → e ∈ all_elems root → 0 < p_abs e < 2 ^ 31.
Proof.
  intros [Ha Hn _] Hin. rewrite Forall_forall in Ha, Hn.
  rewrite (near_abs base e) by auto. by apply Hn.
Qed.

Lemma get_info_found w e :
  table_ok (pool_allocator w) (root_info w) → e ∈ all_elems (root_info w) →
  ∃ i, get_info (p_abs e) w = Ok (Some i) w ∧ head i = e.
Proof.
  intros Hok Hin. pose proof (p_abs_positive _ _ _ Hok Hin). unfold get_info.
  rewrite (proj2 (Z.eqb_neq _ _)) by lia.
  destruct (find_info_key p_abs (fun x => p_abs e =? p_abs x) (p_abs e) (abs_key _)
    (root_info w) e) as (i&->&?); [by eapply NoDup_p_abs|done|done|]. by exists i.
Qed.

Lemma get_raw_missing w addr :
  addr ≠ NULL → addr ∉ raws (root_info w) → get_raw addr w = Exited 1.
Proof.
  intros Hn Hni. unfold get_raw. rewrite (proj2 (Z.eqb_neq _ _)) by done.
  replace (find_info (fun e => p_raw e =? addr) (root_info w)) with (@None Pool_Info); [done|].
  symmetry. apply find_info_none, Forall_forall. intros e He. apply Z.eqb_neq. intros <-.
  by apply Hni, list_elem_of_fmap_2.
Qed.

(** Adding an array whose addresses are new. *)
Lemma table_ok_cons base root i :
  table_ok base root → Forall (elem_at base) (elems i) →
  Forall (fun e => near base (p_raw e)) (elems i) → NoDup (p_raw <$> elems i) →
  (∀ e, e ∈ elems i → p_raw e ∉ raws root) →
  table_ok base (i :: root).
Proof.
  intros [Ha Hn Hr] Hai Hni Hri Hnew. constructor.
  - rewrite all_elems_cons. by apply Forall_app.
  - rewrite all_elems_cons. by apply Forall_app.
  - rewrite all_elems_cons, fmap_app. apply NoDup_app. split_and!; [done| |done].
    intros x (e&->&He)%list_elem_of_fmap. by apply Hnew.
Qed.

Lemma alloc_node_ok w addr t n :
  table_ok (pool_allocator w) (root_info w) → near (pool_allocator w) addr →
  addr ∉ raws (root_info w) →
  table_ok (pool_allocator w) (root_info (alloc_node addr t n w)).
Proof.
  intros Hok Hn Hnew. apply table_ok_cons; simpl; [done|by constructor|by constructor|..].
  - apply NoDup_singleton.
  - by intros e ->%list_elem_of_singleton.
Qed.

Lemma alloc_info_buf_ok w addr t n :
  table_ok (pool_allocator w) (root_info w) → near (pool_allocator w) addr → addr ≠ NULL →
  addr ∉ raws (root_info w) →
  ∃ w', alloc_info_buf addr t n w = Ok tt w' ∧ table_ok (pool_allocator w') (root_info w')
    ∧ get_raw addr w' = Ok (Some (mkInfo (mkElem (addr - pool_allocator w) addr (int32 n) t) [])) w'.
Proof.
  intros Hok Hn H0 Hnew. exists (alloc_node addr t n w). unfold alloc_info_buf.
  rewrite (proj2 (Z.eqb_neq addr NULL)) by done. split_and!; [done|by apply (alloc_node_ok w)|].
  unfold get_raw. rewrite (proj2 (Z.eqb_neq addr NULL)) by done. simpl. rewrite Z.eqb_refl.
  rewrite int32_small; [done|]. unfold near in Hn. lia.
Qed.

(** The elements of an array of [n] structures of [esize] bytes. *)
Definition array_info (base addr esize n : Z) (t : Data_Type) : Pool_Info :=
  mkInfo (mkElem (int32 (addr - base)) addr (int32 n) t) (infos_chain base addr esize n t).

Lemma array_raws base addr esize n t :
  1 <= n → p_raw <$> elems (array_info base addr esize n t)
           = (fun i => addr + i * esize) <$> seqZ 0 n.
Proof.
  intros Hn. rewrite (seqZ_cons 0 n) by lia. simpl. f_equal; [lia|].
  unfold infos_chain. rewrite <- list_fmap_compose. replace (Z.pred n) with (n - 1) by lia.
  apply list_fmap_ext. done.
Qed.

Lemma elem_at_array base addr esize n t :
  Forall (elem_at base) (elems (array_info base addr esize n t)).
Proof.
  constructor; [done|]. unfold infos_chain. apply Forall_forall.
  intros e (i&->&_)%list_elem_of_fmap. unfold elem_at. simpl. f_equal. lia.
Qed.

Lemma array_ok base root addr esize n t :
  table_ok base root → 1 <= n → 0 < esize →
  near base addr → near base (addr + n * esize) →
  (∀ a, addr <= a < addr + n * esize → a ∉ raws root) →
  table_ok base (array_info base addr esize n t :: root).
Proof.
  intros Hok Hn He Hlo Hhi Hnew.
  assert (∀ e, e ∈ elems (array_info base addr esize n t) →
               ∃ i, 0 <= i < n ∧ p_raw e = addr + i * esize) as Hel.
  { intros e Hin%(list_elem_of_fmap_2 p_raw). rewrite array_raws in Hin by done.
    apply list_elem_of_fmap in Hin as (i&->&Hi%elem_of_seqZ). exists i. split; [lia|done]. }
  apply table_ok_cons; [done|apply elem_at_array|..].
  - apply Forall_forall. intros e (i&?&->)%Hel. unfold near in *. nia.
  - rewrite array_raws by done. apply NoDup_fmap_2; [|apply NoDup_seqZ].
    intros i j ?. nia.
  - intros e (i&?&->)%Hel. apply Hnew. nia.
Qed.

Lemma alloc_infos_array w addr t n esize :
  addr ≠ NULL → case_infos t = CaseSize esize →
  alloc_infos addr t n w
  = Ok tt (set_root_info (array_info (pool_allocator w) addr esize n t :: root_info w) w).
Proof.
  intros H0 Hc. unfold alloc_infos. rewrite (proj2 (Z.eqb_neq addr NULL)) by done. by rewrite Hc.
Qed.

(** Removing the array at an address. *)
Lemma remove_raw_some addr root l :
  remove_raw addr root = Some l →
  ∃ pre i post, root = pre ++ i :: post ∧ l = pre ++ post ∧ p_raw (head i) = addr.
Proof.
  revert l. induction root as [|i root IH]; intros l; simpl; [done|].
  destruct (p_raw i =? addr) eqn:E; intros H.
  - simplify_eq. zbool. by exists [], i, l.
  - destruct (remove_raw addr root) as [l'|]; [|done]. simplify_eq.
    destruct (IH l' eq_refl) as (pre&j&post&->&->&?). by exists (i :: pre), j, post.
Qed.

Lemma remove_raw_head addr root :
  (∃ i, i ∈ root ∧ p_raw (head i) = addr) → is_Some (remove_raw addr root).
Proof.
  intros (i&Hin&Hi). induction root as [|j root IH]; [by apply not_elem_of_nil in Hin|]. simpl.
  destruct (p_raw j =? addr) eqn:E; [done|]. apply elem_of_cons in Hin as [->|Hin].
  - zbool. congruence.
  - destruct (IH Hin) as [l ->]. done.
Qed.

Lemma table_ok_remove base pre i post :
  table_ok base (pre ++ i :: post) →
  table_ok base (pre ++ post) ∧ p_raw (head i) ∉ raws (pre ++ post).
Proof.
  intros [Ha Hn Hr]. unfold raws. rewrite !all_elems_app, all_elems_cons in *.
  rewrite !Forall_app in Ha, Hn. rewrite !fmap_app in Hr.
  apply NoDup_app in Hr as (Hr1&Hr2&Hr3). apply NoDup_app in Hr3 as (Hr3&Hr4&Hr5).
  split.
  - constructor; rewrite all_elems_app.
    + apply Forall_app. tauto.
    + apply Forall_app. tauto.
    + rewrite fmap_app. apply NoDup_app. split_and!; [done| |done].
      intros x Hx Hx'. apply (Hr2 x Hx). apply elem_of_app. by right.
  - rewrite fmap_app, elem_of_app. intros [H|H].
    + apply (Hr2 _ H). apply elem_of_app. left. by left.
    + apply (Hr4 (p_raw i)); [by left|done].
Qed.

Lemma free_info_ok w i :
  table_ok (pool_allocator w) (root_info w) → i ∈ root_info w → p_raw (head i) ≠ NULL →
  ∃ w', free_info (p_raw (head i)) w = Ok tt w' ∧ table_ok (pool_allocator w') (root_info w')
    ∧ get_raw (p_raw (head i)) w' = Exited 1
    ∧ (∀ e, e ∈ all_elems (root_info w) → e ∉ elems i → e ∈ all_elems (root_info w')).
Proof.
  intros Hok Hin H0. unfold free_info.
  destruct (remove_raw_head (p_raw (head i)) (root_info w)) as [l Hl]; [by exists i|].
  rewrite Hl. destruct (remove_raw_some _ _ _ Hl) as (pre&j&post&E&->&Hj).
  rewrite E in Hok. destruct (table_ok_remove _ _ _ _ Hok) as [Hok' Hni].
  assert (j = i) as ->.
  { assert (find_info (fun e => p_raw e =? p_raw (head i)) (root_info w) = Some i) as F1
      by (eapply (find_info_head p_raw _ _ (raw_key _)); [rewrite E; apply Hok|done|done]).
    assert (find_info (fun e => p_raw e =? p_raw (head i)) (root_info w) = Some j) as F2.
    { eapply (find_info_head p_raw _ _ (raw_key _)); [rewrite E; apply Hok| |done].
      rewrite E. apply elem_of_app. right. by left. }
    congruence. }
  eexists. split; [done|]. split_and!; [done|by apply get_raw_missing|].
  intros e. rewrite E. simpl. rewrite !all_elems_app, all_elems_cons, !elem_of_app. tauto.
Qed.

Lemma free_info_missing w addr :
  (∀ i, i ∈ root_info w ++ root_frame w → p_raw (head i) ≠ addr) → free_info addr w = Exited 1.
Proof.
  intros H. unfold free_info.
  assert (∀ root, (∀ i, i ∈ root → p_raw (head i) ≠ addr) → remove_raw addr root = None) as Hn.
  { intros root Hr. destruct (remove_raw addr root) as [l|] eqn:E; [|done].
    destruct (remove_raw_some _ _ _ E) as (pre&i&post&->&_&?). edestruct (Hr i); [|done].
    apply elem_of_app. right. by left. }
  rewrite !Hn; [done|..]; intros i Hi; apply H, elem_of_app; auto.
Qed.

(** [abs_translation] restores the offsets from the addresses alone. *)
Lemma all_elems_map (f : Pool_Elem → Pool_Elem) root :
  all_elems (map (fun i => mkInfo (f (head i)) (map f (chain i))) root) = f <$> all_elems root.
Proof.
  induction root as [|i root IH]; [done|]. cbn [map]. rewrite !all_elems_cons, fmap_app, IH. done.
Qed.

Lemma abs_translation_ok w :
  Forall (fun e => near (pool_allocator w) (p_raw e)) (all_elems (root_info w)) →
  NoDup (raws (root_info w)) →
  ∃ w', abs_translation w = Ok tt w' ∧ table_ok (pool_allocator w') (root_info w')
    ∧ raws (root_info w') = raws (root_info w).
Proof.
  intros Hn Hr. eexists. split; [done|]. simpl.
  assert (raws (map (fun i => mkInfo (retranslate (pool_allocator w) (head i))
                 (map (retranslate (pool_allocator w)) (chain i))) (root_info w))
          = raws (root_info w)) as E.
  { unfold raws. rewrite all_elems_map, <- list_fmap_compose. by apply list_fmap_ext. }
  split; [|done]. constructor.
  - rewrite all_elems_map. by apply Forall_fmap, Forall_true.
  - rewrite all_elems_map. apply Forall_fmap. eapply Forall_impl; [exact Hn|]. done.
  - unfold raws in E, Hr. by rewrite E.
Qed.
