(* ===== verification/ExecEnv.v ===== *)
(** The WASM stack of an execution environment (wasm_exec_env.h) and its frames
    (wasm_interp_classic.c): frames are taken from and given back to the stack
    in last-in first-out order, each frame is also a node of the object table,
    and a restoring process takes the frames again in the order of their
    offsets, which puts each of them at its old distance from the bottom of
    the stack. *)
From stdpp Require Import base gmap list numbers strings.
From Stdlib Require Import Strings.Ascii Strings.Byte ZArith Lia Sorting.Sorted.
From S2P Require Import Prelude CMemory WasmTypes PoolInfo Table.

(** * Operations *)

Definition wasm_exec_env_alloc_wasm_frame (exec_env size : Z) : C Z :=
  let* addr := ld 8 (FLD exec_env WASMExecEnv "wasm_stack.s.top") in
  let* top_boundary := ld 8 (FLD exec_env WASMExecEnv "wasm_stack.s.top_boundary") in
  if top_boundary <? addr + uint32 (size * 2) then mret NULL
  else
    st 8 (FLD exec_env WASMExecEnv "wasm_stack.s.top") (addr + size) ;;;
    mret addr.

Definition wasm_exec_env_free_wasm_frame (exec_env prev_top : Z) : C unit :=
  st 8 (FLD exec_env WASMExecEnv "wasm_stack.s.top") prev_top.

Definition wasm_exec_env_set_cur_frame (exec_env frame : Z) : C unit :=
  st 8 (FLD exec_env WASMExecEnv "cur_frame") frame.

Definition wasm_exec_env_get_cur_frame (exec_env : Z) : C Z :=
  ld 8 (FLD exec_env WASMExecEnv "cur_frame").

(** [snprintf(cur_exception, 128, "Exception: %s", exception)]. *)
Definition bytes_of_string (s : string) : list byte :=
  String.list_byte_of_string s.

Definition wasm_set_exception (module_inst : Z) (exception : option string) : C unit :=
  let text := match exception with
              | Some e => take 127 (bytes_of_string (String.append "Exception: " e)) ++ [x00]
              | None => [x00]
              end in
  modify (fun w => set_mem (store (wmem w) (FLD module_inst WASMModuleInstance "cur_exception") text) w).

Definition stack_overflow (exec_env : Z) : C unit :=
  let* module_inst := ld 8 (FLD exec_env WASMExecEnv "module_inst") in
  wasm_set_exception module_inst (Some "wasm operand stack overflow"%string).

Definition wasm_interp_alloc_frame (exec_env size prev_frame : Z) : C Z :=
  let* frame := wasm_exec_env_alloc_wasm_frame exec_env size in
  (if negb (frame =? NULL)
   then st 8 (FLD frame WASMInterpFrame "prev_frame") prev_frame
   else stack_overflow exec_env) ;;;
  mret frame.

Definition ALLOC_FRAME (exec_env size prev_frame : Z) : C Z :=
  let* frame := wasm_exec_env_alloc_wasm_frame exec_env size in
  (if negb (frame =? NULL)
   then st 8 (FLD frame WASMInterpFrame "prev_frame") prev_frame ;;;
        alloc_info_ex frame WASMInterpFrameT size
   else stack_overflow exec_env) ;;;
  mret frame.

Definition FREE_FRAME (exec_env frame : Z) : C unit :=
  wasm_exec_env_free_wasm_frame exec_env frame ;;;
  free_info frame.

(** * The stack *)

Abbreviation STACK := (OFS WASMExecEnv "wasm_stack.s.bottom") (only parsing).

(** Top and boundary of the stack of [env]; the frames live in
    [bottom, top_boundary). *)
Definition stack_top (m : mem) (env : Z) : Z :=
  load_Z m (FLD env WASMExecEnv "wasm_stack.s.top") 8.
Definition stack_boundary (m : mem) (env : Z) : Z :=
  load_Z m (FLD env WASMExecEnv "wasm_stack.s.top_boundary") 8.
Definition stack_bottom (env : Z) : Z := FLD env WASMExecEnv "wasm_stack.s.bottom".

Record stack_ok (m : mem) (env : Z) : Prop := {
  so_env : 0 < env;
  so_top : stack_bottom env <= stack_top m env;
  so_bound : stack_top m env <= stack_boundary m env
}.

Lemma stack_boundary_range m env : 0 <= stack_boundary m env < 2 ^ 64.
Proof. apply (load_Z_range m _ 8). lia. Qed.

(** A frame of [size] bytes fits when twice its size does. *)
Definition fits (m : mem) (env size : Z) : Prop :=
  0 <= size < 2 ^ 31 ∧ stack_top m env + size * 2 <= stack_boundary m env.

Lemma alloc_wasm_frame_ok env size w :
  stack_ok (wmem w) env → fits (wmem w) env size →
  wasm_exec_env_alloc_wasm_frame env size w
  = Ok (stack_top (wmem w) env)
      (set_mem (store_Z (wmem w) (FLD env WASMExecEnv "wasm_stack.s.top") 8
                  (stack_top (wmem w) env + size)) w).
Proof.
  intros Hs [Hsz Hf]. unfold wasm_exec_env_alloc_wasm_frame.
  do 2 erewrite mbind_ok by reflexivity.
  fold (stack_top (wmem w) env). fold (stack_boundary (wmem w) env).
  unfold uint32. rewrite wrap_small by lia. by rewrite (proj2 (Z.ltb_ge _ _)) by lia.
Qed.

Lemma alloc_wasm_frame_overflow env size w :
  0 <= size < 2 ^ 31 → stack_boundary (wmem w) env < stack_top (wmem w) env + size * 2 →
  wasm_exec_env_alloc_wasm_frame env size w = Ok NULL w.
Proof.
  intros Hsz Hf. unfold wasm_exec_env_alloc_wasm_frame.
  do 2 erewrite mbind_ok by reflexivity.
  fold (stack_top (wmem w) env). fold (stack_boundary (wmem w) env).
  unfold uint32. rewrite wrap_small by lia. by rewrite (proj2 (Z.ltb_lt _ _)) by lia.
Qed.

Lemma stack_top_store m env v :
  stack_top (store_Z m (FLD env WASMExecEnv "wasm_stack.s.top") 8 v) env = uint64 v.
Proof. unfold stack_top. by rewrite load_store_Z_eq by lia. Qed.

Lemma stack_boundary_store m env v :
  stack_boundary (store_Z m (FLD env WASMExecEnv "wasm_stack.s.top") 8 v) env
  = stack_boundary m env.
Proof. unfold stack_boundary. apply load_store_Z_ne; lia. Qed.

(** The stack words of [env] are outside a write behind its bottom. *)
Lemma stack_top_apart m env a n v :
  0 <= n → stack_bottom env <= a → stack_top (store_Z m a n v) env = stack_top m env.
Proof. intros. unfold stack_top, stack_bottom in *. apply load_store_Z_ne; lia. Qed.

Lemma stack_boundary_apart m env a n v :
  0 <= n → stack_bottom env <= a → stack_boundary (store_Z m a n v) env = stack_boundary m env.
Proof. intros. unfold stack_boundary, stack_bottom in *. apply load_store_Z_ne; lia. Qed.

(** * Taking the frames again (wasm_restore.c, [restore_frame_internal]) *)

(** The first loop: a frame for every node of [root_frame], which is then the
    address of the node. *)
Fixpoint alloc_frames (exec_env prev : Z) (infos : list Pool_Info) : C (list Pool_Info) :=
  match infos with
  | [] => mret []
  | i :: infos =>
      let* frame := wasm_interp_alloc_frame exec_env (uint32 (size i)) prev in
      wasm_exec_env_set_cur_frame exec_env frame ;;;
      let* rest := alloc_frames exec_env frame infos in
      mret (mkInfo (mkElem (p_abs i) frame (size i) (type i)) (chain i) :: rest)
  end.

(** The insertion of a frame node by its offset (wasm_memory.c,
    [restore_runtime]). *)
Fixpoint insert_frame (x : Pool_Info) (l : list Pool_Info) : list Pool_Info :=
  match l with
  | [] => [x]
  | y :: l' => if p_abs y <? p_abs x then y :: insert_frame x l' else x :: l
  end.

(** ** Order *)

Definition frame_le (x y : Pool_Info) : Prop := p_abs x <= p_abs y.

Lemma insert_frame_perm x l : insert_frame x l ≡ₚ x :: l.
Proof.
  induction l as [|y l IH]; [done|]. simpl. case_match; [|done].
  rewrite IH. constructor.
Qed.

Lemma insert_frame_sorted x l :
  StronglySorted frame_le l → StronglySorted frame_le (insert_frame x l).
Proof.
  induction 1 as [|y l Hs IH Hy]; simpl; [by repeat constructor|].
  case_match; zbool.
  - constructor; [done|]. rewrite insert_frame_perm. constructor; [unfold frame_le; lia|done].
  - constructor; [by constructor|]. constructor; [done|].
    eapply Forall_impl; [exact Hy|]. unfold frame_le. simpl. lia.
Qed.

Definition insert_frames (l : list Pool_Info) : list Pool_Info :=
  foldl (fun acc x => insert_frame x acc) [] l.

Lemma foldl_insert_perm l acc : foldl (fun acc x => insert_frame x acc) acc l ≡ₚ l ++ acc.
Proof.
  revert acc. induction l as [|x l IH]; intros acc; [done|]. simpl.
  rewrite IH, insert_frame_perm. by rewrite Permutation_middle.
Qed.

Lemma insert_frames_sorted l : StronglySorted frame_le (insert_frames l).
Proof.
  unfold insert_frames. assert (StronglySorted frame_le ([] : list Pool_Info)) as H by constructor.
  revert H. generalize ([] : list Pool_Info). induction l as [|x l IH]; intros acc H; [done|].
  by apply IH, insert_frame_sorted.
Qed.

(** Two sorted lists of the same frames with distinct offsets are equal. *)
Lemma sorted_frames_unique l k :
  l ≡ₚ k → NoDup ((fun i => p_abs (head i)) <$> l) →
  StronglySorted frame_le l → StronglySorted frame_le k → l = k.
Proof.
  intros Hp. revert k Hp. induction l as [|x l IH]; intros k Hp Hnd Hl Hk.
  - by apply Permutation_nil_l in Hp.
  - destruct k as [|y k]; [by apply Permutation_nil_r in Hp|].
    inversion Hl as [|? ? Hl1 Hl2]; inversion Hk as [|? ? Hk1 Hk2]; subst.
    apply NoDup_cons in Hnd as [Hni Hnd].
    assert (x = y) as ->.
    { assert (x ∈ y :: k) as Hx by (rewrite <- Hp; left).
      assert (y ∈ x :: l) as Hy by (rewrite Hp; left).
      apply elem_of_cons in Hx as [?|Hx]; [done|]. apply elem_of_cons in Hy as [?|Hy]; [done|].
      rewrite Forall_forall in Hl2, Hk2. specialize (Hl2 _ Hy). specialize (Hk2 _ Hx).
      unfold frame_le in *. destruct Hni. apply list_elem_of_fmap. exists y. split; [lia|done]. }
    f_equal. apply IH; try done. by eapply Permutation_cons_inv.
Qed.

(** ** Addresses *)

(** The frames [infos] stacked from the address [top] on. *)
Fixpoint place (top : Z) (infos : list Pool_Info) : list Pool_Info :=
  match infos with
  | [] => []
  | i :: infos =>
      mkInfo (mkElem (p_abs i) top (size i) (type i)) (chain i) :: place (top + size i) infos
  end.

Definition total (infos : list Pool_Info) : Z := foldr (fun i n => size (head i) + n) 0 infos.

Fixpoint fits_all (top boundary : Z) (infos : list Pool_Info) : Prop :=
  match infos with
  | [] => True
  | i :: infos =>
      OFS WASMInterpFrame "lp" <= size i < 2 ^ 31 ∧ top + size i * 2 <= boundary
      ∧ fits_all (top + size i) boundary infos
  end.

(** The [prev_frame] links of frames pushed over [prev], the innermost last. *)
Fixpoint linked (m : mem) (prev : Z) (infos : list Pool_Info) : Prop :=
  match infos with
  | [] => True
  | i :: infos =>
      load_Z m (FLD (p_raw i) WASMInterpFrame "prev_frame") 8 = uint64 prev
      ∧ linked m (p_raw i) infos
  end.

Definition last_frame (prev : Z) (infos : list Pool_Info) : Z :=
  foldl (fun _ i => p_raw (head i)) prev infos.

Lemma total_nonneg top b infos : fits_all top b infos → 0 <= total infos.
Proof.
  revert top. induction infos as [|i infos IH]; intros top H; simpl; [lia|].
  destruct H as (?&?&?%IH). lia.
Qed.

(** The words of [env] that taking frames changes. *)
Definition env_words (env : Z) : list region :=
  [(FLD env WASMExecEnv "wasm_stack.s.top", 8); (FLD env WASMExecEnv "cur_frame", 8)].

Definition link_words (infos : list Pool_Info) : list region :=
  map (fun i => (FLD (p_raw (head i)) WASMInterpFrame "prev_frame", 8)) infos.

Lemma unchanged_store_Z m a v : unchanged_outside [(a, 8)] m (store_Z m a 8 v).
Proof.
  pose proof (unchanged_store m a (le_bytes 8 v)) as H. by rewrite length_le_bytes in H.
Qed.

(** One turn of the loop. *)
Lemma alloc_frame_turn env prev sz w :
  stack_ok (wmem w) env → fits (wmem w) env sz →
  ∃ m', (let* frame := wasm_interp_alloc_frame env sz prev in
         wasm_exec_env_set_cur_frame env frame ;;; mret frame) w
        = Ok (stack_top (wmem w) env) (set_mem m' w)
    ∧ stack_top m' env = stack_top (wmem w) env + sz
    ∧ stack_boundary m' env = stack_boundary (wmem w) env
    ∧ load_Z m' (FLD (stack_top (wmem w) env) WASMInterpFrame "prev_frame") 8 = uint64 prev
    ∧ load_Z m' (FLD env WASMExecEnv "cur_frame") 8 = stack_top (wmem w) env
    ∧ unchanged_outside
        ((FLD (stack_top (wmem w) env) WASMInterpFrame "prev_frame", 8) :: env_words env) (wmem w) m'.
Proof.
  intros [He Ht Hb] [Hsz Hf]. set (top := stack_top (wmem w) env) in *.
  pose proof (stack_boundary_range (wmem w) env). unfold stack_bottom in Ht.
  eexists. split.
  { unfold wasm_interp_alloc_frame. rewrite mbind_assoc.
    erewrite mbind_ok by (by apply alloc_wasm_frame_ok; [constructor|split]).
    fold top. rewrite (proj2 (Z.eqb_neq top NULL)) by (unfold NULL; lia). simpl negb.
    reflexivity. }
  simpl wmem. set (m1 := store_Z (wmem w) (FLD env WASMExecEnv "wasm_stack.s.top") 8 (top + sz)).
  set (m2 := store_Z m1 (FLD top WASMInterpFrame "prev_frame") 8 prev).
  assert (uint64 top = top) as Etop by (apply wrap_small; lia).
  split_and!.
  - unfold stack_top at 1. rewrite load_store_Z_ne by lia. fold (stack_top m2 env).
    unfold m2. rewrite stack_top_apart by (unfold stack_bottom; lia). unfold m1.
    rewrite stack_top_store. apply wrap_small. lia.
  - unfold stack_boundary at 1. rewrite load_store_Z_ne by lia. fold (stack_boundary m2 env).
    unfold m2. rewrite stack_boundary_apart by (unfold stack_bottom; lia). unfold m1.
    apply stack_boundary_store.
  - rewrite load_store_Z_ne by lia. unfold m2. by rewrite load_store_Z_eq by lia.
  - rewrite load_store_Z_eq by lia. exact Etop.
  - eapply unchanged_incl; [|eapply unchanged_trans; [apply unchanged_store_Z|
      eapply unchanged_trans; [apply unchanged_store_Z|apply unchanged_store_Z]]].
    simpl. tauto.
Qed.

Lemma linked_preserved rs m m' prev infos :
  unchanged_outside rs m m' →
  (∀ r s, In r rs → In s (link_words infos) → disjoint_region r s) →
  linked m prev infos → linked m' prev infos.
Proof.
  intros Hu. revert prev. induction infos as [|i infos IH]; intros prev Hd; [done|].
  intros [H1 H2]. split; [|apply IH; [|done]; intros r s Hr Hs; apply Hd; simpl; auto].
  rewrite <- H1. unfold load_Z. f_equal. eapply unchanged_load; [exact Hu|].
  intros r Hr. apply (Hd r _ Hr). simpl. by left.
Qed.

(** Words behind [lo] keep clear of links before [lo]. *)
Lemma link_words_place top infos b r :
  fits_all top b infos → In r (link_words (place top infos)) → top <= r.1 ∧ r.2 = 8.
Proof.
  revert top. induction infos as [|i infos IH]; intros top H; [done|].
  destruct H as (?&?&H). intros [<-|Hr]; [simpl; lia|].
  destruct (IH _ H Hr). split; [lia|done].
Qed.

Lemma alloc_frames_cons env prev i infos w f w1 :
  (let* frame := wasm_interp_alloc_frame env (uint32 (size (head i))) prev in
   wasm_exec_env_set_cur_frame env frame ;;; mret frame) w = Ok f w1 →
  alloc_frames env prev (i :: infos) w
  = (let* rest := alloc_frames env f infos in
     mret (mkInfo (mkElem (p_abs i) f (size i) (type i)) (chain i) :: rest)) w1.
Proof.
  intros H. cbn [alloc_frames]. unfold mbind in *.
  destruct (wasm_interp_alloc_frame env (uint32 (size i)) prev w) as [f' w'| |]; [|done|done].
  destruct (wasm_exec_env_set_cur_frame env f' w') as [[] w''| |]; [|done|done].
  unfold mret in H. by simplify_eq.
Qed.

Lemma alloc_frames_ok env infos : ∀ prev w,
  stack_ok (wmem w) env →
  fits_all (stack_top (wmem w) env) (stack_boundary (wmem w) env) infos →
  let placed := place (stack_top (wmem w) env) infos in
  ∃ m', alloc_frames env prev infos w = Ok placed (set_mem m' w)
    ∧ stack_top m' env = stack_top (wmem w) env + total infos
    ∧ linked m' prev placed
    ∧ (infos ≠ [] → load_Z m' (FLD env WASMExecEnv "cur_frame") 8 = last_frame prev placed)
    ∧ unchanged_outside (env_words env ++ link_words placed) (wmem w) m'.
Proof.
  induction infos as [|i infos IH]; intros prev w Hs Hf; cbn [place].
  - exists (wmem w). split_and!; try done; [by destruct w|simpl; lia].
  - destruct Hf as (Hsz&Hb&Hf). pose proof (total_nonneg _ _ _ Hf). destruct Hs as [He Ht Hbd].
    pose proof (stack_boundary_range (wmem w) env).
    destruct (alloc_frame_turn env prev (uint32 (size i)) w)
      as (m1&Hr1&Ht1&Hb1&Hl1&Hc1&Hu1).
    { by constructor. } { unfold uint32. rewrite wrap_small by lia. split; lia. }
    assert (uint32 (size i) = size i) as Esz by (apply wrap_small; lia). rewrite Esz in Ht1.
    erewrite alloc_frames_cons by exact Hr1. set (top := stack_top (wmem w) env) in *.
    destruct (IH top (set_mem m1 w)) as (m2&Hr2&Ht2&Hl2&Hc2&Hu2); simpl wmem in *.
    { constructor; [done|lia|lia]. } { by rewrite Ht1, Hb1. }
    rewrite Ht1 in *. exists m2.
    assert (∀ r, In r (env_words env ++ link_words (place (top + size i) infos)) →
                 disjoint_region r (top, 8)) as Hd.
    { intros r [Hr|Hr]%in_app_iff.
      - unfold stack_bottom in Ht. destruct Hr as [<-|[<-|[]]]; unfold disjoint_region; simpl; lia.
      - destruct (link_words_place _ _ _ _ Hf Hr). unfold disjoint_region. simpl. lia. }
    split_and!.
    + erewrite mbind_ok by exact Hr2. done.
    + rewrite Ht2. simpl. lia.
    + cbn [linked p_raw head]. split; [|exact Hl2]. rewrite <- Hl1. unfold load_Z. f_equal.
      eapply unchanged_load; [exact Hu2|]. intros r Hr. rewrite Z.add_0_r. by apply Hd.
    + intros _. destruct infos as [|j infos].
      * simpl in Hr2. inversion Hr2. subst m2. simpl. rewrite Hc1. done.
      * by rewrite Hc2.
    + eapply unchanged_incl; [|by eapply unchanged_trans].
      intros r. rewrite !in_app_iff. simpl. rewrite Z.add_0_r. tauto.
Qed.

(** ** The frames of a running interpreter *)

(** The frames of the stack of [env], outermost first: each begins where the
    one before it ends. *)
Inductive stacked : Z → list Pool_Info → Prop :=
| stacked_nil a : stacked a []
| stacked_cons a i infos :
    p_raw (head i) = a → stacked (a + size i) infos → stacked a (i :: infos).

Lemma stacked_sorted base a infos :
  stacked a infos → Forall (fun i => elem_at base (head i) ∧ near base (p_raw (head i))) infos →
  Forall (fun i => 0 < size (head i)) infos →
  StronglySorted frame_le infos ∧ Forall (fun i => a - base <= p_abs (head i)) infos.
Proof.
  induction 1 as [a|a i infos Hi Hs IH]; intros Hn Hz; [by repeat constructor|].
  apply Forall_cons in Hn as [[Ha Hn1] Hn], Hz as [Hz1 Hz].
  destruct (IH Hn Hz) as [IH1 IH2]. split.
  - constructor; [done|]. eapply Forall_impl; [exact IH2|]. intros j Hj. simpl in Hj.
    unfold frame_le. rewrite (near_abs base (head i)) by done. lia.
  - constructor; [rewrite (near_abs base (head i)) by done; lia|].
    eapply Forall_impl; [exact IH2|]. simpl. lia.
Qed.

(** Where [place] puts the frames: the same distances from another address. *)
Lemma place_shift a a' infos :
  stacked a infos →
  Forall2 (fun i i' => p_raw (head i') - a' = p_raw (head i) - a
                       ∧ p_abs (head i') = p_abs (head i) ∧ size (head i') = size (head i))
    infos (place a' infos).
Proof.
  intros H. revert a'. induction H as [a|a i infos Hi Hs IH]; intros a'; [constructor|].
  constructor; [simpl; lia|]. eapply Forall2_impl; [apply (IH (a' + size i))|].
  simpl. intros j j' (?&?&?). lia.
Qed.

Lemma stacked_NoDup_abs base a infos :
  stacked a infos → Forall (fun i => elem_at base (head i) ∧ near base (p_raw (head i))) infos →
  Forall (fun i => 0 < size (head i)) infos → NoDup ((fun i => p_abs (head i)) <$> infos).
Proof.
  induction 1 as [a|a i infos Hi Hs IH]; intros Hn Hz; [constructor|].
  destruct (stacked_sorted base (a + size i) infos) as [_ H]; [done|by inversion Hn|by inversion Hz|].
  apply Forall_cons in Hn as [[Ha Hn1] Hn], Hz as [Hz1 Hz]. constructor; [|auto].
  intros (j&E&Hj)%list_elem_of_fmap. rewrite Forall_forall in H. specialize (H j Hj). simpl in H.
  rewrite (near_abs base (head i)) in E by done. lia.
Qed.

Lemma fits_all_positive a b infos : fits_all a b infos → Forall (fun i => 0 < size (head i)) infos.
Proof.
  revert a. induction infos as [|i infos IH]; intros a H; [constructor|]. destruct H as (?&?&?).
  constructor; [lia|]. eauto.
Qed.

(** The frames of a stack, listed in any order, are put into stack order again. *)
Lemma insert_frames_stacked base a frames l :
  stacked a frames → Forall (fun i => elem_at base (head i) ∧ near base (p_raw (head i))) frames →
  Forall (fun i => 0 < size (head i)) frames → l ≡ₚ frames → insert_frames l = frames.
Proof.
  intros Hst Hel Hz Hp. apply sorted_frames_unique.
  - unfold insert_frames. by rewrite foldl_insert_perm, app_nil_r.
  - unfold insert_frames. rewrite foldl_insert_perm, app_nil_r, Hp.
    by eapply stacked_NoDup_abs.
  - apply insert_frames_sorted.
  - by eapply stacked_sorted.
Qed.

Lemma frames_replayed_ok base env bottom frames l w :
  stacked bottom frames →
  Forall (fun i => elem_at base (head i) ∧ near base (p_raw (head i))) frames →
  l ≡ₚ frames →
  stack_ok (wmem w) env → stack_top (wmem w) env = stack_bottom env →
  fits_all (stack_bottom env) (stack_boundary (wmem w) env) frames →
  ∃ placed w',
    insert_frames l = frames
    ∧ alloc_frames env NULL (insert_frames l) w = Ok placed w'
    ∧ Forall2 (fun i i' => p_raw (head i') - stack_bottom env = p_raw (head i) - bottom
                 ∧ p_abs (head i') = p_abs (head i) ∧ size (head i') = size (head i)) frames placed
    ∧ linked (wmem w') NULL placed
    ∧ stack_top (wmem w') env = stack_bottom env + total frames
    ∧ unchanged_outside (env_words env ++ link_words placed) (wmem w) (wmem w').
Proof.
  intros Hst Hel Hp Hs Htop Hf.
  assert (insert_frames l = frames) as E.
  { eapply insert_frames_stacked; [exact Hst|exact Hel|by eapply fits_all_positive|exact Hp]. }
  destruct (alloc_frames_ok env frames NULL w) as (m'&Hr&Ht&Hl&_&Hu); [done|by rewrite Htop|].
  rewrite Htop in *. do 2 eexists. rewrite E. split_and!; [done|exact Hr| |done|done|done].
  by apply place_shift.
Qed.

(** * Theorems *)

Lemma ALLOC_FRAME_ok env sz prev w :
  stack_ok (wmem w) env → fits (wmem w) env sz → near (pool_allocator w) (stack_top (wmem w) env) →
  let top := stack_top (wmem w) env in
  ∃ m', ALLOC_FRAME env sz prev w = Ok top (alloc_node top WASMInterpFrameT sz (set_mem m' w))
    ∧ stack_top m' env = top + sz ∧ stack_boundary m' env = stack_boundary (wmem w) env
    ∧ load_Z m' (FLD top WASMInterpFrame "prev_frame") 8 = uint64 prev.
Proof.
  intros Hs Hf Hn top. destruct Hs as [He Ht Hb] eqn:Es. destruct Hf as [Hsz Hf'] eqn:Ef.
  pose proof (stack_boundary_range (wmem w) env). unfold stack_bottom in Ht. fold top in Ht, Hb, Hf'.
  unfold ALLOC_FRAME. eexists. split.
  { erewrite mbind_ok by (by apply alloc_wasm_frame_ok). fold top.
    unfold alloc_info_ex. rewrite (proj2 (Z.eqb_neq top NULL)) by (unfold NULL; lia).
    simpl negb. reflexivity. }
  cbn [wmem set_mem]. split_and!.
  - rewrite stack_top_apart by (unfold stack_bottom; lia). rewrite stack_top_store.
    apply wrap_small. lia.
  - rewrite stack_boundary_apart by (unfold stack_bottom; lia). apply stack_boundary_store.
  - by rewrite load_store_Z_eq by lia.
Qed.

(** a frame taken from the stack starts at the old top, is linked to the
    previous frame and recorded in the object table, which stays well formed;
    giving it back restores the top of the stack and the table. *)
Theorem alloc_free_frame env sz prev w :
  stack_ok (wmem w) env → fits (wmem w) env sz →
  table_ok (pool_allocator w) (root_info w) →
  near (pool_allocator w) (stack_top (wmem w) env) →
  stack_top (wmem w) env ∉ raws (root_info w) →
  ∃ w1 w2,
    ALLOC_FRAME env sz prev w = Ok (stack_top (wmem w) env) w1
    ∧ table_ok (pool_allocator w1) (root_info w1)
    ∧ stack_top (wmem w1) env = stack_top (wmem w) env + sz
    ∧ load_Z (wmem w1) (FLD (stack_top (wmem w) env) WASMInterpFrame "prev_frame") 8 = uint64 prev
    ∧ FREE_FRAME env (stack_top (wmem w) env) w1 = Ok tt w2
    ∧ root_info w2 = root_info w
    ∧ stack_top (wmem w2) env = stack_top (wmem w) env
    ∧ stack_boundary (wmem w2) env = stack_boundary (wmem w) env.
Proof.
  intros Hs Hf Ht Hn Hnew.
  destruct (ALLOC_FRAME_ok env sz prev w Hs Hf Hn) as (m'&Hr&Htop&Hb&Hp).
  do 2 eexists. split; [exact Hr|]. split_and!; [| exact Htop|exact Hp| | | |].
  - by apply (alloc_node_ok (set_mem m' w)).
  - unfold FREE_FRAME, wasm_exec_env_free_wasm_frame. erewrite mbind_ok by reflexivity.
    unfold free_info. simpl. rewrite Z.eqb_refl. reflexivity.
  - done.
  - simpl. rewrite stack_top_store. apply wrap_small. apply (load_Z_range (wmem w) _ 8). lia.
  - simpl. by rewrite stack_boundary_store.
Qed.

(** Taking a frame that does not fit leaves the stack and the table as they
    are and reports null, with the exception text in the module instance. *)
Theorem alloc_frame_overflow env sz prev w :
  0 <= sz < 2 ^ 31 → stack_boundary (wmem w) env < stack_top (wmem w) env + sz * 2 →
  ∃ m', ALLOC_FRAME env sz prev w = Ok NULL (set_mem m' w)
    ∧ load m' (FLD (load_Z (wmem w) (FLD env WASMExecEnv "module_inst") 8)
                WASMModuleInstance "cur_exception") 39
      = bytes_of_string "Exception: wasm operand stack overflow" ++ [x00]
    ∧ unchanged_outside
        [(FLD (load_Z (wmem w) (FLD env WASMExecEnv "module_inst") 8)
           WASMModuleInstance "cur_exception", 128)] (wmem w) m'.
Proof.
  intros Hsz Hf. unfold ALLOC_FRAME. eexists. split.
  { erewrite mbind_ok by (by apply alloc_wasm_frame_overflow). reflexivity. }
  split.
  - by apply load_store_eq.
  - eapply unchanged_weaken; [|apply unchanged_store].
    intros x r [<-|[]] Hx. eexists. split; [by left|]. unfold in_region in *. simpl in *. lia.
Qed.

(** The frames of the source process, read from the image in any order, are
    put into stack order again, and the restoring process takes each of them at
    its old distance from the bottom of the stack, linked in the same order. *)
Lemma frames_replayed base env bottom frames l w :
  stacked bottom frames →
  Forall (fun i => elem_at base (head i) ∧ near base (p_raw (head i))) frames →
  l ≡ₚ frames →
  stack_ok (wmem w) env → stack_top (wmem w) env = stack_bottom env →
  fits_all (stack_bottom env) (stack_boundary (wmem w) env) frames →
  ∃ placed w',
    insert_frames l = frames
    ∧ alloc_frames env NULL (insert_frames l) w = Ok placed w'
    ∧ Forall2 (fun i i' => p_raw (head i') - stack_bottom env = p_raw (head i) - bottom
                 ∧ p_abs (head i') = p_abs (head i) ∧ size (head i') = size (head i)) frames placed
    ∧ linked (wmem w') NULL placed
    ∧ stack_top (wmem w') env = stack_bottom env + total frames
    ∧ unchanged_outside (env_words env ++ link_words placed) (wmem w) (wmem w').
Proof. apply frames_replayed_ok. Qed.

(** ** A small stack

    An execution environment at 8192 in a pool at 4096, with room for 512 bytes
    of frames, half of which a single frame may use. *)
Definition sample_env : Z := 8192.

Definition sample_stack : mem :=
  store_Z (store_Z (store_Z ∅ (FLD sample_env WASMExecEnv "wasm_stack.s.top") 8
                      (stack_bottom sample_env))
             (FLD sample_env WASMExecEnv "wasm_stack.s.top_boundary") 8
             (stack_bottom sample_env + 512))
    (FLD sample_env WASMExecEnv "module_inst") 8 16384.

Definition sample_world : world :=
  mkWorld sample_stack FClosed FClosed [] [] 4096 0 0 0 0 0 0.

Lemma sample_stack_ok : stack_ok sample_stack sample_env.
Proof. constructor; vm_compute; congruence. Qed.

Lemma alloc_free_frame_witness :
  ∃ w1 w2, ALLOC_FRAME sample_env 128 NULL sample_world = Ok (stack_bottom sample_env) w1
    ∧ FREE_FRAME sample_env (stack_bottom sample_env) w1 = Ok tt w2
    ∧ root_info w2 = [] ∧ stack_top (wmem w2) sample_env = stack_bottom sample_env.
Proof.
  destruct (alloc_free_frame sample_env 128 NULL sample_world) as (w1&w2&H1&_&_&_&H2&H3&H4&_).
  - exact sample_stack_ok.
  - split; vm_compute; repeat split; congruence.
  - constructor; constructor.
  - vm_compute. repeat split; congruence.
  - by intros H%elem_of_nil.
  - by exists w1, w2.
Defined.

Lemma alloc_frame_overflow_witness :
  ∃ m', ALLOC_FRAME sample_env 300 NULL sample_world = Ok NULL (set_mem m' sample_world)
    ∧ load m' (FLD 16384 WASMModuleInstance "cur_exception") 39
      = bytes_of_string "Exception: wasm operand stack overflow" ++ [x00].
Proof.
  destruct (alloc_frame_overflow sample_env 300 NULL sample_world) as (m'&H1&H2&_).
  - split; vm_compute; congruence.
  - vm_compute. congruence.
  - exists m'. split; [exact H1|exact H2].
Defined.

(** Two frames of a source process with its pool at 1048576, listed in the
    wrong order. *)
Definition sample_frames : list Pool_Info :=
  [mkInfo (mkElem 4096 1052672 128 WASMInterpFrameT) [];
   mkInfo (mkElem 4224 1052800 72 WASMInterpFrameT) []].

Lemma frames_replayed_witness :
  ∃ placed w', insert_frames (rev sample_frames) = sample_frames
    ∧ alloc_frames sample_env NULL (insert_frames (rev sample_frames)) sample_world = Ok placed w'
    ∧ linked (wmem w') NULL placed.
Proof.
  destruct (frames_replayed 1048576 sample_env 1052672 sample_frames (rev sample_frames) sample_world)
    as (placed&w'&H1&H2&_&H4&_).
  - repeat constructor.
  - repeat constructor; vm_compute; congruence.
  - symmetry. apply Permutation_rev.
  - exact sample_stack_ok.
  - vm_compute. reflexivity.
  - vm_compute. repeat split; congruence.
  - exists placed, w'. split; [exact H1|]. split; [exact H2|exact H4].
Defined.
