(* ===== verification/Memory.v ===== *)
(** The memory front end of the runtime (wasm_memory.c): the allocation mode,
    and [wasm_runtime_malloc], [wasm_runtime_realloc], [wasm_runtime_free], which
    pass a request to the pool allocator or to the embedder's functions and keep
    the object table in step.

    The pool allocator and the embedder's functions are parameters: [Allocator]
    states what the runtime relies on, and [bump_allocator] is a concrete
    embedder's allocator that keeps it. *)
From stdpp Require Import base gmap list numbers strings.
From Stdlib Require Import Strings.Byte ZArith Lia.
From S2P Require Import Prelude CMemory WasmTypes PoolInfo Table.

(** * State *)

Inductive Memory_Mode := MEMORY_MODE_UNKNOWN | MEMORY_MODE_POOL | MEMORY_MODE_ALLOCATOR.

#[export] Instance Memory_Mode_eq_dec : EqDecision Memory_Mode.
Proof. solve_decision. Defined.

(** The functions behind the front end. *)
Record alloc_funcs := mkFuncs {
  af_malloc : Z → C Z;
  af_realloc : Z → Z → C Z;
  af_free : Z → C unit
}.

Record memory_state := mkMemory {
  memory_mode : Memory_Mode;
  pool_funcs : alloc_funcs;            (* mem_allocator_malloc, ... on pool_allocator *)
  user_funcs : alloc_funcs;            (* malloc_func, realloc_func, free_func *)
  has_realloc : bool                   (* realloc_func is not null *)
}.

(** * Operations *)

Definition wasm_runtime_malloc_internal (s : memory_state) (size : Z) : C Z :=
  match memory_mode s with
  | MEMORY_MODE_UNKNOWN => mret NULL
  | MEMORY_MODE_POOL => af_malloc (pool_funcs s) size
  | MEMORY_MODE_ALLOCATOR => af_malloc (user_funcs s) size
  end.

Definition wasm_runtime_realloc_internal (s : memory_state) (ptr size : Z) : C Z :=
  match memory_mode s with
  | MEMORY_MODE_UNKNOWN => mret NULL
  | MEMORY_MODE_POOL => af_realloc (pool_funcs s) ptr size
  | MEMORY_MODE_ALLOCATOR =>
      if has_realloc s then af_realloc (user_funcs s) ptr size else mret NULL
  end.

Definition wasm_runtime_free_internal (s : memory_state) (ptr : Z) : C unit :=
  if ptr =? NULL then skip
  else match memory_mode s with
       | MEMORY_MODE_UNKNOWN => skip
       | MEMORY_MODE_POOL => af_free (pool_funcs s) ptr
       | MEMORY_MODE_ALLOCATOR => af_free (user_funcs s) ptr
       end.

(** The argument is an [unsigned int]. *)
Definition wasm_runtime_malloc (s : memory_state) (size : Z) : C Z :=
  let size := uint32 size in
  wasm_runtime_malloc_internal s (if size =? 0 then 1 else size).

Definition wasm_runtime_realloc (s : memory_state) (ptr size : Z) : C Z :=
  let* ret := wasm_runtime_realloc_internal s ptr (uint32 size) in
  (if negb (ret =? NULL) then free_info ptr else skip) ;;;
  mret ret.

Definition wasm_runtime_free (s : memory_state) (ptr : Z) : C unit :=
  wasm_runtime_free_internal s ptr ;;;
  free_info ptr.

(** * What the runtime relies on *)

(** [a_inv w bs room]: the blocks [bs] are allocated and [room] bytes are left,
    a request of [n] bytes taking [a_cost n] of them. *)
Class Allocator (malloc : Z → C Z) := {
  a_cost : Z → Z;
  a_inv : world → list region → Z → Prop;
  a_cost_nonneg n : 0 <= n → 0 <= a_cost n;
  a_malloc_ok w bs room n :
    a_inv w bs room → 0 < n < 2 ^ 32 → a_cost n <= room →
    ∃ p m', malloc n w = Ok p (set_mem m' w)
      ∧ 0 < p ∧ p + n < 2 ^ 64
      ∧ Forall (fun b => disjoint_region (p, n) b) bs
      ∧ Forall (fun b => ∀ x, in_region x b → m' !!! x = wmem w !!! x) bs
      ∧ a_inv (set_mem m' w) ((p, n) :: bs) (room - a_cost n);
  (* the table, the streams and the statics are no business of the allocator *)
  a_inv_mem w w' bs room : wmem w' = wmem w → pool_allocator w' = pool_allocator w →
    a_inv w bs room → a_inv w' bs room
}.

(** A bump allocator: the word at the base of the pool is the next free address,
    the word after it the end. *)
Definition bump_malloc (n : Z) : C Z :=
  let* base := gets pool_allocator in
  let* p := ld 8 base in
  let* e := ld 8 (base + 8) in
  if e <? p + n then mret NULL
  else st 8 base (p + n) ;;; mret p.

Definition bump_inv (w : world) (bs : list region) (room : Z) : Prop :=
  let base := pool_allocator w in
  let p := load_Z (wmem w) base 8 in
  0 < base ∧ base + 16 <= p ∧ 0 <= room ∧ p + room = load_Z (wmem w) (base + 8) 8
  ∧ Forall (fun b => base + 16 <= b.1 ∧ 0 <= b.2 ∧ b.1 + b.2 <= p) bs.

#[export] Instance bump_allocator : Allocator bump_malloc.
Proof.
  refine {| a_cost n := n; a_inv := bump_inv |}.
  - done.
  - intros w bs room n (Hb&Hp&Hroom&He&HF) Hn Hc. cbv beta in Hc.
    set (base := pool_allocator w) in *. set (p := load_Z (wmem w) base 8) in *.
    pose proof (load_Z_range (wmem w) (base + 8) 8 ltac:(lia)) as Hr.
    exists p, (store_Z (wmem w) base 8 (p + n)). unfold bump_malloc.
    assert (load_Z (store_Z (wmem w) base 8 (p + n)) base 8 = p + n) as Ep.
    { rewrite load_store_Z_eq by lia. apply Z.mod_small. lia. }
    split_and!.
    + do 3 erewrite mbind_ok by reflexivity. fold base. fold p.
      by rewrite (proj2 (Z.ltb_ge _ _)) by lia.
    + lia.
    + lia.
    + eapply Forall_impl; [exact HF|]. intros b (?&?&?). unfold disjoint_region. simpl. lia.
    + eapply Forall_impl; [exact HF|]. intros b (?&?&?) x Hx. unfold store_Z.
      unfold in_region in Hx. rewrite store_out by (rewrite length_le_bytes; lia). done.
    + unfold bump_inv. cbn [pool_allocator wmem set_mem]. fold base. rewrite Ep.
      rewrite load_store_Z_ne by lia. split_and!; try lia. constructor; [simpl; lia|].
      eapply Forall_impl; [exact HF|]. intros b (?&?&?). lia.
  - intros w w' bs room Em Ep. unfold bump_inv. by rewrite Em, Ep.
Defined.

(** * Theorems *)

(** An allocator function touches the memory only. *)
Definition quiet_free (f : Z → C unit) : Prop := ∀ p w, ∃ m', f p w = Ok tt (set_mem m' w).

Definition mode_funcs (s : memory_state) : option alloc_funcs :=
  match memory_mode s with
  | MEMORY_MODE_UNKNOWN => None
  | MEMORY_MODE_POOL => Some (pool_funcs s)
  | MEMORY_MODE_ALLOCATOR => Some (user_funcs s)
  end.

Lemma free_internal_quiet s ptr w :
  (∀ fs, mode_funcs s = Some fs → quiet_free (af_free fs)) →
  ∃ m', wasm_runtime_free_internal s ptr w = Ok tt (set_mem m' w).
Proof.
  intros Hq. assert (∃ m', skip w = Ok tt (set_mem m' w)) as Hs
    by (exists (wmem w); by destruct w).
  unfold wasm_runtime_free_internal, mode_funcs in *. destruct (ptr =? NULL); [done|].
  destruct (memory_mode s); [done|by apply (Hq _ eq_refl)|by apply (Hq _ eq_refl)].
Qed.

(** In every mode, freeing a live object removes it, with all elements of
    its array, from the object table, keeps the table well formed and keeps
    every other object. *)
Lemma wasm_runtime_free_ok s w i :
  (∀ fs, mode_funcs s = Some fs → quiet_free (af_free fs)) →
  table_ok (pool_allocator w) (root_info w) → i ∈ root_info w → p_raw (head i) ≠ NULL →
  ∃ w', wasm_runtime_free s (p_raw (head i)) w = Ok tt w'
    ∧ table_ok (pool_allocator w') (root_info w')
    ∧ get_raw (p_raw (head i)) w' = Exited 1
    ∧ (∀ e, e ∈ all_elems (root_info w) → e ∉ elems i → e ∈ all_elems (root_info w')).
Proof.
  intros Hq Hok Hin H0. unfold wasm_runtime_free.
  destruct (free_internal_quiet s (p_raw (head i)) w Hq) as [m' Hr].
  erewrite mbind_ok by exact Hr. by apply (free_info_ok (set_mem m' w)).
Qed.

(** freeing a null pointer ends the process, although the front end
    only means to warn about it: null is never in the object table. *)
Theorem wasm_runtime_free_null s w :
  Forall (fun i => p_raw (head i) ≠ NULL) (root_info w ++ root_frame w) →
  wasm_runtime_free s NULL w = Exited 1.
Proof.
  intros H. unfold wasm_runtime_free, wasm_runtime_free_internal. rewrite Z.eqb_refl.
  erewrite mbind_ok by reflexivity. apply free_info_missing.
  intros i Hi. rewrite Forall_forall in H. by apply H.
Qed.

(** Removing an array leaves no new address. *)
Lemma free_info_raws addr w w' :
  free_info addr w = Ok tt w' →
  (∃ i, i ∈ root_info w ∧ p_raw (head i) = addr) →
  ∀ a, a ∈ raws (root_info w') → a ∈ raws (root_info w).
Proof.
  intros Hfr Hhd a. unfold free_info in Hfr. destruct (remove_raw_head addr _ Hhd) as [l Hl].
  rewrite Hl in Hfr. inversion Hfr; subst w'. cbn [root_info set_root_info].
  destruct (remove_raw_some _ _ _ Hl) as (pre&j&post&E&->&_). rewrite E. unfold raws.
  rewrite !all_elems_app, all_elems_cons, !fmap_app, !elem_of_app. tauto.
Qed.

(** after a successful [wasm_runtime_realloc] the old object has left the
    table, and the new block is not in it: it is the caller who must record it. *)
Theorem wasm_runtime_realloc_ok s w i size ret m' :
  wasm_runtime_realloc_internal s (p_raw (head i)) (uint32 size) w = Ok ret (set_mem m' w) →
  ret ≠ NULL →
  table_ok (pool_allocator w) (root_info w) → i ∈ root_info w → p_raw (head i) ≠ NULL →
  ∃ w', wasm_runtime_realloc s (p_raw (head i)) size w = Ok ret w'
    ∧ table_ok (pool_allocator w') (root_info w')
    ∧ get_raw (p_raw (head i)) w' = Exited 1
    ∧ (ret ∉ raws (root_info w) → get_raw ret w' = Exited 1).
Proof.
  intros Hr Hret Hok Hin H0. unfold wasm_runtime_realloc. erewrite mbind_ok by exact Hr.
  rewrite (proj2 (Z.eqb_neq ret NULL)) by done. simpl negb.
  destruct (free_info_ok (set_mem m' w) i Hok Hin H0) as (w'&Hfr&Hok'&Hg&_).
  erewrite mbind_ok by exact Hfr. exists w'. split_and!; try done. intros Hni.
  apply get_raw_missing; [done|]. intros Ha. apply Hni.
  eapply (free_info_raws (p_raw (head i)) (set_mem m' w) w'); [done|by exists i|done].
Qed.

(** a request of zero bytes is served as one byte; without an allocator
    every request fails; otherwise the request goes to the allocator of the
    mode, its size reduced to 32 bits. *)
Theorem wasm_runtime_malloc_spec s n w :
  wasm_runtime_malloc s n w
  = match mode_funcs s with
    | None => Ok NULL w
    | Some fs => af_malloc fs (Z.max 1 (uint32 n)) w
    end.
Proof.
  unfold wasm_runtime_malloc, wasm_runtime_malloc_internal, mode_funcs.
  pose proof (wrap_range 32 n ltac:(lia)) as Hr. fold uint32 in *. change (wrap 32 n) with (uint32 n) in Hr.
  destruct (memory_mode s); [done|..]; f_equal;
    destruct (Z.eqb_spec (uint32 n) 0) as [->|]; try done; lia.
Qed.


(** C33: recording an array of [n] structures keeps the table well formed, and
    each element is found by its address and by its offset from the pool. *)
Theorem alloc_infos_correct w addr t n esize k :
  table_ok (pool_allocator w) (root_info w) → case_infos t = CaseSize esize →
  1 <= n → 0 < esize → addr ≠ NULL → 0 < addr →
  near (pool_allocator w) addr → near (pool_allocator w) (addr + n * esize) →
  (∀ a, addr <= a < addr + n * esize → a ∉ raws (root_info w)) → 0 <= k < n →
  ∃ w' i i', alloc_infos addr t n w = Ok tt w'
    ∧ table_ok (pool_allocator w') (root_info w')
    ∧ get_raw (addr + k * esize) w' = Ok (Some i) w'
    ∧ get_info (addr + k * esize - pool_allocator w) w' = Ok (Some i') w'
    ∧ head i = head i' ∧ p_raw (head i) = addr + k * esize ∧ type (head i) = t.
Proof.
  intros Hok Hc Hn He H0 Hpos Hlo Hhi Hnew Hk. eexists.
  rewrite (alloc_infos_array w addr t n esize H0 Hc).
  set (arr := array_info (pool_allocator w) addr esize n t).
  set (w' := set_root_info (arr :: root_info w) w).
  assert (table_ok (pool_allocator w') (root_info w')) as Hok' by (by apply array_ok).
  assert (∃ e, e ∈ elems arr ∧ p_raw e = addr + k * esize) as (e&Hin&Er).
  { assert (addr + k * esize ∈ p_raw <$> elems arr) as H.
    { unfold arr. rewrite array_raws by done. apply list_elem_of_fmap. exists k.
      split; [done|]. apply elem_of_seqZ. lia. }
    apply list_elem_of_fmap in H as (e&->&?). by exists e. }
  assert (e ∈ all_elems (root_info w')) as Hall.
  { simpl. rewrite all_elems_cons. apply elem_of_app. by left. }
  destruct (get_raw_found w' e) as (i&Hi&Ei); [done|done|rewrite Er; unfold NULL; nia|].
  destruct (get_info_found w' e) as (i'&Hi'&Ei'); [done|done|].
  assert (p_abs e = addr + k * esize - pool_allocator w) as Ea.
  { rewrite (near_abs (pool_allocator w)), Er; [done|..].
    - pose proof (elem_at_array (pool_allocator w) addr esize n t) as HF.
      rewrite Forall_forall in HF. by apply HF.
    - rewrite Er. unfold near in *. nia. }
  exists i, i'. rewrite <- Ea, <- Er. split_and!; try done; [congruence|congruence|].
  rewrite Ei. unfold arr, array_info, elems in Hin. simpl in Hin.
  apply elem_of_cons in Hin as [->|Hin]; [done|].
  unfold infos_chain in Hin. apply list_elem_of_fmap in Hin as (j&->&_). done.
Qed.

(** ** A small table

    A byte buffer and an array of three constants, in a pool at 4096. *)
Definition sample_root : list Pool_Info :=
  [mkInfo (mkElem 256 4352 8 uint8T) [];
   mkInfo (mkElem 512 4608 3 ConstT)
     [mkElem (512 + SIZEOF Const) (4608 + SIZEOF Const) (-1) ConstT;
      mkElem (512 + 2 * SIZEOF Const) (4608 + 2 * SIZEOF Const) (-1) ConstT]].

Definition sample_state : world := mkWorld ∅ FClosed FClosed sample_root [] 4096 0 0 0 0 0 0.

(** An allocator whose blocks come from 65536. *)
Definition sample_funcs : alloc_funcs :=
  mkFuncs (fun _ => mret 65536) (fun _ _ => mret 65536) (fun _ => skip).

Definition sample_memory_state : memory_state :=
  mkMemory MEMORY_MODE_ALLOCATOR sample_funcs sample_funcs true.

Lemma sample_root_ok : table_ok 4096 sample_root.
Proof.
  constructor.
  - repeat constructor; vm_compute; reflexivity.
  - repeat constructor; vm_compute; reflexivity.
  - apply (bool_decide_unpack (NoDup (p_raw <$> all_elems sample_root))). vm_compute. reflexivity.
Qed.

Lemma sample_quiet : quiet_free (af_free sample_funcs).
Proof. intros p w. exists (wmem w). by destruct w. Qed.

Lemma wasm_runtime_free_ok_witness :
  ∃ w', wasm_runtime_free sample_memory_state 4608 sample_state = Ok tt w'
    ∧ table_ok (pool_allocator w') (root_info w') ∧ get_raw 4608 w' = Exited 1.
Proof.
  destruct (wasm_runtime_free_ok sample_memory_state sample_state
    (mkInfo (mkElem 512 4608 3 ConstT)
      [mkElem (512 + SIZEOF Const) (4608 + SIZEOF Const) (-1) ConstT;
       mkElem (512 + 2 * SIZEOF Const) (4608 + 2 * SIZEOF Const) (-1) ConstT]))
    as (w'&H1&H2&H3&_).
  - intros fs E. inversion E. exact sample_quiet.
  - exact sample_root_ok.
  - right. left.
  - discriminate.
  - exists w'. split; [exact H1|]. split; [exact H2|exact H3].
Defined.

Lemma wasm_runtime_free_null_witness :
  wasm_runtime_free sample_memory_state NULL sample_state = Exited 1.
Proof.
  apply (wasm_runtime_free_null sample_memory_state sample_state). repeat constructor; discriminate.
Defined.

Lemma wasm_runtime_realloc_ok_witness :
  ∃ w', wasm_runtime_realloc sample_memory_state 4352 16 sample_state = Ok 65536 w'
    ∧ table_ok (pool_allocator w') (root_info w') ∧ get_raw 65536 w' = Exited 1.
Proof.
  destruct (wasm_runtime_realloc_ok sample_memory_state sample_state
    (mkInfo (mkElem 256 4352 8 uint8T) []) 16 65536 ∅) as (w'&H1&H2&_&H3).
  - reflexivity.
  - discriminate.
  - exact sample_root_ok.
  - left.
  - discriminate.
  - exists w'. split; [exact H1|]. split; [exact H2|]. apply H3.
    intros H%list_elem_of_In. vm_compute in H. intuition congruence.
Defined.


Lemma alloc_infos_correct_witness :
  ∃ w' i, alloc_infos 8192 WASMGlobalT 3 sample_state = Ok tt w'
    ∧ table_ok (pool_allocator w') (root_info w')
    ∧ get_raw (8192 + 2 * SIZEOF WASMGlobal) w' = Ok (Some i) w'
    ∧ type (head i) = WASMGlobalT.
Proof.
  destruct (alloc_infos_correct sample_state 8192 WASMGlobalT 3 (SIZEOF WASMGlobal) 2)
    as (w'&i&i'&H1&H2&H3&_&_&_&H4); try (vm_compute; repeat split; congruence).
  - exact sample_root_ok.
  - intros a Ha H%list_elem_of_In. vm_compute in H. simpl in Ha. intuition lia.
  - exists w', i. split; [exact H1|]. split; [exact H2|]. split; [exact H3|exact H4].
Defined.

(** In a well-formed table the offset of every node fits a positive [int],
    and base and offset give back the address: no offset wraps around, and none
    is the -1 that stands for null in the images. *)
Lemma offsets_exact base root e :
  table_ok base root → e ∈ all_elems root →
  0 < p_abs e < 2 ^ 31 ∧ p_raw e = base + p_abs e.
Proof.
  intros Hok Hin. pose proof (p_abs_positive base root e Hok Hin). split; [done|].
  destruct Hok as [Ha Hn _]. rewrite Forall_forall in Ha, Hn.
  rewrite (near_abs base e) by auto. lia.
Qed.

Lemma offsets_exact_witness :
  table_ok 4096 sample_root ∧ 4352 = 4096 + 256.
Proof.
  split; [exact sample_root_ok|].
  apply (offsets_exact 4096 sample_root (mkElem 256 4352 8 uint8T) sample_root_ok). left.
Defined.

(** recording a block of [n] bytes or items keeps the table well formed, and
    its address finds the block with its kind and size. *)
Theorem alloc_info_correct w addr t n :
  table_ok (pool_allocator w) (root_info w) → near (pool_allocator w) addr → addr ≠ NULL →
  addr ∉ raws (root_info w) →
  ∃ w', alloc_info_buf addr t n w = Ok tt w' ∧ table_ok (pool_allocator w') (root_info w')
    ∧ get_raw addr w' = Ok (Some (mkInfo (mkElem (addr - pool_allocator w) addr (int32 n) t) [])) w'.
Proof. apply alloc_info_buf_ok. Qed.

Lemma alloc_info_correct_witness :
  ∃ w', alloc_info_buf 8192 uint8T 100 sample_state = Ok tt w'
    ∧ table_ok (pool_allocator w') (root_info w')
    ∧ get_raw 8192 w' = Ok (Some (mkInfo (mkElem 4096 8192 100 uint8T) [])) w'.
Proof.
  apply (alloc_info_correct sample_state 8192 uint8T 100).
  - exact sample_root_ok.
  - vm_compute. repeat split; congruence.
  - discriminate.
  - intros H%list_elem_of_In. vm_compute in H. intuition congruence.
Defined.
