(* ===== verification/MemInit.v ===== *)
(** Setting up and tearing down the memory front end (wasm_memory.c): the statics
    of the allocation mode and the operations that set them. The pool allocator
    and the platform's functions are parameters. *)
From stdpp Require Import base gmap list numbers.
From Stdlib Require Import ZArith Lia.
From S2P Require Import Prelude CMemory WasmTypes PoolInfo Memory.

(** * State *)

(** The statics beside [pool_allocator], which is a field of [world]; functions
    are known by their addresses. *)
Record memory_statics := mkStatics {
  memory_mode_ : Memory_Mode;
  malloc_func : Z;
  realloc_func : Z;
  free_func : Z;
  global_pool_size : Z
}.

(** [mem_alloc_type_t]; other values of the enum's integer are possible. *)
Definition Alloc_With_Pool : Z := 0.
Definition Alloc_With_Allocator : Z := 1.
Definition Alloc_With_System_Allocator : Z := 2.

(** A union: [pool] is an address and a size of 32 bits, [allocator] three
    addresses; both start at the first word. *)
Record MemAllocOption := mkOption { option_word0 : Z; option_word1 : Z; option_word2 : Z }.
Definition pool_heap_buf (o : MemAllocOption) : Z := option_word0 o.
Definition pool_heap_size (o : MemAllocOption) : Z := uint32 (option_word1 o).
Definition allocator_malloc_func (o : MemAllocOption) : Z := option_word0 o.
Definition allocator_realloc_func (o : MemAllocOption) : Z := option_word1 o.
Definition allocator_free_func (o : MemAllocOption) : Z := option_word2 o.

Definition set_pool_allocator (p : Z) (w : world) : world :=
  mkWorld (wmem w) (w_fp w) (w_gp w) (root_info w) (root_frame w) p
    (dump_base w) (wasm_module w) (dump_exec_env w) (r_module w) (r_module_inst w) (r_exec_env w).

(** * Operations *)

Section Init.
(** [mem_allocator_create], [mem_allocator_destroy], [os_malloc], [os_realloc] and
    [os_free]. *)
Context (create : Z → Z → C Z) (destroy : Z → C unit) (os_malloc os_realloc os_free : Z).

Definition wasm_memory_init_with_pool (mem bytes : Z) (st : memory_statics) : C (bool * memory_statics) :=
  let* allocator := create mem bytes in
  if negb (allocator =? NULL) then
    modify (set_pool_allocator allocator) ;;;
    mret (true, mkStatics MEMORY_MODE_POOL (malloc_func st) (realloc_func st) (free_func st) bytes)
  else mret (false, st).

Definition wasm_memory_init_with_allocator (malloc realloc free : Z) (st : memory_statics) :
    C (bool * memory_statics) :=
  if negb (malloc =? NULL) && negb (free =? NULL) && negb (malloc =? free)
  then mret (true, mkStatics MEMORY_MODE_ALLOCATOR malloc realloc free (global_pool_size st))
  else mret (false, st).

Definition wasm_runtime_memory_init (mem_alloc_type : Z) (o : MemAllocOption) (st : memory_statics) :
    C (bool * memory_statics) :=
  if mem_alloc_type =? Alloc_With_Pool
  then wasm_memory_init_with_pool (pool_heap_buf o) (pool_heap_size o) st
  else if mem_alloc_type =? Alloc_With_Allocator
  then wasm_memory_init_with_allocator (allocator_malloc_func o) (allocator_realloc_func o)
         (allocator_free_func o) st
  else if mem_alloc_type =? Alloc_With_System_Allocator
  then wasm_memory_init_with_allocator os_malloc os_realloc os_free st
  else mret (false, st).

Definition wasm_runtime_memory_destroy (st : memory_statics) : C memory_statics :=
  (if decide (memory_mode_ st = MEMORY_MODE_POOL)
   then let* p := gets pool_allocator in destroy p else skip) ;;;
  mret (mkStatics MEMORY_MODE_UNKNOWN (malloc_func st) (realloc_func st) (free_func st) (global_pool_size st)).

Definition wasm_runtime_memory_pool_size (st : memory_statics) : Z :=
  if decide (memory_mode_ st = MEMORY_MODE_POOL) then global_pool_size st else 1 * 2 ^ 30.

(** The front end that the statics describe: [pool] is the pool allocator at an
    address, [user] the function at an address. *)
Context (pool : Z → alloc_funcs) (user_malloc : Z → Z → C Z) (user_realloc : Z → Z → Z → C Z)
  (user_free : Z → Z → C unit).

Definition front_end (st : memory_statics) (w : world) : memory_state :=
  mkMemory (memory_mode_ st) (pool (pool_allocator w))
    (mkFuncs (user_malloc (malloc_func st)) (user_realloc (realloc_func st)) (user_free (free_func st)))
    (negb (realloc_func st =? NULL)).

(** An initialisation that succeeds leaves a front end that serves requests with
    what it was given; one that fails changes nothing. *)
Lemma memory_init_serves t o st w b st' w' n :
  (∀ p w1, create (pool_heap_buf o) (pool_heap_size o) w = Ok p w1 → p = NULL → w1 = w) →
  wasm_runtime_memory_init t o st w = Ok (b, st') w' →
  if b
  then wasm_runtime_malloc (front_end st' w') n w'
       = (if t =? Alloc_With_Pool then af_malloc (pool (pool_allocator w')) (Z.max 1 (uint32 n)) w'
          else if t =? Alloc_With_Allocator
          then user_malloc (allocator_malloc_func o) (Z.max 1 (uint32 n)) w'
          else user_malloc os_malloc (Z.max 1 (uint32 n)) w')
  else st' = st ∧ w' = w.
Proof.
  intros Hc. unfold wasm_runtime_memory_init.
  destruct (t =? Alloc_With_Pool).
  - unfold wasm_memory_init_with_pool. intros H. unfold mbind in H.
    destruct (create _ _ w) as [p w1| |] eqn:E; [|done..].
    destruct (Z.eqb_spec p NULL) as [->|Hp]; cbn in H; injection H as <- <- <-.
    + split; [done|]. by apply (Hc NULL).
    + by rewrite wasm_runtime_malloc_spec.
  - unfold wasm_memory_init_with_allocator.
    destruct (t =? Alloc_With_Allocator); [|destruct (t =? Alloc_With_System_Allocator)].
    + destruct (_ && _ && _); intros [= <- <- <-]; [by rewrite wasm_runtime_malloc_spec|done].
    + destruct (_ && _ && _); intros [= <- <- <-]; [by rewrite wasm_runtime_malloc_spec|done].
    + by intros [= <- <- <-].
Qed.

(** After the tear-down no request is served. *)
Lemma memory_destroyed st w st' w' n :
  wasm_runtime_memory_destroy st w = Ok st' w' → wasm_runtime_malloc (front_end st' w') n w' = Ok NULL w'.
Proof.
  unfold wasm_runtime_memory_destroy, mbind. destruct (decide _).
  - cbn. destruct (destroy _ w) as [u w1| |]; [|done..]. by intros [= <- <-].
  - by intros [= <- <-].
Qed.
End Init.
