(* ===== verification/Dump.v ===== *)
(** wasm_dump.c: one [dump_T] routine per object kind, which writes a record to
    dump.img ([FP]; frames go to frame.img, [GP]).  A record is a header (kind,
    size, pool offset) followed by the fields of the object; pointers are
    written as offsets from the base of the pool, null as -1. *)
From stdpp Require Import base gmap list numbers strings.
From Stdlib Require Import Strings.Byte ZArith Lia.
From S2P Require Import Prelude CMemory WasmTypes PoolInfo.

(** * Macros *)

Definition DUMP_PTR_TO (s : stream) (p : Z) : C unit :=
  if p =? NULL then fwrite_int s (-1)
  else let* base := gets dump_base in fwrite_bytes s (le_bytes 4 (p - base)).
Abbreviation DUMP_PTR := (DUMP_PTR_TO FP).
Abbreviation DUMP_FRAME_PTR := (DUMP_PTR_TO GP).

(** [DUMP_PTR(node->f)]: the pointer stored at an address. *)
Definition DUMP_PTR_AT (a : Z) : C unit := let* p := ld 8 a in DUMP_PTR p.

Definition dump_header (s : stream) (t : Data_Type) (addr : Pool_Elem) : C unit :=
  fwrite_int s (type_code t) ;;;
  fwrite_int s (size addr) ;;;
  fwrite_int s (p_abs addr).

Definition HEADER_DUMP_BUF (t : Data_Type) (addr : Pool_Info) (body : Z → C unit) : C unit :=
  dump_header FP t addr ;;; body (p_raw addr).

Definition HEADER_DUMP_FRAME_BUF (t : Data_Type) (addr : Pool_Info) (body : Z → C unit) : C unit :=
  dump_header GP t addr ;;; body (p_raw addr).

(** [HEADER_DUMP]: the header, then the body for every node of the chain. *)
Definition HEADER_DUMP (t : Data_Type) (addr : Pool_Info)
    (body : Pool_Elem → Z → C unit) : C unit :=
  dump_header FP t addr ;;;
  mfor (elems addr) (fun e => body e (p_raw e)).

Definition init_dump (addr : Z) : C unit :=
  modify (set_fp (FWrite [])) ;;;
  modify (set_gp (FWrite [])) ;;;
  modify (set_dump_base addr).

(** * Buffers *)

Definition dump_buffer (t : Data_Type) (elem : Z) (addr : Pool_Info) : C unit :=
  HEADER_DUMP_BUF t addr (fun node => fwrite FP node elem (size addr)).

Definition dump_char : Pool_Info → C unit := dump_buffer charT 1.
Definition dump_uint8 : Pool_Info → C unit := dump_buffer uint8T 1.
Definition dump_uint16 : Pool_Info → C unit := dump_buffer uint16T 2.
Definition dump_uint32 : Pool_Info → C unit := dump_buffer uint32T 4.
Definition dump_uint64 : Pool_Info → C unit := dump_buffer uint64T 8.

(** Arrays of pointers ([char **], [WASMFunction **], ...). *)
Definition dump_ptrs (t : Data_Type) (addr : Pool_Info) : C unit :=
  HEADER_DUMP_BUF t addr (fun node =>
    mfor (seqZ 0 (size addr)) (fun i => DUMP_PTR_AT (node + i * 8))).

Definition dump_charT : Pool_Info → C unit := dump_ptrs charTT.
Definition dump_WASMFunctionT : Pool_Info → C unit := dump_ptrs WASMFunctionTT.
Definition dump_WASMTypeT : Pool_Info → C unit := dump_ptrs WASMTypeTT.
Definition dump_WASMDataSegT : Pool_Info → C unit := dump_ptrs WASMDataSegTT.
Definition dump_WASMMemoryInstanceT : Pool_Info → C unit := dump_ptrs WASMMemoryInstanceTT.
Definition dump_WASMTableInstanceT : Pool_Info → C unit := dump_ptrs WASMTableInstanceTT.

(** * Kinds that are not written

    [dump_gc_heap_t], [dump_WASIContext] and [dump_NativeSymbolsNode] print a
    message and return before their code; the kinds of the C API, the opcode
    enumerations, the hash map, timer, queue, atomic and iovec kinds print
    "unsupported"; the import sub-structures, [BlockAddr], [BlockType] and
    [WASIArguments] do nothing. *)
Definition dump_unsupported (addr : Pool_Info) : C unit := skip.

(** The kinds whose routine ends the process. *)
Definition dump_exit (addr : Pool_Info) : C unit := mexit 1.

(** * Constants *)

(** The [switch] on [init_expr_type] and the union it selects. *)
Definition dump_init_value (tag u : Z) : C unit :=
  if (tag =? INIT_EXPR_TYPE_I32_CONST) || (tag =? INIT_EXPR_TYPE_I64_CONST)
     || (tag =? INIT_EXPR_TYPE_F32_CONST) || (tag =? INIT_EXPR_TYPE_F64_CONST)
  then fwrite FP (FLD u WASMValue "i64") 8 1
  else if tag =? INIT_EXPR_TYPE_V128_CONST
  then fwrite FP (FLD u WASMValue "v128.f32x4") 8 2
  else if (tag =? INIT_EXPR_TYPE_FUNCREF_CONST) || (tag =? INIT_EXPR_TYPE_REFNULL_CONST)
  then fwrite FP (FLD u WASMValue "ref_index") 4 1
  else if tag =? INIT_EXPR_TYPE_GET_GLOBAL
  then fwrite FP (FLD u WASMValue "global_index") 4 1
  else fwrite FP (FLD u WASMValue "addr") 8 1.

Definition dump_init_expr (e : Z) : C unit :=
  fwrite FP (FLD e InitializerExpression "init_expr_type") 1 1 ;;;
  let* tag := ld 1 (FLD e InitializerExpression "init_expr_type") in
  dump_init_value tag (FLD e InitializerExpression "u").

Definition dump_V128 (addr : Pool_Info) : C unit :=
  HEADER_DUMP V128T addr (fun e node =>
    fwrite_int FP (p_abs e) ;;;
    fwrite FP (FLD node V128 "f64x2") 8 2).

Definition dump_WASMValue (addr : Pool_Info) : C unit :=
  HEADER_DUMP WASMValueT addr (fun e node =>
    fwrite_int FP (p_abs e) ;;;
    fwrite FP (FLD node WASMValue "v128.f32x4") 8 2).

Definition dump_InitializerExpression (addr : Pool_Info) : C unit :=
  HEADER_DUMP InitializerExpressionT addr (fun e node =>
    fwrite_int FP (p_abs e) ;;;
    dump_init_expr node).

Definition dump_Const (addr : Pool_Info) : C unit :=
  HEADER_DUMP ConstT addr (fun e node =>
    fwrite_int FP (p_abs e) ;;;
    fwrite FP (FLD node Const "value.v128.f32x4") 8 2 ;;;
    fwrite FP (FLD node Const "slot_index") 2 1 ;;;
    fwrite FP (FLD node Const "value_type") 1 1).

(** [wasm_val_t]: the reference kinds write a pointer, the numeric ones eight
    bytes of the union. *)
Definition dump_wasm_val_t (addr : Pool_Info) : C unit :=
  HEADER_DUMP wasm_val_tT addr (fun e node =>
    fwrite_int FP (p_abs e) ;;;
    fwrite FP (FLD node wasm_val_t "kind") 1 1 ;;;
    let* kind := ld 1 (FLD node wasm_val_t "kind") in
    if (kind =? 0) || (kind =? 1) || (kind =? 2) || (kind =? 3)
    then fwrite FP (FLD node wasm_val_t "of") 8 1
    else if (kind =? 128) || (kind =? 129)
    then DUMP_PTR_AT (FLD node wasm_val_t "of.ref")
    else skip).

(** * Module data *)

Definition dump_WASMModuleCommon (addr : Pool_Info) : C unit :=
  HEADER_DUMP_BUF WASMModuleCommonT addr (fun node =>
    fwrite FP (FLD node WASMModuleCommon "module_type") 4 1 ;;;
    fwrite FP (FLD node WASMModuleCommon "module_data") 1 1).

Definition dump_WASMMemoryInstanceCommon (addr : Pool_Info) : C unit :=
  HEADER_DUMP_BUF WASMMemoryInstanceCommonT addr (fun node =>
    fwrite FP (FLD node WASMMemoryInstanceCommon "module_type") 4 1 ;;;
    fwrite FP (FLD node WASMMemoryInstanceCommon "memory_inst_data") 1 1).

Definition dump_WASMModuleMemConsumption (addr : Pool_Info) : C unit :=
  HEADER_DUMP WASMModuleMemConsumptionT addr (fun e node =>
    fwrite_int FP (p_abs e) ;;;
    fwrite FP (FLD node WASMModuleMemConsumption "total_size") 4 1 ;;;
    fwrite FP (FLD node WASMModuleMemConsumption "module_struct_size") 4 1 ;;;
    fwrite FP (FLD node WASMModuleMemConsumption "types_size") 4 1 ;;;
    fwrite FP (FLD node WASMModuleMemConsumption "imports_size") 4 1 ;;;
    fwrite FP (FLD node WASMModuleMemConsumption "functions_size") 4 1 ;;;
    fwrite FP (FLD node WASMModuleMemConsumption "tables_size") 4 1 ;;;
    fwrite FP (FLD node WASMModuleMemConsumption "memories_size") 4 1 ;;;
    fwrite FP (FLD node WASMModuleMemConsumption "globals_size") 4 1 ;;;
    fwrite FP (FLD node WASMModuleMemConsumption "exports_size") 4 1 ;;;
    fwrite FP (FLD node WASMModuleMemConsumption "table_segs_size") 4 1 ;;;
    fwrite FP (FLD node WASMModuleMemConsumption "data_segs_size") 4 1 ;;;
    fwrite FP (FLD node WASMModuleMemConsumption "const_strs_size") 4 1).

Definition dump_WASMModuleInstMemConsumption (addr : Pool_Info) : C unit :=
  HEADER_DUMP WASMModuleInstMemConsumptionT addr (fun e node =>
    fwrite_int FP (p_abs e) ;;;
    fwrite FP (FLD node WASMModuleInstMemConsumption "total_size") 4 1 ;;;
    fwrite FP (FLD node WASMModuleInstMemConsumption "module_inst_struct_size") 4 1 ;;;
    fwrite FP (FLD node WASMModuleInstMemConsumption "memories_size") 4 1 ;;;
    fwrite FP (FLD node WASMModuleInstMemConsumption "app_heap_size") 4 1 ;;;
    fwrite FP (FLD node WASMModuleInstMemConsumption "tables_size") 4 1 ;;;
    fwrite FP (FLD node WASMModuleInstMemConsumption "globals_size") 4 1 ;;;
    fwrite FP (FLD node WASMModuleInstMemConsumption "functions_size") 4 1 ;;;
    fwrite FP (FLD node WASMModuleInstMemConsumption "exports_size") 4 1).

Definition dump_WASMSection (addr : Pool_Info) : C unit :=
  HEADER_DUMP WASMSectionT addr (fun e node =>
    fwrite_int FP (p_abs e) ;;;
    DUMP_PTR_AT (FLD node WASMSection "next") ;;;
    fwrite FP (FLD node WASMSection "section_type") 4 1 ;;;
    DUMP_PTR_AT (FLD node WASMSection "section_body") ;;;
    fwrite FP (FLD node WASMSection "section_body_size") 4 1).

Definition dump_WASMModule (addr : Pool_Info) : C unit :=
  HEADER_DUMP WASMModuleT addr (fun e node =>
    fwrite_int FP (p_abs e) ;;;
    fwrite FP (FLD node WASMModule "module_type") 4 1 ;;;
    fwrite FP (FLD node WASMModule "type_count") 4 1 ;;;
    fwrite FP (FLD node WASMModule "import_count") 4 1 ;;;
    fwrite FP (FLD node WASMModule "function_count") 4 1 ;;;
    fwrite FP (FLD node WASMModule "table_count") 4 1 ;;;
    fwrite FP (FLD node WASMModule "memory_count") 4 1 ;;;
    fwrite FP (FLD node WASMModule "global_count") 4 1 ;;;
    fwrite FP (FLD node WASMModule "export_count") 4 1 ;;;
    fwrite FP (FLD node WASMModule "table_seg_count") 4 1 ;;;
    fwrite FP (FLD node WASMModule "data_seg_count") 4 1 ;;;
    fwrite FP (FLD node WASMModule "import_function_count") 4 1 ;;;
    fwrite FP (FLD node WASMModule "import_table_count") 4 1 ;;;
    fwrite FP (FLD node WASMModule "import_memory_count") 4 1 ;;;
    fwrite FP (FLD node WASMModule "import_global_count") 4 1 ;;;
    DUMP_PTR_AT (FLD node WASMModule "import_functions") ;;;
    DUMP_PTR_AT (FLD node WASMModule "import_tables") ;;;
    DUMP_PTR_AT (FLD node WASMModule "import_memories") ;;;
    DUMP_PTR_AT (FLD node WASMModule "import_globals") ;;;
    DUMP_PTR_AT (FLD node WASMModule "types") ;;;
    DUMP_PTR_AT (FLD node WASMModule "imports") ;;;
    DUMP_PTR_AT (FLD node WASMModule "functions") ;;;
    DUMP_PTR_AT (FLD node WASMModule "tables") ;;;
    DUMP_PTR_AT (FLD node WASMModule "memories") ;;;
    DUMP_PTR_AT (FLD node WASMModule "globals") ;;;
    DUMP_PTR_AT (FLD node WASMModule "exports") ;;;
    DUMP_PTR_AT (FLD node WASMModule "table_segments") ;;;
    DUMP_PTR_AT (FLD node WASMModule "data_segments") ;;;
    fwrite FP (FLD node WASMModule "start_function") 4 1 ;;;
    fwrite FP (FLD node WASMModule "aux_data_end_global_index") 4 1 ;;;
    fwrite FP (FLD node WASMModule "aux_data_end") 4 1 ;;;
    fwrite FP (FLD node WASMModule "aux_heap_base_global_index") 4 1 ;;;
    fwrite FP (FLD node WASMModule "aux_heap_base") 4 1 ;;;
    fwrite FP (FLD node WASMModule "aux_stack_top_global_index") 4 1 ;;;
    fwrite FP (FLD node WASMModule "aux_stack_bottom") 4 1 ;;;
    fwrite FP (FLD node WASMModule "aux_stack_size") 4 1 ;;;
    fwrite FP (FLD node WASMModule "malloc_function") 4 1 ;;;
    fwrite FP (FLD node WASMModule "free_function") 4 1 ;;;
    fwrite FP (FLD node WASMModule "retain_function") 4 1 ;;;
    fwrite FP (FLD node WASMModule "possible_memory_grow") 1 1 ;;;
    DUMP_PTR_AT (FLD node WASMModule "const_str_list") ;;;
    fwrite FP (FLD node WASMModule "is_wasi_module") 1 1).

Definition dump_WASMFunction (addr : Pool_Info) : C unit :=
  HEADER_DUMP_BUF WASMFunctionT addr (fun node =>
    DUMP_PTR_AT (FLD node WASMFunction "func_type") ;;;
    fwrite FP (FLD node WASMFunction "local_count") 4 1 ;;;
    fwrite FP (FLD node WASMFunction "param_cell_num") 2 1 ;;;
    fwrite FP (FLD node WASMFunction "ret_cell_num") 2 1 ;;;
    fwrite FP (FLD node WASMFunction "local_cell_num") 2 1 ;;;
    DUMP_PTR_AT (FLD node WASMFunction "local_offsets") ;;;
    fwrite FP (FLD node WASMFunction "max_stack_cell_num") 4 1 ;;;
    fwrite FP (FLD node WASMFunction "max_block_num") 4 1 ;;;
    fwrite FP (FLD node WASMFunction "has_op_memory_grow") 1 1 ;;;
    fwrite FP (FLD node WASMFunction "has_op_func_call") 1 1 ;;;
    fwrite FP (FLD node WASMFunction "code_size") 4 1 ;;;
    DUMP_PTR_AT (FLD node WASMFunction "code") ;;;
    let* local_types := ld 8 (FLD node WASMFunction "local_types") in
    let* local_count := ld 4 (FLD node WASMFunction "local_count") in
    fwrite FP local_types 1 local_count).

Definition dump_WASMGlobal (addr : Pool_Info) : C unit :=
  HEADER_DUMP WASMGlobalT addr (fun e node =>
    fwrite_int FP (p_abs e) ;;;
    fwrite FP (FLD node WASMGlobal "type") 1 1 ;;;
    fwrite FP (FLD node WASMGlobal "is_mutable") 1 1 ;;;
    dump_init_expr (FLD node WASMGlobal "init_expr")).

(** The search of the string list for the node that holds a name: the pointer
    to the node is written when it is found ([break]), nothing when it is not.
    [loop_fuel] bounds it by the number of live objects, each string node being
    one of them. *)
Fixpoint dump_str_node (fuel : nat) (str_node name : Z) : C unit :=
  match fuel with
  | O => mstuck
  | S fuel =>
      if str_node =? NULL then skip
      else let* str := ld 8 (FLD str_node StringNode "str") in
           if str =? name then DUMP_PTR str_node
           else let* next := ld 8 (FLD str_node StringNode "next") in
                dump_str_node fuel next name
  end.

Definition loop_fuel : C nat := gets (fun w => S (length (all_elems (root_info w)))).

Definition dump_name (name : Z) : C unit :=
  let* fuel := loop_fuel in
  let* module := gets wasm_module in
  let* l := ld 8 (FLD module WASMModule "const_str_list") in
  dump_str_node fuel l name.

Definition dump_WASMExport (addr : Pool_Info) : C unit :=
  HEADER_DUMP WASMExportT addr (fun e node =>
    fwrite_int FP (p_abs e) ;;;
    let* name := ld 8 (FLD node WASMExport "name") in
    dump_name name ;;;
    fwrite FP (FLD node WASMExport "kind") 1 1 ;;;
    fwrite FP (FLD node WASMExport "index") 4 1).

Definition dump_WASMType (addr : Pool_Info) : C unit :=
  HEADER_DUMP_BUF WASMTypeT addr (fun node =>
    fwrite FP (FLD node WASMType "param_count") 2 1 ;;;
    fwrite FP (FLD node WASMType "result_count") 2 1 ;;;
    fwrite FP (FLD node WASMType "param_cell_num") 2 1 ;;;
    fwrite FP (FLD node WASMType "ret_cell_num") 2 1 ;;;
    let* param_count := ld 2 (FLD node WASMType "param_count") in
    let* result_count := ld 2 (FLD node WASMType "result_count") in
    fwrite FP (FLD node WASMType "types") 1 (param_count + result_count)).

Definition dump_WASMTable (addr : Pool_Info) : C unit :=
  HEADER_DUMP WASMTableT addr (fun e node =>
    fwrite_int FP (p_abs e) ;;;
    fwrite FP (FLD node WASMTable "elem_type") 1 1 ;;;
    fwrite FP (FLD node WASMTable "flags") 4 1 ;;;
    fwrite FP (FLD node WASMTable "init_size") 4 1 ;;;
    fwrite FP (FLD node WASMTable "max_size") 4 1 ;;;
    fwrite FP (FLD node WASMTable "possible_grow") 1 1).

Definition dump_WASMMemory (addr : Pool_Info) : C unit :=
  HEADER_DUMP WASMMemoryT addr (fun e node =>
    fwrite_int FP (p_abs e) ;;;
    fwrite FP (FLD node WASMMemory "flags") 4 1 ;;;
    fwrite FP (FLD node WASMMemory "num_bytes_per_page") 4 1 ;;;
    fwrite FP (FLD node WASMMemory "init_page_count") 4 1 ;;;
    fwrite FP (FLD node WASMMemory "max_page_count") 4 1).

Definition dump_WASMImport (addr : Pool_Info) : C unit :=
  HEADER_DUMP WASMImportT addr (fun e node =>
    fwrite_int FP (p_abs e) ;;;
    fwrite FP (FLD node WASMImport "kind") 1 1 ;;;
    let* module_name := ld 8 (FLD node WASMImport "u.names.module_name") in
    dump_name module_name ;;;
    let* field_name := ld 8 (FLD node WASMImport "u.names.field_name") in
    dump_name field_name ;;;
    let* kind := ld 1 (FLD node WASMImport "kind") in
    if kind =? IMPORT_KIND_FUNC then
      DUMP_PTR_AT (FLD node WASMImport "u.function.func_type") ;;;
      fwrite FP (FLD node WASMImport "u.function.call_conv_raw") 1 1 ;;;
      fwrite FP (FLD node WASMImport "u.function.call_conv_wasm_c_api") 1 1 ;;;
      fwrite FP (FLD node WASMImport "u.function.wasm_c_api_with_env") 1 1
    else if kind =? IMPORT_KIND_TABLE then
      fwrite FP (FLD node WASMImport "u.table.elem_type") 1 1 ;;;
      fwrite FP (FLD node WASMImport "u.table.flags") 4 1 ;;;
      fwrite FP (FLD node WASMImport "u.table.init_size") 4 1 ;;;
      fwrite FP (FLD node WASMImport "u.table.max_size") 4 1 ;;;
      fwrite FP (FLD node WASMImport "u.table.possible_grow") 1 1
    else if kind =? IMPORT_KIND_MEMORY then
      fwrite FP (FLD node WASMImport "u.memory.flags") 4 1 ;;;
      fwrite FP (FLD node WASMImport "u.memory.num_bytes_per_page") 4 1 ;;;
      fwrite FP (FLD node WASMImport "u.memory.init_page_count") 4 1 ;;;
      fwrite FP (FLD node WASMImport "u.memory.max_page_count") 4 1
    else if kind =? IMPORT_KIND_GLOBAL then
      fwrite FP (FLD node WASMImport "u.global.type") 1 1 ;;;
      fwrite FP (FLD node WASMImport "u.global.is_mutable") 1 1 ;;;
      fwrite FP (FLD node WASMImport "u.global.global_data_linked.v128.f32x4") 8 2 ;;;
      fwrite FP (FLD node WASMImport "u.global.is_linked") 1 1
    else skip).

Definition dump_WASMTableSeg (addr : Pool_Info) : C unit :=
  HEADER_DUMP WASMTableSegT addr (fun e node =>
    fwrite_int FP (p_abs e) ;;;
    fwrite FP (FLD node WASMTableSeg "mode") 4 1 ;;;
    fwrite FP (FLD node WASMTableSeg "elem_type") 4 1 ;;;
    fwrite FP (FLD node WASMTableSeg "is_dropped") 1 1 ;;;
    fwrite FP (FLD node WASMTableSeg "table_index") 4 1 ;;;
    dump_init_expr (FLD node WASMTableSeg "base_offset") ;;;
    fwrite FP (FLD node WASMTableSeg "function_count") 4 1 ;;;
    DUMP_PTR_AT (FLD node WASMTableSeg "func_indexes")).

Definition dump_WASMDataSeg (addr : Pool_Info) : C unit :=
  HEADER_DUMP WASMDataSegT addr (fun e node =>
    fwrite_int FP (p_abs e) ;;;
    fwrite FP (FLD node WASMDataSeg "memory_index") 4 1 ;;;
    dump_init_expr (FLD node WASMDataSeg "base_offset") ;;;
    fwrite FP (FLD node WASMDataSeg "data_length") 4 1 ;;;
    DUMP_PTR_AT (FLD node WASMDataSeg "data")).

Definition dump_StringNode (addr : Pool_Info) : C unit :=
  HEADER_DUMP_BUF StringNodeT addr (fun node =>
    fwrite_int FP (size addr) ;;;
    DUMP_PTR_AT (FLD node StringNode "next") ;;;
    let* str := ld 8 (FLD node StringNode "str") in
    fwrite FP str 1 (size addr)).

(** * Instance data *)

Definition dump_WASMModuleInstance (addr : Pool_Info) : C unit :=
  HEADER_DUMP WASMModuleInstanceT addr (fun e node =>
    fwrite_int FP (p_abs e) ;;;
    fwrite FP (FLD node WASMModuleInstance "module_type") 4 1 ;;;
    fwrite FP (FLD node WASMModuleInstance "memory_count") 4 1 ;;;
    fwrite FP (FLD node WASMModuleInstance "table_count") 4 1 ;;;
    fwrite FP (FLD node WASMModuleInstance "global_count") 4 1 ;;;
    fwrite FP (FLD node WASMModuleInstance "function_count") 4 1 ;;;
    fwrite FP (FLD node WASMModuleInstance "export_func_count") 4 1 ;;;
    DUMP_PTR_AT (FLD node WASMModuleInstance "memories") ;;;
    DUMP_PTR_AT (FLD node WASMModuleInstance "tables") ;;;
    DUMP_PTR_AT (FLD node WASMModuleInstance "globals") ;;;
    DUMP_PTR_AT (FLD node WASMModuleInstance "functions") ;;;
    DUMP_PTR_AT (FLD node WASMModuleInstance "export_functions") ;;;
    DUMP_PTR_AT (FLD node WASMModuleInstance "default_memory") ;;;
    DUMP_PTR_AT (FLD node WASMModuleInstance "default_table") ;;;
    DUMP_PTR_AT (FLD node WASMModuleInstance "global_data") ;;;
    DUMP_PTR_AT (FLD node WASMModuleInstance "start_function") ;;;
    DUMP_PTR_AT (FLD node WASMModuleInstance "malloc_function") ;;;
    DUMP_PTR_AT (FLD node WASMModuleInstance "free_function") ;;;
    DUMP_PTR_AT (FLD node WASMModuleInstance "retain_function") ;;;
    DUMP_PTR_AT (FLD node WASMModuleInstance "module") ;;;
    DUMP_PTR_AT (FLD node WASMModuleInstance "exec_env_singleton") ;;;
    fwrite FP (FLD node WASMModuleInstance "temp_ret") 4 1 ;;;
    fwrite FP (FLD node WASMModuleInstance "llvm_stack") 4 1 ;;;
    fwrite FP (FLD node WASMModuleInstance "default_wasm_stack_size") 4 1 ;;;
    fwrite FP (FLD node WASMModuleInstance "cur_exception") 1 128 ;;;
    DUMP_PTR_AT (FLD node WASMModuleInstance "custom_data")).

(** The loop over the imports for the one that holds a function import: it
    steps one [WASMImport] at a time and stops only at a match (or at null). *)
Fixpoint dump_import_of (fuel : nat) (import func_import : Z) : C unit :=
  match fuel with
  | O => mstuck
  | S fuel =>
      if import =? NULL then skip
      else if FLD import WASMImport "u.function" =? func_import then DUMP_PTR import
      else dump_import_of fuel (import + SIZEOF WASMImport) func_import
  end.

Definition dump_WASMFunctionInstance (addr : Pool_Info) : C unit :=
  HEADER_DUMP WASMFunctionInstanceT addr (fun e node =>
    fwrite_int FP (p_abs e) ;;;
    fwrite FP (FLD node WASMFunctionInstance "is_import_func") 1 1 ;;;
    fwrite FP (FLD node WASMFunctionInstance "param_count") 2 1 ;;;
    fwrite FP (FLD node WASMFunctionInstance "local_count") 2 1 ;;;
    fwrite FP (FLD node WASMFunctionInstance "param_cell_num") 2 1 ;;;
    fwrite FP (FLD node WASMFunctionInstance "ret_cell_num") 2 1 ;;;
    fwrite FP (FLD node WASMFunctionInstance "local_cell_num") 2 1 ;;;
    let* is_import_func := ld 1 (FLD node WASMFunctionInstance "is_import_func") in
    if negb (is_import_func =? 0) then
      let* fuel := loop_fuel in
      let* module := gets wasm_module in
      let* import := ld 8 (FLD module WASMModule "import_functions") in
      let* func_import := ld 8 (FLD node WASMFunctionInstance "u.func_import") in
      dump_import_of fuel import func_import ;;;
      DUMP_PTR_AT (FLD func_import WASMFunctionImport "func_type")
    else
      DUMP_PTR_AT (FLD node WASMFunctionInstance "u.func") ;;;
      DUMP_PTR_AT (FLD node WASMFunctionInstance "local_offsets") ;;;
      let* func := ld 8 (FLD node WASMFunctionInstance "u.func") in
      DUMP_PTR_AT (FLD func WASMFunction "func_type")).

Definition dump_WASMMemoryInstance (addr : Pool_Info) : C unit :=
  HEADER_DUMP WASMMemoryInstanceT addr (fun e node =>
    fwrite_int FP (p_abs e) ;;;
    fwrite FP (FLD node WASMMemoryInstance "module_type") 4 1 ;;;
    fwrite FP (FLD node WASMMemoryInstance "is_shared") 1 1 ;;;
    fwrite FP (FLD node WASMMemoryInstance "num_bytes_per_page") 4 1 ;;;
    fwrite FP (FLD node WASMMemoryInstance "cur_page_count") 4 1 ;;;
    fwrite FP (FLD node WASMMemoryInstance "max_page_count") 4 1 ;;;
    DUMP_PTR_AT (FLD node WASMMemoryInstance "memory_data")).

Definition dump_WASMTableInstance (addr : Pool_Info) : C unit :=
  HEADER_DUMP_BUF WASMTableInstanceT addr (fun node =>
    fwrite FP (FLD node WASMTableInstance "elem_type") 1 1 ;;;
    fwrite FP (FLD node WASMTableInstance "cur_size") 4 1 ;;;
    fwrite FP (FLD node WASMTableInstance "max_size") 4 1 ;;;
    fwrite FP (FLD node WASMTableInstance "base_addr") 4 (uint64 (size addr) / 4)).

(** The [switch] is on the value type of the global, with the tags of the
    initializer expressions. *)
Definition dump_WASMGlobalInstance (addr : Pool_Info) : C unit :=
  HEADER_DUMP WASMGlobalInstanceT addr (fun e node =>
    fwrite_int FP (p_abs e) ;;;
    fwrite FP (FLD node WASMGlobalInstance "type") 1 1 ;;;
    fwrite FP (FLD node WASMGlobalInstance "is_mutable") 1 1 ;;;
    fwrite FP (FLD node WASMGlobalInstance "data_offset") 4 1 ;;;
    let* type := ld 1 (FLD node WASMGlobalInstance "type") in
    dump_init_value type (FLD node WASMGlobalInstance "initial_value")).

(** The search of [dump_WASMExportFuncInstance] has no [break]. *)
Fixpoint dump_str_nodes (fuel : nat) (str_node name : Z) : C unit :=
  match fuel with
  | O => mstuck
  | S fuel =>
      if str_node =? NULL then skip
      else let* str := ld 8 (FLD str_node StringNode "str") in
           (if str =? name then DUMP_PTR str_node else skip) ;;;
           let* next := ld 8 (FLD str_node StringNode "next") in
           dump_str_nodes fuel next name
  end.

Definition dump_WASMExportFuncInstance (addr : Pool_Info) : C unit :=
  HEADER_DUMP WASMExportFuncInstanceT addr (fun e node =>
    fwrite_int FP (p_abs e) ;;;
    let* name := ld 8 (FLD node WASMExportFuncInstance "name") in
    let* fuel := loop_fuel in
    let* module := gets wasm_module in
    let* l := ld 8 (FLD module WASMModule "const_str_list") in
    dump_str_nodes fuel l name ;;;
    DUMP_PTR_AT (FLD node WASMExportFuncInstance "function")).

(** * Execution environment *)

(** [CHECK_IP(start) && CHECK_IP(else) && CHECK_IP(end)] as the C grammar reads
    it: the macro is an unparenthesised conditional expression. *)
Definition in_code (code code_size a : Z) : bool :=
  (code <=? a) && (a <=? code + code_size).
Definition CHECK_IP3 (c1 c2 c3 : bool) : bool :=
  if c1 then true else if false && c2 then true else if false && c3 then true else false.

(** The scan of the functions for one cache entry, [k] functions from the array
    slot [p] on. *)
Fixpoint dump_cache_entry (k : nat) (p start_addr else_addr end_addr : Z) : C unit :=
  match k with
  | O => mexit 1
  | S k =>
      let* function := ld 8 p in
      if (start_addr =? NULL) && (else_addr =? NULL) && (end_addr =? NULL) then DUMP_PTR NULL
      else
        let* code := ld 8 (FLD function WASMFunction "code") in
        let* code_size := ld 4 (FLD function WASMFunction "code_size") in
        if CHECK_IP3 (in_code code code_size start_addr) (in_code code code_size else_addr)
                     (in_code code code_size end_addr)
        then
          DUMP_PTR code ;;;
          fwrite_int FP (uint32 (start_addr - code)) ;;;
          fwrite_int FP (uint32 (else_addr - code)) ;;;
          fwrite_int FP (uint32 (end_addr - code))
        else dump_cache_entry k (p + 8) start_addr else_addr end_addr
  end.

Definition cache_slots : list Z := seqZ 0 (BLOCK_ADDR_CACHE_SIZE * BLOCK_ADDR_CONFLICT_SIZE).

(** The entry [block_addr_cache[i][j]] with [slot = i * 2 + j]. *)
Definition cache_slot (node slot : Z) : Z :=
  FLD node WASMExecEnv "block_addr_cache" + slot * SIZEOF BlockAddr.

Definition dump_block_addr_cache (node : Z) : C unit :=
  let* module_inst := ld 8 (FLD node WASMExecEnv "module_inst") in
  mfor cache_slots (fun slot =>
    let entry := cache_slot node slot in
    let* start_addr := ld 8 (FLD entry BlockAddr "start_addr") in
    let* else_addr := ld 8 (FLD entry BlockAddr "else_addr") in
    let* end_addr := ld 8 (FLD entry BlockAddr "end_addr") in
    let* module := ld 8 (FLD module_inst WASMModuleInstance "module") in
    let* function_count := ld 4 (FLD module WASMModule "function_count") in
    let* functions := ld 8 (FLD module WASMModule "functions") in
    dump_cache_entry (Z.to_nat function_count) functions start_addr else_addr end_addr).

Definition dump_WASMExecEnv (addr : Pool_Info) : C unit :=
  HEADER_DUMP_BUF WASMExecEnvT addr (fun node =>
    modify (set_WASMExecEnv node) ;;;
    DUMP_PTR_AT (FLD node WASMExecEnv "next") ;;;
    DUMP_PTR_AT (FLD node WASMExecEnv "prev") ;;;
    DUMP_PTR_AT (FLD node WASMExecEnv "module_inst") ;;;
    DUMP_PTR_AT (FLD node WASMExecEnv "attachment") ;;;
    dump_block_addr_cache node ;;;
    fwrite FP (FLD node WASMExecEnv "wasm_stack_size") 4 1).

(** * Interpreter frames (frame.img) *)

Definition wasm_get_func_code (func : Z) : C Z :=
  let* is_import_func := ld 1 (FLD func WASMFunctionInstance "is_import_func") in
  if negb (is_import_func =? 0) then mret NULL
  else let* f := ld 8 (FLD func WASMFunctionInstance "u.func") in
       ld 8 (FLD f WASMFunction "code").

Definition fwrite_u64 (s : stream) (v : Z) : C unit := fwrite_bytes s (le_bytes 8 v).
Definition fwrite_u32 (s : stream) (v : Z) : C unit := fwrite_bytes s (le_bytes 4 v).

(** A pointer of a branch block: the distance from [from] in items of [item]
    bytes, -1 for null. *)
Definition dump_rel (p from item : Z) : C unit :=
  if p =? NULL then fwrite_u64 GP (-1) else fwrite_u64 GP ((p - from) / item).

Definition dump_branch_block (function sp_bottom bb : Z) : C unit :=
  let* begin_addr := ld 8 (FLD bb WASMBranchBlock "begin_addr") in
  let* code := wasm_get_func_code function in
  dump_rel begin_addr code 1 ;;;
  let* target_addr := ld 8 (FLD bb WASMBranchBlock "target_addr") in
  dump_rel target_addr code 1 ;;;
  let* frame_sp := ld 8 (FLD bb WASMBranchBlock "frame_sp") in
  dump_rel frame_sp sp_bottom 4 ;;;
  fwrite GP (FLD bb WASMBranchBlock "cell_num") 4 1.

Definition dump_WASMInterpFrame (addr : Pool_Info) : C unit :=
  HEADER_DUMP_FRAME_BUF WASMInterpFrameT addr (fun node =>
    let* function := ld 8 (FLD node WASMInterpFrame "function") in
    DUMP_FRAME_PTR function ;;;
    if function =? NULL then skip
    else
      let* code := wasm_get_func_code function in
      let* ip := ld 8 (FLD node WASMInterpFrame "ip") in
      fwrite_u64 GP (ip - code) ;;;
      let* sp := ld 8 (FLD node WASMInterpFrame "sp") in
      let* sp_bottom := ld 8 (FLD node WASMInterpFrame "sp_bottom") in
      fwrite_u64 GP ((sp - sp_bottom) / 4) ;;;
      let* csp := ld 8 (FLD node WASMInterpFrame "csp") in
      let* csp_bottom := ld 8 (FLD node WASMInterpFrame "csp_bottom") in
      let bb_num := uint32 ((csp - csp_bottom) / SIZEOF WASMBranchBlock) in
      fwrite_u32 GP bb_num ;;;
      mfor (seqZ 0 bb_num) (fun i =>
        dump_branch_block function sp_bottom (csp_bottom + i * SIZEOF WASMBranchBlock)) ;;;
      let* param_cell_num := ld 2 (FLD function WASMFunctionInstance "param_cell_num") in
      fwrite GP (FLD node WASMInterpFrame "lp") 4 param_cell_num ;;;
      let* local_cell_num := ld 2 (FLD function WASMFunctionInstance "local_cell_num") in
      fwrite GP (FLD node WASMInterpFrame "lp" + param_cell_num * 4) 4 local_cell_num ;;;
      let* func := ld 8 (FLD function WASMFunctionInstance "u.func") in
      let* max_stack_cell_num := ld 4 (FLD func WASMFunction "max_stack_cell_num") in
      fwrite GP sp_bottom 4 max_stack_cell_num).

(** * The dispatch table (wasm_memory.c, [init_dump_func])

    [None] is a slot the table leaves null. *)
Definition dump_data (t : Data_Type) : option (Pool_Info → C unit) :=
  match t with
  | charT => Some dump_char
  | charTT => Some dump_charT
  | uint8T => Some dump_uint8
  | uint16T => Some dump_uint16
  | uint32T => Some dump_uint32
  | uint64T => Some dump_uint64
  | wasm_val_tT => Some dump_wasm_val_t
  | WASMExecEnvT => Some dump_WASMExecEnv
  | WASMModuleCommonT => Some dump_WASMModuleCommon
  | WASMModuleInstanceCommonT => Some dump_exit
  | WASMModuleMemConsumptionT => Some dump_WASMModuleMemConsumption
  | WASMModuleInstMemConsumptionT => Some dump_WASMModuleInstMemConsumption
  | WASMMemoryInstanceCommonT => Some dump_WASMMemoryInstanceCommon
  | WASMSectionT => Some dump_WASMSection
  | WASMCApiFrameT => Some dump_exit
  | WASMModuleT => Some dump_WASMModule
  | WASMFunctionT => Some dump_WASMFunction
  | WASMFunctionTT => Some dump_WASMFunctionT
  | WASMGlobalT => Some dump_WASMGlobal
  | WASMExportT => Some dump_WASMExport
  | V128T => Some dump_V128
  | WASMValueT => Some dump_WASMValue
  | InitializerExpressionT => Some dump_InitializerExpression
  | WASMTypeT => Some dump_WASMType
  | WASMTypeTT => Some dump_WASMTypeT
  | WASMTableT => Some dump_WASMTable
  | WASMMemoryT => Some dump_WASMMemory
  | WASMImportT => Some dump_WASMImport
  | WASMTableSegT => Some dump_WASMTableSeg
  | WASMDataSegT => Some dump_WASMDataSeg
  | WASMDataSegTT => Some dump_WASMDataSegT
  | StringNodeT => Some dump_StringNode
  | WASMBranchBlockT => Some dump_exit
  | WASMInterpFrameT => Some dump_WASMInterpFrame
  | BranchBlockT => Some dump_exit
  | WASMLoaderContextT => Some dump_exit
  | ConstT => Some dump_Const
  | WASMModuleInstanceT => Some dump_WASMModuleInstance
  | WASMFunctionInstanceT => Some dump_WASMFunctionInstance
  | WASMMemoryInstanceT => Some dump_WASMMemoryInstance
  | WASMMemoryInstanceTT => Some dump_WASMMemoryInstanceT
  | WASMTableInstanceT => Some dump_WASMTableInstance
  | WASMTableInstanceTT => Some dump_WASMTableInstanceT
  | WASMGlobalInstanceT => Some dump_WASMGlobalInstance
  | WASMExportFuncInstanceT => Some dump_WASMExportFuncInstance
  | base_addrT | WASI_FILE_T => None
  | _ => Some dump_unsupported
  end.
