(* ===== verification/Restore.v ===== *)
(** wasm_restore.c: one [restore_T] routine per object kind, which reads the
    record that [dump_T] wrote into the object the table gives for its pool
    offset; [restore_internal], the loop over dump.img. *)
From stdpp Require Import base gmap list numbers strings.
From Stdlib Require Import Strings.Byte ZArith Lia.
From S2P Require Import Prelude CMemory WasmTypes PoolInfo Dump.

(** * Macros *)

(** The pointer [RESTORE_PTR] reads from a stream: null for -1, else the
    address at which the object with that pool offset lives now. *)
Definition RESTORE_PTR_FROM (s : stream) : C Z :=
  let* abs := fread_int s in
  if abs =? -1 then mret NULL
  else let* info := get_info abs in
       match info with Some i => mret (p_raw i) | None => mstuck end.
Abbreviation RESTORE_PTR := (RESTORE_PTR_FROM FP).
Abbreviation RESTORE_FRAME_PTR := (RESTORE_PTR_FROM GP).

(** [RESTORE_PTR(node->f)]. *)
Definition RESTORE_PTR_AT (a : Z) : C unit := let* p := RESTORE_PTR in st 8 a p.

Definition HEADER_RESTORE_BUF (addr : Pool_Info) (body : Z → C unit) : C unit :=
  body (p_raw addr).

Definition HEADER_RESTORE (addr : Pool_Info) (body : Pool_Elem → Z → C unit) : C unit :=
  mfor (elems addr) (fun e => body e (p_raw e)).

(** The offset of each element is read back and compared. *)
Definition check_p_abs (e : Pool_Elem) : C unit :=
  let* abs := fread_int FP in
  if negb (p_abs e =? abs) then mexit 1 else skip.

(** * Buffers *)

Definition restore_buffer (elem : Z) (addr : Pool_Info) : C unit :=
  fread FP (p_raw addr) elem (size addr).

Definition restore_char : Pool_Info → C unit := restore_buffer 1.
Definition restore_uint8 : Pool_Info → C unit := restore_buffer 1.
Definition restore_uint16 : Pool_Info → C unit := restore_buffer 2.
Definition restore_uint32 : Pool_Info → C unit := restore_buffer 4.
Definition restore_uint64 : Pool_Info → C unit := restore_buffer 8.

Definition restore_ptrs (addr : Pool_Info) : C unit :=
  mfor (seqZ 0 (size addr)) (fun i => RESTORE_PTR_AT (p_raw addr + i * 8)).

Definition restore_charT : Pool_Info → C unit := restore_ptrs.
Definition restore_WASMFunctionT : Pool_Info → C unit := restore_ptrs.
Definition restore_WASMTypeT : Pool_Info → C unit := restore_ptrs.
Definition restore_WASMDataSegT : Pool_Info → C unit := restore_ptrs.
Definition restore_WASMMemoryInstanceT : Pool_Info → C unit := restore_ptrs.
Definition restore_WASMTableInstanceT : Pool_Info → C unit := restore_ptrs.

(** The kinds that print a message or do nothing, and the ones that end the
    process. *)
Definition restore_unsupported (addr : Pool_Info) : C unit := skip.
Definition restore_exit (addr : Pool_Info) : C unit := mexit 1.

(** * Constants *)

Definition restore_init_value (tag u : Z) : C unit :=
  if (tag =? INIT_EXPR_TYPE_I32_CONST) || (tag =? INIT_EXPR_TYPE_I64_CONST)
     || (tag =? INIT_EXPR_TYPE_F32_CONST) || (tag =? INIT_EXPR_TYPE_F64_CONST)
  then fread FP (FLD u WASMValue "i64") 8 1
  else if tag =? INIT_EXPR_TYPE_V128_CONST
  then fread FP (FLD u WASMValue "v128.f32x4") 8 2
  else if (tag =? INIT_EXPR_TYPE_FUNCREF_CONST) || (tag =? INIT_EXPR_TYPE_REFNULL_CONST)
  then fread FP (FLD u WASMValue "ref_index") 4 1
  else if tag =? INIT_EXPR_TYPE_GET_GLOBAL
  then fread FP (FLD u WASMValue "global_index") 4 1
  else fread FP (FLD u WASMValue "addr") 8 1.

Definition restore_init_expr (e : Z) : C unit :=
  fread FP (FLD e InitializerExpression "init_expr_type") 1 1 ;;;
  let* tag := ld 1 (FLD e InitializerExpression "init_expr_type") in
  restore_init_value tag (FLD e InitializerExpression "u").

Definition restore_V128 (addr : Pool_Info) : C unit :=
  HEADER_RESTORE addr (fun e node =>
    check_p_abs e ;;;
    fread FP (FLD node V128 "f64x2") 8 2).

Definition restore_WASMValue (addr : Pool_Info) : C unit :=
  HEADER_RESTORE addr (fun e node =>
    check_p_abs e ;;;
    fread FP (FLD node WASMValue "v128.f32x4") 8 2).

Definition restore_InitializerExpression (addr : Pool_Info) : C unit :=
  HEADER_RESTORE addr (fun e node =>
    check_p_abs e ;;;
    restore_init_expr node).

Definition restore_Const (addr : Pool_Info) : C unit :=
  HEADER_RESTORE addr (fun e node =>
    check_p_abs e ;;;
    fread FP (FLD node Const "value.v128.f32x4") 8 2 ;;;
    fread FP (FLD node Const "slot_index") 2 1 ;;;
    fread FP (FLD node Const "value_type") 1 1).

(** [restore_wasm_val_t] calls [fwrite] where it should read. *)
Definition restore_wasm_val_t (addr : Pool_Info) : C unit :=
  HEADER_RESTORE addr (fun e node =>
    fwrite_int FP (p_abs e) ;;;
    fwrite FP (FLD node wasm_val_t "kind") 1 1 ;;;
    let* kind := ld 1 (FLD node wasm_val_t "kind") in
    if (kind =? 0) || (kind =? 1) || (kind =? 2) || (kind =? 3)
    then fwrite FP (FLD node wasm_val_t "of") 8 1
    else if (kind =? 128) || (kind =? 129)
    then RESTORE_PTR_AT (FLD node wasm_val_t "of.ref")
    else skip).

(** * Module data *)

Definition restore_WASMModuleMemConsumption (addr : Pool_Info) : C unit :=
  HEADER_RESTORE addr (fun e node =>
    check_p_abs e ;;;
    fread FP (FLD node WASMModuleMemConsumption "total_size") 4 1 ;;;
    fread FP (FLD node WASMModuleMemConsumption "module_struct_size") 4 1 ;;;
    fread FP (FLD node WASMModuleMemConsumption "types_size") 4 1 ;;;
    fread FP (FLD node WASMModuleMemConsumption "imports_size") 4 1 ;;;
    fread FP (FLD node WASMModuleMemConsumption "functions_size") 4 1 ;;;
    fread FP (FLD node WASMModuleMemConsumption "tables_size") 4 1 ;;;
    fread FP (FLD node WASMModuleMemConsumption "memories_size") 4 1 ;;;
    fread FP (FLD node WASMModuleMemConsumption "globals_size") 4 1 ;;;
    fread FP (FLD node WASMModuleMemConsumption "exports_size") 4 1 ;;;
    fread FP (FLD node WASMModuleMemConsumption "table_segs_size") 4 1 ;;;
    fread FP (FLD node WASMModuleMemConsumption "data_segs_size") 4 1 ;;;
    fread FP (FLD node WASMModuleMemConsumption "const_strs_size") 4 1).

Definition restore_WASMModuleInstMemConsumption (addr : Pool_Info) : C unit :=
  HEADER_RESTORE addr (fun e node =>
    check_p_abs e ;;;
    fread FP (FLD node WASMModuleInstMemConsumption "total_size") 4 1 ;;;
    fread FP (FLD node WASMModuleInstMemConsumption "module_inst_struct_size") 4 1 ;;;
    fread FP (FLD node WASMModuleInstMemConsumption "memories_size") 4 1 ;;;
    fread FP (FLD node WASMModuleInstMemConsumption "app_heap_size") 4 1 ;;;
    fread FP (FLD node WASMModuleInstMemConsumption "tables_size") 4 1 ;;;
    fread FP (FLD node WASMModuleInstMemConsumption "globals_size") 4 1 ;;;
    fread FP (FLD node WASMModuleInstMemConsumption "functions_size") 4 1 ;;;
    fread FP (FLD node WASMModuleInstMemConsumption "exports_size") 4 1).

Definition restore_WASMSection (addr : Pool_Info) : C unit :=
  HEADER_RESTORE addr (fun e node =>
    check_p_abs e ;;;
    RESTORE_PTR_AT (FLD node WASMSection "next") ;;;
    fread FP (FLD node WASMSection "section_type") 4 1 ;;;
    RESTORE_PTR_AT (FLD node WASMSection "section_body") ;;;
    fread FP (FLD node WASMSection "section_body_size") 4 1).

Definition restore_WASMModule (addr : Pool_Info) : C unit :=
  modify (set_r_module (p_raw addr)) ;;;
  HEADER_RESTORE addr (fun e node =>
    check_p_abs e ;;;
    fread FP (FLD node WASMModule "module_type") 4 1 ;;;
    fread FP (FLD node WASMModule "type_count") 4 1 ;;;
    fread FP (FLD node WASMModule "import_count") 4 1 ;;;
    fread FP (FLD node WASMModule "function_count") 4 1 ;;;
    fread FP (FLD node WASMModule "table_count") 4 1 ;;;
    fread FP (FLD node WASMModule "memory_count") 4 1 ;;;
    fread FP (FLD node WASMModule "global_count") 4 1 ;;;
    fread FP (FLD node WASMModule "export_count") 4 1 ;;;
    fread FP (FLD node WASMModule "table_seg_count") 4 1 ;;;
    fread FP (FLD node WASMModule "data_seg_count") 4 1 ;;;
    fread FP (FLD node WASMModule "import_function_count") 4 1 ;;;
    fread FP (FLD node WASMModule "import_table_count") 4 1 ;;;
    fread FP (FLD node WASMModule "import_memory_count") 4 1 ;;;
    fread FP (FLD node WASMModule "import_global_count") 4 1 ;;;
    RESTORE_PTR_AT (FLD node WASMModule "import_functions") ;;;
    RESTORE_PTR_AT (FLD node WASMModule "import_tables") ;;;
    RESTORE_PTR_AT (FLD node WASMModule "import_memories") ;;;
    RESTORE_PTR_AT (FLD node WASMModule "import_globals") ;;;
    RESTORE_PTR_AT (FLD node WASMModule "types") ;;;
    RESTORE_PTR_AT (FLD node WASMModule "imports") ;;;
    RESTORE_PTR_AT (FLD node WASMModule "functions") ;;;
    RESTORE_PTR_AT (FLD node WASMModule "tables") ;;;
    RESTORE_PTR_AT (FLD node WASMModule "memories") ;;;
    RESTORE_PTR_AT (FLD node WASMModule "globals") ;;;
    RESTORE_PTR_AT (FLD node WASMModule "exports") ;;;
    RESTORE_PTR_AT (FLD node WASMModule "table_segments") ;;;
    RESTORE_PTR_AT (FLD node WASMModule "data_segments") ;;;
    fread FP (FLD node WASMModule "start_function") 4 1 ;;;
    fread FP (FLD node WASMModule "aux_data_end_global_index") 4 1 ;;;
    fread FP (FLD node WASMModule "aux_data_end") 4 1 ;;;
    fread FP (FLD node WASMModule "aux_heap_base_global_index") 4 1 ;;;
    fread FP (FLD node WASMModule "aux_heap_base") 4 1 ;;;
    fread FP (FLD node WASMModule "aux_stack_top_global_index") 4 1 ;;;
    fread FP (FLD node WASMModule "aux_stack_bottom") 4 1 ;;;
    fread FP (FLD node WASMModule "aux_stack_size") 4 1 ;;;
    fread FP (FLD node WASMModule "malloc_function") 4 1 ;;;
    fread FP (FLD node WASMModule "free_function") 4 1 ;;;
    fread FP (FLD node WASMModule "retain_function") 4 1 ;;;
    fread FP (FLD node WASMModule "possible_memory_grow") 1 1 ;;;
    RESTORE_PTR_AT (FLD node WASMModule "const_str_list") ;;;
    fread FP (FLD node WASMModule "is_wasi_module") 1 1).

Definition restore_WASMFunction (addr : Pool_Info) : C unit :=
  HEADER_RESTORE_BUF addr (fun node =>
    RESTORE_PTR_AT (FLD node WASMFunction "func_type") ;;;
    fread FP (FLD node WASMFunction "local_count") 4 1 ;;;
    st 8 (FLD node WASMFunction "local_types") (node + SIZEOF WASMFunction) ;;;
    fread FP (FLD node WASMFunction "param_cell_num") 2 1 ;;;
    fread FP (FLD node WASMFunction "ret_cell_num") 2 1 ;;;
    fread FP (FLD node WASMFunction "local_cell_num") 2 1 ;;;
    RESTORE_PTR_AT (FLD node WASMFunction "local_offsets") ;;;
    fread FP (FLD node WASMFunction "max_stack_cell_num") 4 1 ;;;
    fread FP (FLD node WASMFunction "max_block_num") 4 1 ;;;
    fread FP (FLD node WASMFunction "has_op_memory_grow") 1 1 ;;;
    fread FP (FLD node WASMFunction "has_op_func_call") 1 1 ;;;
    fread FP (FLD node WASMFunction "code_size") 4 1 ;;;
    RESTORE_PTR_AT (FLD node WASMFunction "code") ;;;
    let* local_types := ld 8 (FLD node WASMFunction "local_types") in
    let* local_count := ld 4 (FLD node WASMFunction "local_count") in
    fread FP local_types 1 local_count).

Definition restore_WASMGlobal (addr : Pool_Info) : C unit :=
  HEADER_RESTORE addr (fun e node =>
    check_p_abs e ;;;
    fread FP (FLD node WASMGlobal "type") 1 1 ;;;
    fread FP (FLD node WASMGlobal "is_mutable") 1 1 ;;;
    restore_init_expr (FLD node WASMGlobal "init_expr")).

(** A name: the string node is read, the name is the text that follows it. *)
Definition restore_name (a : Z) : C unit :=
  let* str_node := RESTORE_PTR in st 8 a (str_node + SIZEOF StringNode).

Definition restore_WASMExport (addr : Pool_Info) : C unit :=
  HEADER_RESTORE addr (fun e node =>
    check_p_abs e ;;;
    restore_name (FLD node WASMExport "name") ;;;
    fread FP (FLD node WASMExport "kind") 1 1 ;;;
    fread FP (FLD node WASMExport "index") 4 1).

Definition restore_WASMType (addr : Pool_Info) : C unit :=
  HEADER_RESTORE_BUF addr (fun node =>
    fread FP (FLD node WASMType "param_count") 2 1 ;;;
    fread FP (FLD node WASMType "result_count") 2 1 ;;;
    fread FP (FLD node WASMType "param_cell_num") 2 1 ;;;
    fread FP (FLD node WASMType "ret_cell_num") 2 1 ;;;
    let* param_count := ld 2 (FLD node WASMType "param_count") in
    let* result_count := ld 2 (FLD node WASMType "result_count") in
    fread FP (FLD node WASMType "types") 1 (param_count + result_count)).

Definition restore_WASMTable (addr : Pool_Info) : C unit :=
  HEADER_RESTORE addr (fun e node =>
    check_p_abs e ;;;
    fread FP (FLD node WASMTable "elem_type") 1 1 ;;;
    fread FP (FLD node WASMTable "flags") 4 1 ;;;
    fread FP (FLD node WASMTable "init_size") 4 1 ;;;
    fread FP (FLD node WASMTable "max_size") 4 1 ;;;
    fread FP (FLD node WASMTable "possible_grow") 1 1).

Definition restore_WASMMemory (addr : Pool_Info) : C unit :=
  HEADER_RESTORE addr (fun e node =>
    check_p_abs e ;;;
    fread FP (FLD node WASMMemory "flags") 4 1 ;;;
    fread FP (FLD node WASMMemory "num_bytes_per_page") 4 1 ;;;
    fread FP (FLD node WASMMemory "init_page_count") 4 1 ;;;
    fread FP (FLD node WASMMemory "max_page_count") 4 1).

Definition restore_WASMImport (addr : Pool_Info) : C unit :=
  HEADER_RESTORE addr (fun e node =>
    check_p_abs e ;;;
    fread FP (FLD node WASMImport "kind") 1 1 ;;;
    restore_name (FLD node WASMImport "u.names.module_name") ;;;
    restore_name (FLD node WASMImport "u.names.field_name") ;;;
    let* kind := ld 1 (FLD node WASMImport "kind") in
    if kind =? IMPORT_KIND_FUNC then
      RESTORE_PTR_AT (FLD node WASMImport "u.function.func_type") ;;;
      fread FP (FLD node WASMImport "u.function.call_conv_raw") 1 1 ;;;
      fread FP (FLD node WASMImport "u.function.call_conv_wasm_c_api") 1 1 ;;;
      fread FP (FLD node WASMImport "u.function.wasm_c_api_with_env") 1 1
    else if kind =? IMPORT_KIND_TABLE then
      fread FP (FLD node WASMImport "u.table.elem_type") 1 1 ;;;
      fread FP (FLD node WASMImport "u.table.flags") 4 1 ;;;
      fread FP (FLD node WASMImport "u.table.init_size") 4 1 ;;;
      fread FP (FLD node WASMImport "u.table.max_size") 4 1 ;;;
      fread FP (FLD node WASMImport "u.table.possible_grow") 1 1
    else if kind =? IMPORT_KIND_MEMORY then
      fread FP (FLD node WASMImport "u.memory.flags") 4 1 ;;;
      fread FP (FLD node WASMImport "u.memory.num_bytes_per_page") 4 1 ;;;
      fread FP (FLD node WASMImport "u.memory.init_page_count") 4 1 ;;;
      fread FP (FLD node WASMImport "u.memory.max_page_count") 4 1
    else if kind =? IMPORT_KIND_GLOBAL then
      fread FP (FLD node WASMImport "u.global.type") 1 1 ;;;
      fread FP (FLD node WASMImport "u.global.is_mutable") 1 1 ;;;
      fread FP (FLD node WASMImport "u.global.global_data_linked.v128.f32x4") 8 2 ;;;
      fread FP (FLD node WASMImport "u.global.is_linked") 1 1
    else skip).

Definition restore_WASMTableSeg (addr : Pool_Info) : C unit :=
  HEADER_RESTORE addr (fun e node =>
    check_p_abs e ;;;
    fread FP (FLD node WASMTableSeg "mode") 4 1 ;;;
    fread FP (FLD node WASMTableSeg "elem_type") 4 1 ;;;
    fread FP (FLD node WASMTableSeg "is_dropped") 1 1 ;;;
    fread FP (FLD node WASMTableSeg "table_index") 4 1 ;;;
    restore_init_expr (FLD node WASMTableSeg "base_offset") ;;;
    fread FP (FLD node WASMTableSeg "function_count") 4 1 ;;;
    RESTORE_PTR_AT (FLD node WASMTableSeg "func_indexes")).

Definition restore_WASMDataSeg (addr : Pool_Info) : C unit :=
  HEADER_RESTORE addr (fun e node =>
    check_p_abs e ;;;
    fread FP (FLD node WASMDataSeg "memory_index") 4 1 ;;;
    restore_init_expr (FLD node WASMDataSeg "base_offset") ;;;
    fread FP (FLD node WASMDataSeg "data_length") 4 1 ;;;
    RESTORE_PTR_AT (FLD node WASMDataSeg "data")).

Definition restore_StringNode (addr : Pool_Info) : C unit :=
  HEADER_RESTORE_BUF addr (fun node =>
    let* n := fread_int FP in
    if negb (size addr =? n) then mexit 1
    else
      RESTORE_PTR_AT (FLD node StringNode "next") ;;;
      st 8 (FLD node StringNode "str") (node + SIZEOF StringNode) ;;;
      let* str := ld 8 (FLD node StringNode "str") in
      fread FP str 1 n).

(** [restore_WASMBranchBlock] calls [fwrite] for the count. *)
Definition restore_WASMBranchBlock (addr : Pool_Info) : C unit :=
  HEADER_RESTORE addr (fun e node =>
    fwrite_int FP (p_abs e) ;;;
    RESTORE_PTR_AT (FLD node WASMBranchBlock "begin_addr") ;;;
    RESTORE_PTR_AT (FLD node WASMBranchBlock "target_addr") ;;;
    RESTORE_PTR_AT (FLD node WASMBranchBlock "frame_sp") ;;;
    fwrite FP (FLD node WASMBranchBlock "cell_num") 4 1).

(** * Instance data *)

Definition restore_WASMModuleInstance (addr : Pool_Info) : C unit :=
  modify (set_r_module_inst (p_raw addr)) ;;;
  HEADER_RESTORE addr (fun e node =>
    check_p_abs e ;;;
    fread FP (FLD node WASMModuleInstance "module_type") 4 1 ;;;
    fread FP (FLD node WASMModuleInstance "memory_count") 4 1 ;;;
    fread FP (FLD node WASMModuleInstance "table_count") 4 1 ;;;
    fread FP (FLD node WASMModuleInstance "global_count") 4 1 ;;;
    fread FP (FLD node WASMModuleInstance "function_count") 4 1 ;;;
    fread FP (FLD node WASMModuleInstance "export_func_count") 4 1 ;;;
    RESTORE_PTR_AT (FLD node WASMModuleInstance "memories") ;;;
    RESTORE_PTR_AT (FLD node WASMModuleInstance "tables") ;;;
    RESTORE_PTR_AT (FLD node WASMModuleInstance "globals") ;;;
    RESTORE_PTR_AT (FLD node WASMModuleInstance "functions") ;;;
    RESTORE_PTR_AT (FLD node WASMModuleInstance "export_functions") ;;;
    RESTORE_PTR_AT (FLD node WASMModuleInstance "default_memory") ;;;
    RESTORE_PTR_AT (FLD node WASMModuleInstance "default_table") ;;;
    RESTORE_PTR_AT (FLD node WASMModuleInstance "global_data") ;;;
    RESTORE_PTR_AT (FLD node WASMModuleInstance "start_function") ;;;
    RESTORE_PTR_AT (FLD node WASMModuleInstance "malloc_function") ;;;
    RESTORE_PTR_AT (FLD node WASMModuleInstance "free_function") ;;;
    RESTORE_PTR_AT (FLD node WASMModuleInstance "retain_function") ;;;
    RESTORE_PTR_AT (FLD node WASMModuleInstance "module") ;;;
    RESTORE_PTR_AT (FLD node WASMModuleInstance "exec_env_singleton") ;;;
    fread FP (FLD node WASMModuleInstance "temp_ret") 4 1 ;;;
    fread FP (FLD node WASMModuleInstance "llvm_stack") 4 1 ;;;
    fread FP (FLD node WASMModuleInstance "default_wasm_stack_size") 4 1 ;;;
    fread FP (FLD node WASMModuleInstance "cur_exception") 1 128 ;;;
    RESTORE_PTR_AT (FLD node WASMModuleInstance "custom_data")).

Definition restore_WASMFunctionInstance (addr : Pool_Info) : C unit :=
  HEADER_RESTORE addr (fun e node =>
    check_p_abs e ;;;
    fread FP (FLD node WASMFunctionInstance "is_import_func") 1 1 ;;;
    fread FP (FLD node WASMFunctionInstance "param_count") 2 1 ;;;
    fread FP (FLD node WASMFunctionInstance "local_count") 2 1 ;;;
    fread FP (FLD node WASMFunctionInstance "param_cell_num") 2 1 ;;;
    fread FP (FLD node WASMFunctionInstance "ret_cell_num") 2 1 ;;;
    fread FP (FLD node WASMFunctionInstance "local_cell_num") 2 1 ;;;
    let* is_import_func := ld 1 (FLD node WASMFunctionInstance "is_import_func") in
    if negb (is_import_func =? 0) then
      let* import := RESTORE_PTR in
      st 8 (FLD node WASMFunctionInstance "u.func_import") (FLD import WASMImport "u.function") ;;;
      let* type := RESTORE_PTR in
      st 8 (FLD node WASMFunctionInstance "param_types") (FLD type WASMType "types")
    else
      RESTORE_PTR_AT (FLD node WASMFunctionInstance "u.func") ;;;
      RESTORE_PTR_AT (FLD node WASMFunctionInstance "local_offsets") ;;;
      let* type := RESTORE_PTR in
      st 8 (FLD node WASMFunctionInstance "param_types") (FLD type WASMType "types") ;;;
      let* func := ld 8 (FLD node WASMFunctionInstance "u.func") in
      st 8 (FLD node WASMFunctionInstance "local_types") (func + SIZEOF WASMFunction)).

Definition restore_WASMMemoryInstance (addr : Pool_Info) : C unit :=
  HEADER_RESTORE addr (fun e node =>
    check_p_abs e ;;;
    fread FP (FLD node WASMMemoryInstance "module_type") 4 1 ;;;
    fread FP (FLD node WASMMemoryInstance "is_shared") 1 1 ;;;
    fread FP (FLD node WASMMemoryInstance "num_bytes_per_page") 4 1 ;;;
    fread FP (FLD node WASMMemoryInstance "cur_page_count") 4 1 ;;;
    fread FP (FLD node WASMMemoryInstance "max_page_count") 4 1 ;;;
    RESTORE_PTR_AT (FLD node WASMMemoryInstance "memory_data") ;;;
    let* memory_data := ld 8 (FLD node WASMMemoryInstance "memory_data") in
    let* num_bytes_per_page := ld 4 (FLD node WASMMemoryInstance "num_bytes_per_page") in
    let* cur_page_count := ld 4 (FLD node WASMMemoryInstance "cur_page_count") in
    st 8 (FLD node WASMMemoryInstance "memory_data_end")
      (memory_data + uint64 (num_bytes_per_page * cur_page_count))).

Definition restore_WASMTableInstance (addr : Pool_Info) : C unit :=
  HEADER_RESTORE_BUF addr (fun node =>
    fread FP (FLD node WASMTableInstance "elem_type") 1 1 ;;;
    fread FP (FLD node WASMTableInstance "cur_size") 4 1 ;;;
    fread FP (FLD node WASMTableInstance "max_size") 4 1 ;;;
    fread FP (FLD node WASMTableInstance "base_addr") 4 (uint64 (size addr) / 4)).

(** The reference case of the [switch] calls [fwrite]. *)
Definition restore_global_value (tag u : Z) : C unit :=
  if (tag =? INIT_EXPR_TYPE_I32_CONST) || (tag =? INIT_EXPR_TYPE_I64_CONST)
     || (tag =? INIT_EXPR_TYPE_F32_CONST) || (tag =? INIT_EXPR_TYPE_F64_CONST)
  then fread FP (FLD u WASMValue "i64") 8 1
  else if tag =? INIT_EXPR_TYPE_V128_CONST
  then fread FP (FLD u WASMValue "v128.f32x4") 8 2
  else if (tag =? INIT_EXPR_TYPE_FUNCREF_CONST) || (tag =? INIT_EXPR_TYPE_REFNULL_CONST)
  then fwrite FP (FLD u WASMValue "ref_index") 4 1
  else if tag =? INIT_EXPR_TYPE_GET_GLOBAL
  then fread FP (FLD u WASMValue "global_index") 4 1
  else fread FP (FLD u WASMValue "addr") 8 1.

Definition restore_WASMGlobalInstance (addr : Pool_Info) : C unit :=
  HEADER_RESTORE addr (fun e node =>
    check_p_abs e ;;;
    fread FP (FLD node WASMGlobalInstance "type") 1 1 ;;;
    fread FP (FLD node WASMGlobalInstance "is_mutable") 1 1 ;;;
    fread FP (FLD node WASMGlobalInstance "data_offset") 4 1 ;;;
    let* type := ld 1 (FLD node WASMGlobalInstance "type") in
    restore_global_value type (FLD node WASMGlobalInstance "initial_value")).

Definition restore_WASMExportFuncInstance (addr : Pool_Info) : C unit :=
  HEADER_RESTORE addr (fun e node =>
    check_p_abs e ;;;
    restore_name (FLD node WASMExportFuncInstance "name") ;;;
    RESTORE_PTR_AT (FLD node WASMExportFuncInstance "function")).

(** * Execution environment *)

(** The three addresses of a cache entry from the code block they point into. *)
Definition restore_cache_entry (entry : Z) : C unit :=
  let* abs := fread_int FP in
  if abs =? -1 then
    st 8 (FLD entry BlockAddr "start_addr") NULL ;;;
    st 8 (FLD entry BlockAddr "else_addr") NULL ;;;
    st 8 (FLD entry BlockAddr "end_addr") NULL
  else
    let* info := get_info abs in
    match info with
    | None => mstuck
    | Some i =>
        let code := p_raw i in
        let* ip := fread_uint FP 4 in
        st 8 (FLD entry BlockAddr "start_addr") (ip + code) ;;;
        let* ip := fread_uint FP 4 in
        st 8 (FLD entry BlockAddr "else_addr") (ip + code) ;;;
        let* ip := fread_uint FP 4 in
        st 8 (FLD entry BlockAddr "end_addr") (ip + code)
    end.

Definition restore_block_addr_cache (node : Z) : C unit :=
  mfor cache_slots (fun slot => restore_cache_entry (cache_slot node slot)).

Definition restore_WASMExecEnv (addr : Pool_Info) : C unit :=
  HEADER_RESTORE_BUF addr (fun node =>
    modify (set_r_exec_env node) ;;;
    RESTORE_PTR_AT (FLD node WASMExecEnv "next") ;;;
    RESTORE_PTR_AT (FLD node WASMExecEnv "prev") ;;;
    RESTORE_PTR_AT (FLD node WASMExecEnv "module_inst") ;;;
    RESTORE_PTR_AT (FLD node WASMExecEnv "attachment") ;;;
    restore_block_addr_cache node ;;;
    fread FP (FLD node WASMExecEnv "wasm_stack_size") 4 1 ;;;
    st 8 (FLD node WASMExecEnv "wasm_stack.s.top") (FLD node WASMExecEnv "wasm_stack.s.bottom") ;;;
    let* wasm_stack_size := ld 4 (FLD node WASMExecEnv "wasm_stack_size") in
    st 8 (FLD node WASMExecEnv "wasm_stack.s.top_boundary")
      (FLD node WASMExecEnv "wasm_stack.s.bottom" + wasm_stack_size)).

(** * Interpreter frames *)

Definition fread_i64 (s : stream) : C Z := let* v := fread_uint s 8 in mret (swrap 64 v).

(** A pointer of a branch block from its distance in items of [item] bytes. *)
Definition restore_rel (a from item : Z) : C unit :=
  let* ip := fread_i64 GP in
  st 8 a (if ip =? -1 then NULL else ip * item + from).

Definition restore_branch_block (function sp_bottom bb : Z) : C unit :=
  let* code := wasm_get_func_code function in
  restore_rel (FLD bb WASMBranchBlock "begin_addr") code 1 ;;;
  restore_rel (FLD bb WASMBranchBlock "target_addr") code 1 ;;;
  restore_rel (FLD bb WASMBranchBlock "frame_sp") sp_bottom 4 ;;;
  fread GP (FLD bb WASMBranchBlock "cell_num") 4 1.

Definition restore_WASMInterpFrame (addr : Pool_Info) : C unit :=
  HEADER_RESTORE_BUF addr (fun node =>
    let* function := RESTORE_FRAME_PTR in
    st 8 (FLD node WASMInterpFrame "function") function ;;;
    if function =? NULL then skip
    else
      let* code := wasm_get_func_code function in
      let* ip := fread_uint GP 8 in
      st 8 (FLD node WASMInterpFrame "ip") (ip + code) ;;;
      let* param_cell_num := ld 2 (FLD function WASMFunctionInstance "param_cell_num") in
      let* local_cell_num := ld 2 (FLD function WASMFunctionInstance "local_cell_num") in
      let sp_bottom := FLD node WASMInterpFrame "lp" + param_cell_num * 4 + local_cell_num * 4 in
      st 8 (FLD node WASMInterpFrame "sp_bottom") sp_bottom ;;;
      let* func := ld 8 (FLD function WASMFunctionInstance "u.func") in
      let* max_stack_cell_num := ld 4 (FLD func WASMFunction "max_stack_cell_num") in
      let sp_boundary := sp_bottom + max_stack_cell_num * 4 in
      st 8 (FLD node WASMInterpFrame "sp_boundary") sp_boundary ;;;
      let* sp := fread_uint GP 8 in
      st 8 (FLD node WASMInterpFrame "sp") (sp_bottom + sp * 4) ;;;
      st 8 (FLD node WASMInterpFrame "csp_bottom") sp_boundary ;;;
      st 8 (FLD node WASMInterpFrame "csp") sp_boundary ;;;
      let* max_block_num := ld 4 (FLD func WASMFunction "max_block_num") in
      st 8 (FLD node WASMInterpFrame "csp_boundary")
        (sp_boundary + max_block_num * SIZEOF WASMBranchBlock) ;;;
      let* bb_num := fread_uint GP 4 in
      mfor (seqZ 0 bb_num) (fun i =>
        restore_branch_block function sp_bottom (sp_boundary + i * SIZEOF WASMBranchBlock) ;;;
        st 8 (FLD node WASMInterpFrame "csp") (sp_boundary + (i + 1) * SIZEOF WASMBranchBlock)) ;;;
      fread GP (FLD node WASMInterpFrame "lp") 4 param_cell_num ;;;
      fread GP (FLD node WASMInterpFrame "lp" + param_cell_num * 4) 4 local_cell_num ;;;
      fread GP sp_bottom 4 max_stack_cell_num).

(** * The dispatch table ([init_restore]) and the loop over dump.img *)

Definition restore_data (t : Data_Type) : option (Pool_Info → C unit) :=
  match t with
  | charT => Some restore_char
  | charTT => Some restore_charT
  | uint8T => Some restore_uint8
  | uint16T => Some restore_uint16
  | uint32T => Some restore_uint32
  | uint64T => Some restore_uint64
  | wasm_val_tT => Some restore_wasm_val_t
  | WASMExecEnvT => Some restore_WASMExecEnv
  | WASMModuleMemConsumptionT => Some restore_WASMModuleMemConsumption
  | WASMModuleInstMemConsumptionT => Some restore_WASMModuleInstMemConsumption
  | WASMSectionT => Some restore_WASMSection
  | WASMCApiFrameT => Some restore_exit
  | WASMModuleT => Some restore_WASMModule
  | WASMFunctionT => Some restore_WASMFunction
  | WASMFunctionTT => Some restore_WASMFunctionT
  | WASMGlobalT => Some restore_WASMGlobal
  | WASMExportT => Some restore_WASMExport
  | V128T => Some restore_V128
  | WASMValueT => Some restore_WASMValue
  | InitializerExpressionT => Some restore_InitializerExpression
  | WASMTypeT => Some restore_WASMType
  | WASMTypeTT => Some restore_WASMTypeT
  | WASMTableT => Some restore_WASMTable
  | WASMMemoryT => Some restore_WASMMemory
  | WASMImportT => Some restore_WASMImport
  | WASMTableSegT => Some restore_WASMTableSeg
  | WASMDataSegT => Some restore_WASMDataSeg
  | WASMDataSegTT => Some restore_WASMDataSegT
  | BlockAddrT => Some restore_exit
  | WASIArgumentsT => Some restore_exit
  | StringNodeT => Some restore_StringNode
  | WASMBranchBlockT => Some restore_WASMBranchBlock
  | WASMInterpFrameT => Some restore_WASMInterpFrame
  | BranchBlockT => Some restore_exit
  | WASMLoaderContextT => Some restore_exit
  | ConstT => Some restore_Const
  | WASMModuleInstanceT => Some restore_WASMModuleInstance
  | WASMFunctionInstanceT => Some restore_WASMFunctionInstance
  | WASMMemoryInstanceT => Some restore_WASMMemoryInstance
  | WASMMemoryInstanceTT => Some restore_WASMMemoryInstanceT
  | WASMTableInstanceT => Some restore_WASMTableInstance
  | WASMTableInstanceTT => Some restore_WASMTableInstanceT
  | WASMGlobalInstanceT => Some restore_WASMGlobalInstance
  | WASMExportFuncInstanceT => Some restore_WASMExportFuncInstance
  | base_addrT | WASI_FILE_T => None
  | _ => Some restore_unsupported
  end.

(** A call through the table: a null slot, or a null object, has no meaning. *)
Definition call_restore (t : Z) (info : option Pool_Info) : C unit :=
  match type_of_code t with
  | None => mstuck
  | Some t =>
      match restore_data t, info with
      | Some f, Some i => f i
      | _, _ => mstuck
      end
  end.

(** One turn of the loop of [restore_internal]; [false] when the file is at
    its end. *)
Definition at_eof (s : stream) : C bool := gets (fun w =>
  match get_file s w with
  | FRead rest => Z.of_nat (length rest) <? 4
  | _ => true
  end).

Definition restore_record : C unit :=
  let* t := fread_int FP in
  let* sz := fread_int FP in
  let* abs := fread_int FP in
  let* info := get_info abs in
  call_restore t info.

Fixpoint restore_loop (fuel : nat) : C unit :=
  match fuel with
  | O => mstuck
  | S fuel =>
      let* eof := at_eof FP in
      if (eof : bool) then skip else restore_record ;;; restore_loop fuel
  end.

(** Every turn reads twelve bytes at least, so the length of the file bounds the
    number of turns. *)
Definition restore_internal : C unit :=
  let* n := gets (fun w => match w_fp w with FRead rest => length rest | _ => O end) in
  restore_loop (S n).
