(* ===== verification/Format.v ===== *)
(** The record format of dump.img, as a specification the dump and the restore
    routines are proved to implement.

    A format describes how one object is written and read back: plain fields,
    pointers (written as pool offsets), pointers into the middle of another
    object, fields the restore computes, and branches on a tag that was
    written before.  [dump_fmt] and [restore_fmt] are its two readings as
    programs; [fmt_roundtrip] is the generic round trip: what [restore_fmt] makes
    of the bytes of [dump_fmt] agrees with the source object field by field, up
    to relocation of pointers, and nothing outside the object is written. *)
From stdpp Require Import base gmap list numbers strings.
From Stdlib Require Import Strings.Byte ZArith Lia.
From S2P Require Import Prelude CMemory WasmTypes PoolInfo Dump Restore.

(** * Formats *)

Inductive fmt : Type :=
| FDone
| FFld (off sz cnt : Z) (k : fmt)        (* [cnt] items of [sz] bytes at [off] *)
| FPtr (off : Z) (k : fmt)               (* a pointer to the start of an object *)
| FPtrD (off d : Z) (k : fmt)            (* a pointer [d] bytes into an object *)
| FSet (off : Z) (deps : list (Z * Z)) (g : Z → list Z → Z) (k : fmt)
                                         (* computed from other fields on restore *)
| FBuf (offp d cnt : Z) (k : fmt)        (* the buffer the pointer at [offp] holds *)
| FEntry (off : Z) (oc : option Z) (k : fmt)
                                         (* a block address entry, relative to code *)
| FLost (off sz cnt : Z) (k : fmt)       (* written, and not read back *)
| FCase (off n : Z) (k : Z → fmt).       (* go on by the word at [off] *)

Definition ldp (m : mem) (a : Z) : Z := load_Z m a 8.
Definition ld_deps (m : mem) (node : Z) (deps : list (Z * Z)) : list Z :=
  map (fun d => load_Z m (node + d.1) d.2) deps.

Fixpoint dump_fmt (f : fmt) (node : Z) : C unit :=
  match f with
  | FDone => skip
  | FFld off sz cnt k => fwrite FP (node + off) sz cnt ;;; dump_fmt k node
  | FPtr off k => DUMP_PTR_AT (node + off) ;;; dump_fmt k node
  | FPtrD off d k => (let* p := ld 8 (node + off) in DUMP_PTR (p - d)) ;;; dump_fmt k node
  | FSet _ _ _ k => dump_fmt k node
  | FBuf offp _ cnt k => (let* p := ld 8 (node + offp) in fwrite FP p 1 cnt) ;;; dump_fmt k node
  | FEntry off oc k =>
      (let* s := ld 8 (node + off) in
       let* e := ld 8 (node + off + 8) in
       let* d := ld 8 (node + off + 16) in
       match oc with
       | None => DUMP_PTR NULL
       | Some code =>
           DUMP_PTR code ;;;
           fwrite_int FP (uint32 (s - code)) ;;;
           fwrite_int FP (uint32 (e - code)) ;;;
           fwrite_int FP (uint32 (d - code))
       end) ;;; dump_fmt k node
  | FLost off sz cnt k => fwrite FP (node + off) sz cnt ;;; dump_fmt k node
  | FCase off n k => let* v := ld n (node + off) in dump_fmt (k v) node
  end.

Fixpoint restore_fmt (f : fmt) (node : Z) : C unit :=
  match f with
  | FDone => skip
  | FFld off sz cnt k => fread FP (node + off) sz cnt ;;; restore_fmt k node
  | FPtr off k => RESTORE_PTR_AT (node + off) ;;; restore_fmt k node
  | FPtrD off d k => (let* p := RESTORE_PTR in st 8 (node + off) (p + d)) ;;; restore_fmt k node
  | FSet off deps g k =>
      (let* vs := gets (fun w => ld_deps (wmem w) node deps) in
       st 8 (node + off) (g node vs)) ;;; restore_fmt k node
  | FBuf offp _ cnt k => (let* p := ld 8 (node + offp) in fread FP p 1 cnt) ;;; restore_fmt k node
  | FEntry off _ k => restore_cache_entry (node + off) ;;; restore_fmt k node
  | FLost off sz cnt k => fwrite FP (node + off) sz cnt ;;; restore_fmt k node
  | FCase off n k => let* v := ld n (node + off) in restore_fmt (k v) node
  end.

(** * Streams and pointers *)

(** The four bytes [DUMP_PTR] writes, and the address [RESTORE_PTR] makes of
    them with the table [root] of the restoring process. *)
Definition enc_ptr (base p : Z) : list byte :=
  if p =? NULL then le_bytes 4 (-1) else le_bytes 4 (p - base).

Definition reloc (base : Z) (root : list Pool_Info) (p : Z) : option Z :=
  if p =? NULL then Some NULL
  else if int32 (p - base) =? -1 then Some NULL
  else p_raw ∘ head <$> find_info (fun e => int32 (p - base) =? p_abs e) root.

(** The same for a pointer that must point to an object. *)
Definition reloc_obj (base : Z) (root : list Pool_Info) (p : Z) : option Z :=
  if (p =? NULL) || (int32 (p - base) =? -1) then None
  else p_raw ∘ head <$> find_info (fun e => int32 (p - base) =? p_abs e) root.

Lemma le_Z_int32 z : int32 (le_Z (le_bytes 4 z)) = int32 z.
Proof. rewrite le_Z_bytes. apply (swrap_wrap 32). lia. Qed.

Lemma length_enc_ptr base p : length (enc_ptr base p) = 4%nat.
Proof. unfold enc_ptr. zcase; done. Qed.
#[export] Hint Rewrite length_enc_ptr : migrw.

Lemma fwrite_bytes_fp w out bs :
  w_fp w = FWrite out → fwrite_bytes FP bs w = Ok tt (set_fp (FWrite (out ++ bs)) w).
Proof. intros H. unfold fwrite_bytes, modify. simpl. by rewrite H. Qed.

Lemma fwrite_fp w out a sz cnt :
  w_fp w = FWrite out → 0 <= cnt →
  fwrite FP a sz cnt w
  = Ok tt (set_fp (FWrite (out ++ load (wmem w) a (Z.to_nat (sz * cnt)))) w).
Proof.
  intros H Hc. unfold fwrite. rewrite (proj2 (Z.ltb_ge cnt 0)) by lia.
  by apply fwrite_bytes_fp.
Qed.

Lemma DUMP_PTR_fp w out p :
  w_fp w = FWrite out →
  DUMP_PTR p w = Ok tt (set_fp (FWrite (out ++ enc_ptr (dump_base w) p)) w).
Proof.
  intros H. unfold DUMP_PTR_TO, enc_ptr, fwrite_int.
  destruct (p =? NULL); [by apply fwrite_bytes_fp|].
  unfold mbind, gets. by apply fwrite_bytes_fp.
Qed.

Lemma fread_bytes_app w bs rest n :
  w_fp w = FRead (bs ++ rest) → n = Z.of_nat (length bs) →
  fread_bytes FP n w = Ok bs (set_fp (FRead rest) w).
Proof.
  intros H ->. unfold fread_bytes. simpl. rewrite H, length_app.
  destruct (Z.ltb_spec (Z.of_nat (length bs)) 0); [lia|].
  destruct (Z.ltb_spec (Z.of_nat (length bs + length rest)) (Z.of_nat (length bs))); [lia|].
  simpl. by rewrite Nat2Z.id, take_app_length, drop_app_length.
Qed.

Lemma fread_app w bs rest a sz cnt :
  w_fp w = FRead (bs ++ rest) → sz * cnt = Z.of_nat (length bs) →
  fread FP a sz cnt w = Ok tt (set_mem (store (wmem w) a bs) (set_fp (FRead rest) w)).
Proof.
  intros H Hn. unfold fread, mbind.
  by rewrite (fread_bytes_app w bs rest) by (done || lia).
Qed.

Lemma fread_int_app w v rest :
  w_fp w = FRead (le_bytes 4 v ++ rest) →
  fread_int FP w = Ok (int32 v) (set_fp (FRead rest) w).
Proof.
  intros H. unfold fread_int, mbind.
  rewrite (fread_bytes_app w (le_bytes 4 v) rest) by (done || by rewrite length_le_bytes).
  unfold mret. by rewrite le_Z_int32.
Qed.

Lemma fread_uint_app w v rest :
  w_fp w = FRead (le_bytes 4 (uint32 v) ++ rest) →
  fread_uint FP 4 w = Ok (uint32 v) (set_fp (FRead rest) w).
Proof.
  intros H. unfold fread_uint, mbind.
  rewrite (fread_bytes_app w (le_bytes 4 (uint32 v)) rest) by (done || by rewrite length_le_bytes).
  unfold mret. rewrite le_Z_bytes_small; [done|]. by apply (wrap_range 32).
Qed.

Lemma RESTORE_PTR_app w base p rest q :
  w_fp w = FRead (enc_ptr base p ++ rest) →
  reloc base (root_info w) p = Some q →
  RESTORE_PTR w = Ok q (set_fp (FRead rest) w).
Proof.
  intros Hf Hr. unfold RESTORE_PTR_FROM. unfold enc_ptr in Hf. unfold reloc in Hr.
  destruct (p =? NULL) eqn:E.
  - erewrite mbind_ok by (by apply fread_int_app). simpl. by simplify_eq.
  - erewrite mbind_ok by (by apply fread_int_app).
    destruct (int32 (p - base) =? -1) eqn:E1; [by simplify_eq|].
    unfold mbind, get_info. rewrite E1. simpl.
    destruct (find_info _ (root_info w)); simpl in Hr; by simplify_eq.
Qed.

(** * The bytes of a record *)

Definition entry_ofs : list Z := [0; 8; 16].

Definition enc_entry (m : mem) (base : Z) (entry : Z) (oc : option Z) : list byte :=
  match oc with
  | None => enc_ptr base NULL
  | Some code =>
      enc_ptr base code
      ++ le_bytes 4 (uint32 (ldp m (entry + 0) - code))
      ++ le_bytes 4 (uint32 (ldp m (entry + 8) - code))
      ++ le_bytes 4 (uint32 (ldp m (entry + 16) - code))
  end.

Fixpoint enc (m : mem) (base : Z) (f : fmt) (node : Z) : list byte :=
  match f with
  | FDone => []
  | FFld off sz cnt k => load m (node + off) (Z.to_nat (sz * cnt)) ++ enc m base k node
  | FPtr off k => enc_ptr base (ldp m (node + off)) ++ enc m base k node
  | FPtrD off d k => enc_ptr base (ldp m (node + off) - d) ++ enc m base k node
  | FSet _ _ _ k => enc m base k node
  | FBuf offp _ cnt k => load m (ldp m (node + offp)) (Z.to_nat cnt) ++ enc m base k node
  | FEntry off oc k => enc_entry m base (node + off) oc ++ enc m base k node
  | FLost off sz cnt k => load m (node + off) (Z.to_nat (sz * cnt)) ++ enc m base k node
  | FCase off n k => enc m base (k (load_Z m (node + off) n)) node
  end.

(** A field already handled, with the part of the object it occupies. *)
Inductive item : Type :=
| IFld (off sz cnt : Z)
| IPtr (off : Z)
| IPtrD (off d : Z)
| ISet (off : Z) (deps : list (Z * Z)) (g : Z → list Z → Z)
| IBuf (d cnt : Z)
| IEntry (off : Z) (oc : option Z).

Definition item_region (i : item) : region :=
  match i with
  | IFld off sz cnt => (off, sz * cnt)
  | IPtr off | IPtrD off _ | ISet off _ _ => (off, 8)
  | IBuf d cnt => (d, cnt)
  | IEntry off _ => (off, 24)
  end.

(** What a field of the restored object at [node'] owes the source object at
    [node]. *)
Definition item_rel (base : Z) (root : list Pool_Info) (m : mem) (node : Z)
    (m' : mem) (node' : Z) (i : item) : Prop :=
  match i with
  | IFld off sz cnt =>
      load m' (node' + off) (Z.to_nat (sz * cnt)) = load m (node + off) (Z.to_nat (sz * cnt))
  | IPtr off =>
      ∃ q, reloc base root (ldp m (node + off)) = Some q ∧ ldp m' (node' + off) = uint64 q
  | IPtrD off d =>
      ∃ q, reloc base root (ldp m (node + off) - d) = Some q
           ∧ ldp m' (node' + off) = uint64 (q + d)
  | ISet off deps g =>
      ldp m' (node' + off) = uint64 (g node' (ld_deps m' node' deps))
  | IBuf d cnt => load m' (node' + d) (Z.to_nat cnt) = load m (node + d) (Z.to_nat cnt)
  | IEntry off None => ∀ o, In o entry_ofs → ldp m' (node' + off + o) = NULL
  | IEntry off (Some code) =>
      ∃ code', reloc_obj base root code = Some code'
        ∧ ∀ o, In o entry_ofs →
            ldp m' (node' + off + o) = uint64 (uint32 (ldp m (node + off + o) - code) + code')
  end.

(** The fields of an object under a format, tags read from the source. *)
Fixpoint items (m : mem) (node : Z) (f : fmt) : list item :=
  match f with
  | FDone => []
  | FFld off sz cnt k => IFld off sz cnt :: items m node k
  | FPtr off k => IPtr off :: items m node k
  | FPtrD off d k => IPtrD off d :: items m node k
  | FSet off deps g k => ISet off deps g :: items m node k
  | FBuf _ d cnt k => IBuf d cnt :: items m node k
  | FEntry off oc k => IEntry off oc :: items m node k
  | FLost _ _ _ k => items m node k
  | FCase off n k => items m node (k (load_Z m (node + off) n))
  end.

(** The restored object is the source object, relocated. *)
Definition obj_rel (base : Z) (root : list Pool_Info) (m : mem) (node : Z)
    (m' : mem) (node' : Z) (f : fmt) : Prop :=
  Forall (item_rel base root m node m' node') (items m node f).

(** Fields do not overlap; a tag, a computed field's inputs and a buffer's
    pointer come before what uses them. *)
Definition fresh_in (r : region) (done : list item) : Prop :=
  0 <= r.2 ∧ Forall (fun i => disjoint_region r (item_region i)) done.

Fixpoint wf_fmt (m : mem) (node : Z) (done : list item) (f : fmt) : Prop :=
  match f with
  | FDone => True
  | FFld off sz cnt k =>
      0 <= sz ∧ 0 <= cnt ∧ fresh_in (off, sz * cnt) done
      ∧ wf_fmt m node (IFld off sz cnt :: done) k
  | FPtr off k => fresh_in (off, 8) done ∧ wf_fmt m node (IPtr off :: done) k
  | FPtrD off d k => fresh_in (off, 8) done ∧ wf_fmt m node (IPtrD off d :: done) k
  | FSet off deps g k =>
      fresh_in (off, 8) done
      ∧ Forall (fun d => 0 <= d.2 ∧ disjoint_region (off, 8) d
                         ∧ ∃ i, In i done ∧ item_region i = d) deps
      ∧ wf_fmt m node (ISet off deps g :: done) k
  | FBuf offp d cnt k =>
      0 <= cnt ∧ fresh_in (d, cnt) done
      ∧ In (ISet offp [] (fun node _ => node + d)) done
      ∧ wf_fmt m node (IBuf d cnt :: done) k
  | FEntry off oc k => fresh_in (off, 24) done ∧ wf_fmt m node (IEntry off oc :: done) k
  | FLost _ _ _ _ => False
  | FCase off n k => 0 <= n ∧ In (IFld off n 1) done ∧ wf_fmt m node done (k (load_Z m (node + off) n))
  end.

(** What the source object must satisfy: its pointers are null or point to
    objects the restoring table knows, a buffer pointer points behind the
    object. *)
Fixpoint src_ok (base : Z) (root : list Pool_Info) (m : mem) (node : Z) (f : fmt) : Prop :=
  match f with
  | FDone => True
  | FFld _ _ _ k | FSet _ _ _ k | FLost _ _ _ k => src_ok base root m node k
  | FEntry _ None k => src_ok base root m node k
  | FEntry _ (Some code) k => is_Some (reloc_obj base root code) ∧ src_ok base root m node k
  | FPtr off k => is_Some (reloc base root (ldp m (node + off))) ∧ src_ok base root m node k
  | FPtrD off d k =>
      is_Some (reloc base root (ldp m (node + off) - d)) ∧ src_ok base root m node k
  | FBuf offp d _ k => ldp m (node + offp) = node + d ∧ src_ok base root m node k
  | FCase off n k => src_ok base root m node (k (load_Z m (node + off) n))
  end.

(** A buffer of the restored object lies in the address space. *)
Definition dst_ok (node' : Z) (its : list item) : Prop :=
  Forall (fun i => match i with IBuf d _ => 0 <= node' + d < 2 ^ 64 | _ => True end) its.

(** * Dumping writes the bytes of the record *)

Lemma set_fp_id w f : w_fp w = f → set_fp f w = w.
Proof. intros <-. by destruct w. Qed.

Lemma fwrite_int_fp w out v :
  w_fp w = FWrite out → fwrite_int FP v w = Ok tt (set_fp (FWrite (out ++ le_bytes 4 v)) w).
Proof. apply fwrite_bytes_fp. Qed.

Lemma dump_entry_fp w out entry oc :
  w_fp w = FWrite out →
  (let* s := ld 8 entry in
   let* e := ld 8 (entry + 8) in
   let* d := ld 8 (entry + 16) in
   match oc with
   | None => DUMP_PTR NULL
   | Some code =>
       DUMP_PTR code ;;;
       fwrite_int FP (uint32 (s - code)) ;;;
       fwrite_int FP (uint32 (e - code)) ;;;
       fwrite_int FP (uint32 (d - code))
   end) w
  = Ok tt (set_fp (FWrite (out ++ enc_entry (wmem w) (dump_base w) entry oc)) w).
Proof.
  intros H. unfold mbind at 1 2 3, ld, gets. destruct oc as [code|]; simpl enc_entry.
  - erewrite mbind_ok by (by apply DUMP_PTR_fp).
    do 2 erewrite mbind_ok by (by apply fwrite_int_fp).
    erewrite fwrite_int_fp by done. simpl. rewrite <- !app_assoc, Z.add_0_r. done.
  - by apply DUMP_PTR_fp.
Qed.

Lemma dump_fmt_enc f : ∀ done node w out,
  w_fp w = FWrite out → wf_fmt (wmem w) node done f →
  dump_fmt f node w
  = Ok tt (set_fp (FWrite (out ++ enc (wmem w) (dump_base w) f node)) w).
Proof.
  induction f as [|off sz cnt k IH|off k IH|off d k IH|off deps g k IH|offp d cnt k IH
                 |off oc k IH|off sz cnt k IH|off n k IH];
    intros done node w out Hf Hwf; simpl in *.
  - rewrite app_nil_r, set_fp_id; done.
  - destruct Hwf as (?&?&_&Hwf). erewrite mbind_ok by (by apply fwrite_fp).
    erewrite IH; [|done|exact Hwf]. simpl. by rewrite <- app_assoc.
  - destruct Hwf as (_&Hwf). erewrite mbind_ok by (by apply DUMP_PTR_fp).
    erewrite IH; [|done|exact Hwf]. simpl. by rewrite <- app_assoc.
  - destruct Hwf as (_&Hwf). erewrite mbind_ok by (by apply DUMP_PTR_fp).
    erewrite IH; [|done|exact Hwf]. simpl. by rewrite <- app_assoc.
  - destruct Hwf as (_&_&Hwf). eauto.
  - destruct Hwf as (?&_&_&Hwf). erewrite mbind_ok by (by apply fwrite_fp).
    erewrite IH; [|done|exact Hwf]. rewrite Z.mul_1_l. simpl. by rewrite <- app_assoc.
  - destruct Hwf as (_&Hwf). erewrite mbind_ok by (by apply dump_entry_fp).
    erewrite IH; [|done|exact Hwf]. simpl. by rewrite <- app_assoc.
  - done.
  - destruct Hwf as (_&_&Hwf). eapply IH; eauto.
Qed.

(** * Restoring *)

Definition shift (node : Z) (r : region) : region := (node + r.1, r.2).

Definition done_ok (done : list item) : Prop :=
  ∀ i, In i done → 0 <= (item_region i).2 ∧
    match i with
    | ISet _ deps _ =>
        Forall (fun d : region => 0 <= d.2 ∧ ∃ j, In j done ∧ item_region j = d) deps
    | _ => True
    end.

Lemma done_ok_nil : done_ok [].
Proof. by intros i []. Qed.

Lemma done_ok_cons i done :
  done_ok done → 0 <= (item_region i).2 →
  match i with
  | ISet _ deps _ =>
      Forall (fun d : region => 0 <= d.2 ∧ ∃ j, In j done ∧ item_region j = d) deps
  | _ => True
  end → done_ok (i :: done).
Proof.
  intros Hd Hr Hi j [<-|Hj].
  - split; [done|]. destruct i; auto. eapply Forall_impl; [exact Hi|].
    intros d (?&j&?&?). split; [done|]. exists j. simpl; auto.
  - destruct (Hd j Hj) as [? Hj2]. split; [done|]. destruct j; auto.
    eapply Forall_impl; [exact Hj2|]. intros d (?&l&?&?). split; [done|]. exists l; simpl; auto.
Qed.

Lemma load_apart node' rs m1 m2 off n :
  unchanged_outside rs m1 m2 →
  (∀ r, In r rs → disjoint_region r (shift node' (off, Z.of_nat n))) →
  load m2 (node' + off) n = load m1 (node' + off) n.
Proof. intros Hu Hd. by eapply unchanged_load. Qed.

Lemma load_Z_apart node' rs m1 m2 d :
  unchanged_outside rs m1 m2 → 0 <= d.2 →
  (∀ r, In r rs → disjoint_region r (shift node' d)) →
  load_Z m2 (node' + d.1) d.2 = load_Z m1 (node' + d.1) d.2.
Proof.
  intros Hu H0 Hd. unfold load_Z. f_equal. eapply load_apart; [exact Hu|].
  rewrite Z2Nat.id by done. by destruct d.
Qed.

Lemma disjoint_shift node' r s :
  disjoint_region r s → disjoint_region (shift node' r) (shift node' s).
Proof. unfold disjoint_region, shift. simpl. lia. Qed.

Lemma load_Z_shift_unchanged node' r m1 m2 d :
  unchanged_outside [shift node' r] m1 m2 → 0 <= d.2 →
  disjoint_region r d → load_Z m2 (node' + d.1) d.2 = load_Z m1 (node' + d.1) d.2.
Proof.
  intros Hu H0 Hd. eapply load_Z_apart; [exact Hu|done|].
  intros ? [<-|[]]. by apply disjoint_shift.
Qed.

(** Writes apart from the fields already restored keep them. *)
Lemma items_preserved base root m node node' done rs m1 m2 :
  done_ok done →
  (∀ i r, In i done → In r rs → disjoint_region r (shift node' (item_region i))) →
  unchanged_outside rs m1 m2 →
  Forall (item_rel base root m node m1 node') done →
  Forall (item_rel base root m node m2 node') done.
Proof.
  intros Hok Hap Hu HF. rewrite Forall_forall in HF |- *.
  setoid_rewrite list_elem_of_In in HF.
  intros i Hi%list_elem_of_In. specialize (HF i Hi).
  destruct (Hok i Hi) as [Hlen Hdeps]. specialize (Hap i) as Hdi.
  assert (∀ o, item_region i = (o, 8) → ldp m2 (node' + o) = ldp m1 (node' + o)) as H8.
  { intros o E. apply (load_Z_apart _ rs _ _ (o, 8)); [done|simpl; lia|].
    rewrite <- E. auto. }
  destruct i as [off sz cnt|off|off d|off deps g|d cnt|off oc]; simpl in *.
  - rewrite <- HF. eapply load_apart; [exact Hu|]. rewrite Z2Nat.id by done. auto.
  - by rewrite H8.
  - by rewrite H8.
  - rewrite H8 by done. rewrite HF. do 2 f_equal. unfold ld_deps. apply map_ext_in.
    intros d Hd. symmetry. rewrite Forall_forall in Hdeps.
    destruct (Hdeps d) as (?&j&Hj&<-); [by apply list_elem_of_In|].
    eapply load_Z_apart; eauto.
  - rewrite <- HF. eapply load_apart; [exact Hu|]. rewrite Z2Nat.id by done. auto.
  - assert (∀ o, In o entry_ofs → ldp m2 (node' + off + o) = ldp m1 (node' + off + o)) as Ho.
    { intros o Ho. rewrite <- Z.add_assoc.
      apply (load_Z_apart _ rs _ _ (off + o, 8)); [done|simpl; lia|]. intros r Hr.
      specialize (Hdi r Hi Hr). unfold disjoint_region, shift in *. simpl in *. lia. }
    destruct oc as [code|].
    + destruct HF as (code'&?&HF). exists code'. split; [done|]. intros o Hin. rewrite Ho; auto.
    + intros o Hin. rewrite Ho; auto.
Qed.

Lemma item_rel_preserved base root m node node' done r m1 m2 :
  done_ok done → fresh_in r done →
  unchanged_outside [shift node' r] m1 m2 →
  Forall (item_rel base root m node m1 node') done →
  Forall (item_rel base root m node m2 node') done.
Proof.
  intros Hok [_ Hfr]. apply items_preserved; [done|].
  intros i ? Hi [<-|[]]. rewrite Forall_forall in Hfr.
  apply disjoint_shift, Hfr, list_elem_of_In, Hi.
Qed.

Lemma store_shift node' m r bs :
  r.2 = Z.of_nat (length bs) → unchanged_outside [shift node' r] m (store m (node' + r.1) bs).
Proof. intros E. unfold shift. rewrite E. apply unchanged_store. Qed.

Lemma store_Z_shift node' m off v :
  unchanged_outside [shift node' (off, 8)] m (store_Z m (node' + off) 8 v).
Proof. apply (store_shift node' m (off, 8)). by rewrite length_le_bytes. Qed.

Lemma load_store_ptr m a v : ldp (store_Z m a 8 v) a = uint64 v.
Proof. unfold ldp. rewrite load_store_Z_eq by lia. done. Qed.

(** The three words of a block address entry, and what [restore_cache_entry]
    makes of the bytes of one. *)
Definition store3 (m : mem) (a v1 v2 v3 : Z) : mem :=
  store_Z (store_Z (store_Z m (a + 0) 8 v1) (a + 8) 8 v2) (a + 16) 8 v3.

Lemma store3_unchanged node' m off v1 v2 v3 :
  unchanged_outside [shift node' (off, 24)] m (store3 m (node' + off) v1 v2 v3).
Proof.
  intros x Hx. specialize (Hx _ (or_introl eq_refl)). unfold in_region, shift in Hx. simpl in Hx.
  unfold store3, store_Z. rewrite !store_out by (rewrite length_le_bytes; lia). done.
Qed.

Lemma store3_load m a v1 v2 v3 :
  ldp (store3 m a v1 v2 v3) (a + 0) = uint64 v1
  ∧ ldp (store3 m a v1 v2 v3) (a + 8) = uint64 v2
  ∧ ldp (store3 m a v1 v2 v3) (a + 16) = uint64 v3.
Proof.
  unfold store3, ldp. split_and!.
  - rewrite 2!load_store_Z_ne by lia. by rewrite load_store_Z_eq by lia.
  - rewrite load_store_Z_ne by lia. by rewrite load_store_Z_eq by lia.
  - by rewrite load_store_Z_eq by lia.
Qed.

Definition entry_mem (m : mem) (base : Z) (entry : Z) (oc : option Z) (code' : Z)
    (m' : mem) (entry' : Z) : mem :=
  let v o := match oc with
             | Some code => uint32 (ldp m (entry + o) - code) + code'
             | None => NULL
             end in
  store3 m' entry' (v 0) (v 8) (v 16).

Lemma entry_mem_load m base entry oc code' m' entry' o :
  In o entry_ofs →
  ldp (entry_mem m base entry oc code' m' entry') (entry' + o)
  = uint64 (match oc with
            | Some code => uint32 (ldp m (entry + o) - code) + code'
            | None => NULL
            end).
Proof.
  intros Ho. unfold entry_mem. destruct (store3_load m' entry'
    (match oc with Some code => uint32 (ldp m (entry + 0) - code) + code' | None => NULL end)
    (match oc with Some code => uint32 (ldp m (entry + 8) - code) + code' | None => NULL end)
    (match oc with Some code => uint32 (ldp m (entry + 16) - code) + code' | None => NULL end))
    as (E0&E8&E16).
  simpl in Ho. by destruct Ho as [<-|[<-|[<-|[]]]].
Qed.

Lemma restore_entry_app m base entry oc code' w rest entry' :
  w_fp w = FRead (enc_entry m base entry oc ++ rest) →
  match oc with Some code => reloc_obj base (root_info w) code = Some code' | None => True end →
  restore_cache_entry entry' w
  = Ok tt (set_mem (entry_mem m base entry oc code' (wmem w) entry') (set_fp (FRead rest) w)).
Proof.
  intros Hf Hr. unfold restore_cache_entry. unfold enc_entry in Hf. destruct oc as [code|].
  - unfold reloc_obj in Hr.
    destruct (code =? NULL) eqn:E0; [done|]. destruct (int32 (code - base) =? -1) eqn:E1; [done|].
    simpl in Hr. unfold enc_ptr in Hf. rewrite E0, <- !app_assoc in Hf.
    erewrite mbind_ok by (by apply fread_int_app). rewrite E1.
    unfold mbind at 1, get_info. rewrite E1. simpl root_info.
    destruct (find_info _ (root_info w)) as [i|]; [|done]. simpl in Hr. simplify_eq.
    do 5 (erewrite mbind_ok by (first [by apply fread_uint_app | reflexivity])).
    reflexivity.
  - change (enc_ptr base NULL) with (le_bytes 4 (-1)) in Hf.
    erewrite mbind_ok by (by apply fread_int_app). reflexivity.
Qed.

(** The step every case of the round trip makes: one write, the rest of the
    format, and the composition of what they leave unchanged. *)
Lemma restore_step base root m node node' done i r its m1 m2 m3 :
  done_ok done → fresh_in r done →
  unchanged_outside [shift node' r] m1 m2 →
  Forall (item_rel base root m node m1 node') done →
  item_rel base root m node m2 node' i → item_region i = r →
  (Forall (item_rel base root m node m2 node') (i :: done) →
   Forall (item_rel base root m node m3 node') (its ++ i :: done)
   ∧ unchanged_outside (map (shift node' ∘ item_region) its) m2 m3) →
  Forall (item_rel base root m node m3 node') (i :: its ++ done)
  ∧ unchanged_outside (map (shift node' ∘ item_region) (i :: its)) m1 m3.
Proof.
  intros Hok Hfr Hu HF Hi <- Hk.
  destruct Hk as [HF3 Hu3].
  { constructor; [done|]. eapply item_rel_preserved; eauto. }
  split.
  - rewrite Forall_app in HF3. destruct HF3 as [HFi HFd]. inversion HFd; subst.
    constructor; [done|]. by apply Forall_app.
  - change (map (shift node' ∘ item_region) (i :: its))
      with ([shift node' (item_region i)] ++ map (shift node' ∘ item_region) its).
    eapply unchanged_trans; eauto.
Qed.

Section Restore_fmt.
Context (base : Z) (m : mem) (node node' : Z).

(** The conclusion of the round trip for the rest [f] of a record. *)
Definition restores (f : fmt) (done : list item) (w : world) (rest : list byte) : Prop :=
  ∃ m', restore_fmt f node' w = Ok tt (set_mem m' (set_fp (FRead rest) w))
    ∧ Forall (item_rel base (root_info w) m node m' node') (items m node f ++ done)
    ∧ unchanged_outside (map (shift node' ∘ item_region) (items m node f)) (wmem w) m'.

Lemma restores_write i r f k done w f1 m1 rest :
  restore_fmt f node' w = restore_fmt k node' (set_mem m1 (set_fp f1 w)) →
  items m node f = i :: items m node k →
  done_ok done → fresh_in r done →
  unchanged_outside [shift node' r] (wmem w) m1 →
  Forall (item_rel base (root_info w) m node (wmem w) node') done →
  item_rel base (root_info w) m node m1 node' i → item_region i = r →
  (Forall (item_rel base (root_info w) m node m1 node') (i :: done) →
   restores k (i :: done) (set_mem m1 (set_fp f1 w)) rest) →
  restores f done w rest.
Proof.
  intros Hrun Hits Hok Hfr Hu HF Hi Hr Hk.
  assert (Forall (item_rel base (root_info w) m node m1 node') (i :: done)) as HF1.
  { constructor; [done|]. eapply item_rel_preserved; eauto. }
  destruct (Hk HF1) as (m'&Hrun'&HF'&Hu'). exists m'. rewrite Hits, Hrun.
  split; [exact Hrun'|].
  apply (restore_step base (root_info w) m node node' done i r _ (wmem w) m1 m'); auto.
Qed.

Lemma restore_fmt_ok f : ∀ done w rest,
  w_fp w = FRead (enc m base f node ++ rest) →
  wf_fmt m node done f → src_ok base (root_info w) m node f →
  dst_ok node' (items m node f) → done_ok done →
  Forall (item_rel base (root_info w) m node (wmem w) node') done →
  restores f done w rest.
Proof.
  induction f as [|off sz cnt k IH|off k IH|off d k IH|off deps g k IH|offp d cnt k IH
               |off oc k IH|off sz cnt k IH|off n k IH];
    intros done w rest Hf Hwf Hsrc Hdst Hok HF; simpl in Hwf, Hsrc, Hf.
  - exists (wmem w). simpl. rewrite (set_fp_id w) by done. split; [by destruct w|]. auto with mig.
  - destruct Hwf as (?&?&Hfr&Hwf). rewrite <- app_assoc in Hf.
    apply (restores_write (IFld off sz cnt) (off, sz * cnt) _ k done w (FRead (enc m base k node ++ rest))
             (store (wmem w) (node' + off) (load m (node + off) (Z.to_nat (sz * cnt))))); try done.
    + simpl. erewrite mbind_ok; [reflexivity|].
      apply fread_app; [exact Hf|]. rewrite length_load. lia.
    + apply (store_shift node' _ (off, sz * cnt)). simpl. rewrite length_load. lia.
    + simpl. apply load_store_eq. by rewrite length_load.
    + intros HF1. apply IH; try done. { by inversion Hdst. }
      apply done_ok_cons; simpl; auto. lia.
  - destruct Hwf as (Hfr&Hwf). destruct Hsrc as ([q Hq]&Hsrc). rewrite <- app_assoc in Hf.
    apply (restores_write (IPtr off) (off, 8) _ k done w (FRead (enc m base k node ++ rest))
             (store_Z (wmem w) (node' + off) 8 q)); try done.
    + simpl. erewrite mbind_ok; [reflexivity|]. unfold RESTORE_PTR_AT.
      erewrite mbind_ok by (eapply RESTORE_PTR_app; [exact Hf|exact Hq]). done.
    + apply store_Z_shift.
    + exists q. split; [done|]. apply load_store_ptr.
    + intros HF1. apply IH; try done. { by inversion Hdst. }
      apply done_ok_cons; simpl; auto. lia.
  - destruct Hwf as (Hfr&Hwf). destruct Hsrc as ([q Hq]&Hsrc). rewrite <- app_assoc in Hf.
    apply (restores_write (IPtrD off d) (off, 8) _ k done w (FRead (enc m base k node ++ rest))
             (store_Z (wmem w) (node' + off) 8 (q + d))); try done.
    + simpl. erewrite mbind_ok; [reflexivity|].
      erewrite mbind_ok by (eapply RESTORE_PTR_app; [exact Hf|exact Hq]). done.
    + apply store_Z_shift.
    + exists q. split; [done|]. apply load_store_ptr.
    + intros HF1. apply IH; try done. { by inversion Hdst. }
      apply done_ok_cons; simpl; auto. lia.
  - destruct Hwf as (Hfr&Hdeps&Hwf).
    assert (Hld : ∀ v, ld_deps (store_Z (wmem w) (node' + off) 8 v) node' deps
                       = ld_deps (wmem w) node' deps).
    { intros v. apply map_ext_in. intros d Hd. rewrite Forall_forall in Hdeps.
      destruct (Hdeps d) as (?&?&?); [by apply list_elem_of_In|].
      eapply load_Z_shift_unchanged; [apply store_Z_shift|done|done]. }
    apply (restores_write (ISet off deps g) (off, 8) _ k done w (w_fp w)
             (store_Z (wmem w) (node' + off) 8 (g node' (ld_deps (wmem w) node' deps)))); try done.
    + apply store_Z_shift.
    + simpl. rewrite load_store_ptr, Hld. done.
    + intros HF1. apply IH; try done. { by inversion Hdst. }
      apply done_ok_cons; simpl; auto; [lia|].
      eapply Forall_impl; [exact Hdeps|]. by intros ? (?&?&?).
  - destruct Hwf as (?&Hfr&Hin&Hwf). destruct Hsrc as (Hp&Hsrc). rewrite <- app_assoc in Hf.
    inversion Hdst as [|? ? Hd Hdst']; subst. simpl in Hd.
    assert (ldp (wmem w) (node' + offp) = node' + d) as Hp'.
    { rewrite Forall_forall in HF. specialize (HF _ (proj2 (list_elem_of_In _ _) Hin)).
      simpl in HF. rewrite HF. apply wrap_small. lia. }
    rewrite Hp in Hf.
    apply (restores_write (IBuf d cnt) (d, cnt) _ k done w (FRead (enc m base k node ++ rest))
             (store (wmem w) (node' + d) (load m (node + d) (Z.to_nat cnt)))); try done.
    + simpl. erewrite mbind_ok; [reflexivity|].
      unfold mbind, ld, gets. fold (ldp (wmem w) (node' + offp)).
      rewrite Hp'. apply fread_app; [exact Hf|]. rewrite length_load. lia.
    + apply (store_shift node' _ (d, cnt)). simpl. rewrite length_load. lia.
    + simpl. apply load_store_eq. by rewrite length_load.
    + intros HF1. apply IH; try done. apply done_ok_cons; simpl; auto.
  - destruct Hwf as (Hfr&Hwf). rewrite <- app_assoc in Hf.
    assert (∃ code', match oc with
                     | Some code => reloc_obj base (root_info w) code = Some code'
                     | None => True end) as [code' Hc].
    { destruct oc as [code|]; [|by exists 0]. by destruct Hsrc as [[c ?] _]; exists c. }
    assert (src_ok base (root_info w) m node k) as Hsrc' by (by destruct oc; [apply Hsrc|]).
    apply (restores_write (IEntry off oc) (off, 24) _ k done w (FRead (enc m base k node ++ rest))
             (entry_mem m base (node + off) oc code' (wmem w) (node' + off))); try done.
    + simpl. erewrite mbind_ok; [reflexivity|]. by apply restore_entry_app.
    + apply store3_unchanged.
    + simpl. destruct oc as [code|]; [exists code'; split; [done|]|];
        intros o Ho; by rewrite entry_mem_load.
    + intros HF1. apply IH; try done. { by inversion Hdst. }
      apply done_ok_cons; simpl; auto. lia.
  - done.
  - destruct Hwf as (?&Hin&Hwf). simpl in Hdst.
    assert (load_Z (wmem w) (node' + off) n = load_Z m (node + off) n) as Hv.
    { rewrite Forall_forall in HF. specialize (HF _ (proj2 (list_elem_of_In _ _) Hin)).
      simpl in HF. rewrite Z.mul_1_r in HF. unfold load_Z. by rewrite HF. }
    destruct (IH _ done w rest Hf Hwf Hsrc Hdst Hok HF) as (m'&Hrun&HF'&Hu').
    exists m'. simpl. unfold mbind, ld, gets. by rewrite Hv.
Qed.
End Restore_fmt.

(** Round trip of one record body: dumping the object at [node] of a world [w]
    appends bytes from which another world [w'] rebuilds it at [node']. *)
Lemma fmt_roundtrip f node node' w out w' rest :
  w_fp w = FWrite out →
  wf_fmt (wmem w) node [] f →
  src_ok (dump_base w) (root_info w') (wmem w) node f →
  dst_ok node' (items (wmem w) node f) →
  ∃ bs, dump_fmt f node w = Ok tt (set_fp (FWrite (out ++ bs)) w)
    ∧ (w_fp w' = FRead (bs ++ rest) →
       ∃ m', restore_fmt f node' w' = Ok tt (set_mem m' (set_fp (FRead rest) w'))
         ∧ obj_rel (dump_base w) (root_info w') (wmem w) node m' node' f
         ∧ unchanged_outside (map (shift node' ∘ item_region) (items (wmem w) node f))
             (wmem w') m').
Proof.
  intros Hf Hwf Hsrc Hdst. eexists. split; [by eapply dump_fmt_enc|]. intros Hf'.
  destruct (restore_fmt_ok (dump_base w) (wmem w) node node' f [] w' rest)
    as (m'&?&HF&?); auto using done_ok_nil.
  exists m'. rewrite app_nil_r in HF. auto.
Qed.

(** A restored object survives writes apart from it. *)
Lemma done_ok_perm l l' : (∀ i, In i l ↔ In i l') → done_ok l → done_ok l'.
Proof.
  intros E H i Hi. destruct (H i (proj2 (E i) Hi)) as [? Hd]. split; [done|].
  destruct i; auto. eapply Forall_impl; [exact Hd|].
  intros d (?&j&Hj&?). split; [done|]. exists j. split; [by apply E|done].
Qed.

Lemma wf_done_ok m node f : ∀ done,
  wf_fmt m node done f → done_ok done → done_ok (items m node f ++ done).
Proof.
  assert (∀ i its done, done_ok (its ++ i :: done) → done_ok ((i :: its) ++ done)) as Hsw.
  { intros i its done. apply done_ok_perm. intros j. rewrite !in_app_iff. simpl. tauto. }
  induction f as [|off sz cnt k IH|off k IH|off d k IH|off deps g k IH|offp d cnt k IH
                 |off oc k IH|off sz cnt k IH|off n k IH];
    intros dn Hwf Hok; simpl in Hwf; simpl.
  - done.
  - destruct Hwf as (?&?&?&?). apply Hsw, IH, done_ok_cons; simpl; auto. lia.
  - destruct Hwf as (?&?). apply Hsw, IH, done_ok_cons; simpl; auto. lia.
  - destruct Hwf as (?&?). apply Hsw, IH, done_ok_cons; simpl; auto. lia.
  - destruct Hwf as (?&Hd&?). apply Hsw, IH, done_ok_cons; simpl; auto; [lia|].
    eapply Forall_impl; [exact Hd|]. by intros ? (?&?&?).
  - destruct Hwf as (?&?&?&?). apply Hsw, IH, done_ok_cons; simpl; auto.
  - destruct Hwf as (?&?). apply Hsw, IH, done_ok_cons; simpl; auto. lia.
  - done.
  - by apply IH; [apply Hwf|].
Qed.

Lemma obj_rel_preserved base root m node node' f rs m1 m2 :
  wf_fmt m node [] f →
  (∀ i r, In i (items m node f) → In r rs → disjoint_region r (shift node' (item_region i))) →
  unchanged_outside rs m1 m2 →
  obj_rel base root m node m1 node' f → obj_rel base root m node m2 node' f.
Proof.
  intros Hwf. apply items_preserved. rewrite <- (app_nil_r (items m node f)).
  apply wf_done_ok; auto using done_ok_nil.
Qed.
