(* ===== verification/Codec.v ===== *)
(** The interface between the routines of one object kind and the loops over
    the object table: a kind has a codec when its dump routine writes the bytes
    of a format and its restore routine reads them back ([Codec]).  The generic
    lemmas here turn the two macros of the source (one object, or a chain of
    array elements) into the laws of the interface. *)
From stdpp Require Import base gmap list numbers strings.
From Stdlib Require Import Strings.Byte ZArith Lia.
From S2P Require Import Prelude CMemory WasmTypes PoolInfo Dump Restore Format.

(** * Records *)

(** What stands between the header and an object: nothing, the offset of each
    element of a chain, or the size once more. *)
Inductive prefix := PNone | PAbs | PSize.

Definition objs (pre : prefix) (i : Pool_Info) : list Pool_Elem :=
  match pre with PAbs => elems i | _ => [head i] end.

Definition header_bytes (t : Data_Type) (i : Pool_Elem) : list byte :=
  le_bytes 4 (type_code t) ++ le_bytes 4 (size i) ++ le_bytes 4 (p_abs i).

Definition prefix_bytes (pre : prefix) (e : Pool_Elem) : list byte :=
  match pre with
  | PNone => []
  | PAbs => le_bytes 4 (p_abs e)
  | PSize => le_bytes 4 (size e)
  end.

Definition obj_bytes (m : mem) (base : Z) (pre : prefix) (f : Pool_Elem → fmt) (e : Pool_Elem) :
    list byte :=
  prefix_bytes pre e ++ enc m base (f e) (p_raw e).

Definition body_bytes (m : mem) (base : Z) (pre : prefix) (f : Pool_Elem → fmt) (i : Pool_Info) :
    list byte :=
  concat (map (obj_bytes m base pre f) (objs pre i)).

(** A node of the restoring table stands for a node of the source table. *)
Definition match_elem (e e' : Pool_Elem) : Prop :=
  p_abs e' = p_abs e ∧ size e' = size e ∧ type e' = type e
  ∧ - 2 ^ 31 <= p_abs e < 2 ^ 31 ∧ - 2 ^ 31 <= size e < 2 ^ 31.

Definition match_info (i i' : Pool_Info) : Prop :=
  match_elem (head i) (head i') ∧ Forall2 match_elem (chain i) (chain i').

(** The regions an object occupies once restored. *)
Definition foot (m : mem) (f : Pool_Elem → fmt) (p : Pool_Elem * Pool_Elem) : list region :=
  map (shift (p_raw p.2) ∘ item_region) (items m (p_raw p.1) (f p.1)).

Definition apart (rs ss : list region) : Prop :=
  ∀ r s, In r rs → In s ss → disjoint_region r s.

(** What the round trip asks of a source object and the node that receives it. *)
Record pair_ok (base : Z) (root' : list Pool_Info) (m : mem) (f : Pool_Elem → fmt)
    (p : Pool_Elem * Pool_Elem) : Prop := {
  po_match : match_elem p.1 p.2;
  po_wf : wf_fmt m (p_raw p.1) [] (f p.1);
  po_src : src_ok base root' m (p_raw p.1) (f p.1);
  po_dst : dst_ok (p_raw p.2) (items m (p_raw p.1) (f p.1))
}.

Definition pair_rel (base : Z) (root' : list Pool_Info) (m : mem) (f : Pool_Elem → fmt)
    (m' : mem) (p : Pool_Elem * Pool_Elem) : Prop :=
  obj_rel base root' m (p_raw p.1) m' (p_raw p.2) (f p.1).

(** An update of the static variables of wasm_dump.c or wasm_restore.c. *)
Record static_update (g : Z → world → world) : Prop := {
  su_mem p w : wmem (g p w) = wmem w;
  su_base p w : dump_base (g p w) = dump_base w;
  su_module p w : wasm_module (g p w) = wasm_module w;
  su_root p w : root_info (g p w) = root_info w;
  su_frame p w : root_frame (g p w) = root_frame w;
  su_pool p w : pool_allocator (g p w) = pool_allocator w;
  su_fp p w : w_fp (g p w) = w_fp w;
  su_gp p w : w_gp (g p w) = w_gp w;
  su_set_fp p f w : g p (set_fp f w) = set_fp f (g p w);
  su_set p m f w : g p (set_mem m (set_fp f w)) = set_mem m (set_fp f (g p w))
}.

Definition no_update : Z → world → world := fun _ w => w.

Lemma static_no_update : static_update no_update.
Proof. done. Qed.
Lemma static_set_WASMExecEnv : static_update set_WASMExecEnv.
Proof. done. Qed.
Lemma static_set_r_module : static_update set_r_module.
Proof. done. Qed.
Lemma static_set_r_module_inst : static_update set_r_module_inst.
Proof. done. Qed.
Lemma static_set_r_exec_env : static_update set_r_exec_env.
Proof. done. Qed.
#[export] Hint Resolve static_no_update static_set_WASMExecEnv static_set_r_module
  static_set_r_module_inst static_set_r_exec_env : mig.

(** * The interface *)

Class Codec (t : Data_Type) := {
  c_pre : prefix;
  c_fmt : mem → Pool_Elem → fmt;
  (* what the source heap owes the dump routine beyond the format *)
  c_inv : mem → list Pool_Info → Z → Pool_Elem → Prop;
  c_deff : Z → world → world;
  c_reff : Z → world → world;
  c_dump : Pool_Info → C unit;
  c_restore : Pool_Info → C unit;
  c_dump_data : dump_data t = Some c_dump;
  c_restore_data : restore_data t = Some c_restore;
  c_deff_static : static_update c_deff;
  c_reff_static : static_update c_reff;
  c_dump_ok : ∀ w src out,
    w_fp w = FWrite out →
    Forall (fun e => c_inv (wmem w) (root_info w) (wasm_module w) e
                     ∧ wf_fmt (wmem w) (p_raw e) [] (c_fmt (wmem w) e)) (objs c_pre src) →
    c_dump src w
    = Ok tt (c_deff (p_raw src)
        (set_fp (FWrite (out ++ header_bytes t src
                         ++ body_bytes (wmem w) (dump_base w) c_pre (c_fmt (wmem w)) src)) w));
  c_restore_ok : ∀ m base src dst w rest,
    w_fp w = FRead (body_bytes m base c_pre (c_fmt m) src ++ rest) →
    match_info src dst →
    Forall (pair_ok base (root_info w) m (c_fmt m)) (zip (objs c_pre src) (objs c_pre dst)) →
    ForallOrdPairs (fun p q => apart (foot m (c_fmt m) p) (foot m (c_fmt m) q))
      (zip (objs c_pre src) (objs c_pre dst)) →
    ∃ m', c_restore dst w = Ok tt (c_reff (p_raw dst) (set_mem m' (set_fp (FRead rest) w)))
      ∧ Forall (pair_rel base (root_info w) m (c_fmt m) m') (zip (objs c_pre src) (objs c_pre dst))
      ∧ unchanged_outside (concat (map (foot m (c_fmt m)) (zip (objs c_pre src) (objs c_pre dst))))
          (wmem w) m'
}.

(** * Dumping *)

Lemma dump_header_fp w out t i :
  w_fp w = FWrite out →
  dump_header FP t i w = Ok tt (set_fp (FWrite (out ++ header_bytes t i)) w).
Proof.
  intros H. unfold dump_header, header_bytes.
  do 2 erewrite mbind_ok by (by apply fwrite_int_fp).
  erewrite fwrite_int_fp by done. simpl w_fp. by rewrite <- !app_assoc.
Qed.

Section Dump_chain.
Context (t : Data_Type) (f : mem → Pool_Elem → fmt)
  (inv : mem → list Pool_Info → Z → Pool_Elem → Prop).

Definition elem_ok (w : world) (e : Pool_Elem) : Prop :=
  inv (wmem w) (root_info w) (wasm_module w) e ∧ wf_fmt (wmem w) (p_raw e) [] (f (wmem w) e).

(** What a body has to do on an object of its kind. *)
Definition body_ok (body : Pool_Elem → Z → C unit) : Prop := ∀ e w,
  inv (wmem w) (root_info w) (wasm_module w) e → (∃ out, w_fp w = FWrite out) →
  body e (p_raw e) w = dump_fmt (f (wmem w) e) (p_raw e) w.

Lemma body_ok_fp body e w out :
  body_ok body → elem_ok w e → w_fp w = FWrite out →
  body e (p_raw e) w
  = Ok tt (set_fp (FWrite (out ++ enc (wmem w) (dump_base w) (f (wmem w) e) (p_raw e))) w).
Proof. intros Hb [? ?] ?. rewrite Hb; eauto using dump_fmt_enc. Qed.

Lemma dump_chain_fp body es : ∀ w out,
  body_ok body → w_fp w = FWrite out → Forall (elem_ok w) es →
  mfor es (fun e => fwrite_int FP (p_abs e) ;;; body e (p_raw e)) w
  = Ok tt (set_fp (FWrite (out ++ concat (map (obj_bytes (wmem w) (dump_base w) PAbs (f (wmem w))) es))) w).
Proof.
  induction es as [|e es IH]; intros w out Hb Hf Hes; cbn [mfor map concat].
  - by rewrite app_nil_r, set_fp_id.
  - inversion Hes; subst. rewrite mbind_assoc. erewrite mbind_ok by (by apply fwrite_int_fp).
    erewrite mbind_ok by (by apply body_ok_fp).
    erewrite IH; [|done|reflexivity|done]. simpl.
    unfold obj_bytes at 2. simpl. by rewrite <- !app_assoc.
Qed.

Lemma dump_abs_ok body w src out :
  body_ok body → w_fp w = FWrite out → Forall (elem_ok w) (elems src) →
  HEADER_DUMP t src (fun e node => fwrite_int FP (p_abs e) ;;; body e node) w
  = Ok tt (set_fp (FWrite (out ++ header_bytes t src
             ++ body_bytes (wmem w) (dump_base w) PAbs (f (wmem w)) src)) w).
Proof.
  intros Hb Hf Hes. unfold HEADER_DUMP.
  erewrite mbind_ok by (by apply dump_header_fp).
  erewrite dump_chain_fp; [|done|reflexivity|done]. simpl. by rewrite <- app_assoc.
Qed.

Lemma dump_buf_ok body w src out :
  body_ok body → w_fp w = FWrite out → Forall (elem_ok w) [head src] →
  HEADER_DUMP_BUF t src (fun node => body src node) w
  = Ok tt (set_fp (FWrite (out ++ header_bytes t src
             ++ body_bytes (wmem w) (dump_base w) PNone (f (wmem w)) src)) w).
Proof.
  intros Hb Hf Hes. inversion Hes; subst. unfold HEADER_DUMP_BUF.
  erewrite mbind_ok by (by apply dump_header_fp).
  erewrite body_ok_fp; [|done|done|reflexivity]. unfold body_bytes, obj_bytes. simpl.
  by rewrite app_nil_r, <- app_assoc.
Qed.

Lemma dump_size_ok body w src out :
  body_ok body → w_fp w = FWrite out → Forall (elem_ok w) [head src] →
  HEADER_DUMP_BUF t src (fun node => fwrite_int FP (size src) ;;; body src node) w
  = Ok tt (set_fp (FWrite (out ++ header_bytes t src
             ++ body_bytes (wmem w) (dump_base w) PSize (f (wmem w)) src)) w).
Proof.
  intros Hb Hf Hes. inversion Hes; subst. unfold HEADER_DUMP_BUF.
  erewrite mbind_ok by (by apply dump_header_fp).
  erewrite mbind_ok by (by apply fwrite_int_fp).
  erewrite body_ok_fp; [|done|done|reflexivity]. unfold body_bytes, obj_bytes. simpl.
  by rewrite app_nil_r, <- !app_assoc.
Qed.
End Dump_chain.

(** * Restoring *)

Section Restore_chain.
Context (base : Z) (m : mem) (f : Pool_Elem → fmt).

(** The body of a restore routine reads the format of the source object. *)
Definition rbody_ok (rbody : Pool_Elem → Z → C unit) : Prop := ∀ e e' w,
  size e' = size e → (∃ bs, w_fp w = FRead bs) →
  rbody e' (p_raw e') w = restore_fmt (f e) (p_raw e') w.

(** The outcome of restoring the objects [ps]. *)
Definition restored (w : world) (ps : list (Pool_Elem * Pool_Elem)) (m' : mem) : Prop :=
  Forall (pair_rel base (root_info w) m f m') ps
  ∧ unchanged_outside (concat (map (foot m f) ps)) (wmem w) m'.

Lemma restore_obj_ok rbody p w rest :
  rbody_ok rbody → pair_ok base (root_info w) m f p →
  w_fp w = FRead (enc m base (f p.1) (p_raw p.1) ++ rest) →
  ∃ m', rbody p.2 (p_raw p.2) w = Ok tt (set_mem m' (set_fp (FRead rest) w))
    ∧ restored w [p] m'.
Proof.
  intros Hb [(?&Hsz&?) Hwf Hsrc Hdst] Hf. rewrite (Hb p.1) by eauto.
  destruct (restore_fmt_ok base m (p_raw p.1) (p_raw p.2) (f p.1) [] w rest)
    as (m'&?&HF&Hu); auto using done_ok_nil.
  exists m'. split; [done|]. rewrite app_nil_r in HF. split; [by repeat constructor|].
  simpl. by rewrite app_nil_r.
Qed.

Lemma pair_rel_preserved root' p rs m1 m2 :
  pair_ok base root' m f p → apart (foot m f p) rs → unchanged_outside rs m1 m2 →
  pair_rel base root' m f m1 p → pair_rel base root' m f m2 p.
Proof.
  intros [? Hwf ? ?] Hap Hu. apply (obj_rel_preserved _ _ _ _ _ _ rs); [done| |done].
  intros i r Hi Hr. assert (∀ a b, disjoint_region a b → disjoint_region b a) as Hsym
    by (unfold disjoint_region; tauto).
  apply Hsym, Hap; [|done]. by apply (in_map (shift (p_raw p.2) ∘ item_region)).
Qed.

Lemma apart_concat rs pss :
  Forall (fun ps => apart rs ps) pss → apart rs (concat pss).
Proof.
  induction 1 as [|ps pss H ? IH]; intros r s Hr Hs; simpl in Hs; [done|].
  apply in_app_iff in Hs as [?|?]; [by apply H|by apply IH].
Qed.

(** Objects restored one after the other. *)
Lemma restored_cons w p ps m1 m2 w1 :
  wmem w1 = m1 → root_info w1 = root_info w →
  pair_ok base (root_info w) m f p →
  Forall (fun q => apart (foot m f p) (foot m f q)) ps →
  restored w [p] m1 → restored w1 ps m2 → restored w (p :: ps) m2.
Proof.
  intros <- Er Hp Hap [H1 Hu1] [H2 Hu2]. rewrite Er in H2. simpl in Hu1.
  rewrite app_nil_r in Hu1. split.
  - constructor; [|done]. inversion H1; subst.
    eapply pair_rel_preserved; [done| |exact Hu2|done].
    apply apart_concat. by apply Forall_map.
  - simpl. by eapply unchanged_trans.
Qed.

Lemma check_p_abs_ok w e e' rest :
  match_elem e e' → w_fp w = FRead (le_bytes 4 (p_abs e) ++ rest) →
  check_p_abs e' w = Ok tt (set_fp (FRead rest) w).
Proof.
  intros (Ea&_&_&?&_) Hf. unfold check_p_abs.
  erewrite mbind_ok by (by apply fread_int_app).
  rewrite int32_small by lia. by rewrite Ea, Z.eqb_refl.
Qed.

Lemma restore_chain_ok rbody ps : ∀ w rest,
  rbody_ok rbody →
  w_fp w = FRead (concat (map (obj_bytes m base PAbs f) ps.*1) ++ rest) →
  Forall (pair_ok base (root_info w) m f) ps →
  ForallOrdPairs (fun p q => apart (foot m f p) (foot m f q)) ps →
  ∃ m', mfor ps.*2 (fun e => check_p_abs e ;;; rbody e (p_raw e)) w
        = Ok tt (set_mem m' (set_fp (FRead rest) w))
    ∧ restored w ps m'.
Proof.
  induction ps as [|p ps IH]; intros w rest Hb Hf Hok Hap; simpl.
  - exists (wmem w). simpl in Hf. rewrite (set_fp_id w) by done.
    split; [by destruct w|]. repeat constructor.
  - inversion Hok as [|? ? Hp Hps]; inversion Hap as [|? ? Hap1 Hap2]; subst.
    cbn [map concat fmap list_fmap] in Hf. unfold obj_bytes at 1 in Hf. simpl prefix_bytes in Hf.
    rewrite <- !app_assoc in Hf. rewrite mbind_assoc.
    set (tl := concat (map (obj_bytes m base PAbs f) ps.*1) ++ rest) in *.
    erewrite mbind_ok by (eapply check_p_abs_ok; [apply Hp|exact Hf]).
    edestruct (restore_obj_ok rbody p (set_fp (FRead (enc m base (f p.1) (p_raw p.1) ++ tl)) w) tl)
      as (m1&Hr1&H1); [done|exact Hp|reflexivity|].
    erewrite mbind_ok by exact Hr1.
    edestruct (IH (set_mem m1 (set_fp (FRead tl) w)) rest)
      as (m2&Hr2&H2); [done|reflexivity|exact Hps|done|].
    exists m2. split; [exact Hr2|].
    eapply restored_cons; [| |exact Hp|exact Hap1|exact H1|exact H2]; done.
Qed.

Lemma zip_fst_snd {A B} (l : list A) (k : list B) :
  length l = length k → (zip l k).*1 = l ∧ (zip l k).*2 = k.
Proof. intros E. by rewrite fst_zip, snd_zip by lia. Qed.

Lemma match_info_length pre i i' :
  match_info i i' → length (objs pre i) = length (objs pre i').
Proof. intros [_ H%Forall2_length]. destruct pre; simpl; auto. Qed.

Lemma restore_abs_ok rbody src dst w rest :
  rbody_ok rbody →
  w_fp w = FRead (body_bytes m base PAbs f src ++ rest) →
  match_info src dst →
  Forall (pair_ok base (root_info w) m f) (zip (objs PAbs src) (objs PAbs dst)) →
  ForallOrdPairs (fun p q => apart (foot m f p) (foot m f q))
    (zip (objs PAbs src) (objs PAbs dst)) →
  ∃ m', HEADER_RESTORE dst (fun e node => check_p_abs e ;;; rbody e node) w
        = Ok tt (set_mem m' (set_fp (FRead rest) w))
    ∧ restored w (zip (objs PAbs src) (objs PAbs dst)) m'.
Proof.
  intros Hb Hf Hm Hok Hap.
  destruct (zip_fst_snd _ _ (match_info_length PAbs _ _ Hm)) as [E1 E2].
  destruct (restore_chain_ok rbody (zip (objs PAbs src) (objs PAbs dst)) w rest) as (m'&Hr&?);
    try done. { by rewrite E1. }
  exists m'. split; [|done]. rewrite E2 in Hr. exact Hr.
Qed.

Lemma restore_buf_ok rbody src dst w rest :
  rbody_ok rbody →
  w_fp w = FRead (body_bytes m base PNone f src ++ rest) →
  Forall (pair_ok base (root_info w) m f) (zip (objs PNone src) (objs PNone dst)) →
  ∃ m', HEADER_RESTORE_BUF dst (fun node => rbody dst node) w
        = Ok tt (set_mem m' (set_fp (FRead rest) w))
    ∧ restored w (zip (objs PNone src) (objs PNone dst)) m'.
Proof.
  intros Hb Hf Hok. inversion Hok; subst.
  apply (restore_obj_ok rbody (head src, head dst)); try done.
  unfold body_bytes, obj_bytes in Hf. simpl in Hf. by rewrite app_nil_r in Hf.
Qed.

Lemma restore_size_ok rbody src dst w rest :
  rbody_ok rbody →
  w_fp w = FRead (body_bytes m base PSize f src ++ rest) →
  Forall (pair_ok base (root_info w) m f) (zip (objs PSize src) (objs PSize dst)) →
  ∃ m', HEADER_RESTORE_BUF dst (fun node =>
          let* n := fread_int FP in
          if negb (size dst =? n) then mexit 1 else rbody dst node) w
        = Ok tt (set_mem m' (set_fp (FRead rest) w))
    ∧ restored w (zip (objs PSize src) (objs PSize dst)) m'.
Proof.
  intros Hb Hf Hok. inversion Hok as [|? ? Hp]; subst.
  unfold body_bytes, obj_bytes in Hf. cbn [objs map concat prefix_bytes] in Hf.
  rewrite app_nil_r, <- app_assoc in Hf. unfold HEADER_RESTORE_BUF.
  erewrite mbind_ok by (by apply fread_int_app).
  pose proof (po_match _ _ _ _ _ Hp) as (_&Es&_&_&Hs).
  cbn [fst snd] in Es, Hs. rewrite int32_small by exact Hs. rewrite Es, Z.eqb_refl. simpl negb.
  by apply (restore_obj_ok rbody (head src, head dst)
              (set_fp (FRead (enc m base (f src) (p_raw src) ++ rest)) w)).
Qed.
End Restore_chain.

(** * Building codecs *)

Definition no_inv : mem → list Pool_Info → Z → Pool_Elem → Prop := fun _ _ _ _ => True.

Section Build.
Context {t : Data_Type} (d r : Pool_Info → C unit) (reff : Z → world → world)
  (f : mem → Pool_Elem → fmt) (inv : mem → list Pool_Info → Z → Pool_Elem → Prop).
Context (Hd : dump_data t = Some d) (Hr : restore_data t = Some r).
Context (Hre : static_update reff).

(** What a routine's lemma says of a restore that first sets a static. *)
Lemma restored_reff base m m0 w rest ps (c : C unit) p :
  (∃ m', c (reff p w) = Ok tt (set_mem m' (set_fp (FRead rest) (reff p w)))
    ∧ restored base m m0 (reff p w) ps m') →
  ∃ m', c (reff p w) = Ok tt (reff p (set_mem m' (set_fp (FRead rest) w)))
    ∧ Forall (pair_rel base (root_info w) m m0 m') ps
    ∧ unchanged_outside (concat (map (foot m m0) ps)) (wmem w) m'.
Proof.
  intros (m'&Hrun&Hps&Hu). exists m'. rewrite Hrun, (su_set _ Hre).
  rewrite (su_root _ Hre) in Hps. rewrite (su_mem _ Hre) in Hu. auto.
Qed.

(** A kind whose elements form a chain. *)
Definition abs_codec (body rbody : Pool_Elem → Z → C unit)
    (Ed : ∀ src w, d src w
            = HEADER_DUMP t src (fun e node => fwrite_int FP (p_abs e) ;;; body e node) w)
    (Er : ∀ dst w, r dst w
            = HEADER_RESTORE dst (fun e node => check_p_abs e ;;; rbody e node)
                (reff (p_raw dst) w))
    (Hb : body_ok f inv body) (Hrb : ∀ m, rbody_ok (f m) rbody) : Codec t.
Proof.
  refine {| c_pre := PAbs; c_fmt := f; c_inv := inv; c_deff := no_update; c_reff := reff;
            c_dump := d; c_restore := r; c_dump_data := Hd; c_restore_data := Hr;
            c_deff_static := static_no_update; c_reff_static := Hre |}.
  - abstract (intros; rewrite Ed; by apply dump_abs_ok with (inv := inv)).
  - abstract (intros; rewrite Er; apply restored_reff, restore_abs_ok;
              rewrite ?(su_root _ Hre), ?(su_fp _ Hre); auto).
Defined.

(** A kind with one object per record, whose dump may set a static. *)
Definition buf_codec (deff : Z → world → world) (Hde : static_update deff)
    (body rbody : Pool_Elem → Z → C unit)
    (Ed : ∀ src w, (∃ out, w_fp w = FWrite out) →
            d src w = HEADER_DUMP_BUF t src (fun node => body src node) (deff (p_raw src) w))
    (Er : ∀ dst w, r dst w
            = HEADER_RESTORE_BUF dst (fun node => rbody dst node) (reff (p_raw dst) w))
    (Hb : body_ok f inv body) (Hrb : ∀ m, rbody_ok (f m) rbody) : Codec t.
Proof.
  refine {| c_pre := PNone; c_fmt := f; c_inv := inv; c_deff := deff; c_reff := reff;
            c_dump := d; c_restore := r; c_dump_data := Hd; c_restore_data := Hr;
            c_deff_static := Hde; c_reff_static := Hre |}.
  - abstract (intros w src out Hf Hok; rewrite Ed by eauto; rewrite (su_set_fp _ Hde);
      rewrite (dump_buf_ok t f inv body _ _ out);
      [by rewrite (su_mem _ Hde), (su_base _ Hde)|done|by rewrite (su_fp _ Hde)|];
      unfold elem_ok; by rewrite (su_mem _ Hde), (su_root _ Hde), (su_module _ Hde)).
  - abstract (intros; rewrite Er; apply restored_reff, restore_buf_ok;
              rewrite ?(su_root _ Hre), ?(su_fp _ Hre); auto).
Defined.

(** A kind with one object per record, whose size is repeated. *)
Definition size_codec (body rbody : Pool_Elem → Z → C unit)
    (Ed : ∀ src w, d src w
            = HEADER_DUMP_BUF t src (fun node => fwrite_int FP (size src) ;;; body src node) w)
    (Er : ∀ dst w, r dst w
            = HEADER_RESTORE_BUF dst (fun node =>
                let* n := fread_int FP in
                if negb (size dst =? n) then mexit 1 else rbody dst node) (reff (p_raw dst) w))
    (Hb : body_ok f inv body) (Hrb : ∀ m, rbody_ok (f m) rbody) : Codec t.
Proof.
  refine {| c_pre := PSize; c_fmt := f; c_inv := inv; c_deff := no_update; c_reff := reff;
            c_dump := d; c_restore := r; c_dump_data := Hd; c_restore_data := Hr;
            c_deff_static := static_no_update; c_reff_static := Hre |}.
  - abstract (intros; rewrite Ed; by apply dump_size_ok with (inv := inv)).
  - abstract (intros; rewrite Er; apply restored_reff, restore_size_ok;
              rewrite ?(su_root _ Hre), ?(su_fp _ Hre); auto).
Defined.
End Build.
