(* ===== verification/Records.v ===== *)
(** The format of every object kind and its codec: for each kind, the routine of
    wasm_dump.c writes exactly its format and the routine of wasm_restore.c
    reads it.  The kinds that search a list first (names, imports) are in
    Searches.v. *)
From stdpp Require Import base gmap list numbers strings.
From Stdlib Require Import Strings.Byte ZArith Lia.
From S2P Require Import Prelude CMemory WasmTypes PoolInfo Dump Restore Format Codec.

(** * Formats *)

(** A format from the list of its steps. *)
Definition fseq (l : list (fmt → fmt)) (k : fmt) : fmt := foldr (fun f k => f k) k l.

Abbreviation F T f sz cnt := (FFld (OFS T f) sz cnt) (only parsing).
Abbreviation P T f := (FPtr (OFS T f)) (only parsing).

(** The union an initializer expression selects; the payload starts at [u]. *)
Definition fmt_init_value (u tag : Z) (k : fmt) : fmt :=
  if (tag =? INIT_EXPR_TYPE_I32_CONST) || (tag =? INIT_EXPR_TYPE_I64_CONST)
     || (tag =? INIT_EXPR_TYPE_F32_CONST) || (tag =? INIT_EXPR_TYPE_F64_CONST)
  then FFld u 8 1 k
  else if tag =? INIT_EXPR_TYPE_V128_CONST then FFld u 8 2 k
  else if (tag =? INIT_EXPR_TYPE_FUNCREF_CONST) || (tag =? INIT_EXPR_TYPE_REFNULL_CONST)
  then FFld u 4 1 k
  else if tag =? INIT_EXPR_TYPE_GET_GLOBAL then FFld u 4 1 k
  else FFld u 8 1 k.

Definition fmt_init_expr (o : Z) (k : fmt) : fmt :=
  FFld o 1 1 (FCase o 1 (fun tag => fmt_init_value (o + OFS InitializerExpression "u") tag k)).

Definition fmt_V128 : fmt := F V128 "f64x2" 8 2 FDone.
Definition fmt_WASMValue : fmt := F WASMValue "v128.f32x4" 8 2 FDone.
Definition fmt_InitializerExpression : fmt := fmt_init_expr 0 FDone.
Definition fmt_Const : fmt := fseq
  [F Const "value.v128.f32x4" 8 2; F Const "slot_index" 2 1; F Const "value_type" 1 1] FDone.

Definition fmt_WASMModuleMemConsumption : fmt := fseq
  [F WASMModuleMemConsumption "total_size" 4 1;
   F WASMModuleMemConsumption "module_struct_size" 4 1;
   F WASMModuleMemConsumption "types_size" 4 1;
   F WASMModuleMemConsumption "imports_size" 4 1;
   F WASMModuleMemConsumption "functions_size" 4 1;
   F WASMModuleMemConsumption "tables_size" 4 1;
   F WASMModuleMemConsumption "memories_size" 4 1;
   F WASMModuleMemConsumption "globals_size" 4 1;
   F WASMModuleMemConsumption "exports_size" 4 1;
   F WASMModuleMemConsumption "table_segs_size" 4 1;
   F WASMModuleMemConsumption "data_segs_size" 4 1;
   F WASMModuleMemConsumption "const_strs_size" 4 1] FDone.

Definition fmt_WASMModuleInstMemConsumption : fmt := fseq
  [F WASMModuleInstMemConsumption "total_size" 4 1;
   F WASMModuleInstMemConsumption "module_inst_struct_size" 4 1;
   F WASMModuleInstMemConsumption "memories_size" 4 1;
   F WASMModuleInstMemConsumption "app_heap_size" 4 1;
   F WASMModuleInstMemConsumption "tables_size" 4 1;
   F WASMModuleInstMemConsumption "globals_size" 4 1;
   F WASMModuleInstMemConsumption "functions_size" 4 1;
   F WASMModuleInstMemConsumption "exports_size" 4 1] FDone.

Definition fmt_WASMSection : fmt := fseq
  [P WASMSection "next"; F WASMSection "section_type" 4 1; P WASMSection "section_body";
   F WASMSection "section_body_size" 4 1] FDone.

Definition fmt_WASMModule : fmt := fseq
  [F WASMModule "module_type" 4 1; F WASMModule "type_count" 4 1;
   F WASMModule "import_count" 4 1; F WASMModule "function_count" 4 1;
   F WASMModule "table_count" 4 1; F WASMModule "memory_count" 4 1;
   F WASMModule "global_count" 4 1; F WASMModule "export_count" 4 1;
   F WASMModule "table_seg_count" 4 1; F WASMModule "data_seg_count" 4 1;
   F WASMModule "import_function_count" 4 1; F WASMModule "import_table_count" 4 1;
   F WASMModule "import_memory_count" 4 1; F WASMModule "import_global_count" 4 1;
   P WASMModule "import_functions"; P WASMModule "import_tables";
   P WASMModule "import_memories"; P WASMModule "import_globals";
   P WASMModule "types"; P WASMModule "imports"; P WASMModule "functions";
   P WASMModule "tables"; P WASMModule "memories"; P WASMModule "globals";
   P WASMModule "exports"; P WASMModule "table_segments"; P WASMModule "data_segments";
   F WASMModule "start_function" 4 1; F WASMModule "aux_data_end_global_index" 4 1;
   F WASMModule "aux_data_end" 4 1; F WASMModule "aux_heap_base_global_index" 4 1;
   F WASMModule "aux_heap_base" 4 1; F WASMModule "aux_stack_top_global_index" 4 1;
   F WASMModule "aux_stack_bottom" 4 1; F WASMModule "aux_stack_size" 4 1;
   F WASMModule "malloc_function" 4 1; F WASMModule "free_function" 4 1;
   F WASMModule "retain_function" 4 1; F WASMModule "possible_memory_grow" 1 1;
   P WASMModule "const_str_list"; F WASMModule "is_wasi_module" 1 1] FDone.

(** The local types follow the function: the restore sets the pointer, the
    bytes are read through it. *)
Definition fmt_WASMFunction : fmt := fseq
  [P WASMFunction "func_type"; F WASMFunction "local_count" 4 1;
   FSet (OFS WASMFunction "local_types") [] (fun node _ => node + SIZEOF WASMFunction);
   F WASMFunction "param_cell_num" 2 1; F WASMFunction "ret_cell_num" 2 1;
   F WASMFunction "local_cell_num" 2 1; P WASMFunction "local_offsets";
   F WASMFunction "max_stack_cell_num" 4 1; F WASMFunction "max_block_num" 4 1;
   F WASMFunction "has_op_memory_grow" 1 1; F WASMFunction "has_op_func_call" 1 1;
   F WASMFunction "code_size" 4 1; P WASMFunction "code"]
  (FCase (OFS WASMFunction "local_count") 4 (fun n =>
    FBuf (OFS WASMFunction "local_types") (SIZEOF WASMFunction) n FDone)).

Definition fmt_WASMGlobal : fmt := fseq
  [F WASMGlobal "type" 1 1; F WASMGlobal "is_mutable" 1 1;
   fmt_init_expr (OFS WASMGlobal "init_expr")] FDone.

Definition fmt_WASMType : fmt := fseq
  [F WASMType "param_count" 2 1; F WASMType "result_count" 2 1;
   F WASMType "param_cell_num" 2 1; F WASMType "ret_cell_num" 2 1]
  (FCase (OFS WASMType "param_count") 2 (fun param_count =>
   FCase (OFS WASMType "result_count") 2 (fun result_count =>
   F WASMType "types" 1 (param_count + result_count) FDone))).

Definition fmt_WASMTable : fmt := fseq
  [F WASMTable "elem_type" 1 1; F WASMTable "flags" 4 1; F WASMTable "init_size" 4 1;
   F WASMTable "max_size" 4 1; F WASMTable "possible_grow" 1 1] FDone.

Definition fmt_WASMMemory : fmt := fseq
  [F WASMMemory "flags" 4 1; F WASMMemory "num_bytes_per_page" 4 1;
   F WASMMemory "init_page_count" 4 1; F WASMMemory "max_page_count" 4 1] FDone.

Definition fmt_WASMTableSeg : fmt := fseq
  [F WASMTableSeg "mode" 4 1; F WASMTableSeg "elem_type" 4 1; F WASMTableSeg "is_dropped" 1 1;
   F WASMTableSeg "table_index" 4 1; fmt_init_expr (OFS WASMTableSeg "base_offset");
   F WASMTableSeg "function_count" 4 1; P WASMTableSeg "func_indexes"] FDone.

Definition fmt_WASMDataSeg : fmt := fseq
  [F WASMDataSeg "memory_index" 4 1; fmt_init_expr (OFS WASMDataSeg "base_offset");
   F WASMDataSeg "data_length" 4 1; P WASMDataSeg "data"] FDone.

Definition fmt_StringNode (sz : Z) : fmt := fseq
  [P StringNode "next";
   FSet (OFS StringNode "str") [] (fun node _ => node + SIZEOF StringNode);
   FBuf (OFS StringNode "str") (SIZEOF StringNode) sz] FDone.

Definition fmt_WASMModuleInstance : fmt := fseq
  [F WASMModuleInstance "module_type" 4 1; F WASMModuleInstance "memory_count" 4 1;
   F WASMModuleInstance "table_count" 4 1; F WASMModuleInstance "global_count" 4 1;
   F WASMModuleInstance "function_count" 4 1; F WASMModuleInstance "export_func_count" 4 1;
   P WASMModuleInstance "memories"; P WASMModuleInstance "tables";
   P WASMModuleInstance "globals"; P WASMModuleInstance "functions";
   P WASMModuleInstance "export_functions"; P WASMModuleInstance "default_memory";
   P WASMModuleInstance "default_table"; P WASMModuleInstance "global_data";
   P WASMModuleInstance "start_function"; P WASMModuleInstance "malloc_function";
   P WASMModuleInstance "free_function"; P WASMModuleInstance "retain_function";
   P WASMModuleInstance "module"; P WASMModuleInstance "exec_env_singleton";
   F WASMModuleInstance "temp_ret" 4 1; F WASMModuleInstance "llvm_stack" 4 1;
   F WASMModuleInstance "default_wasm_stack_size" 4 1;
   F WASMModuleInstance "cur_exception" 1 128; P WASMModuleInstance "custom_data"] FDone.

Definition fmt_WASMMemoryInstance : fmt := fseq
  [F WASMMemoryInstance "module_type" 4 1; F WASMMemoryInstance "is_shared" 1 1;
   F WASMMemoryInstance "num_bytes_per_page" 4 1; F WASMMemoryInstance "cur_page_count" 4 1;
   F WASMMemoryInstance "max_page_count" 4 1; P WASMMemoryInstance "memory_data";
   FSet (OFS WASMMemoryInstance "memory_data_end")
     [(OFS WASMMemoryInstance "memory_data", 8); (OFS WASMMemoryInstance "num_bytes_per_page", 4);
      (OFS WASMMemoryInstance "cur_page_count", 4)]
     (fun _ vs => match vs with
                  | [data; per_page; pages] => data + uint64 (per_page * pages)
                  | _ => 0
                  end)] FDone.

Definition fmt_WASMTableInstance (sz : Z) : fmt := fseq
  [F WASMTableInstance "elem_type" 1 1; F WASMTableInstance "cur_size" 4 1;
   F WASMTableInstance "max_size" 4 1; F WASMTableInstance "base_addr" 4 (uint64 sz / 4)] FDone.

(** The reference case is written and not read back. *)
Definition fmt_global_value (u tag : Z) (k : fmt) : fmt :=
  if (tag =? INIT_EXPR_TYPE_FUNCREF_CONST) || (tag =? INIT_EXPR_TYPE_REFNULL_CONST)
  then FLost u 4 1 k
  else fmt_init_value u tag k.

Definition fmt_WASMGlobalInstance : fmt := fseq
  [F WASMGlobalInstance "type" 1 1; F WASMGlobalInstance "is_mutable" 1 1;
   F WASMGlobalInstance "data_offset" 4 1]
  (FCase (OFS WASMGlobalInstance "type") 1 (fun tag =>
    fmt_global_value (OFS WASMGlobalInstance "initial_value") tag FDone)).

Definition fmt_buffer (elem sz : Z) : fmt := FFld 0 elem sz FDone.
Definition fmt_ptrs (sz : Z) : fmt := fseq (map (fun i => FPtr (i * 8)) (seqZ 0 sz)) FDone.

(** * The routines implement the formats *)

Lemma dump_init_value_fmt node u tag k w :
  (dump_init_value tag (node + u) ;;; dump_fmt k node) w
  = dump_fmt (fmt_init_value u tag k) node w.
Proof.
  unfold dump_init_value, fmt_init_value. repeat case_match; simpl; by rewrite ?Z.add_0_r.
Qed.

Lemma dump_init_expr_fmt node o k w :
  (dump_init_expr (node + o) ;;; dump_fmt k node) w = dump_fmt (fmt_init_expr o k) node w.
Proof.
  unfold dump_init_expr, fmt_init_expr. rewrite Z.add_0_r, mbind_assoc. cbn [dump_fmt].
  apply mbind_ext; [done|intros _ w1]. rewrite mbind_assoc.
  apply mbind_ext; [done|intros tag w2]. rewrite <- Z.add_assoc. apply dump_init_value_fmt.
Qed.

Lemma restore_init_value_fmt node u tag k w :
  (restore_init_value tag (node + u) ;;; restore_fmt k node) w
  = restore_fmt (fmt_init_value u tag k) node w.
Proof.
  unfold restore_init_value, fmt_init_value. repeat case_match; simpl; by rewrite ?Z.add_0_r.
Qed.

Lemma restore_init_expr_fmt node o k w :
  (restore_init_expr (node + o) ;;; restore_fmt k node) w
  = restore_fmt (fmt_init_expr o k) node w.
Proof.
  unfold restore_init_expr, fmt_init_expr. rewrite Z.add_0_r, mbind_assoc. cbn [restore_fmt].
  apply mbind_ext; [done|intros _ w1]. rewrite mbind_assoc.
  apply mbind_ext; [done|intros tag w2]. rewrite <- Z.add_assoc. apply restore_init_value_fmt.
Qed.

(** Follows the branches of a [switch] on a tag. *)
Ltac tag_cases :=
  repeat case_match; simpl; rewrite ?Z.add_0_r; try done;
  repeat match goal with H : orb _ _ = true |- _ => apply orb_prop in H as [H|H] end;
  zbool; subst; done.

Lemma dump_global_value_fmt node u tag k w :
  (dump_init_value tag (node + u) ;;; dump_fmt k node) w
  = dump_fmt (fmt_global_value u tag k) node w.
Proof.
  rewrite dump_init_value_fmt. unfold fmt_global_value, fmt_init_value.
  tag_cases.
Qed.

Lemma restore_global_value_fmt node u tag k w :
  (restore_global_value tag (node + u) ;;; restore_fmt k node) w
  = restore_fmt (fmt_global_value u tag k) node w.
Proof.
  unfold restore_global_value, fmt_global_value, fmt_init_value.
  tag_cases.
Qed.

(** Compares a routine with a format step by step. *)
Ltac fmt_step :=
  lazymatch goal with
  | |- _ = dump_fmt (fmt_init_expr _ _) _ _ => rewrite <- dump_init_expr_fmt; cbn [dump_fmt]
  | |- _ = restore_fmt (fmt_init_expr _ _) _ _ => rewrite <- restore_init_expr_fmt; cbn [restore_fmt]
  | |- _ = dump_fmt (fmt_global_value _ _ _) _ _ =>
      rewrite <- dump_global_value_fmt; cbn [dump_fmt]
  | |- _ = restore_fmt (fmt_global_value _ _ _) _ _ =>
      rewrite <- restore_global_value_fmt; cbn [restore_fmt]
  | |- mbind _ _ _ = mbind _ _ _ =>
      first [ apply mbind_ext; [first [reflexivity | rewrite ?Z.add_0_r; reflexivity]|intros ? ?]
            | reflexivity
            | unfold mbind, ld, gets, skip, mret;
              repeat case_match; by repeat match goal with u : unit |- _ => destruct u end ]
  | |- _ = mbind _ _ _ => symmetry; rewrite ?Z.add_0_r; apply mbind_skip_r
  | |- _ => reflexivity
  end.

Ltac fmt_eq f :=
  unfold body_ok, rbody_ok; intros; cbv beta; unfold f; cbn [dump_fmt restore_fmt fseq foldr]; repeat fmt_step.

(** [chain_codec d r reff f]: the codec of a kind whose routines are [d] and [r]
    and whose format is [f]. *)
Ltac dump_body d :=
  lazymatch eval unfold d in d with
  | fun addr => HEADER_DUMP _ addr (fun e node => fwrite_int FP (p_abs e) ;;; @?body e node) => body
  | fun addr => HEADER_DUMP_BUF _ addr ?body => constr:(fun (_ : Pool_Elem) => body)
  end.
Ltac restore_body r :=
  lazymatch eval unfold r in r with
  | fun addr => HEADER_RESTORE addr (fun e node => check_p_abs e ;;; @?body e node) => body
  | fun addr => _ ;;; HEADER_RESTORE addr (fun e node => check_p_abs e ;;; @?body e node) => body
  | fun addr => HEADER_RESTORE_BUF addr ?body => constr:(fun (_ : Pool_Elem) => body)
  end.

Ltac chain_codec d r reff f :=
  let b := dump_body d in let rb := restore_body r in
  match goal with |- Codec ?t =>
    refine (@abs_codec t d r reff (fun _ _ => f) no_inv eq_refl eq_refl _ b rb _ _ _ _)
  end;
  [by auto with mig|intros; reflexivity|intros; reflexivity|fmt_eq f|fmt_eq f].

#[export] Instance codec_V128 : Codec V128T.
Proof. chain_codec dump_V128 restore_V128 no_update fmt_V128. Defined.
#[export] Instance codec_WASMValue : Codec WASMValueT.
Proof. chain_codec dump_WASMValue restore_WASMValue no_update fmt_WASMValue. Defined.
#[export] Instance codec_InitializerExpression : Codec InitializerExpressionT.
Proof.
  chain_codec dump_InitializerExpression restore_InitializerExpression no_update
    fmt_InitializerExpression.
Defined.
#[export] Instance codec_Const : Codec ConstT.
Proof. chain_codec dump_Const restore_Const no_update fmt_Const. Defined.
#[export] Instance codec_WASMModuleMemConsumption : Codec WASMModuleMemConsumptionT.
Proof.
  chain_codec dump_WASMModuleMemConsumption restore_WASMModuleMemConsumption no_update
    fmt_WASMModuleMemConsumption.
Defined.
#[export] Instance codec_WASMModuleInstMemConsumption : Codec WASMModuleInstMemConsumptionT.
Proof.
  chain_codec dump_WASMModuleInstMemConsumption restore_WASMModuleInstMemConsumption no_update
    fmt_WASMModuleInstMemConsumption.
Defined.
#[export] Instance codec_WASMSection : Codec WASMSectionT.
Proof. chain_codec dump_WASMSection restore_WASMSection no_update fmt_WASMSection. Defined.
#[export] Instance codec_WASMModule : Codec WASMModuleT.
Proof. chain_codec dump_WASMModule restore_WASMModule set_r_module fmt_WASMModule. Defined.
#[export] Instance codec_WASMGlobal : Codec WASMGlobalT.
Proof. chain_codec dump_WASMGlobal restore_WASMGlobal no_update fmt_WASMGlobal. Defined.
#[export] Instance codec_WASMTable : Codec WASMTableT.
Proof. chain_codec dump_WASMTable restore_WASMTable no_update fmt_WASMTable. Defined.
#[export] Instance codec_WASMMemory : Codec WASMMemoryT.
Proof. chain_codec dump_WASMMemory restore_WASMMemory no_update fmt_WASMMemory. Defined.
#[export] Instance codec_WASMTableSeg : Codec WASMTableSegT.
Proof. chain_codec dump_WASMTableSeg restore_WASMTableSeg no_update fmt_WASMTableSeg. Defined.
#[export] Instance codec_WASMDataSeg : Codec WASMDataSegT.
Proof. chain_codec dump_WASMDataSeg restore_WASMDataSeg no_update fmt_WASMDataSeg. Defined.
#[export] Instance codec_WASMModuleInstance : Codec WASMModuleInstanceT.
Proof.
  chain_codec dump_WASMModuleInstance restore_WASMModuleInstance set_r_module_inst
    fmt_WASMModuleInstance.
Defined.
#[export] Instance codec_WASMMemoryInstance : Codec WASMMemoryInstanceT.
Proof.
  chain_codec dump_WASMMemoryInstance restore_WASMMemoryInstance no_update fmt_WASMMemoryInstance.
Defined.
#[export] Instance codec_WASMGlobalInstance : Codec WASMGlobalInstanceT.
Proof.
  chain_codec dump_WASMGlobalInstance restore_WASMGlobalInstance no_update fmt_WASMGlobalInstance.
Defined.

(** [single_codec d r reff f]: the same for a kind with one object per record. *)
Ltac single_codec d r reff f :=
  let b := dump_body d in let rb := restore_body r in
  match goal with |- Codec ?t =>
    refine (@buf_codec t d r reff (fun _ _ => f) no_inv eq_refl eq_refl _
              no_update _ b rb _ _ _ _)
  end;
  [by auto with mig|by auto with mig|intros; reflexivity|intros; reflexivity|fmt_eq f|fmt_eq f].

#[export] Instance codec_WASMFunction : Codec WASMFunctionT.
Proof. single_codec dump_WASMFunction restore_WASMFunction no_update fmt_WASMFunction. Defined.
#[export] Instance codec_WASMType : Codec WASMTypeT.
Proof. single_codec dump_WASMType restore_WASMType no_update fmt_WASMType. Defined.

(** Buffers and arrays of pointers. *)
Definition buffer_codec (t : Data_Type) (elem : Z)
    (Hd : dump_data t = Some (dump_buffer t elem))
    (Hr : restore_data t = Some (restore_buffer elem)) : Codec t.
Proof.
  refine (buf_codec _ _ no_update (fun _ e => fmt_buffer elem (size e)) no_inv Hd Hr _ no_update _
            (fun e node => fwrite FP node elem (size e))
            (fun e node => fread FP node elem (size e)) _ _ _ _);
    [by auto with mig|by auto with mig|intros; reflexivity|intros; reflexivity|..].
  - intros e w _ _. simpl. by rewrite Z.add_0_r, mbind_skip_r.
  - intros m e e' w -> _. simpl. by rewrite Z.add_0_r, mbind_skip_r.
Defined.

#[export] Instance codec_char : Codec charT := buffer_codec charT 1 eq_refl eq_refl.
#[export] Instance codec_uint8 : Codec uint8T := buffer_codec uint8T 1 eq_refl eq_refl.
#[export] Instance codec_uint16 : Codec uint16T := buffer_codec uint16T 2 eq_refl eq_refl.
#[export] Instance codec_uint32 : Codec uint32T := buffer_codec uint32T 4 eq_refl eq_refl.
#[export] Instance codec_uint64 : Codec uint64T := buffer_codec uint64T 8 eq_refl eq_refl.

Lemma dump_ptrs_fmt node l w :
  mfor l (fun i => DUMP_PTR_AT (node + i * 8)) w
  = dump_fmt (fseq (map (fun i => FPtr (i * 8)) l) FDone) node w.
Proof.
  revert w. induction l as [|i l IH]; intros w; [done|].
  cbn [mfor map fseq foldr dump_fmt]. apply mbind_ext; [done|]. intros. apply IH.
Qed.

Lemma restore_ptrs_fmt node l w :
  mfor l (fun i => RESTORE_PTR_AT (node + i * 8)) w
  = restore_fmt (fseq (map (fun i => FPtr (i * 8)) l) FDone) node w.
Proof.
  revert w. induction l as [|i l IH]; intros w; [done|].
  cbn [mfor map fseq foldr restore_fmt]. apply mbind_ext; [done|]. intros. apply IH.
Qed.

Definition ptrs_codec (t : Data_Type)
    (Hd : dump_data t = Some (dump_ptrs t)) (Hr : restore_data t = Some restore_ptrs) : Codec t.
Proof.
  refine (buf_codec _ _ no_update (fun _ e => fmt_ptrs (size e)) no_inv Hd Hr _ no_update _
            (fun e node => mfor (seqZ 0 (size e)) (fun i => DUMP_PTR_AT (node + i * 8)))
            (fun e node => mfor (seqZ 0 (size e)) (fun i => RESTORE_PTR_AT (node + i * 8)))
            _ _ _ _);
    [by auto with mig|by auto with mig|intros; reflexivity|intros; reflexivity|..].
  - intros e w _ _. apply dump_ptrs_fmt.
  - intros m e e' w -> _. apply restore_ptrs_fmt.
Defined.

#[export] Instance codec_charT : Codec charTT := ptrs_codec charTT eq_refl eq_refl.
#[export] Instance codec_WASMFunctionT : Codec WASMFunctionTT :=
  ptrs_codec WASMFunctionTT eq_refl eq_refl.
#[export] Instance codec_WASMTypeT : Codec WASMTypeTT := ptrs_codec WASMTypeTT eq_refl eq_refl.
#[export] Instance codec_WASMDataSegT : Codec WASMDataSegTT :=
  ptrs_codec WASMDataSegTT eq_refl eq_refl.
#[export] Instance codec_WASMMemoryInstanceT : Codec WASMMemoryInstanceTT :=
  ptrs_codec WASMMemoryInstanceTT eq_refl eq_refl.
#[export] Instance codec_WASMTableInstanceT : Codec WASMTableInstanceTT :=
  ptrs_codec WASMTableInstanceTT eq_refl eq_refl.

(** The kinds whose record depends on the recorded size. *)
#[export] Instance codec_WASMTableInstance : Codec WASMTableInstanceT.
Proof.
  refine (buf_codec (t := WASMTableInstanceT) dump_WASMTableInstance restore_WASMTableInstance no_update
            (fun _ e => fmt_WASMTableInstance (size e)) no_inv eq_refl eq_refl _ no_update _
            (fun e node =>
               fwrite FP (FLD node WASMTableInstance "elem_type") 1 1 ;;;
               fwrite FP (FLD node WASMTableInstance "cur_size") 4 1 ;;;
               fwrite FP (FLD node WASMTableInstance "max_size") 4 1 ;;;
               fwrite FP (FLD node WASMTableInstance "base_addr") 4 (uint64 (size e) / 4))
            (fun e node =>
               fread FP (FLD node WASMTableInstance "elem_type") 1 1 ;;;
               fread FP (FLD node WASMTableInstance "cur_size") 4 1 ;;;
               fread FP (FLD node WASMTableInstance "max_size") 4 1 ;;;
               fread FP (FLD node WASMTableInstance "base_addr") 4 (uint64 (size e) / 4)) _ _ _ _);
    [by auto with mig|by auto with mig|intros; reflexivity|intros; reflexivity|..].
  - fmt_eq fmt_WASMTableInstance.
  - intros m e e' w -> _. unfold fmt_WASMTableInstance.
    cbn [restore_fmt fseq foldr]. repeat fmt_step.
Defined.

#[export] Instance codec_StringNode : Codec StringNodeT.
Proof.
  refine (size_codec (t := StringNodeT) dump_StringNode restore_StringNode no_update
            (fun _ e => fmt_StringNode (size e)) no_inv eq_refl eq_refl _
            (fun e node =>
               DUMP_PTR_AT (FLD node StringNode "next") ;;;
               let* str := ld 8 (FLD node StringNode "str") in
               fwrite FP str 1 (size e))
            (fun e node =>
               RESTORE_PTR_AT (FLD node StringNode "next") ;;;
               st 8 (FLD node StringNode "str") (node + SIZEOF StringNode) ;;;
               let* str := ld 8 (FLD node StringNode "str") in
               fread FP str 1 (size e)) _ _ _ _);
    [by auto with mig|intros; reflexivity|..].
  - intros dst w. unfold restore_StringNode, HEADER_RESTORE_BUF, no_update.
    apply mbind_ext; [done|]. intros n w1.
    destruct (size dst =? n) eqn:E; [|done]. zbool. by subst n.
  - fmt_eq fmt_StringNode.
  - intros m e e' w -> _. unfold fmt_StringNode.
    cbn [restore_fmt fseq foldr]. repeat fmt_step.
Defined.

(** * Well-formedness of the formats

    The fields of a record do not overlap.  The check is by computation where
    the offsets are known. *)

Definition disjointb (r s : region) : bool := (r.1 + r.2 <=? s.1) || (s.1 + s.2 <=? r.1).

Definition fresh_inb (r : region) (done : list item) : bool :=
  (0 <=? r.2) && forallb (fun i => disjointb r (item_region i)) done.

Lemma fresh_inb_ok r done : fresh_inb r done = true → fresh_in r done.
Proof.
  unfold fresh_inb, fresh_in. intros [H1 H2]%andb_prop. zbool. split; [done|].
  apply Forall_forall. intros i Hi%list_elem_of_In. rewrite forallb_forall in H2.
  specialize (H2 i Hi). unfold disjointb in H2. unfold disjoint_region.
  apply orb_prop in H2 as [?|?]; zbool; lia.
Qed.

(** A boolean check for the formats without branches and buffers. *)
Fixpoint wf_fmtb (done : list item) (f : fmt) : bool :=
  match f with
  | FDone => true
  | FFld off sz cnt k =>
      (0 <=? sz) && (0 <=? cnt) && fresh_inb (off, sz * cnt) done
      && wf_fmtb (IFld off sz cnt :: done) k
  | FPtr off k => fresh_inb (off, 8) done && wf_fmtb (IPtr off :: done) k
  | FPtrD off d k => fresh_inb (off, 8) done && wf_fmtb (IPtrD off d :: done) k
  | FSet off deps g k =>
      fresh_inb (off, 8) done
      && forallb (fun d : region => (0 <=? d.2) && disjointb (off, 8) d
           && existsb (fun i => ((item_region i).1 =? d.1) && ((item_region i).2 =? d.2)) done) deps
      && wf_fmtb (ISet off deps g :: done) k
  | FEntry off oc k => fresh_inb (off, 24) done && wf_fmtb (IEntry off oc :: done) k
  | FBuf _ _ _ _ | FLost _ _ _ _ | FCase _ _ _ => false
  end.

Lemma wf_fmtb_ok m node f : ∀ done, wf_fmtb done f = true → wf_fmt m node done f.
Proof.
  induction f; intros dn Hb; simpl in *; try discriminate Hb; auto;
    zbool; repeat match goal with |- _ ∧ _ => split end; auto using fresh_inb_ok.
  match goal with H : forallb _ deps = true |- _ => rename H into Hd end.
  apply Forall_forall. intros [d n] Hin%list_elem_of_In. rewrite forallb_forall in Hd.
  specialize (Hd _ Hin). simpl in Hd. apply andb_prop in Hd as [Hd (i&Hi&E)%existsb_exists].
  apply andb_prop in Hd as [? Hd2]. apply andb_prop in E as [? ?]. zbool. simpl.
  split_and!; [done| |].
  - unfold disjointb in Hd2. unfold disjoint_region. simpl in *. apply orb_prop in Hd2 as [?|?]; zbool; lia.
  - exists i. split; [done|]. destruct (item_region i). simpl in *. by subst.
Qed.

Lemma load_Z_nonneg m a n : 0 <= n → 0 <= load_Z m a n.
Proof. intros. pose proof (load_Z_range m a n). lia. Qed.

(** Proves that a format with branches is well formed. *)
Ltac solve_wf :=
  repeat match goal with
  | |- wf_fmt _ _ _ (FCase _ _ _) => cbn [wf_fmt]; split_and!; [lia|simpl; tauto|]
  | |- wf_fmt _ _ _ _ => first [by apply wf_fmtb_ok; vm_compute|cbn [wf_fmt fseq foldr]]
  | |- _ ∧ _ => split
  | |- fresh_in _ _ => first [by apply fresh_inb_ok; vm_compute | unfold fresh_in, disjoint_region; simpl; repeat constructor; simpl; lia]
  | |- In _ _ => simpl; tauto
  | |- _ <= _ => lia
  | |- True => exact I
  end.

(** The branches of the initializer expressions: eight, sixteen or four bytes. *)
Definition init_widths : list (Z * Z) := [(8, 1); (8, 2); (4, 1)].

Lemma wf_init_value m node done u tag k :
  fresh_in (u, 16) done →
  (∀ p, In p init_widths → wf_fmt m node (IFld u p.1 p.2 :: done) k) →
  wf_fmt m node done (fmt_init_value u tag k).
Proof.
  intros Hfr Hk.
  assert (∀ n, 0 <= n <= 16 → fresh_in (u, n) done) as H.
  { intros. destruct Hfr as [_ Hfr]. split; [simpl; lia|]. eapply Forall_impl; [exact Hfr|].
    unfold disjoint_region. simpl. lia. }
  assert (∀ p, In p init_widths → wf_fmt m node done (FFld u p.1 p.2 k)) as Hw.
  { intros p Hp. specialize (Hk p Hp). destruct Hp as [<-|[<-|[<-|[]]]];
      split_and!; try done; try lia; apply H; simpl; lia. }
  unfold fmt_init_value. repeat case_match;
    first [by apply (Hw (8, 1)); left | by apply (Hw (8, 2)); right; left
          | by apply (Hw (4, 1)); do 2 right; left].
Qed.

(** * The reference case of a global instance *)

(** The initial value of a global instance with a reference tag is written in
    four bytes, but the restore routine, which calls [fwrite] there, reads
    nothing: the bytes stay in the stream and the value is not restored. *)
Theorem global_ref_lost w tag u out :
  tag ∈ [INIT_EXPR_TYPE_FUNCREF_CONST; INIT_EXPR_TYPE_REFNULL_CONST] → w_fp w = FWrite out →
  ∃ bs, dump_init_value tag u w = Ok tt (set_fp (FWrite (out ++ bs)) w) ∧ length bs = 4%nat
    ∧ ∀ w' u' rest, w_fp w' = FRead (bs ++ rest) → restore_global_value tag u' w' = Ok tt w'.
Proof.
  intros Ht Hf. exists (load (wmem w) (FLD u WASMValue "ref_index") 4).
  assert (∀ w' u', (∃ r, w_fp w' = FRead r) → fwrite FP (FLD u' WASMValue "ref_index") 4 1 w' = Ok tt w') as Hw.
  { intros w' u' [r Hr]. unfold fwrite, fwrite_bytes, modify. simpl. by rewrite Hr. }
  split_and!.
  - rewrite !elem_of_cons in Ht. destruct Ht as [->|[->|Ht%elem_of_nil]]; [| |done];
      by apply (fwrite_fp w out).
  - apply length_load.
  - intros w' u' rest Hr. rewrite !elem_of_cons in Ht.
    destruct Ht as [->|[->|Ht%elem_of_nil]]; [| |done]; apply Hw; by eexists.
Qed.

Lemma global_ref_lost_witness :
  let w := mkWorld ∅ (FWrite []) FClosed [] [] 4096 4096 0 0 0 0 0 in
  ∃ bs, dump_init_value INIT_EXPR_TYPE_FUNCREF_CONST 8192 w = Ok tt (set_fp (FWrite bs) w)
    ∧ restore_global_value INIT_EXPR_TYPE_FUNCREF_CONST 8192 (set_fp (FRead bs) w)
      = Ok tt (set_fp (FRead bs) w).
Proof.
  intros w. destruct (global_ref_lost w INIT_EXPR_TYPE_FUNCREF_CONST 8192 []) as (bs&H1&_&H2);
    [left|reflexivity|].
  exists bs. split; [exact H1|]. apply (H2 (set_fp (FRead bs) w) 8192 []). by rewrite app_nil_r.
Defined.
