(* ===== verification/Searches.v ===== *)
(** The kinds whose dump routine searches the heap first: names are found in the
    module's list of constant strings, an imported function in the module's
    imports, and a block address of the execution environment in the code of
    the module's functions.  Each search is shown to end within its bound and
    to find what the format of the kind writes. *)
From stdpp Require Import base gmap list numbers strings.
From Stdlib Require Import Strings.Byte ZArith Lia.
From S2P Require Import Prelude CMemory WasmTypes PoolInfo Dump Restore Format Codec Records.

(** * The list of constant strings *)

(** The nodes of the list at [p], in order; the text of a node follows it
    (wasm_loader.c, [const_str_list_insert]). *)
Inductive str_list (m : mem) : Z → list Z → Prop :=
| str_nil : str_list m NULL []
| str_cons p ns :
    p ≠ NULL →
    ldp m (FLD p StringNode "str") = p + SIZEOF StringNode →
    str_list m (ldp m (FLD p StringNode "next")) ns →
    str_list m p (p :: ns).

Lemma str_list_fun m p ns ns' : str_list m p ns → str_list m p ns' → ns = ns'.
Proof.
  intros H. revert ns'. induction H as [|p ns Hp ? ? IH]; intros ns' H'; inversion H'; subst; try done.
  f_equal. auto.
Qed.

Lemma str_list_tail m p ns x :
  str_list m p ns → In x ns → ∃ ns', str_list m x ns' ∧ (length ns' <= length ns)%nat.
Proof.
  induction 1 as [|p ns ? ? H IH]; [done|]. intros [<-|Hx].
  - exists (p :: ns). split; [by constructor|done].
  - destruct (IH Hx) as (ns'&?&?). exists ns'. split; [done|simpl; lia].
Qed.

(** A list that ends has no cycle. *)
Lemma str_list_NoDup m p ns : str_list m p ns → NoDup ns.
Proof.
  induction 1 as [|p ns Hp Hs H IH]; constructor; [|done].
  intros Hin%list_elem_of_In. destruct (str_list_tail _ _ _ _ H Hin) as (ns'&H'&Hl).
  assert (p :: ns = ns') as <- by (eapply str_list_fun; [by constructor|done]). simpl in Hl. lia.
Qed.

Lemma str_list_not_null m p ns x : str_list m p ns → In x ns → x ≠ NULL.
Proof. induction 1; [done|]. intros [<-|?]; auto. Qed.

(** A name is the text of a node of the list, and the nodes are live objects. *)
Definition named (m : mem) (root : list Pool_Info) (module name : Z) : Prop :=
  ∃ ns, str_list m (ldp m (FLD module WASMModule "const_str_list")) ns
    ∧ In (name - SIZEOF StringNode) ns
    ∧ (∀ n, In n ns → In n (map p_raw (all_elems root))).

Lemma named_fuel ns root :
  NoDup ns → (∀ n, In n ns → In n (map p_raw (all_elems root))) →
  (length ns <= length (all_elems root))%nat.
Proof.
  intros Hnd Hin. rewrite <- (length_map p_raw (all_elems root)).
  by apply NoDup_incl_length; [apply NoDup_ListNoDup|].
Qed.

Lemma ld_eq n a w : ld n a w = Ok (load_Z (wmem w) a n) w.
Proof. done. Qed.

(** The search with [break]. *)
Lemma dump_str_node_ok m p ns name w fuel :
  wmem w = m → str_list m p ns → In (name - SIZEOF StringNode) ns → (length ns < fuel)%nat →
  dump_str_node fuel p name w = DUMP_PTR (name - SIZEOF StringNode) w.
Proof.
  intros Hm H. revert fuel. induction H as [|p ns Hp Hs H IH]; [done|].
  intros [|fuel] Hin Hl; [simpl in Hl; lia|]. cbn [dump_str_node].
  rewrite (proj2 (Z.eqb_neq p NULL)) by done.
  erewrite mbind_ok by apply ld_eq. rewrite Hm. fold (ldp m (FLD p StringNode "str")). rewrite Hs.
  destruct (Z.eqb_spec (p + SIZEOF StringNode) name) as [E|E].
  - f_equal. lia.
  - erewrite mbind_ok by apply ld_eq. rewrite Hm.
    apply IH; [|simpl in Hl; lia]. destruct Hin as [?|?]; [lia|done].
Qed.

Lemma dump_name_ok w name :
  named (wmem w) (root_info w) (wasm_module w) name →
  dump_name name w = DUMP_PTR (name - SIZEOF StringNode) w.
Proof.
  intros (ns&Hl&Hin&Hr). unfold dump_name.
  do 3 erewrite mbind_ok by reflexivity.
  eapply dump_str_node_ok; [done|exact Hl|done|].
  pose proof (named_fuel ns (root_info w) (str_list_NoDup _ _ _ Hl) Hr). lia.
Qed.

(** The search without [break]: a node whose text is not the name is passed. *)
Lemma dump_str_nodes_miss m p ns name w fuel :
  wmem w = m → str_list m p ns → ¬ In (name - SIZEOF StringNode) ns → (length ns < fuel)%nat →
  dump_str_nodes fuel p name w = Ok tt w.
Proof.
  intros Hm H. revert fuel. induction H as [|p ns Hp Hs H IH]; intros [|fuel] Hin Hl;
    [simpl in Hl; lia|done|simpl in Hl; lia|]. cbn [dump_str_nodes].
  rewrite (proj2 (Z.eqb_neq p NULL)) by done.
  erewrite mbind_ok by apply ld_eq. rewrite Hm. fold (ldp m (FLD p StringNode "str")). rewrite Hs.
  destruct (Z.eqb_spec (p + SIZEOF StringNode) name) as [E|E].
  - destruct Hin. left. lia.
  - erewrite mbind_ok by reflexivity. erewrite mbind_ok by apply ld_eq. rewrite Hm.
    apply IH; [|simpl in Hl; lia]. intros ?. apply Hin. by right.
Qed.

Lemma dump_str_nodes_ok m p ns name out fuel : ∀ w,
  wmem w = m → w_fp w = FWrite out →
  str_list m p ns → In (name - SIZEOF StringNode) ns → (length ns < fuel)%nat →
  dump_str_nodes fuel p name w = DUMP_PTR (name - SIZEOF StringNode) w.
Proof.
  intros w Hm Hf H. revert fuel. induction H as [|p ns Hp Hs H IH]; [done|].
  intros [|fuel] Hin Hl; [simpl in Hl; lia|]. cbn [dump_str_nodes].
  rewrite (proj2 (Z.eqb_neq p NULL)) by done.
  erewrite mbind_ok by apply ld_eq. rewrite Hm. fold (ldp m (FLD p StringNode "str")). rewrite Hs.
  destruct (Z.eqb_spec (p + SIZEOF StringNode) name) as [E|E].
  - assert (NoDup (p :: ns)) as Hnd by (eapply (str_list_NoDup m); by constructor).
    erewrite mbind_ok by (by apply DUMP_PTR_fp). erewrite mbind_ok by apply ld_eq.
    rewrite (dump_str_nodes_miss m _ ns); [|done|by simpl; rewrite Hm| |simpl in Hl; lia].
    + replace (name - SIZEOF StringNode) with p by lia. by erewrite DUMP_PTR_fp.
    + replace (name - SIZEOF StringNode) with p by lia.
      intros Hi%list_elem_of_In. by inversion Hnd.
  - erewrite mbind_ok by reflexivity. erewrite mbind_ok by apply ld_eq. rewrite Hm.
    apply IH; [|simpl in Hl; lia]. destruct Hin as [?|?]; [lia|done].
Qed.

(** * Kinds with names *)

Abbreviation N T f := (FPtrD (OFS T f) (SIZEOF StringNode)) (only parsing).

Definition fmt_WASMExport : fmt := fseq
  [N WASMExport "name"; F WASMExport "kind" 1 1; F WASMExport "index" 4 1] FDone.

Definition fmt_import_data (kind : Z) : fmt :=
  if kind =? IMPORT_KIND_FUNC then fseq
    [P WASMImport "u.function.func_type"; F WASMImport "u.function.call_conv_raw" 1 1;
     F WASMImport "u.function.call_conv_wasm_c_api" 1 1;
     F WASMImport "u.function.wasm_c_api_with_env" 1 1] FDone
  else if kind =? IMPORT_KIND_TABLE then fseq
    [F WASMImport "u.table.elem_type" 1 1; F WASMImport "u.table.flags" 4 1;
     F WASMImport "u.table.init_size" 4 1; F WASMImport "u.table.max_size" 4 1;
     F WASMImport "u.table.possible_grow" 1 1] FDone
  else if kind =? IMPORT_KIND_MEMORY then fseq
    [F WASMImport "u.memory.flags" 4 1; F WASMImport "u.memory.num_bytes_per_page" 4 1;
     F WASMImport "u.memory.init_page_count" 4 1; F WASMImport "u.memory.max_page_count" 4 1] FDone
  else if kind =? IMPORT_KIND_GLOBAL then fseq
    [F WASMImport "u.global.type" 1 1; F WASMImport "u.global.is_mutable" 1 1;
     F WASMImport "u.global.global_data_linked.v128.f32x4" 8 2;
     F WASMImport "u.global.is_linked" 1 1] FDone
  else FDone.

Definition fmt_WASMImport : fmt := fseq
  [F WASMImport "kind" 1 1; N WASMImport "u.names.module_name"; N WASMImport "u.names.field_name"]
  (FCase (OFS WASMImport "kind") 1 fmt_import_data).

Definition fmt_WASMExportFuncInstance : fmt := fseq
  [N WASMExportFuncInstance "name"; P WASMExportFuncInstance "function"] FDone.

(** Two programs whose first steps do the same from [w]. *)
Lemma mbind_ext_at {A B} (c c' : C A) (k k' : A → C B) w a w1 :
  c w = Ok a w1 → c' w = Ok a w1 → k a w1 = k' a w1 → mbind c k w = mbind c' k' w.
Proof. unfold mbind. by intros -> ->. Qed.

(** Writing a name is the format's pointer to its string node. *)
Lemma dump_name_fmt w out a (k : C unit) :
  w_fp w = FWrite out →
  named (wmem w) (root_info w) (wasm_module w) (ldp (wmem w) a) →
  (let* name := ld 8 a in dump_name name ;;; k) w
  = ((let* p := ld 8 a in DUMP_PTR (p - SIZEOF StringNode)) ;;; k) w.
Proof.
  intros Hf Hn. rewrite mbind_assoc. erewrite !(mbind_ok (ld 8 a)) by apply ld_eq.
  apply mbind_ext; [|done]. by apply dump_name_ok.
Qed.

Definition inv_WASMExport (m : mem) (root : list Pool_Info) (module : Z) (e : Pool_Elem) : Prop :=
  named m root module (ldp m (FLD (p_raw e) WASMExport "name")).

Definition inv_WASMImport (m : mem) (root : list Pool_Info) (module : Z) (e : Pool_Elem) : Prop :=
  named m root module (ldp m (FLD (p_raw e) WASMImport "u.names.module_name"))
  ∧ named m root module (ldp m (FLD (p_raw e) WASMImport "u.names.field_name")).

Definition inv_WASMExportFuncInstance (m : mem) (root : list Pool_Info) (module : Z)
    (e : Pool_Elem) : Prop :=
  named m root module (ldp m (FLD (p_raw e) WASMExportFuncInstance "name")).

(** [inv_codec d r f inv]: a chain kind with an invariant; the goal left is that
    the dump routine writes the format. *)
Ltac inv_codec d r f inv :=
  let b := dump_body d in let rb := restore_body r in
  match goal with |- Codec ?t =>
    refine (@abs_codec t d r no_update (fun _ _ => f) inv eq_refl eq_refl static_no_update b rb
              (fun _ _ => _) (fun _ _ => _) _ _)
  end;
  [reflexivity|reflexivity| |].

#[export] Instance codec_WASMExport : Codec WASMExportT.
Proof.
  inv_codec dump_WASMExport restore_WASMExport fmt_WASMExport inv_WASMExport; [|fmt_eq fmt_WASMExport].
  intros e w Hn [out Hf]. unfold fmt_WASMExport. cbn [dump_fmt fseq foldr].
  erewrite dump_name_fmt by eauto. repeat fmt_step.
Defined.

#[export] Instance codec_WASMExportFuncInstance : Codec WASMExportFuncInstanceT.
Proof.
  inv_codec dump_WASMExportFuncInstance restore_WASMExportFuncInstance fmt_WASMExportFuncInstance
    inv_WASMExportFuncInstance; [|fmt_eq fmt_WASMExportFuncInstance].
  intros e w (ns&Hl&Hin&Hr) [out Hf]. unfold fmt_WASMExportFuncInstance.
  cbn [dump_fmt fseq foldr]. rewrite mbind_assoc.
  do 4 erewrite (mbind_ok _ _ w) by reflexivity.
  erewrite (mbind_ok (ld 8 _)) by apply ld_eq.
  apply mbind_ext; [|intros ? ?; symmetry; apply mbind_skip_r].
  eapply dump_str_nodes_ok; [done|done|exact Hl|done|].
  pose proof (named_fuel ns (root_info w) (str_list_NoDup _ _ _ Hl) Hr). lia.
Defined.

#[export] Instance codec_WASMImport : Codec WASMImportT.
Proof.
  inv_codec dump_WASMImport restore_WASMImport fmt_WASMImport inv_WASMImport.
  - intros e w (Hn1&Hn2) [out Hf]. unfold fmt_WASMImport. cbn [dump_fmt fseq foldr].
    eapply mbind_ext_at; [by apply fwrite_fp|by apply fwrite_fp|].
    erewrite dump_name_fmt by (first [done | exact Hn1]).
    eapply mbind_ext_at; [by apply DUMP_PTR_fp|by apply DUMP_PTR_fp|].
    erewrite dump_name_fmt by (first [done | exact Hn2]).
    apply mbind_ext; [done|]. intros ? ?. apply mbind_ext; [done|]. intros kind ?.
    unfold fmt_import_data. repeat case_match; cbn [dump_fmt fseq foldr]; repeat fmt_step.
  - unfold rbody_ok. intros. unfold fmt_WASMImport. cbn [restore_fmt fseq foldr].
    do 4 (apply mbind_ext; [reflexivity|intros ? ?]).
    unfold fmt_import_data. repeat case_match; cbn [restore_fmt fseq foldr]; repeat fmt_step.
Defined.

(** * Function instances *)

Definition fmt_func_data (is_import : Z) : fmt :=
  if negb (is_import =? 0) then fseq
    [FPtrD (OFS WASMFunctionInstance "u.func_import") (OFS WASMImport "u.function");
     FPtrD (OFS WASMFunctionInstance "param_types") (OFS WASMType "types")] FDone
  else fseq
    [P WASMFunctionInstance "u.func"; P WASMFunctionInstance "local_offsets";
     FPtrD (OFS WASMFunctionInstance "param_types") (OFS WASMType "types");
     FSet (OFS WASMFunctionInstance "local_types") [(OFS WASMFunctionInstance "u.func", 8)]
       (fun _ vs => match vs with [func] => func + SIZEOF WASMFunction | _ => 0 end)] FDone.

Definition fmt_WASMFunctionInstance : fmt := fseq
  [F WASMFunctionInstance "is_import_func" 1 1; F WASMFunctionInstance "param_count" 2 1;
   F WASMFunctionInstance "local_count" 2 1; F WASMFunctionInstance "param_cell_num" 2 1;
   F WASMFunctionInstance "ret_cell_num" 2 1; F WASMFunctionInstance "local_cell_num" 2 1]
  (FCase (OFS WASMFunctionInstance "is_import_func") 1 fmt_func_data).

(** The function import is that of one of the module's imports, at most as many
    places on as there are live objects. *)
Definition import_of (m : mem) (root : list Pool_Info) (module func_import : Z) : Prop :=
  ∃ n : nat, (n <= length (all_elems root))%nat
    ∧ 0 < ldp m (FLD module WASMModule "import_functions")
    ∧ func_import = FLD (ldp m (FLD module WASMModule "import_functions")
                         + Z.of_nat n * SIZEOF WASMImport) WASMImport "u.function".

(** The parameter types of an instance are those of its function's type. *)
Definition inv_WASMFunctionInstance (m : mem) (root : list Pool_Info) (module : Z)
    (e : Pool_Elem) : Prop :=
  let node := p_raw e in
  let u := ldp m (FLD node WASMFunctionInstance "u.func") in
  let param_types := ldp m (FLD node WASMFunctionInstance "param_types") in
  if negb (load_Z m (FLD node WASMFunctionInstance "is_import_func") 1 =? 0) then
    import_of m root module u
    ∧ param_types = FLD (ldp m (FLD u WASMFunctionImport "func_type")) WASMType "types"
  else param_types = FLD (ldp m (FLD u WASMFunction "func_type")) WASMType "types".

Lemma dump_import_of_ok n import fuel w :
  0 < import → (n < fuel)%nat →
  dump_import_of fuel import (FLD (import + Z.of_nat n * SIZEOF WASMImport) WASMImport "u.function") w
  = DUMP_PTR (import + Z.of_nat n * SIZEOF WASMImport) w.
Proof.
  revert import fuel. induction n as [|n IH]; intros import [|fuel] Hi Hl; try lia; cbn [dump_import_of].
  - rewrite (proj2 (Z.eqb_neq import NULL)) by (unfold NULL; lia).
    rewrite (proj2 (Z.eqb_eq _ _)) by lia. f_equal; lia.
  - rewrite (proj2 (Z.eqb_neq import NULL)) by (unfold NULL; lia).
    rewrite (proj2 (Z.eqb_neq _ _)) by lia.
    replace (import + Z.of_nat (S n) * SIZEOF WASMImport)
      with ((import + SIZEOF WASMImport) + Z.of_nat n * SIZEOF WASMImport) by lia.
    apply IH; lia.
Qed.

Lemma dump_func_data_ok node w out :
  w_fp w = FWrite out →
  inv_WASMFunctionInstance (wmem w) (root_info w) (wasm_module w) (mkElem 0 node 0 charT) →
  (let* is_import_func := ld 1 (FLD node WASMFunctionInstance "is_import_func") in
    if negb (is_import_func =? 0) then
      let* fuel := loop_fuel in
      let* module := gets wasm_module in
      let* import := ld 8 (FLD module WASMModule "import_functions") in
      let* func_import := ld 8 (FLD node WASMFunctionInstance "u.func_import") in
      dump_import_of fuel import func_import ;;;
      DUMP_PTR_AT (FLD func_import WASMFunctionImport "func_type")
    else
      DUMP_PTR_AT (FLD node WASMFunctionInstance "u.func") ;;;
      DUMP_PTR_AT (FLD node WASMFunctionInstance "local_offsets") ;;;
      let* func := ld 8 (FLD node WASMFunctionInstance "u.func") in
      DUMP_PTR_AT (FLD func WASMFunction "func_type")) w
  = dump_fmt (FCase (OFS WASMFunctionInstance "is_import_func") 1 fmt_func_data) node w.
Proof.
  intros Hf Hinv. unfold inv_WASMFunctionInstance in Hinv. cbn [p_raw] in Hinv. cbn [dump_fmt].
  erewrite !(mbind_ok (ld 1 _)) by apply ld_eq. unfold fmt_func_data.
  destruct (negb _); cbn [fseq foldr dump_fmt].
  - destruct Hinv as ((n&Hn&Hi&Hu)&Hp). do 4 erewrite (mbind_ok _ _ w) by reflexivity.
    fold (ldp (wmem w) (FLD (wasm_module w) WASMModule "import_functions")).
    fold (ldp (wmem w) (FLD node WASMFunctionInstance "u.func_import")). rewrite Hu.
    rewrite mbind_assoc. erewrite (mbind_ok (ld 8 _)) by apply ld_eq.
    fold (ldp (wmem w) (FLD node WASMFunctionInstance "u.func_import")). rewrite Hu.
    eapply mbind_ext_at.
    + rewrite dump_import_of_ok by lia. by apply DUMP_PTR_fp.
    + rewrite Z.add_simpl_r. by apply DUMP_PTR_fp.
    + rewrite <- Hu, mbind_skip_r. unfold DUMP_PTR_AT.
      erewrite !(mbind_ok (ld 8 _)) by apply ld_eq. cbn [wmem set_fp].
      fold (ldp (wmem w) (FLD node WASMFunctionInstance "param_types")). rewrite Hp.
      by rewrite Z.add_simpl_r.
  - eapply mbind_ext_at; [by apply DUMP_PTR_fp|by apply DUMP_PTR_fp|].
    eapply mbind_ext_at; [by apply DUMP_PTR_fp|by apply DUMP_PTR_fp|].
    rewrite mbind_skip_r. unfold DUMP_PTR_AT.
    erewrite !(mbind_ok (ld 8 _)) by apply ld_eq. cbn [wmem set_fp].
    fold (ldp (wmem w) (FLD node WASMFunctionInstance "param_types")). rewrite Hinv.
    by rewrite Z.add_simpl_r.
Qed.

#[export] Instance codec_WASMFunctionInstance : Codec WASMFunctionInstanceT.
Proof.
  inv_codec dump_WASMFunctionInstance restore_WASMFunctionInstance fmt_WASMFunctionInstance
    inv_WASMFunctionInstance.
  - intros e w Hinv [out Hf]. unfold fmt_WASMFunctionInstance. cbn [fseq foldr dump_fmt].
    do 6 (eapply mbind_ext_at; [by apply fwrite_fp|by apply fwrite_fp|]).
    eapply (dump_func_data_ok (p_raw e)); [done|exact Hinv].
  - unfold rbody_ok. intros. unfold fmt_WASMFunctionInstance. cbn [restore_fmt fseq foldr].
    do 7 (apply mbind_ext; [reflexivity|intros ? ?]).
    unfold fmt_func_data. case_match; cbn [restore_fmt fseq foldr].
    + rewrite !mbind_assoc. apply mbind_ext; [reflexivity|intros ? ?].
      apply mbind_ext; [reflexivity|intros ? ?]. symmetry. apply mbind_skip_r.
    + do 2 (apply mbind_ext; [reflexivity|intros ? ?]). rewrite !mbind_assoc.
      apply mbind_ext; [reflexivity|intros ? ?]. apply mbind_ext; reflexivity.
Defined.

(** * The execution environment *)

(** The code block that the scan of the functions finds for an entry: none when
    the entry is empty, no answer when the process would end. *)
Fixpoint find_code (m : mem) (k : nat) (p start_addr else_addr end_addr : Z) : option (option Z) :=
  match k with
  | O => None
  | S k =>
      if (start_addr =? NULL) && (else_addr =? NULL) && (end_addr =? NULL) then Some None
      else
        let function := ldp m p in
        let code := ldp m (FLD function WASMFunction "code") in
        let code_size := load_Z m (FLD function WASMFunction "code_size") 4 in
        if in_code code code_size start_addr then Some (Some code)
        else find_code m k (p + 8) start_addr else_addr end_addr
  end.

Definition entry_code (m : mem) (node slot : Z) : option (option Z) :=
  let entry := cache_slot node slot in
  let module := ldp m (FLD (ldp m (FLD node WASMExecEnv "module_inst")) WASMModuleInstance "module") in
  find_code m (Z.to_nat (load_Z m (FLD module WASMModule "function_count") 4))
    (ldp m (FLD module WASMModule "functions"))
    (ldp m (FLD entry BlockAddr "start_addr")) (ldp m (FLD entry BlockAddr "else_addr"))
    (ldp m (FLD entry BlockAddr "end_addr")).

Definition fmt_entry (codes : Z → option Z) (slot : Z) : fmt → fmt :=
  FEntry (OFS WASMExecEnv "block_addr_cache" + slot * SIZEOF BlockAddr) (codes slot).

Definition fmt_WASMExecEnv (codes : Z → option Z) : fmt := fseq
  [P WASMExecEnv "next"; P WASMExecEnv "prev"; P WASMExecEnv "module_inst";
   P WASMExecEnv "attachment"]
  (fseq (map (fmt_entry codes) cache_slots)
  (fseq
    [F WASMExecEnv "wasm_stack_size" 4 1;
     FSet (OFS WASMExecEnv "wasm_stack.s.top") []
       (fun node _ => FLD node WASMExecEnv "wasm_stack.s.bottom");
     FSet (OFS WASMExecEnv "wasm_stack.s.top_boundary") [(OFS WASMExecEnv "wasm_stack_size", 4)]
       (fun node vs => match vs with
                       | [sz] => FLD node WASMExecEnv "wasm_stack.s.bottom" + sz
                       | _ => 0
                       end)] FDone)).

Definition exec_env_codes (m : mem) (e : Pool_Elem) (slot : Z) : option Z :=
  default None (entry_code m (p_raw e) slot).

Definition inv_WASMExecEnv (m : mem) (root : list Pool_Info) (module : Z) (e : Pool_Elem) : Prop :=
  Forall (fun slot => is_Some (entry_code m (p_raw e) slot)) cache_slots.

Lemma CHECK_IP3_start c1 c2 c3 : CHECK_IP3 c1 c2 c3 = c1.
Proof. by destruct c1. Qed.

Lemma dump_cache_entry_ok w out k p s e d oc :
  w_fp w = FWrite out → find_code (wmem w) k p s e d = Some oc →
  dump_cache_entry k p s e d w
  = (match oc with
     | None => DUMP_PTR NULL
     | Some code =>
         DUMP_PTR code ;;;
         fwrite_int FP (uint32 (s - code)) ;;;
         fwrite_int FP (uint32 (e - code)) ;;;
         fwrite_int FP (uint32 (d - code))
     end) w.
Proof.
  intros Hf. revert p. induction k as [|k IH]; intros p Hc; [done|].
  cbn [find_code dump_cache_entry] in *. erewrite mbind_ok by apply ld_eq.
  fold (ldp (wmem w) p). destruct (_ && _ && _); [by simplify_eq|].
  do 2 erewrite mbind_ok by apply ld_eq. rewrite CHECK_IP3_start.
  fold (ldp (wmem w) (FLD (ldp (wmem w) p) WASMFunction "code")).
  destruct (in_code _ _ s); [by simplify_eq|]. auto.
Qed.

Lemma dump_slots_ok node codes k l : ∀ w out,
  w_fp w = FWrite out →
  (∀ slot, In slot l → entry_code (wmem w) node slot = Some (codes slot)) →
  (let* module_inst := ld 8 (FLD node WASMExecEnv "module_inst") in
   mfor l (fun slot =>
    let entry := cache_slot node slot in
    let* start_addr := ld 8 (FLD entry BlockAddr "start_addr") in
    let* else_addr := ld 8 (FLD entry BlockAddr "else_addr") in
    let* end_addr := ld 8 (FLD entry BlockAddr "end_addr") in
    let* module := ld 8 (FLD module_inst WASMModuleInstance "module") in
    let* function_count := ld 4 (FLD module WASMModule "function_count") in
    let* functions := ld 8 (FLD module WASMModule "functions") in
    dump_cache_entry (Z.to_nat function_count) functions start_addr else_addr end_addr) ;;;
   dump_fmt k node) w
  = dump_fmt (fseq (map (fmt_entry codes) l) k) node w.
Proof.
  induction l as [|slot l IH]; intros w out Hf Hc; [done|].
  cbn [map fseq foldr]. unfold fmt_entry at 1. cbn [dump_fmt].
  replace (node + (OFS WASMExecEnv "block_addr_cache" + slot * SIZEOF BlockAddr))
    with (cache_slot node slot) by (unfold cache_slot; lia).
  erewrite (mbind_ok (ld 8 (FLD node WASMExecEnv "module_inst"))) by apply ld_eq.
  cbn [mfor]. rewrite mbind_assoc.
  eapply mbind_ext_at; [|by apply dump_entry_fp|].
  - do 6 erewrite mbind_ok by apply ld_eq.
    erewrite dump_cache_entry_ok; [|done|apply Hc; by left].
    rewrite <- (dump_entry_fp w out (cache_slot node slot) (codes slot)) by done.
    do 3 erewrite (mbind_ok (ld 8 _)) by apply ld_eq. by rewrite Z.add_0_r.
  - specialize (IH (set_fp (FWrite (out ++ enc_entry (wmem w) (dump_base w) (cache_slot node slot)
      (codes slot))) w)). erewrite (mbind_ok (ld 8 _)) in IH by apply ld_eq.
    eapply IH; [done|]. intros. apply Hc. by right.
Qed.

Lemma restore_slots_ok node codes k l w :
  (mfor l (fun slot => restore_cache_entry (cache_slot node slot)) ;;; restore_fmt k node) w
  = restore_fmt (fseq (map (fmt_entry codes) l) k) node w.
Proof.
  revert w. induction l as [|slot l IH]; intros w; [done|].
  cbn [mfor map fseq foldr]. unfold fmt_entry at 1. cbn [restore_fmt]. rewrite mbind_assoc.
  replace (node + (OFS WASMExecEnv "block_addr_cache" + slot * SIZEOF BlockAddr))
    with (cache_slot node slot) by (unfold cache_slot; lia).
  apply mbind_ext; [done|]. intros [] w1. apply IH.
Qed.

#[export] Instance codec_WASMExecEnv : Codec WASMExecEnvT.
Proof.
  refine (buf_codec (t := WASMExecEnvT) dump_WASMExecEnv restore_WASMExecEnv set_r_exec_env
    (fun m e => fmt_WASMExecEnv (exec_env_codes m e)) inv_WASMExecEnv eq_refl eq_refl _
    set_WASMExecEnv _
    (fun _ node =>
      DUMP_PTR_AT (FLD node WASMExecEnv "next") ;;;
      DUMP_PTR_AT (FLD node WASMExecEnv "prev") ;;;
      DUMP_PTR_AT (FLD node WASMExecEnv "module_inst") ;;;
      DUMP_PTR_AT (FLD node WASMExecEnv "attachment") ;;;
      dump_block_addr_cache node ;;;
      fwrite FP (FLD node WASMExecEnv "wasm_stack_size") 4 1)
    (fun _ node =>
      RESTORE_PTR_AT (FLD node WASMExecEnv "next") ;;;
      RESTORE_PTR_AT (FLD node WASMExecEnv "prev") ;;;
      RESTORE_PTR_AT (FLD node WASMExecEnv "module_inst") ;;;
      RESTORE_PTR_AT (FLD node WASMExecEnv "attachment") ;;;
      restore_block_addr_cache node ;;;
      fread FP (FLD node WASMExecEnv "wasm_stack_size") 4 1 ;;;
      st 8 (FLD node WASMExecEnv "wasm_stack.s.top")
        (FLD node WASMExecEnv "wasm_stack.s.bottom") ;;;
      let* wasm_stack_size := ld 4 (FLD node WASMExecEnv "wasm_stack_size") in
      st 8 (FLD node WASMExecEnv "wasm_stack.s.top_boundary")
        (FLD node WASMExecEnv "wasm_stack.s.bottom" + wasm_stack_size)) _ _ _ _);
    [by auto with mig|by auto with mig|..].
  - intros src w [out Hf]. unfold dump_WASMExecEnv, HEADER_DUMP_BUF.
    erewrite mbind_ok by (by apply dump_header_fp).
    erewrite (mbind_ok (dump_header _ _ _)) by (by apply dump_header_fp). done.
  - intros dst w. reflexivity.
  - intros e w Hinv [out Hf]. unfold fmt_WASMExecEnv. cbn [fseq foldr dump_fmt].
    do 4 (eapply mbind_ext_at; [by apply DUMP_PTR_fp|by apply DUMP_PTR_fp|]).
    erewrite <- (dump_slots_ok (p_raw e) (exec_env_codes (wmem w) e)); [|reflexivity|].
    + unfold dump_block_addr_cache. rewrite mbind_assoc.
      apply mbind_ext; [done|]. intros mi w1. apply mbind_ext; [done|]. intros [] w2.
      symmetry. apply mbind_skip_r.
    + intros slot Hs. unfold exec_env_codes. simpl. unfold inv_WASMExecEnv in Hinv.
      rewrite Forall_forall in Hinv. destruct (Hinv slot) as [oc ->]; [by apply list_elem_of_In|].
      done.
  - intros m e e' w _ _. unfold fmt_WASMExecEnv. cbn [fseq foldr restore_fmt].
    do 4 (apply mbind_ext; [reflexivity|intros ? ?]).
    rewrite <- restore_slots_ok. apply mbind_ext; [done|]. intros ? ?.
    cbn [fseq foldr restore_fmt]. do 2 (apply mbind_ext; [reflexivity|intros ? ?]).
    symmetry. apply mbind_skip_r.
Defined.

(** * Theorems *)

Lemma dump_str_node_miss m p ns name w fuel :
  wmem w = m → str_list m p ns → ¬ In (name - SIZEOF StringNode) ns → (length ns < fuel)%nat →
  dump_str_node fuel p name w = Ok tt w.
Proof.
  intros Hm H. revert fuel. induction H as [|p ns Hp Hs H IH]; intros [|fuel] Hin Hl;
    [simpl in Hl; lia|done|simpl in Hl; lia|]. cbn [dump_str_node].
  rewrite (proj2 (Z.eqb_neq p NULL)) by done.
  erewrite mbind_ok by apply ld_eq. rewrite Hm. fold (ldp m (FLD p StringNode "str")). rewrite Hs.
  destruct (Z.eqb_spec (p + SIZEOF StringNode) name) as [E|E]; [destruct Hin; left; lia|].
  erewrite mbind_ok by apply ld_eq. rewrite Hm.
  apply IH; [|simpl in Hl; lia]. intros ?. apply Hin. by right.
Qed.

(** The name of an export or import, if it is a text of the module's string list,
    is found by the search, which ends, and written as the pool offset of its
    string node; a name that is not in the list is passed over: the record gets no
    byte for it, although the restore routine reads four. *)
Theorem name_written w name ns out :
  str_list (wmem w) (ldp (wmem w) (FLD (wasm_module w) WASMModule "const_str_list")) ns →
  (∀ n, In n ns → In n (map p_raw (all_elems (root_info w)))) → w_fp w = FWrite out →
  dump_name name w
  = Ok tt (if bool_decide (name - SIZEOF StringNode ∈ ns)
           then set_fp (FWrite (out ++ enc_ptr (dump_base w) (name - SIZEOF StringNode))) w else w).
Proof.
  intros Hl Hr Hf. case_bool_decide as Hin; rewrite list_elem_of_In in Hin.
  - rewrite dump_name_ok by (by exists ns). by apply DUMP_PTR_fp.
  - unfold dump_name. do 3 erewrite mbind_ok by reflexivity. eapply dump_str_node_miss; [done|exact Hl|done|].
    pose proof (named_fuel ns (root_info w) (str_list_NoDup _ _ _ Hl) Hr). lia.
Qed.

(** The null [else_addr] of a cache entry for an [if] without [else] does not
    survive: only [start_addr] is looked for, the null is written as a distance
    from the code, and read back it is an address that is not null. *)
Theorem cache_else_lost w k p entry code out :
  w_fp w = FWrite out →
  ldp (wmem w) (FLD entry BlockAddr "else_addr") = NULL →
  find_code (wmem w) k p (ldp (wmem w) (FLD entry BlockAddr "start_addr")) NULL
    (ldp (wmem w) (FLD entry BlockAddr "end_addr")) = Some (Some code) →
  ∃ bs, dump_cache_entry k p (ldp (wmem w) (FLD entry BlockAddr "start_addr")) NULL
          (ldp (wmem w) (FLD entry BlockAddr "end_addr")) w = Ok tt (set_fp (FWrite (out ++ bs)) w)
    ∧ ∀ w' entry' code' rest,
       reloc_obj (dump_base w) (root_info w') code = Some code' → 0 < code' < 2 ^ 64 - 2 ^ 32 →
       w_fp w' = FRead (bs ++ rest) →
       ∃ m', restore_cache_entry entry' w' = Ok tt (set_mem m' (set_fp (FRead rest) w'))
         ∧ ldp m' (FLD entry' BlockAddr "else_addr") = uint32 (- code) + code'
         ∧ ldp m' (FLD entry' BlockAddr "else_addr") ≠ NULL.
Proof.
  intros Hf He Hc. exists (enc_entry (wmem w) (dump_base w) entry (Some code)). split.
  - erewrite dump_cache_entry_ok by done.
    rewrite <- (dump_entry_fp w out entry (Some code) Hf).
    do 3 erewrite (mbind_ok (ld 8 _)) by apply ld_eq.
    fold (ldp (wmem w) entry) (ldp (wmem w) (entry + 8)) (ldp (wmem w) (entry + 16)).
    rewrite Z.add_0_r in *. by rewrite He.
  - intros w' entry' code' rest Hr Hb Hf'. eexists.
    split; [eapply restore_entry_app; [exact Hf'|exact Hr]|].
    rewrite entry_mem_load by (simpl; tauto). rewrite He, Z.sub_0_l.
    pose proof (wrap_range 32 (- code) ltac:(lia)). fold uint32 in *.
    change (wrap 32 (- code)) with (uint32 (- code)) in *.
    unfold uint64. rewrite wrap_small by lia. unfold NULL. lia.
Qed.

(** ** A string list of one node and a function *)

Definition search_mem : mem :=
  foldl (fun m p => store_Z m p.1 8 p.2) ∅
    [(FLD 4352 WASMModule "const_str_list", 8192);
     (FLD 8192 StringNode "next", NULL); (FLD 8192 StringNode "str", 8192 + SIZEOF StringNode);
     (12288, 12544); (FLD 12544 WASMFunction "code_size", 64); (FLD 12544 WASMFunction "code", 16384);
     (FLD 20480 BlockAddr "start_addr", 16390); (FLD 20480 BlockAddr "else_addr", NULL);
     (FLD 20480 BlockAddr "end_addr", 16400)].

Definition search_world (fp : file) : world :=
  mkWorld search_mem fp FClosed
    [mkInfo (mkElem 4096 8192 4 StringNodeT) []; mkInfo (mkElem 12288 16384 64 uint8T) []]
    [] 4096 4096 4352 0 0 0 0.

Lemma search_list : str_list search_mem 8192 [8192].
Proof. constructor; [discriminate|vm_compute; reflexivity|]. vm_compute. constructor. Qed.

Lemma search_live n :
  In n [8192] → In n (map p_raw (all_elems (root_info (search_world (FWrite []))))).
Proof. intros [<-|[]]. vm_compute. tauto. Qed.

Lemma name_written_witness :
  dump_name (8192 + SIZEOF StringNode) (search_world (FWrite []))
  = Ok tt (search_world (FWrite (le_bytes 4 4096)))
  ∧ dump_name 4000 (search_world (FWrite [])) = Ok tt (search_world (FWrite [])).
Proof.
  split.
  - exact (name_written (search_world (FWrite [])) (8192 + SIZEOF StringNode) [8192] []
             search_list search_live eq_refl).
  - exact (name_written (search_world (FWrite [])) 4000 [8192] [] search_list search_live eq_refl).
Defined.

Lemma cache_else_lost_witness :
  ∃ bs m', dump_cache_entry 1 12288 16390 NULL 16400 (search_world (FWrite []))
           = Ok tt (search_world (FWrite bs))
    ∧ restore_cache_entry 65536 (search_world (FRead bs)) = Ok tt (set_mem m' (search_world (FRead [])))
    ∧ ldp m' (FLD 65536 BlockAddr "else_addr") ≠ NULL.
Proof.
  destruct (cache_else_lost (search_world (FWrite [])) 1 12288 20480 16384 []) as (bs&H1&H2);
    [reflexivity|vm_compute; reflexivity|vm_compute; reflexivity|].
  destruct (H2 (search_world (FRead bs)) 65536 16384 []) as (m'&H3&_&H4);
    [vm_compute; reflexivity|lia|by rewrite app_nil_r|].
  exists bs, m'. split; [exact H1|]. split; [exact H3|exact H4].
Defined.
