(* ===== verification/Heap.v ===== *)
(** The whole heap: the codecs of all kinds together, and the loops over the
    object table.  [dump_objects] is the part of [dump_runtime] that writes
    dump.img, [restore_internal] the one that reads it. *)
From stdpp Require Import base gmap list numbers strings.
From Stdlib Require Import Strings.Byte ZArith Lia.
From S2P Require Import Prelude CMemory WasmTypes PoolInfo Dump Restore Format Codec Records.
From S2P Require Import Searches.

(** * The kinds that migrate *)

Definition codec_of (t : Data_Type) : option (Codec t) :=
  match t with
  | charT => Some _
  | charTT => Some _
  | uint8T => Some _
  | uint16T => Some _
  | uint32T => Some _
  | uint64T => Some _
  | WASMExecEnvT => Some _
  | WASMModuleMemConsumptionT => Some _
  | WASMModuleInstMemConsumptionT => Some _
  | WASMSectionT => Some _
  | WASMModuleT => Some _
  | WASMFunctionT => Some _
  | WASMFunctionTT => Some _
  | WASMGlobalT => Some _
  | WASMExportT => Some _
  | V128T => Some _
  | WASMValueT => Some _
  | InitializerExpressionT => Some _
  | WASMTypeT => Some _
  | WASMTypeTT => Some _
  | WASMTableT => Some _
  | WASMMemoryT => Some _
  | WASMImportT => Some _
  | WASMTableSegT => Some _
  | WASMDataSegT => Some _
  | WASMDataSegTT => Some _
  | StringNodeT => Some _
  | ConstT => Some _
  | WASMModuleInstanceT => Some _
  | WASMFunctionInstanceT => Some _
  | WASMMemoryInstanceT => Some _
  | WASMMemoryInstanceTT => Some _
  | WASMTableInstanceT => Some _
  | WASMTableInstanceTT => Some _
  | WASMGlobalInstanceT => Some _
  | WASMExportFuncInstanceT => Some _
  | _ => None
  end.

(** * Well-formedness of every record *)

(** What makes the record of an object well formed: a size that is not negative
    where it counts, and no reference tag in a global instance. *)
Definition wf_cond {t} (c : Codec t) (m : mem) (e : Pool_Elem) : Prop :=
  (c_pre (t := t) ≠ PAbs → 0 <= size e)
  ∧ (t = WASMGlobalInstanceT →
     load_Z m (FLD (p_raw e) WASMGlobalInstance "type") 1
       ∉ [INIT_EXPR_TYPE_FUNCREF_CONST; INIT_EXPR_TYPE_REFNULL_CONST]).

Lemma wf_init_expr m node done o k :
  fresh_in (o, 1) done → fresh_in (o + 8, 16) done →
  (∀ p, In p init_widths → wf_fmt m node (IFld (o + 8) p.1 p.2 :: IFld o 1 1 :: done) k) →
  wf_fmt m node done (fmt_init_expr o k).
Proof.
  intros H1 H2 Hk. cbn [wf_fmt fmt_init_expr]. split_and!; try lia; [done|simpl; tauto|].
  apply wf_init_value; [|done]. destruct H2 as [? H2]. split; [simpl; lia|].
  constructor; [unfold disjoint_region; simpl; lia|done].
Qed.

Lemma wf_ptrs m node n : ∀ i done,
  Forall (fun it => ∃ j, item_region it = (j * 8, 8) ∧ j < i) done →
  wf_fmt m node done (fseq (map (fun i => FPtr (i * 8)) (seqZ i (Z.of_nat n))) FDone).
Proof.
  induction n as [|n IH]; intros i dn H; [done|].
  rewrite seqZ_cons by lia. replace (Z.pred (Z.of_nat (S n))) with (Z.of_nat n) by lia.
  cbn [map fseq foldr wf_fmt]. split.
  - split; [simpl; lia|]. eapply Forall_impl; [exact H|].
    intros it (j&->&?). unfold disjoint_region. simpl. lia.
  - apply IH. constructor; [exists i; split; [done|lia]|].
    eapply Forall_impl; [exact H|]. intros it (j&?&?). exists j. split; [done|lia].
Qed.

Lemma wf_fmt_ptrs m node sz : wf_fmt m node [] (fmt_ptrs sz).
Proof.
  unfold fmt_ptrs. destruct (Z.le_gt_cases 0 sz).
  - rewrite <- (Z2Nat.id sz) by done. by apply wf_ptrs.
  - unfold seqZ. by replace (Z.to_nat sz) with O by lia.
Qed.

(** A field of [0 <= n] bytes behind the fields in [dn]. *)
Lemma fresh_in_tail o n dn :
  0 <= n → forallb (fun i => (item_region i).1 + (item_region i).2 <=? o) dn = true →
  fresh_in (o, n) dn.
Proof.
  intros Hn H. split; [done|]. apply Forall_forall. intros i Hi%list_elem_of_In.
  rewrite forallb_forall in H. specialize (H i Hi). zbool. unfold disjoint_region. simpl. lia.
Qed.

Lemma wf_WASMFunction m node : wf_fmt m node [] fmt_WASMFunction.
Proof.
  unfold fmt_WASMFunction. cbn [fseq foldr wf_fmt].
  split_and!; try (apply fresh_inb_ok; reflexivity); try lia; try (by constructor); try (simpl; tauto).
  - by apply load_Z_nonneg.
  - apply fresh_in_tail; [by apply load_Z_nonneg|done].
Qed.

Lemma wf_WASMType m node : wf_fmt m node [] fmt_WASMType.
Proof.
  unfold fmt_WASMType. cbn [fseq foldr wf_fmt].
  pose proof (load_Z_nonneg m (node + OFS WASMType "param_count") 2).
  pose proof (load_Z_nonneg m (node + OFS WASMType "result_count") 2).
  split_and!; try (apply fresh_inb_ok; reflexivity); try lia; try (simpl; tauto).
  apply fresh_in_tail; [lia|done].
Qed.

Lemma wf_StringNode m node sz : 0 <= sz → wf_fmt m node [] (fmt_StringNode sz).
Proof.
  intros. unfold fmt_StringNode. cbn [fseq foldr wf_fmt].
  split_and!; try (apply fresh_inb_ok; reflexivity); try lia; try (by constructor);
    try (simpl; tauto). by apply fresh_in_tail.
Qed.

Lemma wf_WASMTableInstance m node sz : wf_fmt m node [] (fmt_WASMTableInstance sz).
Proof.
  unfold fmt_WASMTableInstance. cbn [fseq foldr wf_fmt].
  pose proof (wrap_range 64 sz). fold uint64 in *. change (wrap 64 sz) with (uint64 sz) in *.
  split_and!; try (apply fresh_inb_ok; reflexivity); try lia. apply fresh_in_tail; [lia|done].
Qed.

Lemma wf_buffer m node elem sz : 0 <= elem → 0 <= sz → wf_fmt m node [] (fmt_buffer elem sz).
Proof. intros. split_and!; try done. split; [simpl; lia|done]. Qed.

Lemma wf_InitializerExpression m node : wf_fmt m node [] fmt_InitializerExpression.
Proof. by apply wf_init_expr; [apply fresh_inb_ok..|]. Qed.

Lemma wf_WASMGlobal m node : wf_fmt m node [] fmt_WASMGlobal.
Proof.
  unfold fmt_WASMGlobal. cbn [fseq foldr wf_fmt].
  split_and!; try (apply fresh_inb_ok; reflexivity); try lia.
  by apply wf_init_expr; [apply fresh_inb_ok..|].
Qed.

Lemma wf_WASMTableSeg m node : wf_fmt m node [] fmt_WASMTableSeg.
Proof.
  unfold fmt_WASMTableSeg. cbn [fseq foldr wf_fmt].
  split_and!; try (apply fresh_inb_ok; reflexivity); try lia.
  apply wf_init_expr; [by apply fresh_inb_ok..|]. by intros p [<-|[<-|[<-|[]]]]; apply wf_fmtb_ok.
Qed.

Lemma wf_WASMDataSeg m node : wf_fmt m node [] fmt_WASMDataSeg.
Proof.
  unfold fmt_WASMDataSeg. cbn [fseq foldr wf_fmt].
  split_and!; try (apply fresh_inb_ok; reflexivity); try lia.
  apply wf_init_expr; [by apply fresh_inb_ok..|]. by intros p [<-|[<-|[<-|[]]]]; apply wf_fmtb_ok.
Qed.

Lemma wf_WASMGlobalInstance m node :
  load_Z m (FLD node WASMGlobalInstance "type") 1
    ∉ [INIT_EXPR_TYPE_FUNCREF_CONST; INIT_EXPR_TYPE_REFNULL_CONST] →
  wf_fmt m node [] fmt_WASMGlobalInstance.
Proof.
  intros Ht. unfold fmt_WASMGlobalInstance. cbn [fseq foldr wf_fmt].
  split_and!; try (apply fresh_inb_ok; reflexivity); try lia; try (simpl; tauto).
  unfold fmt_global_value. rewrite !not_elem_of_cons in Ht. destruct Ht as (?&?&_).
  rewrite !(proj2 (Z.eqb_neq _ _)) by done. simpl orb.
  by apply wf_init_value; [apply fresh_inb_ok|].
Qed.

Lemma wf_WASMImport m node : wf_fmt m node [] fmt_WASMImport.
Proof.
  unfold fmt_WASMImport. cbn [fseq foldr wf_fmt].
  split_and!; try (apply fresh_inb_ok; reflexivity); try lia; try (simpl; tauto).
  unfold fmt_import_data. repeat case_match; by apply wf_fmtb_ok; vm_compute.
Qed.

Lemma wf_WASMFunctionInstance m node : wf_fmt m node [] fmt_WASMFunctionInstance.
Proof.
  unfold fmt_WASMFunctionInstance. cbn [fseq foldr wf_fmt].
  split_and!; try (apply fresh_inb_ok; reflexivity); try lia; try (simpl; tauto).
  unfold fmt_func_data. case_match; by apply wf_fmtb_ok; vm_compute.
Qed.

Lemma codec_wf t c m e :
  codec_of t = Some c → wf_cond c m e → wf_fmt m (p_raw e) [] (c_fmt m e).
Proof.
  intros Hc [Hsz Hg].
  destruct t; inversion Hc; subst c; clear Hc;
    lazymatch goal with
    | |- context [@c_fmt charTT _] => apply wf_fmt_ptrs
    | |- context [@c_fmt WASMFunctionTT _] => apply wf_fmt_ptrs
    | |- context [@c_fmt WASMTypeTT _] => apply wf_fmt_ptrs
    | |- context [@c_fmt WASMDataSegTT _] => apply wf_fmt_ptrs
    | |- context [@c_fmt WASMMemoryInstanceTT _] => apply wf_fmt_ptrs
    | |- context [@c_fmt WASMTableInstanceTT _] => apply wf_fmt_ptrs
    | |- context [@c_fmt charT _] => apply wf_buffer; [lia|by apply Hsz]
    | |- context [@c_fmt uint8T _] => apply wf_buffer; [lia|by apply Hsz]
    | |- context [@c_fmt uint16T _] => apply wf_buffer; [lia|by apply Hsz]
    | |- context [@c_fmt uint32T _] => apply wf_buffer; [lia|by apply Hsz]
    | |- context [@c_fmt uint64T _] => apply wf_buffer; [lia|by apply Hsz]
    | |- context [@c_fmt WASMFunctionT _] => apply wf_WASMFunction
    | |- context [@c_fmt WASMTypeT _] => apply wf_WASMType
    | |- context [@c_fmt StringNodeT _] => apply wf_StringNode; by apply Hsz
    | |- context [@c_fmt WASMTableInstanceT _] => apply wf_WASMTableInstance
    | |- context [@c_fmt InitializerExpressionT _] => apply wf_InitializerExpression
    | |- context [@c_fmt WASMGlobalT _] => apply wf_WASMGlobal
    | |- context [@c_fmt WASMTableSegT _] => apply wf_WASMTableSeg
    | |- context [@c_fmt WASMDataSegT _] => apply wf_WASMDataSeg
    | |- context [@c_fmt WASMGlobalInstanceT _] => by apply wf_WASMGlobalInstance, Hg
    | |- context [@c_fmt WASMImportT _] => apply wf_WASMImport
    | |- context [@c_fmt WASMFunctionInstanceT _] => apply wf_WASMFunctionInstance
    | _ => apply wf_fmtb_ok; vm_compute; reflexivity
    end.
Qed.

(** * Writing dump.img *)

(** The kinds that [dump_runtime] passes over. *)
Definition dump_skipped (t : Data_Type) : bool :=
  match t with
  | gc_heap_tT | WASIContextT | WASI_FILE_T | NativeSymbolsNodeT | fd_prestatsT | fd_tableT
  | argv_environ_valuesT => true
  | _ => false
  end.

Definition dump_object (info : Pool_Info) : C unit :=
  if dump_skipped (type info) then skip
  else match dump_data (type info) with
       | Some d => d info
       | None => mstuck
       end.

Definition dump_objects (root : list Pool_Info) : C unit := mfor root dump_object.

(** Worlds that differ in the streams and the statics of a pass only. *)
Record same_heap (w w' : world) : Prop := {
  sh_mem : wmem w' = wmem w;
  sh_root : root_info w' = root_info w;
  sh_frame : root_frame w' = root_frame w;
  sh_pool : pool_allocator w' = pool_allocator w;
  sh_base : dump_base w' = dump_base w;
  sh_module : wasm_module w' = wasm_module w
}.

#[export] Instance same_heap_equiv : Equivalence same_heap.
Proof.
  split.
  - by intros w.
  - intros w w' []. by constructor.
  - intros w1 w2 w3 [] []. constructor; congruence.
Qed.

Lemma same_heap_fp f w : same_heap w (set_fp f w).
Proof. done. Qed.
Lemma same_heap_gp f w : same_heap w (set_gp f w).
Proof. done. Qed.
Lemma same_heap_static g p w : static_update g → same_heap w (g p w).
Proof. intros []. by constructor. Qed.
#[export] Hint Resolve same_heap_fp same_heap_gp same_heap_static : mig.

Definition info_bytes (m : mem) (base : Z) (i : Pool_Info) : list byte :=
  match codec_of (type i) with
  | Some c => header_bytes (type i) i ++ body_bytes m base c_pre (c_fmt m) i
  | None => []
  end.

Definition heap_bytes (m : mem) (base : Z) (root : list Pool_Info) : list byte :=
  concat (map (info_bytes m base) root).

(** An object that adds nothing to dump.img (it is skipped, its routine does
    nothing, or it is a frame, which goes to frame.img). *)
Definition silent (w : world) (i : Pool_Info) : Prop := ∀ w1,
  same_heap w w1 → (∃ g, w_gp w1 = FWrite g) →
  ∃ w2 g2, dump_object i w1 = Ok tt w2 ∧ same_heap w1 w2 ∧ w_fp w2 = w_fp w1 ∧ w_gp w2 = FWrite g2.

Definition dumpable (w : world) (i : Pool_Info) : Prop :=
  match codec_of (type i) with
  | Some c => Forall (fun e => c_inv (wmem w) (root_info w) (wasm_module w) e
                               ∧ wf_cond c (wmem w) e) (objs c_pre i)
  | None => silent w i
  end.

#[export] Instance silent_proper : Proper (same_heap ==> eq ==> iff) silent.
Proof.
  intros w w' Hw i i' <-. unfold silent. split; intros H w1 Hs; apply H.
  - by transitivity w'.
  - transitivity w; [by symmetry|done].
Qed.

#[export] Instance dumpable_proper : Proper (same_heap ==> eq ==> iff) dumpable.
Proof.
  intros w w' Hw i i' <-. unfold dumpable. destruct (codec_of (type i)) as [c|].
  - destruct Hw as [-> -> _ _ _ ->]. done.
  - by rewrite Hw.
Qed.

Lemma codec_not_skipped t c : codec_of t = Some c → dump_skipped t = false.
Proof. by destruct t. Qed.

Lemma dump_object_ok i w out g :
  w_fp w = FWrite out → w_gp w = FWrite g → dumpable w i →
  ∃ w1 g1, dump_object i w = Ok tt w1 ∧ same_heap w w1
    ∧ w_fp w1 = FWrite (out ++ info_bytes (wmem w) (dump_base w) i) ∧ w_gp w1 = FWrite g1.
Proof.
  intros Hf Hg Hd. unfold dumpable, info_bytes in *. destruct (codec_of (type i)) as [c|] eqn:E.
  - unfold dump_object. rewrite (codec_not_skipped _ c E), c_dump_data.
    erewrite c_dump_ok; [|exact Hf|].
    + do 2 eexists. split; [done|]. pose proof (c_deff_static (Codec := c)) as Hst.
      split; [etransitivity; [|by apply same_heap_static]; done|].
      by rewrite (su_fp _ Hst), (su_gp _ Hst).
    + eapply Forall_impl; [exact Hd|]. intros e [? ?]. split; [done|]. by apply codec_wf.
  - destruct (Hd w) as (w1&g1&?&?&Hf1&?); [done|by exists g|]. exists w1, g1.
    rewrite app_nil_r. split_and!; try done. congruence.
Qed.

Lemma dump_objects_ok root : ∀ w out g,
  w_fp w = FWrite out → w_gp w = FWrite g → Forall (dumpable w) root →
  ∃ w1 g1, dump_objects root w = Ok tt w1 ∧ same_heap w w1
    ∧ w_fp w1 = FWrite (out ++ heap_bytes (wmem w) (dump_base w) root) ∧ w_gp w1 = FWrite g1.
Proof.
  induction root as [|i root IH]; intros w out g Hf Hg Hd; cbn [dump_objects mfor].
  - exists w, g. unfold heap_bytes. simpl. by rewrite app_nil_r.
  - inversion Hd as [|? ? Hi Hr]; subst.
    destruct (dump_object_ok i w out g) as (w1&g1&Hr1&Hs1&Hf1&Hg1); try done.
    erewrite mbind_ok by exact Hr1.
    destruct (IH w1 _ g1 Hf1 Hg1) as (w2&g2&Hr2&Hs2&Hf2&Hg2).
    { eapply Forall_impl; [exact Hr|]. intros j. by rewrite Hs1. }
    exists w2, g2. split; [done|]. split; [by transitivity w1|].
    rewrite Hf2, (sh_mem _ _ Hs1), (sh_base _ _ Hs1). unfold heap_bytes. simpl.
    by rewrite <- app_assoc.
Qed.

(** * Reading dump.img *)

(** The objects of a record and the nodes that receive them. *)
Definition elem_pairs (p : Pool_Info * Pool_Info) : list (Pool_Elem * Pool_Elem) :=
  match codec_of (type p.1) with
  | Some c => zip (objs c_pre p.1) (objs c_pre p.2)
  | None => []
  end.

Definition obj_fmt (t : Data_Type) (m : mem) (e : Pool_Elem) : fmt :=
  match codec_of t with Some c => c_fmt m e | None => FDone end.

Definition info_foots (m : mem) (p : Pool_Info * Pool_Info) : list (list region) :=
  map (foot m (obj_fmt (type p.1) m)) (elem_pairs p).

Definition info_foot (m : mem) (p : Pool_Info * Pool_Info) : list region :=
  concat (info_foots m p).

(** What one record asks: its node is the one the table gives for its offset,
    its pointers and buffers can be restored. *)
Record info_ok (base : Z) (root' : list Pool_Info) (m : mem) (p : Pool_Info * Pool_Info) : Prop := {
  io_match : match_info p.1 p.2;
  io_abs : p_abs p.1 ≠ -1;
  io_find : find_info (fun e => p_abs p.1 =? p_abs e) root' = Some p.2;
  io_elems : Forall (pair_ok base root' m (obj_fmt (type p.1) m)) (elem_pairs p);
  io_apart : ForallOrdPairs (fun a b => apart (foot m (obj_fmt (type p.1) m) a)
                                              (foot m (obj_fmt (type p.1) m) b)) (elem_pairs p)
}.

(** The restored objects of a record are the source objects, relocated. *)
Definition info_rel (base : Z) (root' : list Pool_Info) (m m' : mem)
    (p : Pool_Info * Pool_Info) : Prop :=
  Forall (pair_rel base root' m (obj_fmt (type p.1) m) m') (elem_pairs p).

(** Worlds of the restoring process with the same table. *)
Record same_table (w w' : world) : Prop := {
  st_root : root_info w' = root_info w;
  st_frame : root_frame w' = root_frame w;
  st_pool : pool_allocator w' = pool_allocator w;
  st_gp : w_gp w' = w_gp w
}.

#[export] Instance same_table_equiv : Equivalence same_table.
Proof.
  split.
  - by intros w.
  - intros w w' []. by constructor.
  - intros w1 w2 w3 [] []. constructor; congruence.
Qed.

(** The new address of the last object of kind [t] among [ps]. *)
Definition last_of (t : Data_Type) (ps : list (Pool_Info * Pool_Info)) (d : Z) : Z :=
  foldl (fun a (p : Pool_Info * Pool_Info) => if decide (type p.1 = t) then p_raw p.2 else a) d ps.

(** The statics of wasm_restore.c point to the module, the instance and the
    execution environment that were read last. *)
Record statics_set (ps : list (Pool_Info * Pool_Info)) (w w1 : world) : Prop := {
  ss_module : r_module w1 = last_of WASMModuleT ps (r_module w);
  ss_inst : r_module_inst w1 = last_of WASMModuleInstanceT ps (r_module_inst w);
  ss_env : r_exec_env w1 = last_of WASMExecEnvT ps (r_exec_env w)
}.

Lemma last_of_in t (ps : list (Pool_Info * Pool_Info)) d :
  (∃ p : Pool_Info * Pool_Info, p ∈ ps ∧ type p.1 = t) →
  ∃ p : Pool_Info * Pool_Info, p ∈ ps ∧ type p.1 = t ∧ p_raw p.2 = last_of t ps d.
Proof.
  unfold last_of. induction ps as [|q ps IH] using rev_ind; intros (p&Hp&Ht).
  - by apply not_elem_of_nil in Hp.
  - rewrite foldl_snoc. case_decide as Hq.
    + exists q. split; [|done]. apply elem_of_app. right. by left.
    + apply elem_of_app in Hp as [Hp| ->%list_elem_of_singleton]; [|done].
      destruct IH as (r&Hr&?&?); [by exists p|]. exists r. split; [|done].
      apply elem_of_app. by left.
Qed.

Lemma c_reff_statics t (c : Codec t) (p : Pool_Info * Pool_Info) w : codec_of t = Some c →
  type p.1 = t → statics_set [p] w (c_reff (p_raw p.2) w).
Proof.
  intros Hc Ht. destruct t; inversion Hc; subst c;
    constructor; unfold last_of; cbn [foldl]; rewrite Ht; reflexivity.
Qed.

(** The outcome of the loop over the records [ps]. *)
Definition heap_restored (base : Z) (m : mem) (w : world) (ps : list (Pool_Info * Pool_Info))
    (w1 : world) : Prop :=
  same_table w w1 ∧ w_fp w1 = FRead []
  ∧ Forall (info_rel base (root_info w) m (wmem w1)) ps
  ∧ unchanged_outside (concat (map (info_foot m) ps)) (wmem w) (wmem w1)
  ∧ statics_set ps w w1.

Lemma info_rel_preserved base root' m p rs m1 m2 :
  info_ok base root' m p → apart (info_foot m p) rs → unchanged_outside rs m1 m2 →
  info_rel base root' m m1 p → info_rel base root' m m2 p.
Proof.
  intros Hok Hap Hu HF. pose proof (io_elems _ _ _ _ Hok) as Hel.
  unfold info_rel in *. rewrite Forall_forall in HF, Hel |- *. intros q Hq.
  eapply pair_rel_preserved; [by apply Hel| |exact Hu|by apply HF].
  intros r s Hr Hs. apply Hap; [|done]. unfold info_foot, info_foots. apply in_concat.
  eexists. split; [|exact Hr].
  apply (in_map (foot m (obj_fmt (type p.1) m))). by apply list_elem_of_In.
Qed.

Lemma header_app w t e rest :
  - 2 ^ 31 <= p_abs e < 2 ^ 31 →
  w_fp w = FRead (header_bytes t e ++ rest) →
  (let* t := fread_int FP in
   let* sz := fread_int FP in
   let* abs := fread_int FP in
   let* info := get_info abs in
   call_restore t info) w
  = (let* info := get_info (p_abs e) in call_restore (type_code t) info)
      (set_fp (FRead rest) w).
Proof.
  intros Ha Hf. unfold header_bytes in Hf. rewrite <- !app_assoc in Hf.
  erewrite mbind_ok by (by apply fread_int_app).
  do 2 erewrite (mbind_ok (fread_int FP)) by (by apply fread_int_app).
  rewrite (int32_small (p_abs e)) by done.
  rewrite (int32_small (type_code t)) by (pose proof (type_code_range t); unfold ERRORT in *; lia).
  done.
Qed.

Lemma restore_record_ok base m (p : Pool_Info * Pool_Info) w rest c :
  codec_of (type p.1) = Some c →
  w_fp w = FRead (info_bytes m base p.1 ++ rest) →
  info_ok base (root_info w) m p →
  ∃ w1, restore_record w = Ok tt w1
    ∧ same_table w w1 ∧ w_fp w1 = FRead rest
    ∧ info_rel base (root_info w) m (wmem w1) p
    ∧ unchanged_outside (info_foot m p) (wmem w) (wmem w1)
    ∧ statics_set [p] w w1.
Proof.
  intros Hc Hf [Hm Ha Hfi Hel Hap]. unfold info_bytes in Hf. rewrite Hc in Hf.
  rewrite <- app_assoc in Hf. unfold restore_record. destruct Hm as [Hh Hch].
  erewrite header_app; [|apply Hh|exact Hf].
  unfold mbind, get_info. rewrite (proj2 (Z.eqb_neq (p_abs p.1) (-1))) by done.
  cbn [root_info set_fp]. rewrite Hfi. unfold call_restore.
  rewrite type_of_code_code, c_restore_data.
  unfold elem_pairs, obj_fmt in Hel, Hap. rewrite Hc in Hel, Hap.
  destruct (c_restore_ok (Codec := c) m base p.1 p.2
      (set_fp (FRead (body_bytes m base c_pre (c_fmt m) p.1 ++ rest)) w) rest)
    as (m'&Hr&HF&Hu); [done|by split|done|done|].
  rewrite Hr. eexists. split; [done|].
  pose proof (c_reff_static (Codec := c)) as Hst.
  unfold info_rel, info_foot, info_foots, elem_pairs, obj_fmt. rewrite Hc.
  pose proof (c_reff_statics _ c p (set_mem m' (set_fp (FRead rest) w)) Hc eq_refl) as [? ? ?].
  rewrite (su_mem _ Hst), (su_fp _ Hst). split_and!; try done.
  constructor; by rewrite ?(su_root _ Hst), ?(su_frame _ Hst), ?(su_pool _ Hst), ?(su_gp _ Hst).
Qed.

Lemma length_info_bytes m base (i : Pool_Info) c :
  codec_of (type i) = Some c → (12 <= length (info_bytes m base i))%nat.
Proof.
  intros Hc. unfold info_bytes. rewrite Hc. unfold header_bytes.
  rewrite !length_app, !length_le_bytes. lia.
Qed.

Lemma at_eof_fp w bs : w_fp w = FRead bs → at_eof FP w = Ok (Z.of_nat (length bs) <? 4) w.
Proof. intros H. unfold at_eof, gets. simpl. by rewrite H. Qed.

(** The loop runs once per record and stops at the end of the file. *)
Lemma restore_loop_ok base m ps : ∀ fuel w,
  (length ps < fuel)%nat →
  w_fp w = FRead (heap_bytes m base ps.*1) →
  Forall (fun p : Pool_Info * Pool_Info => is_Some (codec_of (type p.1))) ps →
  Forall (info_ok base (root_info w) m) ps →
  ForallOrdPairs (fun p q => apart (info_foot m p) (info_foot m q)) ps →
  ∃ w1, restore_loop fuel w = Ok tt w1 ∧ heap_restored base m w ps w1.
Proof.
  induction ps as [|p ps IH]; intros [|fuel] w Hl Hf Hc Hok Hap; try (simpl in Hl; lia);
    cbn [restore_loop].
  - exists w. erewrite mbind_ok by (by apply at_eof_fp). split; [done|].
    split; [done|]. repeat split; done.
  - inversion Hc as [|? ? [c Hc1] Hcs]; inversion Hok as [|? ? Hok1 Hoks];
      inversion Hap as [|? ? Hap1 Haps]; subst.
    change (heap_bytes m base (p :: ps).*1)
      with (info_bytes m base p.1 ++ heap_bytes m base ps.*1) in Hf.
    destruct (restore_record_ok base m p w _ c Hc1 Hf Hok1) as (w1&Hr1&Hs1&Hf1&Hrel1&Hu1&[S1 S2 S3]).
    destruct (IH fuel w1) as (w2&Hr2&Hs2&Hf2&Hrel2&Hu2&[T1 T2 T3]); try done.
    { simpl in Hl. lia. } { by rewrite (st_root _ _ Hs1). }
    exists w2. split.
    + erewrite mbind_ok by (by apply at_eof_fp). rewrite (proj2 (Z.ltb_ge _ _)).
      { by erewrite mbind_ok by exact Hr1. }
      rewrite length_app. pose proof (length_info_bytes m base p.1 c Hc1). lia.
    + split_and!; [by transitivity w1|done| | |].
      * rewrite (st_root _ _ Hs1) in Hrel2. constructor; [|done].
        eapply info_rel_preserved; [done| |exact Hu2|done].
        apply apart_concat. by apply Forall_map.
      * simpl. by eapply unchanged_trans.
      * constructor; [by rewrite T1, S1|by rewrite T2, S2|by rewrite T3, S3].
Qed.

Lemma length_heap_bytes m base ps :
  Forall (fun p : Pool_Info * Pool_Info => is_Some (codec_of (type p.1))) ps →
  (length ps <= length (heap_bytes m base ps.*1))%nat.
Proof.
  induction 1 as [|p ps [c Hc] ? IH]; [done|].
  change (heap_bytes m base (p :: ps).*1)
    with (info_bytes m base p.1 ++ heap_bytes m base ps.*1).
  rewrite length_app. pose proof (length_info_bytes m base p.1 c Hc). simpl. lia.
Qed.

Lemma restore_internal_ok base m ps w :
  w_fp w = FRead (heap_bytes m base ps.*1) →
  Forall (fun p : Pool_Info * Pool_Info => is_Some (codec_of (type p.1))) ps →
  Forall (info_ok base (root_info w) m) ps →
  ForallOrdPairs (fun p q => apart (info_foot m p) (info_foot m q)) ps →
  ∃ w1, restore_internal w = Ok tt w1 ∧ heap_restored base m w ps w1.
Proof.
  intros Hf Hc Hok Hap. unfold restore_internal. erewrite mbind_ok by reflexivity.
  rewrite Hf. apply restore_loop_ok; try done. pose proof (length_heap_bytes m base ps Hc). lia.
Qed.
