(* ===== verification/Frames.v ===== *)
(** The frames of the interpreter in frame.img: the pointers of a frame are
    written as distances (from the code of its function, from the bottom of its
    operand stack), and the restored frame has the same distances from the
    relocated code and its own operand stack, with the same locals, operands
    and branch blocks. *)
From stdpp Require Import base gmap list numbers strings.
From Stdlib Require Import Strings.Byte ZArith Lia.
From S2P Require Import Prelude CMemory WasmTypes PoolInfo Dump Restore Format Codec Searches.

(** * frame.img *)

Lemma fwrite_bytes_gp w out bs :
  w_gp w = FWrite out → fwrite_bytes GP bs w = Ok tt (set_gp (FWrite (out ++ bs)) w).
Proof. intros H. unfold fwrite_bytes, modify. simpl. by rewrite H. Qed.

Lemma fwrite_gp w out a sz cnt :
  w_gp w = FWrite out → 0 <= cnt →
  fwrite GP a sz cnt w
  = Ok tt (set_gp (FWrite (out ++ load (wmem w) a (Z.to_nat (sz * cnt)))) w).
Proof.
  intros H Hc. unfold fwrite. rewrite (proj2 (Z.ltb_ge cnt 0)) by lia.
  by apply fwrite_bytes_gp.
Qed.

Lemma DUMP_FRAME_PTR_gp w out p :
  w_gp w = FWrite out →
  DUMP_FRAME_PTR p w = Ok tt (set_gp (FWrite (out ++ enc_ptr (dump_base w) p)) w).
Proof.
  intros H. unfold DUMP_PTR_TO, enc_ptr, fwrite_int.
  destruct (p =? NULL); [by apply fwrite_bytes_gp|].
  unfold mbind, gets. by apply fwrite_bytes_gp.
Qed.

Lemma fread_bytes_gp w bs rest n :
  w_gp w = FRead (bs ++ rest) → n = Z.of_nat (length bs) →
  fread_bytes GP n w = Ok bs (set_gp (FRead rest) w).
Proof.
  intros H ->. unfold fread_bytes. simpl. rewrite H, length_app.
  destruct (Z.ltb_spec (Z.of_nat (length bs)) 0); [lia|].
  destruct (Z.ltb_spec (Z.of_nat (length bs + length rest)) (Z.of_nat (length bs))); [lia|].
  simpl. by rewrite Nat2Z.id, take_app_length, drop_app_length.
Qed.

Lemma fread_gp w bs rest a sz cnt :
  w_gp w = FRead (bs ++ rest) → sz * cnt = Z.of_nat (length bs) →
  fread GP a sz cnt w = Ok tt (set_mem (store (wmem w) a bs) (set_gp (FRead rest) w)).
Proof.
  intros H Hn. unfold fread, mbind. by rewrite (fread_bytes_gp w bs rest) by (done || lia).
Qed.

Lemma fread_uint_gp w n v rest :
  w_gp w = FRead (le_bytes n v ++ rest) →
  fread_uint GP (Z.of_nat n) w = Ok (v mod 256 ^ Z.of_nat n) (set_gp (FRead rest) w).
Proof.
  intros H. unfold fread_uint, mbind.
  rewrite (fread_bytes_gp w (le_bytes n v) rest) by (done || by rewrite length_le_bytes).
  unfold mret. by rewrite le_Z_bytes.
Qed.

Lemma RESTORE_FRAME_PTR_gp w base p rest q :
  w_gp w = FRead (enc_ptr base p ++ rest) → reloc base (root_info w) p = Some q →
  RESTORE_FRAME_PTR w = Ok q (set_gp (FRead rest) w).
Proof.
  assert (∀ v, w_gp w = FRead (le_bytes 4 v ++ rest) →
               fread_int GP w = Ok (int32 v) (set_gp (FRead rest) w)) as Hint.
  { intros v H. unfold fread_int, mbind.
    rewrite (fread_bytes_gp w (le_bytes 4 v) rest) by (done || by rewrite length_le_bytes).
    unfold mret. by rewrite le_Z_int32. }
  intros Hf Hr. unfold RESTORE_PTR_FROM, enc_ptr, reloc in *. destruct (p =? NULL) eqn:E.
  - erewrite mbind_ok by (by apply Hint). simpl. by simplify_eq.
  - erewrite mbind_ok by (by apply Hint).
    destruct (int32 (p - base) =? -1) eqn:E1; [by simplify_eq|].
    unfold mbind, get_info. rewrite E1. simpl.
    destruct (find_info _ (root_info w)); simpl in Hr; by simplify_eq.
Qed.

(** * The function of a frame *)

Definition func_code (m : mem) (func : Z) : Z :=
  if negb (load_Z m (FLD func WASMFunctionInstance "is_import_func") 1 =? 0) then NULL
  else ldp m (FLD (ldp m (FLD func WASMFunctionInstance "u.func")) WASMFunction "code").

Lemma wasm_get_func_code_eq func w :
  wasm_get_func_code func w = Ok (func_code (wmem w) func) w.
Proof.
  unfold wasm_get_func_code, func_code. erewrite mbind_ok by apply ld_eq.
  by destruct (negb _).
Qed.

Definition param_cells (m : mem) (func : Z) : Z :=
  load_Z m (FLD func WASMFunctionInstance "param_cell_num") 2.
Definition local_cells (m : mem) (func : Z) : Z :=
  load_Z m (FLD func WASMFunctionInstance "local_cell_num") 2.
Definition stack_cells (m : mem) (func : Z) : Z :=
  load_Z m (FLD (ldp m (FLD func WASMFunctionInstance "u.func")) WASMFunction "max_stack_cell_num") 4.
Definition block_num (m : mem) (func : Z) : Z :=
  load_Z m (FLD (ldp m (FLD func WASMFunctionInstance "u.func")) WASMFunction "max_block_num") 4.

Lemma cells_nonneg m func :
  0 <= param_cells m func ∧ 0 <= local_cells m func ∧ 0 <= stack_cells m func
  ∧ 0 <= block_num m func.
Proof.
  unfold param_cells, local_cells, stack_cells, block_num.
  split_and!; (pose proof (load_Z_range m); eauto with lia); apply load_Z_range; lia.
Qed.

(** * Writing a frame *)

Definition rel_bytes (p from item : Z) : list byte :=
  if p =? NULL then le_bytes 8 (-1) else le_bytes 8 ((p - from) / item).

Definition block_bytes (m : mem) (code sp_bottom bb : Z) : list byte :=
  rel_bytes (ldp m (FLD bb WASMBranchBlock "begin_addr")) code 1
  ++ rel_bytes (ldp m (FLD bb WASMBranchBlock "target_addr")) code 1
  ++ rel_bytes (ldp m (FLD bb WASMBranchBlock "frame_sp")) sp_bottom 4
  ++ load m (FLD bb WASMBranchBlock "cell_num") 4.

Lemma dump_rel_gp w out p from item :
  w_gp w = FWrite out →
  dump_rel p from item w = Ok tt (set_gp (FWrite (out ++ rel_bytes p from item)) w).
Proof. intros H. unfold dump_rel, rel_bytes. destruct (p =? NULL); by apply fwrite_bytes_gp. Qed.

Lemma dump_branch_block_gp w out func sp_bottom bb :
  w_gp w = FWrite out →
  dump_branch_block func sp_bottom bb w
  = Ok tt (set_gp (FWrite (out ++ block_bytes (wmem w) (func_code (wmem w) func) sp_bottom bb)) w).
Proof.
  intros H. unfold dump_branch_block, block_bytes.
  erewrite mbind_ok by apply ld_eq. erewrite mbind_ok by apply wasm_get_func_code_eq.
  do 3 (erewrite (mbind_ok (dump_rel _ _ _)) by (by apply dump_rel_gp);
        try erewrite (mbind_ok (ld 8 _)) by apply ld_eq).
  erewrite fwrite_gp by done. simpl wmem. by rewrite <- !app_assoc.
Qed.

Lemma dump_blocks_gp func sp_bottom (addr : Z → Z) l : ∀ w out,
  w_gp w = FWrite out →
  mfor l (fun i => dump_branch_block func sp_bottom (addr i)) w
  = Ok tt (set_gp (FWrite (out ++ concat (map (fun i =>
      block_bytes (wmem w) (func_code (wmem w) func) sp_bottom (addr i)) l))) w).
Proof.
  induction l as [|i l IH]; intros w out H; cbn [mfor map concat].
  - rewrite app_nil_r. unfold skip, mret. f_equal. by destruct w; simpl in *; subst.
  - erewrite mbind_ok by (by apply dump_branch_block_gp). erewrite IH by done.
    simpl. by rewrite <- app_assoc.
Qed.

Abbreviation LP node := (FLD node WASMInterpFrame "lp") (only parsing).

Definition bb_num (m : mem) (node : Z) : Z :=
  uint32 ((ldp m (FLD node WASMInterpFrame "csp") - ldp m (FLD node WASMInterpFrame "csp_bottom"))
          / SIZEOF WASMBranchBlock).

(** The bytes of a frame behind the pointer to its function. *)
Definition frame_body (m : mem) (node : Z) : list byte :=
  let func := ldp m (FLD node WASMInterpFrame "function") in
  let code := func_code m func in
  let sp_bottom := ldp m (FLD node WASMInterpFrame "sp_bottom") in
  let csp_bottom := ldp m (FLD node WASMInterpFrame "csp_bottom") in
  le_bytes 8 (ldp m (FLD node WASMInterpFrame "ip") - code)
  ++ le_bytes 8 ((ldp m (FLD node WASMInterpFrame "sp") - sp_bottom) / 4)
  ++ le_bytes 4 (bb_num m node)
  ++ concat (map (fun i => block_bytes m code sp_bottom (csp_bottom + i * SIZEOF WASMBranchBlock))
       (seqZ 0 (bb_num m node)))
  ++ load m (LP node) (Z.to_nat (4 * param_cells m func))
  ++ load m (LP node + param_cells m func * 4) (Z.to_nat (4 * local_cells m func))
  ++ load m sp_bottom (Z.to_nat (4 * stack_cells m func)).

Definition frame_bytes (m : mem) (base node : Z) : list byte :=
  let func := ldp m (FLD node WASMInterpFrame "function") in
  enc_ptr base func ++ (if func =? NULL then [] else frame_body m node).

Lemma dump_header_gp w out t i :
  w_gp w = FWrite out →
  dump_header GP t i w = Ok tt (set_gp (FWrite (out ++ header_bytes t i)) w).
Proof.
  intros H. unfold dump_header, header_bytes, fwrite_int.
  do 2 erewrite mbind_ok by (by apply fwrite_bytes_gp).
  erewrite fwrite_bytes_gp by done. simpl w_gp. by rewrite <- !app_assoc.
Qed.

Lemma set_gp_id w f : w_gp w = f → set_gp f w = w.
Proof. intros <-. by destruct w. Qed.

Lemma dump_frame_gp w out i :
  w_gp w = FWrite out →
  dump_WASMInterpFrame i w
  = Ok tt (set_gp (FWrite (out ++ header_bytes WASMInterpFrameT i
                           ++ frame_bytes (wmem w) (dump_base w) (p_raw i))) w).
Proof.
  intros H. unfold dump_WASMInterpFrame, HEADER_DUMP_FRAME_BUF, frame_bytes.
  erewrite mbind_ok by (by apply dump_header_gp). erewrite mbind_ok by apply ld_eq.
  erewrite mbind_ok by (by apply DUMP_FRAME_PTR_gp). cbn [wmem set_gp].
  fold (ldp (wmem w) (FLD (p_raw i) WASMInterpFrame "function")).
  set (func := ldp (wmem w) (FLD (p_raw i) WASMInterpFrame "function")).
  destruct (cells_nonneg (wmem w) func) as (?&?&?&?).
  destruct (func =? NULL); [by rewrite app_nil_r, <- app_assoc|]. unfold frame_body. fold func.
  erewrite mbind_ok by apply wasm_get_func_code_eq. erewrite mbind_ok by apply ld_eq.
  unfold fwrite_u64, fwrite_u32.
  erewrite mbind_ok by (by apply fwrite_bytes_gp). do 2 erewrite (mbind_ok (ld 8 _)) by apply ld_eq.
  erewrite mbind_ok by (by apply fwrite_bytes_gp). do 2 erewrite (mbind_ok (ld 8 _)) by apply ld_eq.
  erewrite mbind_ok by (by apply fwrite_bytes_gp).
  erewrite mbind_ok by (by apply dump_blocks_gp). erewrite (mbind_ok (ld 2 _)) by apply ld_eq.
  erewrite mbind_ok by (by apply fwrite_gp). erewrite (mbind_ok (ld 2 _)) by apply ld_eq.
  erewrite mbind_ok by (by apply fwrite_gp). erewrite (mbind_ok (ld 8 _)) by apply ld_eq.
  erewrite (mbind_ok (ld 4 _)) by apply ld_eq.
  erewrite fwrite_gp by done. cbn [wmem set_gp w_gp]. unfold bb_num, ldp, param_cells.
  by rewrite <- !app_assoc.
Qed.

(** * Reading a frame *)

(** Where a pointer into a block at [from] goes when the block is at [from']. *)
Definition rel_ptr (p from from' : Z) : Z :=
  if p =? NULL then NULL else uint64 (p - from + from').

Definition rel_ok (p from item : Z) : Prop :=
  p = NULL ∨ ∃ k, 0 <= k < 2 ^ 63 ∧ p = from + k * item.

Lemma restore_rel_gp w p from item rest a from' :
  0 < item → rel_ok p from item → w_gp w = FRead (rel_bytes p from item ++ rest) →
  ∃ v, restore_rel a from' item w
       = Ok tt (set_mem (store_Z (wmem w) a 8 v) (set_gp (FRead rest) w))
    ∧ uint64 v = rel_ptr p from from'.
Proof.
  intros Hi Hok Hf. unfold restore_rel, rel_bytes, rel_ptr, fread_i64 in *.
  destruct (p =? NULL) eqn:E.
  - exists NULL. rewrite mbind_assoc.
    erewrite mbind_ok by (by apply (fread_uint_gp w 8 (-1) rest)). done.
  - zbool. destruct Hok as [?|(k&Hk&Hp)]; [done|].
    assert ((p - from) / item = k) as Ek.
    { rewrite Hp. replace (from + k * item - from) with (k * item) by lia. by apply Z.div_mul; lia. }
    rewrite Ek in Hf. exists (k * item + from'). rewrite mbind_assoc.
    erewrite mbind_ok by (by apply (fread_uint_gp w 8 k rest)).
    erewrite mbind_ok by reflexivity.
    change (k mod 256 ^ Z.of_nat 8) with (wrap 64 k).
    rewrite (swrap_wrap 64 k) by lia. rewrite swrap_small by lia.
    rewrite (proj2 (Z.eqb_neq k (-1))) by lia. split; [done|]. f_equal. lia.
Qed.

(** The restored branch block. *)
Record block_rel (m : mem) (code sp_bottom bb : Z) (m' : mem) (code' sp_bottom' bb' : Z) : Prop := {
  br_begin : ldp m' (FLD bb' WASMBranchBlock "begin_addr")
             = rel_ptr (ldp m (FLD bb WASMBranchBlock "begin_addr")) code code';
  br_target : ldp m' (FLD bb' WASMBranchBlock "target_addr")
              = rel_ptr (ldp m (FLD bb WASMBranchBlock "target_addr")) code code';
  br_sp : ldp m' (FLD bb' WASMBranchBlock "frame_sp")
          = rel_ptr (ldp m (FLD bb WASMBranchBlock "frame_sp")) sp_bottom sp_bottom';
  br_cells : load m' (FLD bb' WASMBranchBlock "cell_num") 4
             = load m (FLD bb WASMBranchBlock "cell_num") 4
}.

Record block_ok (m : mem) (code sp_bottom bb : Z) : Prop := {
  bo_begin : rel_ok (ldp m (FLD bb WASMBranchBlock "begin_addr")) code 1;
  bo_target : rel_ok (ldp m (FLD bb WASMBranchBlock "target_addr")) code 1;
  bo_sp : rel_ok (ldp m (FLD bb WASMBranchBlock "frame_sp")) sp_bottom 4
}.

Lemma block_rel_preserved rs m code spb bb m1 m2 code' spb' bb' :
  unchanged_outside rs m1 m2 →
  (∀ r, In r rs → disjoint_region r (bb', SIZEOF WASMBranchBlock)) →
  block_rel m code spb bb m1 code' spb' bb' → block_rel m code spb bb m2 code' spb' bb'.
Proof.
  intros Hu Hd [H1 H2 H3 H4].
  assert (∀ o n, 0 <= o → o + Z.of_nat n <= SIZEOF WASMBranchBlock →
                 load m2 (bb' + o) n = load m1 (bb' + o) n) as Hl.
  { intros o n Ho Hn. eapply unchanged_load; [exact Hu|]. intros r Hr. specialize (Hd r Hr).
    unfold disjoint_region in *. simpl in *. lia. }
  constructor; unfold ldp, load_Z in *; by rewrite Hl by (simpl; lia).
Qed.

Lemma restore_branch_block_gp m code spb bb w rest func' spb' bb' :
  w_gp w = FRead (block_bytes m code spb bb ++ rest) → block_ok m code spb bb →
  ∃ m', restore_branch_block func' spb' bb' w = Ok tt (set_mem m' (set_gp (FRead rest) w))
    ∧ block_rel m code spb bb m' (func_code (wmem w) func') spb' bb'
    ∧ unchanged_outside [(bb', SIZEOF WASMBranchBlock)] (wmem w) m'.
Proof.
  intros Hf [H1 H2 H3]. unfold block_bytes in Hf. rewrite <- !app_assoc in Hf.
  unfold restore_branch_block. erewrite mbind_ok by apply wasm_get_func_code_eq.
  set (code' := func_code (wmem w) func').
  destruct (restore_rel_gp w _ _ _ _ (FLD bb' WASMBranchBlock "begin_addr") code'
    (eq_refl : 0 < 1) H1 Hf) as (v1&Hr1&E1). erewrite mbind_ok by exact Hr1.
  match goal with |- ∃ m', mbind (restore_rel ?a _ _) _ ?w1 = _ ∧ _ =>
    destruct (restore_rel_gp w1 _ _ _ _ a code' (eq_refl : 0 < 1) H2 eq_refl) as (v2&Hr2&E2) end.
  erewrite mbind_ok by exact Hr2.
  match goal with |- ∃ m', mbind (restore_rel ?a _ _) _ ?w1 = _ ∧ _ =>
    destruct (restore_rel_gp w1 _ _ _ _ a spb' (eq_refl : 0 < 4) H3 eq_refl) as (v3&Hr3&E3) end.
  erewrite mbind_ok by exact Hr3.
  erewrite fread_gp; [|reflexivity|by rewrite length_load]. eexists. split; [reflexivity|]. simpl wmem.
  split.
  - constructor.
    + rewrite <- E1. unfold ldp. rewrite load_Z_store_ne by (rewrite ?length_load; lia).
      rewrite 2!load_store_Z_ne by lia. by rewrite load_store_Z_eq by lia.
    + rewrite <- E2. unfold ldp. rewrite load_Z_store_ne by (rewrite ?length_load; lia).
      rewrite load_store_Z_ne by lia. by rewrite load_store_Z_eq by lia.
    + rewrite <- E3. unfold ldp. rewrite load_Z_store_ne by (rewrite ?length_load; lia).
      by rewrite load_store_Z_eq by lia.
    + by apply load_store_eq; rewrite length_load.
  - intros x Hx. specialize (Hx _ (or_introl eq_refl)). unfold in_region in Hx. simpl in Hx.
    unfold store_Z. rewrite !store_out by (rewrite ?length_le_bytes, ?length_load; simpl; lia). done.
Qed.

(** The function of the frame is not where the frame is restored. *)
Definition func_view (m : mem) (func : Z) : Z * Z * Z * Z * Z :=
  (func_code m func, param_cells m func, local_cells m func, stack_cells m func, block_num m func).

Definition func_apart (blk : region) (m : mem) (func : Z) : Prop :=
  disjoint_region blk (func, SIZEOF WASMFunctionInstance)
  ∧ disjoint_region blk (ldp m (FLD func WASMFunctionInstance "u.func"), SIZEOF WASMFunction).

Lemma func_view_stables rs m m' func :
  (∀ r, In r rs → func_apart r m func) → unchanged_outside rs m m' →
  func_view m' func = func_view m func
  ∧ ldp m' (FLD func WASMFunctionInstance "u.func") = ldp m (FLD func WASMFunctionInstance "u.func").
Proof.
  intros H Hu.
  assert (∀ a o n S, (∀ r, In r rs → disjoint_region r (a, S)) → 0 <= o → 0 <= n → o + n <= S →
                     load_Z m' (a + o) n = load_Z m (a + o) n) as Hl.
  { intros a o n S Hd Ho Hn Hs. unfold load_Z. f_equal. eapply unchanged_load; [exact Hu|].
    intros r Hr. specialize (Hd r Hr). unfold disjoint_region in *. simpl in *. lia. }
  assert (∀ r, In r rs → disjoint_region r (func, SIZEOF WASMFunctionInstance)) as H1
    by (intros r Hr; apply (H r Hr)).
  assert (∀ r, In r rs → disjoint_region r
            (ldp m (FLD func WASMFunctionInstance "u.func"), SIZEOF WASMFunction)) as H2
    by (intros r Hr; apply (H r Hr)).
  assert (ldp m' (FLD func WASMFunctionInstance "u.func")
          = ldp m (FLD func WASMFunctionInstance "u.func")) as Eu by (eapply Hl; [exact H1|lia..]).
  split; [|done].
  unfold func_view, func_code, param_cells, local_cells, stack_cells, block_num. rewrite Eu.
  unfold ldp in *. repeat (erewrite !Hl by (first [exact H1 | exact H2 | lia])). done.
Qed.

Lemma func_view_stable blk m m' func :
  func_apart blk m func → unchanged_outside [blk] m m' →
  func_view m' func = func_view m func
  ∧ ldp m' (FLD func WASMFunctionInstance "u.func") = ldp m (FLD func WASMFunctionInstance "u.func").
Proof. intros H. apply func_view_stables. by intros r [<-|[]]. Qed.

Definition block_addr (base i : Z) : Z := base + i * SIZEOF WASMBranchBlock.

Lemma restore_blocks_gp blk m code spb cspb node' func' spb' cspb' m0 n : ∀ i0 w rest,
  let csp := FLD node' WASMInterpFrame "csp" in
  func_apart blk m0 func' → unchanged_outside [blk] m0 (wmem w) →
  blk.1 <= csp → csp + 8 <= block_addr cspb' i0 →
  block_addr cspb' (i0 + Z.of_nat n) <= blk.1 + blk.2 →
  (∀ i, i0 <= i < i0 + Z.of_nat n → block_ok m code spb (block_addr cspb i)) →
  w_gp w = FRead (concat (map (fun i => block_bytes m code spb (block_addr cspb i))
                            (seqZ i0 (Z.of_nat n))) ++ rest) →
  ∃ m', mfor (seqZ i0 (Z.of_nat n)) (fun i =>
            restore_branch_block func' spb' (block_addr cspb' i) ;;;
            st 8 csp (block_addr cspb' (i + 1))) w
        = Ok tt (set_mem m' (set_gp (FRead rest) w))
    ∧ (∀ i, i0 <= i < i0 + Z.of_nat n →
         block_rel m code spb (block_addr cspb i) m' (func_code m0 func') spb' (block_addr cspb' i))
    ∧ unchanged_outside [(csp, 8); (block_addr cspb' i0, Z.of_nat n * SIZEOF WASMBranchBlock)]
        (wmem w) m'
    ∧ ((0 < n)%nat → ldp m' csp = uint64 (block_addr cspb' (i0 + Z.of_nat n)))
    ∧ (n = 0%nat → m' = wmem w).
Proof.
  unfold block_addr. induction n as [|n IH]; intros i0 w rest;
    set (csp := FLD node' WASMInterpFrame "csp"); intros Hfa Hu H1 H2 H3 Hok Hf.
  - exists (wmem w). simpl in Hf. rewrite (set_gp_id w) by done. split_and!; [by destruct w|intros; lia|done|lia|done].
  - rewrite seqZ_cons in Hf |- * by lia.
    replace (Z.pred (Z.of_nat (S n))) with (Z.of_nat n) in * by lia. cbn [map concat mfor] in *.
    rewrite <- app_assoc in Hf.
    destruct (restore_branch_block_gp m code spb _ w _ func' spb'
      (cspb' + i0 * SIZEOF WASMBranchBlock) Hf) as (m1&Hr1&Hb1&Hu1); [apply Hok; lia|].
    assert (func_code (wmem w) func' = func_code m0 func') as Ec.
    { destruct (func_view_stable blk m0 (wmem w) func' Hfa Hu) as [E _].
      unfold func_view in E. by simplify_eq. }
    rewrite Ec in Hb1. rewrite mbind_assoc. erewrite mbind_ok by exact Hr1.
    erewrite mbind_ok by reflexivity.
    set (m2 := store_Z m1 csp 8 (cspb' + (i0 + 1) * SIZEOF WASMBranchBlock)).
    assert (unchanged_outside [(csp, 8); (cspb' + i0 * SIZEOF WASMBranchBlock, SIZEOF WASMBranchBlock)]
              (wmem w) m2) as Hu2.
    { eapply unchanged_incl; [|eapply unchanged_trans; [exact Hu1|]].
      2: { unfold m2, store_Z. apply unchanged_store. }
      rewrite length_le_bytes. simpl. tauto. }
    edestruct (IH (Z.succ i0) (set_mem m2 (set_gp (FRead (concat (map (fun i =>
      block_bytes m code spb (cspb + i * SIZEOF WASMBranchBlock)) (seqZ (Z.succ i0) (Z.of_nat n)))
      ++ rest)) w)) rest) as (m3&Hr3&Hb3&Hu3&Hc3&_); try done; simpl wmem in *.
    { eapply unchanged_weaken; [|eapply unchanged_trans; [exact Hu|exact Hu2]].
      intros x r Hr Hx. exists blk. split; [by left|]. unfold in_region in *. simpl in Hr.
      destruct Hr as [<-|[<-|[<-|[]]]]; simpl in *; lia. }
    { lia. } { lia. } { intros i Hi. apply Hok. lia. }
    exists m3. split_and!.
    + exact Hr3.
    + intros i Hi. destruct (Z.eq_dec i i0) as [->|Hne]; [|apply Hb3; lia].
      eapply block_rel_preserved; [exact Hu3| |].
      { intros r [<-|[<-|[]]]; unfold disjoint_region; simpl; lia. }
      eapply (block_rel_preserved [(csp, 8)]); [|intros r [<-|[]]; unfold disjoint_region; simpl; lia|done].
      pose proof (unchanged_store m1 csp (le_bytes 8 (cspb' + (i0 + 1) * SIZEOF WASMBranchBlock))) as Hs.
      by rewrite length_le_bytes in Hs.
    + eapply unchanged_weaken; [|eapply unchanged_trans; [exact Hu2|exact Hu3]].
      intros x r Hr Hx. unfold in_region in *. simpl in Hr.
      destruct Hr as [<-|[<-|[<-|[<-|[]]]]]; simpl in Hx.
      * eexists; split; [by left|]. simpl. lia.
      * eexists; split; [by right; left|]. simpl. lia.
      * eexists; split; [by left|]. simpl. lia.
      * eexists; split; [by right; left|]. simpl. lia.
    + intros _. destruct n as [|n].
      * simpl in Hr3. inversion Hr3. subst m3. unfold m2. rewrite load_store_ptr. f_equal; lia.
      * unfold csp. rewrite Hc3 by lia. f_equal; lia.
    + done.
Qed.

(** ** The words of a frame header *)

Fixpoint store_words (m : mem) (node : Z) (l : list (Z * Z)) : mem :=
  match l with
  | [] => m
  | (o, v) :: l => store_words (store_Z m (node + o) 8 v) node l
  end.

Lemma store_words_unchanged blk m node l :
  Forall (fun p => blk.1 <= node + p.1 ∧ node + p.1 + 8 <= blk.1 + blk.2) l →
  unchanged_outside [blk] m (store_words m node l).
Proof.
  intros H. revert m. induction H as [|[o v] l [H1 H2] _ IH]; intros m; [done|]. simpl in *.
  eapply unchanged_weaken; [|eapply unchanged_trans; [|apply IH]].
  2: { unfold store_Z. apply unchanged_store. }
  rewrite length_le_bytes. intros x r Hr Hx. exists blk. split; [by left|].
  unfold in_region in *. destruct Hr as [<-|[<-|[]]]; simpl in *; lia.
Qed.

Lemma store_words_load m node l o v :
  In (o, v) l → NoDup l.*1 → (∀ p q, In p l → In q l → p.1 <> q.1 → p.1 + 8 <= q.1 ∨ q.1 + 8 <= p.1) →
  ldp (store_words m node l) (node + o) = uint64 v.
Proof.
  revert m. induction l as [|[o1 v1] l IH]; intros m Hin Hnd Hd; [done|].
  inversion Hnd as [|? ? Hni Hnd']; subst. cbn [store_words].
  destruct Hin as [Ei|Hl]; [|apply IH; [done|done|]; intros p q Hp Hq; apply Hd; by right].
  - simplify_eq. clear IH.
    assert (∀ m', ldp (store_words m' node l) (node + o) = ldp m' (node + o)) as Hs;
      [|by rewrite Hs, load_store_ptr].
    assert (∀ p, In p l → p.1 + 8 <= o ∨ o + 8 <= p.1) as Hd'.
    { intros p Hp. apply (Hd p (o, v)); [by right|by left|]. simpl. intros <-. apply Hni.
      apply list_elem_of_In. by apply (in_map fst). }
    clear -Hd'. induction l as [|[o2 v2] l IH]; intros m'; [done|]. cbn [store_words].
    rewrite IH by (intros p Hp; apply Hd'; by right).
    specialize (Hd' _ (or_introl eq_refl)). simpl in Hd'. unfold ldp.
    apply load_store_Z_ne; lia.
Qed.

(** ** The restored frame *)

Record frame_ok (m : mem) (node : Z) : Prop := {
  fo_sp : ∃ k, ldp m (FLD node WASMInterpFrame "sp")
               = ldp m (FLD node WASMInterpFrame "sp_bottom") + k * 4;
  fo_csp : ldp m (FLD node WASMInterpFrame "csp")
           = block_addr (ldp m (FLD node WASMInterpFrame "csp_bottom")) (bb_num m node);
  fo_blocks : ∀ i, 0 <= i < bb_num m node →
    block_ok m (func_code m (ldp m (FLD node WASMInterpFrame "function")))
      (ldp m (FLD node WASMInterpFrame "sp_bottom"))
      (block_addr (ldp m (FLD node WASMInterpFrame "csp_bottom")) i)
}.

(** The layout of a frame of [func] at [node]. *)
Definition sp_bottom_of (m : mem) (func node : Z) : Z :=
  LP node + param_cells m func * 4 + local_cells m func * 4.
Definition sp_boundary_of (m : mem) (func node : Z) : Z :=
  sp_bottom_of m func node + stack_cells m func * 4.
Definition csp_boundary_of (m : mem) (func node : Z) : Z :=
  block_addr (sp_boundary_of m func node) (block_num m func).

Definition frame_block (m : mem) (func node : Z) : region :=
  (node + 8, csp_boundary_of m func node - (node + 8)).

(** [m'] holds at [node'] the frame that [m] holds at [node], its function
    being [func'] there. *)
Record frame_rel (m : mem) (node : Z) (m' : mem) (node' func' : Z) : Prop := {
  fr_func : ldp m' (FLD node' WASMInterpFrame "function") = func';
  fr_ip : ldp m' (FLD node' WASMInterpFrame "ip")
          = uint64 (ldp m (FLD node WASMInterpFrame "ip")
                    - func_code m (ldp m (FLD node WASMInterpFrame "function"))
                    + func_code m' func');
  fr_sp_bottom : ldp m' (FLD node' WASMInterpFrame "sp_bottom") = sp_bottom_of m' func' node';
  fr_sp_boundary : ldp m' (FLD node' WASMInterpFrame "sp_boundary") = sp_boundary_of m' func' node';
  fr_sp : ldp m' (FLD node' WASMInterpFrame "sp")
          = uint64 (ldp m (FLD node WASMInterpFrame "sp")
                    - ldp m (FLD node WASMInterpFrame "sp_bottom") + sp_bottom_of m' func' node');
  fr_csp_bottom : ldp m' (FLD node' WASMInterpFrame "csp_bottom") = sp_boundary_of m' func' node';
  fr_csp : ldp m' (FLD node' WASMInterpFrame "csp")
           = block_addr (sp_boundary_of m' func' node') (bb_num m node);
  fr_csp_boundary : ldp m' (FLD node' WASMInterpFrame "csp_boundary")
                    = csp_boundary_of m' func' node';
  fr_blocks : ∀ i, 0 <= i < bb_num m node →
    block_rel m (func_code m (ldp m (FLD node WASMInterpFrame "function")))
      (ldp m (FLD node WASMInterpFrame "sp_bottom"))
      (block_addr (ldp m (FLD node WASMInterpFrame "csp_bottom")) i)
      m' (func_code m' func') (sp_bottom_of m' func' node')
      (block_addr (sp_boundary_of m' func' node') i);
  fr_locals : load m' (LP node') (Z.to_nat (4 * (param_cells m' func' + local_cells m' func')))
              = load m (LP node) (Z.to_nat (4 * (param_cells m' func' + local_cells m' func')));
  fr_stack : load m' (sp_bottom_of m' func' node') (Z.to_nat (4 * stack_cells m' func'))
             = load m (ldp m (FLD node WASMInterpFrame "sp_bottom"))
                 (Z.to_nat (4 * stack_cells m' func'))
}.

(** The eight words that are set before the blocks are read. *)
Definition frame_words (ip sp : Z) (m0 : mem) (func' node' : Z) : list (Z * Z) :=
  [(OFS WASMInterpFrame "function", func');
   (OFS WASMInterpFrame "ip", ip + func_code m0 func');
   (OFS WASMInterpFrame "sp_bottom", sp_bottom_of m0 func' node');
   (OFS WASMInterpFrame "sp_boundary", sp_boundary_of m0 func' node');
   (OFS WASMInterpFrame "sp", sp_bottom_of m0 func' node' + sp * 4);
   (OFS WASMInterpFrame "csp_bottom", sp_boundary_of m0 func' node');
   (OFS WASMInterpFrame "csp", sp_boundary_of m0 func' node');
   (OFS WASMInterpFrame "csp_boundary", csp_boundary_of m0 func' node')].

Lemma frame_word_put blk m0 m a v :
  blk.1 <= a → a + 8 <= blk.1 + blk.2 →
  unchanged_outside [blk] m0 m → unchanged_outside [blk] m0 (store_Z m a 8 v).
Proof.
  intros H1 H2 Hu. eapply unchanged_weaken; [|eapply unchanged_trans; [exact Hu|]].
  2: { unfold store_Z. apply unchanged_store. }
  rewrite length_le_bytes. intros x r Hr Hx. exists blk. split; [by left|].
  unfold in_region in *. destruct Hr as [<-|[<-|[]]]; simpl in *; lia.
Qed.

Ltac unch :=
  cbn [wmem set_mem set_gp]; repeat (apply frame_word_put; [lia|lia|]); apply unchanged_refl.

(** The rest of [restore_WASMInterpFrame], after the header words. *)
Definition restore_frame_data (func' node' param local spb' bnd' cells bb : Z) : C unit :=
  mfor (seqZ 0 bb) (fun i =>
    restore_branch_block func' spb' (bnd' + i * SIZEOF WASMBranchBlock) ;;;
    st 8 (FLD node' WASMInterpFrame "csp") (bnd' + (i + 1) * SIZEOF WASMBranchBlock)) ;;;
  fread GP (LP node') 4 param ;;;
  fread GP (LP node' + param * 4) 4 local ;;;
  fread GP spb' 4 cells.

Section Frame.
Context (m : mem) (base node : Z) (w : world) (func' : Z) (i' : Pool_Info).

Abbreviation node' := (p_raw i').
Abbreviation m0 := (wmem w).
Abbreviation func := (ldp m (FLD node WASMInterpFrame "function")) (only parsing).
Abbreviation blk := (frame_block m0 func' node').

(** What the restoring process must have ready: the function of the frame,
    relocated, with the same cell counts, apart from the frame; room for the
    frame. *)
Record frame_ready : Prop := {
  rd_func : func ≠ NULL;
  rd_reloc : reloc base (root_info w) func = Some func';
  rd_func' : 0 < func' < 2 ^ 64;
  rd_param : param_cells m0 func' = param_cells m func;
  rd_local : local_cells m0 func' = local_cells m func;
  rd_stack : stack_cells m0 func' = stack_cells m func;
  rd_blocks : bb_num m node <= block_num m0 func';
  rd_apart : func_apart blk m0 func';
  rd_node : 0 <= node' ∧ csp_boundary_of m0 func' node' < 2 ^ 64
}.

Lemma blk_bounds :
  frame_ready →
  node' + 72 <= sp_bottom_of m0 func' node'
  ∧ sp_bottom_of m0 func' node' <= sp_boundary_of m0 func' node'
  ∧ sp_boundary_of m0 func' node' <= csp_boundary_of m0 func' node'
  ∧ blk.1 = node' + 8 ∧ blk.1 + blk.2 = csp_boundary_of m0 func' node'.
Proof.
  intros _. destruct (cells_nonneg m0 func') as (?&?&?&?).
  unfold frame_block, csp_boundary_of, sp_boundary_of, sp_bottom_of, block_addr. simpl. lia.
Qed.

Lemma view_at M :
  frame_ready → unchanged_outside [blk] m0 M →
  func_code M func' = func_code m0 func'
  ∧ param_cells M func' = param_cells m0 func'
  ∧ local_cells M func' = local_cells m0 func'
  ∧ stack_cells M func' = stack_cells m0 func'
  ∧ block_num M func' = block_num m0 func'.
Proof.
  intros Hr Hu. destruct (func_view_stable blk m0 M func' (rd_apart Hr) Hu) as [E _].
  unfold func_view in E. by simplify_eq.
Qed.

(** Reads of the function while the frame is being written. *)
Lemma ld_view W :
  frame_ready → unchanged_outside [blk] m0 (wmem W) →
  wasm_get_func_code func' W = Ok (func_code m0 func') W
  ∧ ld 2 (FLD func' WASMFunctionInstance "param_cell_num") W = Ok (param_cells m0 func') W
  ∧ ld 2 (FLD func' WASMFunctionInstance "local_cell_num") W = Ok (local_cells m0 func') W
  ∧ ld 8 (FLD func' WASMFunctionInstance "u.func") W
    = Ok (ldp m0 (FLD func' WASMFunctionInstance "u.func")) W
  ∧ ld 4 (FLD (ldp m0 (FLD func' WASMFunctionInstance "u.func")) WASMFunction "max_stack_cell_num") W
    = Ok (stack_cells m0 func') W
  ∧ ld 4 (FLD (ldp m0 (FLD func' WASMFunctionInstance "u.func")) WASMFunction "max_block_num") W
    = Ok (block_num m0 func') W.
Proof.
  intros Hr Hu. destruct (view_at _ Hr Hu) as (E1&E2&E3&E4&E5).
  destruct (func_view_stable blk m0 (wmem W) func' (rd_apart Hr) Hu) as [_ E6].
  rewrite wasm_get_func_code_eq, !ld_eq, E1. rewrite <- E2, <- E3, <- E4, <- E5.
  fold (ldp (wmem W) (FLD func' WASMFunctionInstance "u.func")). rewrite <- E6. done.
Qed.

Definition words : list (Z * Z) :=
  frame_words
    ((ldp m (FLD node WASMInterpFrame "ip") - func_code m func) mod 256 ^ Z.of_nat 8)
    (((ldp m (FLD node WASMInterpFrame "sp") - ldp m (FLD node WASMInterpFrame "sp_bottom")) / 4)
       mod 256 ^ Z.of_nat 8)
    m0 func' node'.

Definition data_bytes : list byte :=
  concat (map (fun i => block_bytes m (func_code m func) (ldp m (FLD node WASMInterpFrame "sp_bottom"))
      (ldp m (FLD node WASMInterpFrame "csp_bottom") + i * SIZEOF WASMBranchBlock))
    (seqZ 0 (bb_num m node)))
  ++ load m (LP node) (Z.to_nat (4 * param_cells m func))
  ++ load m (LP node + param_cells m func * 4) (Z.to_nat (4 * local_cells m func))
  ++ load m (ldp m (FLD node WASMInterpFrame "sp_bottom")) (Z.to_nat (4 * stack_cells m func)).

Lemma restore_frame_header rest :
  frame_ready → w_gp w = FRead (frame_bytes m base node ++ rest) →
  restore_WASMInterpFrame i' w
  = restore_frame_data func' node' (param_cells m0 func') (local_cells m0 func')
      (sp_bottom_of m0 func' node') (sp_boundary_of m0 func' node') (stack_cells m0 func')
      (bb_num m node)
      (set_mem (store_words m0 node' words) (set_gp (FRead (data_bytes ++ rest)) w)).
Proof.
  intros Hr Hf. destruct (blk_bounds Hr) as (B1&B2&B3&B4&B5).
  unfold frame_bytes in Hf. rewrite (proj2 (Z.eqb_neq func NULL)) in Hf by apply Hr.
  unfold frame_body in Hf. rewrite <- !app_assoc in Hf.
  unfold restore_WASMInterpFrame, HEADER_RESTORE_BUF.
  erewrite mbind_ok by (eapply RESTORE_FRAME_PTR_gp; [exact Hf|apply Hr]).
  erewrite mbind_ok by reflexivity.
  rewrite (proj2 (Z.eqb_neq func' NULL)) by (pose proof (rd_func' Hr); unfold NULL; lia).
  erewrite mbind_ok by (apply ld_view; [done|unch]).
  erewrite mbind_ok by (by apply (fread_uint_gp _ 8)). erewrite mbind_ok by reflexivity.
  erewrite (mbind_ok (ld 2 _)) by (apply ld_view; [done|unch]).
  erewrite (mbind_ok (ld 2 _)) by (apply ld_view; [done|unch]).
  fold (sp_bottom_of m0 func' node'). erewrite mbind_ok by reflexivity.
  erewrite (mbind_ok (ld 8 _)) by (apply ld_view; [done|unch]).
  erewrite (mbind_ok (ld 4 _)) by (apply ld_view; [done|unch]).
  fold (sp_boundary_of m0 func' node'). erewrite mbind_ok by reflexivity.
  erewrite mbind_ok by (by apply (fread_uint_gp _ 8)).
  do 3 erewrite mbind_ok by reflexivity.
  erewrite (mbind_ok (ld 4 _)) by (apply ld_view; [done|unch]).
  fold (block_addr (sp_boundary_of m0 func' node') (block_num m0 func')).
  fold (csp_boundary_of m0 func' node'). erewrite mbind_ok by reflexivity.
  erewrite mbind_ok by (by apply (fread_uint_gp _ 4)).
  rewrite (Z.mod_small (bb_num m node)) by (by apply (wrap_range 32)).
  unfold restore_frame_data, data_bytes. rewrite <- !app_assoc. reflexivity.
Qed.

Lemma restore_frame_data_ok M0 rest :
  frame_ready → frame_ok m node →
  unchanged_outside [blk] m0 M0 →
  ldp M0 (FLD node' WASMInterpFrame "csp") = uint64 (sp_boundary_of m0 func' node') →
  ∃ m', restore_frame_data func' node' (param_cells m0 func') (local_cells m0 func')
          (sp_bottom_of m0 func' node') (sp_boundary_of m0 func' node') (stack_cells m0 func')
          (bb_num m node) (set_mem M0 (set_gp (FRead (data_bytes ++ rest)) w))
        = Ok tt (set_mem m' (set_gp (FRead rest) w))
    ∧ (∀ i, 0 <= i < bb_num m node →
         block_rel m (func_code m func) (ldp m (FLD node WASMInterpFrame "sp_bottom"))
           (block_addr (ldp m (FLD node WASMInterpFrame "csp_bottom")) i)
           m' (func_code m0 func') (sp_bottom_of m0 func' node')
           (block_addr (sp_boundary_of m0 func' node') i))
    ∧ ldp m' (FLD node' WASMInterpFrame "csp")
      = uint64 (block_addr (sp_boundary_of m0 func' node') (bb_num m node))
    ∧ load m' (LP node') (Z.to_nat (4 * param_cells m0 func'))
      = load m (LP node) (Z.to_nat (4 * param_cells m0 func'))
    ∧ load m' (LP node' + param_cells m0 func' * 4) (Z.to_nat (4 * local_cells m0 func'))
      = load m (LP node + param_cells m0 func' * 4) (Z.to_nat (4 * local_cells m0 func'))
    ∧ load m' (sp_bottom_of m0 func' node') (Z.to_nat (4 * stack_cells m0 func'))
      = load m (ldp m (FLD node WASMInterpFrame "sp_bottom")) (Z.to_nat (4 * stack_cells m0 func'))
    ∧ unchanged_outside
        [(FLD node' WASMInterpFrame "csp", 8);
         (LP node', csp_boundary_of m0 func' node' - LP node')] M0 m'.
Proof.
  intros Hr Hok Hu Hcsp. destruct (blk_bounds Hr) as (B1&B2&B3&B4&B5).
  destruct (cells_nonneg m0 func') as (?&?&?&?). pose proof (rd_blocks Hr) as Hbb.
  assert (0 <= bb_num m node) as Hb0 by (by apply (wrap_range 32)).
  unfold data_bytes. rewrite <- (rd_param Hr), <- (rd_local Hr), <- (rd_stack Hr).
  set (bs1 := load m (LP node) _). set (bs2 := load m (LP node + _) _).
  set (bs3 := load m (ldp m (FLD node WASMInterpFrame "sp_bottom")) _).
  destruct (restore_blocks_gp blk m (func_code m func) (ldp m (FLD node WASMInterpFrame "sp_bottom"))
    (ldp m (FLD node WASMInterpFrame "csp_bottom")) node' func' (sp_bottom_of m0 func' node')
    (sp_boundary_of m0 func' node') m0 (Z.to_nat (bb_num m node)) 0
    (set_mem M0 (set_gp (FRead ((concat (map (fun i => block_bytes m (func_code m func)
        (ldp m (FLD node WASMInterpFrame "sp_bottom"))
        (ldp m (FLD node WASMInterpFrame "csp_bottom") + i * SIZEOF WASMBranchBlock))
      (seqZ 0 (bb_num m node))) ++ bs1 ++ bs2 ++ bs3) ++ rest)) w))
    (bs1 ++ bs2 ++ bs3 ++ rest)) as (m1&Hr1&Hb1&Hu1&Hc1&Hn1);
    [apply Hr|exact Hu|lia|unfold block_addr; lia| | | |].
  { rewrite Z2Nat.id by done. rewrite B5. unfold csp_boundary_of, block_addr. lia. }
  { intros i Hi. apply (fo_blocks _ _ Hok). lia. }
  { simpl. rewrite Z2Nat.id by done. by rewrite <- !app_assoc. }
  rewrite Z2Nat.id in * by done. unfold restore_frame_data. erewrite mbind_ok by exact Hr1.
  erewrite mbind_ok by (apply (fread_gp _ bs1); [reflexivity|unfold bs1; rewrite length_load; lia]).
  erewrite mbind_ok by (apply (fread_gp _ bs2); [reflexivity|unfold bs2; rewrite length_load; lia]).
  erewrite (fread_gp _ bs3); [|reflexivity|unfold bs3; rewrite length_load; lia].
  eexists. split; [reflexivity|]. cbn [wmem set_mem set_gp].
  set (m2 := store (store (store m1 _ bs1) _ bs2) _ bs3).
  assert (unchanged_outside [(LP node', sp_boundary_of m0 func' node' - LP node')] m1 m2) as Hu2.
  { intros x Hx. specialize (Hx _ (or_introl eq_refl)). unfold in_region in Hx. simpl in Hx.
    unfold sp_boundary_of, sp_bottom_of in *.
    unfold m2. rewrite !store_out by (unfold bs1, bs2, bs3; rewrite ?length_load; lia). done. }
  split_and!.
  - intros i Hi. eapply block_rel_preserved; [exact Hu2| |apply Hb1; lia].
    intros r [<-|[]]. unfold disjoint_region, block_addr. simpl. lia.
  - unfold ldp, load_Z. rewrite (unchanged_load _ m1 m2 _ _ Hu2)
      by (intros r [<-|[]]; unfold disjoint_region; simpl; lia).
    destruct (decide (bb_num m node = 0)) as [E|E].
    + rewrite Hn1 by lia. etransitivity; [exact Hcsp|]. rewrite E. unfold block_addr. f_equal; lia.
    + apply Hc1. lia.
  - unfold m2. rewrite 2!load_store_ne by (unfold bs2, bs3, sp_bottom_of; rewrite ?length_load; lia).
    apply load_store_eq. unfold bs1. by rewrite length_load.
  - unfold m2. rewrite load_store_ne by (unfold bs3, sp_bottom_of; rewrite ?length_load; lia).
    apply load_store_eq. unfold bs2. by rewrite length_load.
  - unfold m2. apply load_store_eq. unfold bs3. by rewrite length_load.
  - eapply unchanged_weaken; [|eapply unchanged_trans; [exact Hu1|exact Hu2]].
    intros x r Hx Hin. unfold in_region in *. simpl in Hx.
    destruct Hx as [<-|[<-|[<-|[]]]]; simpl in Hin.
    + eexists. split; [by left|]. simpl. lia.
    + eexists. split; [by right; left|]. unfold block_addr in *. simpl. unfold csp_boundary_of, block_addr. lia.
    + eexists. split; [by right; left|]. simpl. lia.
Qed.

Lemma words_load o v :
  In (o, v) words → ldp (store_words m0 node' words) (node' + o) = uint64 v.
Proof.
  intros Hin. apply store_words_load; [done| |].
  - by apply (bool_decide_unpack (NoDup (words.*1))); vm_compute.
  - unfold words, frame_words. intros p q Hp Hq. simpl in Hp, Hq.
    repeat destruct Hp as [<-|Hp]; try done; repeat destruct Hq as [<-|Hq]; try done; simpl; lia.
Qed.

Lemma restore_frame_ok rest :
  frame_ready → frame_ok m node →
  w_gp w = FRead (frame_bytes m base node ++ rest) →
  ∃ m', restore_WASMInterpFrame i' w = Ok tt (set_mem m' (set_gp (FRead rest) w))
    ∧ frame_rel m node m' node' func'
    ∧ unchanged_outside [blk] m0 m'.
Proof.
  intros Hr Hok Hf. destruct (blk_bounds Hr) as (B1&B2&B3&B4&B5).
  rewrite (restore_frame_header rest Hr Hf).
  assert (unchanged_outside [blk] m0 (store_words m0 node' words)) as Huw.
  { apply store_words_unchanged. rewrite B5, B4. unfold words, frame_words.
    repeat constructor; simpl; lia. }
  destruct (restore_frame_data_ok (store_words m0 node' words) rest Hr Hok Huw)
    as (m'&Hrun&Hb&Hc&Hl1&Hl2&Hst&Hu).
  { apply words_load. unfold words, frame_words. simpl. tauto. }
  exists m'. split; [exact Hrun|].
  assert (unchanged_outside [blk] m0 m') as Hblk.
  { eapply unchanged_weaken; [|eapply unchanged_trans; [exact Huw|exact Hu]].
    intros x r Hx Hin. exists blk. split; [by left|]. unfold in_region in *. rewrite B5, B4.
    simpl in Hx. destruct Hx as [<-|[<-|[<-|[]]]]; simpl in Hin; lia. }
  split; [|done].
  assert (∀ o v, In (o, v) words → o ≠ OFS WASMInterpFrame "csp" →
                 ldp m' (node' + o) = uint64 v) as Hw.
  { intros o v Hin Ho. rewrite <- (words_load o v Hin). unfold ldp, load_Z. f_equal.
    eapply unchanged_load; [exact Hu|].
    unfold words, frame_words in Hin. simpl in Hin.
    repeat destruct Hin as [Ei|Hin]; simplify_eq; try done;
      intros r [<-|[<-|[]]]; unfold disjoint_region; simpl; lia. }
  destruct (view_at m' Hr Hblk) as (E1&E2&E3&E4&E5).
  assert (sp_bottom_of m' func' node' = sp_bottom_of m0 func' node') as F1
    by (unfold sp_bottom_of; by rewrite E2, E3).
  assert (sp_boundary_of m' func' node' = sp_boundary_of m0 func' node') as F2
    by (unfold sp_boundary_of; by rewrite F1, E4).
  assert (csp_boundary_of m' func' node' = csp_boundary_of m0 func' node') as F3
    by (unfold csp_boundary_of; by rewrite F2, E5).
  destruct (rd_node Hr) as [Hn0 Hn1]. pose proof (rd_func' Hr).
  assert (∀ z, 0 <= z → z < 2 ^ 64 → uint64 z = z) as Hsm by (intros; by apply wrap_small).
  destruct (cells_nonneg m0 func') as (?&?&?&?).
  assert (0 <= bb_num m node) as Hb0 by (by apply (wrap_range 32)).
  pose proof (rd_blocks Hr) as Hbb.
  constructor; rewrite ?F1, ?F2, ?F3, ?E1, ?E2, ?E3, ?E4.
  - erewrite Hw; [|by unfold words, frame_words; simpl; tauto|done]. apply Hsm; lia.
  - erewrite Hw; [|by unfold words, frame_words; simpl; tauto|done].
    change (256 ^ Z.of_nat 8) with (2 ^ 64). unfold uint64, wrap. by rewrite Zplus_mod_idemp_l.
  - erewrite Hw; [|by unfold words, frame_words; simpl; tauto|done]. apply Hsm; lia.
  - erewrite Hw; [|by unfold words, frame_words; simpl; tauto|done]. apply Hsm; lia.
  - erewrite Hw; [|by unfold words, frame_words; simpl; tauto|done].
    destruct (fo_sp _ _ Hok) as [k Ek]. rewrite Ek.
    replace (ldp m (FLD node WASMInterpFrame "sp_bottom") + k * 4
             - ldp m (FLD node WASMInterpFrame "sp_bottom")) with (k * 4) by lia.
    rewrite Z.div_mul by lia. change (256 ^ Z.of_nat 8) with (2 ^ 64). unfold uint64, wrap.
    rewrite (Z.add_comm (sp_bottom_of m0 func' node')).
    rewrite <- (Zplus_mod_idemp_l (k mod 2 ^ 64 * 4)), Zmult_mod_idemp_l, Zplus_mod_idemp_l.
    done.
  - erewrite Hw; [|by unfold words, frame_words; simpl; tauto|done]. apply Hsm; lia.
  - rewrite Hc. apply Hsm; unfold csp_boundary_of, block_addr in *; lia.
  - erewrite Hw; [|by unfold words, frame_words; simpl; tauto|done]. apply Hsm; lia.
  - exact Hb.
  - replace (Z.to_nat (4 * (param_cells m0 func' + local_cells m0 func')))
      with (Z.to_nat (4 * param_cells m0 func') + Z.to_nat (4 * local_cells m0 func'))%nat by lia.
    rewrite !load_app, Hl1. f_equal.
    replace (Z.of_nat (Z.to_nat (4 * param_cells m0 func'))) with (param_cells m0 func' * 4) by lia.
    exact Hl2.
  - exact Hst.
Qed.
End Frame.
