(* ===== verification/Checkpoint.v ===== *)
(** [dump_runtime] and [restore_runtime] (wasm_memory.c): the object table goes
    to pool_info.img, and the restoring process makes a new table with the same
    kinds, sizes and offsets from blocks it allocates itself. *)
From stdpp Require Import base gmap list numbers strings.
From Stdlib Require Import Strings.Byte ZArith Lia.
From S2P Require Import Prelude CMemory WasmTypes PoolInfo Table ExecEnv Memory Dump Restore.
From S2P Require Import Format Codec Records Searches Heap Frames.

(** * Writing pool_info.img

    The image is the result of [dump_table]: three integers per object, and for
    an array the offsets of its further elements. *)

Definition entry_bytes (i : Pool_Elem) : list byte :=
  le_bytes 4 (p_abs i) ++ le_bytes 4 (type_code (type i)) ++ le_bytes 4 (size i).

(** The loop [for (i = 1; i < info->size; i++)] over the nodes of an array,
    which must end exactly at the last of them. *)
Fixpoint dump_list (k : nat) (p : list Pool_Elem) : C (list byte) :=
  match k with
  | O => match p with [] => mret [] | _ => mexit 1 end
  | S k =>
      match p with
      | [] => mstuck
      | e :: p => let* bs := dump_list k p in mret (le_bytes 4 (p_abs e) ++ bs)
      end
  end.

Fixpoint dump_table (root : list Pool_Info) : C (list byte) :=
  match root with
  | [] => mret []
  | info :: root =>
      if dump_skipped (type info) then dump_table root
      else
        dump_object info ;;;
        let* nodes := match chain info with
                      | [] => mret []
                      | p => dump_list (Z.to_nat (size info - 1)) p
                      end in
        let* rest := dump_table root in
        mret (entry_bytes info ++ nodes ++ rest)
  end.

Definition dump_runtime : C (list byte) :=
  let* base := get_base_addr in
  init_dump base ;;;
  let* root := gets root_info in
  dump_table root.

(** * Reading pool_info.img *)

Definition take_int (img : list byte) : option (Z * list byte) :=
  if Z.of_nat (length img) <? 4 then None
  else Some (int32 (le_Z (take 4 img)), drop 4 img).

(** The cases of the [switch] of [restore_runtime]. *)
Inductive entry_class := ExEntry | FrameEntry | DropEntry | BufEntry | ArrayEntry.

Definition class_of (t : Data_Type) : entry_class :=
  match t with
  | WASMExecEnvT | WASMTypeT | WASMTableInstanceT | StringNodeT | WASMFunctionT => ExEntry
  | WASMInterpFrameT => FrameEntry
  | gc_heap_tT | WASIContextT | fd_tableT | fd_prestatsT | argv_environ_valuesT | WASI_FILE_T =>
      DropEntry
  | charT | charTT | uint8T | uint16T | uint32T | uint64T | WASMFunctionTT | WASMTypeTT
  | WASMDataSegTT | WASMMemoryInstanceTT | WASMTableInstanceTT => BufEntry
  | _ => ArrayEntry
  end.

(** The elements [i], [i+1], ... of an array of [dsize]-byte structures. *)
Fixpoint read_chain (k : nat) (i p_raw dsize : Z) (t : Data_Type) (img : list byte) :
    option (list Pool_Elem * list byte) :=
  match k with
  | O => Some ([], img)
  | S k =>
      match take_int img with
      | None => None
      | Some (abs, img) =>
          match read_chain k (i + 1) p_raw dsize t img with
          | None => None
          | Some (es, img) => Some (mkElem abs (p_raw + i * dsize) (-1) t :: es, img)
          end
      end
  end.

Definition add_info (i : Pool_Info) : C unit :=
  modify (fun w => set_root_info (i :: root_info w) w).

Section Restore_runtime.
Context (s : memory_state).

Definition restore_ex (abs size : Z) (t : Data_Type) (dsize : Z) : C unit :=
  if uint64 (dsize + size) =? 0 then mexit 1
  else
    let* p := wasm_runtime_malloc s (dsize + size) in
    (if decide (t = WASMExecEnvT) then modify (set_WASMExecEnv p) else skip) ;;;
    add_info (mkInfo (mkElem abs p size t) []).

Definition restore_buf (abs size : Z) (t : Data_Type) (dsize : Z) : C unit :=
  let* p := wasm_runtime_malloc s (dsize * size) in
  add_info (mkInfo (mkElem abs p size t) []).

Definition restore_array (abs size : Z) (t : Data_Type) (dsize : Z) (img : list byte) :
    C (list byte) :=
  if uint64 (dsize * size) =? 0 then mexit 1
  else
    let* p := wasm_runtime_malloc s (dsize * size) in
    (if decide (t = WASMModuleT) then modify (set_WASMModule p) else skip) ;;;
    match read_chain (Z.to_nat (size - 1)) 1 p dsize t img with
    | None => mstuck
    | Some (es, img) => add_info (mkInfo (mkElem abs p size t) es) ;;; mret img
    end.

Definition restore_frame_node (abs size : Z) (t : Data_Type) : C unit :=
  modify (fun w => set_root_frame (insert_frame (mkInfo (mkElem abs NULL size t) []) (root_frame w)) w).

Definition restore_entry (abs size : Z) (t : Data_Type) (img : list byte) : C (list byte) :=
  match class_of t with
  | FrameEntry => restore_frame_node abs size t ;;; mret img
  | DropEntry => mret img
  | cls =>
      match data_size t with
      | None => mstuck
      | Some dsize =>
          match cls with
          | ExEntry => restore_ex abs size t dsize ;;; mret img
          | BufEntry => restore_buf abs size t dsize ;;; mret img
          | _ => restore_array abs size t dsize img
          end
      end
  end.

(** The loop ends at the first short read of an offset; every turn consumes
    twelve bytes at least. *)
Fixpoint restore_table (fuel : nat) (img : list byte) : C unit :=
  match fuel with
  | O => mstuck
  | S fuel =>
      match take_int img with
      | None => skip
      | Some (abs, img) =>
          match take_int img with
          | None => mstuck
          | Some (t, img) =>
              match take_int img with
              | None => mstuck
              | Some (size, img) =>
                  match type_of_code t with
                  | None => mstuck
                  | Some t =>
                      let* img := restore_entry abs size t img in restore_table fuel img
                  end
              end
          end
      end
  end.

(** ** Frames and imports ([restore_frame_internal]) *)

Definition restore_frame_record : C unit :=
  let* t := fread_int GP in
  let* sz := fread_int GP in
  let* abs := fread_int GP in
  let* info := get_frame_info abs in
  match info with
  | None => mstuck
  | Some i => restore_WASMInterpFrame i
  end.

Fixpoint restore_frame_loop (fuel : nat) : C unit :=
  match fuel with
  | O => mstuck
  | S fuel =>
      let* eof := at_eof GP in
      if (eof : bool) then skip else restore_frame_record ;;; restore_frame_loop fuel
  end.

(** The WASI context is made anew and native functions are looked up by name,
    by the code of other components: [init_wasi] and [resolve_symbol], which
    gives the function, its signature, attachment and calling convention. *)
Context (init_wasi : C unit) (resolve_symbol : mem → Z → Z → Z → Z * Z * Z * Z).

Definition link_import (import : Z) : C unit :=
  let* m := gets wmem in
  let '(linked_func, signature, attachment, call_conv_raw) :=
    resolve_symbol m (load_Z m (FLD import WASMImport "u.names.module_name") 8)
      (load_Z m (FLD import WASMImport "u.names.field_name") 8)
      (load_Z m (FLD import WASMImport "u.function.func_type") 8) in
  st 8 (FLD import WASMImport "u.function.func_ptr_linked") linked_func ;;;
  st 8 (FLD import WASMImport "u.function.signature") signature ;;;
  st 8 (FLD import WASMImport "u.function.attachment") attachment ;;;
  st 1 (FLD import WASMImport "u.function.call_conv_raw") call_conv_raw.

Definition link_imports (module : Z) : C unit :=
  let* import := ld 8 (FLD module WASMModule "import_functions") in
  let* n := ld 4 (FLD module WASMModule "import_function_count") in
  mfor (seqZ 0 n) (fun i => link_import (import + i * SIZEOF WASMImport)).

Definition restore_frame_internal : C unit :=
  let* infos := get_root_frame_info in
  let* env := gets r_exec_env in
  let* placed := alloc_frames env NULL infos in
  modify (set_root_frame placed) ;;;
  let* n := gets (fun w => match w_gp w with FRead rest => length rest | _ => O end) in
  restore_frame_loop (S n) ;;;
  init_wasi ;;;
  let* module := gets r_module in
  link_imports module.

(** The frames are put before the objects in the table; without a frame the
    code follows a null pointer. *)
Definition restore_runtime (img : list byte) : C unit :=
  restore_table (S (length img)) img ;;;
  restore_internal ;;;
  restore_frame_internal ;;;
  let* frames := gets root_frame in
  match frames with
  | [] => mstuck
  | _ => modify (fun w => set_root_info (frames ++ root_info w) w)
  end.
End Restore_runtime.
