(* ===== verification/Extents.v ===== *)
(** Every field of a record lies inside its object: the parts of an object that
    a restore routine writes are inside the block that [restore_runtime]
    allocates for it. *)
From stdpp Require Import base gmap list numbers strings.
From Stdlib Require Import Strings.Byte ZArith Lia.
From S2P Require Import Prelude CMemory WasmTypes PoolInfo Dump Restore Format Codec Records.
From S2P Require Import Searches Heap Frames Checkpoint.

(** * Sizes of objects *)

(** The bytes an object may use: for an array, one element. *)
Definition extent (t : Data_Type) (sz : Z) : Z :=
  match data_size t with
  | None => 0
  | Some d =>
      match class_of t with
      | ExEntry => d + sz
      | BufEntry => d * sz
      | _ => d
      end
  end.

(** The variable part of an object is as long as its recorded size says. *)
Definition size_ok (t : Data_Type) (m : mem) (e : Pool_Elem) : Prop :=
  match t with
  | WASMFunctionT => load_Z m (FLD (p_raw e) WASMFunction "local_count") 4 <= size e
  | WASMTypeT =>
      load_Z m (FLD (p_raw e) WASMType "param_count") 2
      + load_Z m (FLD (p_raw e) WASMType "result_count") 2 <= size e
  | WASMTableInstanceT => size e < 2 ^ 64
  | _ => True
  end.

Definition within (n : Z) (it : item) : Prop :=
  0 <= (item_region it).1 ∧ (item_region it).1 + (item_region it).2 <= n.

Definition withinb (n : Z) (it : item) : bool :=
  (0 <=? (item_region it).1) && ((item_region it).1 + (item_region it).2 <=? n).

Lemma withinb_ok n its : forallb (withinb n) its = true → Forall (within n) its.
Proof.
  intros H. apply Forall_forall. intros i Hi%list_elem_of_In. rewrite forallb_forall in H.
  specialize (H i Hi). unfold withinb, within in *. zbool. lia.
Qed.

(** * Extents of the formats *)

Lemma within_init_value m node u tag k n :
  0 <= u → u + 16 <= n → Forall (within n) (items m node k) →
  Forall (within n) (items m node (fmt_init_value u tag k)).
Proof.
  intros Hu Hn Hk. unfold fmt_init_value.
  repeat case_match; simpl; (constructor; [unfold within; simpl; lia|done]).
Qed.

Lemma within_init_expr m node o k n :
  0 <= o → o + 24 <= n → Forall (within n) (items m node k) →
  Forall (within n) (items m node (fmt_init_expr o k)).
Proof.
  intros Ho Hn Hk. cbn [items fmt_init_expr]. constructor; [unfold within; simpl; lia|].
  apply within_init_value; [lia|lia|done].
Qed.

Lemma within_ptrs m node sz n :
  8 * sz <= n → Forall (within n) (items m node (fmt_ptrs sz)).
Proof.
  intros Hn. unfold fmt_ptrs.
  assert (∀ l, Forall (fun i => 0 <= i < sz) l →
    Forall (within n) (items m node (fseq (map (fun i => FPtr (i * 8)) l) FDone))) as H.
  { induction 1 as [|i l Hi _ IH]; [constructor|]. constructor; [unfold within; simpl; lia|done]. }
  apply H, Forall_forall. intros i Hi%elem_of_seqZ. lia.
Qed.

Ltac solve_within :=
  repeat first
    [ apply within_init_expr; [lia|lia|]
    | apply Forall_cons; split; [unfold within; simpl; lia|]
    | apply Forall_nil; exact I ].

Lemma within_global_value m node u tag n :
  0 <= u → u + 16 <= n → Forall (within n) (items m node (fmt_global_value u tag FDone)).
Proof.
  intros. unfold fmt_global_value. case_match; [constructor|].
  by apply within_init_value.
Qed.

Lemma within_exec_env m node codes n :
  OFS WASMExecEnv "wasm_stack.s.bottom" <= n → Forall (within n) (items m node (fmt_WASMExecEnv codes)).
Proof.
  intros Hn. assert (forallb (withinb (OFS WASMExecEnv "wasm_stack.s.bottom")) (items m node (fmt_WASMExecEnv codes)) = true)
    as H by (vm_compute; reflexivity).
  apply withinb_ok in H. eapply Forall_impl; [exact H|]. unfold within. intros. lia.
Qed.

Lemma within_buffer m node elem sz n :
  elem * sz <= n → Forall (within n) (items m node (fmt_buffer elem sz)).
Proof. intros. constructor; [unfold within; simpl item_region; simpl fst; simpl snd; lia|constructor]. Qed.

(** Evaluates the extent of a kind. *)
Ltac eval_extent :=
  unfold extent; cbn [class_of];
  match goal with |- context [data_size ?t] =>
    let v := eval vm_compute in (data_size t) in change (data_size t) with v
  end; cbv iota.

Lemma within_WASMFunction m node sz :
  load_Z m (FLD node WASMFunction "local_count") 4 <= sz → 0 <= sz →
  Forall (within (extent WASMFunctionT sz)) (items m node fmt_WASMFunction).
Proof. intros. eval_extent. cbn [items fmt_WASMFunction fseq foldr]. solve_within. Qed.

Lemma within_WASMType m node sz :
  load_Z m (FLD node WASMType "param_count") 2
  + load_Z m (FLD node WASMType "result_count") 2 <= sz → 0 <= sz →
  Forall (within (extent WASMTypeT sz)) (items m node fmt_WASMType).
Proof. intros. eval_extent. cbn [items fmt_WASMType fseq foldr]. solve_within. Qed.

Lemma within_StringNode m node sz :
  0 <= sz → Forall (within (extent StringNodeT sz)) (items m node (fmt_StringNode sz)).
Proof. intros. eval_extent. cbn [items fmt_StringNode fseq foldr]. solve_within. Qed.

Lemma within_WASMTableInstance m node sz :
  0 <= sz < 2 ^ 64 →
  Forall (within (extent WASMTableInstanceT sz)) (items m node (fmt_WASMTableInstance sz)).
Proof.
  intros. eval_extent. cbn [items fmt_WASMTableInstance fseq foldr].
  unfold uint64. rewrite wrap_small by done. solve_within.
Qed.

(** The kinds with an initializer expression. *)
Lemma within_WASMGlobal m node sz :
  Forall (within (extent WASMGlobalT sz)) (items m node fmt_WASMGlobal).
Proof. eval_extent. cbn [items fmt_WASMGlobal fseq foldr]. solve_within. Qed.

Lemma within_WASMTableSeg m node sz :
  Forall (within (extent WASMTableSegT sz)) (items m node fmt_WASMTableSeg).
Proof. eval_extent. cbn [items fmt_WASMTableSeg fseq foldr]. solve_within. Qed.

Lemma within_WASMDataSeg m node sz :
  Forall (within (extent WASMDataSegT sz)) (items m node fmt_WASMDataSeg).
Proof. eval_extent. cbn [items fmt_WASMDataSeg fseq foldr]. solve_within. Qed.

Lemma within_WASMGlobalInstance m node sz :
  Forall (within (extent WASMGlobalInstanceT sz)) (items m node fmt_WASMGlobalInstance).
Proof.
  eval_extent. cbn [items fmt_WASMGlobalInstance fseq foldr]. solve_within.
  by apply within_global_value.
Qed.

Lemma within_WASMImport m node sz :
  Forall (within (extent WASMImportT sz)) (items m node fmt_WASMImport).
Proof.
  eval_extent. cbn [items fmt_WASMImport fseq foldr]. solve_within.
  unfold fmt_import_data. repeat case_match; apply withinb_ok; vm_compute; reflexivity.
Qed.

Lemma within_WASMFunctionInstance m node sz :
  Forall (within (extent WASMFunctionInstanceT sz)) (items m node fmt_WASMFunctionInstance).
Proof.
  eval_extent. cbn [items fmt_WASMFunctionInstance fseq foldr]. solve_within.
  unfold fmt_func_data. case_match; apply withinb_ok; vm_compute; reflexivity.
Qed.

Lemma codec_extent t c m e :
  codec_of t = Some c → (c_pre (t := t) ≠ PAbs → 0 <= size e) → size_ok t m e →
  Forall (within (extent t (size e))) (items m (p_raw e) (c_fmt m e)).
Proof.
  intros Hc Hsz Hok.
  destruct t; inversion Hc; subst c; clear Hc;
    lazymatch goal with
    | |- context [@c_fmt charTT _] => apply within_ptrs, Z.le_refl
    | |- context [@c_fmt WASMFunctionTT _] => apply within_ptrs, Z.le_refl
    | |- context [@c_fmt WASMTypeTT _] => apply within_ptrs, Z.le_refl
    | |- context [@c_fmt WASMDataSegTT _] => apply within_ptrs, Z.le_refl
    | |- context [@c_fmt WASMMemoryInstanceTT _] => apply within_ptrs, Z.le_refl
    | |- context [@c_fmt WASMTableInstanceTT _] => apply within_ptrs, Z.le_refl
    | |- context [@c_fmt charT _] => apply within_buffer, Z.le_refl
    | |- context [@c_fmt uint8T _] => apply within_buffer, Z.le_refl
    | |- context [@c_fmt uint16T _] => apply within_buffer, Z.le_refl
    | |- context [@c_fmt uint32T _] => apply within_buffer, Z.le_refl
    | |- context [@c_fmt uint64T _] => apply within_buffer, Z.le_refl
    | |- context [@c_fmt WASMExecEnvT _] =>
        apply within_exec_env; specialize (Hsz ltac:(discriminate)); eval_extent; lia
    | |- context [@c_fmt WASMFunctionT _] =>
        apply within_WASMFunction; [done|by apply Hsz]
    | |- context [@c_fmt WASMTypeT _] => apply within_WASMType; [done|by apply Hsz]
    | |- context [@c_fmt StringNodeT _] => apply within_StringNode; by apply Hsz
    | |- context [@c_fmt WASMTableInstanceT _] =>
        apply within_WASMTableInstance; split; [by apply Hsz|done]
    | |- context [@c_fmt InitializerExpressionT _] => by apply within_init_expr
    | |- context [@c_fmt WASMGlobalT _] => apply within_WASMGlobal
    | |- context [@c_fmt WASMTableSegT _] => apply within_WASMTableSeg
    | |- context [@c_fmt WASMDataSegT _] => apply within_WASMDataSeg
    | |- context [@c_fmt WASMGlobalInstanceT _] => apply within_WASMGlobalInstance
    | |- context [@c_fmt WASMImportT _] => apply within_WASMImport
    | |- context [@c_fmt WASMFunctionInstanceT _] => apply within_WASMFunctionInstance
    | _ => apply withinb_ok; vm_compute; reflexivity
    end.
Qed.
