(* ===== verification/TableImage.v ===== *)
(** pool_info.img: what [dump_runtime] writes into it, [restore_runtime] turns
    into a table of the same objects in newly allocated, disjoint blocks, and
    into the list of frames in the order of their offsets. *)
From stdpp Require Import base gmap list numbers strings.
From Stdlib Require Import Strings.Byte ZArith Lia.
From S2P Require Import Prelude CMemory WasmTypes PoolInfo Table ExecEnv Memory Dump Restore.
From S2P Require Import Format Codec Records Searches Heap Frames Checkpoint Extents.

(** * Writing *)

Definition info_entry (i : Pool_Info) : list byte :=
  entry_bytes i ++ concat (map (fun e => le_bytes 4 (p_abs e)) (chain i)).

Definition table_bytes (root : list Pool_Info) : list byte :=
  concat (map (fun i => if dump_skipped (type (head i)) then [] else info_entry i) root).

(** An array is complete: as many further nodes as its size says. *)
Definition chain_ok (i : Pool_Info) : Prop :=
  chain i = [] ∨ Z.of_nat (length (chain i)) = size i - 1.

Lemma dump_list_ok es w :
  dump_list (length es) es w = Ok (concat (map (fun e => le_bytes 4 (p_abs e)) es)) w.
Proof.
  induction es as [|e es IH]; [done|]. cbn [length dump_list].
  by erewrite mbind_ok by exact IH.
Qed.

(** A list that is too long ends the process. *)
Lemma dump_list_long k es w : (k < length es)%nat → dump_list k es w = Exited 1.
Proof.
  revert es. induction k as [|k IH]; intros [|e es] Hl; simpl in Hl; try lia; [done|].
  cbn [dump_list]. unfold mbind. by rewrite IH by lia.
Qed.

Lemma dump_table_ok root : ∀ w out g,
  w_fp w = FWrite out → w_gp w = FWrite g → Forall (dumpable w) root → Forall chain_ok root →
  ∃ w1 g1, dump_table root w = Ok (table_bytes root) w1 ∧ same_heap w w1
    ∧ w_fp w1 = FWrite (out ++ heap_bytes (wmem w) (dump_base w) root) ∧ w_gp w1 = FWrite g1.
Proof.
  induction root as [|i root IH]; intros w out g Hf Hg Hd Hc.
  - exists w, g. unfold heap_bytes. simpl. by rewrite app_nil_r.
  - apply Forall_cons in Hd as [Hi Hr], Hc as [Hci Hcr].
    destruct (dump_object_ok i w out g) as (w1&g1&Hr1&Hs1&Hf1&Hg1); try done.
    destruct (IH w1 _ g1 Hf1 Hg1) as (w2&g2&Hr2&Hs2&Hf2&Hg2); [|done|].
    { eapply Forall_impl; [exact Hr|]. intros j. by rewrite Hs1. }
    exists w2, g2. cbn [dump_table]. unfold table_bytes. cbn [map concat].
    split_and!; [|by transitivity w1| |done].
    + destruct (dump_skipped (type i)) eqn:Es.
      * unfold dump_object in Hr1. rewrite Es in Hr1. inversion Hr1; subst w1. exact Hr2.
      * erewrite mbind_ok by exact Hr1.
        assert ((match chain i with
                 | [] => mret []
                 | p => dump_list (Z.to_nat (size i - 1)) p
                 end) w1 = Ok (concat (map (fun e => le_bytes 4 (p_abs e)) (chain i))) w1) as Hl.
        { destruct Hci as [->|E]; [done|]. destruct (chain i) as [|e es] eqn:Ec; [done|].
          rewrite <- E, Nat2Z.id. apply dump_list_ok. }
        erewrite mbind_ok by exact Hl. erewrite mbind_ok by exact Hr2.
        unfold info_entry. by rewrite <- app_assoc.
    + rewrite Hf2, (sh_mem _ _ Hs1), (sh_base _ _ Hs1). unfold heap_bytes. simpl.
      by rewrite <- app_assoc.
Qed.

(** Frames go to frame.img: they are silent in dump.img. *)
Lemma frame_silent w (i : Pool_Info) : type (head i) = WASMInterpFrameT → silent w i.
Proof.
  intros Ht w1 _ [g Hg].
  assert (dump_object i w1 = dump_WASMInterpFrame i w1) as E
    by (unfold dump_object; by rewrite Ht).
  do 2 eexists. rewrite E. split; [by apply dump_frame_gp|]. done.
Qed.

Lemma skipped_silent w (i : Pool_Info) : dump_skipped (type (head i)) = true → silent w i.
Proof.
  intros Ht w1 _ [g Hg]. unfold dump_object. rewrite Ht. by exists w1, g.
Qed.

(** * Reading *)

Lemma take_int_app v rest :
  take_int (le_bytes 4 v ++ rest) = Some (int32 v, rest).
Proof.
  unfold take_int. rewrite length_app, length_le_bytes.
  rewrite (proj2 (Z.ltb_ge _ _)) by lia.
  rewrite take_app_eq, drop_app_eq by (by rewrite length_le_bytes). by rewrite le_Z_int32.
Qed.

(** The node that receives an object: the same node, moved. *)
Fixpoint rebuild_chain (i p dsize : Z) (t : Data_Type) (es : list Pool_Elem) : list Pool_Elem :=
  match es with
  | [] => []
  | e :: es => mkElem (p_abs e) (p + i * dsize) (-1) t :: rebuild_chain (i + 1) p dsize t es
  end.

Definition int32_ok (z : Z) : Prop := - 2 ^ 31 <= z < 2 ^ 31.

Lemma read_chain_ok es : ∀ i p dsize t rest,
  Forall (fun e => int32_ok (p_abs e)) es →
  read_chain (length es) i p dsize t (concat (map (fun e => le_bytes 4 (p_abs e)) es) ++ rest)
  = Some (rebuild_chain i p dsize t es, rest).
Proof.
  induction es as [|e es IH]; intros i p dsize t rest H; [done|].
  apply Forall_cons in H as [H1 H]. cbn [length read_chain map concat].
  rewrite <- app_assoc, take_int_app, IH by done. by rewrite int32_small.
Qed.

Definition rebuild (i : Pool_Info) (p dsize : Z) : Pool_Info :=
  mkInfo (mkElem (p_abs i) p (size i) (type i)) (rebuild_chain 1 p dsize (type i) (chain i)).

(** The bytes an entry asks for. *)
Definition request (i : Pool_Info) (dsize : Z) : Z :=
  match class_of (type (head i)) with
  | ExEntry => dsize + size i
  | _ => dsize * size i
  end.

(** An entry that can be restored as an object. *)
Record entry_ok (i : Pool_Info) (dsize : Z) : Prop := {
  eo_size : data_size (type (head i)) = Some dsize;
  eo_pos : 0 < dsize;
  eo_abs : Forall (fun e => int32_ok (p_abs e)) (elems i);
  eo_int : int32_ok (size i);
  eo_class : match class_of (type (head i)) with
             | ExEntry | BufEntry => chain i = [] ∧ 0 <= size i
             | ArrayEntry => 1 <= size i ∧ Z.of_nat (length (chain i)) = size i - 1
             | _ => False
             end;
  eo_request : request i dsize < 2 ^ 32
}.

(** The block the new node occupies. *)
Definition block_of (i : Pool_Info) (dsize : Z) (p : Z) : region := (p, Z.max 1 (request i dsize)).

(** What [restore_runtime]'s loop keeps of a world. *)
Record same_process (w w' : world) : Prop := {
  sp_fp : w_fp w' = w_fp w;
  sp_gp : w_gp w' = w_gp w;
  sp_pool : pool_allocator w' = pool_allocator w
}.

#[export] Instance same_process_preorder : PreOrder same_process.
Proof.
  split.
  - by intros w.
  - intros w1 w2 w3 [] []. constructor; congruence.
Qed.

Definition kept (bs : list region) (m m' : mem) : Prop :=
  Forall (fun b => ∀ x, in_region x b → m' !!! x = m !!! x) bs.

Lemma kept_refl bs m : kept bs m m.
Proof. by apply Forall_forall. Qed.

Lemma kept_trans bs bs' m m' m'' :
  (∀ b, b ∈ bs → b ∈ bs') → kept bs m m' → kept bs' m' m'' → kept bs m m''.
Proof.
  unfold kept. rewrite !Forall_forall. intros Hb H1 H2 b Hin x Hx.
  by rewrite (H2 b (Hb b Hin)), (H1 b Hin).
Qed.

Section Restore_table.
Context (s : memory_state) `{HA : Allocator (wasm_runtime_malloc_internal s)}.

Lemma malloc_ok w bs room n :
  a_inv w bs room → 0 <= n < 2 ^ 32 → a_cost (Z.max 1 n) <= room →
  ∃ p m', wasm_runtime_malloc s n w = Ok p (set_mem m' w)
    ∧ 0 < p ∧ p + Z.max 1 n < 2 ^ 64
    ∧ Forall (disjoint_region (p, Z.max 1 n)) bs
    ∧ kept bs (wmem w) m'
    ∧ a_inv (set_mem m' w) ((p, Z.max 1 n) :: bs) (room - a_cost (Z.max 1 n)).
Proof.
  intros Hi Hn Hc. unfold wasm_runtime_malloc, uint32. rewrite wrap_small by done.
  assert ((if n =? 0 then 1 else n) = Z.max 1 n) as -> by (zcase; lia).
  apply a_malloc_ok; [done|lia|done].
Qed.

(** One object entry. *)
Lemma restore_entry_obj i d w bs room rest :
  entry_ok i d → a_inv w bs room → a_cost (Z.max 1 (request i d)) <= room →
  ∃ p w1,
    restore_entry s (p_abs i) (size i) (type (head i))
      (concat (map (fun e => le_bytes 4 (p_abs e)) (chain i)) ++ rest) w = Ok rest w1
    ∧ root_info w1 = rebuild i p d :: root_info w ∧ root_frame w1 = root_frame w
    ∧ same_process w w1
    ∧ 0 < p ∧ p + Z.max 1 (request i d) < 2 ^ 64
    ∧ Forall (disjoint_region (block_of i d p)) bs
    ∧ kept bs (wmem w) (wmem w1)
    ∧ a_inv w1 (block_of i d p :: bs) (room - a_cost (Z.max 1 (request i d))).
Proof.
  intros [Hd Hpos Habs Hint Hcl Hreq] Hi Hroom.
  assert (0 <= request i d) as Hnn.
  { unfold request. destruct (class_of (type (head i))); try done; try nia. }
  destruct (malloc_ok w bs room (request i d) Hi ltac:(lia) Hroom)
    as (p&m'&Hrun&Hp&Hp64&Hdis&Hk&Hinv).
  exists p. unfold restore_entry. rewrite Hd. unfold request in *.
  destruct (class_of (type (head i))) eqn:Ec; try done.
  - destruct Hcl as [Hch Hsz]. unfold restore_ex.
    rewrite (proj2 (Z.eqb_neq _ _)) by (unfold uint64; rewrite wrap_small; lia).
    rewrite mbind_assoc. erewrite mbind_ok by exact Hrun. rewrite Hch. cbn [map concat app].
    unfold rebuild, block_of, request. rewrite Hch, Ec. cbn [rebuild_chain].
    destruct (decide (type (head i) = WASMExecEnvT)); eexists; (split; [reflexivity|]);
      split_and!; try done; by eapply a_inv_mem; [| |exact Hinv].
  - destruct Hcl as [Hch Hsz]. unfold restore_buf.
    rewrite mbind_assoc. erewrite mbind_ok by exact Hrun. rewrite Hch. cbn [map concat app].
    unfold rebuild, block_of, request. rewrite Hch, Ec. cbn [rebuild_chain].
    eexists; (split; [reflexivity|]); split_and!; try done; by eapply a_inv_mem; [| |exact Hinv].
  - destruct Hcl as [Hsz Hlen]. unfold restore_array.
    rewrite (proj2 (Z.eqb_neq _ _)) by (unfold uint64; rewrite wrap_small; nia).
    erewrite mbind_ok by exact Hrun.
    replace (Z.to_nat (size i - 1)) with (length (chain i)) by lia.
    apply Forall_cons in Habs as [_ Habs]. rewrite read_chain_ok by done.
    unfold rebuild, block_of, request. rewrite Ec.
    destruct (decide (type (head i) = WASMModuleT)); eexists; (split; [reflexivity|]);
      split_and!; try done; by eapply a_inv_mem; [| |exact Hinv].
Qed.

(** ** The loop *)

Definition is_frame (i : Pool_Info) : bool := type_code (type (head i)) =? type_code WASMInterpFrameT.

Definition frame_entry_ok (i : Pool_Info) : Prop :=
  chain i = [] ∧ int32_ok (p_abs (head i)) ∧ int32_ok (size (head i)).

Definition frame_node (i : Pool_Info) : Pool_Info :=
  mkInfo (mkElem (p_abs i) NULL (size i) (type i)) [].

(** A source object with the size of its structure and the address of its new
    block. *)
Record place := mkPlace { pl_src : Pool_Info; pl_dsize : Z; pl_addr : Z }.

Definition pl_dst (p : place) : Pool_Info := rebuild (pl_src p) (pl_addr p) (pl_dsize p).
Definition pl_block (p : place) : region := block_of (pl_src p) (pl_dsize p) (pl_addr p).

Record place_ok (p : place) : Prop := {
  po_entry : entry_ok (pl_src p) (pl_dsize p);
  po_low : 0 < pl_addr p;
  po_high : pl_addr p + (pl_block p).2 < 2 ^ 64
}.

(** The bytes all entries need. *)
Definition entry_need (i : Pool_Info) : Z :=
  if is_frame i then 0
  else match data_size (type (head i)) with
       | Some d => a_cost (Z.max 1 (request i d))
       | None => 0
       end.

Definition need (root : list Pool_Info) : Z := foldr (fun i n => entry_need i + n) 0 root.

Definition table_entry_ok (i : Pool_Info) : Prop :=
  dump_skipped (type (head i)) = false
  ∧ if is_frame i then frame_entry_ok i else ∃ d, entry_ok i d.

Lemma entry_need_nonneg i : table_entry_ok i → 0 <= entry_need i.
Proof.
  intros _. unfold entry_need. destruct (is_frame i); [lia|].
  destruct (data_size (type (head i))); [|lia]. apply a_cost_nonneg. lia.
Qed.

Lemma need_nonneg root : Forall table_entry_ok root → 0 <= need root.
Proof. induction 1 as [|i root Hi]; simpl; [lia|]. pose proof (entry_need_nonneg i Hi). lia. Qed.

(** The outcome of the loop over the entries of [root] from the world [w]. *)
Record table_restored (root : list Pool_Info) (w : world) (bs : list region) (ps : list place)
    (w1 : world) : Prop := {
  tr_src : map pl_src ps = filter (fun i => is_frame i = false) root;
  tr_places : Forall place_ok ps;
  tr_root : root_info w1 = rev (map pl_dst ps) ++ root_info w;
  tr_frame : root_frame w1
             = foldl (fun acc x => insert_frame x acc) (root_frame w)
                 (map frame_node (filter (fun i => is_frame i = true) root));
  tr_same : same_process w w1;
  tr_disjoint : ForallOrdPairs disjoint_region (map pl_block ps);
  tr_new : Forall (fun b => Forall (disjoint_region b) bs) (map pl_block ps);
  tr_kept : kept bs (wmem w) (wmem w1)
}.

Lemma take_entry i fuel rest :
  int32_ok (p_abs (head i)) → int32_ok (size (head i)) →
  restore_table s (S fuel) (info_entry i ++ rest)
  = (let* img := restore_entry s (p_abs i) (size i) (type i)
                   (concat (map (fun e => le_bytes 4 (p_abs e)) (chain i)) ++ rest) in
     restore_table s fuel img).
Proof.
  intros Ha Hz. cbn [restore_table].
  unfold info_entry, entry_bytes. rewrite <- !app_assoc, !take_int_app.
  rewrite !int32_small by (first [done | pose proof (type_code_range (type i)); unfold ERRORT in *; lia]).
  by rewrite type_of_code_code.
Qed.

Lemma is_frame_type i : is_frame i = true → type (head i) = WASMInterpFrameT.
Proof. unfold is_frame. intros H%Z.eqb_eq. by apply type_code_inj. Qed.

Lemma table_restored_frame i root w bs ps w1 :
  is_frame i = true →
  table_restored root (set_root_frame (insert_frame (frame_node i) (root_frame w)) w) bs ps w1 →
  table_restored (i :: root) w bs ps w1.
Proof.
  intros Hf [H1 H2 H3 H4 H5 H6 H7 H8]. constructor; try done.
  - rewrite filter_cons_False by (by rewrite Hf). done.
  - rewrite filter_cons_True by done. done.
  - by destruct H5.
Qed.

Lemma table_restored_obj i d p root w w1 bs ps w2 :
  is_frame i = false → entry_ok i d →
  root_info w1 = rebuild i p d :: root_info w → root_frame w1 = root_frame w →
  same_process w w1 → 0 < p → p + Z.max 1 (request i d) < 2 ^ 64 →
  Forall (disjoint_region (block_of i d p)) bs → kept bs (wmem w) (wmem w1) →
  table_restored root w1 (block_of i d p :: bs) ps w2 →
  table_restored (i :: root) w bs (mkPlace i d p :: ps) w2.
Proof.
  intros Hf Hok Hr Hfr Hs Hp Hp64 Hd Hk [H1 H2 H3 H4 H5 H6 H7 H8]. constructor.
  - rewrite filter_cons_True by done. simpl. by f_equal.
  - constructor; [by constructor|done].
  - rewrite H3, Hr. simpl. by rewrite <- app_assoc.
  - rewrite filter_cons_False by (by rewrite Hf). by rewrite H4, Hfr.
  - by transitivity w1.
  - simpl. constructor; [|done]. eapply Forall_impl; [exact H7|]. intros b Hb.
    apply Forall_cons in Hb as [Hb _]. unfold pl_block, disjoint_region in *. simpl in *. lia.
  - simpl. constructor; [done|]. eapply Forall_impl; [exact H7|]. intros b Hb.
    by apply Forall_cons in Hb as [_ Hb].
  - eapply kept_trans; [|exact Hk|exact H8]. intros. by right.
Qed.

Lemma restore_table_ok root : ∀ fuel w bs room,
  (length root < fuel)%nat → Forall table_entry_ok root →
  a_inv w bs room → need root <= room →
  ∃ ps w1, restore_table s fuel (concat (map info_entry root)) w = Ok tt w1
    ∧ table_restored root w bs ps w1.
Proof.
  induction root as [|i root IH]; intros [|fuel] w bs room Hl Hok Hi Hn; try (simpl in Hl; lia).
  - exists [], w. split; [done|]. constructor; try done; [constructor|apply kept_refl].
  - apply Forall_cons in Hok as [Hoki Hok]. pose proof (need_nonneg _ Hok).
    pose proof (entry_need_nonneg i Hoki). destruct Hoki as [Hns Hoki]. simpl in Hn, Hl.
    cbn [map concat]. destruct (is_frame i) eqn:Ef.
    + destruct Hoki as (Hch&Ha&Hz). rewrite take_entry by done.
      pose proof (is_frame_type i Ef) as Et. rewrite Et, Hch. cbn [map concat app].
      edestruct (IH fuel (set_root_frame (insert_frame (frame_node i) (root_frame w)) w) bs room)
        as (ps&w1&Hr&Htr); [lia|done|by eapply a_inv_mem; [| |exact Hi]|lia|].
      exists ps, w1. split; [|by apply table_restored_frame].
      unfold restore_entry. cbn [class_of]. rewrite mbind_assoc.
      erewrite mbind_ok by reflexivity. erewrite mbind_ok by reflexivity.
      unfold frame_node in Hr. rewrite Et in Hr. exact Hr.
    + destruct Hoki as [d Hoki]. pose proof Hoki as Hoki'.
      destruct Hoki' as [Hd _ Ha Hz _ _]. apply Forall_cons in Ha as [Ha _].
      rewrite take_entry by done.
      assert (entry_need i = a_cost (Z.max 1 (request i d))) as En
        by (unfold entry_need; by rewrite Ef, Hd).
      destruct (restore_entry_obj i d w bs room (concat (map info_entry root)) Hoki Hi)
        as (p&w1&Hr1&Hri&Hrf&Hs&Hp&Hp64&Hdis&Hk&Hinv); [lia|].
      erewrite mbind_ok by exact Hr1.
      destruct (IH fuel w1 (block_of i d p :: bs) (room - a_cost (Z.max 1 (request i d))))
        as (ps&w2&Hr2&Htr); [lia|done|done|lia|].
      exists (mkPlace i d p :: ps), w2. split; [done|]. by eapply table_restored_obj.
Qed.
End Restore_table.

(** * Theorems *)

(** C22: pool_info.img holds the whole table: the entries of a table whose arrays
    are complete are turned into a table of the same objects in the same order,
    latest first, each with a block of the size its kind and count ask for,
    disjoint from the others and from every block in use, and into the list of
    frames. *)
Theorem table_roundtrip root w out g :
  w_fp w = FWrite out → w_gp w = FWrite g → Forall (dumpable w) root → Forall chain_ok root →
  Forall table_entry_ok root →
  ∃ w1, dump_table root w = Ok (concat (map info_entry root)) w1
    ∧ ∀ s (HA : Allocator (wasm_runtime_malloc_internal s)) w' bs room,
        a_inv w' bs room → need s root <= room →
        ∃ ps w2, restore_table s (S (length (concat (map info_entry root))))
                   (concat (map info_entry root)) w' = Ok tt w2
          ∧ table_restored root w' bs ps w2.
Proof.
  intros Hf Hg Hd Hc Ht. destruct (dump_table_ok root w out g Hf Hg Hd Hc) as (w1&_&Hr&_).
  exists w1. split.
  - rewrite Hr. f_equal. unfold table_bytes. f_equal. apply map_ext_in.
    intros i Hi%list_elem_of_In. rewrite Forall_forall in Ht. by destruct (Ht i Hi) as [-> _].
  - intros s HA w' bs room Hi Hn. apply (restore_table_ok s) with (room := room); try done.
    clear. induction root as [|i root IH]; [simpl; lia|]. cbn [map concat length]. rewrite length_app.
    assert (12 <= length (info_entry i))%nat; [|lia].
    unfold info_entry, entry_bytes. rewrite !length_app, !length_le_bytes. lia.
Qed.

(** An array with more nodes than its size says ends the checkpoint with
    status 1. *)
Theorem overlong_array_exits k es w : (k < length es)%nat → dump_list k es w = Exited 1.
Proof. apply dump_list_long. Qed.

Lemma overlong_array_exits_witness :
  let e := mkElem 256 4352 (-1) ConstT in
  let w := mkWorld ∅ FClosed FClosed [] [] 4096 0 0 0 0 0 0 in
  dump_list 1 [e; e] w = Exited 1.
Proof. intros e w. apply (overlong_array_exits 1 [e; e] w). simpl. lia. Defined.

(** the frames are kept in the order of their offsets, whatever the order in
    which the image lists them. *)
Theorem frames_sorted l :
  Sorted.StronglySorted frame_le (insert_frames l) ∧ insert_frames l ≡ₚ l.
Proof.
  split; [apply insert_frames_sorted|]. unfold insert_frames.
  by rewrite foldl_insert_perm, app_nil_r.
Qed.
