(* ===== verification/FrameImage.v ===== *)
(** frame.img as a whole: what the dump routine of the frames writes for the
    frames of a stack, the loop of [restore_frame_internal] reads into the
    frames that were taken again, each of them at its new address. *)
From stdpp Require Import base gmap list numbers strings.
From Stdlib Require Import Strings.Byte ZArith Lia.
From S2P Require Import Prelude CMemory WasmTypes PoolInfo Dump Restore Format Codec Searches.
From S2P Require Import Frames Checkpoint.

(** * Writing *)

Definition frame_record (m : mem) (base : Z) (i : Pool_Info) : list byte :=
  header_bytes WASMInterpFrameT i ++ frame_bytes m base (p_raw i).

Definition frames_image (m : mem) (base : Z) (frames : list Pool_Info) : list byte :=
  concat (map (frame_record m base) frames).

Lemma dump_frames_ok frames : ∀ w out,
  w_gp w = FWrite out →
  mfor frames dump_WASMInterpFrame w
  = Ok tt (set_gp (FWrite (out ++ frames_image (wmem w) (dump_base w) frames)) w).
Proof.
  induction frames as [|i frames IH]; intros w out Hg; unfold frames_image; cbn [mfor map concat].
  - by rewrite app_nil_r, set_gp_id.
  - erewrite mbind_ok by (by apply dump_frame_gp). erewrite IH by reflexivity.
    unfold frames_image, frame_record. simpl. by rewrite <- !app_assoc.
Qed.

(** * One frame *)

Abbreviation frame_func m i := (ldp m (FLD (p_raw (head i)) WASMInterpFrame "function")).

(** The bytes a restore of the frame writes: the entry frame, which has no
    function, gets nothing but that. *)
Definition frame_region (m : mem) (m0 : mem) (func' : Z) (p : Pool_Info * Pool_Info) : region :=
  if frame_func m p.1 =? NULL then (FLD (p_raw (head p.2)) WASMInterpFrame "function", 8)
  else frame_block m0 func' (p_raw (head p.2)).

(** A frame of the source, the frame taken for it, and its function there. *)
Record frame_pair := mkPair {
  fp_src : Pool_Info; fp_dst : Pool_Info; fp_func : Z
}.

Definition fp_region (m m0 : mem) (p : frame_pair) : region :=
  frame_region m m0 (fp_func p) (fp_src p, fp_dst p).

Record pair_ready (m : mem) (base : Z) (w : world) (p : frame_pair) : Prop := {
  pr_abs : p_abs (head (fp_dst p)) = p_abs (head (fp_src p));
  pr_range : 0 < p_abs (head (fp_src p)) < 2 ^ 31;
  pr_find : find (fun i => p_abs (head i) =? p_abs (head (fp_src p))) (root_frame w) = Some (fp_dst p);
  pr_node : 0 <= p_raw (head (fp_dst p)) < 2 ^ 64;
  pr_ready : frame_func m (fp_src p) ≠ NULL →
    frame_ready m base (p_raw (head (fp_src p))) w (fp_func p) (fp_dst p)
    ∧ frame_ok m (p_raw (head (fp_src p)))
}.

Definition pair_done (m m' : mem) (p : frame_pair) : Prop :=
  if frame_func m (fp_src p) =? NULL then frame_func m' (fp_dst p) = NULL
  else frame_rel m (p_raw (head (fp_src p))) m' (p_raw (head (fp_dst p))) (fp_func p).

Lemma restore_entry_frame_gp base m i i' w rest :
  frame_func m i = NULL →
  w_gp w = FRead (frame_bytes m base (p_raw (head i)) ++ rest) →
  restore_WASMInterpFrame i' w
  = Ok tt (set_mem (store_Z (wmem w) (FLD (p_raw (head i')) WASMInterpFrame "function") 8 NULL)
             (set_gp (FRead rest) w)).
Proof.
  intros H0 Hg. unfold frame_bytes in Hg. rewrite H0, Z.eqb_refl, app_nil_r in Hg.
  unfold restore_WASMInterpFrame, HEADER_RESTORE_BUF.
  erewrite mbind_ok by (by eapply RESTORE_FRAME_PTR_gp). done.
Qed.

Lemma restore_pair_ok m base w p rest :
  pair_ready m base w p →
  w_gp w = FRead (frame_record m base (fp_src p) ++ rest) →
  ∃ m', restore_frame_record w = Ok tt (set_mem m' (set_gp (FRead rest) w))
    ∧ pair_done m m' p ∧ unchanged_outside [fp_region m (wmem w) p] (wmem w) m'.
Proof.
  intros [Ha Hr Hf Hn Hok] Hg. unfold frame_record, header_bytes in Hg. rewrite <- !app_assoc in Hg.
  assert (∀ v r w1, w_gp w1 = FRead (le_bytes 4 v ++ r) →
            fread_int GP w1 = Ok (int32 v) (set_gp (FRead r) w1)) as Hint.
  { intros v r w1 H. unfold fread_int.
    erewrite mbind_ok by (apply fread_bytes_gp; [exact H|by rewrite length_le_bytes]).
    unfold mret. by rewrite le_Z_int32. }
  unfold restore_frame_record. do 3 erewrite mbind_ok by (by apply Hint).
  rewrite (int32_small (p_abs (head (fp_src p)))) by lia.
  unfold mbind at 1. unfold get_frame_info. rewrite (proj2 (Z.eqb_neq _ (-1))) by lia.
  cbn [root_frame set_gp]. rewrite Hf.
  unfold pair_done, fp_region, frame_region. cbn [fst snd].
  destruct (Z.eqb_spec (frame_func m (fp_src p)) NULL) as [E|E].
  - erewrite restore_entry_frame_gp; [|exact E|reflexivity]. eexists. split; [done|]. split.
    + unfold ldp. rewrite load_store_Z_eq by lia. done.
    + cbn [wmem set_gp]. pose proof (unchanged_store (wmem w) (FLD (p_raw (head (fp_dst p))) WASMInterpFrame "function") (le_bytes 8 NULL)) as H.
      by rewrite length_le_bytes in H.
  - destruct (Hok E) as [Hrd Hfo].
    destruct (restore_frame_ok m base (p_raw (head (fp_src p)))
      (set_gp (FRead (frame_bytes m base (p_raw (head (fp_src p))) ++ rest)) w)
      (fp_func p) (fp_dst p) rest) as (m'&Hrun&Hrel&Hu); [|exact Hfo|reflexivity|].
    { destruct Hrd. by constructor. }
    exists m'. by split.
Qed.

(** * All frames *)

(** Memories that agree on a function. *)
Definition same_func (m0 m1 : mem) (func : Z) : Prop :=
  func_view m1 func = func_view m0 func
  ∧ ldp m1 (FLD func WASMFunctionInstance "u.func") = ldp m0 (FLD func WASMFunctionInstance "u.func").

Lemma same_func_views m0 m1 func :
  same_func m0 m1 func →
  func_code m1 func = func_code m0 func ∧ param_cells m1 func = param_cells m0 func
  ∧ local_cells m1 func = local_cells m0 func ∧ stack_cells m1 func = stack_cells m0 func
  ∧ block_num m1 func = block_num m0 func.
Proof. intros [E _]. unfold func_view in E. by simplify_eq. Qed.

Lemma same_func_layout m0 m1 func node :
  same_func m0 m1 func →
  sp_bottom_of m1 func node = sp_bottom_of m0 func node
  ∧ sp_boundary_of m1 func node = sp_boundary_of m0 func node
  ∧ csp_boundary_of m1 func node = csp_boundary_of m0 func node
  ∧ frame_block m1 func node = frame_block m0 func node.
Proof.
  intros (_&E2&E3&E4&E5)%same_func_views.
  unfold frame_block, csp_boundary_of, sp_boundary_of, sp_bottom_of. by rewrite E2, E3, E4, E5.
Qed.

Lemma same_func_apart m0 m1 func blk :
  same_func m0 m1 func → func_apart blk m0 func → func_apart blk m1 func.
Proof. intros [_ E]. unfold func_apart. by rewrite E. Qed.

Lemma frame_ready_stable m base node w func' i' m1 f :
  same_func (wmem w) m1 func' → frame_ready m base node w func' i' →
  frame_ready m base node (set_mem m1 (set_gp f w)) func' i'.
Proof.
  intros Hs [? ? ? ? ? ? ? Hap ?].
  destruct (same_func_views _ _ _ Hs) as (E1&E2&E3&E4&E5).
  destruct (same_func_layout _ _ _ (p_raw (head i')) Hs) as (L1&L2&L3&L4).
  constructor; cbn [wmem set_mem set_gp root_info]; rewrite ?E2, ?E3, ?E4, ?E5, ?L3, ?L4; try done.
  by eapply same_func_apart.
Qed.

(** A frame is not touched by a write elsewhere. *)
Lemma frame_rel_preserved m node m1 m2 node' func' rs :
  unchanged_outside rs m1 m2 → same_func m1 m2 func' →
  (∀ r, In r rs → disjoint_region r (frame_block m1 func' node')) →
  bb_num m node <= block_num m1 func' →
  frame_rel m node m1 node' func' → frame_rel m node m2 node' func'.
Proof.
  intros Hu Hs Hd Hbb Hrel.
  destruct (same_func_views m1 m2 func' Hs) as (E1&E2&E3&E4&E5).
  destruct (same_func_layout m1 m2 func' node' Hs) as (L1&L2&L3&_).
  destruct (cells_nonneg m1 func') as (?&?&?&?).
  assert (0 <= bb_num m node) by (by apply (wrap_range 32)).
  assert (∀ a n, node' + 8 <= a → a + Z.of_nat n <= csp_boundary_of m1 func' node' →
                 load m2 a n = load m1 a n) as Hl.
  { intros a n Ha Hn. eapply unchanged_load; [exact Hu|]. intros r Hr. specialize (Hd r Hr).
    unfold disjoint_region, frame_block in *. simpl in *. lia. }
  assert (LP node' + (param_cells m1 func' * 4 + local_cells m1 func' * 4)
            = sp_bottom_of m1 func' node'
          ∧ sp_bottom_of m1 func' node' + stack_cells m1 func' * 4 = sp_boundary_of m1 func' node'
          ∧ sp_boundary_of m1 func' node' + block_num m1 func' * SIZEOF WASMBranchBlock
            = csp_boundary_of m1 func' node') as (K1&K2&K3)
    by (unfold csp_boundary_of, sp_boundary_of, sp_bottom_of, block_addr; lia).
  destruct Hrel as [F1 F2 F3 F4 F5 F6 F7 F8 F9 F10 F11].
  constructor; rewrite ?L1, ?L2, ?L3, ?E1, ?E2, ?E3, ?E4.
  all: try (unfold ldp, load_Z in *; rewrite Hl by (simpl; lia); assumption).
  all: try (rewrite Hl by lia; assumption).
  all: try (intros i Hi; eapply block_rel_preserved; [exact Hu| |by apply F9];
    intros r Hr; specialize (Hd r Hr);
    unfold disjoint_region, frame_block, block_addr in *; simpl in *; lia).
Qed.

Lemma FOP_perm {A} (R : A → A → Prop) l k :
  l ≡ₚ k → (∀ a b, R a b → R b a) → ForallOrdPairs R l → ForallOrdPairs R k.
Proof.
  intros Hp Hs. induction Hp as [|x l k Hp IH|x y l|l k j H1 IH1 H2 IH2]; intros H; [done| | |by auto].
  - inversion H; subst. constructor; [by rewrite <- Hp|by apply IH].
  - inversion H as [|? ? Hx Hl]; subst. inversion Hl as [|? ? Hy Hl']; subst.
    apply Forall_cons in Hx as [Hxy Hx]. repeat (constructor; auto).
Qed.

(** The frames are apart from each other, and no frame lies on the function of
    one of them. *)
Record frames_apart (m m0 : mem) (ps : list frame_pair) : Prop := {
  fa_regions : ForallOrdPairs (fun p q => disjoint_region (fp_region m m0 p) (fp_region m m0 q)) ps;
  fa_funcs : ∀ p q, p ∈ ps → q ∈ ps → frame_func m (fp_src q) ≠ NULL →
    func_apart (fp_region m m0 p) m0 (fp_func q)
}.

Lemma fp_region_stable m m0 m1 p :
  (frame_func m (fp_src p) ≠ NULL → same_func m0 m1 (fp_func p)) →
  fp_region m m1 p = fp_region m m0 p.
Proof.
  intros H. unfold fp_region, frame_region. cbn [fst snd].
  destruct (Z.eqb_spec (frame_func m (fp_src p)) NULL) as [E|E]; [done|].
  by destruct (same_func_layout _ _ _ (p_raw (head (fp_dst p))) (H E)) as (_&_&_&?).
Qed.

Lemma pair_ready_stable m base w p m1 f :
  (frame_func m (fp_src p) ≠ NULL → same_func (wmem w) m1 (fp_func p)) →
  pair_ready m base w p → pair_ready m base (set_mem m1 (set_gp f w)) p.
Proof.
  intros Hs [? ? ? ? Hok]. constructor; try done. intros E. destruct (Hok E). split; [|done].
  by apply frame_ready_stable; [apply Hs|].
Qed.

Lemma pair_done_preserved m m1 m2 p rs :
  unchanged_outside rs m1 m2 →
  (∀ r, In r rs → disjoint_region r (fp_region m m1 p)) →
  (frame_func m (fp_src p) ≠ NULL →
    same_func m1 m2 (fp_func p)
    ∧ bb_num m (p_raw (head (fp_src p))) <= block_num m1 (fp_func p)) →
  pair_done m m1 p → pair_done m m2 p.
Proof.
  intros Hu Hd Hf. unfold pair_done, fp_region, frame_region in *. cbn [fst snd] in *.
  destruct (Z.eqb_spec (frame_func m (fp_src p)) NULL) as [E|E].
  - intros <-. unfold ldp, load_Z. f_equal. by eapply unchanged_load.
  - destruct (Hf E). by apply frame_rel_preserved with (rs := rs).
Qed.

Lemma pair_ready_blocks m base w p :
  pair_ready m base w p → frame_func m (fp_src p) ≠ NULL →
  bb_num m (p_raw (head (fp_src p))) <= block_num (wmem w) (fp_func p).
Proof. intros Hp E. destruct (pr_ready _ _ _ _ Hp E) as [Hr _]. by destruct Hr. Qed.

Lemma frames_apart_stable m m0 m1 ps :
  (∀ q, q ∈ ps → frame_func m (fp_src q) ≠ NULL → same_func m0 m1 (fp_func q)) →
  frames_apart m m0 ps → frames_apart m m1 ps.
Proof.
  intros Hs [Hd Hf].
  assert (∀ q, q ∈ ps → fp_region m m1 q = fp_region m m0 q) as Hr
    by (intros q Hq; by apply fp_region_stable, Hs).
  constructor.
  - clear Hf Hs. induction Hd as [|q ps Hq _ IH]; constructor.
    + rewrite Forall_forall in Hq |- *. intros q' Hq'. rewrite !Hr by (rewrite !elem_of_cons; auto).
      by apply Hq.
    + apply IH. intros q' Hq'. apply Hr. by right.
  - intros q q' Hq Hq' E. rewrite Hr by done.
    eapply same_func_apart; [by apply Hs|]. by apply Hf.
Qed.

Lemma frames_apart_perm m m0 ps qs : ps ≡ₚ qs → frames_apart m m0 ps → frames_apart m m0 qs.
Proof.
  intros Hp [Hd Hf]. constructor.
  - eapply FOP_perm; [exact Hp| |exact Hd]. unfold disjoint_region. intros. lia.
  - intros p q. rewrite <- Hp. apply Hf.
Qed.

(** A write to one frame keeps what the loop needs of the others. *)
Lemma frames_apart_later m base w p ps m1 f :
  frames_apart m (wmem w) (p :: ps) → Forall (pair_ready m base w) ps →
  unchanged_outside [fp_region m (wmem w) p] (wmem w) m1 →
  let w1 := set_mem m1 (set_gp f w) in
  Forall (pair_ready m base w1) ps ∧ frames_apart m (wmem w1) ps
  ∧ (∀ q, q ∈ p :: ps → fp_region m (wmem w1) q = fp_region m (wmem w) q)
  ∧ (∀ q, q ∈ p :: ps → frame_func m (fp_src q) ≠ NULL → same_func (wmem w) m1 (fp_func q)).
Proof.
  intros [Hd Hf] Hok Hu w1. cbn [wmem set_mem set_gp w1].
  assert (∀ q, q ∈ p :: ps → frame_func m (fp_src q) ≠ NULL → same_func (wmem w) m1 (fp_func q)) as Hs.
  { intros q Hq E. eapply func_view_stable; [|exact Hu]. apply Hf; [by left|done|done]. }
  assert (∀ q, q ∈ p :: ps → fp_region m m1 q = fp_region m (wmem w) q) as Hr
    by (intros q Hq; by apply fp_region_stable, Hs).
  split_and!; [| |done|done].
  - rewrite Forall_forall in Hok |- *. intros q Hq. apply pair_ready_stable; [|by apply Hok].
    apply Hs. by right.
  - apply (frames_apart_stable m (wmem w)); [intros q Hq; apply Hs; by right|].
    inversion Hd; subst. constructor; [done|]. intros q q' Hq Hq'. apply Hf; by right.
Qed.

Lemma at_eof_gp w bs : w_gp w = FRead bs → at_eof GP w = Ok (Z.of_nat (length bs) <? 4) w.
Proof. intros H. unfold at_eof, gets. simpl. by rewrite H. Qed.

Lemma length_frame_record m base i : (12 <= length (frame_record m base i))%nat.
Proof. unfold frame_record, header_bytes. rewrite !length_app, !length_le_bytes. lia. Qed.

Lemma length_frames_image m base frames : (length frames <= length (frames_image m base frames))%nat.
Proof.
  induction frames as [|i frames IH]; [done|]. unfold frames_image in *. cbn [map concat length].
  rewrite length_app. pose proof (length_frame_record m base i). lia.
Qed.

Lemma restore_frame_loop_ok m base ps : ∀ fuel w,
  (length ps < fuel)%nat →
  w_gp w = FRead (frames_image m base (map fp_src ps)) →
  Forall (pair_ready m base w) ps → frames_apart m (wmem w) ps →
  ∃ m', restore_frame_loop fuel w = Ok tt (set_mem m' (set_gp (FRead []) w))
    ∧ Forall (pair_done m m') ps
    ∧ unchanged_outside (map (fp_region m (wmem w)) ps) (wmem w) m'.
Proof.
  induction ps as [|p ps IH]; intros [|fuel] w Hl Hg Hok Hap; try (simpl in Hl; lia);
    cbn [restore_frame_loop].
  - exists (wmem w). erewrite mbind_ok by (by apply at_eof_gp). split; [|split_and!; try done].
    rewrite set_gp_id by done. by destruct w.
  - apply Forall_cons in Hok as [Hp Hok].
    assert (frames_image m base (map fp_src (p :: ps))
            = frame_record m base (fp_src p) ++ frames_image m base (map fp_src ps)) as E by done.
    rewrite E in Hg.
    destruct (restore_pair_ok m base w p _ Hp Hg) as (m1&Hr1&Hd1&Hu1).
    set (f := FRead (frames_image m base (map fp_src ps))) in *.
    destruct (frames_apart_later m base w p ps m1 f Hap Hok Hu1) as (Hok1&Hap1&Hr&Hs).
    destruct (IH fuel (set_mem m1 (set_gp f w))) as (m2&Hr2&Hd2&Hu2); [simpl in Hl; lia|done..|].
    cbn [wmem set_mem set_gp] in *.
    assert (map (fp_region m m1) ps = map (fp_region m (wmem w)) ps) as Em
      by (apply map_ext_in; intros q Hq; apply Hr; right; by apply list_elem_of_In).
    rewrite Em in Hu2. exists m2. split_and!.
    + erewrite mbind_ok by (by apply at_eof_gp). rewrite (proj2 (Z.ltb_ge _ _)).
      { by erewrite mbind_ok by exact Hr1. }
      rewrite length_app. pose proof (length_frame_record m base (fp_src p)). lia.
    + constructor; [|done]. eapply pair_done_preserved; [exact Hu2| | |exact Hd1].
      * rewrite Hr by (by left). intros r (q&<-&Hq)%in_map_iff.
        pose proof (fa_regions _ _ _ Hap) as Hd. inversion Hd as [|? ? Hd' _]; subst.
        rewrite Forall_forall in Hd'. specialize (Hd' q (proj2 (list_elem_of_In _ _) Hq)).
        unfold disjoint_region in *. lia.
      * intros E1. split.
        -- eapply func_view_stables; [|exact Hu2]. intros r (q&<-&Hq)%in_map_iff.
           eapply same_func_apart; [apply Hs; [by left|done]|].
           apply (fa_funcs _ _ _ Hap); [right; by apply list_elem_of_In|by left|done].
        -- destruct (same_func_views _ _ _ (Hs p ltac:(by left) E1)) as (_&_&_&_&->).
           by eapply pair_ready_blocks.
    + eapply (unchanged_trans [_]); [exact Hu1|exact Hu2].
Qed.

(** * Theorems *)


(** Of the entry frame, which runs no function, nothing but the null function
    is restored: its instruction pointer and its stack pointer keep whatever
    the memory of the new frame held. *)
Theorem entry_frame_not_restored m base i i' w rest :
  frame_func m i = NULL →
  w_gp w = FRead (frame_bytes m base (p_raw (head i)) ++ rest) →
  ∃ m', restore_WASMInterpFrame i' w = Ok tt (set_mem m' (set_gp (FRead rest) w))
    ∧ frame_func m' i' = NULL
    ∧ ldp m' (FLD (p_raw (head i')) WASMInterpFrame "ip")
      = ldp (wmem w) (FLD (p_raw (head i')) WASMInterpFrame "ip")
    ∧ ldp m' (FLD (p_raw (head i')) WASMInterpFrame "sp")
      = ldp (wmem w) (FLD (p_raw (head i')) WASMInterpFrame "sp").
Proof.
  intros H0 Hg. rewrite (restore_entry_frame_gp base m i i' w rest H0 Hg).
  eexists. split; [done|]. unfold ldp. rewrite load_store_Z_eq, !load_store_Z_ne by lia. done.
Qed.

(** ** A stack of two frames

    The entry frame and the frame of a function with one parameter, one local
    cell and one open block, moved to another process. *)
Section Sample.
Local Definition put (l : list (Z * Z * Z)) (m : mem) : mem :=
  foldl (fun m p => store_Z m p.1.1 p.1.2 p.2) m l.

(** A function instance at [a] with its function at [f] and code at [c]. *)
Local Definition func_words (a f c : Z) : list (Z * Z * Z) :=
  [(FLD a WASMFunctionInstance "is_import_func", 1, 0);
   (FLD a WASMFunctionInstance "param_cell_num", 2, 1);
   (FLD a WASMFunctionInstance "local_cell_num", 2, 1);
   (FLD a WASMFunctionInstance "u.func", 8, f);
   (FLD f WASMFunction "max_stack_cell_num", 4, 2);
   (FLD f WASMFunction "max_block_num", 4, 1);
   (FLD f WASMFunction "code", 8, c)].

Definition src_frames_mem : mem :=
  put (func_words 16384 16640 20480 ++
    [(FLD 5120 WASMInterpFrame "function", 8, 0);
     (FLD 5248 WASMInterpFrame "function", 8, 16384);
     (FLD 5248 WASMInterpFrame "ip", 8, 20485);
     (FLD 5248 WASMInterpFrame "sp_bottom", 8, 5328);
     (FLD 5248 WASMInterpFrame "sp", 8, 5332);
     (FLD 5248 WASMInterpFrame "csp_bottom", 8, 5336);
     (FLD 5248 WASMInterpFrame "csp", 8, 5368);
     (FLD 5336 WASMBranchBlock "begin_addr", 8, 20481);
     (FLD 5336 WASMBranchBlock "target_addr", 8, 20490);
     (FLD 5336 WASMBranchBlock "frame_sp", 8, 5328);
     (5320, 4, 7); (5324, 4, 9); (5328, 4, 11)]) ∅.

Definition frame_info (abs raw sz : Z) : Pool_Info := mkInfo (mkElem abs raw sz WASMInterpFrameT) [].

Definition src_frames : list Pool_Info := [frame_info 1024 5120 128; frame_info 1152 5248 120].

Definition src_stack : world :=
  mkWorld src_frames_mem FClosed (FWrite []) src_frames [] 4096 4096 0 0 0 0 0.

(** The function is at offset 12288 of the pool. *)
Definition dst_stack (gp : list byte) : world :=
  mkWorld (put (func_words 81920 82944 86016) ∅) FClosed (FRead gp)
    [mkInfo (mkElem 12288 81920 1 WASMFunctionInstanceT) []]
    [frame_info 1024 73728 128; frame_info 1152 73856 120] 65536 0 0 0 0 0 0.

Definition sample_pairs : list frame_pair :=
  [mkPair (frame_info 1024 5120 128) (frame_info 1024 73728 128) 0;
   mkPair (frame_info 1152 5248 120) (frame_info 1152 73856 120) 81920].
End Sample.

Lemma sample_pairs_ready gp :
  Forall (pair_ready src_frames_mem 4096 (dst_stack gp)) sample_pairs.
Proof.
  repeat (apply Forall_cons; split); [..|apply Forall_nil_2].
  - constructor; [reflexivity|..|intros E; vm_compute in E; congruence];
      vm_compute; repeat split; congruence.
  - constructor; [reflexivity|vm_compute; repeat split; congruence|reflexivity
                 |vm_compute; repeat split; congruence|].
    intros _. split.
    + constructor; try (vm_compute; repeat split; congruence).
      split; vm_compute; [left|left]; congruence.
    + constructor.
      * exists 1. vm_compute. reflexivity.
      * vm_compute. reflexivity.
      * intros i Hi. assert (i = 0) as ->.
        { assert (bb_num src_frames_mem 5248 = 1) as E by (vm_compute; reflexivity).
          simpl in Hi. lia. }
        constructor; right; [exists 1|exists 10|exists 0]; vm_compute; repeat split; congruence.
Qed.

Lemma sample_pairs_apart gp : frames_apart src_frames_mem (wmem (dst_stack gp)) sample_pairs.
Proof.
  constructor.
  - repeat constructor; vm_compute; congruence.
  - intros p q Hp%list_elem_of_In Hq%list_elem_of_In E.
    destruct Hp as [<-|[<-|[]]], Hq as [<-|[<-|[]]]; try (vm_compute in E; congruence);
      split; left; vm_compute; congruence.
Qed.


Lemma entry_frame_not_restored_witness :
  ∃ m', restore_WASMInterpFrame (frame_info 1024 73728 128)
          (dst_stack (frame_bytes src_frames_mem 4096 5120))
        = Ok tt (set_mem m' (set_gp (FRead []) (dst_stack (frame_bytes src_frames_mem 4096 5120)))).
Proof.
  destruct (entry_frame_not_restored src_frames_mem 4096 (frame_info 1024 5120 128)
    (frame_info 1024 73728 128) (dst_stack (frame_bytes src_frames_mem 4096 5120)) [])
    as (m'&Hr&_); [vm_compute; reflexivity|by rewrite app_nil_r|].
  exists m'. exact Hr.
Defined.
