(* ===== verification/Migration.v ===== *)
(** Checkpoint and restore of the object heap: a well-formed heap that
    [dump_runtime] writes is rebuilt by [restore_runtime] in a fresh process, in
    blocks of its own, with every pointer relocated.  The theorem is proved
    against the interfaces of the object kinds ([Codec]) and of the allocator
    ([Allocator]). *)
From stdpp Require Import base gmap list numbers strings.
From Stdlib Require Import Strings.Byte ZArith Lia.
From S2P Require Import Prelude CMemory WasmTypes PoolInfo Table ExecEnv Memory Dump Restore.
From S2P Require Import Format Codec Records Searches Heap Frames Checkpoint Extents TableImage.

(** * Relocation through two tables *)

Lemma reloc_mono base r1 r2 p :
  (∀ a, a ∈ p_abs <$> all_elems r1 → a ∈ p_abs <$> all_elems r2) →
  (is_Some (reloc base r1 p) → is_Some (reloc base r2 p))
  ∧ (is_Some (reloc_obj base r1 p) → is_Some (reloc_obj base r2 p)).
Proof.
  intros H.
  assert (is_Some (find_info (fun e => int32 (p - base) =? p_abs e) r1) →
          is_Some (find_info (fun e => int32 (p - base) =? p_abs e) r2)) as Hf.
  { intros [i Hi]. destruct (find_info _ r2) as [i2|] eqn:E; [done|]. exfalso.
    apply find_info_none in E. destruct (find_info_some _ _ _ Hi) as (j&pre&Hj&Hel&Hp).
    assert (p_abs (head i) ∈ p_abs <$> all_elems r2) as (e&Ee&He)%list_elem_of_fmap.
    { apply H, list_elem_of_fmap_2, in_all_elems. exists j. split; [done|].
      rewrite Hel. apply elem_of_app. right. by left. }
    rewrite Forall_forall in E. specialize (E e He). simpl in E. zbool. congruence. }
  unfold reloc, reloc_obj. split.
  - destruct (p =? NULL); [done|]. destruct (int32 (p - base) =? -1); [done|].
    rewrite !fmap_is_Some. done.
  - destruct (p =? NULL); [done|]. destruct (int32 (p - base) =? -1); [done|].
    simpl. rewrite !fmap_is_Some. done.
Qed.

Lemma src_ok_mono base r1 r2 m node f :
  (∀ a, a ∈ p_abs <$> all_elems r1 → a ∈ p_abs <$> all_elems r2) →
  src_ok base r1 m node f → src_ok base r2 m node f.
Proof.
  intros H. induction f as [|off sz cnt k IH|off k IH|off d k IH|off deps g k IH|offp d cnt k IH
    |off oc k IH|off sz cnt k IH|off n k IH]; simpl; auto.
  - intros [? ?]. split; [by apply (reloc_mono base r1)|auto].
  - intros [? ?]. split; [by apply (reloc_mono base r1)|auto].
  - intros [? ?]. auto.
  - destruct oc as [code|]; [|auto]. intros [? ?]. split; [by apply (reloc_mono base r1)|auto].
Qed.

(** * The rebuilt arrays *)

Lemma rebuild_chain_abs i p d t es :
  p_abs <$> rebuild_chain i p d t es = p_abs <$> es.
Proof. revert i. induction es as [|e es IH]; intros i; [done|]. simpl. by rewrite IH. Qed.

Lemma rebuild_abs i p d : p_abs <$> elems (rebuild i p d) = p_abs <$> elems i.
Proof. unfold elems, rebuild. simpl. by rewrite rebuild_chain_abs. Qed.

Lemma all_elems_abs (f : place → Pool_Info) ps :
  (∀ p, f p = pl_dst p) →
  p_abs <$> all_elems (map f ps) = p_abs <$> all_elems (map pl_src ps).
Proof.
  intros Hf. induction ps as [|p ps IH]; [done|]. cbn [map].
  rewrite !all_elems_cons, !fmap_app, IH, Hf. unfold pl_dst. by rewrite rebuild_abs.
Qed.

Lemma all_elems_perm l k : l ≡ₚ k → all_elems l ≡ₚ all_elems k.
Proof. unfold all_elems. by intros ->. Qed.

(** The nodes of an array are elements of the kind of the array. *)
Definition chain_kind (i : Pool_Info) : Prop :=
  Forall (fun e => size e = -1 ∧ type e = type (head i)) (chain i).

Lemma rebuild_match i p d :
  entry_ok i d → chain_kind i → Forall2 match_elem (elems i) (elems (rebuild i p d)).
Proof.
  intros [_ _ Ha Hz _ _] Hk. apply Forall_cons in Ha as [Ha1 Ha].
  constructor; [by split_and!; try done; apply Ha1 || apply Hz|].
  unfold rebuild. cbn [chain]. generalize 1.
  unfold chain_kind in Hk. revert Hk Ha. induction (chain i) as [|e es IH]; intros Hk Ha j; [constructor|].
  apply Forall_cons in Hk as [[Hs Ht] Hk], Ha as [Ha2 Ha]. simpl. constructor; [|by apply IH].
  split_and!; simpl; try done; try (by apply Ha2); by rewrite Hs.
Qed.

(** ** Footprints *)

(** The new address of the element [k] of an array. *)
Lemma rebuild_chain_lookup i p d t es k e' :
  rebuild_chain i p d t es !! k = Some e' → p_raw e' = p + (i + Z.of_nat k) * d.
Proof.
  revert i k. induction es as [|x es IH]; intros i [|k] H; simpl in H; try done.
  - inversion H. simpl. lia.
  - rewrite (IH _ _ H). lia.
Qed.

Lemma rebuild_chain_type i p d t es k e' :
  rebuild_chain i p d t es !! k = Some e' → type e' = t.
Proof.
  revert i k. induction es as [|x es IH]; intros i [|k] H; simpl in H; try done.
  - by injection H as <-.
  - by eapply IH.
Qed.

Lemma rebuild_lookup i p d k e' :
  elems (rebuild i p d) !! k = Some e' → p_raw e' = p + Z.of_nat k * d.
Proof.
  destruct k as [|k]; intros H; [inversion H; simpl; lia|].
  cbn [elems rebuild head chain lookup list_lookup] in H.
  rewrite (rebuild_chain_lookup _ _ _ _ _ _ _ H). lia.
Qed.

Definition inside (lo hi : Z) (rs : list region) : Prop :=
  Forall (fun r : region => lo <= r.1 ∧ r.1 + r.2 <= hi) rs.

Lemma inside_apart lo hi lo' hi' rs ss :
  inside lo hi rs → inside lo' hi' ss → hi <= lo' ∨ hi' <= lo → apart rs ss.
Proof.
  unfold inside. rewrite !Forall_forall. intros H1 H2 Hd r s0 Hr%list_elem_of_In Hs%list_elem_of_In.
  specialize (H1 r Hr). specialize (H2 s0 Hs). unfold disjoint_region. simpl in *. lia.
Qed.

Lemma inside_weaken lo hi lo' hi' rs :
  inside lo hi rs → lo' <= lo → hi <= hi' → inside lo' hi' rs.
Proof. intros H ? ?. eapply Forall_impl; [exact H|]. simpl. lia. Qed.

Lemma foot_inside m f p n :
  Forall (within n) (items m (p_raw p.1) (f p.1)) →
  inside (p_raw p.2) (p_raw p.2 + n) (foot m f p).
Proof.
  intros H. unfold inside, foot. apply Forall_map. eapply Forall_impl; [exact H|].
  intros it [? ?]. unfold shift. simpl. lia.
Qed.

Lemma wf_dst_ok m node f node' n :
  wf_fmt m node [] f → Forall (within n) (items m node f) →
  0 <= node' → node' + n < 2 ^ 64 → dst_ok node' (items m node f).
Proof.
  intros Hwf Hin H0 H1. pose proof (wf_done_ok m node f [] Hwf done_ok_nil) as Hd.
  rewrite app_nil_r in Hd. unfold dst_ok. rewrite Forall_forall in Hin |- *. intros it Hit.
  specialize (Hin it Hit). destruct (Hd it) as [Hlen _]; [by apply list_elem_of_In|].
  destruct it as [| | | |d cnt|]; try done. unfold within in Hin. simpl in *. lia.
Qed.

(** * Ordered pairs of a list *)

Lemma FOP_lookup {A} (R : A → A → Prop) l :
  (∀ j k x y, (j < k)%nat → l !! j = Some x → l !! k = Some y → R x y) → ForallOrdPairs R l.
Proof.
  induction l as [|x l IH]; intros H; constructor.
  - apply Forall_lookup. intros k y Hy. apply (H O (S k)); [lia|done|done].
  - apply IH. intros j k y z Hjk Hy Hz. apply (H (S j) (S k)); [lia|done|done].
Qed.

Lemma FOP_filter_map {A B D} (R : B → B → Prop) (S : D → D → Prop) (f : A → B) (g : A → D)
    (P : A → Prop) `{∀ x, Decision (P x)} l :
  ForallOrdPairs R (map f l) →
  (∀ x y, x ∈ filter P l → y ∈ filter P l → R (f x) (f y) → S (g x) (g y)) →
  ForallOrdPairs S (map g (filter P l)).
Proof.
  induction l as [|x l IH]; intros HF HS; [constructor|].
  inversion HF as [|? ? H1 H2]; subst. rewrite filter_cons in *. destruct (decide (P x)).
  - simpl. constructor.
    + apply Forall_map, Forall_forall. intros y Hy. apply HS; [by left|by right|].
      rewrite Forall_map, Forall_forall in H1. apply H1. by apply list_elem_of_filter in Hy as [_ ?].
    + apply IH; [done|]. intros y z Hy Hz. apply HS; by right.
  - by apply IH.
Qed.

(** * The objects of a place *)

(** The bytes of the new block that one object of the array uses. *)
Definition slot (i : Pool_Info) (d : Z) : Z :=
  match class_of (type (head i)) with ArrayEntry => d | _ => request i d end.

Lemma elem_pairs_lookup i i' c k q :
  codec_of (type (head i)) = Some c → elem_pairs (i, i') !! k = Some q →
  q.1 ∈ objs c_pre i ∧ elems i !! k = Some q.1 ∧ elems i' !! k = Some q.2.
Proof.
  intros Hc Hq. unfold elem_pairs in Hq. cbn [fst snd] in Hq. rewrite Hc in Hq.
  apply lookup_zip_with_Some in Hq as (e&e'&->&H1&H2). cbn [fst snd].
  split; [by eapply list_elem_of_lookup_2|].
  destruct c_pre; cbn [objs] in *; [|done|]; destruct k as [|[]]; done.
Qed.

Lemma slot_ok i d k e :
  entry_ok i d → elems i !! k = Some e →
  extent (type (head i)) (size e) = slot i d ∧ 0 <= Z.of_nat k * d
  ∧ Z.of_nat k * d = Z.of_nat k * slot i d
  ∧ (Z.of_nat k + 1) * slot i d <= Z.max 1 (request i d).
Proof.
  intros [Hd Hpos _ _ Hcl _] He. unfold extent, slot, request in *. rewrite Hd.
  destruct (class_of (type (head i))); try done.
  - destruct Hcl as [Hch Hsz]. unfold elems in He. rewrite Hch in He.
    destruct k as [|[]]; inversion He; subst e. lia.
  - destruct Hcl as [Hch Hsz]. unfold elems in He. rewrite Hch in He.
    destruct k as [|[]]; inversion He; subst e. lia.
  - destruct Hcl as [Hsz Hlen]. apply lookup_lt_Some in He. cbn [elems length] in He.
    split_and!; nia.
Qed.

(** * Well-formed heaps *)

(** The objects that migrate: those neither skipped nor kept in frame.img. *)
Definition objects (root : list Pool_Info) : list Pool_Info :=
  filter (fun i => is_frame i = false)
    (filter (fun i => dump_skipped (type (head i)) = false) root).

(** What an element of an object with a codec owes. *)
Record elem_wf {t} (c : Codec t) (w : world) (e : Pool_Elem) : Prop := {
  ew_inv : c_inv (wmem w) (root_info w) (wasm_module w) e;
  ew_cond : wf_cond c (wmem w) e;
  ew_size : size_ok t (wmem w) e;
  ew_src : src_ok (pool_allocator w) (objects (root_info w)) (wmem w) (p_raw e) (c_fmt (wmem w) e)
}.

Definition object_ok (w : world) (i : Pool_Info) : Prop :=
  match codec_of (type (head i)) with
  | Some c => Forall (elem_wf c w) (objs c_pre i) ∧ chain_kind i
  | None => silent (set_dump_base (pool_allocator w) w) i
  end.

Record heap_ok (w : world) : Prop := {
  ho_table : table_ok (pool_allocator w) (root_info w);
  ho_objects : Forall (object_ok w) (root_info w);
  ho_entries : Forall table_entry_ok
                 (filter (fun i => dump_skipped (type (head i)) = false) (root_info w));
  ho_chains : Forall chain_ok (root_info w)
}.

(** * The records of the restoring process *)

Definition pl_pair (p : place) : Pool_Info * Pool_Info := (pl_src p, pl_dst p).

Section Place.
Context (w : world) (root' : list Pool_Info).
Context (Habs : ∀ a, a ∈ p_abs <$> all_elems (objects (root_info w)) →
                     a ∈ p_abs <$> all_elems root').

Lemma place_elem p c k q :
  place_ok p → codec_of (type (head (pl_src p))) = Some c → Forall (elem_wf c w) (objs c_pre (pl_src p)) →
  elem_pairs (pl_pair p) !! k = Some q →
  ∃ n, Forall (within n) (items (wmem w) (p_raw q.1) (c_fmt (wmem w) q.1))
    ∧ n = slot (pl_src p) (pl_dsize p)
    ∧ p_raw q.2 = pl_addr p + Z.of_nat k * n
    ∧ pl_addr p <= p_raw q.2 ∧ p_raw q.2 + n <= pl_addr p + (pl_block p).2
    ∧ elem_wf c w q.1 ∧ elems (pl_dst p) !! k = Some q.2 ∧ elems (pl_src p) !! k = Some q.1.
Proof.
  intros Hp Hc Hwf Hq. destruct (elem_pairs_lookup _ _ c k q Hc Hq) as (Hin&H1&H2).
  rewrite Forall_forall in Hwf. pose proof (Hwf _ Hin) as He.
  destruct (slot_ok _ _ _ _ (po_entry _ Hp) H1) as (Hx&Hk0&Hk&Hend).
  exists (slot (pl_src p) (pl_dsize p)). pose proof (rebuild_lookup _ _ _ _ _ H2) as Hr.
  split_and!; try done; try (unfold pl_block, block_of; simpl; lia).
  rewrite <- Hx. apply codec_extent; [done|apply He|apply He].
Qed.

Lemma place_info_ok p c :
  place_ok p → codec_of (type (head (pl_src p))) = Some c → object_ok w (pl_src p) →
  p_abs (head (pl_src p)) ≠ -1 →
  NoDup (p_abs <$> all_elems root') → pl_dst p ∈ root' →
  info_ok (pool_allocator w) root' (wmem w) (pl_pair p).
Proof.
  intros Hp Hc Hok Habs1 Hnd Hin. unfold object_ok in Hok. rewrite Hc in Hok.
  destruct Hok as [Hwf Hk]. pose proof (rebuild_match _ (pl_addr p) _ (po_entry _ Hp) Hk) as Hm.
  constructor.
  - inversion Hm; subst. by split.
  - done.
  - apply (find_info_head p_abs _ (p_abs (head (pl_src p))) (abs_key _)); done.
  - apply Forall_lookup. intros k q Hq.
    destruct (place_elem p c k q Hp Hc Hwf Hq) as (n&Hin1&Hn&Hr&Hlo&Hhi&He&H2&H1).
    unfold obj_fmt. cbn [pl_pair fst]. rewrite Hc. constructor.
    + eapply Forall2_lookup_lr; [exact Hm|exact H1|exact H2].
    + apply (codec_wf _ c); [done|apply He].
    + eapply src_ok_mono; [exact Habs|apply He].
    + eapply wf_dst_ok; [apply (codec_wf _ c); [done|apply He]|exact Hin1| |].
      * pose proof (po_low _ Hp). lia.
      * pose proof (po_high _ Hp). lia.
  - apply FOP_lookup. intros j k q r Hjk Hq Hr.
    destruct (place_elem p c j q Hp Hc Hwf Hq) as (n&Hin1&Hn&Hq1&_).
    destruct (place_elem p c k r Hp Hc Hwf Hr) as (n'&Hin2&Hn'&Hr1&_). subst n n'.
    unfold obj_fmt. cbn [pl_pair fst]. rewrite Hc.
    eapply inside_apart; [by apply foot_inside|by apply foot_inside|]. left.
    assert (0 <= slot (pl_src p) (pl_dsize p)).
    { pose proof (po_entry _ Hp) as [_ ? _ _ Hcl _]. unfold slot, request.
      destruct (class_of _); try done; try lia; nia. }
    nia.
Qed.

Lemma place_foot p c :
  place_ok p → codec_of (type (head (pl_src p))) = Some c → object_ok w (pl_src p) →
  inside (pl_addr p) (pl_addr p + (pl_block p).2) (info_foot (wmem w) (pl_pair p)).
Proof.
  intros Hp Hc Hok. unfold object_ok in Hok. rewrite Hc in Hok. destruct Hok as [Hwf _].
  unfold inside, info_foot, info_foots. apply Forall_concat, Forall_map, Forall_lookup.
  intros k q Hq. destruct (place_elem p c k q Hp Hc Hwf Hq) as (n&Hin1&Hn&Hr&Hlo&Hhi&_).
  unfold obj_fmt. cbn [pl_pair fst]. rewrite Hc.
  eapply inside_weaken; [by apply foot_inside|lia|lia].
Qed.
End Place.

(** * Dumping a well-formed heap *)

Lemma object_dumpable w i :
  object_ok w i → dumpable (set_dump_base (pool_allocator w) w) i.
Proof.
  unfold object_ok, dumpable. destruct (codec_of (type (head i))) as [c|]; [|done].
  intros [H _]. eapply Forall_impl; [exact H|]. intros e [? ? ? ?]. done.
Qed.

Lemma dump_runtime_ok w :
  heap_ok w →
  ∃ w1, dump_runtime w = Ok (table_bytes (root_info w)) w1
    ∧ same_heap (set_dump_base (pool_allocator w) w) w1
    ∧ w_fp w1 = FWrite (heap_bytes (wmem w) (pool_allocator w) (root_info w)).
Proof.
  intros [_ Ho _ Hc]. set (w0 := set_dump_base (pool_allocator w) (set_gp (FWrite []) (set_fp (FWrite []) w))).
  assert (same_heap (set_dump_base (pool_allocator w) w) w0) as Hs by done.
  destruct (dump_table_ok (root_info w) w0 [] []) as (w1&g1&Hr&Hs1&Hf&_); try done.
  - eapply Forall_impl; [exact Ho|]. intros i Hi. rewrite <- Hs. by apply object_dumpable.
  - exists w1. split_and!; [|by transitivity w0|done].
    unfold dump_runtime. do 3 erewrite mbind_ok by reflexivity. exact Hr.
Qed.

Lemma table_bytes_filter root :
  table_bytes root
  = concat (map info_entry (filter (fun i => dump_skipped (type (head i)) = false) root)).
Proof.
  unfold table_bytes. induction root as [|i root IH]; [done|]. cbn [map concat].
  rewrite filter_cons, IH. destruct (dump_skipped (type (head i))) eqn:E, (decide _) as [H|H]; try done.
  all: by rewrite E in H.
Qed.

Definition has_codec (i : Pool_Info) : bool :=
  match codec_of (type (head i)) with Some _ => true | None => false end.

Lemma heap_bytes_filter m base root :
  heap_bytes m base root = heap_bytes m base (filter (fun i => has_codec i = true) (objects root)).
Proof.
  unfold heap_bytes, objects. induction root as [|i root IH]; [done|]. cbn [map concat].
  rewrite IH. clear IH. unfold has_codec, is_frame.
  rewrite (filter_cons _ i root). destruct (decide _) as [Hs|Hs].
  - rewrite filter_cons. destruct (decide _) as [Hf|Hf].
    + rewrite filter_cons. destruct (decide _) as [Hc|Hc]; [done|].
      unfold info_bytes. by destruct (codec_of (type (head i))).
    + unfold info_bytes. destruct (codec_of (type (head i))) eqn:Ec; [|done].
      destruct Hf. by destruct (type (head i)).
  - unfold info_bytes. destruct (codec_of (type (head i))) eqn:Ec; [|done].
    destruct Hs. by eapply codec_not_skipped.
Qed.

Lemma length_table root : (length root <= length (concat (map info_entry root)))%nat.
Proof.
  induction root as [|i root IH]; [done|]. cbn [map concat length]. rewrite length_app.
  assert (12 <= length (info_entry i))%nat; [|lia].
  unfold info_entry, entry_bytes. rewrite !length_app, !length_le_bytes. lia.
Qed.

Lemma fmap_sublist' {A B} (f : A → B) l k : sublist l k → sublist (f <$> l) (f <$> k).
Proof. induction 1; by constructor. Qed.

Lemma objects_abs_NoDup w :
  table_ok (pool_allocator w) (root_info w) → NoDup (p_abs <$> all_elems (objects (root_info w))).
Proof.
  intros H%NoDup_p_abs. eapply sublist_NoDup; [exact H|]. apply fmap_sublist'.
  unfold objects. generalize (root_info w). intros root.
  assert (∀ (P : Pool_Info → Prop) `{∀ x, Decision (P x)} l, sublist (all_elems (filter P l)) (all_elems l)) as Hsub.
  { intros P ? l. induction l as [|i l IH]; [done|]. rewrite filter_cons.
    destruct (decide _); rewrite !all_elems_cons.
    - by apply sublist_app.
    - by apply sublist_inserts_l. }
  etransitivity; apply Hsub.
Qed.

(** * Checkpoint and restore *)

Section Restore.
Context (s : memory_state) `{HA : Allocator (wasm_runtime_malloc_internal s)}.

(** A static of wasm_restore.c holds the new address of the object of kind [t],
    when the heap has exactly one. *)
Definition static_at (t : Data_Type) (w : world) (ps : list place) (a : Z) : Prop :=
  ∀ i, i ∈ root_info w → type (head i) = t →
    (∀ j, j ∈ root_info w → type (head j) = t → j = i) →
    ∃ p, p ∈ ps ∧ pl_src p = i ∧ pl_addr p = a.

(** What the restoring process has after the table and the objects are read. *)
Record checkpoint_restored (w w' : world) (ps : list place) (w2 : world) : Prop := {
  cr_src : map pl_src ps = objects (root_info w);
  cr_root : root_info w2 = rev (map pl_dst ps);
  cr_frame : root_frame w2
             = foldl (fun acc x => insert_frame x acc) []
                 (map frame_node (filter (fun i => is_frame i = true)
                    (filter (fun i => dump_skipped (type (head i)) = false) (root_info w))));
  cr_disjoint : ForallOrdPairs disjoint_region (map pl_block ps);
  cr_abs : NoDup (p_abs <$> all_elems (root_info w2));
  cr_rel : Forall (info_rel (pool_allocator w) (root_info w2) (wmem w) (wmem w2))
             (map pl_pair ps);
  cr_fp : w_fp w2 = FRead [];
  cr_gp : w_gp w2 = w_gp w';
  cr_pool : pool_allocator w2 = pool_allocator w';
  cr_places : Forall place_ok ps;
  cr_module : static_at WASMModuleT w ps (r_module w2);
  cr_inst : static_at WASMModuleInstanceT w ps (r_module_inst w2);
  cr_env : static_at WASMExecEnvT w ps (r_exec_env w2)
}.

Lemma static_at_ok t w ps d :
  map pl_src ps = objects (root_info w) → is_Some (codec_of t) → t ≠ WASMInterpFrameT →
  static_at t w ps (last_of t (map pl_pair (filter (fun p => has_codec (pl_src p) = true) ps)) d).
Proof.
  intros Hsrc [c Hc] Ht i Hi Hit Hone.
  assert (i ∈ objects (root_info w)) as Hobj.
  { unfold objects. apply list_elem_of_filter. split.
    - unfold is_frame. rewrite Hit. apply Z.eqb_neq. intros E%type_code_inj. done.
    - apply list_elem_of_filter. split; [|done]. rewrite Hit. by eapply codec_not_skipped. }
  rewrite <- Hsrc in Hobj. apply list_elem_of_fmap in Hobj as (p&->&Hp).
  destruct (last_of_in t (map pl_pair (filter (fun p => has_codec (pl_src p) = true) ps)) d)
    as (q&(r&->&[_ Hr]%list_elem_of_filter)%list_elem_of_fmap&Hrt&Hra).
  - exists (pl_pair p). split; [|done]. apply (list_elem_of_fmap_2 pl_pair).
    apply list_elem_of_filter. split; [|done]. unfold has_codec. by rewrite Hit, Hc.
  - exists r. split; [done|]. split; [|done]. apply Hone; [|done].
    assert (pl_src r ∈ objects (root_info w)) as Ho
      by (rewrite <- Hsrc; by apply (list_elem_of_fmap_2 pl_src)).
    by do 2 apply list_elem_of_filter in Ho as [_ Ho].
Qed.

Lemma places_restored w ps w1 :
  heap_ok w → map pl_src ps = objects (root_info w) → Forall place_ok ps →
  root_info w1 = rev (map pl_dst ps) →
  ForallOrdPairs disjoint_region (map pl_block ps) →
  w_fp w1 = FRead (heap_bytes (wmem w) (pool_allocator w) (root_info w)) →
  NoDup (p_abs <$> all_elems (root_info w1))
  ∧ ∃ w2, restore_internal w1 = Ok tt w2
    ∧ heap_restored (pool_allocator w) (wmem w) w1
        (map pl_pair (filter (fun p => has_codec (pl_src p) = true) ps)) w2.
Proof.
  intros Hh Hsrc Hps Hroot Hdis Hf.
  assert (p_abs <$> all_elems (root_info w1) ≡ₚ p_abs <$> all_elems (objects (root_info w))) as Hp.
  { rewrite Hroot, <- Hsrc, <- (all_elems_abs pl_dst ps) by done.
    apply fmap_Permutation, all_elems_perm. symmetry. apply Permutation_rev. }
  assert (NoDup (p_abs <$> all_elems (root_info w1))) as Hnd
    by (rewrite Hp; apply objects_abs_NoDup, Hh).
  split; [done|]. set (qs := filter (fun p => has_codec (pl_src p) = true) ps).
  assert (Forall (fun p => place_ok p ∧ is_Some (codec_of (type (head (pl_src p))))
                   ∧ object_ok w (pl_src p) ∧ p_abs (head (pl_src p)) ≠ -1
                   ∧ pl_dst p ∈ root_info w1) qs) as Hqs.
  { apply Forall_forall. intros p [Hc Hin]%list_elem_of_filter.
    rewrite Forall_forall in Hps. specialize (Hps p Hin).
    assert (pl_src p ∈ root_info w) as Hinr.
    { assert (pl_src p ∈ objects (root_info w)) as H
        by (rewrite <- Hsrc; by apply (list_elem_of_fmap_2 pl_src)).
      by do 2 apply list_elem_of_filter in H as [_ H]. }
    pose proof (ho_objects _ Hh) as Ho. rewrite Forall_forall in Ho.
    split_and!; [done| |by apply Ho| |].
    - unfold has_codec in Hc. by destruct (codec_of _).
    - assert (head (pl_src p) ∈ all_elems (root_info w)) as He
        by (apply in_all_elems; exists (pl_src p); split; [done|left]).
      pose proof (p_abs_positive _ _ _ (ho_table _ Hh) He). lia.
    - rewrite Hroot, <- Permutation_rev. by apply (list_elem_of_fmap_2 pl_dst). }
  apply restore_internal_ok.
  - rewrite Hf, heap_bytes_filter. f_equal. f_equal. rewrite <- Hsrc. unfold qs.
    clear. induction ps as [|p ps IH]; [done|]. cbn [map]. rewrite !filter_cons.
    destruct (decide _); [|done]. simpl. by f_equal.
  - apply Forall_map. eapply Forall_impl; [exact Hqs|]. by intros p (_&?&_).
  - apply Forall_map. eapply Forall_impl; [exact Hqs|]. intros p (?&[c Hc]&?&?&?).
    apply (place_info_ok w _) with (c := c); try done. intros a Ha. by rewrite Hp.
  - eapply FOP_filter_map; [exact Hdis|]. intros x y Hx Hy Hd.
    rewrite Forall_forall in Hqs.
    destruct (Hqs x Hx) as (?&[cx Hcx]&?&_), (Hqs y Hy) as (?&[cy Hcy]&?&_).
    eapply inside_apart; [by eapply place_foot|by eapply place_foot|].
    unfold disjoint_region in Hd. unfold pl_block, block_of in *. simpl in *. lia.
Qed.

Lemma checkpoint_ok w w' room :
  heap_ok w → root_info w' = [] → root_frame w' = [] →
  a_inv w' [] room →
  need s (filter (fun i => dump_skipped (type (head i)) = false) (root_info w)) <= room →
  ∃ img w1 bytes,
    dump_runtime w = Ok img w1 ∧ w_fp w1 = FWrite bytes
    ∧ (w_fp w' = FRead bytes →
       ∃ ps w2, (restore_table s (S (length img)) img ;;; restore_internal) w' = Ok tt w2
         ∧ checkpoint_restored w w' ps w2).
Proof.
  intros Hh Hr0 Hf0 Hi Hn. destruct (dump_runtime_ok w Hh) as (w1&Hd&_&Hf).
  do 3 eexists. split; [exact Hd|]. split; [exact Hf|]. intros Hf'.
  set (live := filter (fun i => dump_skipped (type (head i)) = false) (root_info w)) in *.
  rewrite table_bytes_filter. fold live.
  destruct (restore_table_ok s live (S (length (concat (map info_entry live)))) w' [] room)
    as (ps&w2&Hr&[H1 H2 H3 H4 H5 H6 _ _]); [|apply Hh|done|done|].
  { pose proof (length_table live). lia. }
  rewrite Hr0, app_nil_r in H3. rewrite Hf0 in H4.
  destruct (places_restored w ps w2) as (Hnd&w3&Hr3&Hst&Hf3&Hrel&_&[S1 S2 S3]); try done.
  { by rewrite (sp_fp _ _ H5). }
  exists ps, w3. split; [by erewrite mbind_ok by exact Hr|].
  destruct Hst as [E1 E2 E3 E4]. constructor; try done; rewrite ?E1; try done.
  - by rewrite E2, H4.
  - apply Forall_map, Forall_forall. intros p Hp.
    destruct (has_codec (pl_src p)) eqn:Ec.
    + rewrite Forall_map, Forall_forall in Hrel. apply Hrel. by apply list_elem_of_filter.
    + unfold info_rel, elem_pairs. unfold has_codec in Ec. cbn [pl_pair fst].
      by destruct (codec_of _).
  - rewrite E4. by destruct H5.
  - rewrite E3. by destruct H5.
  - rewrite S1. by apply static_at_ok.
  - rewrite S2. by apply static_at_ok.
  - rewrite S3. by apply static_at_ok.
Qed.
End Restore.
