(* ===== verification/Correctness.v ===== *)
(** The correctness of a migration: what a checkpoint writes is rebuilt in a
    fresh process (heap, object records, pointers), what ends the process, and a
    small heap on which every hypothesis holds. *)
From stdpp Require Import base gmap list numbers strings.
From Stdlib Require Import Strings.Byte ZArith Lia.
From S2P Require Import Prelude CMemory WasmTypes PoolInfo Table ExecEnv Memory Dump Restore.
From S2P Require Import Format Codec Records Searches Heap Frames Checkpoint Extents TableImage.
From S2P Require Import Migration.

(** * A small heap

    A string list of two nodes, a section whose body is a byte buffer, an array
    of two globals and the entry frame, in a pool at address 4096. *)

Definition words (l : list (Z * Z)) (m : mem) : mem :=
  foldl (fun m p => store_Z m p.1 8 p.2) m l.

Definition sample_mem : mem :=
  words [(FLD 4352 StringNode "next", 4416); (FLD 4352 StringNode "str", 4352 + SIZEOF StringNode);
         (4352 + SIZEOF StringNode, 25957);
         (FLD 4416 StringNode "next", NULL); (FLD 4416 StringNode "str", 4416 + SIZEOF StringNode);
         (4416 + SIZEOF StringNode, 120);
         (FLD 4480 WASMSection "next", NULL); (FLD 4480 WASMSection "section_type", 10);
         (FLD 4480 WASMSection "section_body", 4608); (FLD 4480 WASMSection "section_body_size", 3);
         (4608, 16777216 + 11); (FLD 4672 WASMGlobal "type", 127);
         (FLD (4672 + SIZEOF WASMGlobal) WASMGlobal "type", 126)] ∅.

Definition sample_table : list Pool_Info :=
  [mkInfo (mkElem 256 4352 3 StringNodeT) [];
   mkInfo (mkElem 320 4416 2 StringNodeT) [];
   mkInfo (mkElem 384 4480 1 WASMSectionT) [];
   mkInfo (mkElem 512 4608 3 uint8T) [];
   mkInfo (mkElem 576 4672 2 WASMGlobalT)
     [mkElem (576 + SIZEOF WASMGlobal) (4672 + SIZEOF WASMGlobal) (-1) WASMGlobalT];
   mkInfo (mkElem 1024 5120 96 WASMInterpFrameT) [];
   mkInfo (mkElem 2048 6144 40 fd_tableT) []].

Definition sample : world :=
  mkWorld sample_mem FClosed FClosed sample_table [] 4096 0 0 0 0 0 0.

(** A fresh process: an empty table and a bump allocator. *)
Definition fresh_mem : mem := words [(1048576, 1048592); (1048584, 1052672)] ∅.

Definition fresh (dump_img frame_img : list byte) : world :=
  mkWorld fresh_mem (FRead dump_img) (FRead frame_img) [] [] 1048576 0 0 0 0 0 0.

Definition sample_memory : memory_state :=
  mkMemory MEMORY_MODE_ALLOCATOR
    (mkFuncs bump_malloc (fun _ _ => mret NULL) (fun _ => skip))
    (mkFuncs bump_malloc (fun _ _ => mret NULL) (fun _ => skip)) false.

Lemma sample_table_ok : table_ok 4096 sample_table.
Proof.
  constructor.
  - repeat constructor; vm_compute; reflexivity.
  - repeat constructor; vm_compute; reflexivity.
  - apply (bool_decide_unpack (NoDup (p_raw <$> all_elems sample_table))). vm_compute. reflexivity.
Qed.

Ltac by_compute :=
  vm_compute;
  first [reflexivity | exact I | tauto | intuition congruence
        | repeat split; first [by eexists | reflexivity]].

Ltac in_list := apply list_elem_of_In; vm_compute; tauto.

Ltac each := repeat (apply Forall_cons; split); try apply Forall_nil_2.

Ltac prove_heap_ok :=
  constructor;
  [ exact sample_table_ok
  | each; unfold object_ok; cbn [type head codec_of];
    try (apply frame_silent; reflexivity);
    try (apply skipped_silent; reflexivity);
    (split; [|repeat constructor]);
    each; constructor; by_compute
  | match goal with |- Forall _ ?l => let l' := eval vm_compute in l in change l with l' end;
    each; (split; [reflexivity|]);
    first [by_compute | eexists; constructor; [reflexivity|..]];
    each; by_compute
  | each; by_compute ].

Lemma sample_ok : heap_ok sample.
Proof. prove_heap_ok. Qed.

Lemma fresh_room b g : bump_inv (fresh b g) [] 4080.
Proof.
  unfold bump_inv. cbv zeta. split_and!; try apply Forall_nil_2.
  all: vm_compute; first [reflexivity | discriminate].
Qed.

(** * The heap *)



Lemma table_roundtrip_witness :
  let live := filter (fun i => dump_skipped (type (head i)) = false) sample_table in
  ∃ w1 ps w2,
    dump_table live (set_dump_base 4096 (set_gp (FWrite []) (set_fp (FWrite []) sample)))
    = Ok (concat (map info_entry live)) w1
    ∧ restore_table sample_memory (S (length (concat (map info_entry live))))
        (concat (map info_entry live)) (fresh [] []) = Ok tt w2
    ∧ table_restored live (fresh [] []) [] ps w2.
Proof.
  intros live. set (w := set_dump_base 4096 (set_gp (FWrite []) (set_fp (FWrite []) sample))).
  assert (Forall (dumpable w) live ∧ Forall chain_ok live) as [Hd Hc].
  { split; apply Forall_forall; intros i [_ Hi]%list_elem_of_filter.
    - pose proof (ho_objects _ sample_ok) as Ho. rewrite Forall_forall in Ho.
      assert (same_heap (set_dump_base (pool_allocator sample) sample) w) as Hs by done.
      rewrite <- Hs. by apply object_dumpable, Ho.
    - pose proof (ho_chains _ sample_ok) as Ho. rewrite Forall_forall in Ho. by apply Ho. }
  destruct (table_roundtrip live w [] []) as (w1&H1&H2);
    [reflexivity|reflexivity|exact Hd|exact Hc|exact (ho_entries _ sample_ok)|].
  destruct (H2 sample_memory bump_allocator (fresh [] []) [] 4080) as (ps&w2&H3&H4);
    [by apply fresh_room|vm_compute; discriminate|].
  exists w1, ps, w2. split; [exact H1|]. split; [exact H3|exact H4].
Defined.

(** * One record *)


(** The second string node of the sample moves to another process. *)
Definition node_dst : Pool_Info := mkInfo (mkElem 320 73728 2 StringNodeT) [].
Definition node_src : Pool_Info := mkInfo (mkElem 320 4416 2 StringNodeT) [].
Definition open_sample : world := set_dump_base 4096 (set_gp (FWrite []) (set_fp (FWrite []) sample)).


(** * Pointers *)

(** A pointer to a live object is written as four bytes that stand for the
    object in every process: read back with a table that has an object at the
    same offset, they give the address of that object. *)
Theorem pointer_relocated w root e out :
  0 <= dump_base w → table_ok (dump_base w) root → e ∈ all_elems root → w_fp w = FWrite out →
  ∃ bs, DUMP_PTR (p_raw e) w = Ok tt (set_fp (FWrite (out ++ bs)) w) ∧ length bs = 4%nat
    ∧ ∀ w' e' rest,
        NoDup (p_abs <$> all_elems (root_info w')) → e' ∈ all_elems (root_info w') →
        p_abs e' = p_abs e → w_fp w' = FRead (bs ++ rest) →
        RESTORE_PTR w' = Ok (p_raw e') (set_fp (FRead rest) w').
Proof.
  intros Hb Hok Hin Hf. exists (enc_ptr (dump_base w) (p_raw e)).
  split; [by apply DUMP_PTR_fp|]. split; [apply length_enc_ptr|]. intros w' e' rest Hnd Hin' Ha Hf'.
  pose proof (p_abs_positive _ _ _ Hok Hin) as Hpos.
  destruct Hok as [Hab Hne _]. rewrite Forall_forall in Hab, Hne.
  specialize (Hab e Hin). specialize (Hne e Hin). unfold near in Hne.
  apply (RESTORE_PTR_app _ (dump_base w) (p_raw e)); [done|]. unfold reloc.
  rewrite (proj2 (Z.eqb_neq (p_raw e) NULL)) by (unfold NULL; lia).
  unfold elem_at in Hab. rewrite <- Hab. rewrite (proj2 (Z.eqb_neq _ _)) by lia.
  destruct (find_info_key p_abs (fun x => p_abs e =? p_abs x) (p_abs e) (abs_key _)
    (root_info w') e') as (i&->&Ei); [done..|]. simpl. by rewrite Ei.
Qed.

Lemma pointer_relocated_witness :
  ∃ bs, DUMP_PTR 4416 open_sample = Ok tt (set_fp (FWrite bs) open_sample)
    ∧ RESTORE_PTR (set_root_info [node_dst] (fresh bs [])) 
      = Ok 73728 (set_root_info [node_dst] (fresh [] [])).
Proof.
  destruct (pointer_relocated open_sample sample_table (head node_src) []) as (bs&Hr&_&H);
    [by_compute|exact sample_table_ok| |reflexivity|].
  { in_list. }
  exists bs. split; [exact Hr|].
  apply (H (set_root_info [node_dst] (fresh bs [])) (head node_dst) []).
  - apply NoDup_singleton.
  - in_list.
  - reflexivity.
  - by rewrite app_nil_r.
Defined.

(** A pointer into the middle of an object is written without complaint, but
    the process that reads it back ends with status 1: only the start of an
    object (or of an array element) is found. *)
Theorem interior_pointer_exits base root a w rest :
  table_ok base root → near base a → a ∉ raws root → 0 <= base →
  (∀ x, x ∈ p_abs <$> all_elems (root_info w) → x ∈ p_abs <$> all_elems root) →
  w_fp w = FRead (enc_ptr base a ++ rest) →
  RESTORE_PTR w = Exited 1.
Proof.
  intros Hok Hn Hni Hb Hsub Hf. unfold near in Hn. unfold enc_ptr in Hf.
  rewrite (proj2 (Z.eqb_neq a NULL)) in Hf by (unfold NULL; lia).
  unfold RESTORE_PTR_FROM. erewrite mbind_ok by (by apply fread_int_app).
  rewrite int32_small by lia. rewrite (proj2 (Z.eqb_neq _ _)) by lia.
  unfold mbind, get_info. rewrite (proj2 (Z.eqb_neq _ _)) by lia. cbn [root_info set_fp].
  replace (find_info _ (root_info w)) with (@None Pool_Info); [done|].
  symmetry. apply find_info_none, Forall_forall. intros e He. apply Z.eqb_neq. intros E.
  assert (p_abs e ∈ p_abs <$> all_elems root) as (e1&E1&He1)%list_elem_of_fmap
    by (by apply Hsub, list_elem_of_fmap_2).
  apply Hni. apply list_elem_of_fmap. exists e1. split; [|done].
  destruct Hok as [Ha Hne _]. rewrite Forall_forall in Ha, Hne.
  rewrite (near_abs base e1) in E1 by auto. lia.
Qed.

Lemma interior_pointer_exits_witness :
  RESTORE_PTR (set_root_info [node_dst] (fresh (enc_ptr 4096 4609) [])) = Exited 1.
Proof.
  apply (interior_pointer_exits 4096 sample_table 4609 _ []).
  - exact sample_table_ok.
  - by_compute.
  - intros H%list_elem_of_In. vm_compute in H. intuition congruence.
  - discriminate.
  - intros x Hx%list_elem_of_In. simpl in Hx. destruct Hx as [<-|[]]. in_list.
  - by rewrite app_nil_r.
Defined.

(** A record whose offset no object of the table has ends the process with
    status 1, before anything is restored. *)
Theorem unknown_record_exits w t sz abs rest :
  - 2 ^ 31 <= abs < 2 ^ 31 → abs ≠ -1 → abs ∉ p_abs <$> all_elems (root_info w) →
  w_fp w = FRead (header_bytes t (mkElem abs 0 sz t) ++ rest) →
  restore_record w = Exited 1.
Proof.
  intros Ha H1 Hni Hf. unfold restore_record.
  rewrite (header_app w t (mkElem abs 0 sz t) rest Ha Hf). unfold mbind, get_info. cbn [p_abs].
  rewrite (proj2 (Z.eqb_neq _ _)) by done. cbn [root_info set_fp].
  replace (find_info _ (root_info w)) with (@None Pool_Info); [done|].
  symmetry. apply find_info_none, Forall_forall. intros e He. apply Z.eqb_neq. intros ->.
  by apply Hni, list_elem_of_fmap_2.
Qed.

Lemma unknown_record_exits_witness :
  restore_record (set_root_info [node_dst] (fresh (header_bytes WASMModuleT (mkElem 64 0 1 WASMModuleT)) []))
  = Exited 1.
Proof.
  apply (unknown_record_exits _ WASMModuleT 1 64 []).
  - split; vm_compute; congruence.
  - discriminate.
  - intros H%list_elem_of_In. vm_compute in H. intuition congruence.
  - by rewrite app_nil_r.
Defined.

(** * Blocks *)

(** C30: the restore routine of an object writes inside the block that was
    allocated for the object, and nowhere else. *)
Theorem restore_stays_in_block w w' p rest :
  heap_ok w → pl_src p ∈ objects (root_info w) → is_Some (codec_of (type (head (pl_src p)))) →
  place_ok p → pl_dst p ∈ root_info w' → NoDup (p_abs <$> all_elems (root_info w')) →
  (∀ a, a ∈ p_abs <$> all_elems (objects (root_info w)) → a ∈ p_abs <$> all_elems (root_info w')) →
  w_fp w' = FRead (info_bytes (wmem w) (pool_allocator w) (pl_src p) ++ rest) →
  ∃ w2, restore_record w' = Ok tt w2 ∧ w_fp w2 = FRead rest
    ∧ unchanged_outside [pl_block p] (wmem w') (wmem w2).
Proof.
  intros Hh Hin [c Hc] Hp Hdst Hnd Habs Hf.
  assert (pl_src p ∈ root_info w) as Hroot by (by do 2 apply list_elem_of_filter in Hin as [_ Hin]).
  pose proof (ho_objects _ Hh) as Ho. rewrite Forall_forall in Ho. specialize (Ho _ Hroot).
  assert (head (pl_src p) ∈ all_elems (root_info w)) as He
    by (apply in_all_elems; exists (pl_src p); split; [done|left]).
  pose proof (p_abs_positive _ _ _ (ho_table _ Hh) He).
  assert (info_ok (pool_allocator w) (root_info w') (wmem w) (pl_pair p)) as Hok
    by (eapply place_info_ok; try done; lia).
  destruct (restore_record_ok (pool_allocator w) (wmem w) (pl_pair p) w' rest c Hc Hf Hok)
    as (w2&Hr&_&Hf2&_&Hu&_). exists w2. split_and!; [done|done|].
  eapply unchanged_weaken; [|exact Hu]. intros x r Hr2 Hx. exists (pl_block p). split; [by left|].
  pose proof (place_foot w p c Hp Hc Ho) as Hft. unfold inside in Hft. rewrite Forall_forall in Hft.
  specialize (Hft r (proj2 (list_elem_of_In _ _) Hr2)).
  unfold in_region, pl_block, block_of in *. simpl in *. lia.
Qed.

Definition sample_places : list place :=
  map (fun i => mkPlace i (default 0 (data_size (type (head i)))) (1048576 + p_abs (head i)))
    (objects sample_table).

Definition sample_target (bs : list byte) : world :=
  set_root_info (map pl_dst sample_places) (fresh bs []).

Lemma restore_stays_in_block_witness :
  let p := mkPlace (mkInfo (mkElem 512 4608 3 uint8T) []) 1 1049088 in
  ∃ w2, restore_record (sample_target (info_bytes sample_mem 4096 (pl_src p))) = Ok tt w2
    ∧ w_fp w2 = FRead []
    ∧ unchanged_outside [pl_block p] fresh_mem (wmem w2).
Proof.
  intros p. apply (restore_stays_in_block sample (sample_target (info_bytes sample_mem 4096 (pl_src p))) p []).
  - exact sample_ok.
  - in_list.
  - by eexists.
  - constructor; [constructor; [reflexivity|..]|..]; each; by_compute.
  - in_list.
  - match goal with |- NoDup ?l => apply (bool_decide_unpack (NoDup l)) end. vm_compute. reflexivity.
  - intros a. vm_compute. exact id.
  - by rewrite app_nil_r.
Defined.
