(* ===== verification/Opcodes.v ===== *)
(** The opcodes of the interpreter (wasm_opcode.h) and the value and label types
    (wasm.h). *)
From stdpp Require Import base tactics decidable list.
From Stdlib Require Import ZArith Lia.
From S2P Require Import Prelude.

Inductive WASMOpcode :=
  | WASM_OP_UNREACHABLE | WASM_OP_NOP | WASM_OP_BLOCK | WASM_OP_LOOP | WASM_OP_IF | WASM_OP_ELSE
  | WASM_OP_UNUSED_0x06 | WASM_OP_UNUSED_0x07 | WASM_OP_UNUSED_0x08 | WASM_OP_UNUSED_0x09
  | WASM_OP_UNUSED_0x0a | WASM_OP_END | WASM_OP_BR | WASM_OP_BR_IF | WASM_OP_BR_TABLE
  | WASM_OP_RETURN | WASM_OP_CALL | WASM_OP_CALL_INDIRECT | WASM_OP_RETURN_CALL
  | WASM_OP_RETURN_CALL_INDIRECT | WASM_OP_UNUSED_0x14 | WASM_OP_UNUSED_0x15
  | WASM_OP_UNUSED_0x16 | WASM_OP_UNUSED_0x17 | WASM_OP_UNUSED_0x18 | WASM_OP_UNUSED_0x19
  | WASM_OP_DROP | WASM_OP_SELECT | WASM_OP_SELECT_T | WASM_OP_GET_GLOBAL_64
  | WASM_OP_SET_GLOBAL_64 | WASM_OP_SET_GLOBAL_AUX_STACK | WASM_OP_GET_LOCAL | WASM_OP_SET_LOCAL
  | WASM_OP_TEE_LOCAL | WASM_OP_GET_GLOBAL | WASM_OP_SET_GLOBAL | WASM_OP_TABLE_GET
  | WASM_OP_TABLE_SET | WASM_OP_UNUSED_0x27 | WASM_OP_I32_LOAD | WASM_OP_I64_LOAD
  | WASM_OP_F32_LOAD | WASM_OP_F64_LOAD | WASM_OP_I32_LOAD8_S | WASM_OP_I32_LOAD8_U
  | WASM_OP_I32_LOAD16_S | WASM_OP_I32_LOAD16_U | WASM_OP_I64_LOAD8_S | WASM_OP_I64_LOAD8_U
  | WASM_OP_I64_LOAD16_S | WASM_OP_I64_LOAD16_U | WASM_OP_I64_LOAD32_S | WASM_OP_I64_LOAD32_U
  | WASM_OP_I32_STORE | WASM_OP_I64_STORE | WASM_OP_F32_STORE | WASM_OP_F64_STORE
  | WASM_OP_I32_STORE8 | WASM_OP_I32_STORE16 | WASM_OP_I64_STORE8 | WASM_OP_I64_STORE16
  | WASM_OP_I64_STORE32 | WASM_OP_MEMORY_SIZE | WASM_OP_MEMORY_GROW | WASM_OP_I32_CONST
  | WASM_OP_I64_CONST | WASM_OP_F32_CONST | WASM_OP_F64_CONST | WASM_OP_I32_EQZ | WASM_OP_I32_EQ
  | WASM_OP_I32_NE | WASM_OP_I32_LT_S | WASM_OP_I32_LT_U | WASM_OP_I32_GT_S | WASM_OP_I32_GT_U
  | WASM_OP_I32_LE_S | WASM_OP_I32_LE_U | WASM_OP_I32_GE_S | WASM_OP_I32_GE_U | WASM_OP_I64_EQZ
  | WASM_OP_I64_EQ | WASM_OP_I64_NE | WASM_OP_I64_LT_S | WASM_OP_I64_LT_U | WASM_OP_I64_GT_S
  | WASM_OP_I64_GT_U | WASM_OP_I64_LE_S | WASM_OP_I64_LE_U | WASM_OP_I64_GE_S | WASM_OP_I64_GE_U
  | WASM_OP_F32_EQ | WASM_OP_F32_NE | WASM_OP_F32_LT | WASM_OP_F32_GT | WASM_OP_F32_LE
  | WASM_OP_F32_GE | WASM_OP_F64_EQ | WASM_OP_F64_NE | WASM_OP_F64_LT | WASM_OP_F64_GT
  | WASM_OP_F64_LE | WASM_OP_F64_GE | WASM_OP_I32_CLZ | WASM_OP_I32_CTZ | WASM_OP_I32_POPCNT
  | WASM_OP_I32_ADD | WASM_OP_I32_SUB | WASM_OP_I32_MUL | WASM_OP_I32_DIV_S | WASM_OP_I32_DIV_U
  | WASM_OP_I32_REM_S | WASM_OP_I32_REM_U | WASM_OP_I32_AND | WASM_OP_I32_OR | WASM_OP_I32_XOR
  | WASM_OP_I32_SHL | WASM_OP_I32_SHR_S | WASM_OP_I32_SHR_U | WASM_OP_I32_ROTL | WASM_OP_I32_ROTR
  | WASM_OP_I64_CLZ | WASM_OP_I64_CTZ | WASM_OP_I64_POPCNT | WASM_OP_I64_ADD | WASM_OP_I64_SUB
  | WASM_OP_I64_MUL | WASM_OP_I64_DIV_S | WASM_OP_I64_DIV_U | WASM_OP_I64_REM_S
  | WASM_OP_I64_REM_U | WASM_OP_I64_AND | WASM_OP_I64_OR | WASM_OP_I64_XOR | WASM_OP_I64_SHL
  | WASM_OP_I64_SHR_S | WASM_OP_I64_SHR_U | WASM_OP_I64_ROTL | WASM_OP_I64_ROTR | WASM_OP_F32_ABS
  | WASM_OP_F32_NEG | WASM_OP_F32_CEIL | WASM_OP_F32_FLOOR | WASM_OP_F32_TRUNC
  | WASM_OP_F32_NEAREST | WASM_OP_F32_SQRT | WASM_OP_F32_ADD | WASM_OP_F32_SUB | WASM_OP_F32_MUL
  | WASM_OP_F32_DIV | WASM_OP_F32_MIN | WASM_OP_F32_MAX | WASM_OP_F32_COPYSIGN | WASM_OP_F64_ABS
  | WASM_OP_F64_NEG | WASM_OP_F64_CEIL | WASM_OP_F64_FLOOR | WASM_OP_F64_TRUNC
  | WASM_OP_F64_NEAREST | WASM_OP_F64_SQRT | WASM_OP_F64_ADD | WASM_OP_F64_SUB | WASM_OP_F64_MUL
  | WASM_OP_F64_DIV | WASM_OP_F64_MIN | WASM_OP_F64_MAX | WASM_OP_F64_COPYSIGN
  | WASM_OP_I32_WRAP_I64 | WASM_OP_I32_TRUNC_S_F32 | WASM_OP_I32_TRUNC_U_F32
  | WASM_OP_I32_TRUNC_S_F64 | WASM_OP_I32_TRUNC_U_F64 | WASM_OP_I64_EXTEND_S_I32
  | WASM_OP_I64_EXTEND_U_I32 | WASM_OP_I64_TRUNC_S_F32 | WASM_OP_I64_TRUNC_U_F32
  | WASM_OP_I64_TRUNC_S_F64 | WASM_OP_I64_TRUNC_U_F64 | WASM_OP_F32_CONVERT_S_I32
  | WASM_OP_F32_CONVERT_U_I32 | WASM_OP_F32_CONVERT_S_I64 | WASM_OP_F32_CONVERT_U_I64
  | WASM_OP_F32_DEMOTE_F64 | WASM_OP_F64_CONVERT_S_I32 | WASM_OP_F64_CONVERT_U_I32
  | WASM_OP_F64_CONVERT_S_I64 | WASM_OP_F64_CONVERT_U_I64 | WASM_OP_F64_PROMOTE_F32
  | WASM_OP_I32_REINTERPRET_F32 | WASM_OP_I64_REINTERPRET_F64 | WASM_OP_F32_REINTERPRET_I32
  | WASM_OP_F64_REINTERPRET_I64 | WASM_OP_I32_EXTEND8_S | WASM_OP_I32_EXTEND16_S
  | WASM_OP_I64_EXTEND8_S | WASM_OP_I64_EXTEND16_S | WASM_OP_I64_EXTEND32_S | WASM_OP_DROP_64
  | WASM_OP_SELECT_64 | EXT_OP_GET_LOCAL_FAST | EXT_OP_SET_LOCAL_FAST_I64 | EXT_OP_SET_LOCAL_FAST
  | EXT_OP_TEE_LOCAL_FAST | EXT_OP_TEE_LOCAL_FAST_I64 | EXT_OP_COPY_STACK_TOP
  | EXT_OP_COPY_STACK_TOP_I64 | EXT_OP_COPY_STACK_VALUES | WASM_OP_IMPDEP | WASM_OP_REF_NULL
  | WASM_OP_REF_IS_NULL | WASM_OP_REF_FUNC | EXT_OP_BLOCK | EXT_OP_LOOP | EXT_OP_IF
  | WASM_OP_MISC_PREFIX | WASM_OP_SIMD_PREFIX | WASM_OP_ATOMIC_PREFIX.

Inductive WASMMiscEXTOpcode :=
  | WASM_OP_I32_TRUNC_SAT_S_F32 | WASM_OP_I32_TRUNC_SAT_U_F32 | WASM_OP_I32_TRUNC_SAT_S_F64
  | WASM_OP_I32_TRUNC_SAT_U_F64 | WASM_OP_I64_TRUNC_SAT_S_F32 | WASM_OP_I64_TRUNC_SAT_U_F32
  | WASM_OP_I64_TRUNC_SAT_S_F64 | WASM_OP_I64_TRUNC_SAT_U_F64 | WASM_OP_MEMORY_INIT
  | WASM_OP_DATA_DROP | WASM_OP_MEMORY_COPY | WASM_OP_MEMORY_FILL | WASM_OP_TABLE_INIT
  | WASM_OP_ELEM_DROP | WASM_OP_TABLE_COPY | WASM_OP_TABLE_GROW | WASM_OP_TABLE_SIZE
  | WASM_OP_TABLE_FILL.

Definition opcode_code (op : WASMOpcode) : Z :=
  match op with
  | WASM_OP_UNREACHABLE => 0x00 | WASM_OP_NOP => 0x01 | WASM_OP_BLOCK => 0x02
  | WASM_OP_LOOP => 0x03 | WASM_OP_IF => 0x04 | WASM_OP_ELSE => 0x05
  | WASM_OP_UNUSED_0x06 => 0x06 | WASM_OP_UNUSED_0x07 => 0x07 | WASM_OP_UNUSED_0x08 => 0x08
  | WASM_OP_UNUSED_0x09 => 0x09 | WASM_OP_UNUSED_0x0a => 0x0a | WASM_OP_END => 0x0b
  | WASM_OP_BR => 0x0c | WASM_OP_BR_IF => 0x0d | WASM_OP_BR_TABLE => 0x0e
  | WASM_OP_RETURN => 0x0f | WASM_OP_CALL => 0x10 | WASM_OP_CALL_INDIRECT => 0x11
  | WASM_OP_RETURN_CALL => 0x12 | WASM_OP_RETURN_CALL_INDIRECT => 0x13
  | WASM_OP_UNUSED_0x14 => 0x14 | WASM_OP_UNUSED_0x15 => 0x15 | WASM_OP_UNUSED_0x16 => 0x16
  | WASM_OP_UNUSED_0x17 => 0x17 | WASM_OP_UNUSED_0x18 => 0x18 | WASM_OP_UNUSED_0x19 => 0x19
  | WASM_OP_DROP => 0x1a | WASM_OP_SELECT => 0x1b | WASM_OP_SELECT_T => 0x1c
  | WASM_OP_GET_GLOBAL_64 => 0x1d | WASM_OP_SET_GLOBAL_64 => 0x1e
  | WASM_OP_SET_GLOBAL_AUX_STACK => 0x1f | WASM_OP_GET_LOCAL => 0x20 | WASM_OP_SET_LOCAL => 0x21
  | WASM_OP_TEE_LOCAL => 0x22 | WASM_OP_GET_GLOBAL => 0x23 | WASM_OP_SET_GLOBAL => 0x24
  | WASM_OP_TABLE_GET => 0x25 | WASM_OP_TABLE_SET => 0x26 | WASM_OP_UNUSED_0x27 => 0x27
  | WASM_OP_I32_LOAD => 0x28 | WASM_OP_I64_LOAD => 0x29 | WASM_OP_F32_LOAD => 0x2a
  | WASM_OP_F64_LOAD => 0x2b | WASM_OP_I32_LOAD8_S => 0x2c | WASM_OP_I32_LOAD8_U => 0x2d
  | WASM_OP_I32_LOAD16_S => 0x2e | WASM_OP_I32_LOAD16_U => 0x2f | WASM_OP_I64_LOAD8_S => 0x30
  | WASM_OP_I64_LOAD8_U => 0x31 | WASM_OP_I64_LOAD16_S => 0x32 | WASM_OP_I64_LOAD16_U => 0x33
  | WASM_OP_I64_LOAD32_S => 0x34 | WASM_OP_I64_LOAD32_U => 0x35 | WASM_OP_I32_STORE => 0x36
  | WASM_OP_I64_STORE => 0x37 | WASM_OP_F32_STORE => 0x38 | WASM_OP_F64_STORE => 0x39
  | WASM_OP_I32_STORE8 => 0x3a | WASM_OP_I32_STORE16 => 0x3b | WASM_OP_I64_STORE8 => 0x3c
  | WASM_OP_I64_STORE16 => 0x3d | WASM_OP_I64_STORE32 => 0x3e | WASM_OP_MEMORY_SIZE => 0x3f
  | WASM_OP_MEMORY_GROW => 0x40 | WASM_OP_I32_CONST => 0x41 | WASM_OP_I64_CONST => 0x42
  | WASM_OP_F32_CONST => 0x43 | WASM_OP_F64_CONST => 0x44 | WASM_OP_I32_EQZ => 0x45
  | WASM_OP_I32_EQ => 0x46 | WASM_OP_I32_NE => 0x47 | WASM_OP_I32_LT_S => 0x48
  | WASM_OP_I32_LT_U => 0x49 | WASM_OP_I32_GT_S => 0x4a | WASM_OP_I32_GT_U => 0x4b
  | WASM_OP_I32_LE_S => 0x4c | WASM_OP_I32_LE_U => 0x4d | WASM_OP_I32_GE_S => 0x4e
  | WASM_OP_I32_GE_U => 0x4f | WASM_OP_I64_EQZ => 0x50 | WASM_OP_I64_EQ => 0x51
  | WASM_OP_I64_NE => 0x52 | WASM_OP_I64_LT_S => 0x53 | WASM_OP_I64_LT_U => 0x54
  | WASM_OP_I64_GT_S => 0x55 | WASM_OP_I64_GT_U => 0x56 | WASM_OP_I64_LE_S => 0x57
  | WASM_OP_I64_LE_U => 0x58 | WASM_OP_I64_GE_S => 0x59 | WASM_OP_I64_GE_U => 0x5a
  | WASM_OP_F32_EQ => 0x5b | WASM_OP_F32_NE => 0x5c | WASM_OP_F32_LT => 0x5d
  | WASM_OP_F32_GT => 0x5e | WASM_OP_F32_LE => 0x5f | WASM_OP_F32_GE => 0x60
  | WASM_OP_F64_EQ => 0x61 | WASM_OP_F64_NE => 0x62 | WASM_OP_F64_LT => 0x63
  | WASM_OP_F64_GT => 0x64 | WASM_OP_F64_LE => 0x65 | WASM_OP_F64_GE => 0x66
  | WASM_OP_I32_CLZ => 0x67 | WASM_OP_I32_CTZ => 0x68 | WASM_OP_I32_POPCNT => 0x69
  | WASM_OP_I32_ADD => 0x6a | WASM_OP_I32_SUB => 0x6b | WASM_OP_I32_MUL => 0x6c
  | WASM_OP_I32_DIV_S => 0x6d | WASM_OP_I32_DIV_U => 0x6e | WASM_OP_I32_REM_S => 0x6f
  | WASM_OP_I32_REM_U => 0x70 | WASM_OP_I32_AND => 0x71 | WASM_OP_I32_OR => 0x72
  | WASM_OP_I32_XOR => 0x73 | WASM_OP_I32_SHL => 0x74 | WASM_OP_I32_SHR_S => 0x75
  | WASM_OP_I32_SHR_U => 0x76 | WASM_OP_I32_ROTL => 0x77 | WASM_OP_I32_ROTR => 0x78
  | WASM_OP_I64_CLZ => 0x79 | WASM_OP_I64_CTZ => 0x7a | WASM_OP_I64_POPCNT => 0x7b
  | WASM_OP_I64_ADD => 0x7c | WASM_OP_I64_SUB => 0x7d | WASM_OP_I64_MUL => 0x7e
  | WASM_OP_I64_DIV_S => 0x7f | WASM_OP_I64_DIV_U => 0x80 | WASM_OP_I64_REM_S => 0x81
  | WASM_OP_I64_REM_U => 0x82 | WASM_OP_I64_AND => 0x83 | WASM_OP_I64_OR => 0x84
  | WASM_OP_I64_XOR => 0x85 | WASM_OP_I64_SHL => 0x86 | WASM_OP_I64_SHR_S => 0x87
  | WASM_OP_I64_SHR_U => 0x88 | WASM_OP_I64_ROTL => 0x89 | WASM_OP_I64_ROTR => 0x8a
  | WASM_OP_F32_ABS => 0x8b | WASM_OP_F32_NEG => 0x8c | WASM_OP_F32_CEIL => 0x8d
  | WASM_OP_F32_FLOOR => 0x8e | WASM_OP_F32_TRUNC => 0x8f | WASM_OP_F32_NEAREST => 0x90
  | WASM_OP_F32_SQRT => 0x91 | WASM_OP_F32_ADD => 0x92 | WASM_OP_F32_SUB => 0x93
  | WASM_OP_F32_MUL => 0x94 | WASM_OP_F32_DIV => 0x95 | WASM_OP_F32_MIN => 0x96
  | WASM_OP_F32_MAX => 0x97 | WASM_OP_F32_COPYSIGN => 0x98 | WASM_OP_F64_ABS => 0x99
  | WASM_OP_F64_NEG => 0x9a | WASM_OP_F64_CEIL => 0x9b | WASM_OP_F64_FLOOR => 0x9c
  | WASM_OP_F64_TRUNC => 0x9d | WASM_OP_F64_NEAREST => 0x9e | WASM_OP_F64_SQRT => 0x9f
  | WASM_OP_F64_ADD => 0xa0 | WASM_OP_F64_SUB => 0xa1 | WASM_OP_F64_MUL => 0xa2
  | WASM_OP_F64_DIV => 0xa3 | WASM_OP_F64_MIN => 0xa4 | WASM_OP_F64_MAX => 0xa5
  | WASM_OP_F64_COPYSIGN => 0xa6 | WASM_OP_I32_WRAP_I64 => 0xa7 | WASM_OP_I32_TRUNC_S_F32 => 0xa8
  | WASM_OP_I32_TRUNC_U_F32 => 0xa9 | WASM_OP_I32_TRUNC_S_F64 => 0xaa
  | WASM_OP_I32_TRUNC_U_F64 => 0xab | WASM_OP_I64_EXTEND_S_I32 => 0xac
  | WASM_OP_I64_EXTEND_U_I32 => 0xad | WASM_OP_I64_TRUNC_S_F32 => 0xae
  | WASM_OP_I64_TRUNC_U_F32 => 0xaf | WASM_OP_I64_TRUNC_S_F64 => 0xb0
  | WASM_OP_I64_TRUNC_U_F64 => 0xb1 | WASM_OP_F32_CONVERT_S_I32 => 0xb2
  | WASM_OP_F32_CONVERT_U_I32 => 0xb3 | WASM_OP_F32_CONVERT_S_I64 => 0xb4
  | WASM_OP_F32_CONVERT_U_I64 => 0xb5 | WASM_OP_F32_DEMOTE_F64 => 0xb6
  | WASM_OP_F64_CONVERT_S_I32 => 0xb7 | WASM_OP_F64_CONVERT_U_I32 => 0xb8
  | WASM_OP_F64_CONVERT_S_I64 => 0xb9 | WASM_OP_F64_CONVERT_U_I64 => 0xba
  | WASM_OP_F64_PROMOTE_F32 => 0xbb | WASM_OP_I32_REINTERPRET_F32 => 0xbc
  | WASM_OP_I64_REINTERPRET_F64 => 0xbd | WASM_OP_F32_REINTERPRET_I32 => 0xbe
  | WASM_OP_F64_REINTERPRET_I64 => 0xbf | WASM_OP_I32_EXTEND8_S => 0xc0
  | WASM_OP_I32_EXTEND16_S => 0xc1 | WASM_OP_I64_EXTEND8_S => 0xc2
  | WASM_OP_I64_EXTEND16_S => 0xc3 | WASM_OP_I64_EXTEND32_S => 0xc4 | WASM_OP_DROP_64 => 0xc5
  | WASM_OP_SELECT_64 => 0xc6 | EXT_OP_GET_LOCAL_FAST => 0xc7 | EXT_OP_SET_LOCAL_FAST_I64 => 0xc8
  | EXT_OP_SET_LOCAL_FAST => 0xc9 | EXT_OP_TEE_LOCAL_FAST => 0xca
  | EXT_OP_TEE_LOCAL_FAST_I64 => 0xcb | EXT_OP_COPY_STACK_TOP => 0xcc
  | EXT_OP_COPY_STACK_TOP_I64 => 0xcd | EXT_OP_COPY_STACK_VALUES => 0xce | WASM_OP_IMPDEP => 0xcf
  | WASM_OP_REF_NULL => 0xd0 | WASM_OP_REF_IS_NULL => 0xd1 | WASM_OP_REF_FUNC => 0xd2
  | EXT_OP_BLOCK => 0xd3 | EXT_OP_LOOP => 0xd4 | EXT_OP_IF => 0xd5 | WASM_OP_MISC_PREFIX => 0xfc
  | WASM_OP_SIMD_PREFIX => 0xfd | WASM_OP_ATOMIC_PREFIX => 0xfe
  end.

(** The [switch] over the opcode byte: [None] is its default case. *)
Definition opcode_of (b : Z) : option WASMOpcode :=
  match b with
  | 0x00 => Some WASM_OP_UNREACHABLE | 0x01 => Some WASM_OP_NOP | 0x02 => Some WASM_OP_BLOCK
  | 0x03 => Some WASM_OP_LOOP | 0x04 => Some WASM_OP_IF | 0x05 => Some WASM_OP_ELSE
  | 0x06 => Some WASM_OP_UNUSED_0x06 | 0x07 => Some WASM_OP_UNUSED_0x07
  | 0x08 => Some WASM_OP_UNUSED_0x08 | 0x09 => Some WASM_OP_UNUSED_0x09
  | 0x0a => Some WASM_OP_UNUSED_0x0a | 0x0b => Some WASM_OP_END | 0x0c => Some WASM_OP_BR
  | 0x0d => Some WASM_OP_BR_IF | 0x0e => Some WASM_OP_BR_TABLE | 0x0f => Some WASM_OP_RETURN
  | 0x10 => Some WASM_OP_CALL | 0x11 => Some WASM_OP_CALL_INDIRECT
  | 0x12 => Some WASM_OP_RETURN_CALL | 0x13 => Some WASM_OP_RETURN_CALL_INDIRECT
  | 0x14 => Some WASM_OP_UNUSED_0x14 | 0x15 => Some WASM_OP_UNUSED_0x15
  | 0x16 => Some WASM_OP_UNUSED_0x16 | 0x17 => Some WASM_OP_UNUSED_0x17
  | 0x18 => Some WASM_OP_UNUSED_0x18 | 0x19 => Some WASM_OP_UNUSED_0x19
  | 0x1a => Some WASM_OP_DROP | 0x1b => Some WASM_OP_SELECT | 0x1c => Some WASM_OP_SELECT_T
  | 0x1d => Some WASM_OP_GET_GLOBAL_64 | 0x1e => Some WASM_OP_SET_GLOBAL_64
  | 0x1f => Some WASM_OP_SET_GLOBAL_AUX_STACK | 0x20 => Some WASM_OP_GET_LOCAL
  | 0x21 => Some WASM_OP_SET_LOCAL | 0x22 => Some WASM_OP_TEE_LOCAL
  | 0x23 => Some WASM_OP_GET_GLOBAL | 0x24 => Some WASM_OP_SET_GLOBAL
  | 0x25 => Some WASM_OP_TABLE_GET | 0x26 => Some WASM_OP_TABLE_SET
  | 0x27 => Some WASM_OP_UNUSED_0x27 | 0x28 => Some WASM_OP_I32_LOAD
  | 0x29 => Some WASM_OP_I64_LOAD | 0x2a => Some WASM_OP_F32_LOAD | 0x2b => Some WASM_OP_F64_LOAD
  | 0x2c => Some WASM_OP_I32_LOAD8_S | 0x2d => Some WASM_OP_I32_LOAD8_U
  | 0x2e => Some WASM_OP_I32_LOAD16_S | 0x2f => Some WASM_OP_I32_LOAD16_U
  | 0x30 => Some WASM_OP_I64_LOAD8_S | 0x31 => Some WASM_OP_I64_LOAD8_U
  | 0x32 => Some WASM_OP_I64_LOAD16_S | 0x33 => Some WASM_OP_I64_LOAD16_U
  | 0x34 => Some WASM_OP_I64_LOAD32_S | 0x35 => Some WASM_OP_I64_LOAD32_U
  | 0x36 => Some WASM_OP_I32_STORE | 0x37 => Some WASM_OP_I64_STORE
  | 0x38 => Some WASM_OP_F32_STORE | 0x39 => Some WASM_OP_F64_STORE
  | 0x3a => Some WASM_OP_I32_STORE8 | 0x3b => Some WASM_OP_I32_STORE16
  | 0x3c => Some WASM_OP_I64_STORE8 | 0x3d => Some WASM_OP_I64_STORE16
  | 0x3e => Some WASM_OP_I64_STORE32 | 0x3f => Some WASM_OP_MEMORY_SIZE
  | 0x40 => Some WASM_OP_MEMORY_GROW | 0x41 => Some WASM_OP_I32_CONST
  | 0x42 => Some WASM_OP_I64_CONST | 0x43 => Some WASM_OP_F32_CONST
  | 0x44 => Some WASM_OP_F64_CONST | 0x45 => Some WASM_OP_I32_EQZ | 0x46 => Some WASM_OP_I32_EQ
  | 0x47 => Some WASM_OP_I32_NE | 0x48 => Some WASM_OP_I32_LT_S | 0x49 => Some WASM_OP_I32_LT_U
  | 0x4a => Some WASM_OP_I32_GT_S | 0x4b => Some WASM_OP_I32_GT_U | 0x4c => Some WASM_OP_I32_LE_S
  | 0x4d => Some WASM_OP_I32_LE_U | 0x4e => Some WASM_OP_I32_GE_S | 0x4f => Some WASM_OP_I32_GE_U
  | 0x50 => Some WASM_OP_I64_EQZ | 0x51 => Some WASM_OP_I64_EQ | 0x52 => Some WASM_OP_I64_NE
  | 0x53 => Some WASM_OP_I64_LT_S | 0x54 => Some WASM_OP_I64_LT_U | 0x55 => Some WASM_OP_I64_GT_S
  | 0x56 => Some WASM_OP_I64_GT_U | 0x57 => Some WASM_OP_I64_LE_S | 0x58 => Some WASM_OP_I64_LE_U
  | 0x59 => Some WASM_OP_I64_GE_S | 0x5a => Some WASM_OP_I64_GE_U | 0x5b => Some WASM_OP_F32_EQ
  | 0x5c => Some WASM_OP_F32_NE | 0x5d => Some WASM_OP_F32_LT | 0x5e => Some WASM_OP_F32_GT
  | 0x5f => Some WASM_OP_F32_LE | 0x60 => Some WASM_OP_F32_GE | 0x61 => Some WASM_OP_F64_EQ
  | 0x62 => Some WASM_OP_F64_NE | 0x63 => Some WASM_OP_F64_LT | 0x64 => Some WASM_OP_F64_GT
  | 0x65 => Some WASM_OP_F64_LE | 0x66 => Some WASM_OP_F64_GE | 0x67 => Some WASM_OP_I32_CLZ
  | 0x68 => Some WASM_OP_I32_CTZ | 0x69 => Some WASM_OP_I32_POPCNT | 0x6a => Some WASM_OP_I32_ADD
  | 0x6b => Some WASM_OP_I32_SUB | 0x6c => Some WASM_OP_I32_MUL | 0x6d => Some WASM_OP_I32_DIV_S
  | 0x6e => Some WASM_OP_I32_DIV_U | 0x6f => Some WASM_OP_I32_REM_S
  | 0x70 => Some WASM_OP_I32_REM_U | 0x71 => Some WASM_OP_I32_AND | 0x72 => Some WASM_OP_I32_OR
  | 0x73 => Some WASM_OP_I32_XOR | 0x74 => Some WASM_OP_I32_SHL | 0x75 => Some WASM_OP_I32_SHR_S
  | 0x76 => Some WASM_OP_I32_SHR_U | 0x77 => Some WASM_OP_I32_ROTL
  | 0x78 => Some WASM_OP_I32_ROTR | 0x79 => Some WASM_OP_I64_CLZ | 0x7a => Some WASM_OP_I64_CTZ
  | 0x7b => Some WASM_OP_I64_POPCNT | 0x7c => Some WASM_OP_I64_ADD | 0x7d => Some WASM_OP_I64_SUB
  | 0x7e => Some WASM_OP_I64_MUL | 0x7f => Some WASM_OP_I64_DIV_S
  | 0x80 => Some WASM_OP_I64_DIV_U | 0x81 => Some WASM_OP_I64_REM_S
  | 0x82 => Some WASM_OP_I64_REM_U | 0x83 => Some WASM_OP_I64_AND | 0x84 => Some WASM_OP_I64_OR
  | 0x85 => Some WASM_OP_I64_XOR | 0x86 => Some WASM_OP_I64_SHL | 0x87 => Some WASM_OP_I64_SHR_S
  | 0x88 => Some WASM_OP_I64_SHR_U | 0x89 => Some WASM_OP_I64_ROTL
  | 0x8a => Some WASM_OP_I64_ROTR | 0x8b => Some WASM_OP_F32_ABS | 0x8c => Some WASM_OP_F32_NEG
  | 0x8d => Some WASM_OP_F32_CEIL | 0x8e => Some WASM_OP_F32_FLOOR
  | 0x8f => Some WASM_OP_F32_TRUNC | 0x90 => Some WASM_OP_F32_NEAREST
  | 0x91 => Some WASM_OP_F32_SQRT | 0x92 => Some WASM_OP_F32_ADD | 0x93 => Some WASM_OP_F32_SUB
  | 0x94 => Some WASM_OP_F32_MUL | 0x95 => Some WASM_OP_F32_DIV | 0x96 => Some WASM_OP_F32_MIN
  | 0x97 => Some WASM_OP_F32_MAX | 0x98 => Some WASM_OP_F32_COPYSIGN
  | 0x99 => Some WASM_OP_F64_ABS | 0x9a => Some WASM_OP_F64_NEG | 0x9b => Some WASM_OP_F64_CEIL
  | 0x9c => Some WASM_OP_F64_FLOOR | 0x9d => Some WASM_OP_F64_TRUNC
  | 0x9e => Some WASM_OP_F64_NEAREST | 0x9f => Some WASM_OP_F64_SQRT
  | 0xa0 => Some WASM_OP_F64_ADD | 0xa1 => Some WASM_OP_F64_SUB | 0xa2 => Some WASM_OP_F64_MUL
  | 0xa3 => Some WASM_OP_F64_DIV | 0xa4 => Some WASM_OP_F64_MIN | 0xa5 => Some WASM_OP_F64_MAX
  | 0xa6 => Some WASM_OP_F64_COPYSIGN | 0xa7 => Some WASM_OP_I32_WRAP_I64
  | 0xa8 => Some WASM_OP_I32_TRUNC_S_F32 | 0xa9 => Some WASM_OP_I32_TRUNC_U_F32
  | 0xaa => Some WASM_OP_I32_TRUNC_S_F64 | 0xab => Some WASM_OP_I32_TRUNC_U_F64
  | 0xac => Some WASM_OP_I64_EXTEND_S_I32 | 0xad => Some WASM_OP_I64_EXTEND_U_I32
  | 0xae => Some WASM_OP_I64_TRUNC_S_F32 | 0xaf => Some WASM_OP_I64_TRUNC_U_F32
  | 0xb0 => Some WASM_OP_I64_TRUNC_S_F64 | 0xb1 => Some WASM_OP_I64_TRUNC_U_F64
  | 0xb2 => Some WASM_OP_F32_CONVERT_S_I32 | 0xb3 => Some WASM_OP_F32_CONVERT_U_I32
  | 0xb4 => Some WASM_OP_F32_CONVERT_S_I64 | 0xb5 => Some WASM_OP_F32_CONVERT_U_I64
  | 0xb6 => Some WASM_OP_F32_DEMOTE_F64 | 0xb7 => Some WASM_OP_F64_CONVERT_S_I32
  | 0xb8 => Some WASM_OP_F64_CONVERT_U_I32 | 0xb9 => Some WASM_OP_F64_CONVERT_S_I64
  | 0xba => Some WASM_OP_F64_CONVERT_U_I64 | 0xbb => Some WASM_OP_F64_PROMOTE_F32
  | 0xbc => Some WASM_OP_I32_REINTERPRET_F32 | 0xbd => Some WASM_OP_I64_REINTERPRET_F64
  | 0xbe => Some WASM_OP_F32_REINTERPRET_I32 | 0xbf => Some WASM_OP_F64_REINTERPRET_I64
  | 0xc0 => Some WASM_OP_I32_EXTEND8_S | 0xc1 => Some WASM_OP_I32_EXTEND16_S
  | 0xc2 => Some WASM_OP_I64_EXTEND8_S | 0xc3 => Some WASM_OP_I64_EXTEND16_S
  | 0xc4 => Some WASM_OP_I64_EXTEND32_S | 0xc5 => Some WASM_OP_DROP_64
  | 0xc6 => Some WASM_OP_SELECT_64 | 0xc7 => Some EXT_OP_GET_LOCAL_FAST
  | 0xc8 => Some EXT_OP_SET_LOCAL_FAST_I64 | 0xc9 => Some EXT_OP_SET_LOCAL_FAST
  | 0xca => Some EXT_OP_TEE_LOCAL_FAST | 0xcb => Some EXT_OP_TEE_LOCAL_FAST_I64
  | 0xcc => Some EXT_OP_COPY_STACK_TOP | 0xcd => Some EXT_OP_COPY_STACK_TOP_I64
  | 0xce => Some EXT_OP_COPY_STACK_VALUES | 0xcf => Some WASM_OP_IMPDEP
  | 0xd0 => Some WASM_OP_REF_NULL | 0xd1 => Some WASM_OP_REF_IS_NULL
  | 0xd2 => Some WASM_OP_REF_FUNC | 0xd3 => Some EXT_OP_BLOCK | 0xd4 => Some EXT_OP_LOOP
  | 0xd5 => Some EXT_OP_IF | 0xfc => Some WASM_OP_MISC_PREFIX | 0xfd => Some WASM_OP_SIMD_PREFIX
  | 0xfe => Some WASM_OP_ATOMIC_PREFIX
  | _ => None
  end.

Definition misc_code (op : WASMMiscEXTOpcode) : Z :=
  match op with
  | WASM_OP_I32_TRUNC_SAT_S_F32 => 0x00 | WASM_OP_I32_TRUNC_SAT_U_F32 => 0x01
  | WASM_OP_I32_TRUNC_SAT_S_F64 => 0x02 | WASM_OP_I32_TRUNC_SAT_U_F64 => 0x03
  | WASM_OP_I64_TRUNC_SAT_S_F32 => 0x04 | WASM_OP_I64_TRUNC_SAT_U_F32 => 0x05
  | WASM_OP_I64_TRUNC_SAT_S_F64 => 0x06 | WASM_OP_I64_TRUNC_SAT_U_F64 => 0x07
  | WASM_OP_MEMORY_INIT => 0x08 | WASM_OP_DATA_DROP => 0x09 | WASM_OP_MEMORY_COPY => 0x0a
  | WASM_OP_MEMORY_FILL => 0x0b | WASM_OP_TABLE_INIT => 0x0c | WASM_OP_ELEM_DROP => 0x0d
  | WASM_OP_TABLE_COPY => 0x0e | WASM_OP_TABLE_GROW => 0x0f | WASM_OP_TABLE_SIZE => 0x10
  | WASM_OP_TABLE_FILL => 0x11
  end.

Definition misc_of (b : Z) : option WASMMiscEXTOpcode :=
  match b with
  | 0x00 => Some WASM_OP_I32_TRUNC_SAT_S_F32 | 0x01 => Some WASM_OP_I32_TRUNC_SAT_U_F32
  | 0x02 => Some WASM_OP_I32_TRUNC_SAT_S_F64 | 0x03 => Some WASM_OP_I32_TRUNC_SAT_U_F64
  | 0x04 => Some WASM_OP_I64_TRUNC_SAT_S_F32 | 0x05 => Some WASM_OP_I64_TRUNC_SAT_U_F32
  | 0x06 => Some WASM_OP_I64_TRUNC_SAT_S_F64 | 0x07 => Some WASM_OP_I64_TRUNC_SAT_U_F64
  | 0x08 => Some WASM_OP_MEMORY_INIT | 0x09 => Some WASM_OP_DATA_DROP
  | 0x0a => Some WASM_OP_MEMORY_COPY | 0x0b => Some WASM_OP_MEMORY_FILL
  | 0x0c => Some WASM_OP_TABLE_INIT | 0x0d => Some WASM_OP_ELEM_DROP
  | 0x0e => Some WASM_OP_TABLE_COPY | 0x0f => Some WASM_OP_TABLE_GROW
  | 0x10 => Some WASM_OP_TABLE_SIZE | 0x11 => Some WASM_OP_TABLE_FILL
  | _ => None
  end.

Definition VALUE_TYPE_I32 : Z := 0x7F.
Definition VALUE_TYPE_I64 : Z := 0x7E.
Definition VALUE_TYPE_F32 : Z := 0x7D.
Definition VALUE_TYPE_F64 : Z := 0x7C.
Definition VALUE_TYPE_VOID : Z := 0x40.

Definition LABEL_TYPE_BLOCK : Z := 0.
Definition LABEL_TYPE_LOOP : Z := 1.
Definition LABEL_TYPE_IF : Z := 2.
Definition LABEL_TYPE_FUNCTION : Z := 3.

(** [bh_assert] of an unknown type is switched off in a release build. *)
Definition wasm_value_type_cell_num (value_type : Z) : Z :=
  if value_type =? VALUE_TYPE_VOID then 0
  else if (value_type =? VALUE_TYPE_I32) || (value_type =? VALUE_TYPE_F32) then 1
  else if (value_type =? VALUE_TYPE_I64) || (value_type =? VALUE_TYPE_F64) then 2
  else 0.

Lemma opcode_of_code op : opcode_of (opcode_code op) = Some op.
Proof. by destruct op. Qed.

Lemma opcode_code_range op : 0 <= opcode_code op < 256.
Proof. destruct op; cbn; lia. Qed.

#[export] Instance WASMOpcode_eq_dec : EqDecision WASMOpcode.
Proof.
  intros a b. destruct (Z.eq_dec (opcode_code a) (opcode_code b)) as [E|E]; [left|right].
  - apply (f_equal opcode_of) in E. rewrite !opcode_of_code in E. by simplify_eq.
  - by intros ->.
Defined.
