(* ===== verification/Numeric.v ===== *)
(** The integer helpers of the interpreter (wasm_interp_classic.c): rotations,
    leading and trailing zeros, population count, sign extension, each against a
    reference definition on integers. *)
From stdpp Require Import base list numbers.
From Stdlib Require Import ZArith Lia.
From S2P Require Import Prelude.

(** * Rotations *)

Definition rotl32 (n c : Z) : Z :=
  let mask := 31 in
  let c := Z.land (c mod 32) mask in
  Z.lor (uint32 (Z.shiftl n c)) (Z.shiftr n (Z.land (uint32 (0 - c)) mask)).

Definition rotr32 (n c : Z) : Z :=
  let mask := 31 in
  let c := Z.land (c mod 32) mask in
  Z.lor (Z.shiftr n c) (uint32 (Z.shiftl n (Z.land (uint32 (0 - c)) mask))).

Definition rotl64 (n c : Z) : Z :=
  let mask := 63 in
  let c := Z.land (c mod 64) mask in
  Z.lor (uint64 (Z.shiftl n c)) (Z.shiftr n (Z.land (uint64 (0 - c)) mask)).

Definition rotr64 (n c : Z) : Z :=
  let mask := 63 in
  let c := Z.land (c mod 64) mask in
  Z.lor (Z.shiftr n c) (uint64 (Z.shiftl n (Z.land (uint64 (0 - c)) mask))).

(** * Bit counts

    The loops run on fuel; a word of [w] bits needs [w + 1] turns at most. *)

Fixpoint clz_loop (fuel : nat) (w top num type : Z) : option Z :=
  match fuel with
  | O => None
  | S fuel =>
      if Z.land type top =? 0 then clz_loop fuel w top (num + 1) (wrap w (Z.shiftl type 1))
      else Some num
  end.

Definition clz32 (type : Z) : option Z :=
  if type =? 0 then Some 32 else clz_loop 32 32 0x80000000 0 type.
Definition clz64 (type : Z) : option Z :=
  if type =? 0 then Some 64 else clz_loop 64 64 0x8000000000000000 0 type.

Fixpoint ctz_loop (fuel : nat) (num type : Z) : option Z :=
  match fuel with
  | O => None
  | S fuel =>
      if Z.land type 1 =? 0 then ctz_loop fuel (num + 1) (Z.shiftr type 1) else Some num
  end.

Definition ctz32 (type : Z) : option Z := if type =? 0 then Some 32 else ctz_loop 32 0 type.
Definition ctz64 (type : Z) : option Z := if type =? 0 then Some 64 else ctz_loop 64 0 type.

Fixpoint popcount_loop (fuel : nat) (ret u : Z) : option Z :=
  match fuel with
  | O => None
  | S fuel => if u =? 0 then Some ret else popcount_loop fuel (ret + 1) (Z.land u (u - 1))
  end.

Definition popcount32 (u : Z) : option Z := popcount_loop 33 0 u.
Definition popcount64 (u : Z) : option Z := popcount_loop 65 0 u.

(** * Sign extension

    The arguments are the signed values of [int8], [int16], [int32]. *)

Definition sign_ext_8_32 (val : Z) : Z :=
  if negb (Z.land val 0x80 =? 0) then Z.lor val (int32 0xffffff00) else val.
Definition sign_ext_16_32 (val : Z) : Z :=
  if negb (Z.land val 0x8000 =? 0) then Z.lor val (int32 0xffff0000) else val.
Definition sign_ext_8_64 (val : Z) : Z :=
  if negb (Z.land val 0x80 =? 0) then Z.lor val (swrap 64 0xffffffffffffff00) else val.
Definition sign_ext_16_64 (val : Z) : Z :=
  if negb (Z.land val 0x8000 =? 0) then Z.lor val (swrap 64 0xffffffffffff0000) else val.
Definition sign_ext_32_64 (val : Z) : Z :=
  if negb (Z.land val (int32 0x80000000) =? 0) then Z.lor val (swrap 64 0xffffffff00000000) else val.

(** * Reference definitions *)

(** The rotation of a word of [w] bits to the left by [k]. *)
Definition rotate (w n k : Z) : Z := n * 2 ^ k mod 2 ^ w + n / 2 ^ (w - k).

(** The number of ones among the bits below [w]. *)
Fixpoint ones_below (w : nat) (n : Z) : Z :=
  match w with
  | O => 0
  | S w => Z.b2z (Z.odd n) + ones_below w (n / 2)
  end.

(** * Bits *)

Lemma land_pow2 x k : 0 <= k → Z.land x (2 ^ k) = if Z.testbit x k then 2 ^ k else 0.
Proof.
  intros Hk. apply Z.bits_inj'. intros i Hi. rewrite Z.land_spec, Z.pow2_bits_eqb by lia.
  destruct (Z.eqb_spec k i) as [<-|Hne].
  - destruct (Z.testbit x k); [|by rewrite Z.bits_0].
    rewrite Z.pow2_bits_eqb by lia. by rewrite Z.eqb_refl.
  - rewrite andb_false_r. destruct (Z.testbit x k); [|by rewrite Z.bits_0].
    rewrite Z.pow2_bits_eqb by lia. by rewrite (proj2 (Z.eqb_neq _ _)).
Qed.

Lemma lor_low a b k : 0 <= k → a mod 2 ^ k = 0 → 0 <= b < 2 ^ k → Z.lor a b = a + b.
Proof.
  intros Hk Ha Hb. rewrite <- Z.lxor_lor.
  1: symmetry; apply Z.add_nocarry_lxor.
  all: apply Z.bits_inj'; intros i Hi; rewrite Z.land_spec, Z.bits_0.
  all: destruct (Z.ltb_spec i k).
  2,4: rewrite <- (Z.mod_small b (2 ^ k)), Z.mod_pow2_bits_high by lia; apply andb_false_r.
  all: rewrite <- (Z.mod_pow2_bits_low a k i), Ha, Z.bits_0 by lia; done.
Qed.

Lemma testbit_top x w : 0 < w → 0 <= x < 2 ^ w → Z.testbit x (w - 1) = (2 ^ (w - 1) <=? x).
Proof.
  intros Hw Hx. rewrite Z.testbit_eqb by lia.
  assert (2 ^ w = 2 * 2 ^ (w - 1)) as E by (rewrite <- Z.pow_succ_r by lia; f_equal; lia).
  destruct (Z.leb_spec (2 ^ (w - 1)) x).
  - assert (x / 2 ^ (w - 1) = 1) as -> by (symmetry; apply (Z.div_unique _ _ _ (x - 2 ^ (w - 1))); lia).
    done.
  - by rewrite Z.div_small by lia.
Qed.

(** ** Loops *)

Lemma clz_loop_ok w x : ∀ fuel num,
  0 < w → 0 < x < 2 ^ w → w - 1 - Z.log2 x < Z.of_nat fuel →
  clz_loop fuel w (2 ^ (w - 1)) num x = Some (num + (w - 1 - Z.log2 x)).
Proof.
  intros fuel. revert x. induction fuel as [|fuel IH]; intros x num Hw Hx Hf.
  { assert (Z.log2 x < w) by (apply Z.log2_lt_pow2; lia). lia. }
  cbn [clz_loop]. rewrite land_pow2, testbit_top by lia.
  assert (2 ^ w = 2 * 2 ^ (w - 1)) as E by (rewrite <- Z.pow_succ_r by lia; f_equal; lia).
  destruct (Z.leb_spec (2 ^ (w - 1)) x).
  - rewrite (proj2 (Z.eqb_neq _ _)) by lia. f_equal.
    assert (Z.log2 x = w - 1) as -> by (apply Z.log2_unique; [lia|replace (Z.succ (w - 1)) with w by lia; lia]).
    lia.
  - rewrite Z.eqb_refl. rewrite Z.shiftl_mul_pow2 by lia. change (2 ^ 1) with 2.
    assert (Z.log2 (x * 2) = Z.succ (Z.log2 x)) as El by (rewrite Z.mul_comm; apply Z.log2_double; lia).
    rewrite (wrap_small w (x * 2)) by lia. rewrite IH by lia. f_equal. lia.
Qed.

Lemma ctz_loop_ok : ∀ fuel num x k m,
  0 <= k < Z.of_nat fuel → x = (2 * m + 1) * 2 ^ k → ctz_loop fuel num x = Some (num + k).
Proof.
  induction fuel as [|fuel IH]; intros num x k m Hk ->; [lia|]. cbn [ctz_loop].
  change 1 with (Z.ones 1) at 2. rewrite Z.land_ones by lia. change (2 ^ 1) with 2.
  destruct (Z.eq_dec k 0) as [->|Hk0].
  - rewrite Z.mul_1_r, (proj2 (Z.eqb_neq _ _)) by lia. f_equal. lia.
  - assert (2 ^ k = 2 * 2 ^ (k - 1)) as E by (rewrite <- Z.pow_succ_r by lia; f_equal; lia).
    assert ((2 * m + 1) * 2 ^ k = (2 * m + 1) * 2 ^ (k - 1) * 2) as -> by (rewrite E; ring).
    rewrite Z.mod_mul, Z.eqb_refl by lia. rewrite Z.shiftr_div_pow2 by lia.
    change (2 ^ 1) with 2. rewrite Z.div_mul by lia. rewrite (IH _ _ (k - 1) m) by lia.
    f_equal. lia.
Qed.

(** [u & (u - 1)] clears the lowest one. *)
Lemma clear_lowest w : ∀ u, 0 < u < 2 ^ Z.of_nat w →
  ones_below w (Z.land u (u - 1)) = ones_below w u - 1 ∧ 0 <= Z.land u (u - 1) < u.
Proof.
  induction w as [|w IH]; intros u Hu; [simpl in Hu; lia|].
  rewrite Nat2Z.inj_succ, Z.pow_succ_r in Hu by lia. cbn [ones_below].
  pose proof (Z.div_mod u 2 ltac:(lia)) as Hd. set (q := u / 2) in *.
  assert (Z.odd u = (u mod 2 =? 1)) as Ho.
  { rewrite Zmod_odd. by destruct (Z.odd u). }
  destruct (Z.eq_dec (u mod 2) 0) as [E|E].
  - assert (u = 2 * q) as Eu by lia. clearbody q. subst u.
    assert (Z.land (2 * q) (2 * q - 1) = 2 * Z.land q (q - 1)) as ->.
    { replace (2 * q - 1) with (2 * (q - 1) + 1) by lia. apply Z.bits_inj'. intros i Hi.
      rewrite Z.land_spec. destruct (Z.eq_dec i 0) as [->|Hi0].
      - by rewrite !Z.testbit_even_0.
      - replace i with (Z.succ (i - 1)) by lia.
        by rewrite Z.testbit_odd_succ, !Z.testbit_even_succ, Z.land_spec by lia. }
    destruct (IH q) as [IH1 IH2]; [lia|].
    rewrite !(Z.mul_comm 2), !Z.div_mul, !Z.odd_mul, !andb_false_r by lia. simpl Z.b2z. lia.
  - assert (u = 2 * q + 1) as Eu by (pose proof (Z.mod_pos_bound u 2); lia). clearbody q. subst u.
    assert (Z.land (2 * q + 1) (2 * q + 1 - 1) = 2 * q) as ->.
    { replace (2 * q + 1 - 1) with (2 * q) by lia. apply Z.bits_inj'. intros i Hi.
      rewrite Z.land_spec. destruct (Z.eq_dec i 0) as [->|Hi0].
      - by rewrite Z.testbit_even_0, andb_false_r.
      - replace i with (Z.succ (i - 1)) by lia.
        by rewrite Z.testbit_odd_succ, Z.testbit_even_succ, andb_diag by lia. }
    assert (2 * q / 2 = q) as -> by (symmetry; apply (Z.div_unique _ _ _ 0); lia).
    rewrite Z.odd_add, Z.odd_mul. simpl. lia.
Qed.

Lemma ones_below_bound w : ∀ u, 0 <= ones_below w u <= Z.of_nat w.
Proof.
  induction w as [|w IH]; intros u; cbn [ones_below]; [lia|]. specialize (IH (u / 2)).
  destruct (Z.odd u); simpl Z.b2z; lia.
Qed.

Lemma ones_below_0 w : ones_below w 0 = 0.
Proof. induction w as [|w IH]; [done|]. cbn [ones_below]. by rewrite Z.div_0_l, IH by lia. Qed.

Lemma ones_below_pos w : ∀ u, 0 < u < 2 ^ Z.of_nat w → 0 < ones_below w u.
Proof.
  induction w as [|w IH]; intros u Hu; [simpl in Hu; lia|].
  rewrite Nat2Z.inj_succ, Z.pow_succ_r in Hu by lia. cbn [ones_below].
  pose proof (ones_below_bound w (u / 2)). pose proof (Z.div_mod u 2 ltac:(lia)).
  pose proof (Zmod_odd u). destruct (Z.odd u) eqn:E; simpl Z.b2z; [lia|].
  specialize (IH (u / 2)). lia.
Qed.

Lemma popcount_loop_ok w : ∀ fuel ret u,
  0 <= u < 2 ^ Z.of_nat w → ones_below w u < Z.of_nat fuel →
  popcount_loop fuel ret u = Some (ret + ones_below w u).
Proof.
  induction fuel as [|fuel IH]; intros ret u Hu Hf; [pose proof (ones_below_bound w u); lia|].
  cbn [popcount_loop]. destruct (Z.eqb_spec u 0) as [->|Hn].
  - rewrite ones_below_0. f_equal. lia.
  - destruct (clear_lowest w u) as [E ?]; [lia|]. rewrite IH by lia. f_equal. lia.
Qed.

(** ** Rotations *)

Lemma rotate_lor w n k :
  0 < w → 0 <= n < 2 ^ w → 0 <= k < w →
  Z.lor (wrap w (Z.shiftl n k)) (Z.shiftr n ((- k) mod w)) = rotate w n k.
Proof.
  intros Hw Hn Hk. unfold rotate, wrap. rewrite Z.shiftl_mul_pow2, Z.shiftr_div_pow2 by lia.
  destruct (Z.eq_dec k 0) as [->|Hk0].
  - rewrite Z.mod_0_l, Z.mul_1_r, Z.div_1_r, Z.sub_0_r by lia.
    rewrite Z.mod_small, Z.div_small, Z.lor_diag by lia. lia.
  - assert ((- k) mod w = w - k) as -> by (symmetry; apply (Z.mod_unique _ _ (-1)); lia).
    apply (lor_low _ _ k); [lia| |].
    + assert (2 ^ w = 2 ^ (w - k) * 2 ^ k) as E by (rewrite <- Z.pow_add_r by lia; f_equal; lia).
      rewrite Z.mod_mod_divide by (rewrite E; apply Z.divide_factor_r). apply Z.mod_mul. lia.
    + assert (2 ^ w = 2 ^ (w - k) * 2 ^ k) as E by (rewrite <- Z.pow_add_r by lia; f_equal; lia).
      assert (0 < 2 ^ (w - k)) by (apply Z.pow_pos_nonneg; lia).
      split; [apply Z.div_pos; lia|apply Z.div_lt_upper_bound; lia].
Qed.

Lemma rotate_lor_r w n k :
  0 < w → 0 <= n < 2 ^ w → 0 <= k < w →
  Z.lor (Z.shiftr n k) (wrap w (Z.shiftl n ((- k) mod w))) = rotate w n ((- k) mod w).
Proof.
  intros Hw Hn Hk. rewrite <- rotate_lor by (try apply Z.mod_pos_bound; lia).
  rewrite Z.lor_comm. do 2 f_equal. symmetry.
  assert (- ((- k) mod w) = k + (- k / w) * w) as -> by (rewrite Z.mod_eq by lia; ring_simplify; lia).
  rewrite Z.mod_add by lia. apply Z.mod_small. lia.
Qed.

Lemma masked j k c : 0 <= j → k = 2 ^ j - 1 → Z.land c k = c mod 2 ^ j.
Proof.
  intros Hj ->. replace (2 ^ j - 1) with (Z.ones j) by (rewrite Z.ones_equiv; lia).
  by rewrite Z.land_ones by lia.
Qed.

Lemma wrap_mod w j c : 0 <= j <= w → wrap w c mod 2 ^ j = c mod 2 ^ j.
Proof.
  intros Hj. unfold wrap. rewrite Z.mod_mod_divide; [done|].
  exists (2 ^ (w - j)). rewrite <- Z.pow_add_r by lia. f_equal. lia.
Qed.

Lemma rot_counts w j k c : 0 <= j <= w → k = 2 ^ j - 1 →
  Z.land (c mod 2 ^ j) k = c mod 2 ^ j
  ∧ Z.land (wrap w (0 - c mod 2 ^ j)) k = (- (c mod 2 ^ j)) mod 2 ^ j.
Proof.
  intros Hj ->. rewrite !(masked j) by lia. split; [by rewrite Zmod_mod|]. by rewrite wrap_mod.
Qed.

(** * Reference semantics of the integer instructions

    The operators of the WebAssembly specification on words of [w] bits; [None]
    is a trap. *)

Inductive binop := Add | Sub | Mul | DivS | DivU | RemS | RemU | And | Or | Xor
  | Shl | ShrS | ShrU | Rotl | Rotr.
Inductive relop := Eq | Ne | LtS | LtU | GtS | GtU | LeS | LeU | GeS | GeU.
Inductive unop := Clz | Ctz | Popcnt.

Definition trailing (n : Z) : Z :=
  match n with
  | Zpos p => (fix go p := match p with xO p => 1 + go p | _ => 0 end) p
  | _ => 0
  end.

Definition spec_unop (w : nat) (op : unop) (a : Z) : Z :=
  match op with
  | Clz => if a =? 0 then Z.of_nat w else Z.of_nat w - 1 - Z.log2 a
  | Ctz => if a =? 0 then Z.of_nat w else trailing a
  | Popcnt => ones_below w a
  end.

Definition spec_binop (w : Z) (op : binop) (a b : Z) : option Z :=
  let sa := swrap w a in
  let sb := swrap w b in
  match op with
  | Add => Some ((a + b) mod 2 ^ w)
  | Sub => Some ((a - b) mod 2 ^ w)
  | Mul => Some ((a * b) mod 2 ^ w)
  | DivS => if b =? 0 then None
            else if Z.quot sa sb =? 2 ^ (w - 1) then None
            else Some (Z.quot sa sb mod 2 ^ w)
  | DivU => if b =? 0 then None else Some (a / b)
  | RemS => if b =? 0 then None else Some (Z.rem sa sb mod 2 ^ w)
  | RemU => if b =? 0 then None else Some (a mod b)
  | And => Some (Z.land a b)
  | Or => Some (Z.lor a b)
  | Xor => Some (Z.lxor a b)
  | Shl => Some (a * 2 ^ (b mod w) mod 2 ^ w)
  | ShrS => Some (sa / 2 ^ (b mod w) mod 2 ^ w)
  | ShrU => Some (a / 2 ^ (b mod w))
  | Rotl => Some (rotate w a (b mod w))
  | Rotr => Some (rotate w a ((- (b mod w)) mod w))
  end.

Definition spec_relop (w : Z) (op : relop) (a b : Z) : bool :=
  let sa := swrap w a in
  let sb := swrap w b in
  match op with
  | Eq => a =? b | Ne => negb (a =? b)
  | LtS => sa <? sb | LtU => a <? b | GtS => sb <? sa | GtU => b <? a
  | LeS => sa <=? sb | LeU => a <=? b | GeS => sb <=? sa | GeU => b <=? a
  end.

Lemma trailing_spec n : 0 < n → ∃ m, n = (2 * m + 1) * 2 ^ trailing n ∧ 0 <= trailing n.
Proof.
  destruct n as [|p|p]; try lia. intros _. induction p as [p IH|p IH|].
  - exists (Z.pos p). change (trailing (Z.pos p~1)) with 0. rewrite Z.pow_0_r. lia.
  - destruct IH as (m&E&Ht). exists m.
    assert (trailing (Z.pos p~0) = 1 + trailing (Z.pos p)) as -> by done.
    rewrite Z.pow_add_r by lia. split; [|lia]. rewrite Pos2Z.inj_xO, E at 1. ring.
  - exists 0. done.
Qed.

(** ** The helpers compute them *)

Lemma clz32_ok x : 0 <= x < 2 ^ 32 → clz32 x = Some (spec_unop 32 Clz x).
Proof.
  intros Hx. unfold clz32, spec_unop. destruct (Z.eqb_spec x 0) as [->|Hn]; [done|].
  apply (clz_loop_ok 32); [lia|lia|]. pose proof (Z.log2_nonneg x). lia.
Qed.

Lemma clz64_ok x : 0 <= x < 2 ^ 64 → clz64 x = Some (spec_unop 64 Clz x).
Proof.
  intros Hx. unfold clz64, spec_unop. destruct (Z.eqb_spec x 0) as [->|Hn]; [done|].
  apply (clz_loop_ok 64); [lia|lia|]. pose proof (Z.log2_nonneg x). lia.
Qed.

Lemma trailing_lt w x : 0 < x < 2 ^ w → trailing x < w.
Proof.
  intros Hx. destruct (trailing_spec x) as (m&E&Ht); [lia|].
  assert (0 < 2 ^ trailing x) by (apply Z.pow_pos_nonneg; lia).
  assert (0 <= w).
  { destruct (Z.ltb_spec w 0); [|done]. rewrite Z.pow_neg_r in Hx by lia. lia. }
  apply (Z.pow_lt_mono_r_iff 2); [lia..|]. assert (0 < 2 * m + 1) by nia. nia.
Qed.

Lemma ctz32_ok x : 0 <= x < 2 ^ 32 → ctz32 x = Some (spec_unop 32 Ctz x).
Proof.
  intros Hx. unfold ctz32, spec_unop. destruct (Z.eqb_spec x 0) as [->|Hn]; [done|].
  destruct (trailing_spec x) as (m&E&Ht); [lia|]. pose proof (trailing_lt 32 x ltac:(lia)).
  by apply (ctz_loop_ok 32 0 x (trailing x) m).
Qed.

Lemma ctz64_ok x : 0 <= x < 2 ^ 64 → ctz64 x = Some (spec_unop 64 Ctz x).
Proof.
  intros Hx. unfold ctz64, spec_unop. destruct (Z.eqb_spec x 0) as [->|Hn]; [done|].
  destruct (trailing_spec x) as (m&E&Ht); [lia|]. pose proof (trailing_lt 64 x ltac:(lia)).
  by apply (ctz_loop_ok 64 0 x (trailing x) m).
Qed.

Lemma popcount32_ok x : 0 <= x < 2 ^ 32 → popcount32 x = Some (spec_unop 32 Popcnt x).
Proof.
  intros Hx. apply (popcount_loop_ok 32); [done|]. pose proof (ones_below_bound 32 x). lia.
Qed.

Lemma popcount64_ok x : 0 <= x < 2 ^ 64 → popcount64 x = Some (spec_unop 64 Popcnt x).
Proof.
  intros Hx. apply (popcount_loop_ok 64); [done|]. pose proof (ones_below_bound 64 x). lia.
Qed.

Lemma rotl32_ok n c : 0 <= n < 2 ^ 32 → Some (rotl32 n c) = spec_binop 32 Rotl n c.
Proof.
  intros Hn. unfold rotl32, spec_binop. destruct (rot_counts 32 5 31 c) as [E1 E2]; [lia|done|].
  change (2 ^ 5) with 32 in *. unfold uint32. cbv zeta. rewrite E1, E2. f_equal.
  apply rotate_lor; [lia|done|]. apply Z.mod_pos_bound. lia.
Qed.

Lemma rotr32_ok n c : 0 <= n < 2 ^ 32 → Some (rotr32 n c) = spec_binop 32 Rotr n c.
Proof.
  intros Hn. unfold rotr32, spec_binop. destruct (rot_counts 32 5 31 c) as [E1 E2]; [lia|done|].
  change (2 ^ 5) with 32 in *. unfold uint32. cbv zeta. rewrite E1, E2. f_equal.
  apply rotate_lor_r; [lia|done|]. apply Z.mod_pos_bound. lia.
Qed.

Lemma rotl64_ok n c : 0 <= n < 2 ^ 64 → Some (rotl64 n c) = spec_binop 64 Rotl n c.
Proof.
  intros Hn. unfold rotl64, spec_binop. destruct (rot_counts 64 6 63 c) as [E1 E2]; [lia|done|].
  change (2 ^ 6) with 64 in *. unfold uint64. cbv zeta. rewrite E1, E2. f_equal.
  apply rotate_lor; [lia|done|]. apply Z.mod_pos_bound. lia.
Qed.

Lemma rotr64_ok n c : 0 <= n < 2 ^ 64 → Some (rotr64 n c) = spec_binop 64 Rotr n c.
Proof.
  intros Hn. unfold rotr64, spec_binop. destruct (rot_counts 64 6 63 c) as [E1 E2]; [lia|done|].
  change (2 ^ 6) with 64 in *. unfold uint64. cbv zeta. rewrite E1, E2. f_equal.
  apply rotate_lor_r; [lia|done|]. apply Z.mod_pos_bound. lia.
Qed.

(** ** Sign extension is the identity on values *)

Lemma lor_sign k v : 0 <= k → - 2 ^ k <= v < 0 → Z.lor v (- 2 ^ k) = v.
Proof.
  intros Hk Hv. apply Z.bits_inj'. intros i Hi. rewrite Z.lor_spec.
  assert (- 2 ^ k = Z.lnot (Z.ones k)) as -> by (rewrite Z.ones_equiv; unfold Z.lnot; lia).
  rewrite Z.lnot_spec, Z.testbit_ones_nonneg by lia.
  destruct (Z.ltb_spec i k); simpl; [by rewrite orb_false_r|]. rewrite orb_true_r.
  symmetry. assert (v = Z.lnot (- v - 1)) as -> by (unfold Z.lnot; lia).
  rewrite Z.lnot_spec by lia. apply negb_true_iff.
  assert (2 ^ k <= 2 ^ i) by (apply Z.pow_le_mono_r; lia).
  rewrite <- (Z.mod_small (- v - 1) (2 ^ i)) by lia. apply Z.mod_pow2_bits_high. lia.
Qed.

Lemma sign_ext_small k hi v :
  0 <= k → (v < 0 → Z.lor v hi = v) → - 2 ^ k <= v < 2 ^ k →
  (if negb (Z.land v (2 ^ k) =? 0) then Z.lor v hi else v) = v.
Proof.
  intros Hk Hhi Hv. rewrite land_pow2 by done.
  destruct (Z.testbit v k) eqn:E; [|done].
  assert (0 < 2 ^ k) by (apply Z.pow_pos_nonneg; lia). rewrite (proj2 (Z.eqb_neq _ _)) by lia. simpl.
  apply Hhi. destruct (Z.ltb_spec v 0); [done|].
  rewrite <- (Z.mod_small v (2 ^ k)), Z.mod_pow2_bits_high in E by lia. done.
Qed.

Lemma sign_ext_8_32_ok v : - 2 ^ 7 <= v < 2 ^ 7 → sign_ext_8_32 v = v.
Proof. intros H. apply (sign_ext_small 7); [lia| |done]. intros ?. apply (lor_sign 8); lia. Qed.
Lemma sign_ext_16_32_ok v : - 2 ^ 15 <= v < 2 ^ 15 → sign_ext_16_32 v = v.
Proof. intros H. apply (sign_ext_small 15); [lia| |done]. intros ?. apply (lor_sign 16); lia. Qed.
Lemma sign_ext_8_64_ok v : - 2 ^ 7 <= v < 2 ^ 7 → sign_ext_8_64 v = v.
Proof. intros H. apply (sign_ext_small 7); [lia| |done]. intros ?. apply (lor_sign 8); lia. Qed.
Lemma sign_ext_16_64_ok v : - 2 ^ 15 <= v < 2 ^ 15 → sign_ext_16_64 v = v.
Proof. intros H. apply (sign_ext_small 15); [lia| |done]. intros ?. apply (lor_sign 16); lia. Qed.
Lemma sign_ext_32_64_ok v : - 2 ^ 31 <= v < 2 ^ 31 → sign_ext_32_64 v = v.
Proof.
  intros H. unfold sign_ext_32_64. change (int32 0x80000000) with (- 2 ^ 31).
  change (swrap 64 0xffffffff00000000) with (- 2 ^ 32).
  destruct (Z.ltb_spec v 0).
  - rewrite !lor_sign by lia. by destruct (negb _).
  - assert (Z.land v (- 2 ^ 31) = 0) as ->; [|done].
    change (- 2 ^ 31) with (Z.lnot (Z.ones 31)). rewrite <- Z.ldiff_land, Z.ldiff_ones_r_low; [done|lia|].
    destruct (Z.eq_dec v 0) as [->|]; [done|]. apply Z.log2_lt_pow2; lia.
Qed.
