(* ===== verification/Float.v ===== *)
(** The floating-point operations of the interpreter (wasm_interp_classic.c), on the
    bits of the operands.  C's [float32] and [float64] are the binary32 and
    binary64 formats of the Standard Library's [SpecFloat] with rounding to
    nearest even; C leaves open which NaN an operation gives, so the two NaN
    functions are parameters. *)
From stdpp Require Import base list.
From Stdlib Require Import ZArith Lia Floats.SpecFloat.
From S2P Require Import Prelude.

(** * Formats

    [mw] bits of mantissa and [ew] of exponent under a sign bit. *)
Section Format.
Context (mw ew : Z).

Definition f_prec : Z := mw + 1.
Definition f_emax : Z := 2 ^ (ew - 1).
Definition f_emin : Z := 3 - f_emax - f_prec.

Definition sign_of (b : Z) : bool := Z.testbit b (mw + ew).

Definition decode (b : Z) : spec_float :=
  let s := sign_of b in
  let e := (b / 2 ^ mw) mod 2 ^ ew in
  let m := b mod 2 ^ mw in
  if e =? 2 ^ ew - 1 then if m =? 0 then S754_infinity s else S754_nan
  else if e =? 0
  then match m with Zpos p => S754_finite s p f_emin | _ => S754_zero s end
  else match m + 2 ^ mw with Zpos p => S754_finite s p (e - 1 + f_emin) | _ => S754_nan end.

Definition sign_bits (s : bool) : Z := if s then 2 ^ (mw + ew) else 0.

(** [nan]: the bits to give for a NaN. *)
Definition encode (nan : Z) (x : spec_float) : Z :=
  match x with
  | S754_zero s => sign_bits s
  | S754_infinity s => sign_bits s + (2 ^ ew - 1) * 2 ^ mw
  | S754_nan => nan
  | S754_finite s m e =>
      sign_bits s
      + (if Zpos m <? 2 ^ mw then Zpos m else (e - f_emin + 1) * 2 ^ mw + (Zpos m - 2 ^ mw))
  end.

Definition f_isnan (b : Z) : bool := match decode b with S754_nan => true | _ => false end.
End Format.

Definition f32 : Z → spec_float := decode 23 8.
Definition f64 : Z → spec_float := decode 52 11.

(** The value of a constant of the source, an integer. *)
Definition SFZ (prec emax z : Z) : spec_float := binary_normalize prec emax z 0 false.

Inductive fbinop := FAdd | FSub | FMul | FDiv.
Inductive frelop := FEq | FNe | FLt | FGt | FLe | FGe.
Inductive fmath := FAbs | FCeil | FFloor | FTrunc | FNearest | FSqrt.

(** [==, !=, <, >, <=, >=]. *)
Definition f_cmp (op : frelop) (a b : spec_float) : bool :=
  match op with
  | FEq => SFeqb a b
  | FNe => negb (SFeqb a b)
  | FLt => SFltb a b
  | FGt => SFltb b a
  | FLe => SFleb a b
  | FGe => SFleb b a
  end.

Definition f_arith (prec emax : Z) (op : fbinop) : spec_float → spec_float → spec_float :=
  match op with
  | FAdd => SFadd prec emax
  | FSub => SFsub prec emax
  | FMul => SFmul prec emax
  | FDiv => SFdiv prec emax
  end.

(** The value as an integer: towards zero, and to the nearest or in a direction. *)
Definition magnitude (m : positive) (e : Z) : Z := Z.shiftl (Zpos m) e.
Definition inexact (m : positive) (e : Z) : bool := negb (Z.shiftl (magnitude m e) (- e) =? Zpos m).

Definition rint_magnitude (m : positive) (e : Z) : Z :=
  let q := magnitude m e in
  let twice := Zpos m * 2 - Z.shiftl (2 * q) (- e) in
  let one := Z.shiftl 1 (- e) in
  if twice <? one then q else if one <? twice then q + 1 else if Z.even q then q else q + 1.

Definition to_integral (op : fmath) (s : bool) (m : positive) (e : Z) : Z :=
  match op with
  | FCeil => magnitude m e + (if negb s && inexact m e then 1 else 0)
  | FFloor => magnitude m e + (if s && inexact m e then 1 else 0)
  | FNearest => rint_magnitude m e
  | _ => magnitude m e
  end.

(** [ceil], [floor], [trunc], [rint] and [sqrt] of a double. *)
Definition math_SF (op : fmath) (x : spec_float) : spec_float :=
  match op, x with
  | FAbs, _ => SFabs x
  | FSqrt, _ => SFsqrt 53 1024 x
  | _, S754_finite s m e =>
      if 0 <=? e then x
      else let n := to_integral op s m e in
           binary_normalize 53 1024 (if s then - n else n) 0 s
  | _, _ => x
  end.

Section Ops.
(** The NaN of an operation on the given operands. *)
Context (nan32 nan64 : list Z → Z).

(** ** Conversions between the formats *)

Definition convert_SF (prec emax : Z) (x : spec_float) : spec_float :=
  match x with S754_finite s m e => binary_round prec emax s m e | x => x end.

Definition promote (a : Z) : Z := encode 52 11 (nan64 [a]) (convert_SF 53 1024 (f32 a)).
Definition demote (a : Z) : Z := encode 23 8 (nan32 [a]) (convert_SF 24 128 (f64 a)).

(** [(float32)] and [(float64)] of an integer. *)
Definition f32_of_int (v : Z) : Z := encode 23 8 (nan32 []) (SFZ 24 128 v).
Definition f64_of_int (v : Z) : Z := encode 52 11 (nan64 []) (SFZ 53 1024 v).

(** ** Arithmetic and comparison *)

Definition f32_arith (op : fbinop) (a b : Z) : Z :=
  encode 23 8 (nan32 [a; b]) (f_arith 24 128 op (f32 a) (f32 b)).
Definition f64_arith (op : fbinop) (a b : Z) : Z :=
  encode 52 11 (nan64 [a; b]) (f_arith 53 1024 op (f64 a) (f64 b)).

Definition f32_cmp (op : frelop) (a b : Z) : bool := f_cmp op (f32 a) (f32 b).
Definition f64_cmp (op : frelop) (a b : Z) : bool := f_cmp op (f64 a) (f64 b).

(** ** The functions of math.h, on doubles; a [float32] is promoted first *)

Definition signbit64 (a : Z) : bool := sign_of 52 11 a.
Definition fabs64 (a : Z) : Z := Z.land a (2 ^ 63 - 1).
Definition neg64 (a : Z) : Z := Z.lxor a (2 ^ 63).

Definition f64_math (op : fmath) (a : Z) : Z :=
  match op with
  | FAbs => fabs64 a
  | _ => encode 52 11 (nan64 [a]) (math_SF op (f64 a))
  end.

Definition f32_math (op : fmath) (a : Z) : Z := demote (f64_math op (promote a)).

(** [signbit(b) ? -fabs(a) : fabs(a)]. *)
Definition f64_copysign (a b : Z) : Z := if signbit64 b then neg64 (fabs64 a) else fabs64 a.
Definition f32_copysign (a b : Z) : Z :=
  demote (if sign_of 23 8 b then neg64 (fabs64 (promote a)) else fabs64 (promote a)).

(** [fmax] and [fmin] of two numbers; on zeros C leaves the sign open. *)
Definition fmax64 (a b : Z) : Z := if SFltb (f64 a) (f64 b) then b else a.
Definition fmin64 (a b : Z) : Z := if SFltb (f64 b) (f64 a) then b else a.

Definition is_zero64 (c : Z) : bool := SFeqb (f64 c) (S754_zero false).

Definition wa_fmax (a b : Z) : Z :=
  let c := fmax64 a b in
  if is_zero64 c && SFeqb (f64 a) (f64 b) then if signbit64 a then b else a else c.

Definition wa_fmin (a b : Z) : Z :=
  let c := fmin64 a b in
  if is_zero64 c && SFeqb (f64 a) (f64 b) then if signbit64 a then a else b else c.

(** The handlers of [f32.min] and its kin. *)
Definition f64_minmax (max : bool) (a b : Z) : Z :=
  if f_isnan 52 11 a then a
  else if f_isnan 52 11 b then b
  else if max then wa_fmax a b else wa_fmin a b.

Definition f32_minmax (max : bool) (a b : Z) : Z :=
  if f_isnan 23 8 a then a
  else if f_isnan 23 8 b then b
  else demote (if max then wa_fmax (promote a) (promote b) else wa_fmin (promote a) (promote b)).
End Ops.

(** ** Conversion to integers *)

(** [(int)x] of a number in range: towards zero. *)
Definition trunc_Z (x : spec_float) : Z :=
  match x with
  | S754_finite s m e => if s then - magnitude m e else magnitude m e
  | _ => 0
  end.

(** [TRUNC_FUNCTION(func_name, src_type, dst_type, signed_type)], [w] the width
    of [dst_type]. *)
Definition trunc_value (w : Z) (src_value src_min src_max : spec_float) (dst_min dst_max : Z)
    (is_sign : bool) : Z :=
  match src_value with
  | S754_nan => 0
  | _ =>
      if SFleb src_value src_min then dst_min
      else if SFleb src_max src_value then dst_max
      else if is_sign then wrap w (swrap w (trunc_Z src_value))
      else wrap w (trunc_Z src_value)
  end.

Inductive trunc_result := TruncNaN | TruncOverflow | TruncTo (v : Z).

(** [trunc_f32_to_int] and [trunc_f64_to_int] up to the exception they raise:
    the result has 32 bits ([is_i32]) or 64. *)
Definition trunc_to_int (src_value src_min src_max : spec_float) (saturating is_i32 is_sign : bool) :
    trunc_result :=
  let w := if is_i32 then 32 else 64 in
  let dst_min := if is_sign then 2 ^ (w - 1) else 0 in
  let dst_max := if is_sign then 2 ^ (w - 1) - 1 else 2 ^ w - 1 in
  let value := TruncTo (trunc_value w src_value src_min src_max dst_min dst_max is_sign) in
  if saturating then value
  else match src_value with
       | S754_nan => TruncNaN
       | _ => if SFleb src_value src_min || SFleb src_max src_value then TruncOverflow else value
       end.

(** The bounds the handlers pass. *)
Definition trunc_bounds (f32_src is_i32 is_sign : bool) : Z * Z :=
  match f32_src, is_i32, is_sign with
  | true, true, true => (-2147483904, 2147483648)
  | true, true, false => (-1, 4294967296)
  | false, true, true => (-2147483649, 2147483648)
  | false, true, false => (-1, 4294967296)
  | true, false, true => (-9223373136366403584, 9223372036854775808)
  | true, false, false => (-1, 18446744073709551616)
  | false, false, true => (-9223372036854777856, 9223372036854775808)
  | false, false, false => (-1, 18446744073709551616)
  end.

Definition trunc_instr (f32_src is_i32 is_sign saturating : bool) (bits : Z) : trunc_result :=
  let '(lo, hi) := trunc_bounds f32_src is_i32 is_sign in
  if f32_src
  then trunc_to_int (f32 bits) (SFZ 24 128 lo) (SFZ 24 128 hi) saturating is_i32 is_sign
  else trunc_to_int (f64 bits) (SFZ 53 1024 lo) (SFZ 53 1024 hi) saturating is_i32 is_sign.
