(* ===== verification/FloatTrunc.v ===== *)
(** The conversions of floats to integers in the interpreter: against the bounds
    the handlers pass, a conversion traps exactly when the integer part of its
    operand does not fit the result, and gives that integer part otherwise; the
    saturating ones clamp it. *)
From stdpp Require Import base list.
From Stdlib Require Import ZArith Lia Floats.SpecFloat.
From S2P Require Import Prelude Float.

(** * Canonical floats *)

Section Canonical.
Context (mw emin : Z).
Hypothesis Hmw : 0 <= mw.
Hypothesis Hemin : emin <= 0.

(** A mantissa of [mw + 1] bits whose high bit is set unless the exponent is the
    least. *)
Definition canonical (m : positive) (e : Z) : Prop :=
  Zpos m < 2 ^ (mw + 1) ∧ emin <= e ∧ (e = emin ∨ 2 ^ mw <= Zpos m).
Definition normal (m : positive) (e : Z) : Prop := canonical m e ∧ 2 ^ mw <= Zpos m.

(** The magnitude in units of the least float. *)
Definition scaled (m : positive) (e : Z) : Z := Zpos m * 2 ^ (e - emin).

Lemma scaled_order m1 e1 m2 e2 : canonical m1 e1 → normal m2 e2 →
  (scaled m2 e2 <= scaled m1 e1 ↔ e2 < e1 ∨ e2 = e1 ∧ Zpos m2 <= Zpos m1).
Proof.
  intros (Ha&Hb&Hc) [(Hd&He&_) Hf]. unfold scaled.
  assert (∀ a b, emin <= a → a < b → 2 ^ (mw + 1) * 2 ^ (a - emin) <= 2 ^ mw * 2 ^ (b - emin)) as Hstep.
  { intros a b Ha' Hab. rewrite <- !Z.pow_add_r by lia. apply Z.pow_le_mono_r; lia. }
  assert (∀ a, emin <= a → 0 < 2 ^ (a - emin)) as Hp by (intros; apply Z.pow_pos_nonneg; lia).
  destruct (Z.lt_trichotomy e1 e2) as [Hlt|[->|Hgt]].
  - split; [|lia]. intros H. specialize (Hstep e1 e2 Hb Hlt). pose proof (Hp e1 Hb). pose proof (Hp e2 He). nia.
  - pose proof (Hp e2 He). split; [|nia]. intros H'. right. split; [done|]. nia.
  - split; [lia|]. intros _. destruct Hc as [->|Hc]; [lia|].
    specialize (Hstep e2 e1 He Hgt). pose proof (Hp e1 Hb). pose proof (Hp e2 He). nia.
Qed.

(** The integer part is the magnitude divided by the units of one. *)
Lemma magnitude_scaled m e : emin <= e → magnitude m e = scaled m e / 2 ^ (- emin).
Proof.
  intros He. unfold magnitude, scaled. destruct (Z.le_gt_cases 0 e).
  - rewrite Z.shiftl_mul_pow2 by lia. replace (e - emin) with (e + - emin) by lia.
    rewrite Z.pow_add_r, Z.mul_assoc, Z.div_mul by lia. done.
  - replace e with (- - e) at 1 by lia. rewrite Z.shiftl_opp_r, Z.shiftr_div_pow2 by lia.
    replace (- emin) with (- e + (e - emin)) by lia. rewrite (Z.pow_add_r 2 (- e)) by lia.
    rewrite Z.div_mul_cancel_r; [done| |]; apply Z.pow_nonzero; lia.
Qed.

(** ** Comparisons with a bound *)

Lemma SFleb_hi m e mh eh : canonical m e → normal mh eh →
  SFleb (S754_finite false mh eh) (S754_finite false m e) = (scaled mh eh <=? scaled m e).
Proof.
  intros Hc Hn. apply Bool.eq_iff_eq_true. rewrite Z.leb_le, scaled_order by done.
  unfold SFleb, SFcompare. destruct (Z.compare_spec eh e); [|intuition lia..].
  fold (Pos.compare mh m). destruct (Pos.compare_spec mh m); intuition lia.
Qed.

Lemma SFleb_lo m e ml el : canonical m e → normal ml el →
  SFleb (S754_finite true m e) (S754_finite true ml el) = (scaled ml el <=? scaled m e).
Proof.
  intros Hc Hn. apply Bool.eq_iff_eq_true. rewrite Z.leb_le, scaled_order by done.
  unfold SFleb, SFcompare. destruct (Z.compare_spec e el); [|intuition lia..].
  fold (Pos.compare m ml). destruct (Pos.compare_spec m ml); simpl; intuition lia.
Qed.
End Canonical.

Lemma decode_canonical mw ew b s m e : 0 <= mw → 0 <= ew → 0 <= b → decode mw ew b = S754_finite s m e →
  canonical mw (f_emin mw ew) m e ∧ s = sign_of mw ew b.
Proof.
  intros Hmw Hew Hb. unfold decode. cbv zeta. pose proof (Z.mod_pos_bound b (2 ^ mw)) as Hm.
  pose proof (Z.mod_pos_bound (b / 2 ^ mw) (2 ^ ew)) as He.
  assert (0 < 2 ^ mw) by (apply Z.pow_pos_nonneg; lia).
  assert (2 ^ (mw + 1) = 2 * 2 ^ mw) as E by (rewrite <- Z.pow_succ_r by lia; done).
  unfold canonical. destruct (_ =? 2 ^ ew - 1); [by destruct (_ =? 0)|].
  destruct (Z.eqb_spec ((b / 2 ^ mw) mod 2 ^ ew) 0) as [E0|E0].
  - destruct (b mod 2 ^ mw) as [|p|p] eqn:Ep; [done| |done]. intros [= <- <- <-]. split; [|done]. lia.
  - destruct (b mod 2 ^ mw + 2 ^ mw) as [|p|p] eqn:Ep; [done| |done]. intros [= <- <- <-].
    split; [|done]. assert (0 < 2 ^ ew) by (apply Z.pow_pos_nonneg; lia). lia.
Qed.

(** * Bounds

    The bounds of a conversion: [hi] is the first integer that is too large;
    [lo] is [- (low + 1)], or the first float below [- low] when [- (low + 1)]
    is not a float. *)
Record bounds_ok (mw emin low high : Z) (lo hi : spec_float) : Prop := {
  bo_hi : ∃ m e, hi = S754_finite false m e ∧ normal mw emin m e ∧ scaled emin m e = high * 2 ^ (- emin);
  bo_lo : ∃ m e, lo = S754_finite true m e ∧ normal mw emin m e
    ∧ (scaled emin m e = (low + 1) * 2 ^ (- emin)
       ∨ Zpos m = 2 ^ mw + 1 ∧ 0 <= e ∧ 2 ^ mw * 2 ^ (e - emin) = low * 2 ^ (- emin))
}.

(** The integer part of a float. *)
Definition int_part (x : spec_float) : Z :=
  match x with
  | S754_finite s m e => (if s then -1 else 1) * (Zpos m * 2 ^ Z.max e 0 / 2 ^ Z.max (- e) 0)
  | _ => 0
  end.

Lemma int_part_trunc x : trunc_Z x = int_part x.
Proof.
  destruct x as [| | |s m e]; try done. unfold trunc_Z, int_part, magnitude.
  assert (Z.shiftl (Zpos m) e = Zpos m * 2 ^ Z.max e 0 / 2 ^ Z.max (- e) 0) as ->; [|destruct s; lia].
  destruct (Z.le_gt_cases 0 e).
  - rewrite Z.max_l, Z.max_r, Z.shiftl_mul_pow2 by lia. by rewrite Z.pow_0_r, Z.div_1_r.
  - rewrite Z.max_r, Z.max_l by lia. replace e with (- - e) at 1 by lia.
    rewrite Z.shiftl_opp_r, Z.shiftr_div_pow2 by lia. by rewrite Z.pow_0_r, Z.mul_1_r.
Qed.

Section Bounds.
Context (mw emin low high : Z) (lo hi : spec_float).
Hypothesis Hmw : 0 <= mw.
Hypothesis Hemin : emin <= 0.
Hypothesis Hlow : 0 <= low.
Hypothesis Hhigh : 0 < high.
Hypothesis Hb : bounds_ok mw emin low high lo hi.

Lemma unit_pos : 0 < 2 ^ (- emin).
Proof. apply Z.pow_pos_nonneg; lia. Qed.

Lemma hi_ok m e : canonical mw emin m e →
  SFleb hi (S754_finite false m e) = (high <=? magnitude m e).
Proof.
  intros Hc. destruct (bo_hi _ _ _ _ _ _ Hb) as (mh&eh&->&Hn&E).
  rewrite (SFleb_hi mw emin), E by done. pose proof unit_pos. destruct Hc as (_&He&_).
  rewrite (magnitude_scaled emin) by done. apply Bool.eq_iff_eq_true. rewrite !Z.leb_le. split; intros H1.
  - apply Z.div_le_lower_bound; lia.
  - etransitivity; [|apply (Z.mul_div_le _ (2 ^ (- emin))); lia]. rewrite (Z.mul_comm (2 ^ (- emin))).
    apply Z.mul_le_mono_nonneg_r; lia.
Qed.

Lemma lo_ok m e : canonical mw emin m e →
  SFleb (S754_finite true m e) lo = (low <? magnitude m e).
Proof.
  intros Hc. destruct (bo_lo _ _ _ _ _ _ Hb) as (ml&el&->&Hn&E).
  rewrite (SFleb_lo mw emin) by done. pose proof unit_pos as Hu. pose proof Hc as (Hm&He&_).
  rewrite (magnitude_scaled emin) by done. apply Bool.eq_iff_eq_true. rewrite Z.leb_le, Z.ltb_lt.
  assert (low < scaled emin m e / 2 ^ (- emin) ↔ (low + 1) * 2 ^ (- emin) <= scaled emin m e) as ->.
  { split; intros H1.
    - etransitivity; [|apply (Z.mul_div_le _ (2 ^ (- emin))); lia]. rewrite (Z.mul_comm (2 ^ (- emin))).
      apply Z.mul_le_mono_nonneg_r; lia.
    - assert (low + 1 <= scaled emin m e / 2 ^ (- emin)); [|lia]. apply Z.div_le_lower_bound; lia. }
  destruct E as [->|(Em&Hel&E)]; [done|].
  assert (2 ^ (- emin) <= 2 ^ (el - emin)) by (apply Z.pow_le_mono_r; lia).
  assert (scaled emin ml el = (2 ^ mw + 1) * 2 ^ (el - emin)) as Es by (unfold scaled; by rewrite Em).
  split; intros H1; [lia|].
  assert (0 < 2 ^ mw) as Hp by (apply Z.pow_pos_nonneg; lia).
  assert (2 ^ (mw + 1) = 2 * 2 ^ mw) as Ep by (rewrite <- Z.pow_succ_r by lia; done).
  assert (normal mw emin (Z.to_pos (2 ^ mw)) el) as Hn'.
  { destruct Hn as [(_&He'&_) _]. unfold normal, canonical. rewrite Z2Pos.id by lia. lia. }
  assert (scaled emin (Z.to_pos (2 ^ mw)) el = 2 ^ mw * 2 ^ (el - emin)) as Es'
    by (unfold scaled; by rewrite Z2Pos.id by lia).
  apply (scaled_order mw emin); [done..|].
  assert (scaled emin (Z.to_pos (2 ^ mw)) el <= scaled emin m e) as H2 by lia.
  apply (scaled_order mw emin) in H2; [|done..]. rewrite Z2Pos.id in H2 by lia.
  destruct H2 as [?|[Ee H2]]; [by left|right]. split; [done|]. rewrite Em.
  destruct (Z.eq_dec (Zpos m) (2 ^ mw)) as [E2|]; [|lia].
  unfold scaled in H1 at 1. rewrite E2, Ee in *. lia.
Qed.
End Bounds.

(** * The conversions *)

Definition int_width (is_i32 : bool) : Z := if is_i32 then 32 else 64.

(** The results are [- low .. high - 1]. *)
Definition int_low (is_i32 is_sign : bool) : Z := if is_sign then 2 ^ (int_width is_i32 - 1) else 0.
Definition int_high (is_i32 is_sign : bool) : Z :=
  if is_sign then 2 ^ (int_width is_i32 - 1) else 2 ^ int_width is_i32.

(** A bound is what [binary_normalize] makes of it. *)
Ltac bound :=
  match goal with |- ∃ m e, ?x = S754_finite ?s m e ∧ _ =>
    let r := eval vm_compute in x in
    match r with S754_finite _ ?p ?z => exists p, z end
  end; split; [by vm_compute|split; [split; [split_and!; [by vm_compute|by vm_compute|right; by vm_compute]|by vm_compute]|]].

Lemma f32_bounds is_i32 is_sign :
  bounds_ok 23 (f_emin 23 8) (int_low is_i32 is_sign) (int_high is_i32 is_sign)
    (SFZ 24 128 (trunc_bounds true is_i32 is_sign).1) (SFZ 24 128 (trunc_bounds true is_i32 is_sign).2).
Proof.
  destruct is_i32, is_sign; constructor; bound; first [by vm_compute|by left; vm_compute|by right; vm_compute].
Qed.

Lemma f64_bounds is_i32 is_sign :
  bounds_ok 52 (f_emin 52 11) (int_low is_i32 is_sign) (int_high is_i32 is_sign)
    (SFZ 53 1024 (trunc_bounds false is_i32 is_sign).1) (SFZ 53 1024 (trunc_bounds false is_i32 is_sign).2).
Proof.
  destruct is_i32, is_sign; constructor; bound; first [by vm_compute|by left; vm_compute|by right; vm_compute].
Qed.

(** What WebAssembly asks of a conversion of [x]. *)
Definition spec_trunc (is_i32 is_sign saturating : bool) (x : spec_float) : trunc_result :=
  let w := int_width is_i32 in
  let low := int_low is_i32 is_sign in
  let high := int_high is_i32 is_sign in
  let clamp (neg : bool) := if saturating then TruncTo (wrap w (if neg then - low else high - 1)) else TruncOverflow in
  match x with
  | S754_nan => if saturating then TruncTo 0 else TruncNaN
  | S754_infinity s => clamp s
  | _ => let t := int_part x in
         if (- low <=? t) && (t <? high) then TruncTo (wrap w t) else clamp (t <? 0)
  end.

Section Conversion.
Context (mw emin : Z) (lo hi : spec_float) (is_i32 is_sign : bool).
Let low := int_low is_i32 is_sign.
Let high := int_high is_i32 is_sign.
Hypothesis Hmw : 0 <= mw.
Hypothesis Hemin : emin <= 0.
Hypothesis Hb : bounds_ok mw emin low high lo hi.

Lemma width_facts : let w := int_width is_i32 in
  1 <= w ∧ 0 <= low ∧ 0 < high ∧ (if is_sign then low = 2 ^ (w - 1) ∧ high = 2 ^ (w - 1) else low = 0 ∧ high = 2 ^ w)
  ∧ 2 ^ w = 2 * 2 ^ (w - 1).
Proof. unfold low, high. by destruct is_i32, is_sign; vm_compute. Qed.

Lemma dst_bounds :
  (if is_sign then 2 ^ (int_width is_i32 - 1) else 0) = wrap (int_width is_i32) (- low)
  ∧ (if is_sign then 2 ^ (int_width is_i32 - 1) - 1 else 2 ^ int_width is_i32 - 1)
    = wrap (int_width is_i32) (high - 1).
Proof. unfold low, high. by destruct is_i32, is_sign; vm_compute. Qed.

Lemma wrap_sign w t : 1 <= w → (if is_sign then wrap w (swrap w t) else wrap w t) = wrap w t.
Proof. intros Hw. destruct is_sign; [by apply wrap_swrap|done]. Qed.

(** The conversion with the outcome of the two comparisons. *)
Lemma trunc_shape x saturating : x ≠ S754_nan →
  trunc_to_int x lo hi saturating is_i32 is_sign
  = let w := int_width is_i32 in
    if SFleb x lo then if saturating then TruncTo (wrap w (- low)) else TruncOverflow
    else if SFleb hi x then if saturating then TruncTo (wrap w (high - 1)) else TruncOverflow
    else TruncTo (wrap w (trunc_Z x)).
Proof.
  intros Hx. destruct dst_bounds as [E1 E2]. destruct width_facts as (Hw&_). cbv zeta in *.
  unfold trunc_to_int. fold (int_width is_i32). cbv zeta. rewrite E1, E2. unfold trunc_value.
  destruct x; try done; destruct (SFleb _ lo), (SFleb hi _), saturating; cbn [orb]; try done;
    by rewrite <- (wrap_sign (int_width is_i32) (trunc_Z _) Hw); destruct is_sign.
Qed.

Lemma lo_sign : ∃ m e, lo = S754_finite true m e.
Proof. destruct (bo_lo _ _ _ _ _ _ Hb) as (m&e&->&_). by exists m, e. Qed.
Lemma hi_sign : ∃ m e, hi = S754_finite false m e.
Proof. destruct (bo_hi _ _ _ _ _ _ Hb) as (m&e&->&_). by exists m, e. Qed.

Lemma conversion_ok x saturating :
  (∀ s m e, x = S754_finite s m e → canonical mw emin m e) →
  trunc_to_int x lo hi saturating is_i32 is_sign = spec_trunc is_i32 is_sign saturating x.
Proof.
  intros Hx. destruct width_facts as (Hw&Hl&Hh&_&_). destruct lo_sign as (ml&el&El). destruct hi_sign as (mh&eh&Eh).
  destruct x as [s|s| |s m e].
  - rewrite trunc_shape by done. cbv zeta. rewrite El, Eh. cbn [SFleb SFcompare].
    unfold spec_trunc. fold low high. cbn [int_part trunc_Z].
    by rewrite (proj2 (Z.leb_le (- low) 0)), (proj2 (Z.ltb_lt 0 high)) by lia.
  - rewrite trunc_shape by done. rewrite El, Eh. by destruct s, saturating.
  - by destruct saturating.
  - specialize (Hx s m e eq_refl). rewrite trunc_shape by done. cbv zeta.
    assert (0 <= magnitude m e) as Hm by (unfold magnitude; apply Z.shiftl_nonneg; lia).
    unfold spec_trunc. fold low high. cbv zeta. rewrite <- int_part_trunc. cbn [trunc_Z]. destruct s.
    + rewrite (lo_ok mw emin low high lo hi) by done.
      assert (SFleb hi (S754_finite true m e) = false) as -> by (by rewrite Eh).
      destruct (Z.ltb_spec low (magnitude m e)).
      * rewrite (proj2 (Z.leb_gt (- low) _)), (proj2 (Z.ltb_lt _ 0)) by lia. by destruct saturating.
      * by rewrite (proj2 (Z.leb_le (- low) _)), (proj2 (Z.ltb_lt _ high)) by lia.
    + rewrite (hi_ok mw emin low high lo hi) by done.
      assert (SFleb (S754_finite false m e) lo = false) as -> by (by rewrite El).
      destruct (Z.leb_spec high (magnitude m e)).
      * rewrite (proj2 (Z.ltb_ge _ high)), (proj2 (Z.ltb_ge _ 0)), andb_false_r by lia. by destruct saturating.
      * by rewrite (proj2 (Z.leb_le (- low) _)), (proj2 (Z.ltb_lt _ high)) by lia.
Qed.
End Conversion.

(** C25: every conversion of a float to an integer traps exactly for NaN and for
    the values whose integer part does not fit the result, which it gives
    otherwise; a saturating conversion gives zero for NaN and the nearest end of
    the range for the values out of it. *)
Theorem trunc_exact f32_src is_i32 is_sign saturating bits : 0 <= bits →
  trunc_instr f32_src is_i32 is_sign saturating bits
  = spec_trunc is_i32 is_sign saturating (if f32_src then f32 bits else f64 bits).
Proof.
  intros Hbits. unfold trunc_instr. destruct f32_src.
  - rewrite (surjective_pairing (trunc_bounds true is_i32 is_sign)).
    apply (conversion_ok 23 (f_emin 23 8)); [lia|by vm_compute|apply f32_bounds|].
    intros s m e E. by apply decode_canonical in E as [? _].
  - rewrite (surjective_pairing (trunc_bounds false is_i32 is_sign)).
    apply (conversion_ok 52 (f_emin 52 11)); [lia|by vm_compute|apply f64_bounds|].
    intros s m e E. by apply decode_canonical in E as [? _].
Qed.

(** -2147483648.9 fits 32 bits; -2147483649.0 does not, and saturates. *)
Lemma trunc_exact_witness :
  trunc_instr false true true false 0xC1E00000001CCCCD = TruncTo (2 ^ 31)
  ∧ trunc_instr false true true false 0xC1E0000000200000 = TruncOverflow
  ∧ trunc_instr false true true true 0xC1E0000000200000 = TruncTo (2 ^ 31).
Proof.
  split; [|split]; (rewrite (trunc_exact false true true); [by vm_compute|lia]).
Defined.
