(* ===== verification/Loop.v ===== *)
(** Loops of the program that have no bound of their own: up to [2^n] turns,
    which for [n = 64] is more than a pointer that moves at every turn can take. *)
From stdpp Require Import base tactics list.
From Stdlib Require Import ZArith Lia.
From S2P Require Import Prelude.

(** A turn goes on from a new state ([inl]) or ends the loop ([inr]). *)
Fixpoint loop_pow {S A} (n : nat) (turn : S → S + A) (s : S) : S + A :=
  match n with
  | O => turn s
  | Datatypes.S n =>
      match loop_pow n turn s with
      | inl s => loop_pow n turn s
      | inr a => inr a
      end
  end.

(** [k] turns lead from [s] to [s']. *)
Inductive turns {S A} (turn : S → S + A) : nat → S → S → Prop :=
| turns_0 s : turns turn 0 s s
| turns_S k s s1 s2 : turn s = inl s1 → turns turn k s1 s2 → turns turn (Datatypes.S k) s s2.

Lemma turns_trans {S A} (turn : S → S + A) j k s1 s2 s3 :
  turns turn j s1 s2 → turns turn k s2 s3 → turns turn (j + k) s1 s3.
Proof. induction 1; intros; [done|]. simpl. econstructor; eauto. Qed.

Lemma turns_one {S A} (turn : S → S + A) s s' : turn s = inl s' → turns turn 1 s s'.
Proof. intros H. econstructor; [exact H|constructor]. Qed.

(** [2^n] turns, or fewer with the end of the loop. *)
Lemma loop_pow_turns {S A} (turn : S → S + A) n : ∀ k s s' a,
  turns turn k s s' → turn s' = inr a → (k < 2 ^ n)%nat → loop_pow n turn s = inr a.
Proof.
  assert (∀ n k s s', turns turn k s s' → (2 ^ n <= k)%nat →
            ∃ s1, loop_pow n turn s = inl s1 ∧ turns turn (k - 2 ^ n) s1 s') as Hgo.
  { clear n. induction n as [|n IH]; intros k s s' H Hk; simpl in *.
    - destruct H as [s|k s s1 s2 H1 H2]; [lia|]. exists s1. split; [done|].
      by replace (Datatypes.S k - 1)%nat with k by lia.
    - destruct (IH k s s' H) as (s1&->&H1); [lia|]. destruct (IH _ _ _ H1) as (s2&->&H2); [lia|].
      exists s2. split; [done|]. by replace (k - (2 ^ n + (2 ^ n + 0)))%nat with (k - 2 ^ n - 2 ^ n)%nat by lia. }
  induction n as [|n IH]; intros k s s' a H Ha Hk; simpl in *.
  - assert (k = 0%nat) as -> by lia. by inversion H; subst.
  - destruct (Nat.lt_ge_cases k (2 ^ n)) as [Hlt|Hge].
    + by rewrite (IH k s s' a).
    + destruct (Hgo n k s s' H Hge) as (s1&->&H1). apply (IH _ _ _ _ H1 Ha). lia.
Qed.

Lemma loop_pow_now {S A} (turn : S → S + A) n s a : turn s = inr a → loop_pow n turn s = inr a.
Proof. intros H. eapply loop_pow_turns; [constructor|exact H|]. apply Nat.neq_0_lt_0, Nat.pow_nonzero. lia. Qed.
