(* ===== verification/Leb.v ===== *)
(** LEB128 integers: the reader of the interpreter (wasm_interp_classic.c), which
    trusts the code, and the reader of the loader (wasm_loader.c), which checks
    it; what a string of bytes stands for, and that both read it. *)
From stdpp Require Import base gmap list numbers.
From Stdlib Require Import Strings.Byte ZArith Lia.
From S2P Require Import Prelude CMemory Numeric Loop.

(** * The interpreter *)

(** The loop of [read_leb].  A shift by 64 bits or more has no meaning in C, so
    ten turns are all a run can have. *)
Fixpoint read_leb_loop (fuel : nat) (m : mem) (buf offset result shift : Z) :
    option (Z * Z * Z * Z) :=
  match fuel with
  | O => None
  | S fuel =>
      let byte := load_Z m (buf + offset) 1 in
      let offset := offset + 1 in
      let result := Z.lor result (uint64 (Z.shiftl (Z.land byte 0x7f) shift)) in
      let shift := shift + 7 in
      if Z.land byte 0x80 =? 0 then Some (result, offset, shift, byte)
      else read_leb_loop fuel m buf offset result shift
  end.

(** The value and the offset after it. *)
Definition read_leb (m : mem) (buf offset maxbits : Z) (sign : bool) : option (Z * Z) :=
  match read_leb_loop 10 m buf offset 0 0 with
  | None => None
  | Some (result, offset, shift, byte) =>
      Some (if sign && (shift <? maxbits) && negb (Z.land byte 0x40 =? 0)
            then Z.lor result (uint64 (Z.shiftl (2 ^ 64 - 1) shift)) else result, offset)
  end.

(** The macros [read_leb_uint32], [read_leb_int32] and [read_leb_int64]: the
    value and the pointer after it. *)
Definition leb_uint32 (m : mem) (p : Z) : option (Z * Z) :=
  let _val := load_Z m p 1 in
  if Z.land _val 0x80 =? 0 then Some (_val, p + 1)
  else match read_leb m p 0 32 false with
       | None => None
       | Some (res, _off) => Some (uint32 res, p + _off)
       end.

Definition leb_int32 (m : mem) (p : Z) : option (Z * Z) :=
  let _val := load_Z m p 1 in
  if Z.land _val 0x80 =? 0
  then Some (int32 (if negb (Z.land _val 0x40 =? 0) then Z.lor _val 0xFFFFFF80 else _val), p + 1)
  else match read_leb m p 0 32 true with
       | None => None
       | Some (res, _off) => Some (int32 res, p + _off)
       end.

Definition leb_int64 (m : mem) (p : Z) : option (Z * Z) :=
  let _val := load_Z m p 1 in
  if Z.land _val 0x80 =? 0
  then Some (swrap 64 (if negb (Z.land _val 0x40 =? 0) then Z.lor _val 0xFFFFFFFFFFFFFF80 else _val),
             p + 1)
  else match read_leb m p 0 64 true with
       | None => None
       | Some (res, _off) => Some (swrap 64 res, p + _off)
       end.

(** [skip_leb]: to the first byte without the high bit. *)
Definition skip_leb (m : mem) (p : Z) : option Z :=
  match loop_pow 64 (fun p => if Z.land (load_Z m p 1) 0x80 =? 0 then inr (p + 1) else inl (p + 1)) p with
  | inr p => Some p
  | inl _ => None
  end.

(** * The loader *)

Definition check_buf (buf buf_end length : Z) : bool := negb (buf_end <? buf + length).

Fixpoint loader_leb_loop (fuel : nat) (m : mem) (buf buf_end maxbits offset bcnt result shift : Z) :
    option (Z * Z * Z * Z) :=
  match fuel with
  | O => None
  | S fuel =>
      if (maxbits + 6) / 7 <? bcnt + 1 then None
      else if negb (check_buf buf buf_end (offset + 1)) then None
      else
        let byte := load_Z m (buf + offset) 1 in
        let offset := offset + 1 in
        let result := Z.lor result (uint64 (Z.shiftl (Z.land byte 0x7f) shift)) in
        let shift := shift + 7 in
        let bcnt := bcnt + 1 in
        if Z.land byte 0x80 =? 0 then Some (result, offset, shift, byte)
        else loader_leb_loop fuel m buf buf_end maxbits offset bcnt result shift
  end.

(** The unused bits of the last byte of an unsigned or a signed integer. *)
Definition top_bits_ok (byte sign_bit top ones : Z) : bool :=
  if negb (Z.land byte sign_bit =? 0) then Z.land byte top =? ones else Z.land byte top =? 0.

(** The loader's [read_leb]: [None] is [false], else the result and the pointer
    after it.  The count of bytes bounds the loop by ten turns. *)
Definition loader_read_leb (m : mem) (buf buf_end maxbits : Z) (sign : bool) : option (Z * Z) :=
  match loader_leb_loop 11 m buf buf_end maxbits 0 0 0 0 with
  | None => None
  | Some (result, offset, shift, byte) =>
      let extended := if negb (Z.land byte 0x40 =? 0)
                      then Z.lor result (uint64 (Z.shiftl (2 ^ 64 - 1) shift)) else result in
      if negb sign && (maxbits =? 32) && (maxbits <=? shift) then
        if negb (Z.land byte 0xf0 =? 0) then None else Some (result, buf + offset)
      else if sign && (maxbits =? 32) then
        if shift <? maxbits then Some (extended, buf + offset)
        else if top_bits_ok byte 0x8 0xf0 0x70 then Some (result, buf + offset) else None
      else if sign && (maxbits =? 64) then
        if shift <? maxbits then Some (extended, buf + offset)
        else if top_bits_ok byte 0x1 0xfe 0x7e then Some (result, buf + offset) else None
      else Some (result, buf + offset)
  end.

(** * What the bytes stand for *)

(** All bytes but the last have the high bit. *)
Inductive leb_string : list Z → Prop :=
| leb_last b : 0 <= b < 128 → leb_string [b]
| leb_more b bs : 128 <= b < 256 → leb_string bs → leb_string (b :: bs).

Fixpoint leb_value (bs : list Z) : Z :=
  match bs with [] => 0 | b :: bs => b mod 128 + 128 * leb_value bs end.

Definition leb_signed (bs : list Z) : Z :=
  leb_value bs - (if 64 <=? List.last bs 0 then 128 ^ Z.of_nat (length bs) else 0).

Fixpoint bytes_at (m : mem) (p : Z) (bs : list Z) : Prop :=
  match bs with [] => True | b :: bs => load_Z m p 1 = b ∧ bytes_at m (p + 1) bs end.

(** The shortest encodings. *)
Fixpoint uleb (fuel : nat) (n : Z) : list Z :=
  match fuel with
  | O => []
  | S fuel => if n <? 128 then [n] else (n mod 128 + 128) :: uleb fuel (n / 128)
  end.

Fixpoint sleb (fuel : nat) (n : Z) : list Z :=
  match fuel with
  | O => []
  | S fuel =>
      if (-64 <=? n) && (n <? 64) then [n mod 128] else (n mod 128 + 128) :: sleb fuel (n / 128)
  end.

(** * Bits of a byte *)

Lemma byte_high b : 0 <= b < 256 → (Z.land b 0x80 =? 0) = (b <? 128).
Proof.
  intros Hb. change 0x80 with (2 ^ 7). rewrite land_pow2 by lia.
  change 7 with (8 - 1). rewrite testbit_top by lia. change (2 ^ (8 - 1)) with 128.
  destruct (Z.leb_spec 128 b), (Z.ltb_spec b 128); try lia; done.
Qed.

Lemma byte_low b : Z.land b 0x7f = b mod 128.
Proof. change 0x7f with (Z.ones 7). by rewrite Z.land_ones by lia. Qed.

Lemma byte_sign b : 0 <= b < 128 → negb (Z.land b 0x40 =? 0) = (64 <=? b).
Proof.
  intros Hb. change 0x40 with (2 ^ 6). rewrite land_pow2 by lia.
  change 6 with (7 - 1). rewrite testbit_top by lia. change (2 ^ (7 - 1)) with 64.
  by destruct (Z.leb_spec 64 b).
Qed.

Lemma leb_value_bound bs : 0 <= leb_value bs < 128 ^ Z.of_nat (length bs).
Proof.
  induction bs as [|b bs IH]; [simpl; lia|]. cbn [leb_value length].
  rewrite Nat2Z.inj_succ, Z.pow_succ_r by lia. pose proof (Z.mod_pos_bound b 128). lia.
Qed.

(** Adding the next seven bits. *)
Lemma lor_shift r v s :
  0 <= s < 64 → 0 <= r < 2 ^ s → 0 <= v →
  Z.lor r (uint64 (Z.shiftl v s)) = (r + v * 2 ^ s) mod 2 ^ 64.
Proof.
  intros Hs Hr Hv. rewrite Z.lor_comm, Z.shiftl_mul_pow2 by lia. unfold uint64, wrap.
  assert (2 ^ 64 = 2 ^ (64 - s) * 2 ^ s) as E by (rewrite <- Z.pow_add_r by lia; f_equal; lia).
  assert (0 < 2 ^ (64 - s)) by (apply Z.pow_pos_nonneg; lia).
  assert (0 < 2 ^ s) by (apply Z.pow_pos_nonneg; lia).
  rewrite (lor_low _ _ s); [|lia| |lia].
  - rewrite E, Z.mul_mod_distr_r by lia.
    rewrite (Z.add_comm r), <- (Z.mod_unique (v * 2 ^ s + r) (2 ^ (64 - s) * 2 ^ s) (v / 2 ^ (64 - s))
      (v mod 2 ^ (64 - s) * 2 ^ s + r)); [done| |].
    + pose proof (Z.mod_pos_bound v (2 ^ (64 - s))). left. nia.
    + rewrite (Z.div_mod v (2 ^ (64 - s))) at 1 by lia. ring.
  - rewrite E, Z.mul_mod_distr_r by lia. apply Z.mod_mul. lia.
Qed.

(** * The loops *)

Lemma some4 {A B C D} (a a' : A) (b b' : B) (c c' : C) (d d' : D) :
  a = a' → b = b' → c = c' → d = d' → Some (a, b, c, d) = Some (a', b', c', d').
Proof. congruence. Qed.

Lemma loop_bound r v k :
  0 <= r < 2 ^ (7 * Z.of_nat k) → 0 <= v < 128 → (k < 9)%nat →
  (r + v * 2 ^ (7 * Z.of_nat k)) mod 2 ^ 64 = r + v * 2 ^ (7 * Z.of_nat k)
  ∧ 0 <= r + v * 2 ^ (7 * Z.of_nat k) < 2 ^ (7 * Z.of_nat (S k)).
Proof.
  intros Hr Hv Hk. set (s := 7 * Z.of_nat k) in *.
  assert (7 * Z.of_nat (S k) = s + 7) as -> by lia. rewrite Z.pow_add_r by lia. change (2 ^ 7) with 128.
  assert (0 < 2 ^ s) by (apply Z.pow_pos_nonneg; lia).
  assert (0 <= r + v * 2 ^ s < 2 ^ s * 128) by nia. split; [|done].
  apply Z.mod_small. split; [lia|].
  assert (2 ^ s * 128 <= 2 ^ 64); [|lia].
  change 128 with (2 ^ 7). rewrite <- Z.pow_add_r by lia. apply Z.pow_le_mono_r; lia.
Qed.

Lemma read_leb_loop_ok m buf bs : leb_string bs → ∀ fuel k off r,
  bytes_at m (buf + off) bs → (k + length bs <= 10)%nat → (length bs <= fuel)%nat →
  0 <= r < 2 ^ (7 * Z.of_nat k) →
  read_leb_loop fuel m buf off r (7 * Z.of_nat k)
  = Some ((r + leb_value bs * 2 ^ (7 * Z.of_nat k)) mod 2 ^ 64, off + Z.of_nat (length bs),
          7 * Z.of_nat (k + length bs), List.last bs 0).
Proof.
  induction 1 as [b Hb|b bs Hb Hbs IH]; intros [|fuel] k off r Hm Hk Hf Hr; try (simpl in Hf; lia);
    cbn [read_leb_loop]; simpl in Hk, Hf; destruct Hm as [Hm0 Hm]; rewrite Hm0, byte_high, byte_low by lia.
  - rewrite (proj2 (Z.ltb_lt _ _)), lor_shift by lia. cbn [leb_value length].
    rewrite (Z.mod_small b) by lia. apply some4; [f_equal; lia|simpl; lia..|done].
  - rewrite (proj2 (Z.ltb_ge _ _)) by lia. pose proof (Z.mod_pos_bound b 128 ltac:(lia)).
    assert (1 <= length bs)%nat by (inversion Hbs; simpl; lia).
    rewrite lor_shift by lia. destruct (loop_bound r (b mod 128) k) as [E1 E2]; [done|lia|lia|].
    rewrite E1. replace (7 * Z.of_nat k + 7) with (7 * Z.of_nat (S k)) by lia.
    rewrite IH; [|by rewrite Z.add_assoc|lia|lia|done].
    cbn [leb_value length]. destruct bs as [|b' bs]; [inversion Hbs|].
    apply some4; [|simpl; lia..|done]. f_equal.
    replace (7 * Z.of_nat (S k)) with (7 * Z.of_nat k + 7) by lia. rewrite Z.pow_add_r by lia.
    change (2 ^ 7) with 128. ring.
Qed.

Lemma leb_string_last bs : leb_string bs → 0 <= List.last bs 0 < 128.
Proof.
  induction 1 as [b Hb|b bs Hb Hbs IH]; [done|]. destruct bs; [inversion Hbs|]. exact IH.
Qed.

Lemma leb_string_length bs : leb_string bs → (1 <= length bs)%nat.
Proof. destruct 1; simpl; lia. Qed.

(** The last byte is the top of the value. *)
Lemma leb_value_last bs : leb_string bs →
  ∃ r, leb_value bs = r + List.last bs 0 * 128 ^ Z.of_nat (length bs - 1)
       ∧ 0 <= r < 128 ^ Z.of_nat (length bs - 1).
Proof.
  induction 1 as [b Hb|b bs Hb Hbs (r&E&Hr)].
  - exists 0. cbn [leb_value length List.last]. rewrite Z.mod_small by lia. simpl. lia.
  - pose proof (leb_string_length _ Hbs). destruct bs as [|b' bs]; [inversion Hbs|].
    exists (b mod 128 + 128 * r). pose proof (Z.mod_pos_bound b 128).
    change (List.last (b :: b' :: bs) 0) with (List.last (b' :: bs) 0).
    assert (Z.of_nat (length (b :: b' :: bs) - 1) = Z.succ (Z.of_nat (length (b' :: bs) - 1))) as ->
      by (simpl; lia).
    rewrite Z.pow_succ_r by lia. cbn [leb_value] in *. split; [|lia]. rewrite E. ring.
Qed.

Lemma bytes_at_head m p bs : leb_string bs → bytes_at m p bs →
  load_Z m p 1 = List.hd 0 bs ∧ (length bs = 1%nat ↔ List.hd 0 bs < 128).
Proof.
  destruct 1 as [b Hb|b bs Hb Hbs]; intros [Hm _]; simpl; (split; [done|]); split; intros; try lia.
  pose proof (leb_string_length _ Hbs). simpl in *. lia.
Qed.

(** * The readers *)

Lemma swrap_mod w a b : a mod 2 ^ w = b mod 2 ^ w → swrap w a = swrap w b.
Proof.
  intros E. unfold swrap. f_equal.
  rewrite Zplus_mod, E, <- Zplus_mod. done.
Qed.

Lemma pow128 n : 128 ^ Z.of_nat n = 2 ^ (7 * Z.of_nat n).
Proof. change 128 with (2 ^ 7). rewrite <- Z.pow_mul_r by lia. done. Qed.

Lemma read_leb_ok m p maxbits sign bs :
  leb_string bs → bytes_at m p bs → (length bs <= 10)%nat → 0 <= maxbits <= 64 →
  ∃ r, read_leb m p 0 maxbits sign = Some (r, Z.of_nat (length bs))
    ∧ r mod 2 ^ maxbits = (if sign then leb_signed bs else leb_value bs) mod 2 ^ maxbits.
Proof.
  intros Hs Hm Hl Hb. unfold read_leb.
  pose proof (read_leb_loop_ok m p bs Hs 10 0 0 0) as E. change (7 * Z.of_nat 0) with 0 in E.
  rewrite E by (rewrite ?Z.add_0_r; simpl; lia || done).
  rewrite Z.mul_1_r, !Z.add_0_l. cbn [Nat.add]. clear E. eexists. split; [done|].
  assert (∀ x, x mod 2 ^ 64 mod 2 ^ maxbits = x mod 2 ^ maxbits) as Hmod.
  { intros x. apply Z.mod_mod_divide. exists (2 ^ (64 - maxbits)).
    rewrite <- Z.pow_add_r by lia. f_equal. lia. }
  destruct sign; [|by rewrite andb_false_l]. cbn [andb].
  rewrite byte_sign by (by apply leb_string_last). unfold leb_signed. rewrite pow128.
  set (s := 7 * Z.of_nat (length bs)). destruct (Z.ltb_spec s maxbits) as [Hlt|Hge]; simpl andb.
  - pose proof (leb_value_bound bs) as Hv. rewrite pow128 in Hv. fold s in Hv.
    assert (2 ^ s <= 2 ^ 64) by (apply Z.pow_le_mono_r; lia).
    rewrite (Z.mod_small _ (2 ^ 64)) by lia. destruct (64 <=? _); [|by rewrite Z.sub_0_r].
    rewrite lor_shift, Hmod by lia.
    replace (leb_value bs + (2 ^ 64 - 1) * 2 ^ s)
      with (leb_value bs - 2 ^ s + 2 ^ (64 - maxbits) * 2 ^ s * 2 ^ maxbits).
    { by rewrite Z.mod_add by lia. }
    rewrite <- Z.mul_assoc, (Z.mul_comm (2 ^ s)), Z.mul_assoc, <- Z.pow_add_r by lia.
    replace (64 - maxbits + maxbits) with 64 by lia. lia.
  - cbv iota. rewrite Hmod. destruct (64 <=? _); [|by rewrite Z.sub_0_r].
    replace (2 ^ s) with (2 ^ (s - maxbits) * 2 ^ maxbits)
      by (rewrite <- Z.pow_add_r by lia; f_equal; lia).
    rewrite <- (Z.mod_add (leb_value bs - _) (2 ^ (s - maxbits))) by lia. f_equal. lia.
Qed.

(** A string of one byte is read on the spot. *)
Lemma one_byte m p bs : leb_string bs → bytes_at m p bs →
  (Z.land (load_Z m p 1) 0x80 =? 0) = (length bs =? 1)%nat.
Proof.
  intros Hs Hm. destruct (bytes_at_head m p bs Hs Hm) as [-> H].
  assert (0 <= List.hd 0 bs < 256) by (destruct Hs; simpl; lia). rewrite byte_high by done.
  destruct (Z.ltb_spec (List.hd 0 bs) 128), (Nat.eqb_spec (length bs) 1); try done; lia.
Qed.

Lemma one_byte_inv bs : leb_string bs → (length bs =? 1)%nat = true →
  ∃ b, bs = [b] ∧ 0 <= b < 128.
Proof.
  intros Hs Hl%Nat.eqb_eq. destruct Hs as [b Hb|b bs Hb Hs]; [by exists b|].
  pose proof (leb_string_length _ Hs). simpl in Hl. lia.
Qed.

Lemma sign_byte b hi w :
  0 <= b < 128 → 7 <= w → hi = 2 ^ w - 128 →
  swrap w (if negb (Z.land b 0x40 =? 0) then Z.lor b hi else b) = swrap w (leb_signed [b]).
Proof.
  intros Hb Hw ->. rewrite byte_sign by done. unfold leb_signed. cbn [List.last leb_value length].
  rewrite (Z.mod_small b) by lia. apply swrap_mod. destruct (64 <=? b); [|f_equal; lia].
  assert (2 ^ w = 2 ^ (w - 7) * 2 ^ 7) as E by (rewrite <- Z.pow_add_r by lia; f_equal; lia).
  rewrite Z.lor_comm, (lor_low _ _ 7); [|lia| |lia].
  - change (128 ^ Z.of_nat 1) with 128. rewrite <- (Z.mod_add (b + _ - 128) 1) by lia. f_equal. lia.
  - rewrite E. replace (2 ^ (w - 7) * 2 ^ 7 - 128) with ((2 ^ (w - 7) - 1) * 2 ^ 7) by lia.
    apply Z.mod_mul. lia.
Qed.

Lemma leb_uint32_ok m p bs :
  leb_string bs → bytes_at m p bs → (length bs <= 10)%nat →
  leb_uint32 m p = Some (uint32 (leb_value bs), p + Z.of_nat (length bs)).
Proof.
  intros Hs Hm Hl. unfold leb_uint32. rewrite (one_byte m p bs) by done.
  destruct (length bs =? 1)%nat eqn:E1.
  - destruct (one_byte_inv _ Hs E1) as (b&->&Hb). destruct Hm as [-> _].
    cbn [leb_value length]. rewrite (Z.mod_small b) by lia. unfold uint32. rewrite wrap_small by lia.
    do 2 f_equal. lia.
  - destruct (read_leb_ok m p 32 false bs) as (r&->&E); [done|done|done|lia|].
    unfold uint32, wrap. by rewrite E.
Qed.

Lemma leb_int32_ok m p bs :
  leb_string bs → bytes_at m p bs → (length bs <= 10)%nat →
  leb_int32 m p = Some (int32 (leb_signed bs), p + Z.of_nat (length bs)).
Proof.
  intros Hs Hm Hl. unfold leb_int32. rewrite (one_byte m p bs) by done.
  destruct (length bs =? 1)%nat eqn:E1.
  - destruct (one_byte_inv _ Hs E1) as (b&->&Hb). destruct Hm as [-> _].
    unfold int32. rewrite (sign_byte b _ 32) by done || lia. done.
  - destruct (read_leb_ok m p 32 true bs) as (r&->&E); [done|done|done|lia|].
    unfold int32. by rewrite (swrap_mod 32 _ _ E).
Qed.

Lemma leb_int64_ok m p bs :
  leb_string bs → bytes_at m p bs → (length bs <= 10)%nat →
  leb_int64 m p = Some (swrap 64 (leb_signed bs), p + Z.of_nat (length bs)).
Proof.
  intros Hs Hm Hl. unfold leb_int64. rewrite (one_byte m p bs) by done.
  destruct (length bs =? 1)%nat eqn:E1.
  - destruct (one_byte_inv _ Hs E1) as (b&->&Hb). destruct Hm as [-> _].
    rewrite (sign_byte b _ 64) by done || lia. done.
  - destruct (read_leb_ok m p 64 true bs) as (r&->&E); [done|done|done|lia|].
    by rewrite (swrap_mod 64 _ _ E).
Qed.

Lemma skip_leb_ok m p bs :
  leb_string bs → bytes_at m p bs → (length bs <= 10)%nat →
  skip_leb m p = Some (p + Z.of_nat (length bs)).
Proof.
  intros Hs Hm Hl. unfold skip_leb. set (turn := fun p => _).
  assert (∃ q, turns turn (length bs - 1) p q ∧ turn q = inr (p + Z.of_nat (length bs))) as (q&H1&H2).
  { clear Hl. revert p Hm. induction Hs as [b Hb|b bs Hb Hs IH]; intros p [Hm0 Hm].
    - exists p. split; [constructor|]. unfold turn. by rewrite Hm0, byte_high, (proj2 (Z.ltb_lt _ _)) by lia.
    - destruct (IH (p + 1) Hm) as (q&H1&H2). exists q. pose proof (leb_string_length _ Hs). split.
      + replace (length (b :: bs) - 1)%nat with (S (length bs - 1)) by (simpl; lia).
        econstructor; [|exact H1]. unfold turn. by rewrite Hm0, byte_high, (proj2 (Z.ltb_ge _ _)) by lia.
      + rewrite H2. simpl. f_equal. lia. }
  rewrite (loop_pow_turns turn 64 _ _ _ _ H1 H2); [done|].
  eapply Nat.lt_le_trans; [|apply (Nat.pow_le_mono_r 2 4 64); lia]. simpl. lia.
Qed.

(** * The encoders *)

Lemma leb_signed_cons b bs : bs ≠ [] → leb_signed (b :: bs) = b mod 128 + 128 * leb_signed bs.
Proof.
  intros Hn. destruct bs as [|b' bs]; [done|]. unfold leb_signed.
  change (List.last (b :: b' :: bs) 0) with (List.last (b' :: bs) 0).
  cbn [leb_value]. change (length (b :: b' :: bs)) with (S (length (b' :: bs))).
  rewrite Nat2Z.inj_succ, Z.pow_succ_r by lia. destruct (64 <=? _); lia.
Qed.

Lemma uleb_ok fuel : ∀ n, 0 <= n < 128 ^ Z.of_nat fuel → (0 < fuel)%nat →
  leb_string (uleb fuel n) ∧ leb_value (uleb fuel n) = n ∧ (length (uleb fuel n) <= fuel)%nat.
Proof.
  induction fuel as [|fuel IH]; intros n Hn Hf; [lia|]. cbn [uleb].
  destruct (Z.ltb_spec n 128).
  - split_and!; [constructor; lia|cbn [leb_value]; lia|simpl; lia].
  - rewrite Nat2Z.inj_succ, Z.pow_succ_r in Hn by lia.
    destruct (IH (n / 128)) as (H1&H2&H3); [lia| |].
    { destruct fuel; [simpl in Hn; lia|lia]. }
    split_and!; [constructor; [lia|done]|cbn [leb_value]; rewrite H2; lia|simpl; lia].
Qed.

Lemma sleb_step fuel n :
  sleb (S fuel) n
  = if (-64 <=? n) && (n <? 64) then [n mod 128] else (n mod 128 + 128) :: sleb fuel (n / 128).
Proof. done. Qed.

Lemma sleb_ok fuel : ∀ n,
  - (64 * 128 ^ Z.of_nat fuel) <= n < 64 * 128 ^ Z.of_nat fuel →
  leb_string (sleb (S fuel) n) ∧ leb_signed (sleb (S fuel) n) = n
  ∧ (length (sleb (S fuel) n) <= S fuel)%nat.
Proof.
  induction fuel as [|fuel IH]; intros n Hn; rewrite sleb_step;
    destruct ((-64 <=? n) && (n <? 64)) eqn:E.
  1, 3: zbool; split_and!; [constructor; lia| |simpl; lia]; unfold leb_signed;
    cbn [List.last leb_value length]; change (128 ^ Z.of_nat 1) with 128;
    destruct (Z.leb_spec 64 (n mod 128)); lia.
  - simpl in Hn. rewrite (proj2 (Z.leb_le _ _)), (proj2 (Z.ltb_lt _ _)) in E by lia. done.
  - rewrite Nat2Z.inj_succ, Z.pow_succ_r in Hn by lia. destruct (IH (n / 128)) as (H1&H2&H3); [lia|].
    pose proof (leb_string_length _ H1).
    split_and!; [constructor; [lia|exact H1]| |cbn [length]; lia].
    rewrite leb_signed_cons, H2 by (intros E0; rewrite E0 in *; simpl in *; lia). lia.
Qed.

(** * The loader's reader *)

Lemma loader_loop_sound m buf e maxbits : ∀ fuel off bcnt r s res,
  loader_leb_loop fuel m buf e maxbits off bcnt r s = Some res →
  ∃ bs, leb_string bs ∧ bytes_at m (buf + off) bs ∧ bcnt + Z.of_nat (length bs) <= (maxbits + 6) / 7
    ∧ buf + off + Z.of_nat (length bs) <= e
    ∧ read_leb_loop (length bs) m buf off r s = Some res.
Proof.
  induction fuel as [|fuel IH]; intros off bcnt r s res H; cbn [loader_leb_loop] in H; [done|].
  destruct (_ <? _) eqn:E1; [done|]. unfold check_buf in H.
  destruct (e <? _) eqn:E2; [done|]. simpl negb in H. cbv iota in H. zbool.
  pose proof (load_Z_range m (buf + off) 1 ltac:(lia)) as Hb. change (256 ^ 1) with 256 in Hb.
  set (b := load_Z m (buf + off) 1) in *. destruct (Z.land b 0x80 =? 0) eqn:E3.
  - exists [b]. rewrite byte_high in E3 by done. zbool.
    split_and!; [constructor; lia|by split|simpl; lia|simpl; lia|].
    cbn [length read_leb_loop]. fold b. by rewrite byte_high, (proj2 (Z.ltb_lt _ _)) by lia.
  - destruct (IH _ _ _ _ _ H) as (bs&H1&H2&H3&H4&H5). rewrite byte_high in E3 by done. zbool.
    exists (b :: bs). split_and!; [constructor; [lia|done]| |simpl; lia|simpl; lia|].
    + split; [done|]. by rewrite <- Z.add_assoc.
    + cbn [length read_leb_loop]. fold b. by rewrite byte_high, (proj2 (Z.ltb_ge _ _)) by lia.
Qed.

Lemma loader_loop_complete m buf e maxbits bs : leb_string bs → ∀ fuel off bcnt r s,
  bytes_at m (buf + off) bs → (length bs <= fuel)%nat →
  bcnt + Z.of_nat (length bs) <= (maxbits + 6) / 7 → buf + off + Z.of_nat (length bs) <= e →
  loader_leb_loop fuel m buf e maxbits off bcnt r s = read_leb_loop (length bs) m buf off r s.
Proof.
  induction 1 as [b Hb|b bs Hb Hbs IH]; intros [|fuel] off bcnt r s [Hm0 Hm] Hf Hc He;
    try (simpl in Hf; lia); cbn [loader_leb_loop length read_leb_loop]; simpl in Hf, Hc, He.
  all: rewrite (proj2 (Z.ltb_ge _ _)) by lia; unfold check_buf; rewrite (proj2 (Z.ltb_ge _ _)) by lia;
    simpl negb; cbv iota; rewrite Hm0, byte_high by lia.
  - by rewrite (proj2 (Z.ltb_lt _ _)) by lia.
  - rewrite (proj2 (Z.ltb_ge _ _)) by lia. apply IH; [by rewrite Z.add_assoc|lia..].
Qed.

(** ** The range check of the last byte *)

(** The three kinds of integers the loader reads. *)
Definition leb_kind (maxbits : Z) (sign : bool) : Prop :=
  (maxbits = 32 ∧ sign = false) ∨ (maxbits = 32 ∧ sign = true) ∨ (maxbits = 64 ∧ sign = true).

Definition leb_number (sign : bool) (bs : list Z) : Z :=
  if sign then leb_signed bs else leb_value bs.

Definition leb_fits (maxbits : Z) (sign : bool) (v : Z) : bool :=
  if sign then (- 2 ^ (maxbits - 1) <=? v) && (v <? 2 ^ (maxbits - 1)) else v <? 2 ^ maxbits.

(** What a variable of the kind holds after [res = (type)res64]. *)
Definition leb_cast (maxbits : Z) (sign : bool) (r : Z) : Z :=
  if sign then swrap maxbits r else wrap maxbits r.

Lemma byte_cases (f : Z → bool) : forallb f (map Z.of_nat (seq 0 128)) = true →
  ∀ b, 0 <= b < 128 → f b = true.
Proof.
  intros H b Hb. rewrite forallb_forall in H. apply H. rewrite in_map_iff.
  exists (Z.to_nat b). split; [lia|]. apply in_seq. lia.
Qed.

Lemma top_u32 b : 0 <= b < 128 → (Z.land b 0xf0 =? 0) = (b <? 16).
Proof.
  intros Hb. apply Bool.eqb_prop. revert b Hb. apply byte_cases. by vm_compute.
Qed.

Lemma top_s32 b : 0 <= b < 128 → top_bits_ok b 0x8 0xf0 0x70 = (b <? 8) || (120 <=? b).
Proof.
  intros Hb. apply Bool.eqb_prop. revert b Hb. apply byte_cases. by vm_compute.
Qed.

Lemma top_s64 b : 0 <= b < 128 → top_bits_ok b 0x1 0xfe 0x7e = (b <? 1) || (127 <=? b).
Proof.
  intros Hb. apply Bool.eqb_prop. revert b Hb. apply byte_cases. by vm_compute.
Qed.

(** A string that leaves room in the word fits. *)
Lemma leb_short bs maxbits sign :
  leb_string bs → 7 * Z.of_nat (length bs) < maxbits → leb_fits maxbits sign (leb_number sign bs) = true.
Proof.
  intros Hs Hl. pose proof (leb_string_length _ Hs). pose proof (leb_string_last _ Hs).
  destruct (leb_value_last _ Hs) as (r&E&Hr).
  set (k := Z.of_nat (length bs - 1)) in *.
  assert (128 ^ Z.of_nat (length bs) = 128 * 128 ^ k) as Ek by (rewrite <- Z.pow_succ_r by lia; f_equal; lia).
  assert (64 * 128 ^ k <= 2 ^ (maxbits - 1)).
  { unfold k. rewrite pow128. change 64 with (2 ^ 6). rewrite <- Z.pow_add_r by lia.
    apply Z.pow_le_mono_r; lia. }
  assert (2 ^ maxbits = 2 * 2 ^ (maxbits - 1)) by (rewrite <- Z.pow_succ_r by lia; f_equal; lia).
  unfold leb_fits, leb_number, leb_signed. rewrite Ek, E. set (x := List.last bs 0) in *.
  destruct sign; [|apply Z.ltb_lt; nia].
  apply andb_true_intro. rewrite Z.leb_le, Z.ltb_lt. destruct (Z.leb_spec 64 x); nia.
Qed.

Lemma leb_full32 bs sign :
  leb_string bs → length bs = 5%nat →
  leb_fits 32 sign (leb_number sign bs)
  = if sign then top_bits_ok (List.last bs 0) 0x8 0xf0 0x70 else Z.land (List.last bs 0) 0xf0 =? 0.
Proof.
  intros Hs Hl. pose proof (leb_string_last _ Hs). destruct (leb_value_last _ Hs) as (r&E&Hr).
  rewrite top_u32, top_s32 by done. unfold leb_fits, leb_number, leb_signed. rewrite E, Hl in *.
  change (128 ^ Z.of_nat (5 - 1)) with (2 ^ 28) in *. change (128 ^ Z.of_nat 5) with (2 ^ 35).
  set (x := List.last bs 0) in *. destruct sign.
  - apply Bool.eq_iff_eq_true. rewrite andb_true_iff, orb_true_iff, !Z.leb_le, !Z.ltb_lt.
    destruct (Z.leb_spec 64 x); lia.
  - apply Bool.eq_iff_eq_true. rewrite !Z.ltb_lt. lia.
Qed.

Lemma leb_full64 bs :
  leb_string bs → length bs = 10%nat →
  leb_fits 64 true (leb_number true bs) = top_bits_ok (List.last bs 0) 0x1 0xfe 0x7e.
Proof.
  intros Hs Hl. pose proof (leb_string_last _ Hs). destruct (leb_value_last _ Hs) as (r&E&Hr).
  rewrite top_s64 by done. unfold leb_fits, leb_number, leb_signed. rewrite E, Hl in *.
  change (128 ^ Z.of_nat (10 - 1)) with (2 ^ 63) in *. change (128 ^ Z.of_nat 10) with (2 ^ 70).
  set (x := List.last bs 0) in *.
  apply Bool.eq_iff_eq_true. rewrite andb_true_iff, orb_true_iff, !Z.leb_le, !Z.ltb_lt.
  destruct (Z.leb_spec 64 x); lia.
Qed.

(** ** What the loader accepts *)

Lemma leb_cast_mod maxbits sign a b :
  a mod 2 ^ maxbits = b mod 2 ^ maxbits → leb_cast maxbits sign a = leb_cast maxbits sign b.
Proof. intros E. unfold leb_cast. destruct sign; [by apply swrap_mod|exact E]. Qed.

Lemma leb_cast_fits maxbits sign v :
  0 < maxbits → leb_fits maxbits sign v = true → (sign = false → 0 <= v) → leb_cast maxbits sign v = v.
Proof.
  intros Hm. unfold leb_fits, leb_cast. destruct sign; intros Hf Hv; zbool.
  - apply swrap_small; lia.
  - apply wrap_small. split; [by apply Hv|done].
Qed.

Lemma leb_number_mod n bs sign maxbits :
  n = 7 * Z.of_nat (length bs) → 0 <= maxbits <= n →
  leb_number sign bs mod 2 ^ maxbits = leb_value bs mod 2 ^ maxbits.
Proof.
  intros -> Hn. unfold leb_number, leb_signed. destruct sign; [|done].
  destruct (64 <=? _); [|by rewrite Z.sub_0_r]. rewrite pow128. set (s := 7 * _) in *.
  replace (2 ^ s) with (2 ^ (s - maxbits) * 2 ^ maxbits)
    by (rewrite <- Z.pow_add_r by lia; f_equal; lia).
  rewrite <- (Z.mod_add (leb_value bs - _) (2 ^ (s - maxbits))) by lia. f_equal. lia.
Qed.

(** The reader on a string that has the right length: a value that fits, or
    nothing. *)
Lemma loader_read_leb_string m p e maxbits sign bs :
  leb_kind maxbits sign → leb_string bs → bytes_at m p bs →
  Z.of_nat (length bs) <= (maxbits + 6) / 7 → p + Z.of_nat (length bs) <= e →
  ∃ r, loader_read_leb m p e maxbits sign
       = (if leb_fits maxbits sign (leb_number sign bs)
          then Some (r, p + Z.of_nat (length bs)) else None)
    ∧ leb_cast maxbits sign r = leb_cast maxbits sign (leb_number sign bs).
Proof.
  intros Hk Hs Hm Hl He. pose proof (leb_string_length _ Hs).
  assert (0 < maxbits <= 64 ∧ (length bs <= 10)%nat) as [Hb Hl10].
  { destruct Hk as [[-> _]|[[-> _]|[-> _]]]; cbn in Hl; lia. }
  destruct (read_leb_ok m p maxbits sign bs) as (x&Hx&Ex); [done..|lia|].
  assert (loader_leb_loop 11 m p e maxbits 0 0 0 0 = read_leb_loop 10 m p 0 0 0) as Hloop.
  { rewrite (loader_loop_complete m p e maxbits bs Hs) by (rewrite ?Z.add_0_r; done || lia).
    pose proof (λ f, read_leb_loop_ok m p bs Hs f 0 0 0) as Hf. change (7 * Z.of_nat 0) with 0 in Hf.
    rewrite !Hf by (rewrite ?Z.add_0_r; simpl; lia || done). done. }
  unfold loader_read_leb. rewrite Hloop. unfold read_leb in Hx.
  pose proof (read_leb_loop_ok m p bs Hs 10 0 0 0) as H10. change (7 * Z.of_nat 0) with 0 in H10.
  rewrite H10 in Hx |- * by (rewrite ?Z.add_0_r; simpl; lia || done). clear H10 Hloop.
  rewrite Z.mul_1_r, !Z.add_0_l in *. cbn [Nat.add] in *. set (s := 7 * Z.of_nat (length bs)) in *.
  assert (leb_value bs mod 2 ^ 64 mod 2 ^ maxbits = leb_value bs mod 2 ^ maxbits) as Hmod.
  { apply Z.mod_mod_divide. exists (2 ^ (64 - maxbits)). rewrite <- Z.pow_add_r by lia. f_equal. lia. }
  injection Hx as Hx. destruct (s <? maxbits) eqn:Es; rewrite ?Es in Hx; zbool.
  - rewrite leb_short by done. rewrite (proj2 (Z.leb_gt maxbits s)) by lia. exists x.
    split; [|by apply leb_cast_mod]. rewrite <- Hx.
    destruct Hk as [[-> ->]|[[-> ->]|[-> ->]]]; simpl; by destruct (negb _).
  - rewrite (proj2 (Z.leb_le maxbits s)) by lia. exists (leb_value bs mod 2 ^ 64). split.
    + clear Hx. destruct Hk as [[-> ->]|[[-> ->]|[-> ->]]]; cbn in Hl.
      * rewrite leb_full32 by (done || lia). rewrite Z.eqb_refl. cbn [negb andb].
        by destruct (Z.land _ _ =? 0).
      * rewrite leb_full32 by (done || lia). rewrite Z.eqb_refl. cbn [negb andb].
        by destruct (top_bits_ok _ _ _ _).
      * rewrite leb_full64 by (done || lia). rewrite Z.eqb_refl. change (64 =? 32) with false.
        cbn [negb andb]. by destruct (top_bits_ok _ _ _ _).
    + apply leb_cast_mod. rewrite Hmod. by rewrite (leb_number_mod s) by (done || lia).
Qed.

(** The reader of the interpreter for each kind. *)
Definition interp_leb (maxbits : Z) (sign : bool) (m : mem) (p : Z) : option (Z * Z) :=
  if sign then if maxbits =? 32 then leb_int32 m p else leb_int64 m p else leb_uint32 m p.

Lemma leb_number_nonneg bs sign : sign = false → 0 <= leb_number sign bs.
Proof. intros ->. apply leb_value_bound. Qed.

Lemma interp_leb_ok m p maxbits sign bs :
  leb_kind maxbits sign → leb_string bs → bytes_at m p bs → (length bs <= 10)%nat →
  interp_leb maxbits sign m p
  = Some (leb_cast maxbits sign (leb_number sign bs), p + Z.of_nat (length bs)).
Proof.
  intros [[-> ->]|[[-> ->]|[-> ->]]] Hs Hm Hl; unfold interp_leb; cbn [Z.eqb];
    [by apply leb_uint32_ok|by apply leb_int32_ok|by apply leb_int64_ok].
Qed.

(** * Theorems *)

(** C28: the loader reads an integer exactly when the bytes before the end of the
    section are a string of at most [ceil(N/7)] bytes whose value fits the type;
    it gives that value and the address behind the string, and the reader of the
    interpreter, which checks nothing, then reads the same. *)
Theorem loader_read_leb_exact m p e maxbits sign v q :
  leb_kind maxbits sign →
  (∃ r, loader_read_leb m p e maxbits sign = Some (r, q) ∧ leb_cast maxbits sign r = v)
  ↔ ∃ bs, leb_string bs ∧ bytes_at m p bs ∧ Z.of_nat (length bs) <= (maxbits + 6) / 7
      ∧ q = p + Z.of_nat (length bs) ∧ q <= e
      ∧ v = leb_number sign bs ∧ leb_fits maxbits sign v = true
      ∧ interp_leb maxbits sign m p = Some (v, q).
Proof.
  intros Hk. assert (0 < maxbits <= 64) by (destruct Hk as [[-> _]|[[-> _]|[-> _]]]; lia). split.
  - intros (r&Hr&<-). pose proof Hr as Hr'. unfold loader_read_leb in Hr'.
    destruct (loader_leb_loop 11 m p e maxbits 0 0 0 0) as [res|] eqn:El; [clear Hr'|done].
    apply loader_loop_sound in El as (bs&Hs&Hm&Hl&He&_). rewrite Z.add_0_r, Z.add_0_l in *.
    destruct (loader_read_leb_string m p e maxbits sign bs) as (r'&E&Ec); [done..|].
    rewrite Hr in E. destruct (leb_fits _ _ _) eqn:Ef; [|done]. simplify_eq.
    assert (leb_cast maxbits sign (leb_number sign bs) = leb_number sign bs) as Ev
      by (apply leb_cast_fits; [lia|done|apply leb_number_nonneg]).
    exists bs. rewrite Ec. split_and!; try done; rewrite ?Ev; try done.
    rewrite (interp_leb_ok m p maxbits sign bs), Ev; try done.
    assert ((maxbits + 6) / 7 <= 10) by (apply Z.div_le_upper_bound; lia). lia.
  - intros (bs&Hs&Hm&Hl&->&He&->&Hf&_).
    destruct (loader_read_leb_string m p e maxbits sign bs) as (r&E&Ec); [done..|].
    exists r. rewrite E, Hf, Ec. split; [done|]. apply leb_cast_fits; [lia|done|apply leb_number_nonneg].
Qed.

(** The byte strings 0xE5 0x8E 0x26 (624485) and 0x9B 0xF1 0x59 (-624485). *)
Definition sample_leb : mem := store ∅ 100 (map Z_byte [0xE5; 0x8E; 0x26; 0x9B; 0xF1; 0x59]).

Lemma loader_read_leb_exact_witness :
  ∃ bs, leb_string bs ∧ bytes_at sample_leb 103 bs ∧ leb_number true bs = -624485
    ∧ interp_leb 32 true sample_leb 103 = Some (-624485, 106).
Proof.
  destruct (loader_read_leb_exact sample_leb 103 106 32 true (-624485) 106) as [H _].
  { right. left. done. }
  destruct H as (bs&H1&H2&_&_&_&H3&_&H4).
  { exists (2 ^ 64 - 624485). split; by vm_compute. }
  exists bs. split_and!; [exact H1|exact H2|by rewrite <- H3|exact H4].
Defined.

(** C29: the shortest encoding of an integer of 32 or 64 bits is read back by the
    interpreter, whatever follows it. *)
Theorem leb_roundtrip m p n :
  (0 <= n < 2 ^ 32 → bytes_at m p (uleb 5 n) →
     leb_uint32 m p = Some (n, p + Z.of_nat (length (uleb 5 n))))
  ∧ (- 2 ^ 31 <= n < 2 ^ 31 → bytes_at m p (sleb 5 n) →
     leb_int32 m p = Some (n, p + Z.of_nat (length (sleb 5 n))))
  ∧ (- 2 ^ 63 <= n < 2 ^ 63 → bytes_at m p (sleb 10 n) →
     leb_int64 m p = Some (n, p + Z.of_nat (length (sleb 10 n)))).
Proof.
  split_and!; intros Hn Hm.
  - destruct (uleb_ok 5 n) as (H1&H2&H3); [change (128 ^ Z.of_nat 5) with (2 ^ 35); lia|lia|].
    rewrite (leb_uint32_ok m p (uleb 5 n)), H2 by (done || lia). unfold uint32. by rewrite wrap_small by lia.
  - destruct (sleb_ok 4 n) as (H1&H2&H3); [change (128 ^ Z.of_nat 4) with (2 ^ 28); lia|].
    rewrite (leb_int32_ok m p (sleb 5 n)), H2 by (done || lia). unfold int32. by rewrite swrap_small by lia.
  - destruct (sleb_ok 9 n) as (H1&H2&H3); [change (128 ^ Z.of_nat 9) with (2 ^ 63); lia|].
    rewrite (leb_int64_ok m p (sleb 10 n)), H2 by (done || lia). by rewrite swrap_small by lia.
Qed.

Lemma leb_roundtrip_witness :
  let m := store ∅ 100 (map Z_byte (uleb 5 624485 ++ sleb 5 (-624485))) in
  leb_uint32 m 100 = Some (624485, 103) ∧ leb_int32 m 103 = Some (-624485, 106).
Proof.
  intros m. split.
  - apply (leb_roundtrip m 100 624485); [lia|by vm_compute].
  - apply (leb_roundtrip m 103 (-624485)); [lia|by vm_compute].
Defined.
