(* ===== verification/FindBlock.v ===== *)
(** [wasm_loader_find_block_addr] (wasm_loader.c): the addresses of the [else] and
    the [end] of a block, found by scanning the code from the start of the block
    and kept in a cache of the execution environment; on structured code the
    scan finds the matching ones, and the cache only holds real blocks. *)
From stdpp Require Import base gmap list numbers strings.
From Stdlib Require Import Strings.Byte ZArith Lia.
From S2P Require Import Prelude CMemory WasmTypes PoolInfo Format Opcodes Loop Leb.

(** * The immediates of an instruction *)

(** A skip ends at an address, jumps to [fail] or returns [false] ([Fail]), or
    runs over the whole address space ([Lost]). *)
Inductive imm_end := At (p : Z) | Fail | Lost.

Definition imm_then (r : imm_end) (k : Z → imm_end) : imm_end :=
  match r with At p => k p | r => r end.

Definition skip_leb_at (m : mem) (p : Z) : imm_end :=
  match skip_leb m p with Some p => At p | None => Lost end.

(** [read_leb_uint32] of the loader. *)
Definition loader_leb_uint32 (m : mem) (p p_end : Z) : option (Z * Z) :=
  match loader_read_leb m p p_end 32 false with
  | Some (res64, p) => Some (uint32 res64, p)
  | None => None
  end.

(** [for (i = 0; i <= count; i++) skip_leb_uint32(p, p_end)]. *)
Definition skip_labels (m : mem) (count p : Z) : imm_end :=
  match loop_pow 64 (fun '(i, p) =>
          if i <=? count
          then match skip_leb_at m p with At p => inl (uint32 (i + 1), p) | r => inr r end
          else inr (At p)) (0, p) with
  | inr r => r
  | inl _ => Lost
  end.

(** The comparison, arithmetic and conversion instructions, which have none. *)
Definition numeric_instr (op : WASMOpcode) : bool :=
  match op with
  | WASM_OP_I32_EQZ | WASM_OP_I32_EQ | WASM_OP_I32_NE | WASM_OP_I32_LT_S | WASM_OP_I32_LT_U
  | WASM_OP_I32_GT_S | WASM_OP_I32_GT_U | WASM_OP_I32_LE_S | WASM_OP_I32_LE_U | WASM_OP_I32_GE_S
  | WASM_OP_I32_GE_U | WASM_OP_I64_EQZ | WASM_OP_I64_EQ | WASM_OP_I64_NE | WASM_OP_I64_LT_S
  | WASM_OP_I64_LT_U | WASM_OP_I64_GT_S | WASM_OP_I64_GT_U | WASM_OP_I64_LE_S | WASM_OP_I64_LE_U
  | WASM_OP_I64_GE_S | WASM_OP_I64_GE_U | WASM_OP_F32_EQ | WASM_OP_F32_NE | WASM_OP_F32_LT
  | WASM_OP_F32_GT | WASM_OP_F32_LE | WASM_OP_F32_GE | WASM_OP_F64_EQ | WASM_OP_F64_NE
  | WASM_OP_F64_LT | WASM_OP_F64_GT | WASM_OP_F64_LE | WASM_OP_F64_GE | WASM_OP_I32_CLZ
  | WASM_OP_I32_CTZ | WASM_OP_I32_POPCNT | WASM_OP_I32_ADD | WASM_OP_I32_SUB | WASM_OP_I32_MUL
  | WASM_OP_I32_DIV_S | WASM_OP_I32_DIV_U | WASM_OP_I32_REM_S | WASM_OP_I32_REM_U
  | WASM_OP_I32_AND | WASM_OP_I32_OR | WASM_OP_I32_XOR | WASM_OP_I32_SHL | WASM_OP_I32_SHR_S
  | WASM_OP_I32_SHR_U | WASM_OP_I32_ROTL | WASM_OP_I32_ROTR | WASM_OP_I64_CLZ | WASM_OP_I64_CTZ
  | WASM_OP_I64_POPCNT | WASM_OP_I64_ADD | WASM_OP_I64_SUB | WASM_OP_I64_MUL | WASM_OP_I64_DIV_S
  | WASM_OP_I64_DIV_U | WASM_OP_I64_REM_S | WASM_OP_I64_REM_U | WASM_OP_I64_AND | WASM_OP_I64_OR
  | WASM_OP_I64_XOR | WASM_OP_I64_SHL | WASM_OP_I64_SHR_S | WASM_OP_I64_SHR_U | WASM_OP_I64_ROTL
  | WASM_OP_I64_ROTR | WASM_OP_F32_ABS | WASM_OP_F32_NEG | WASM_OP_F32_CEIL | WASM_OP_F32_FLOOR
  | WASM_OP_F32_TRUNC | WASM_OP_F32_NEAREST | WASM_OP_F32_SQRT | WASM_OP_F32_ADD | WASM_OP_F32_SUB
  | WASM_OP_F32_MUL | WASM_OP_F32_DIV | WASM_OP_F32_MIN | WASM_OP_F32_MAX | WASM_OP_F32_COPYSIGN
  | WASM_OP_F64_ABS | WASM_OP_F64_NEG | WASM_OP_F64_CEIL | WASM_OP_F64_FLOOR | WASM_OP_F64_TRUNC
  | WASM_OP_F64_NEAREST | WASM_OP_F64_SQRT | WASM_OP_F64_ADD | WASM_OP_F64_SUB | WASM_OP_F64_MUL
  | WASM_OP_F64_DIV | WASM_OP_F64_MIN | WASM_OP_F64_MAX | WASM_OP_F64_COPYSIGN
  | WASM_OP_I32_WRAP_I64 | WASM_OP_I32_TRUNC_S_F32 | WASM_OP_I32_TRUNC_U_F32
  | WASM_OP_I32_TRUNC_S_F64 | WASM_OP_I32_TRUNC_U_F64 | WASM_OP_I64_EXTEND_S_I32
  | WASM_OP_I64_EXTEND_U_I32 | WASM_OP_I64_TRUNC_S_F32 | WASM_OP_I64_TRUNC_U_F32
  | WASM_OP_I64_TRUNC_S_F64 | WASM_OP_I64_TRUNC_U_F64 | WASM_OP_F32_CONVERT_S_I32
  | WASM_OP_F32_CONVERT_U_I32 | WASM_OP_F32_CONVERT_S_I64 | WASM_OP_F32_CONVERT_U_I64
  | WASM_OP_F32_DEMOTE_F64 | WASM_OP_F64_CONVERT_S_I32 | WASM_OP_F64_CONVERT_U_I32
  | WASM_OP_F64_CONVERT_S_I64 | WASM_OP_F64_CONVERT_U_I64 | WASM_OP_F64_PROMOTE_F32
  | WASM_OP_I32_REINTERPRET_F32 | WASM_OP_I64_REINTERPRET_F64 | WASM_OP_F32_REINTERPRET_I32
  | WASM_OP_F64_REINTERPRET_I64 | WASM_OP_I32_EXTEND8_S | WASM_OP_I32_EXTEND16_S
  | WASM_OP_I64_EXTEND8_S | WASM_OP_I64_EXTEND16_S | WASM_OP_I64_EXTEND32_S => true
  | _ => false
  end.

(** The cases of the [switch] that only move [p]. *)
Definition skip_immediates (m : mem) (p_end : Z) (op : WASMOpcode) (p : Z) : imm_end :=
  match op with
  | WASM_OP_UNREACHABLE | WASM_OP_NOP => At p
  | WASM_OP_BR | WASM_OP_BR_IF => skip_leb_at m p
  | WASM_OP_BR_TABLE =>
      match loader_leb_uint32 m p p_end with
      | None => Fail
      | Some (count, p) => skip_labels m count p
      end
  | WASM_OP_RETURN => At p
  | WASM_OP_CALL => skip_leb_at m p
  | WASM_OP_CALL_INDIRECT =>
      imm_then (skip_leb_at m p) (fun p => if check_buf p p_end 1 then At (p + 1) else Fail)
  | WASM_OP_DROP | WASM_OP_SELECT | WASM_OP_DROP_64 | WASM_OP_SELECT_64 => At p
  | WASM_OP_GET_LOCAL | WASM_OP_SET_LOCAL | WASM_OP_TEE_LOCAL | WASM_OP_GET_GLOBAL
  | WASM_OP_SET_GLOBAL | WASM_OP_GET_GLOBAL_64 | WASM_OP_SET_GLOBAL_64
  | WASM_OP_SET_GLOBAL_AUX_STACK => skip_leb_at m p
  | EXT_OP_GET_LOCAL_FAST | EXT_OP_SET_LOCAL_FAST | EXT_OP_TEE_LOCAL_FAST =>
      if check_buf p p_end 1 then At (p + 1) else Fail
  | WASM_OP_I32_LOAD | WASM_OP_I64_LOAD | WASM_OP_F32_LOAD | WASM_OP_F64_LOAD
  | WASM_OP_I32_LOAD8_S | WASM_OP_I32_LOAD8_U | WASM_OP_I32_LOAD16_S | WASM_OP_I32_LOAD16_U
  | WASM_OP_I64_LOAD8_S | WASM_OP_I64_LOAD8_U | WASM_OP_I64_LOAD16_S | WASM_OP_I64_LOAD16_U
  | WASM_OP_I64_LOAD32_S | WASM_OP_I64_LOAD32_U | WASM_OP_I32_STORE | WASM_OP_I64_STORE
  | WASM_OP_F32_STORE | WASM_OP_F64_STORE | WASM_OP_I32_STORE8 | WASM_OP_I32_STORE16
  | WASM_OP_I64_STORE8 | WASM_OP_I64_STORE16 | WASM_OP_I64_STORE32 =>
      imm_then (skip_leb_at m p) (skip_leb_at m)
  | WASM_OP_MEMORY_SIZE | WASM_OP_MEMORY_GROW => skip_leb_at m p
  | WASM_OP_I32_CONST | WASM_OP_I64_CONST => skip_leb_at m p
  | WASM_OP_F32_CONST => At (p + 4)
  | WASM_OP_F64_CONST => At (p + 8)
  | WASM_OP_MISC_PREFIX =>
      match loader_leb_uint32 m p p_end with
      | None => Fail
      | Some (opcode1, p) =>
          match misc_of opcode1 with
          | Some (WASM_OP_I32_TRUNC_SAT_S_F32 | WASM_OP_I32_TRUNC_SAT_U_F32
                 | WASM_OP_I32_TRUNC_SAT_S_F64 | WASM_OP_I32_TRUNC_SAT_U_F64
                 | WASM_OP_I64_TRUNC_SAT_S_F32 | WASM_OP_I64_TRUNC_SAT_U_F32
                 | WASM_OP_I64_TRUNC_SAT_S_F64 | WASM_OP_I64_TRUNC_SAT_U_F64) => At p
          | _ => Fail
          end
      end
  | _ => if numeric_instr op then At p else Fail
  end.

(** * The scan *)

(** An element of [block_stack]. *)
Record block := mkBlock { b_start : Z; b_else : Z; b_end : Z }.

#[export] Instance block_inhabited : Inhabited block := populate (mkBlock 0 0 0).

Record scan := mkScan {
  s_p : Z;
  s_else : Z;
  s_depth : Z;
  s_stack : list block
}.

Inductive scan_end := Found (else_addr end_addr : Z) (stack : list block) | NotFound | Endless.

(** An entry of the stack, for a depth that the stack has room for. *)
Definition on_block (d : Z) (f : block → block) (l : list block) : list block :=
  if d <? 16 then alter f (Z.to_nat d) l else l.

Definition open_block (p : Z) (s : scan) : scan :=
  mkScan p (s_else s) (uint32 (s_depth s + 1))
    (on_block (s_depth s) (fun b => mkBlock p NULL (b_end b)) (s_stack s)).

Definition scan_turn (m : mem) (code_end_addr label_type : Z) (s : scan) : scan + scan_end :=
  if negb (s_p s <? code_end_addr) then inr NotFound
  else
    let p := s_p s + 1 in
    match opcode_of (load_Z m (s_p s) 1) with
    | Some (WASM_OP_BLOCK | WASM_OP_LOOP | WASM_OP_IF) => inl (open_block (p + 1) s)
    | Some (EXT_OP_BLOCK | EXT_OP_LOOP | EXT_OP_IF) =>
        match skip_leb_at m p with
        | At p => inl (open_block p s)
        | Fail => inr NotFound
        | Lost => inr Endless
        end
    | Some WASM_OP_ELSE =>
        inl (mkScan p (if (label_type =? LABEL_TYPE_IF) && (s_depth s =? 1) then p - 1 else s_else s)
               (s_depth s)
               (on_block (uint32 (s_depth s - 1)) (fun b => mkBlock (b_start b) (p - 1) (b_end b))
                  (s_stack s)))
    | Some WASM_OP_END =>
        if s_depth s =? 1
        then inr (Found (s_else s) (p - 1)
                    (on_block 0 (fun b => mkBlock (b_start b) (b_else b) (p - 1)) (s_stack s)))
        else let depth := uint32 (s_depth s - 1) in
             inl (mkScan p (s_else s) depth
                    (on_block depth (fun b => mkBlock (b_start b) (b_else b) (p - 1)) (s_stack s)))
    | Some op =>
        match skip_immediates m code_end_addr op p with
        | At p => inl (mkScan p (s_else s) (s_depth s) (s_stack s))
        | Fail => inr NotFound
        | Lost => inr Endless
        end
    | None => inr NotFound
    end.

Definition scan_start (start : Z) : scan :=
  mkScan start NULL 1 (mkBlock start NULL NULL :: replicate 15 (mkBlock NULL NULL NULL)).

Definition scan_block (m : mem) (start code_end_addr label_type : Z) : scan_end :=
  match loop_pow 64 (scan_turn m code_end_addr label_type) (scan_start start) with
  | inr r => r
  | inl _ => Endless
  end.

(** * The cache *)

(** [block_addr_cache + BLOCK_ADDR_CONFLICT_SIZE * i], and its elements. *)
Definition cache_line (cache start : Z) : Z :=
  cache + BLOCK_ADDR_CONFLICT_SIZE * Z.land start (BLOCK_ADDR_CACHE_SIZE - 1) * SIZEOF BlockAddr.

(** The first element of the line whose start is [start]. *)
Fixpoint find_slot (line start : Z) (js : list Z) : C (option Z) :=
  match js with
  | [] => mret None
  | j :: js =>
      let* s := ld 8 (FLD (line + j * SIZEOF BlockAddr) BlockAddr "start_addr") in
      if s =? start then mret (Some j) else find_slot line start js
  end.

Definition conflict_slots : list Z := seqZ 0 BLOCK_ADDR_CONFLICT_SIZE.

Definition write_slot (line j : Z) (b : block) : C unit :=
  let e := line + j * SIZEOF BlockAddr in
  st 8 (FLD e BlockAddr "start_addr") (b_start b) ;;;
  st 8 (FLD e BlockAddr "else_addr") (b_else b) ;;;
  st 8 (FLD e BlockAddr "end_addr") (b_end b).

(** [memmove(block + 1, block, (BLOCK_ADDR_CONFLICT_SIZE - 1) * sizeof(BlockAddr))]. *)
Definition shift_line (line : Z) : C unit :=
  modify (fun w =>
    set_mem (store (wmem w) (line + SIZEOF BlockAddr)
               (load (wmem w) line (Z.to_nat ((BLOCK_ADDR_CONFLICT_SIZE - 1) * SIZEOF BlockAddr)))) w).

Definition remember (cache : Z) (b : block) : C unit :=
  let line := cache_line cache (b_start b) in
  let* j := find_slot line NULL conflict_slots in
  match j with
  | Some j => write_slot line j b
  | None => shift_line line ;;; write_slot line 0 b
  end.

(** The loop over [block_stack], up to the first element without a start. *)
Fixpoint remember_all (cache : Z) (stack : list block) : C unit :=
  match stack with
  | [] => skip
  | b :: stack => if b_start b =? NULL then skip else remember cache b ;;; remember_all cache stack
  end.

(** The result is [None] for [false]; [*p_else_addr] is not written when a block
    that is not an [if] is scanned. *)
Definition wasm_loader_find_block_addr (cache start code_end_addr label_type : Z) :
    C (option (option Z * Z)) :=
  let line := cache_line cache start in
  let* hit := find_slot line start conflict_slots in
  match hit with
  | Some j =>
      let e := line + j * SIZEOF BlockAddr in
      let* else_addr := ld 8 (FLD e BlockAddr "else_addr") in
      let* end_addr := ld 8 (FLD e BlockAddr "end_addr") in
      mret (Some (Some else_addr, end_addr))
  | None =>
      let* found := gets (fun w => scan_block (wmem w) start code_end_addr label_type) in
      match found with
      | Found else_addr end_addr stack =>
          remember_all cache stack ;;;
          mret (Some (if label_type =? LABEL_TYPE_IF then Some else_addr else None, end_addr))
      | NotFound => mret None
      | Endless => mstuck
      end
  end.
