(* ===== verification/Blocks.v ===== *)
(** Structured code, and the proof that [wasm_loader_find_block_addr] finds the
    matching [else] and [end] of a block and only remembers real blocks. *)
From stdpp Require Import base gmap list numbers strings.
From Stdlib Require Import Strings.Byte ZArith Lia.
From S2P Require Import Prelude CMemory WasmTypes PoolInfo Format Opcodes Loop Leb FindBlock.

(** * Structured code *)

Definition op_at (m : mem) (p : Z) (op : WASMOpcode) : Prop := opcode_of (load_Z m p 1) = Some op.

(** [n] LEB128 integers, one after the other. *)
Inductive lebs (m : mem) : nat → Z → Z → Prop :=
| lebs_nil p : lebs m 0 p p
| lebs_cons n p bs q : leb_string bs → bytes_at m p bs → (length bs <= 10)%nat →
    lebs m n (p + Z.of_nat (length bs)) q → lebs m (S n) p q.

(** The immediates of an instruction: how many integers, then how many bytes. *)
Definition imm_format (op : WASMOpcode) : option (nat * Z) :=
  match op with
  | WASM_OP_UNREACHABLE | WASM_OP_NOP | WASM_OP_RETURN | WASM_OP_DROP | WASM_OP_SELECT
  | WASM_OP_DROP_64 | WASM_OP_SELECT_64 => Some (0%nat, 0)
  | WASM_OP_BR | WASM_OP_BR_IF | WASM_OP_CALL | WASM_OP_GET_LOCAL | WASM_OP_SET_LOCAL
  | WASM_OP_TEE_LOCAL | WASM_OP_GET_GLOBAL | WASM_OP_SET_GLOBAL | WASM_OP_GET_GLOBAL_64
  | WASM_OP_SET_GLOBAL_64 | WASM_OP_SET_GLOBAL_AUX_STACK | WASM_OP_MEMORY_SIZE
  | WASM_OP_MEMORY_GROW | WASM_OP_I32_CONST | WASM_OP_I64_CONST => Some (1%nat, 0)
  | WASM_OP_CALL_INDIRECT => Some (1%nat, 1)
  | EXT_OP_GET_LOCAL_FAST | EXT_OP_SET_LOCAL_FAST | EXT_OP_TEE_LOCAL_FAST => Some (0%nat, 1)
  | WASM_OP_I32_LOAD | WASM_OP_I64_LOAD | WASM_OP_F32_LOAD | WASM_OP_F64_LOAD
  | WASM_OP_I32_LOAD8_S | WASM_OP_I32_LOAD8_U | WASM_OP_I32_LOAD16_S | WASM_OP_I32_LOAD16_U
  | WASM_OP_I64_LOAD8_S | WASM_OP_I64_LOAD8_U | WASM_OP_I64_LOAD16_S | WASM_OP_I64_LOAD16_U
  | WASM_OP_I64_LOAD32_S | WASM_OP_I64_LOAD32_U | WASM_OP_I32_STORE | WASM_OP_I64_STORE
  | WASM_OP_F32_STORE | WASM_OP_F64_STORE | WASM_OP_I32_STORE8 | WASM_OP_I32_STORE16
  | WASM_OP_I64_STORE8 | WASM_OP_I64_STORE16 | WASM_OP_I64_STORE32 => Some (2%nat, 0)
  | WASM_OP_F32_CONST => Some (0%nat, 4)
  | WASM_OP_F64_CONST => Some (0%nat, 8)
  | _ => if numeric_instr op then Some (0%nat, 0) else None
  end.

(** An instruction that is not part of the block structure. *)
Inductive instr (m : mem) : Z → Z → Prop :=
| instr_plain p op n k q : op_at m p op → imm_format op = Some (n, k) → lebs m n (p + 1) q →
    instr m p (q + k)
| instr_br_table p bs q : op_at m p WASM_OP_BR_TABLE →
    leb_string bs → bytes_at m (p + 1) bs → (length bs <= 5)%nat →
    lebs m (S (Z.to_nat (leb_value bs))) (p + 1 + Z.of_nat (length bs)) q → instr m p q
| instr_misc p bs : op_at m p WASM_OP_MISC_PREFIX →
    leb_string bs → bytes_at m (p + 1) bs → (length bs <= 5)%nat → leb_value bs < 8 →
    instr m p (p + 1 + Z.of_nat (length bs)).

(** The head of a block: opcode and block type. *)
Definition opens (m : mem) (is_if : bool) (p b : Z) : Prop :=
  (∃ op, op_at m p op ∧ b = p + 2
     ∧ (op = WASM_OP_IF ∨ is_if = false ∧ (op = WASM_OP_BLOCK ∨ op = WASM_OP_LOOP)))
  ∨ (∃ op, op_at m p op ∧ lebs m 1 (p + 1) b
       ∧ (op = EXT_OP_IF ∨ is_if = false ∧ (op = EXT_OP_BLOCK ∨ op = EXT_OP_LOOP))).

(** A sequence of instructions with its blocks closed. *)
Inductive code (m : mem) : Z → Z → Prop :=
| code_nil p : code m p p
| code_instr p q r : instr m p q → code m q r → code m p r
| code_block p b e r : opens m false p b → code m b e → op_at m e WASM_OP_END →
    code m (e + 1) r → code m p r
| code_if_else p b x e r : opens m true p b → code m b x → op_at m x WASM_OP_ELSE →
    code m (x + 1) e → op_at m e WASM_OP_END → code m (e + 1) r → code m p r.

(** The block whose code starts at [s]: its [else], or null, and its [end]. *)
Definition block_at (m : mem) (s x e : Z) : Prop :=
  op_at m e WASM_OP_END
  ∧ ((x = NULL ∧ code m s e) ∨ (0 < x ∧ code m s x ∧ op_at m x WASM_OP_ELSE ∧ code m (x + 1) e)).

(** * Skipping *)

Lemma lebs_le m n p q : lebs m n p q → p + Z.of_nat n <= q.
Proof.
  induction 1 as [|n p bs q Hs Hm Hl H IH]; [lia|]. pose proof (leb_string_length _ Hs). lia.
Qed.

Lemma skip_leb_at_ok m p q : lebs m 1 p q → skip_leb_at m p = At q.
Proof.
  intros H. inversion H as [|n p' bs q' Hs Hm Hl H0]; subst. inversion H0; subst.
  unfold skip_leb_at. by rewrite (skip_leb_ok m p bs).
Qed.

Lemma lebs_split m n p q : lebs m (S n) p q → ∃ r, lebs m 1 p r ∧ lebs m n r q.
Proof.
  intros H. inversion H as [|n' p' bs q' Hs Hm Hl H0]; subst.
  eexists. split; [|exact H0]. econstructor; [done..|]. constructor.
Qed.

Lemma loader_leb_uint32_ok m p e bs :
  leb_string bs → bytes_at m p bs → (length bs <= 5)%nat → p + Z.of_nat (length bs) <= e →
  leb_value bs < 2 ^ 32 → loader_leb_uint32 m p e = Some (leb_value bs, p + Z.of_nat (length bs)).
Proof.
  intros Hs Hm Hl He Hv. unfold loader_leb_uint32.
  destruct (loader_read_leb_string m p e 32 false bs) as (r&->&E); [by left|done|done| |done|].
  { change ((32 + 6) / 7) with 5. lia. }
  unfold leb_fits, leb_number in *. rewrite (proj2 (Z.ltb_lt _ _)) by done.
  unfold leb_cast in E. unfold uint32. rewrite E, wrap_small; [done|].
  pose proof (leb_value_bound bs). lia.
Qed.

Lemma skip_labels_ok m count p q :
  0 <= count < 2 ^ 32 - 1 → lebs m (S (Z.to_nat count)) p q → skip_labels m count p = At q.
Proof.
  intros Hc H. unfold skip_labels. set (turn := fun _ => _).
  assert (∀ n i p, lebs m n p q → i + Z.of_nat n = count + 1 → 0 <= i →
            ∃ s, turns turn n (i, p) s ∧ turn s = inr (At q)) as Hgo.
  { clear p H. induction n as [|n IH]; intros i p H Hi H0.
    - inversion H; subst. exists (i, q). split; [constructor|]. unfold turn.
      by rewrite (proj2 (Z.leb_gt _ _)) by lia.
    - destruct (lebs_split _ _ _ _ H) as (r&H1&H2). destruct (IH (i + 1) r H2) as (s&H3&H4); [lia..|].
      exists s. split; [|done]. econstructor; [|exact H3]. unfold turn.
      rewrite (proj2 (Z.leb_le _ _)), (skip_leb_at_ok _ _ _ H1) by lia. f_equal. f_equal.
      apply wrap_small. lia. }
  destruct (Hgo _ 0 p H) as (s&H1&H2); [lia..|].
  rewrite (loop_pow_turns turn 64 _ _ _ _ H1 H2); [done|].
  apply Nat2Z.inj_lt. rewrite Nat2Z.inj_pow. change (Z.of_nat 64) with 64. change (Z.of_nat 2) with 2. lia.
Qed.

(** The scan of an instruction outside the block structure. *)
Definition moved (q : Z) (s : scan) : scan := mkScan q (s_else s) (s_depth s) (s_stack s).

Lemma skip_plain m e op n k p q :
  imm_format op = Some (n, k) → lebs m n p q → q + k <= e →
  skip_immediates m e op p = At (q + k).
Proof.
  intros Hf Hl He.
  destruct op; simpl in Hf; try discriminate Hf; injection Hf as <- <-; cbn [skip_immediates numeric_instr].
  all: try (inversion Hl; subst; rewrite ?Z.add_0_r; first [done|by unfold check_buf; rewrite (proj2 (Z.ltb_ge _ _)) by lia]).
  all: try (rewrite Z.add_0_r; by apply skip_leb_at_ok).
  all: try (destruct (lebs_split _ _ _ _ Hl) as (r&H1&H2); rewrite (skip_leb_at_ok _ _ _ H1), Z.add_0_r;
            cbn [imm_then]; by apply skip_leb_at_ok).
  rewrite (skip_leb_at_ok _ _ _ Hl). cbn [imm_then]. unfold check_buf.
  by rewrite (proj2 (Z.ltb_ge _ _)) by lia.
Qed.

Lemma instr_lt m p q : instr m p q → p < q.
Proof.
  destruct 1 as [p op n k q Ho Hf Hl|p bs q Ho Hs Hm Hb Hl|p bs Ho Hs Hm Hb Hv].
  - pose proof (lebs_le _ _ _ _ Hl). assert (0 <= k); [|lia].
    destruct op; simpl in Hf; by simplify_eq.
  - pose proof (lebs_le _ _ _ _ Hl). pose proof (leb_string_length _ Hs). lia.
  - lia.
Qed.

Lemma scan_instr m e lt s q :
  instr m (s_p s) q → q <= e → q - s_p s < 2 ^ 32 → scan_turn m e lt s = inl (moved q s).
Proof.
  intros Hi He Hz. pose proof (instr_lt _ _ _ Hi). unfold scan_turn.
  rewrite (proj2 (Z.ltb_lt _ _)) by lia. cbn [negb].
  destruct Hi as [p op n k q Ho Hf Hl|p bs q Ho Hs Hm Hb Hl|p bs Ho Hs Hm Hb Hv]; unfold op_at in Ho; rewrite Ho.
  - rewrite (skip_plain m e op n k _ _ Hf Hl He). destruct op; try discriminate Hf; done.
  - pose proof (lebs_le _ _ _ _ Hl). pose proof (leb_value_bound bs). pose proof (leb_string_length _ Hs).
    cbn [skip_immediates]. rewrite (loader_leb_uint32_ok m (p + 1) e bs), (skip_labels_ok m _ _ q) by (done || lia).
    done.
  - pose proof (leb_value_bound bs). cbn [skip_immediates].
    rewrite (loader_leb_uint32_ok m (p + 1) e bs) by (done || lia).
    assert (In (leb_value bs) (seqZ 0 8)) as Hin.
    { apply list_elem_of_In, elem_of_seqZ. lia. }
    cbn in Hin. by destruct Hin as [<-|[<-|[<-|[<-|[<-|[<-|[<-|[<-|[]]]]]]]]].
Qed.

(** * The stack of open blocks *)

Lemma code_le m p q : code m p q → p <= q.
Proof.
  induction 1 as [p|p q r Hi _ IH|p b e r Ho _ IH1 _ _ IH2|p b x e r Ho _ IH1 _ _ IH2 _ _ IH3];
    [lia|pose proof (instr_lt _ _ _ Hi); lia|..].
  all: assert (p < b); [|lia].
  all: destruct Ho as [(op&_&->&_)|(op&_&Hl&_)]; [lia|pose proof (lebs_le _ _ _ _ Hl); lia].
Qed.

Lemma length_on_block d f l : length (on_block d f l) = length l.
Proof. unfold on_block. destruct (d <? 16); [apply length_alter|done]. Qed.

Lemma on_block_eq d f l : 0 <= d < 16 → on_block d f l !! Z.to_nat d = f <$> l !! Z.to_nat d.
Proof. intros Hd. unfold on_block. rewrite (proj2 (Z.ltb_lt _ _)) by lia. apply list_lookup_alter_eq. Qed.

Lemma on_block_ne d f l t : 0 <= d → Z.of_nat t ≠ d → on_block d f l !! t = l !! t.
Proof.
  intros Hd Ht. unfold on_block. destruct (d <? 16); [|done]. apply list_lookup_alter_ne. lia.
Qed.

(** A block of the code between [lo] and [hi]. *)
Definition block_in (m : mem) (lo hi : Z) (b : block) : Prop :=
  lo <= b_start b ∧ b_end b < hi ∧ block_at m (b_start b) (b_else b) (b_end b).

(** The elements from depth [d] on are blocks that were closed. *)
Definition closed_ok (m : mem) (lo hi d : Z) (l : list block) : Prop :=
  length l = 16%nat
  ∧ ∀ t b, l !! t = Some b → d <= Z.of_nat t → b_start b ≠ NULL → block_in m lo hi b.

Lemma closed_open m lo hi d f l :
  0 <= d → closed_ok m lo hi d l → closed_ok m lo hi (d + 1) (on_block d f l).
Proof.
  intros Hd [Hl H]. split; [by rewrite length_on_block|]. intros t b Hb Ht Hs.
  rewrite on_block_ne in Hb by lia. apply (H t b Hb); [lia|done].
Qed.

Lemma closed_else m lo hi d f l :
  0 <= d → closed_ok m lo hi (d + 1) l → closed_ok m lo hi (d + 1) (on_block d f l).
Proof.
  intros Hd [Hl H]. split; [by rewrite length_on_block|]. intros t b Hb Ht Hs.
  rewrite on_block_ne in Hb by lia. by apply (H t b Hb).
Qed.

Lemma closed_close m lo hi d s x y e l :
  0 <= d → closed_ok m lo hi (d + 1) l → (d < 16 → l !! Z.to_nat d = Some (mkBlock s x y)) →
  block_in m lo hi (mkBlock s x e) →
  closed_ok m lo hi d (on_block d (fun b => mkBlock (b_start b) (b_else b) e) l).
Proof.
  intros Hd [Hl H] Hb Hin. split; [by rewrite length_on_block|]. intros t b Ht Hdt Hs.
  destruct (Z.eq_dec (Z.of_nat t) d) as [<-|Hne].
  - assert (Z.of_nat t < 16) as Hlt.
    { rewrite <- (length_on_block (Z.of_nat t) (fun b => mkBlock (b_start b) (b_else b) e)) in Hl.
      apply lookup_lt_Some in Ht. lia. }
    specialize (Hb Hlt). pose proof (on_block_eq (Z.of_nat t) (fun b => mkBlock (b_start b) (b_else b) e) l
      ltac:(lia)) as E. rewrite Nat2Z.id in *. rewrite E, Hb in Ht. by simplify_eq/=.
  - rewrite on_block_ne in Ht by lia. apply (H t b Ht); [lia|done].
Qed.

(** * The turns at the head, the [else] and the [end] of a block *)

Lemma opens_lt m i p b : opens m i p b → p < b.
Proof. intros [(op&_&->&_)|(op&_&Hl&_)]; [lia|pose proof (lebs_le _ _ _ _ Hl); lia]. Qed.

Lemma scan_opens m e lt i s b :
  opens m i (s_p s) b → b <= e → scan_turn m e lt s = inl (open_block b s).
Proof.
  intros Ho He. pose proof (opens_lt _ _ _ _ Ho). unfold scan_turn.
  rewrite (proj2 (Z.ltb_lt _ _)) by lia. cbn [negb].
  destruct Ho as [(op&Hop&->&Hk)|(op&Hop&Hl&Hk)]; unfold op_at in Hop; rewrite Hop.
  - replace (s_p s + 2) with (s_p s + 1 + 1) by lia. by destruct Hk as [->|[_ [->| ->]]].
  - rewrite (skip_leb_at_ok _ _ _ Hl). by destruct Hk as [->|[_ [->| ->]]].
Qed.

Lemma scan_else m e lt s :
  op_at m (s_p s) WASM_OP_ELSE → s_p s < e → 2 <= s_depth s < 2 ^ 32 →
  scan_turn m e lt s
  = inl (mkScan (s_p s + 1) (s_else s) (s_depth s)
           (on_block (s_depth s - 1) (fun b => mkBlock (b_start b) (s_p s) (b_end b)) (s_stack s))).
Proof.
  intros Ho He Hd. unfold scan_turn. rewrite (proj2 (Z.ltb_lt _ _)) by lia. cbn [negb].
  unfold op_at in Ho. rewrite Ho, (proj2 (Z.eqb_neq (s_depth s) 1)), andb_false_r by lia.
  replace (s_p s + 1 - 1) with (s_p s) by lia. do 2 f_equal. unfold uint32. by rewrite wrap_small by lia.
Qed.

Lemma scan_end_inner m e lt s :
  op_at m (s_p s) WASM_OP_END → s_p s < e → 2 <= s_depth s < 2 ^ 32 →
  scan_turn m e lt s
  = inl (mkScan (s_p s + 1) (s_else s) (s_depth s - 1)
           (on_block (s_depth s - 1) (fun b => mkBlock (b_start b) (b_else b) (s_p s)) (s_stack s))).
Proof.
  intros Ho He Hd. unfold scan_turn. rewrite (proj2 (Z.ltb_lt _ _)) by lia. cbn [negb].
  unfold op_at in Ho. rewrite Ho, (proj2 (Z.eqb_neq _ _)) by lia.
  replace (s_p s + 1 - 1) with (s_p s) by lia. unfold uint32. by rewrite wrap_small by lia.
Qed.

(** * Code is scanned to its end *)

Section Scan.
Context (m : mem) (e lt lo hi : Z).

Definition scanned (s : scan) (q : Z) : Prop :=
  ∃ n l, turns (scan_turn m e lt) n s (mkScan q (s_else s) (s_depth s) l)
    ∧ Z.of_nat n <= q - s_p s
    ∧ (∀ t, Z.of_nat t < s_depth s → l !! t = s_stack s !! t)
    ∧ closed_ok m lo hi (s_depth s) l.

Definition scannable (s : scan) (q : Z) : Prop :=
  1 <= s_depth s ∧ s_depth s + (q - s_p s) < 2 ^ 32 ∧ lo <= s_p s ∧ 0 <= s_p s ∧ q < hi ∧ q <= e
  ∧ closed_ok m lo hi (s_depth s) (s_stack s).

Lemma scanned_trans s q s1 r :
  scanned s q → (∀ l, (∀ t, Z.of_nat t < s_depth s → l !! t = s_stack s !! t) →
    closed_ok m lo hi (s_depth s) l → scanned (mkScan q (s_else s) (s_depth s) l) r) →
  s1 = s → scanned s1 r.
Proof.
  intros (n&l&H1&H2&H3&H4) Hk ->. destruct (Hk l H3 H4) as (n'&l'&H1'&H2'&H3'&H4'). simpl in *.
  exists (n + n')%nat, l'. split_and!; [by eapply turns_trans|lia| |done].
  intros t Ht. by rewrite H3', H3.
Qed.

(** From the head of a block to the state in front of its [end]. *)
Definition inside (d : Z) (s : scan) (p b : Z) (x : Z) (l : list block) : Prop :=
  (∀ t, Z.of_nat t < d → l !! t = s_stack s !! t)
  ∧ (d < 16 → ∃ y, l !! Z.to_nat d = Some (mkBlock b x y))
  ∧ closed_ok m lo hi (d + 1) l.

Lemma scan_block_body s p b q l n x r :
  scannable s r → q < r → op_at m q WASM_OP_END → b <= q →
  turns (scan_turn m e lt) n s (mkScan q (s_else s) (s_depth s + 1) l) → Z.of_nat n <= q - s_p s →
  inside (s_depth s) s p b x l → block_in m lo hi (mkBlock b x q) →
  scanned s (q + 1).
Proof.
  intros (Hd&Hz&Hlo&H0&Hhi&He&Hc) Hqr Hend Hbq Ht Hn (H1&H2&H3) Hb.
  exists (n + 1)%nat, (on_block (s_depth s) (fun b => mkBlock (b_start b) (b_else b) q) l).
  split_and!.
  - eapply turns_trans; [exact Ht|]. apply turns_one. rewrite scan_end_inner; simpl; [|done|lia|lia].
    by replace (s_depth s + 1 - 1) with (s_depth s) by lia.
  - lia.
  - intros t Htd. by rewrite on_block_ne, H1 by lia.
  - destruct (Z.lt_ge_cases (s_depth s) 16) as [Hlt|Hge].
    + destruct (H2 Hlt) as (y&Hy). by eapply closed_close with (y := y); [lia|..].
    + apply closed_close with (s := b) (x := x) (y := 0); [lia|done|lia|done].
Qed.

Lemma scan_head s i b x r :
  opens m i (s_p s) b → b <= x → x < r → scannable s r →
  (∀ s, s_p s = b → scannable s x → scanned s x) →
  ∃ n l, turns (scan_turn m e lt) n s (mkScan x (s_else s) (s_depth s + 1) l)
    ∧ Z.of_nat n <= x - s_p s ∧ inside (s_depth s) s (s_p s) b NULL l.
Proof.
  intros Ho Hbx Hxr (Hd&Hz&Hlo&H0&Hhi&He&Hc) IH. pose proof (opens_lt _ _ _ _ Ho) as L1.
  assert (uint32 (s_depth s + 1) = s_depth s + 1) as Hw by (apply wrap_small; lia).
  pose proof Hc as [Hlen _].
  destruct (IH (open_block b s)) as (n&l&H1&H2&H3&H4); [done| |].
  { unfold scannable, open_block. cbn [s_depth s_p s_stack]. rewrite Hw. split_and!; try lia.
    apply closed_open; [lia|done]. }
  unfold open_block in *. cbn [s_depth s_p s_stack s_else] in *. rewrite Hw in *.
  exists (S n), l. split_and!; [|lia|split_and!].
  - econstructor; [|exact H1]. rewrite (scan_opens m e lt i s b) by (done || lia).
    unfold open_block. by rewrite Hw.
  - intros t Ht. by rewrite H3, on_block_ne by lia.
  - intros Hd16. rewrite H3, on_block_eq by lia.
    destruct (lookup_lt_is_Some_2 (s_stack s) (Z.to_nat (s_depth s))) as (y&->); [lia|]. by eexists.
  - done.
Qed.

Lemma scannable_after s q r l :
  scannable s r → s_p s <= q <= r → closed_ok m lo hi (s_depth s) l →
  scannable (mkScan q (s_else s) (s_depth s) l) r.
Proof. intros (Hd&Hz&Hlo&H0&Hhi&He&Hc) Hq Hl. unfold scannable. cbn. split_and!; (lia || done). Qed.

Lemma scannable_le s q r : scannable s r → q <= r → scannable s q.
Proof. intros (Hd&Hz&Hlo&H0&Hhi&He&Hc) Hq. unfold scannable. split_and!; (lia || done). Qed.

Lemma scan_code p q : code m p q → ∀ s, s_p s = p → scannable s q → scanned s q.
Proof.
  induction 1 as [p|p q r Hi Hc IH|p b z r Ho Hc1 IH1 Hz Hc2 IH2|p b x z r Ho Hc1 IH1 Hx Hc2 IH2 Hz Hc3 IH3];
    intros s <- Hs.
  - exists 0%nat, (s_stack s). destruct Hs as (_&_&_&_&_&_&Hc). split_and!; [|lia|done|done].
    destruct s. constructor.
  - pose proof (instr_lt _ _ _ Hi) as L2. pose proof (code_le _ _ _ Hc) as L3.
    destruct (IH (moved q s)) as (n&l&H1&H2&H3&H4); [done| |].
    { destruct Hs as (?&?&?&?&?&?&?). unfold scannable. cbn. split_and!; (lia || done). }
    exists (S n), l. cbn in *. split_and!; [|lia|done|done]. econstructor; [|exact H1].
    destruct Hs as (?&?&?&?&?&?&?). apply scan_instr; [done|lia|lia].
  - pose proof (opens_lt _ _ _ _ Ho) as L4. pose proof (code_le _ _ _ Hc1) as L5. pose proof (code_le _ _ _ Hc2) as L6.
    destruct (scan_head s false b z r Ho) as (n&l&H1&H2&H3); [lia|lia|done|done|].
    apply scanned_trans with (s := s) (q := z + 1); [|intros l' _ Hl'|done].
    + apply (scan_block_body s (s_p s) b z l n NULL r); try done; [lia|].
      destruct Hs as (?&?&?&?&?&?&?). split_and!; simpl; [lia|lia|]. split; [done|by left].
    + apply IH2; [done|]. apply scannable_after; [done|lia|done].
  - pose proof (opens_lt _ _ _ _ Ho) as L7. pose proof (code_le _ _ _ Hc1) as L8. pose proof (code_le _ _ _ Hc2) as L9.
    pose proof (code_le _ _ _ Hc3) as L10.
    destruct (scan_head s true b x r Ho) as (n&l&H1&H2&H3); [lia|lia|done|done|].
    apply scanned_trans with (s := s) (q := z + 1); [|intros l' _ Hl'|done].
    + pose proof Hs as (Hd&Hsz&Hlo&H0&Hhi&He&_). destruct H3 as (H3&H4&H5).
      set (l2 := on_block (s_depth s) (fun b => mkBlock (b_start b) x (b_end b)) l).
      destruct (IH2 (mkScan (x + 1) (s_else s) (s_depth s + 1) l2)) as (n'&l'&G1&G2&G3&G4); [done| |].
      { unfold scannable. cbn. split_and!; try lia. by apply closed_else; [lia|]. }
      cbn in *. apply (scan_block_body s (s_p s) b z l' (n + (1 + n')) x r); try done; [lia|lia| |lia| |].
      * eapply turns_trans; [exact H1|]. eapply turns_trans; [|exact G1]. apply turns_one.
        rewrite scan_else; cbn; [|done|lia|lia]. by replace (s_depth s + 1 - 1) with (s_depth s) by lia.
      * split_and!; [| |done].
        -- intros t Ht. unfold l2 in G3. by rewrite G3, on_block_ne, H3 by lia.
        -- intros Hd16. destruct (H4 Hd16) as (y&Hy). exists y. unfold l2 in G3.
           by rewrite G3, on_block_eq, Hy by lia.
      * split_and!; simpl; [lia|lia|]. split; [done|right]. split_and!; (lia || done).
    + apply IH3; [done|]. apply scannable_after; [done|lia|done].
Qed.
End Scan.

(** * The scan of a block *)

Lemma scan_block_ok m start ce lt lo hi x z :
  block_at m start x z → lo <= start → 0 < start → z < hi → z < ce → z - start < 2 ^ 32 - 2 →
  ∃ l, scan_block m start ce lt = Found (if lt =? LABEL_TYPE_IF then x else NULL) z l
    ∧ closed_ok m lo hi 0 l.
Proof.
  intros [Hz Hx] Hlo H0 Hhi Hce Hlen.
  assert (closed_ok m lo hi 1 (s_stack (scan_start start))) as Hc.
  { split; [done|]. intros t b Ht Ht1 Hb. destruct t as [|t]; [lia|]. simpl in Ht.
    change (replicate 15 (mkBlock NULL NULL NULL) !! t = Some b) in Ht.
    apply lookup_replicate in Ht as [-> _]. done. }
  assert (∀ s, s_p s = z → s_depth s = 1 → scan_turn m ce lt s
     = inr (Found (s_else s) z (on_block 0 (fun b => mkBlock (b_start b) (b_else b) z) (s_stack s)))) as Hend.
  { intros s Hsp Hsd. unfold scan_turn. rewrite Hsp, (proj2 (Z.ltb_lt _ _)) by lia. cbn [negb].
    unfold op_at in Hz. rewrite Hz, Hsd. simpl (1 =? 1). cbv iota. by replace (z + 1 - 1) with z by lia. }
  assert (∃ n l, turns (scan_turn m ce lt) n (scan_start start)
                   (mkScan z (if lt =? LABEL_TYPE_IF then x else NULL) 1 l)
            ∧ Z.of_nat n <= z - start ∧ (∃ y, l !! 0%nat = Some (mkBlock start x y))
            ∧ closed_ok m lo hi 1 l) as (n&l&H1&H2&(y&H3)&H4).
  { destruct Hx as [[-> Hx]|(Hx0&Hx1&Hx&Hx2)].
    - destruct (scan_code m ce lt lo hi _ _ Hx (scan_start start)) as (n&l&H1&H2&H3&H4); [done| |].
      { unfold scannable. cbn. split_and!; (lia || done). }
      exists n, l. simpl in *. split_and!; [by destruct (lt =? _)|done| |done].
      rewrite (H3 0%nat) by (simpl; lia). by eexists.
    - pose proof (code_le _ _ _ Hx1) as L21. pose proof (code_le _ _ _ Hx2) as L22.
      destruct (scan_code m ce lt lo hi _ _ Hx1 (scan_start start)) as (n&l&H1&H2&H3&H4); [done| |].
      { unfold scannable. cbn. split_and!; (lia || done). }
      simpl in *. set (l1 := on_block 0 (fun b => mkBlock (b_start b) x (b_end b)) l).
      set (els := if lt =? LABEL_TYPE_IF then x else NULL).
      destruct (scan_code m ce lt lo hi _ _ Hx2 (mkScan (x + 1) els 1 l1)) as (n'&l'&G1&G2&G3&G4); [done| |].
      { unfold scannable. cbn [s_depth s_p s_stack s_else]. split_and!; try lia.
        apply (closed_else m lo hi 0 _ l); [lia|done]. }
      cbn [s_depth s_p s_stack s_else] in *. exists (n + (1 + n'))%nat, l'. split_and!; [|lia| |done].
      + eapply turns_trans; [exact H1|]. eapply turns_trans; [|exact G1]. apply turns_one.
        unfold scan_turn. cbn [s_p s_depth s_stack s_else]. rewrite (proj2 (Z.ltb_lt _ _)) by lia. cbn [negb].
        unfold op_at in Hx. rewrite Hx. change (1 =? 1) with true. rewrite andb_true_r.
        replace (x + 1 - 1) with x by lia. reflexivity.
      + rewrite (G3 0%nat) by (simpl; lia). unfold l1. change 0%nat with (Z.to_nat 0).
        rewrite on_block_eq by lia. change (Z.to_nat 0) with 0%nat. rewrite (H3 0%nat) by (simpl; lia). by eexists. }
  eexists. split.
  - unfold scan_block. erewrite (loop_pow_turns _ 64 n _ _ _ H1); [reflexivity|by apply Hend|].
    apply Nat2Z.inj_lt. rewrite Nat2Z.inj_pow. change (Z.of_nat 64) with 64. change (Z.of_nat 2) with 2. lia.
  - cbn [s_stack s_else]. apply closed_close with (s := start) (x := x) (y := y); [lia|done|by intros _|].
    split_and!; simpl; [done|done|]. by split.
Qed.

(** A block start has one [else] and one [end]. *)
Lemma block_at_unique m s x e x' e' :
  block_at m s x e → block_at m s x' e' → 0 < s → e - s < 2 ^ 32 - 2 → e' - s < 2 ^ 32 - 2 →
  x = x' ∧ e = e'.
Proof.
  intros H H' Hs Hl Hl'. set (ce := Z.max e e' + 1).
  destruct (scan_block_ok m s ce LABEL_TYPE_IF s ce x e H) as (l&E&_); try lia.
  destruct (scan_block_ok m s ce LABEL_TYPE_IF s ce x' e' H') as (l'&E'&_); try lia.
  rewrite E in E'. by simplify_eq/=.
Qed.

(** * Code that is not written to *)

Section Ext.
Context (m m' : mem).

Definition same (p q : Z) : Prop := ∀ a, p <= a < q → m' !!! a = m !!! a.

Lemma same_byte p q a : same p q → p <= a < q → load_Z m' a 1 = load_Z m a 1.
Proof. intros H Ha. unfold load_Z. f_equal. apply load_ext. intros. apply H. lia. Qed.

Lemma same_sub p q p' q' : same p q → p <= p' → q' <= q → same p' q'.
Proof. intros H ?? a Ha. apply H. lia. Qed.

Lemma op_at_ext p q a op : same p q → p <= a < q → op_at m a op → op_at m' a op.
Proof. intros H Ha. unfold op_at. by rewrite (same_byte p q). Qed.

Lemma bytes_at_ext bs : ∀ p q, same p q → p + Z.of_nat (length bs) <= q →
  bytes_at m p bs → bytes_at m' p bs.
Proof.
  induction bs as [|b bs IH]; [done|]. intros p q H Hq [H1 H2]. simpl in Hq. split.
  - by rewrite (same_byte p q) by (done || lia).
  - apply (IH (p + 1) q); [|lia|done]. apply (same_sub p q); (done || lia).
Qed.

Lemma lebs_ext n p q r : lebs m n p q → same p r → q <= r → lebs m' n p q.
Proof.
  induction 1 as [p|n p bs q Hs Hb Hl H IH]; intros Hr Hq; [constructor|].
  pose proof (lebs_le _ _ _ _ H) as L23. econstructor; [done| |done|].
  - apply (bytes_at_ext bs p r); (done || lia).
  - apply IH; [|lia]. apply (same_sub p r); (done || lia).
Qed.

Lemma instr_ext p q : instr m p q → same p q → instr m' p q.
Proof.
  intros Hi Hs. pose proof (instr_lt _ _ _ Hi) as L24.
  destruct Hi as [p op n k q Ho Hf Hl|p bs q Ho Hs' Hm Hb Hl|p bs Ho Hs' Hm Hb Hv].
  - assert (0 <= k) by (destruct op; simpl in Hf; by simplify_eq).
    econstructor; [by eapply op_at_ext; [exact Hs|lia|]|done|].
    eapply lebs_ext; [done| |done]. apply (same_sub p (q + k)); (done || lia).
  - pose proof (lebs_le _ _ _ _ Hl) as L25. eapply instr_br_table; [|exact Hs'| |done|].
    + eapply op_at_ext; [exact Hs|lia|done].
    + apply (bytes_at_ext bs (p + 1) q); [|lia|done]. apply (same_sub p q); (done || lia).
    + eapply lebs_ext; [done| |done]. apply (same_sub p q); (done || lia).
  - apply instr_misc; [|done| |done|done].
    + eapply op_at_ext; [exact Hs|lia|done].
    + eapply bytes_at_ext; [|done|done]. eapply same_sub; [done|lia|done].
Qed.

Lemma opens_ext i p b r : opens m i p b → same p r → b <= r → opens m' i p b.
Proof.
  intros Ho Hs Hb. pose proof (opens_lt _ _ _ _ Ho) as L26. destruct Ho as [(op&H1&->&H2)|(op&H1&H2&H3)].
  - left. exists op. split_and!; [|done|done]. eapply op_at_ext; [exact Hs|lia|done].
  - right. exists op. split_and!; [|eapply lebs_ext; [done| |done]|done].
    + eapply op_at_ext; [exact Hs|lia|done].
    + eapply same_sub; [done|lia|lia].
Qed.

Lemma code_ext p q : code m p q → same p q → code m' p q.
Proof.
  induction 1 as [p|p q r Hi Hc IH|p b z r Ho Hc1 IH1 Hz Hc2 IH2|p b x z r Ho Hc1 IH1 Hx Hc2 IH2 Hz Hc3 IH3];
    intros Hs.
  - constructor.
  - pose proof (instr_lt _ _ _ Hi) as L27. pose proof (code_le _ _ _ Hc) as L28. apply (code_instr m' p q r).
    + apply instr_ext; [exact Hi|]. eapply same_sub; [done|lia|lia].
    + apply IH. eapply same_sub; [done|lia|lia].
  - pose proof (opens_lt _ _ _ _ Ho) as L29. pose proof (code_le _ _ _ Hc1) as L30. pose proof (code_le _ _ _ Hc2) as L31.
    apply (code_block m' p b z r); [eapply opens_ext; [exact Ho|eapply (same_sub _ _ p b); [exact Hs|lia|lia]|lia]| |eapply op_at_ext; [exact Hs|lia|done]|].
    + apply IH1. eapply same_sub; [done|lia|lia].
    + apply IH2. eapply same_sub; [done|lia|lia].
  - pose proof (opens_lt _ _ _ _ Ho) as L32. pose proof (code_le _ _ _ Hc1) as L33. pose proof (code_le _ _ _ Hc2) as L34.
    pose proof (code_le _ _ _ Hc3) as L35.
    apply (code_if_else m' p b x z r); [eapply opens_ext; [exact Ho|eapply (same_sub _ _ p b); [exact Hs|lia|lia]|lia]| |eapply op_at_ext; [exact Hs|lia|done]|
      |eapply op_at_ext; [exact Hs|lia|done]|].
    + apply IH1. eapply same_sub; [done|lia|lia].
    + apply IH2. eapply same_sub; [done|lia|lia].
    + apply IH3. eapply same_sub; [done|lia|lia].
Qed.

Lemma block_at_ext s x e : block_at m s x e → same s (e + 1) → s <= e → block_at m' s x e.
Proof.
  intros [Hz Hx] Hs Hse. split; [eapply op_at_ext; [exact Hs|lia|done]|].
  destruct Hx as [[-> Hx]|(H0&H1&H2&H3)]; [left|right].
  - split; [done|]. apply code_ext; [done|]. eapply same_sub; [done|lia|lia].
  - pose proof (code_le _ _ _ H1) as L36. pose proof (code_le _ _ _ H3) as L37. split_and!; [done| | |].
    + apply code_ext; [done|]. eapply same_sub; [done|lia|lia].
    + eapply op_at_ext; [exact Hs|lia|done].
    + apply code_ext; [done|]. eapply same_sub; [done|lia|lia].
Qed.
End Ext.

(** * The cache *)

(** The element [j] of line [i], and the block it holds. *)
Definition slot_at (cache i j : Z) : Z := cache + (2 * i + j) * SIZEOF BlockAddr.
Definition slot_block (m : mem) (e : Z) : block := mkBlock (ldp m e) (ldp m (e + 8)) (ldp m (e + 16)).

(** Every element in use is in the line of its start and holds a block of the
    code between [lo] and [hi]. *)
Definition cache_ok (m : mem) (lo hi cache : Z) : Prop :=
  ∀ i j, 0 <= i < BLOCK_ADDR_CACHE_SIZE → 0 <= j < BLOCK_ADDR_CONFLICT_SIZE →
    let b := slot_block m (slot_at cache i j) in
    b_start b ≠ NULL → Z.land (b_start b) (BLOCK_ADDR_CACHE_SIZE - 1) = i ∧ block_in m lo hi b.

(** The code is not in the cache, and not longer than a function can be. *)
Record code_apart (lo hi cache : Z) : Prop := {
  ca_lo : 0 < lo;
  ca_hi : hi <= 2 ^ 64;
  ca_size : hi - lo < 2 ^ 32 - 2;
  ca_apart : hi <= cache ∨ cache + 3072 <= lo
}.

Lemma line_range s : 0 <= Z.land s (BLOCK_ADDR_CACHE_SIZE - 1) < BLOCK_ADDR_CACHE_SIZE.
Proof.
  change (BLOCK_ADDR_CACHE_SIZE - 1) with (Z.ones 6). rewrite Z.land_ones by lia.
  apply Z.mod_pos_bound. done.
Qed.

Lemma cache_line_slot cache s j :
  cache_line cache s + j * SIZEOF BlockAddr = slot_at cache (Z.land s (BLOCK_ADDR_CACHE_SIZE - 1)) j.
Proof. unfold cache_line, slot_at. change BLOCK_ADDR_CONFLICT_SIZE with 2. lia. Qed.

Lemma block_at_le m s x e : block_at m s x e → s <= e ∧ (x = NULL ∨ s <= x < e).
Proof.
  intros [_ [[-> H]|(H0&H1&_&H2)]].
  - apply code_le in H. split; [done|by left].
  - apply code_le in H1, H2. split; [lia|right; lia].
Qed.

Lemma block_in_ext m m' lo hi b :
  block_in m lo hi b → (∀ a, lo <= a < hi → m' !!! a = m !!! a) → block_in m' lo hi b.
Proof.
  intros (H1&H2&H3) Hs. pose proof (block_at_le _ _ _ _ H3) as [? _]. split_and!; [done|done|].
  apply (block_at_ext m); [done| |done]. intros a Ha. apply Hs. lia.
Qed.

Lemma slot_apart lo hi cache i j m m' :
  code_apart lo hi cache → 0 <= i < BLOCK_ADDR_CACHE_SIZE → 0 <= j < BLOCK_ADDR_CONFLICT_SIZE →
  unchanged_outside [(slot_at cache i j, 24)] m m' → ∀ a, lo <= a < hi → m' !!! a = m !!! a.
Proof.
  intros [? ? ? ?] Hi Hj Hu a Ha. unfold BLOCK_ADDR_CACHE_SIZE, BLOCK_ADDR_CONFLICT_SIZE in *.
  apply Hu. intros r [<-|[]]. unfold in_region, slot_at. cbn. lia.
Qed.

Lemma ldp_unchanged m m' a n p :
  unchanged_outside [(a, n)] m m' → p + 8 <= a ∨ a + n <= p → ldp m' p = ldp m p.
Proof.
  intros Hu Ha. unfold ldp, load_Z. f_equal. apply (unchanged_load [(a, n)]); [done|].
  intros r [<-|[]]. unfold disjoint_region. cbn. lia.
Qed.

(** One element written with a block of the code. *)
Lemma cache_put m m' lo hi cache i j b :
  code_apart lo hi cache → cache_ok m lo hi cache →
  0 <= i < BLOCK_ADDR_CACHE_SIZE → 0 <= j < BLOCK_ADDR_CONFLICT_SIZE →
  unchanged_outside [(slot_at cache i j, 24)] m m' → slot_block m' (slot_at cache i j) = b →
  Z.land (b_start b) (BLOCK_ADDR_CACHE_SIZE - 1) = i → block_in m lo hi b →
  cache_ok m' lo hi cache.
Proof.
  intros Ha Hc Hi Hj Hu Hb Hl Hin i' j' Hi' Hj' b' Hb'.
  pose proof (slot_apart _ _ _ _ _ _ _ Ha Hi Hj Hu) as Hs.
  destruct (decide (i' = i ∧ j' = j)) as [[-> ->]|Hne].
  - unfold b'. rewrite Hb. split; [done|]. by apply (block_in_ext m).
  - assert (slot_block m' (slot_at cache i' j') = slot_block m (slot_at cache i' j')) as E.
    { unfold slot_block. unfold BLOCK_ADDR_CACHE_SIZE, BLOCK_ADDR_CONFLICT_SIZE in *.
      f_equal; (eapply ldp_unchanged; [exact Hu|]); unfold slot_at; lia. }
    unfold b' in *. rewrite E in *. destruct (Hc i' j' Hi' Hj' Hb') as [? ?].
    split; [done|]. by apply (block_in_ext m).
Qed.

Lemma find_slot_ok line s js w :
  ∃ r, find_slot line s js w = Ok r w
    ∧ match r with
      | Some j => In j js ∧ ldp (wmem w) (line + j * SIZEOF BlockAddr) = s
      | None => ∀ j, In j js → ldp (wmem w) (line + j * SIZEOF BlockAddr) ≠ s
      end.
Proof.
  induction js as [|j js (r&IH&Hr)]; [by exists None|]. cbn [find_slot]. erewrite mbind_ok by reflexivity.
  fold (ldp (wmem w) (line + j * SIZEOF BlockAddr + 0)). rewrite Z.add_0_r.
  destruct (Z.eqb_spec (ldp (wmem w) (line + j * SIZEOF BlockAddr)) s) as [E|E].
  - exists (Some j). split; [done|]. split; [by left|done].
  - exists r. split; [done|]. destruct r as [j'|].
    + destruct Hr. split; [by right|done].
    + intros j' [<-|Hj']; [done|by apply Hr].
Qed.

Lemma conflict_slots_range j : In j conflict_slots → 0 <= j < BLOCK_ADDR_CONFLICT_SIZE.
Proof. intros H. apply list_elem_of_In, elem_of_seqZ in H. lia. Qed.

Definition block_fits (b : block) : Prop :=
  0 <= b_start b < 2 ^ 64 ∧ 0 <= b_else b < 2 ^ 64 ∧ 0 <= b_end b < 2 ^ 64.

Lemma write_slot_ok line j b w :
  block_fits b →
  ∃ m', write_slot line j b w = Ok tt (set_mem m' w)
    ∧ unchanged_outside [(line + j * SIZEOF BlockAddr, 24)] (wmem w) m'
    ∧ slot_block m' (line + j * SIZEOF BlockAddr) = b.
Proof.
  intros (H1&H2&H3). set (e := line + j * SIZEOF BlockAddr). eexists. split; [reflexivity|]. cbn [wmem set_mem].
  fold e. split.
  - eapply (unchanged_weaken [(e + 0, 8); (e + 8, 8); (e + 16, 8)]).
    + intros x r Hr Hx. exists (e, 24). split; [by left|].
      unfold in_region in *. destruct Hr as [<-|[<-|[<-|[]]]]; cbn in *; lia.
    + assert (∀ m a v, unchanged_outside [(a, 8)] m (store_Z m a 8 v)) as Hst.
      { intros m a v. pose proof (unchanged_store m a (le_bytes (Z.to_nat 8) v)) as H.
        by rewrite length_le_bytes in H. }
      eapply (unchanged_trans [_] [_; _]); [apply Hst|].
      eapply (unchanged_trans [_] [_]); apply Hst.
  - unfold slot_block, ldp. destruct b as [s x z]; cbn in *. f_equal.
    + rewrite Z.add_0_r, !load_store_Z_ne by lia. rewrite load_store_Z_eq by lia. by apply Z.mod_small.
    + rewrite load_store_Z_ne by lia. rewrite load_store_Z_eq by lia. by apply Z.mod_small.
    + rewrite load_store_Z_eq by lia. by apply Z.mod_small.
Qed.

Lemma shift_line_ok line w :
  ∃ m', shift_line line w = Ok tt (set_mem m' w)
    ∧ unchanged_outside [(line + 24, 24)] (wmem w) m'
    ∧ slot_block m' (line + 24) = slot_block (wmem w) line.
Proof.
  eexists. split; [reflexivity|]. change (Z.to_nat _) with 24%nat. split.
  - pose proof (unchanged_store (wmem w) (line + 24) (load (wmem w) line 24)) as H.
    by rewrite length_load in H.
  - unfold slot_block, ldp, load_Z. cbn [wmem set_mem]. change (Z.to_nat 8) with 8%nat.
    set (m := wmem w). set (m' := store _ _ _).
    assert (load m' (line + 24) 24 = load m line 24) as E by (apply load_store_eq; by rewrite length_load).
    change 24%nat with (8 + (8 + 8))%nat in E. rewrite !load_app in E.
    apply app_inj_1 in E as [E1 E]; [|by rewrite !length_load].
    apply app_inj_1 in E as [E2 E3]; [|by rewrite !length_load].
    change (Z.of_nat 8) with 8 in *. f_equal; f_equal; [done|done|].
    replace (line + 24 + 16) with (line + 24 + 8 + 8) by lia.
    by replace (line + 16) with (line + 8 + 8) by lia.
Qed.

Lemma cache_region cache i j m m' :
  0 <= i < BLOCK_ADDR_CACHE_SIZE → 0 <= j < BLOCK_ADDR_CONFLICT_SIZE →
  unchanged_outside [(slot_at cache i j, 24)] m m' → unchanged_outside [(cache, 3072)] m m'.
Proof.
  intros Hi Hj. apply unchanged_weaken. intros x r [<-|[]] Hx. exists (cache, 3072). split; [by left|].
  unfold in_region, slot_at, BLOCK_ADDR_CACHE_SIZE, BLOCK_ADDR_CONFLICT_SIZE in *. cbn in *. lia.
Qed.

Lemma block_in_fits m lo hi cache b : code_apart lo hi cache → block_in m lo hi b → block_fits b.
Proof.
  intros [? ? ? ?] (H1&H2&H3). destruct (block_at_le _ _ _ _ H3) as [H4 H5]. unfold block_fits, NULL in *.
  lia.
Qed.

Lemma unchanged_twice r m m' m'' :
  unchanged_outside [r] m m' → unchanged_outside [r] m' m'' → unchanged_outside [r] m m''.
Proof.
  intros H1 H2. eapply unchanged_incl; [|eapply unchanged_trans; [exact H1|exact H2]].
  intros x [<-|[<-|[]]]; by left.
Qed.

Lemma remember_ok lo hi cache b w :
  code_apart lo hi cache → cache_ok (wmem w) lo hi cache → block_in (wmem w) lo hi b → b_start b ≠ NULL →
  ∃ m', remember cache b w = Ok tt (set_mem m' w)
    ∧ unchanged_outside [(cache, 3072)] (wmem w) m' ∧ cache_ok m' lo hi cache.
Proof.
  intros Ha Hc Hb Hs. pose proof (block_in_fits _ _ _ _ _ Ha Hb) as Hf.
  pose proof (line_range (b_start b)) as Hi. set (i := Z.land (b_start b) (BLOCK_ADDR_CACHE_SIZE - 1)) in *.
  unfold remember. set (line := cache_line cache (b_start b)).
  destruct (find_slot_ok line NULL conflict_slots w) as (r&Hr&Hj). erewrite mbind_ok by exact Hr.
  destruct r as [j|].
  - destruct Hj as [Hj _]. apply conflict_slots_range in Hj.
    destruct (write_slot_ok line j b w Hf) as (m'&H1&H2&H3). unfold line in H2, H3.
    rewrite cache_line_slot in H2, H3. fold i in H2, H3.
    exists m'. split_and!; [done|by eapply cache_region|by eapply cache_put].
  - destruct (shift_line_ok line w) as (m1&H1&H2&H3). rewrite (mbind_ok _ _ _ _ _ H1).
    pose proof (Hj 0 ltac:(by left)) as Hj0. rewrite Z.add_0_r in Hj0.
    assert (line = slot_at cache i 0) as El
      by (pose proof (cache_line_slot cache (b_start b) 0) as E0; fold line i in E0; lia).
    assert (line + 24 = slot_at cache i 1) as El1
      by (pose proof (cache_line_slot cache (b_start b) 1) as E1; fold line i in E1; lia).
    rewrite El1 in H2, H3. rewrite El in H3, Hj0.
    destruct (Hc i 0 Hi ltac:(done) Hj0) as [Hl0 Hb0].
    assert (cache_ok m1 lo hi cache) as Hc1 by (by apply (cache_put (wmem w) m1 lo hi cache i 1 _ Ha Hc Hi ltac:(done) H2 H3)).
    destruct (write_slot_ok line 0 b (set_mem m1 w) Hf) as (m2&H4&H5&H6).
    rewrite Z.mul_0_l, Z.add_0_r, El in H5, H6. cbn [wmem set_mem] in H5.
    assert (unchanged_outside [(cache, 3072)] (wmem w) m1) as Hu1 by (by apply (cache_region cache i 1)).
    exists m2. split_and!; [done| |].
    + eapply unchanged_twice; [exact Hu1|by apply (cache_region cache i 0)].
    + apply (cache_put m1 m2 lo hi cache i 0 b); try done. apply (block_in_ext (wmem w)); [done|].
      by apply (slot_apart lo hi cache i 1).
Qed.

Lemma remember_all_ok lo hi cache : ∀ l w,
  code_apart lo hi cache → cache_ok (wmem w) lo hi cache →
  (∀ b, In b l → b_start b ≠ NULL → block_in (wmem w) lo hi b) →
  ∃ m', remember_all cache l w = Ok tt (set_mem m' w)
    ∧ unchanged_outside [(cache, 3072)] (wmem w) m' ∧ cache_ok m' lo hi cache.
Proof.
  induction l as [|b l IH]; intros w Ha Hc Hl.
  - exists (wmem w). split_and!; [by destruct w|apply unchanged_refl|done].
  - cbn [remember_all]. destruct (Z.eqb_spec (b_start b) NULL) as [E|E].
    { exists (wmem w). split_and!; [by destruct w|apply unchanged_refl|done]. }
    destruct (remember_ok lo hi cache b w) as (m1&H1&H2&H3); [done|done|by apply Hl; [left|]|done|].
    rewrite (mbind_ok _ _ _ _ _ H1).
    destruct (IH (set_mem m1 w)) as (m2&H4&H5&H6); [done|done| |].
    { intros b' Hb' Hs'. apply (block_in_ext (wmem w)); [by apply Hl; [right|]|].
      intros a Haa. apply H2. intros r [<-|[]]. destruct Ha. unfold in_region. cbn. lia. }
    exists m2. split_and!; [by rewrite H4|by eapply unchanged_twice|done].
Qed.

Lemma find_block_addr_ok lo hi cache s x e ce lt w :
  code_apart lo hi cache → cache_ok (wmem w) lo hi cache →
  block_at (wmem w) s x e → lo <= s → e < hi → e < ce →
  ∃ o m', wasm_loader_find_block_addr cache s ce lt w = Ok (Some (o, e)) (set_mem m' w)
    ∧ (∀ y, o = Some y → y = if lt =? LABEL_TYPE_IF then x else y)
    ∧ (lt = LABEL_TYPE_IF → o = Some x)
    ∧ unchanged_outside [(cache, 3072)] (wmem w) m' ∧ cache_ok m' lo hi cache.
Proof.
  intros Ha Hc Hb Hlo Hhi Hce. pose proof Ha as [Ha1 Ha2 Ha3 Ha4].
  unfold wasm_loader_find_block_addr. set (line := cache_line cache s).
  destruct (find_slot_ok line s conflict_slots w) as (r&Hr&Hj). rewrite (mbind_ok _ _ _ _ _ Hr).
  destruct r as [j|].
  - destruct Hj as [Hj Es]. apply conflict_slots_range in Hj. pose proof (line_range s) as Hi.
    unfold line in *. rewrite cache_line_slot in *. set (i := Z.land s _) in *.
    destruct (Hc i j Hi Hj) as [_ (H1&H2&H3)]; [simpl; rewrite Es; unfold NULL; lia|].
    cbn [slot_block b_start b_else b_end] in H1, H2, H3. rewrite Es in H1, H3.
    destruct (block_at_unique _ _ _ _ _ _ Hb H3) as [Ex Ee]; [lia..|].
    eexists _, (wmem w). split; [|split_and!; [|intros _; reflexivity|apply unchanged_refl|done]].
    + cbv beta iota zeta. do 2 erewrite mbind_ok by reflexivity. unfold mret.
      fold (ldp (wmem w) (slot_at cache i j + 8)). fold (ldp (wmem w) (slot_at cache i j + 16)).
      rewrite <- Ex, <- Ee. by destruct w.
    + intros y [= <-]. by destruct (_ =? _).
  - destruct (scan_block_ok (wmem w) s ce lt lo hi x e Hb) as (l&El&_&Hl); [lia..|].
    erewrite mbind_ok by reflexivity. rewrite El.
    destruct (remember_all_ok lo hi cache l w Ha Hc) as (m'&H1&H2&H3).
    { intros b Hin Hs. apply list_elem_of_In, list_elem_of_lookup in Hin as (t&Ht). apply (Hl t); [done|lia|done]. }
    rewrite (mbind_ok _ _ _ _ _ H1). eexists _, m'. split; [reflexivity|]. split_and!; [| |done|done].
    + intros y. by destruct (lt =? _); intros; simplify_eq.
    + by intros ->.
Qed.

(** * Theorems *)

(** C21: for a block of structured code the function answers with the address of
    its [end], and of its [else] when an [if] is asked for (null when there is
    none), from the cache or by a scan; it only writes to the cache, which goes
    on to hold real blocks. *)
Theorem find_block_addr_correct lo hi cache s x e ce lt w :
  code_apart lo hi cache → cache_ok (wmem w) lo hi cache →
  block_at (wmem w) s x e → lo <= s → e < hi → e < ce →
  ∃ o m', wasm_loader_find_block_addr cache s ce lt w = Ok (Some (o, e)) (set_mem m' w)
    ∧ (∀ y, o = Some y → y = if lt =? LABEL_TYPE_IF then x else y)
    ∧ (lt = LABEL_TYPE_IF → o = Some x)
    ∧ unchanged_outside [(cache, 3072)] (wmem w) m' ∧ cache_ok m' lo hi cache.
Proof. apply find_block_addr_ok. Qed.

(** [nop if 0x40 i32.const 5 drop else nop end end] at 4096. *)
Definition sample_code : mem :=
  store ∅ 4096 (map Z_byte [0x01; 0x04; 0x40; 0x41; 0x85; 0x00; 0x1a; 0x05; 0x01; 0x0b; 0x0b]).

Definition sample_code_world : world := mkWorld sample_code FClosed FClosed [] [] 0 0 0 0 0 0 0.

Lemma sample_nop p : op_at sample_code p WASM_OP_NOP → instr sample_code p (p + 1).
Proof.
  intros H. replace (p + 1) with (p + 1 + 0) by lia.
  eapply instr_plain; [exact H|reflexivity|]. constructor.
Qed.

Lemma sample_inner : block_at sample_code 4099 4103 4105.
Proof.
  split; [by vm_compute|right]. split_and!; [lia| |by vm_compute|].
  - eapply code_instr; [|eapply code_instr; [|apply code_nil]].
    + change 4102 with (4102 + 0). eapply (instr_plain _ 4099 WASM_OP_I32_CONST 1); [by vm_compute|done|].
      eapply (lebs_cons _ 0 _ [0x85; 0]); [|by vm_compute|simpl; lia|constructor].
      constructor; [lia|]. constructor. lia.
    + change 4103 with (4103 + 0). eapply (instr_plain _ 4102 WASM_OP_DROP 0); [by vm_compute|done|constructor].
  - eapply code_instr; [apply (sample_nop 4104); by vm_compute|apply code_nil].
Qed.

Lemma sample_block : block_at sample_code 4096 NULL 4106.
Proof.
  split; [by vm_compute|left]. split; [done|].
  destruct sample_inner as [H1 [[H2 _]|(_&H2&H3&H4)]]; [discriminate|].
  eapply code_instr; [apply (sample_nop 4096); by vm_compute|].
  eapply (code_if_else _ 4097 4099 4103 4105); [|done|done|done|done|apply code_nil].
  left. exists WASM_OP_IF. split_and!; [by vm_compute|done|by left].
Qed.

Lemma load_Z_empty a n : load_Z ∅ a n = 0.
Proof.
  unfold load_Z. generalize (Z.to_nat n) as k. intros k. revert a.
  induction k as [|k IH]; intros a; [done|]. cbn [load le_Z]. by rewrite lookup_total_empty, IH.
Qed.

Lemma sample_cache_ok : cache_ok sample_code 4096 4107 8192.
Proof.
  intros i j Hi Hj b Hb. exfalso. apply Hb. unfold b, slot_block, slot_at. cbn [b_start].
  unfold BLOCK_ADDR_CACHE_SIZE, BLOCK_ADDR_CONFLICT_SIZE in *. unfold ldp, sample_code.
  rewrite load_Z_store_ne by (cbn [length map Z.of_nat]; lia). apply load_Z_empty.
Qed.

Lemma find_block_addr_correct_witness :
  (∃ m', wasm_loader_find_block_addr 8192 4096 (2 ^ 64 - 1) LABEL_TYPE_BLOCK sample_code_world
         = Ok (Some (None, 4106)) (set_mem m' sample_code_world))
  ∧ ∃ m', wasm_loader_find_block_addr 8192 4099 (2 ^ 64 - 1) LABEL_TYPE_IF sample_code_world
          = Ok (Some (Some 4103, 4105)) (set_mem m' sample_code_world).
Proof.
  assert (code_apart 4096 4107 8192) as Ha by (constructor; lia). split.
  - destruct (find_block_addr_correct 4096 4107 8192 4096 NULL 4106 (2 ^ 64 - 1) LABEL_TYPE_BLOCK
      sample_code_world Ha sample_cache_ok sample_block) as (o&m'&H1&_); [lia..|].
    exists m'. rewrite H1. destruct o as [y|]; [|reflexivity]. exfalso.
    apply (f_equal (λ r, match r with Ok (Some (Some _, _)) _ => true | _ => false end)) in H1.
    vm_compute in H1. discriminate.
  - destruct (find_block_addr_correct 4096 4107 8192 4099 4103 4105 (2 ^ 64 - 1) LABEL_TYPE_IF
      sample_code_world Ha sample_cache_ok sample_inner) as (o&m'&H1&_&H2&_); [lia..|].
    exists m'. rewrite H1, H2; reflexivity.
Defined.
