(* ===== verification/MemGrow.v ===== *)
(** [memory.grow]: [wasm_enlarge_memory] (wasm_runtime.c) moves the linear memory
    to a larger block, records the block and clears the new pages. *)
From stdpp Require Import base gmap list numbers strings.
From Stdlib Require Import Strings.Byte ZArith Lia.
From S2P Require Import Prelude CMemory WasmTypes PoolInfo Memory Format.

(** [memset(a, 0, n)]. *)
Definition memset_zero (a n : Z) : C unit :=
  modify (fun w => set_mem (store (wmem w) a (replicate (Z.to_nat n) x00)) w).

(** [bh_memcpy_s]; [RSIZE_MAX] is beyond every 32-bit size. *)
Definition b_memcpy_s (s1 s1max s2 n : Z) : C Z :=
  if n =? 0 then mret 0
  else if s1 =? NULL then mret (-1)
  else if (s2 =? NULL) || (s1max <? n) then memset_zero s1 s1max ;;; mret (-1)
  else modify (fun w => set_mem (store (wmem w) s1 (load (wmem w) s2 (Z.to_nat n))) w) ;;; mret 0.

(** [realloc], or else [malloc] and a copy. *)
Definition grow_block (s : memory_state) (memory_data total_size_old total_size : Z) : C Z :=
  let* new_memory_data := wasm_runtime_realloc s memory_data total_size in
  if negb (new_memory_data =? NULL) then mret new_memory_data
  else
    let* new_memory_data := wasm_runtime_malloc s total_size in
    if new_memory_data =? NULL then mret NULL
    else
      (if negb (memory_data =? NULL)
       then let* _ := b_memcpy_s new_memory_data total_size memory_data total_size_old in
            wasm_runtime_free s memory_data
       else skip) ;;;
      mret new_memory_data.

(** [migrate] is [mem_allocator_migrate], which moves the heap of the module's
    own allocator when it has one. *)
Definition wasm_enlarge_memory (s : memory_state) (migrate : Z → Z → Z → C Z)
    (module inc_page_count : Z) : C bool :=
  let* memory := ld 8 (FLD module WASMModuleInstance "default_memory") in
  if memory =? NULL then mret false
  else
    let* memory_data := ld 8 (FLD memory WASMMemoryInstance "memory_data") in
    let* heap_data := ld 8 (FLD memory WASMMemoryInstance "heap_data") in
    let* heap_data_end := ld 8 (FLD memory WASMMemoryInstance "heap_data_end") in
    let* memory_data_end := ld 8 (FLD memory WASMMemoryInstance "memory_data_end") in
    let* cur_page_count := ld 4 (FLD memory WASMMemoryInstance "cur_page_count") in
    let* max_page_count := ld 4 (FLD memory WASMMemoryInstance "max_page_count") in
    let* num_bytes_per_page := ld 4 (FLD memory WASMMemoryInstance "num_bytes_per_page") in
    let heap_size := uint32 (heap_data_end - heap_data) in
    let total_size_old := uint32 (memory_data_end - memory_data) in
    let total_page_count := uint32 (inc_page_count + cur_page_count) in
    let total_size := uint64 (num_bytes_per_page * total_page_count) in
    let heap_data_old := heap_data in
    if inc_page_count <=? 0 then mret true
    else if (total_page_count <? cur_page_count) || (max_page_count <? total_page_count) then mret false
    else if 2 ^ 32 - 1 <=? total_size then mret false
    else
      let* new_memory_data := grow_block s memory_data total_size_old total_size in
      if new_memory_data =? NULL then mret false
      else
        alloc_info_buf new_memory_data uint8T total_size ;;;
        memset_zero (new_memory_data + total_size_old) (uint32 (total_size - total_size_old)) ;;;
        let* migrated :=
          if 0 <? heap_size
          then let* handle := ld 8 (FLD memory WASMMemoryInstance "heap_handle") in
               migrate handle (heap_data_old + (new_memory_data - memory_data)) heap_size
          else mret 0 in
        if negb (migrated =? 0) then mret false
        else
          st 8 (FLD memory WASMMemoryInstance "memory_data") new_memory_data ;;;
          st 4 (FLD memory WASMMemoryInstance "cur_page_count") total_page_count ;;;
          st 8 (FLD memory WASMMemoryInstance "heap_data")
            (heap_data_old + (new_memory_data - memory_data)) ;;;
          let* heap_data := ld 8 (FLD memory WASMMemoryInstance "heap_data") in
          st 8 (FLD memory WASMMemoryInstance "heap_data_end") (heap_data + heap_size) ;;;
          let* memory_data := ld 8 (FLD memory WASMMemoryInstance "memory_data") in
          let* num_bytes_per_page := ld 4 (FLD memory WASMMemoryInstance "num_bytes_per_page") in
          st 8 (FLD memory WASMMemoryInstance "memory_data_end")
            (memory_data + uint32 (num_bytes_per_page * total_page_count)) ;;;
          mret true.
