(* ===== verification/Regs.v ===== *)
(** The local variables of [wasm_interp_call_func_bytecode]
    (wasm_interp_classic.c) as a record, and the monad of the instruction
    handlers, which read and write them next to the state of the process. *)
From stdpp Require Import base gmap list numbers strings.
From Stdlib Require Import Strings.Byte ZArith Lia.
From S2P Require Import Prelude CMemory WasmTypes PoolInfo Dump.

(** * The local variables *)

Record locals := mkLocals {
  module : Z; exec_env : Z; cur_func : Z; prev_frame : Z; memory : Z;
  num_bytes_per_page : Z; global_data : Z; linear_mem_size : Z;
  wasm_types : Z; globals : Z; global : Z; opcode_IMPDEP : Z; frame : Z;
  frame_ip : Z; frame_lp : Z; frame_sp : Z; frame_csp : Z; frame_ip_end : Z;
  opcode : Z; i_ : Z; depth : Z; cond : Z; count : Z; fidx : Z; tidx : Z; lidx : Z;
  frame_size : Z; all_cell_num : Z; val : Z;
  else_addr : Z; end_addr : Z; maddr : Z;
  local_idx : Z; local_offset : Z; global_idx : Z; local_type : Z; global_addr : Z;
  cache_index : Z; type_index : Z; cell_num : Z; value_type : Z; cache_items : Z
}.


(** ** Assignments *)

Definition set_cur_func (v : Z) (l : locals) : locals :=
  mkLocals (module l) (exec_env l) v (prev_frame l) (memory l) (num_bytes_per_page l)
    (global_data l) (linear_mem_size l) (wasm_types l) (globals l) (global l) (opcode_IMPDEP l)
    (frame l) (frame_ip l) (frame_lp l) (frame_sp l) (frame_csp l) (frame_ip_end l) (opcode l)
    (i_ l) (depth l) (cond l) (count l) (fidx l) (tidx l) (lidx l) (frame_size l)
    (all_cell_num l) (val l) (else_addr l) (end_addr l) (maddr l) (local_idx l) (local_offset l)
    (global_idx l) (local_type l) (global_addr l) (cache_index l) (type_index l) (cell_num l)
    (value_type l) (cache_items l).

Definition set_prev_frame (v : Z) (l : locals) : locals :=
  mkLocals (module l) (exec_env l) (cur_func l) v (memory l) (num_bytes_per_page l)
    (global_data l) (linear_mem_size l) (wasm_types l) (globals l) (global l) (opcode_IMPDEP l)
    (frame l) (frame_ip l) (frame_lp l) (frame_sp l) (frame_csp l) (frame_ip_end l) (opcode l)
    (i_ l) (depth l) (cond l) (count l) (fidx l) (tidx l) (lidx l) (frame_size l)
    (all_cell_num l) (val l) (else_addr l) (end_addr l) (maddr l) (local_idx l) (local_offset l)
    (global_idx l) (local_type l) (global_addr l) (cache_index l) (type_index l) (cell_num l)
    (value_type l) (cache_items l).

Definition set_memory (v : Z) (l : locals) : locals :=
  mkLocals (module l) (exec_env l) (cur_func l) (prev_frame l) v (num_bytes_per_page l)
    (global_data l) (linear_mem_size l) (wasm_types l) (globals l) (global l) (opcode_IMPDEP l)
    (frame l) (frame_ip l) (frame_lp l) (frame_sp l) (frame_csp l) (frame_ip_end l) (opcode l)
    (i_ l) (depth l) (cond l) (count l) (fidx l) (tidx l) (lidx l) (frame_size l)
    (all_cell_num l) (val l) (else_addr l) (end_addr l) (maddr l) (local_idx l) (local_offset l)
    (global_idx l) (local_type l) (global_addr l) (cache_index l) (type_index l) (cell_num l)
    (value_type l) (cache_items l).

Definition set_linear_mem_size (v : Z) (l : locals) : locals :=
  mkLocals (module l) (exec_env l) (cur_func l) (prev_frame l) (memory l) (num_bytes_per_page l)
    (global_data l) v (wasm_types l) (globals l) (global l) (opcode_IMPDEP l) (frame l)
    (frame_ip l) (frame_lp l) (frame_sp l) (frame_csp l) (frame_ip_end l) (opcode l) (i_ l)
    (depth l) (cond l) (count l) (fidx l) (tidx l) (lidx l) (frame_size l) (all_cell_num l)
    (val l) (else_addr l) (end_addr l) (maddr l) (local_idx l) (local_offset l) (global_idx l)
    (local_type l) (global_addr l) (cache_index l) (type_index l) (cell_num l) (value_type l)
    (cache_items l).

Definition set_global (v : Z) (l : locals) : locals :=
  mkLocals (module l) (exec_env l) (cur_func l) (prev_frame l) (memory l) (num_bytes_per_page l)
    (global_data l) (linear_mem_size l) (wasm_types l) (globals l) v (opcode_IMPDEP l) (frame l)
    (frame_ip l) (frame_lp l) (frame_sp l) (frame_csp l) (frame_ip_end l) (opcode l) (i_ l)
    (depth l) (cond l) (count l) (fidx l) (tidx l) (lidx l) (frame_size l) (all_cell_num l)
    (val l) (else_addr l) (end_addr l) (maddr l) (local_idx l) (local_offset l) (global_idx l)
    (local_type l) (global_addr l) (cache_index l) (type_index l) (cell_num l) (value_type l)
    (cache_items l).

Definition set_frame (v : Z) (l : locals) : locals :=
  mkLocals (module l) (exec_env l) (cur_func l) (prev_frame l) (memory l) (num_bytes_per_page l)
    (global_data l) (linear_mem_size l) (wasm_types l) (globals l) (global l) (opcode_IMPDEP l) v
    (frame_ip l) (frame_lp l) (frame_sp l) (frame_csp l) (frame_ip_end l) (opcode l) (i_ l)
    (depth l) (cond l) (count l) (fidx l) (tidx l) (lidx l) (frame_size l) (all_cell_num l)
    (val l) (else_addr l) (end_addr l) (maddr l) (local_idx l) (local_offset l) (global_idx l)
    (local_type l) (global_addr l) (cache_index l) (type_index l) (cell_num l) (value_type l)
    (cache_items l).

Definition set_frame_ip (v : Z) (l : locals) : locals :=
  mkLocals (module l) (exec_env l) (cur_func l) (prev_frame l) (memory l) (num_bytes_per_page l)
    (global_data l) (linear_mem_size l) (wasm_types l) (globals l) (global l) (opcode_IMPDEP l)
    (frame l) v (frame_lp l) (frame_sp l) (frame_csp l) (frame_ip_end l) (opcode l) (i_ l)
    (depth l) (cond l) (count l) (fidx l) (tidx l) (lidx l) (frame_size l) (all_cell_num l)
    (val l) (else_addr l) (end_addr l) (maddr l) (local_idx l) (local_offset l) (global_idx l)
    (local_type l) (global_addr l) (cache_index l) (type_index l) (cell_num l) (value_type l)
    (cache_items l).

Definition set_frame_lp (v : Z) (l : locals) : locals :=
  mkLocals (module l) (exec_env l) (cur_func l) (prev_frame l) (memory l) (num_bytes_per_page l)
    (global_data l) (linear_mem_size l) (wasm_types l) (globals l) (global l) (opcode_IMPDEP l)
    (frame l) (frame_ip l) v (frame_sp l) (frame_csp l) (frame_ip_end l) (opcode l) (i_ l)
    (depth l) (cond l) (count l) (fidx l) (tidx l) (lidx l) (frame_size l) (all_cell_num l)
    (val l) (else_addr l) (end_addr l) (maddr l) (local_idx l) (local_offset l) (global_idx l)
    (local_type l) (global_addr l) (cache_index l) (type_index l) (cell_num l) (value_type l)
    (cache_items l).

Definition set_frame_sp (v : Z) (l : locals) : locals :=
  mkLocals (module l) (exec_env l) (cur_func l) (prev_frame l) (memory l) (num_bytes_per_page l)
    (global_data l) (linear_mem_size l) (wasm_types l) (globals l) (global l) (opcode_IMPDEP l)
    (frame l) (frame_ip l) (frame_lp l) v (frame_csp l) (frame_ip_end l) (opcode l) (i_ l)
    (depth l) (cond l) (count l) (fidx l) (tidx l) (lidx l) (frame_size l) (all_cell_num l)
    (val l) (else_addr l) (end_addr l) (maddr l) (local_idx l) (local_offset l) (global_idx l)
    (local_type l) (global_addr l) (cache_index l) (type_index l) (cell_num l) (value_type l)
    (cache_items l).

Definition set_frame_csp (v : Z) (l : locals) : locals :=
  mkLocals (module l) (exec_env l) (cur_func l) (prev_frame l) (memory l) (num_bytes_per_page l)
    (global_data l) (linear_mem_size l) (wasm_types l) (globals l) (global l) (opcode_IMPDEP l)
    (frame l) (frame_ip l) (frame_lp l) (frame_sp l) v (frame_ip_end l) (opcode l) (i_ l)
    (depth l) (cond l) (count l) (fidx l) (tidx l) (lidx l) (frame_size l) (all_cell_num l)
    (val l) (else_addr l) (end_addr l) (maddr l) (local_idx l) (local_offset l) (global_idx l)
    (local_type l) (global_addr l) (cache_index l) (type_index l) (cell_num l) (value_type l)
    (cache_items l).

Definition set_frame_ip_end (v : Z) (l : locals) : locals :=
  mkLocals (module l) (exec_env l) (cur_func l) (prev_frame l) (memory l) (num_bytes_per_page l)
    (global_data l) (linear_mem_size l) (wasm_types l) (globals l) (global l) (opcode_IMPDEP l)
    (frame l) (frame_ip l) (frame_lp l) (frame_sp l) (frame_csp l) v (opcode l) (i_ l) (depth l)
    (cond l) (count l) (fidx l) (tidx l) (lidx l) (frame_size l) (all_cell_num l) (val l)
    (else_addr l) (end_addr l) (maddr l) (local_idx l) (local_offset l) (global_idx l)
    (local_type l) (global_addr l) (cache_index l) (type_index l) (cell_num l) (value_type l)
    (cache_items l).

Definition set_opcode (v : Z) (l : locals) : locals :=
  mkLocals (module l) (exec_env l) (cur_func l) (prev_frame l) (memory l) (num_bytes_per_page l)
    (global_data l) (linear_mem_size l) (wasm_types l) (globals l) (global l) (opcode_IMPDEP l)
    (frame l) (frame_ip l) (frame_lp l) (frame_sp l) (frame_csp l) (frame_ip_end l) v (i_ l)
    (depth l) (cond l) (count l) (fidx l) (tidx l) (lidx l) (frame_size l) (all_cell_num l)
    (val l) (else_addr l) (end_addr l) (maddr l) (local_idx l) (local_offset l) (global_idx l)
    (local_type l) (global_addr l) (cache_index l) (type_index l) (cell_num l) (value_type l)
    (cache_items l).

Definition set_i (v : Z) (l : locals) : locals :=
  mkLocals (module l) (exec_env l) (cur_func l) (prev_frame l) (memory l) (num_bytes_per_page l)
    (global_data l) (linear_mem_size l) (wasm_types l) (globals l) (global l) (opcode_IMPDEP l)
    (frame l) (frame_ip l) (frame_lp l) (frame_sp l) (frame_csp l) (frame_ip_end l) (opcode l) v
    (depth l) (cond l) (count l) (fidx l) (tidx l) (lidx l) (frame_size l) (all_cell_num l)
    (val l) (else_addr l) (end_addr l) (maddr l) (local_idx l) (local_offset l) (global_idx l)
    (local_type l) (global_addr l) (cache_index l) (type_index l) (cell_num l) (value_type l)
    (cache_items l).

Definition set_depth (v : Z) (l : locals) : locals :=
  mkLocals (module l) (exec_env l) (cur_func l) (prev_frame l) (memory l) (num_bytes_per_page l)
    (global_data l) (linear_mem_size l) (wasm_types l) (globals l) (global l) (opcode_IMPDEP l)
    (frame l) (frame_ip l) (frame_lp l) (frame_sp l) (frame_csp l) (frame_ip_end l) (opcode l)
    (i_ l) v (cond l) (count l) (fidx l) (tidx l) (lidx l) (frame_size l) (all_cell_num l)
    (val l) (else_addr l) (end_addr l) (maddr l) (local_idx l) (local_offset l) (global_idx l)
    (local_type l) (global_addr l) (cache_index l) (type_index l) (cell_num l) (value_type l)
    (cache_items l).

Definition set_cond (v : Z) (l : locals) : locals :=
  mkLocals (module l) (exec_env l) (cur_func l) (prev_frame l) (memory l) (num_bytes_per_page l)
    (global_data l) (linear_mem_size l) (wasm_types l) (globals l) (global l) (opcode_IMPDEP l)
    (frame l) (frame_ip l) (frame_lp l) (frame_sp l) (frame_csp l) (frame_ip_end l) (opcode l)
    (i_ l) (depth l) v (count l) (fidx l) (tidx l) (lidx l) (frame_size l) (all_cell_num l)
    (val l) (else_addr l) (end_addr l) (maddr l) (local_idx l) (local_offset l) (global_idx l)
    (local_type l) (global_addr l) (cache_index l) (type_index l) (cell_num l) (value_type l)
    (cache_items l).

Definition set_count (v : Z) (l : locals) : locals :=
  mkLocals (module l) (exec_env l) (cur_func l) (prev_frame l) (memory l) (num_bytes_per_page l)
    (global_data l) (linear_mem_size l) (wasm_types l) (globals l) (global l) (opcode_IMPDEP l)
    (frame l) (frame_ip l) (frame_lp l) (frame_sp l) (frame_csp l) (frame_ip_end l) (opcode l)
    (i_ l) (depth l) (cond l) v (fidx l) (tidx l) (lidx l) (frame_size l) (all_cell_num l)
    (val l) (else_addr l) (end_addr l) (maddr l) (local_idx l) (local_offset l) (global_idx l)
    (local_type l) (global_addr l) (cache_index l) (type_index l) (cell_num l) (value_type l)
    (cache_items l).

Definition set_fidx (v : Z) (l : locals) : locals :=
  mkLocals (module l) (exec_env l) (cur_func l) (prev_frame l) (memory l) (num_bytes_per_page l)
    (global_data l) (linear_mem_size l) (wasm_types l) (globals l) (global l) (opcode_IMPDEP l)
    (frame l) (frame_ip l) (frame_lp l) (frame_sp l) (frame_csp l) (frame_ip_end l) (opcode l)
    (i_ l) (depth l) (cond l) (count l) v (tidx l) (lidx l) (frame_size l) (all_cell_num l)
    (val l) (else_addr l) (end_addr l) (maddr l) (local_idx l) (local_offset l) (global_idx l)
    (local_type l) (global_addr l) (cache_index l) (type_index l) (cell_num l) (value_type l)
    (cache_items l).

Definition set_tidx (v : Z) (l : locals) : locals :=
  mkLocals (module l) (exec_env l) (cur_func l) (prev_frame l) (memory l) (num_bytes_per_page l)
    (global_data l) (linear_mem_size l) (wasm_types l) (globals l) (global l) (opcode_IMPDEP l)
    (frame l) (frame_ip l) (frame_lp l) (frame_sp l) (frame_csp l) (frame_ip_end l) (opcode l)
    (i_ l) (depth l) (cond l) (count l) (fidx l) v (lidx l) (frame_size l) (all_cell_num l)
    (val l) (else_addr l) (end_addr l) (maddr l) (local_idx l) (local_offset l) (global_idx l)
    (local_type l) (global_addr l) (cache_index l) (type_index l) (cell_num l) (value_type l)
    (cache_items l).

Definition set_lidx (v : Z) (l : locals) : locals :=
  mkLocals (module l) (exec_env l) (cur_func l) (prev_frame l) (memory l) (num_bytes_per_page l)
    (global_data l) (linear_mem_size l) (wasm_types l) (globals l) (global l) (opcode_IMPDEP l)
    (frame l) (frame_ip l) (frame_lp l) (frame_sp l) (frame_csp l) (frame_ip_end l) (opcode l)
    (i_ l) (depth l) (cond l) (count l) (fidx l) (tidx l) v (frame_size l) (all_cell_num l)
    (val l) (else_addr l) (end_addr l) (maddr l) (local_idx l) (local_offset l) (global_idx l)
    (local_type l) (global_addr l) (cache_index l) (type_index l) (cell_num l) (value_type l)
    (cache_items l).

Definition set_frame_size (v : Z) (l : locals) : locals :=
  mkLocals (module l) (exec_env l) (cur_func l) (prev_frame l) (memory l) (num_bytes_per_page l)
    (global_data l) (linear_mem_size l) (wasm_types l) (globals l) (global l) (opcode_IMPDEP l)
    (frame l) (frame_ip l) (frame_lp l) (frame_sp l) (frame_csp l) (frame_ip_end l) (opcode l)
    (i_ l) (depth l) (cond l) (count l) (fidx l) (tidx l) (lidx l) v (all_cell_num l) (val l)
    (else_addr l) (end_addr l) (maddr l) (local_idx l) (local_offset l) (global_idx l)
    (local_type l) (global_addr l) (cache_index l) (type_index l) (cell_num l) (value_type l)
    (cache_items l).

Definition set_all_cell_num (v : Z) (l : locals) : locals :=
  mkLocals (module l) (exec_env l) (cur_func l) (prev_frame l) (memory l) (num_bytes_per_page l)
    (global_data l) (linear_mem_size l) (wasm_types l) (globals l) (global l) (opcode_IMPDEP l)
    (frame l) (frame_ip l) (frame_lp l) (frame_sp l) (frame_csp l) (frame_ip_end l) (opcode l)
    (i_ l) (depth l) (cond l) (count l) (fidx l) (tidx l) (lidx l) (frame_size l) v (val l)
    (else_addr l) (end_addr l) (maddr l) (local_idx l) (local_offset l) (global_idx l)
    (local_type l) (global_addr l) (cache_index l) (type_index l) (cell_num l) (value_type l)
    (cache_items l).

Definition set_val (v : Z) (l : locals) : locals :=
  mkLocals (module l) (exec_env l) (cur_func l) (prev_frame l) (memory l) (num_bytes_per_page l)
    (global_data l) (linear_mem_size l) (wasm_types l) (globals l) (global l) (opcode_IMPDEP l)
    (frame l) (frame_ip l) (frame_lp l) (frame_sp l) (frame_csp l) (frame_ip_end l) (opcode l)
    (i_ l) (depth l) (cond l) (count l) (fidx l) (tidx l) (lidx l) (frame_size l)
    (all_cell_num l) v (else_addr l) (end_addr l) (maddr l) (local_idx l) (local_offset l)
    (global_idx l) (local_type l) (global_addr l) (cache_index l) (type_index l) (cell_num l)
    (value_type l) (cache_items l).

Definition set_else_addr (v : Z) (l : locals) : locals :=
  mkLocals (module l) (exec_env l) (cur_func l) (prev_frame l) (memory l) (num_bytes_per_page l)
    (global_data l) (linear_mem_size l) (wasm_types l) (globals l) (global l) (opcode_IMPDEP l)
    (frame l) (frame_ip l) (frame_lp l) (frame_sp l) (frame_csp l) (frame_ip_end l) (opcode l)
    (i_ l) (depth l) (cond l) (count l) (fidx l) (tidx l) (lidx l) (frame_size l)
    (all_cell_num l) (val l) v (end_addr l) (maddr l) (local_idx l) (local_offset l)
    (global_idx l) (local_type l) (global_addr l) (cache_index l) (type_index l) (cell_num l)
    (value_type l) (cache_items l).

Definition set_end_addr (v : Z) (l : locals) : locals :=
  mkLocals (module l) (exec_env l) (cur_func l) (prev_frame l) (memory l) (num_bytes_per_page l)
    (global_data l) (linear_mem_size l) (wasm_types l) (globals l) (global l) (opcode_IMPDEP l)
    (frame l) (frame_ip l) (frame_lp l) (frame_sp l) (frame_csp l) (frame_ip_end l) (opcode l)
    (i_ l) (depth l) (cond l) (count l) (fidx l) (tidx l) (lidx l) (frame_size l)
    (all_cell_num l) (val l) (else_addr l) v (maddr l) (local_idx l) (local_offset l)
    (global_idx l) (local_type l) (global_addr l) (cache_index l) (type_index l) (cell_num l)
    (value_type l) (cache_items l).

Definition set_maddr (v : Z) (l : locals) : locals :=
  mkLocals (module l) (exec_env l) (cur_func l) (prev_frame l) (memory l) (num_bytes_per_page l)
    (global_data l) (linear_mem_size l) (wasm_types l) (globals l) (global l) (opcode_IMPDEP l)
    (frame l) (frame_ip l) (frame_lp l) (frame_sp l) (frame_csp l) (frame_ip_end l) (opcode l)
    (i_ l) (depth l) (cond l) (count l) (fidx l) (tidx l) (lidx l) (frame_size l)
    (all_cell_num l) (val l) (else_addr l) (end_addr l) v (local_idx l) (local_offset l)
    (global_idx l) (local_type l) (global_addr l) (cache_index l) (type_index l) (cell_num l)
    (value_type l) (cache_items l).

Definition set_local_idx (v : Z) (l : locals) : locals :=
  mkLocals (module l) (exec_env l) (cur_func l) (prev_frame l) (memory l) (num_bytes_per_page l)
    (global_data l) (linear_mem_size l) (wasm_types l) (globals l) (global l) (opcode_IMPDEP l)
    (frame l) (frame_ip l) (frame_lp l) (frame_sp l) (frame_csp l) (frame_ip_end l) (opcode l)
    (i_ l) (depth l) (cond l) (count l) (fidx l) (tidx l) (lidx l) (frame_size l)
    (all_cell_num l) (val l) (else_addr l) (end_addr l) (maddr l) v (local_offset l)
    (global_idx l) (local_type l) (global_addr l) (cache_index l) (type_index l) (cell_num l)
    (value_type l) (cache_items l).

Definition set_local_offset (v : Z) (l : locals) : locals :=
  mkLocals (module l) (exec_env l) (cur_func l) (prev_frame l) (memory l) (num_bytes_per_page l)
    (global_data l) (linear_mem_size l) (wasm_types l) (globals l) (global l) (opcode_IMPDEP l)
    (frame l) (frame_ip l) (frame_lp l) (frame_sp l) (frame_csp l) (frame_ip_end l) (opcode l)
    (i_ l) (depth l) (cond l) (count l) (fidx l) (tidx l) (lidx l) (frame_size l)
    (all_cell_num l) (val l) (else_addr l) (end_addr l) (maddr l) (local_idx l) v (global_idx l)
    (local_type l) (global_addr l) (cache_index l) (type_index l) (cell_num l) (value_type l)
    (cache_items l).

Definition set_global_idx (v : Z) (l : locals) : locals :=
  mkLocals (module l) (exec_env l) (cur_func l) (prev_frame l) (memory l) (num_bytes_per_page l)
    (global_data l) (linear_mem_size l) (wasm_types l) (globals l) (global l) (opcode_IMPDEP l)
    (frame l) (frame_ip l) (frame_lp l) (frame_sp l) (frame_csp l) (frame_ip_end l) (opcode l)
    (i_ l) (depth l) (cond l) (count l) (fidx l) (tidx l) (lidx l) (frame_size l)
    (all_cell_num l) (val l) (else_addr l) (end_addr l) (maddr l) (local_idx l) (local_offset l)
    v (local_type l) (global_addr l) (cache_index l) (type_index l) (cell_num l) (value_type l)
    (cache_items l).

Definition set_local_type (v : Z) (l : locals) : locals :=
  mkLocals (module l) (exec_env l) (cur_func l) (prev_frame l) (memory l) (num_bytes_per_page l)
    (global_data l) (linear_mem_size l) (wasm_types l) (globals l) (global l) (opcode_IMPDEP l)
    (frame l) (frame_ip l) (frame_lp l) (frame_sp l) (frame_csp l) (frame_ip_end l) (opcode l)
    (i_ l) (depth l) (cond l) (count l) (fidx l) (tidx l) (lidx l) (frame_size l)
    (all_cell_num l) (val l) (else_addr l) (end_addr l) (maddr l) (local_idx l) (local_offset l)
    (global_idx l) v (global_addr l) (cache_index l) (type_index l) (cell_num l) (value_type l)
    (cache_items l).

Definition set_global_addr (v : Z) (l : locals) : locals :=
  mkLocals (module l) (exec_env l) (cur_func l) (prev_frame l) (memory l) (num_bytes_per_page l)
    (global_data l) (linear_mem_size l) (wasm_types l) (globals l) (global l) (opcode_IMPDEP l)
    (frame l) (frame_ip l) (frame_lp l) (frame_sp l) (frame_csp l) (frame_ip_end l) (opcode l)
    (i_ l) (depth l) (cond l) (count l) (fidx l) (tidx l) (lidx l) (frame_size l)
    (all_cell_num l) (val l) (else_addr l) (end_addr l) (maddr l) (local_idx l) (local_offset l)
    (global_idx l) (local_type l) v (cache_index l) (type_index l) (cell_num l) (value_type l)
    (cache_items l).

Definition set_cache_index (v : Z) (l : locals) : locals :=
  mkLocals (module l) (exec_env l) (cur_func l) (prev_frame l) (memory l) (num_bytes_per_page l)
    (global_data l) (linear_mem_size l) (wasm_types l) (globals l) (global l) (opcode_IMPDEP l)
    (frame l) (frame_ip l) (frame_lp l) (frame_sp l) (frame_csp l) (frame_ip_end l) (opcode l)
    (i_ l) (depth l) (cond l) (count l) (fidx l) (tidx l) (lidx l) (frame_size l)
    (all_cell_num l) (val l) (else_addr l) (end_addr l) (maddr l) (local_idx l) (local_offset l)
    (global_idx l) (local_type l) (global_addr l) v (type_index l) (cell_num l) (value_type l)
    (cache_items l).

Definition set_type_index (v : Z) (l : locals) : locals :=
  mkLocals (module l) (exec_env l) (cur_func l) (prev_frame l) (memory l) (num_bytes_per_page l)
    (global_data l) (linear_mem_size l) (wasm_types l) (globals l) (global l) (opcode_IMPDEP l)
    (frame l) (frame_ip l) (frame_lp l) (frame_sp l) (frame_csp l) (frame_ip_end l) (opcode l)
    (i_ l) (depth l) (cond l) (count l) (fidx l) (tidx l) (lidx l) (frame_size l)
    (all_cell_num l) (val l) (else_addr l) (end_addr l) (maddr l) (local_idx l) (local_offset l)
    (global_idx l) (local_type l) (global_addr l) (cache_index l) v (cell_num l) (value_type l)
    (cache_items l).

Definition set_cell_num (v : Z) (l : locals) : locals :=
  mkLocals (module l) (exec_env l) (cur_func l) (prev_frame l) (memory l) (num_bytes_per_page l)
    (global_data l) (linear_mem_size l) (wasm_types l) (globals l) (global l) (opcode_IMPDEP l)
    (frame l) (frame_ip l) (frame_lp l) (frame_sp l) (frame_csp l) (frame_ip_end l) (opcode l)
    (i_ l) (depth l) (cond l) (count l) (fidx l) (tidx l) (lidx l) (frame_size l)
    (all_cell_num l) (val l) (else_addr l) (end_addr l) (maddr l) (local_idx l) (local_offset l)
    (global_idx l) (local_type l) (global_addr l) (cache_index l) (type_index l) v (value_type l)
    (cache_items l).

Definition set_value_type (v : Z) (l : locals) : locals :=
  mkLocals (module l) (exec_env l) (cur_func l) (prev_frame l) (memory l) (num_bytes_per_page l)
    (global_data l) (linear_mem_size l) (wasm_types l) (globals l) (global l) (opcode_IMPDEP l)
    (frame l) (frame_ip l) (frame_lp l) (frame_sp l) (frame_csp l) (frame_ip_end l) (opcode l)
    (i_ l) (depth l) (cond l) (count l) (fidx l) (tidx l) (lidx l) (frame_size l)
    (all_cell_num l) (val l) (else_addr l) (end_addr l) (maddr l) (local_idx l) (local_offset l)
    (global_idx l) (local_type l) (global_addr l) (cache_index l) (type_index l) (cell_num l) v
    (cache_items l).

Definition set_cache_items (v : Z) (l : locals) : locals :=
  mkLocals (module l) (exec_env l) (cur_func l) (prev_frame l) (memory l) (num_bytes_per_page l)
    (global_data l) (linear_mem_size l) (wasm_types l) (globals l) (global l) (opcode_IMPDEP l)
    (frame l) (frame_ip l) (frame_lp l) (frame_sp l) (frame_csp l) (frame_ip_end l) (opcode l)
    (i_ l) (depth l) (cond l) (count l) (fidx l) (tidx l) (lidx l) (frame_size l)
    (all_cell_num l) (val l) (else_addr l) (end_addr l) (maddr l) (local_idx l) (local_offset l)
    (global_idx l) (local_type l) (global_addr l) (cache_index l) (type_index l) (cell_num l)
    (value_type l) v.

(** * The monad of the handlers *)

Abbreviation R := (M (locals * world)).

Definition lift {A} (c : C A) : R A := fun s =>
  match c s.2 with
  | Ok a w => Ok a (s.1, w)
  | Exited n => Exited n
  | Stuck => Stuck
  end.

Definition reg (f : locals → Z) : R Z := gets (fun s => f s.1).
Definition assign (f : Z → locals → locals) (v : Z) : R unit := modify (fun s => (f v s.1, s.2)).

(** * Frames and code *)

Definition wasm_get_func_code_end (func : Z) : C Z :=
  let* is_import_func := ld 1 (FLD func WASMFunctionInstance "is_import_func") in
  if negb (is_import_func =? 0) then mret NULL
  else let* f := ld 8 (FLD func WASMFunctionInstance "u.func") in
       let* code := ld 8 (FLD f WASMFunction "code") in
       let* code_size := ld 4 (FLD f WASMFunction "code_size") in
       mret (code + code_size).

(** [SYNC_ALL_TO_FRAME]. *)
Definition SYNC_ALL_TO_FRAME (l : locals) : C unit :=
  st 8 (FLD (frame l) WASMInterpFrame "sp") (frame_sp l) ;;;
  st 8 (FLD (frame l) WASMInterpFrame "ip") (frame_ip l) ;;;
  st 8 (FLD (frame l) WASMInterpFrame "csp") (frame_csp l).
