(* ===== verification/Macros.v ===== *)
(** The macros of the instruction handlers (wasm_interp_classic.c): the operand
    stack, the label stack, immediates, and the address of a memory access.
    [bh_assert] is switched off in a release build. *)
From stdpp Require Import base gmap list numbers strings.
From Stdlib Require Import Strings.Byte ZArith Lia.
From S2P Require Import Prelude CMemory WasmTypes PoolInfo ExecEnv Opcodes Leb Regs.

(** Where a handler goes: [HANDLE_OP_END] or one of the labels. *)
Inductive flow :=
| HANDLE_OP_END
| call_func_from_interp
| call_func_from_entry
| return_func
| out_of_bounds
| got_exception.

Definition ldr (n a : Z) : R Z := lift (ld n a).
Definition str (n a v : Z) : R unit := lift (st n a v).

(** ** Immediates *)

Definition read_with (leb : mem → Z → option (Z * Z)) : R Z :=
  let* p := reg frame_ip in
  let* r := gets (fun s => leb (wmem s.2) p) in
  match r with
  | Some (res, p) => assign set_frame_ip p ;;; mret res
  | None => mstuck
  end.

Definition read_leb_uint32 : R Z := read_with leb_uint32.
Definition read_leb_int32 : R Z := read_with leb_int32.
Definition read_leb_int64 : R Z := read_with leb_int64.

(** [skip_leb(frame_ip)]. *)
Definition skip_leb_ip : R unit :=
  let* p := reg frame_ip in
  let* r := gets (fun s => skip_leb (wmem s.2) p) in
  match r with Some p => assign set_frame_ip p | None => mstuck end.

(** [*frame_ip++]. *)
Definition read_byte : R Z :=
  let* p := reg frame_ip in
  let* b := ldr 1 p in
  assign set_frame_ip (p + 1) ;;;
  mret b.

(** ** The operand stack *)

Definition PUSH_I32 (value : Z) : R unit :=
  let* sp := reg frame_sp in
  str 4 sp (uint32 value) ;;;
  assign set_frame_sp (sp + 4).

Definition PUSH_I64 (value : Z) : R unit :=
  let* sp := reg frame_sp in
  str 8 sp (uint64 value) ;;;
  assign set_frame_sp (sp + 8).

(** The operand as a signed integer. *)
Definition POP_I32 : R Z :=
  let* sp := reg frame_sp in
  assign set_frame_sp (sp - 4) ;;;
  let* v := ldr 4 (sp - 4) in
  mret (int32 v).

Definition POP_I64 : R Z :=
  let* sp := reg frame_sp in
  assign set_frame_sp (sp - 8) ;;;
  let* v := ldr 8 (sp - 8) in
  mret (swrap 64 v).

(** Floats are the bits they are stored as. *)
Definition PUSH_F32 (bits : Z) : R unit := PUSH_I32 bits.
Definition PUSH_F64 (bits : Z) : R unit := PUSH_I64 bits.
Definition POP_F32 : R Z := let* v := POP_I32 in mret (uint32 v).
Definition POP_F64 : R Z := let* v := POP_I64 in mret (uint64 v).

(** [POP(N)]. *)
Definition POP (n : Z) : R unit :=
  let* sp := reg frame_sp in assign set_frame_sp (sp - n * 4).

(** ** The label stack *)

Definition PUSH_CSP (_label_type cell_num _target_addr : Z) : R unit :=
  let* csp := reg frame_csp in
  str 4 (FLD csp WASMBranchBlock "cell_num") cell_num ;;;
  let* ip := reg frame_ip in
  str 8 (FLD csp WASMBranchBlock "begin_addr") ip ;;;
  str 8 (FLD csp WASMBranchBlock "target_addr") _target_addr ;;;
  let* sp := reg frame_sp in
  str 8 (FLD csp WASMBranchBlock "frame_sp") sp ;;;
  assign set_frame_csp (csp + SIZEOF WASMBranchBlock).

Definition POP_CSP : R unit :=
  let* csp := reg frame_csp in assign set_frame_csp (csp - SIZEOF WASMBranchBlock).

(** [word_copy]: word by word, upwards. *)
Fixpoint word_copy_n (dest src : Z) (num : nat) : C unit :=
  match num with
  | O => skip
  | S num =>
      let* v := ld 4 src in
      st 4 dest v ;;;
      word_copy_n (dest + 4) (src + 4) num
  end.

Definition word_copy (dest src num : Z) : C unit := word_copy_n dest src (Z.to_nat num).

Definition POP_CSP_N (n : Z) : R unit :=
  let* frame_sp_old := reg frame_sp in
  let* csp := reg frame_csp in
  let csp := csp - n * SIZEOF WASMBranchBlock in
  assign set_frame_csp csp ;;;
  let top := csp - SIZEOF WASMBranchBlock in
  let* target_addr := ldr 8 (FLD top WASMBranchBlock "target_addr") in
  assign set_frame_ip target_addr ;;;
  let* sp := ldr 8 (FLD top WASMBranchBlock "frame_sp") in
  assign set_frame_sp sp ;;;
  let* cell_num := ldr 4 (FLD top WASMBranchBlock "cell_num") in
  lift (word_copy sp (frame_sp_old - cell_num * 4) cell_num) ;;;
  assign set_frame_sp (sp + cell_num * 4).

(** ** The frame *)

Definition SYNC_ALL : R unit := let* l := gets fst in lift (SYNC_ALL_TO_FRAME l).

Definition UPDATE_ALL_FROM_FRAME : R unit :=
  let* frame := reg frame in
  let* sp := ldr 8 (FLD frame WASMInterpFrame "sp") in
  assign set_frame_sp sp ;;;
  let* ip := ldr 8 (FLD frame WASMInterpFrame "ip") in
  assign set_frame_ip ip ;;;
  let* csp := ldr 8 (FLD frame WASMInterpFrame "csp") in
  assign set_frame_csp csp.

Definition RECOVER_FRAME_IP_END : R unit :=
  let* cur_func := reg cur_func in
  let* e := lift (wasm_get_func_code_end cur_func) in
  assign set_frame_ip_end e.

Definition RECOVER_CONTEXT (new_frame : Z) : R unit :=
  assign set_frame new_frame ;;;
  let* function := ldr 8 (FLD new_frame WASMInterpFrame "function") in
  assign set_cur_func function ;;;
  let* prev := ldr 8 (FLD new_frame WASMInterpFrame "prev_frame") in
  assign set_prev_frame prev ;;;
  let* ip := ldr 8 (FLD new_frame WASMInterpFrame "ip") in
  assign set_frame_ip ip ;;;
  RECOVER_FRAME_IP_END ;;;
  assign set_frame_lp (FLD new_frame WASMInterpFrame "lp") ;;;
  let* sp := ldr 8 (FLD new_frame WASMInterpFrame "sp") in
  assign set_frame_sp sp ;;;
  let* csp := ldr 8 (FLD new_frame WASMInterpFrame "csp") in
  assign set_frame_csp csp.

(** ** Exceptions and memory accesses *)

(** [wasm_set_exception(module, msg); goto got_exception]. *)
Definition throw (msg : string) : R flow :=
  let* module := reg module in
  lift (wasm_set_exception module (Some msg)) ;;;
  mret got_exception.

(** [CHECK_MEMORY_OVERFLOW(bytes)], with the rest of the handler. *)
Definition CHECK_MEMORY_OVERFLOW (offset addr bytes : Z) (k : R flow) : R flow :=
  let offset1 := uint64 (offset + addr) in
  let* linear_mem_size := reg linear_mem_size in
  if uint64 (offset1 + bytes) <=? linear_mem_size then
    let* memory := reg memory in
    let* memory_data := ldr 8 (FLD memory WASMMemoryInstance "memory_data") in
    assign set_maddr (memory_data + offset1) ;;;
    k
  else mret out_of_bounds.

(** [HANDLE_OP_END()] after the effects of a handler. *)
Definition op_end (c : R unit) : R flow := c ;;; mret HANDLE_OP_END.
