(* ===== verification/DataOps.v ===== *)
(** The instructions that work on the operand stack, the locals, the globals and
    the linear memory (wasm_interp_classic.c, the cases of the [switch] from
    [WASM_OP_DROP] to [WASM_OP_MISC_PREFIX]).  A definition per group of cases
    gives the handler of an opcode, or nothing when the opcode is of another
    group. *)
From stdpp Require Import base gmap list numbers strings.
From Stdlib Require Import Strings.Byte ZArith Lia.
From S2P Require Import Prelude CMemory WasmTypes PoolInfo ExecEnv Memory MemGrow Opcodes Numeric Float Leb.
From S2P Require Import Regs Macros.

(** * Parametric instructions *)

(** [*(frame_sp - k) = *frame_sp] of a word. *)
Definition copy_cell (dst src : Z) : R unit := let* v := ldr 4 src in str 4 dst v.

Definition handle_parametric (op : WASMOpcode) : option (R flow) :=
  match op with
  | WASM_OP_DROP => Some (op_end (POP 1))
  | WASM_OP_DROP_64 => Some (op_end (POP 2))
  | WASM_OP_SELECT => Some (
      let* c := POP_I32 in
      assign set_cond (uint32 c) ;;;
      POP 1 ;;;
      let* sp := reg frame_sp in
      op_end (if uint32 c =? 0 then copy_cell (sp - 4) sp else skip))
  | WASM_OP_SELECT_64 => Some (
      let* c := POP_I32 in
      assign set_cond (uint32 c) ;;;
      POP 2 ;;;
      let* sp := reg frame_sp in
      op_end (if uint32 c =? 0
              then copy_cell (sp - 8) sp ;;; copy_cell (sp - 4) (sp + 4)
              else skip))
  | _ => None
  end.

(** * Locals *)

Definition GET_LOCAL_INDEX_TYPE_AND_OFFSET : R unit :=
  let* f := reg cur_func in
  let* param_count := ldr 2 (FLD f WASMFunctionInstance "param_count") in
  let* idx := read_leb_uint32 in
  assign set_local_idx idx ;;;
  let* local_offsets := ldr 8 (FLD f WASMFunctionInstance "local_offsets") in
  let* offset := ldr 2 (local_offsets + idx * 2) in
  assign set_local_offset offset ;;;
  let* type :=
    (if idx <? param_count
     then let* param_types := ldr 8 (FLD f WASMFunctionInstance "param_types") in ldr 1 (param_types + idx)
     else let* local_types := ldr 8 (FLD f WASMFunctionInstance "local_types") in
          ldr 1 (local_types + uint32 (idx - param_count))) in
  assign set_local_type type.

(** The [switch] on the type of the local: a cell, two cells, or neither. *)
Definition on_local_type (c32 c64 : R unit) : R flow :=
  let* t := reg local_type in
  if (t =? VALUE_TYPE_I32) || (t =? VALUE_TYPE_F32) then op_end c32
  else if (t =? VALUE_TYPE_I64) || (t =? VALUE_TYPE_F64) then op_end c64
  else throw "invalid local type"%string.

(** [frame_lp + offset]. *)
Definition local_addr (offset : Z) : R Z := let* lp := reg frame_lp in mret (lp + offset * 4).

Definition get_local32 (offset : Z) : R unit :=
  let* a := local_addr offset in let* v := ldr 4 a in PUSH_I32 v.
Definition get_local64 (offset : Z) : R unit :=
  let* a := local_addr offset in let* v := ldr 8 a in PUSH_I64 v.
Definition set_local32 (offset : Z) : R unit :=
  let* a := local_addr offset in let* v := POP_I32 in str 4 a (uint32 v).
Definition set_local64 (offset : Z) : R unit :=
  let* a := local_addr offset in let* v := POP_I64 in str 8 a (uint64 v).
Definition tee_local32 (offset : Z) : R unit :=
  let* a := local_addr offset in let* sp := reg frame_sp in let* v := ldr 4 (sp - 4) in str 4 a v.
Definition tee_local64 (offset : Z) : R unit :=
  let* a := local_addr offset in let* sp := reg frame_sp in let* v := ldr 8 (sp - 8) in str 8 a v.

Definition local_instr (c32 c64 : Z → R unit) : R flow :=
  GET_LOCAL_INDEX_TYPE_AND_OFFSET ;;;
  let* offset := reg local_offset in
  on_local_type (c32 offset) (c64 offset).

(** The forms with a byte for the offset, whose high bit is the width. *)
Definition local_fast (c32 c64 : Z → R unit) : R flow :=
  let* offset := read_byte in
  assign set_local_offset offset ;;;
  op_end (if negb (Z.land offset 0x80 =? 0) then c64 (Z.land offset 0x7F) else c32 offset).

Definition handle_local (op : WASMOpcode) : option (R flow) :=
  match op with
  | WASM_OP_GET_LOCAL => Some (local_instr get_local32 get_local64)
  | EXT_OP_GET_LOCAL_FAST => Some (local_fast get_local32 get_local64)
  | WASM_OP_SET_LOCAL => Some (local_instr set_local32 set_local64)
  | EXT_OP_SET_LOCAL_FAST => Some (local_fast set_local32 set_local64)
  | WASM_OP_TEE_LOCAL => Some (local_instr tee_local32 tee_local64)
  | EXT_OP_TEE_LOCAL_FAST => Some (local_fast tee_local32 tee_local64)
  | _ => None
  end.

(** * Globals *)

(** The address of the global an immediate names. *)
Definition global_of_index : R Z :=
  let* idx := read_leb_uint32 in
  assign set_global_idx idx ;;;
  let* globals := reg globals in
  let g := globals + idx * SIZEOF WASMGlobalInstance in
  assign set_global g ;;;
  let* global_data := reg global_data in
  let* data_offset := ldr 4 (FLD g WASMGlobalInstance "data_offset") in
  assign set_global_addr (global_data + data_offset) ;;;
  mret (global_data + data_offset).

Definition set_global_aux_stack : R flow :=
  let* a := global_of_index in
  let* sp := reg frame_sp in
  let* aux_stack_top := ldr 4 (sp - 4) in
  let* env := reg exec_env in
  let* boundary := ldr 4 (FLD env WASMExecEnv "aux_stack_boundary.boundary") in
  let* bottom := ldr 4 (FLD env WASMExecEnv "aux_stack_bottom.bottom") in
  if aux_stack_top <=? boundary then throw "wasm auxiliary stack overflow"%string
  else if bottom <? aux_stack_top then throw "wasm auxiliary stack underflow"%string
  else op_end (str 4 a aux_stack_top ;;; POP 1).

Definition handle_global (op : WASMOpcode) : option (R flow) :=
  match op with
  | WASM_OP_GET_GLOBAL => Some (let* a := global_of_index in let* v := ldr 4 a in op_end (PUSH_I32 v))
  | WASM_OP_GET_GLOBAL_64 => Some (let* a := global_of_index in let* v := ldr 8 a in op_end (PUSH_I64 v))
  | WASM_OP_SET_GLOBAL =>
      Some (let* a := global_of_index in let* v := POP_I32 in op_end (str 4 a (uint32 v)))
  | WASM_OP_SET_GLOBAL_AUX_STACK => Some set_global_aux_stack
  | WASM_OP_SET_GLOBAL_64 =>
      Some (let* a := global_of_index in let* v := POP_I64 in op_end (str 8 a (uint64 v)))
  | _ => None
  end.

(** * Linear memory *)

(** The common part of the loads: immediates, address, bounds, then [push] of
    what is at [maddr]. *)
Definition load_instr (bytes : Z) (push : Z → R unit) : R flow :=
  let* _flags := read_leb_uint32 in
  let* offset := read_leb_uint32 in
  let* addr := POP_I32 in
  CHECK_MEMORY_OVERFLOW offset (uint32 addr) bytes (
    let* maddr := reg maddr in
    let* v := ldr bytes maddr in
    op_end (push v)).

(** [opcode = *(frame_ip - 1)]. *)
Definition reload_opcode : R Z :=
  let* ip := reg frame_ip in
  let* b := ldr 1 (ip - 1) in
  assign set_opcode b ;;;
  mret b.

Definition handle_load (op : WASMOpcode) : option (R flow) :=
  match op with
  | WASM_OP_I32_LOAD | WASM_OP_F32_LOAD => Some (load_instr 4 PUSH_I32)
  | WASM_OP_I64_LOAD | WASM_OP_F64_LOAD => Some (load_instr 8 PUSH_I64)
  | WASM_OP_I32_LOAD8_S => Some (load_instr 1 (fun v => PUSH_I32 (sign_ext_8_32 (swrap 8 v))))
  | WASM_OP_I32_LOAD8_U => Some (load_instr 1 PUSH_I32)
  | WASM_OP_I32_LOAD16_S => Some (load_instr 2 (fun v => PUSH_I32 (sign_ext_16_32 (swrap 16 v))))
  | WASM_OP_I32_LOAD16_U => Some (load_instr 2 PUSH_I32)
  | WASM_OP_I64_LOAD8_S => Some (load_instr 1 (fun v => PUSH_I64 (sign_ext_8_64 (swrap 8 v))))
  | WASM_OP_I64_LOAD8_U => Some (load_instr 1 PUSH_I64)
  | WASM_OP_I64_LOAD16_S => Some (load_instr 2 (fun v => PUSH_I64 (sign_ext_16_64 (swrap 16 v))))
  | WASM_OP_I64_LOAD16_U => Some (load_instr 2 PUSH_I64)
  | WASM_OP_I64_LOAD32_S =>
      Some (reload_opcode ;;; load_instr 4 (fun v => PUSH_I64 (sign_ext_32_64 (swrap 32 v))))
  | WASM_OP_I64_LOAD32_U => Some (load_instr 4 PUSH_I64)
  | _ => None
  end.

(** The stores of whole operands leave the value on the stack until it is
    written. *)
Definition store_operand (cells : Z) : R flow :=
  let* _flags := read_leb_uint32 in
  let* offset := read_leb_uint32 in
  POP cells ;;;
  let* addr := POP_I32 in
  CHECK_MEMORY_OVERFLOW offset (uint32 addr) (cells * 4) (
    let* maddr := reg maddr in
    let* sp := reg frame_sp in
    op_end (copy_cell maddr (sp + 4) ;;;
            if cells =? 2 then copy_cell (maddr + 4) (sp + 8) else skip)).

(** The stores of a part of an operand. *)
Definition store_narrow (pop : R Z) (bytes_of : Z → Z) : R flow :=
  let* opc := reload_opcode in
  let* _flags := read_leb_uint32 in
  let* offset := read_leb_uint32 in
  let* sval := pop in
  let* addr := POP_I32 in
  CHECK_MEMORY_OVERFLOW offset (uint32 addr) (bytes_of opc) (
    let* maddr := reg maddr in
    op_end (str (bytes_of opc) maddr (wrap (8 * bytes_of opc) sval))).

Definition handle_store (op : WASMOpcode) : option (R flow) :=
  match op with
  | WASM_OP_I32_STORE | WASM_OP_F32_STORE => Some (store_operand 1)
  | WASM_OP_I64_STORE | WASM_OP_F64_STORE => Some (store_operand 2)
  | WASM_OP_I32_STORE8 | WASM_OP_I32_STORE16 =>
      Some (store_narrow (let* v := POP_I32 in mret (uint32 v))
              (fun opc => if opc =? opcode_code WASM_OP_I32_STORE8 then 1 else 2))
  | WASM_OP_I64_STORE8 | WASM_OP_I64_STORE16 | WASM_OP_I64_STORE32 =>
      Some (store_narrow (let* v := POP_I64 in mret (uint64 v))
              (fun opc => if opc =? opcode_code WASM_OP_I64_STORE8 then 1
                          else if opc =? opcode_code WASM_OP_I64_STORE16 then 2 else 4))
  | _ => None
  end.

Section Grow.
Context (s : memory_state) (migrate : Z → Z → Z → C Z).

Definition memory_grow : R flow :=
  let* memory := reg memory in
  let* prev_page_count := ldr 4 (FLD memory WASMMemoryInstance "cur_page_count") in
  let* _reserved := read_leb_uint32 in
  let* delta := POP_I32 in
  let* module := reg module in
  let* ok := lift (wasm_enlarge_memory s migrate module (uint32 delta)) in
  if negb ok then op_end (PUSH_I32 (-1))
  else
    PUSH_I32 prev_page_count ;;;
    let* memory := ldr 8 (FLD module WASMModuleInstance "default_memory") in
    assign set_memory memory ;;;
    let* num_bytes_per_page := reg num_bytes_per_page in
    let* cur_page_count := ldr 4 (FLD memory WASMMemoryInstance "cur_page_count") in
    op_end (assign set_linear_mem_size (uint32 (num_bytes_per_page * cur_page_count))).

Definition handle_memory (op : WASMOpcode) : option (R flow) :=
  match op with
  | WASM_OP_MEMORY_SIZE => Some (
      let* _reserved := read_leb_uint32 in
      let* memory := reg memory in
      let* cur_page_count := ldr 4 (FLD memory WASMMemoryInstance "cur_page_count") in
      op_end (PUSH_I32 cur_page_count))
  | WASM_OP_MEMORY_GROW => Some memory_grow
  | _ => None
  end.
End Grow.

(** * Constants *)

(** [DEF_OP_I_CONST]. *)
Definition DEF_OP_I_CONST (read : R Z) (push : Z → R unit) : R flow :=
  let* cval := read in op_end (push cval).

(** The bytes of the constant are copied to the stack one by one. *)
Definition float_const (n : Z) : R flow :=
  let* p := reg frame_sp in
  assign set_frame_sp (p + n) ;;;
  mfor (seqZ 0 n) (fun i =>
    assign set_i i ;;;
    let* b := read_byte in
    str 1 (p + i) b) ;;;
  op_end (assign set_i n).

Definition handle_const (op : WASMOpcode) : option (R flow) :=
  match op with
  | WASM_OP_I32_CONST => Some (DEF_OP_I_CONST read_leb_int32 PUSH_I32)
  | WASM_OP_I64_CONST => Some (DEF_OP_I_CONST read_leb_int64 PUSH_I64)
  | WASM_OP_F32_CONST => Some (float_const 4)
  | WASM_OP_F64_CONST => Some (float_const 8)
  | _ => None
  end.

(** * Comparisons *)

Definition POP_U32 : R Z := let* v := POP_I32 in mret (uint32 v).
Definition POP_U64 : R Z := let* v := POP_I64 in mret (uint64 v).

Definition DEF_OP_EQZ (pop : R Z) : R flow :=
  let* v := pop in op_end (PUSH_I32 (Z.b2z (v =? 0))).

(** [pop] is the pop with the cast to [src_type]. *)
Definition DEF_OP_CMP (pop : R Z) (cond : Z → Z → bool) : R flow :=
  let* val2 := pop in
  let* val1 := pop in
  op_end (PUSH_I32 (Z.b2z (cond val1 val2))).

Definition handle_i32_comparison (op : WASMOpcode) : option (R flow) :=
  match op with
  | WASM_OP_I32_EQZ => Some (DEF_OP_EQZ POP_I32)
  | WASM_OP_I32_EQ => Some (DEF_OP_CMP POP_U32 Z.eqb)
  | WASM_OP_I32_NE => Some (DEF_OP_CMP POP_U32 (fun a b => negb (a =? b)))
  | WASM_OP_I32_LT_S => Some (DEF_OP_CMP POP_I32 Z.ltb)
  | WASM_OP_I32_LT_U => Some (DEF_OP_CMP POP_U32 Z.ltb)
  | WASM_OP_I32_GT_S => Some (DEF_OP_CMP POP_I32 Z.gtb)
  | WASM_OP_I32_GT_U => Some (DEF_OP_CMP POP_U32 Z.gtb)
  | WASM_OP_I32_LE_S => Some (DEF_OP_CMP POP_I32 Z.leb)
  | WASM_OP_I32_LE_U => Some (DEF_OP_CMP POP_U32 Z.leb)
  | WASM_OP_I32_GE_S => Some (DEF_OP_CMP POP_I32 Z.geb)
  | WASM_OP_I32_GE_U => Some (DEF_OP_CMP POP_U32 Z.geb)
  | _ => None
  end.

Definition handle_i64_comparison (op : WASMOpcode) : option (R flow) :=
  match op with
  | WASM_OP_I64_EQZ => Some (DEF_OP_EQZ POP_I64)
  | WASM_OP_I64_EQ => Some (DEF_OP_CMP POP_U64 Z.eqb)
  | WASM_OP_I64_NE => Some (DEF_OP_CMP POP_U64 (fun a b => negb (a =? b)))
  | WASM_OP_I64_LT_S => Some (DEF_OP_CMP POP_I64 Z.ltb)
  | WASM_OP_I64_LT_U => Some (DEF_OP_CMP POP_U64 Z.ltb)
  | WASM_OP_I64_GT_S => Some (DEF_OP_CMP POP_I64 Z.gtb)
  | WASM_OP_I64_GT_U => Some (DEF_OP_CMP POP_U64 Z.gtb)
  | WASM_OP_I64_LE_S => Some (DEF_OP_CMP POP_I64 Z.leb)
  | WASM_OP_I64_LE_U => Some (DEF_OP_CMP POP_U64 Z.leb)
  | WASM_OP_I64_GE_S => Some (DEF_OP_CMP POP_I64 Z.geb)
  | WASM_OP_I64_GE_U => Some (DEF_OP_CMP POP_U64 Z.geb)
  | _ => None
  end.

Definition handle_float_comparison (op : WASMOpcode) : option (R flow) :=
  match op with
  | WASM_OP_F32_EQ => Some (DEF_OP_CMP POP_F32 (f32_cmp FEq))
  | WASM_OP_F32_NE => Some (DEF_OP_CMP POP_F32 (f32_cmp FNe))
  | WASM_OP_F32_LT => Some (DEF_OP_CMP POP_F32 (f32_cmp FLt))
  | WASM_OP_F32_GT => Some (DEF_OP_CMP POP_F32 (f32_cmp FGt))
  | WASM_OP_F32_LE => Some (DEF_OP_CMP POP_F32 (f32_cmp FLe))
  | WASM_OP_F32_GE => Some (DEF_OP_CMP POP_F32 (f32_cmp FGe))
  | WASM_OP_F64_EQ => Some (DEF_OP_CMP POP_F64 (f64_cmp FEq))
  | WASM_OP_F64_NE => Some (DEF_OP_CMP POP_F64 (f64_cmp FNe))
  | WASM_OP_F64_LT => Some (DEF_OP_CMP POP_F64 (f64_cmp FLt))
  | WASM_OP_F64_GT => Some (DEF_OP_CMP POP_F64 (f64_cmp FGt))
  | WASM_OP_F64_LE => Some (DEF_OP_CMP POP_F64 (f64_cmp FLe))
  | WASM_OP_F64_GE => Some (DEF_OP_CMP POP_F64 (f64_cmp FGe))
  | _ => None
  end.
