(* ===== verification/NumericOps.v ===== *)
(** The arithmetic and conversion instructions (wasm_interp_classic.c, the cases
    from [WASM_OP_I32_CLZ] to [WASM_OP_MISC_PREFIX]). *)
From stdpp Require Import base gmap list numbers strings.
From Stdlib Require Import Strings.Byte ZArith Lia.
From S2P Require Import Prelude CMemory WasmTypes PoolInfo ExecEnv Opcodes Numeric Float Leb.
From S2P Require Import Regs Macros DataOps.

(** * Macros *)

(** A loop that would not end in C is stuck. *)
Definition DEF_OP_BIT_COUNT (pop : R Z) (push : Z → R unit) (operation : Z → option Z) : R flow :=
  let* val1 := pop in
  match operation val1 with
  | Some val2 => op_end (push val2)
  | None => mstuck
  end.

(** [*(sp - n) op= *sp] in place, for operands of [n] bytes: [DEF_OP_NUMERIC] and
    its variants. *)
Definition DEF_OP_NUMERIC (n : Z) (operation : Z → Z → Z) : R flow :=
  let* sp := reg frame_sp in
  assign set_frame_sp (sp - n) ;;;
  let* val1 := ldr n (sp - n - n) in
  let* val2 := ldr n (sp - n) in
  op_end (str n (sp - n - n) (wrap (8 * n) (operation val1 val2))).

(** The shifts take the second operand modulo the width. *)
Definition DEF_OP_NUMERIC2 (n : Z) (operation : Z → Z → Z) : R flow :=
  DEF_OP_NUMERIC n (fun val1 val2 => operation val1 (val2 mod (8 * n))).

Definition DEF_OP_CONVERT (pop : R Z) (push : Z → R unit) (cast : Z → Z) : R flow :=
  let* v := pop in op_end (push (cast v)).

(** The handlers of the divisions: [b] and then [a] are popped, and the exception
    of the first test that applies is raised. *)
Definition div_s_instr (w : Z) (pop : R Z) (push : Z → R unit) : R flow :=
  let* b := pop in
  let* a := pop in
  if (a =? - 2 ^ (w - 1)) && (b =? -1) then throw "integer overflow"%string
  else if b =? 0 then throw "integer divide by zero"%string
  else op_end (push (Z.quot a b)).

Definition div_u_instr (pop : R Z) (push : Z → R unit) : R flow :=
  let* b := pop in
  let* a := pop in
  if b =? 0 then throw "integer divide by zero"%string
  else op_end (push (a / b)).

Definition rem_s_instr (w : Z) (pop : R Z) (push : Z → R unit) : R flow :=
  let* b := pop in
  let* a := pop in
  if (a =? - 2 ^ (w - 1)) && (b =? -1) then op_end (push 0)
  else if b =? 0 then throw "integer divide by zero"%string
  else op_end (push (Z.rem a b)).

Definition rem_u_instr (pop : R Z) (push : Z → R unit) : R flow :=
  let* b := pop in
  let* a := pop in
  if b =? 0 then throw "integer divide by zero"%string
  else op_end (push (a mod b)).

Definition binary_instr (pop : R Z) (push : Z → R unit) (f : Z → Z → Z) : R flow :=
  let* b := pop in
  let* a := pop in
  op_end (push (f a b)).

(** * Integers *)

Definition handle_i32_numeric (op : WASMOpcode) : option (R flow) :=
  match op with
  | WASM_OP_I32_CLZ => Some (DEF_OP_BIT_COUNT POP_U32 PUSH_I32 clz32)
  | WASM_OP_I32_CTZ => Some (DEF_OP_BIT_COUNT POP_U32 PUSH_I32 ctz32)
  | WASM_OP_I32_POPCNT => Some (DEF_OP_BIT_COUNT POP_U32 PUSH_I32 popcount32)
  | WASM_OP_I32_ADD => Some (DEF_OP_NUMERIC 4 Z.add)
  | WASM_OP_I32_SUB => Some (DEF_OP_NUMERIC 4 Z.sub)
  | WASM_OP_I32_MUL => Some (DEF_OP_NUMERIC 4 Z.mul)
  | WASM_OP_I32_DIV_S => Some (div_s_instr 32 POP_I32 PUSH_I32)
  | WASM_OP_I32_DIV_U => Some (div_u_instr POP_U32 PUSH_I32)
  | WASM_OP_I32_REM_S => Some (rem_s_instr 32 POP_I32 PUSH_I32)
  | WASM_OP_I32_REM_U => Some (rem_u_instr POP_U32 PUSH_I32)
  | WASM_OP_I32_AND => Some (DEF_OP_NUMERIC 4 Z.land)
  | WASM_OP_I32_OR => Some (DEF_OP_NUMERIC 4 Z.lor)
  | WASM_OP_I32_XOR => Some (DEF_OP_NUMERIC 4 Z.lxor)
  | WASM_OP_I32_SHL => Some (DEF_OP_NUMERIC2 4 Z.shiftl)
  | WASM_OP_I32_SHR_S => Some (DEF_OP_NUMERIC2 4 (fun a b => Z.shiftr (int32 a) b))
  | WASM_OP_I32_SHR_U => Some (DEF_OP_NUMERIC2 4 Z.shiftr)
  | WASM_OP_I32_ROTL => Some (binary_instr POP_U32 PUSH_I32 rotl32)
  | WASM_OP_I32_ROTR => Some (binary_instr POP_U32 PUSH_I32 rotr32)
  | _ => None
  end.

Definition handle_i64_numeric (op : WASMOpcode) : option (R flow) :=
  match op with
  | WASM_OP_I64_CLZ => Some (DEF_OP_BIT_COUNT POP_U64 PUSH_I64 clz64)
  | WASM_OP_I64_CTZ => Some (DEF_OP_BIT_COUNT POP_U64 PUSH_I64 ctz64)
  | WASM_OP_I64_POPCNT => Some (DEF_OP_BIT_COUNT POP_U64 PUSH_I64 popcount64)
  | WASM_OP_I64_ADD => Some (DEF_OP_NUMERIC 8 Z.add)
  | WASM_OP_I64_SUB => Some (DEF_OP_NUMERIC 8 Z.sub)
  | WASM_OP_I64_MUL => Some (DEF_OP_NUMERIC 8 Z.mul)
  | WASM_OP_I64_DIV_S => Some (div_s_instr 64 POP_I64 PUSH_I64)
  | WASM_OP_I64_DIV_U => Some (div_u_instr POP_U64 PUSH_I64)
  | WASM_OP_I64_REM_S => Some (rem_s_instr 64 POP_I64 PUSH_I64)
  | WASM_OP_I64_REM_U => Some (rem_u_instr POP_U64 PUSH_I64)
  | WASM_OP_I64_AND => Some (DEF_OP_NUMERIC 8 Z.land)
  | WASM_OP_I64_OR => Some (DEF_OP_NUMERIC 8 Z.lor)
  | WASM_OP_I64_XOR => Some (DEF_OP_NUMERIC 8 Z.lxor)
  | WASM_OP_I64_SHL => Some (DEF_OP_NUMERIC2 8 Z.shiftl)
  | WASM_OP_I64_SHR_S => Some (DEF_OP_NUMERIC2 8 (fun a b => Z.shiftr (swrap 64 a) b))
  | WASM_OP_I64_SHR_U => Some (DEF_OP_NUMERIC2 8 Z.shiftr)
  | WASM_OP_I64_ROTL => Some (binary_instr POP_U64 PUSH_I64 rotl64)
  | WASM_OP_I64_ROTR => Some (binary_instr POP_U64 PUSH_I64 rotr64)
  | _ => None
  end.

Definition handle_int_conversion (op : WASMOpcode) : option (R flow) :=
  match op with
  | WASM_OP_I32_WRAP_I64 =>
      Some (let* v := POP_I64 in op_end (PUSH_I32 (int32 (Z.land v 0xFFFFFFFF))))
  | WASM_OP_I64_EXTEND_S_I32 => Some (DEF_OP_CONVERT POP_I32 PUSH_I64 id)
  | WASM_OP_I64_EXTEND_U_I32 => Some (DEF_OP_CONVERT POP_I32 PUSH_I64 uint32)
  | WASM_OP_I32_REINTERPRET_F32 | WASM_OP_I64_REINTERPRET_F64
  | WASM_OP_F32_REINTERPRET_I32 | WASM_OP_F64_REINTERPRET_I64 => Some (mret HANDLE_OP_END)
  | WASM_OP_I32_EXTEND8_S => Some (DEF_OP_CONVERT POP_I32 PUSH_I32 (swrap 8))
  | WASM_OP_I32_EXTEND16_S => Some (DEF_OP_CONVERT POP_I32 PUSH_I32 (swrap 16))
  | WASM_OP_I64_EXTEND8_S => Some (DEF_OP_CONVERT POP_I64 PUSH_I64 (swrap 8))
  | WASM_OP_I64_EXTEND16_S => Some (DEF_OP_CONVERT POP_I64 PUSH_I64 (swrap 16))
  | WASM_OP_I64_EXTEND32_S => Some (DEF_OP_CONVERT POP_I64 PUSH_I64 (swrap 32))
  | _ => None
  end.

(** * Floats *)

(** [trunc_f32_to_int] and [trunc_f64_to_int] move a copy of [frame_sp]; the
    handler moves its own when the operand and the result have different sizes. *)
Definition trunc_handler (f32_src is_i32 is_sign saturating : bool) : R flow :=
  let* frame_sp0 := reg frame_sp in
  let* src_value := (if f32_src then POP_F32 else POP_F64) in
  match trunc_instr f32_src is_i32 is_sign saturating src_value with
  | TruncNaN =>
      assign set_frame_sp frame_sp0 ;;; throw "invalid conversion to integer"%string
  | TruncOverflow =>
      assign set_frame_sp frame_sp0 ;;; throw "integer overflow"%string
  | TruncTo v =>
      (if is_i32 then PUSH_I32 v else PUSH_I64 v) ;;;
      assign set_frame_sp frame_sp0 ;;;
      op_end (if f32_src then if is_i32 then skip else assign set_frame_sp (frame_sp0 + 4)
              else if is_i32 then assign set_frame_sp (frame_sp0 - 4) else skip)
  end.

(** The sign bit is changed in place. *)
Definition float_neg (n : Z) : R flow :=
  let* sp := reg frame_sp in
  let* u := ldr n (sp - n) in
  let bit := 2 ^ (8 * n - 1) in
  op_end (str n (sp - n) (if negb (Z.land u bit =? 0) then Z.land u (2 ^ (8 * n) - 1 - bit) else Z.lor u bit)).

Section Floats.
Context (nan32 nan64 : list Z → Z).

(** [DEF_OP_MATH]. *)
Definition f32_math_instr (op : fmath) : R flow :=
  let* v := POP_F32 in op_end (PUSH_F32 (f32_math nan32 nan64 op v)).
Definition f64_math_instr (op : fmath) : R flow :=
  let* v := POP_F64 in op_end (PUSH_F64 (f64_math nan64 op v)).

Definition handle_f32_numeric (op : WASMOpcode) : option (R flow) :=
  match op with
  | WASM_OP_F32_ABS => Some (f32_math_instr FAbs)
  | WASM_OP_F32_NEG => Some (float_neg 4)
  | WASM_OP_F32_CEIL => Some (f32_math_instr FCeil)
  | WASM_OP_F32_FLOOR => Some (f32_math_instr FFloor)
  | WASM_OP_F32_TRUNC => Some (f32_math_instr FTrunc)
  | WASM_OP_F32_NEAREST => Some (f32_math_instr FNearest)
  | WASM_OP_F32_SQRT => Some (f32_math_instr FSqrt)
  | WASM_OP_F32_ADD => Some (DEF_OP_NUMERIC 4 (f32_arith nan32 FAdd))
  | WASM_OP_F32_SUB => Some (DEF_OP_NUMERIC 4 (f32_arith nan32 FSub))
  | WASM_OP_F32_MUL => Some (DEF_OP_NUMERIC 4 (f32_arith nan32 FMul))
  | WASM_OP_F32_DIV => Some (DEF_OP_NUMERIC 4 (f32_arith nan32 FDiv))
  | WASM_OP_F32_MIN => Some (binary_instr POP_F32 PUSH_F32 (f32_minmax nan32 nan64 false))
  | WASM_OP_F32_MAX => Some (binary_instr POP_F32 PUSH_F32 (f32_minmax nan32 nan64 true))
  | WASM_OP_F32_COPYSIGN => Some (binary_instr POP_F32 PUSH_F32 (f32_copysign nan32 nan64))
  | _ => None
  end.

Definition handle_f64_numeric (op : WASMOpcode) : option (R flow) :=
  match op with
  | WASM_OP_F64_ABS => Some (f64_math_instr FAbs)
  | WASM_OP_F64_NEG => Some (float_neg 8)
  | WASM_OP_F64_CEIL => Some (f64_math_instr FCeil)
  | WASM_OP_F64_FLOOR => Some (f64_math_instr FFloor)
  | WASM_OP_F64_TRUNC => Some (f64_math_instr FTrunc)
  | WASM_OP_F64_NEAREST => Some (f64_math_instr FNearest)
  | WASM_OP_F64_SQRT => Some (f64_math_instr FSqrt)
  | WASM_OP_F64_ADD => Some (DEF_OP_NUMERIC 8 (f64_arith nan64 FAdd))
  | WASM_OP_F64_SUB => Some (DEF_OP_NUMERIC 8 (f64_arith nan64 FSub))
  | WASM_OP_F64_MUL => Some (DEF_OP_NUMERIC 8 (f64_arith nan64 FMul))
  | WASM_OP_F64_DIV => Some (DEF_OP_NUMERIC 8 (f64_arith nan64 FDiv))
  | WASM_OP_F64_MIN => Some (binary_instr POP_F64 PUSH_F64 (f64_minmax false))
  | WASM_OP_F64_MAX => Some (binary_instr POP_F64 PUSH_F64 (f64_minmax true))
  | WASM_OP_F64_COPYSIGN => Some (binary_instr POP_F64 PUSH_F64 f64_copysign)
  | _ => None
  end.

Definition handle_float_conversion (op : WASMOpcode) : option (R flow) :=
  match op with
  | WASM_OP_I32_TRUNC_S_F32 => Some (trunc_handler true true true false)
  | WASM_OP_I32_TRUNC_U_F32 => Some (trunc_handler true true false false)
  | WASM_OP_I32_TRUNC_S_F64 => Some (trunc_handler false true true false)
  | WASM_OP_I32_TRUNC_U_F64 => Some (trunc_handler false true false false)
  | WASM_OP_I64_TRUNC_S_F32 => Some (trunc_handler true false true false)
  | WASM_OP_I64_TRUNC_U_F32 => Some (trunc_handler true false false false)
  | WASM_OP_I64_TRUNC_S_F64 => Some (trunc_handler false false true false)
  | WASM_OP_I64_TRUNC_U_F64 => Some (trunc_handler false false false false)
  | WASM_OP_F32_CONVERT_S_I32 => Some (DEF_OP_CONVERT POP_I32 PUSH_F32 (f32_of_int nan32))
  | WASM_OP_F32_CONVERT_U_I32 => Some (DEF_OP_CONVERT POP_U32 PUSH_F32 (f32_of_int nan32))
  | WASM_OP_F32_CONVERT_S_I64 => Some (DEF_OP_CONVERT POP_I64 PUSH_F32 (f32_of_int nan32))
  | WASM_OP_F32_CONVERT_U_I64 => Some (DEF_OP_CONVERT POP_U64 PUSH_F32 (f32_of_int nan32))
  | WASM_OP_F32_DEMOTE_F64 => Some (DEF_OP_CONVERT POP_F64 PUSH_F32 (demote nan32))
  | WASM_OP_F64_CONVERT_S_I32 => Some (DEF_OP_CONVERT POP_I32 PUSH_F64 (f64_of_int nan64))
  | WASM_OP_F64_CONVERT_U_I32 => Some (DEF_OP_CONVERT POP_U32 PUSH_F64 (f64_of_int nan64))
  | WASM_OP_F64_CONVERT_S_I64 => Some (DEF_OP_CONVERT POP_I64 PUSH_F64 (f64_of_int nan64))
  | WASM_OP_F64_CONVERT_U_I64 => Some (DEF_OP_CONVERT POP_U64 PUSH_F64 (f64_of_int nan64))
  | WASM_OP_F64_PROMOTE_F32 => Some (DEF_OP_CONVERT POP_F32 PUSH_F64 (promote nan64))
  | _ => None
  end.
End Floats.

(** [WASM_OP_MISC_PREFIX]: the opcode of the extension is cut to a byte; an
    unknown one is the default case of the inner [switch]. *)
Definition handle_misc : R flow :=
  let* opcode1 := read_leb_uint32 in
  assign set_opcode (wrap 8 opcode1) ;;;
  match misc_of (wrap 8 opcode1) with
  | Some WASM_OP_I32_TRUNC_SAT_S_F32 => trunc_handler true true true true
  | Some WASM_OP_I32_TRUNC_SAT_U_F32 => trunc_handler true true false true
  | Some WASM_OP_I32_TRUNC_SAT_S_F64 => trunc_handler false true true true
  | Some WASM_OP_I32_TRUNC_SAT_U_F64 => trunc_handler false true false true
  | Some WASM_OP_I64_TRUNC_SAT_S_F32 => trunc_handler true false true true
  | Some WASM_OP_I64_TRUNC_SAT_U_F32 => trunc_handler true false false true
  | Some WASM_OP_I64_TRUNC_SAT_S_F64 => trunc_handler false false true true
  | Some WASM_OP_I64_TRUNC_SAT_U_F64 => trunc_handler false false false true
  | _ => throw "unsupported opcode"%string
  end.
