(* ===== verification/Control.v ===== *)
(** Control flow in the interpreter (wasm_interp_classic.c): blocks, branches,
    calls and returns, the call of a host function, and the labels
    [call_func_from_interp], [call_func_from_entry], [return_func],
    [out_of_bounds] and [got_exception]. *)
From stdpp Require Import base gmap list numbers strings.
From Stdlib Require Import Strings.Byte ZArith Lia.
From S2P Require Import Prelude CMemory WasmTypes PoolInfo ExecEnv Opcodes Leb FindBlock.
From S2P Require Import Regs Macros.

(** * Blocks *)

(** [(uint8 * )-1], the end of the code for a search. *)
Definition code_end_any : Z := 2 ^ 64 - 1.

(** The number of result cells of a block: from the value type, or from a type of
    the module. *)
Definition block_cells : R Z :=
  let* t := read_byte in
  assign set_value_type t ;;;
  let n := wasm_value_type_cell_num t in
  assign set_cell_num n ;;;
  mret n.

Definition ext_block_cells (ofs : Z) : R Z :=
  let* idx := read_leb_uint32 in
  assign set_type_index idx ;;;
  let* wasm_types := reg wasm_types in
  let* type := ldr 8 (wasm_types + idx * 8) in
  let* n := ldr 2 (type + ofs) in
  assign set_cell_num n ;;;
  mret n.

(** The line of the cache for [frame_ip], and the element that matches it. *)
Definition lookup_cache : R (option Z) :=
  let* ip := reg frame_ip in
  let idx := Z.land ip (BLOCK_ADDR_CACHE_SIZE - 1) in
  assign set_cache_index idx ;;;
  let* env := reg exec_env in
  let items := FLD env WASMExecEnv "block_addr_cache" + idx * BLOCK_ADDR_CONFLICT_SIZE * SIZEOF BlockAddr in
  assign set_cache_items items ;;;
  let* start0 := ldr 8 (FLD items BlockAddr "start_addr") in
  if start0 =? ip then mret (Some items)
  else
    let* start1 := ldr 8 (FLD (items + SIZEOF BlockAddr) BlockAddr "start_addr") in
    if start1 =? ip then mret (Some (items + SIZEOF BlockAddr)) else mret None.

Definition handle_op_block (cell_num : Z) : R flow :=
  let* hit := lookup_cache in
  match hit with
  | Some item => let* e := ldr 8 (FLD item BlockAddr "end_addr") in assign set_end_addr e
  | None => assign set_end_addr NULL
  end ;;;
  let* end_addr := reg end_addr in
  op_end (PUSH_CSP LABEL_TYPE_BLOCK cell_num end_addr).

Definition handle_op_loop (cell_num : Z) : R flow :=
  let* ip := reg frame_ip in
  op_end (PUSH_CSP LABEL_TYPE_LOOP cell_num ip).

(** [wasm_loader_find_block_addr] with [&else_addr] and [&end_addr]. *)
Definition find_block (start label_type : Z) : R bool :=
  let* env := reg exec_env in
  let* r := lift (wasm_loader_find_block_addr (FLD env WASMExecEnv "block_addr_cache") start
                    code_end_any label_type) in
  match r with
  | None => mret false
  | Some (else_o, end_addr) =>
      match else_o with Some else_addr => assign set_else_addr else_addr | None => skip end ;;;
      assign set_end_addr end_addr ;;;
      mret true
  end.

Definition handle_op_if (cell_num : Z) : R flow :=
  let* hit := lookup_cache in
  let* found :=
    match hit with
    | Some item =>
        let* x := ldr 8 (FLD item BlockAddr "else_addr") in
        assign set_else_addr x ;;;
        let* e := ldr 8 (FLD item BlockAddr "end_addr") in
        assign set_end_addr e ;;;
        mret true
    | None => let* ip := reg frame_ip in find_block ip LABEL_TYPE_IF
    end in
  if negb found then throw "find block address failed"%string
  else
    let* c := POP_I32 in
    assign set_cond (uint32 c) ;;;
    let* else_addr := reg else_addr in
    let* end_addr := reg end_addr in
    op_end (
      if negb (uint32 c =? 0) then PUSH_CSP LABEL_TYPE_IF cell_num end_addr
      else if else_addr =? NULL then assign set_frame_ip (end_addr + 1)
      else PUSH_CSP LABEL_TYPE_IF cell_num end_addr ;;;
           assign set_frame_ip (else_addr + 1)).

(** * Returns and branches *)

(** The results of the function are moved to the stack of the caller's frame. *)
Definition return_values : R flow :=
  let* f := reg cur_func in
  let* ret_cell_num := ldr 2 (FLD f WASMFunctionInstance "ret_cell_num") in
  POP ret_cell_num ;;;
  let* sp := reg frame_sp in
  let* prev := reg prev_frame in
  mfor (seqZ 0 ret_cell_num) (fun i =>
    assign set_i i ;;;
    let* v := ldr 4 (sp + i * 4) in
    let* prev_sp := ldr 8 (FLD prev WASMInterpFrame "sp") in
    str 8 (FLD prev WASMInterpFrame "sp") (prev_sp + 4) ;;;
    str 4 prev_sp v) ;;;
  assign set_i ret_cell_num ;;;
  mret return_func.

Definition handle_end : R flow :=
  let* csp := reg frame_csp in
  let* frame := reg frame in
  let* csp_bottom := ldr 8 (FLD frame WASMInterpFrame "csp_bottom") in
  if csp_bottom + SIZEOF WASMBranchBlock <? csp then op_end POP_CSP
  else return_values.

(** [label_pop_csp_n]: a label pushed by a block that was not in the cache has no
    target yet. *)
Definition label_pop_csp_n (depth : Z) : R flow :=
  POP_CSP_N depth ;;;
  let* ip := reg frame_ip in
  if ip =? NULL then
    let* csp := reg frame_csp in
    let* begin_addr := ldr 8 (FLD (csp - SIZEOF WASMBranchBlock) WASMBranchBlock "begin_addr") in
    let* found := find_block begin_addr LABEL_TYPE_BLOCK in
    if negb found then throw "find block address failed"%string
    else let* e := reg end_addr in op_end (assign set_frame_ip e)
  else mret HANDLE_OP_END.

Definition read_depth : R Z :=
  let* d := read_leb_uint32 in assign set_depth d ;;; mret d.

Definition handle_br_if : R flow :=
  let* depth := read_depth in
  let* c := POP_I32 in
  assign set_cond (uint32 c) ;;;
  if negb (uint32 c =? 0) then label_pop_csp_n depth else mret HANDLE_OP_END.

Definition handle_br_table : R flow :=
  let* count := read_leb_uint32 in
  assign set_count count ;;;
  let* v := POP_I32 in
  let lidx := if count <? uint32 v then count else uint32 v in
  assign set_lidx lidx ;;;
  mfor (seqZ 0 lidx) (fun i => assign set_i i ;;; skip_leb_ip) ;;;
  assign set_i lidx ;;;
  let* depth := read_depth in
  label_pop_csp_n depth.

(** * Calls *)

Definition func_at (fidx : Z) : R Z :=
  let* module := reg module in
  let* functions := ldr 8 (FLD module WASMModuleInstance "functions") in
  mret (functions + fidx * SIZEOF WASMFunctionInstance).

Definition handle_call : R flow :=
  let* idx := read_leb_uint32 in
  assign set_fidx idx ;;;
  let* f := func_at idx in
  assign set_cur_func f ;;;
  mret call_func_from_interp.

(** [memcmp] of the types finds a difference or not. *)
Definition wasm_type_equal (type1 type2 : Z) : C bool :=
  let* p1 := ld 2 (FLD type1 WASMType "param_count") in
  let* p2 := ld 2 (FLD type2 WASMType "param_count") in
  let* r1 := ld 2 (FLD type1 WASMType "result_count") in
  let* r2 := ld 2 (FLD type2 WASMType "result_count") in
  let* same := gets (fun w =>
    let n := Z.to_nat (p1 + r1) in
    bool_decide (load (wmem w) (FLD type1 WASMType "types") n = load (wmem w) (FLD type2 WASMType "types") n)) in
  mret ((p1 =? p2) && (r1 =? r2) && same).

Definition wasm_get_table_inst (module_inst tbl_idx : Z) : C Z :=
  let* tables := ld 8 (FLD module_inst WASMModuleInstance "tables") in
  ld 8 (tables + tbl_idx * 8).

Definition handle_call_indirect : R flow :=
  let* idx := read_leb_uint32 in
  assign set_tidx idx ;;;
  let* wasm_types := reg wasm_types in
  let* cur_type := ldr 8 (wasm_types + idx * 8) in
  let* tbl_idx := read_leb_uint32 in
  let* module := reg module in
  let* tbl_inst := lift (wasm_get_table_inst module tbl_idx) in
  let* v := POP_I32 in
  assign set_val v ;;;
  let* cur_size := ldr 4 (FLD tbl_inst WASMTableInstance "cur_size") in
  if (v <? 0) || (int32 cur_size <=? v) then throw "undefined element"%string
  else
    let* fidx := ldr 4 (FLD tbl_inst WASMTableInstance "base_addr" + v * 4) in
    assign set_fidx fidx ;;;
    if fidx =? 2 ^ 32 - 1 then throw "uninitialized element"%string
    else
      let* function_count := ldr 4 (FLD module WASMModuleInstance "function_count") in
      if function_count <=? fidx then throw "unknown function"%string
      else
        let* f := func_at fidx in
        assign set_cur_func f ;;;
        let* is_import_func := ldr 1 (FLD f WASMFunctionInstance "is_import_func") in
        let* u := ldr 8 (FLD f WASMFunctionInstance "u") in
        let* cur_func_type :=
          (if negb (is_import_func =? 0) then ldr 8 (FLD u WASMFunctionImport "func_type")
           else ldr 8 (FLD u WASMFunction "func_type")) in
        let* same := lift (wasm_type_equal cur_type cur_func_type) in
        if negb same then throw "indirect call type mismatch"%string
        else mret call_func_from_interp.

(** * The control instructions *)

Definition handle_control (op : WASMOpcode) : option (R flow) :=
  match op with
  | WASM_OP_UNREACHABLE => Some (throw "unreachable"%string)
  | WASM_OP_NOP => Some (mret HANDLE_OP_END)
  | EXT_OP_BLOCK => Some (let* n := ext_block_cells (OFS WASMType "ret_cell_num") in handle_op_block n)
  | WASM_OP_BLOCK => Some (let* n := block_cells in handle_op_block n)
  | EXT_OP_LOOP => Some (let* n := ext_block_cells (OFS WASMType "param_cell_num") in handle_op_loop n)
  | WASM_OP_LOOP => Some (let* n := block_cells in handle_op_loop n)
  | EXT_OP_IF => Some (let* n := ext_block_cells (OFS WASMType "ret_cell_num") in handle_op_if n)
  | WASM_OP_IF => Some (let* n := block_cells in handle_op_if n)
  | WASM_OP_ELSE => Some (
      let* csp := reg frame_csp in
      let* target := ldr 8 (FLD (csp - SIZEOF WASMBranchBlock) WASMBranchBlock "target_addr") in
      op_end (assign set_frame_ip target))
  | WASM_OP_END => Some handle_end
  | WASM_OP_BR => Some (let* depth := read_depth in label_pop_csp_n depth)
  | WASM_OP_BR_IF => Some handle_br_if
  | WASM_OP_BR_TABLE => Some handle_br_table
  | WASM_OP_RETURN => Some return_values
  | WASM_OP_CALL => Some handle_call
  | WASM_OP_CALL_INDIRECT => Some handle_call_indirect
  | WASM_OP_IMPDEP => Some (
      let* prev := reg prev_frame in
      assign set_frame prev ;;;
      let* ip := ldr 8 (FLD prev WASMInterpFrame "ip") in
      assign set_frame_ip ip ;;;
      let* sp := ldr 8 (FLD prev WASMInterpFrame "sp") in
      assign set_frame_sp sp ;;;
      let* csp := ldr 8 (FLD prev WASMInterpFrame "csp") in
      assign set_frame_csp csp ;;;
      mret call_func_from_entry)
  | _ => None
  end.
