(* ===== verification/InterpState.v ===== *)
(** The registers of the interpreter (interp.img): the local variables of
    [wasm_interp_call_func_bytecode] (wasm_interp_classic.c) that a checkpoint
    writes and a restart reads back.  Addresses into the code, the operand stack,
    the label stack and the linear memory are written as distances from the
    start of the object they point into. *)
From stdpp Require Import base gmap list numbers strings.
From Stdlib Require Import Strings.Byte ZArith Lia.
From S2P Require Import Prelude CMemory WasmTypes PoolInfo Table ExecEnv Memory Dump Restore.
From S2P Require Import Format Codec Records Searches Heap Frames Checkpoint Extents TableImage.
From S2P Require Import FrameImage Migration Correctness Regs.

(** interp.img is open next to the runtime state: what was written of it, or
    what is left to read. *)
Abbreviation I := (M (list byte * world)).

Definition run {A} (c : C A) : I A := fun s =>
  match c s.2 with
  | Ok a w => Ok a (s.1, w)
  | Exited n => Exited n
  | Stuck => Stuck
  end.

(** * Macros *)

(** [DUMP_VAR] of a variable of [n] bytes. *)
Definition DUMP_VAR (n : nat) (v : Z) : I unit := modify (fun s => (s.1 ++ le_bytes n v, s.2)).

Definition DUMP_IPTR (attr : Z) : I unit :=
  if attr =? NULL then DUMP_VAR 4 (-1)
  else let* base_addr := run get_base_addr in DUMP_VAR 4 (attr - base_addr).

(** [RESTORE_VAR] of a variable of [n] bytes; a short read leaves the variable
    indeterminate. *)
Definition RESTORE_VAR (n : nat) : I Z := fun s =>
  if (length s.1 <? n)%nat then Stuck else Ok (le_Z (take n s.1)) (drop n s.1, s.2).

Definition RESTORE_IPTR_WITH (get : Z → C (option Pool_Info)) : I Z :=
  let* p_abs := RESTORE_VAR 4 in
  if int32 p_abs =? -1 then mret NULL
  else let* info := run (get (int32 p_abs)) in
       match info with Some i => mret (p_raw i) | None => mstuck end.
Abbreviation RESTORE_IPTR := (RESTORE_IPTR_WITH get_info).
Abbreviation RESTORE_FPTR := (RESTORE_IPTR_WITH get_frame_info).

(** A member of a structure that a variable points to. *)
Definition deref (p a : Z) : I Z := if p =? NULL then mstuck else run (ld 8 a).

(** The distance of a pointer from the start [from] of the object it points
    into, in items of [item] bytes; -1 for null. *)
Definition DUMP_DIST (p : Z) (from : I Z) (item : Z) : I unit :=
  if p =? NULL then DUMP_VAR 8 (-1)
  else let* from := from in DUMP_VAR 8 ((p - from) / item).

(** [int64 _addr]: the pointer from its distance. *)
Definition RESTORE_DIST (from : I Z) (item : Z) : I Z :=
  let* v := RESTORE_VAR 8 in
  if swrap 64 v =? -1 then mret NULL
  else let* from := from in mret (uint64 (swrap 64 v * item + from)).

Definition func_code_of (func : Z) : I Z := run (wasm_get_func_code func).

(** * Writing interp.img *)

Definition dump_locals (l : locals) : I unit :=
  let sp_bottom := deref (frame l) (FLD (frame l) WASMInterpFrame "sp_bottom") in
  let csp_bottom := deref (frame l) (FLD (frame l) WASMInterpFrame "csp_bottom") in
  let memory_data := deref (memory l) (FLD (memory l) WASMMemoryInstance "memory_data") in
  DUMP_IPTR (module l) ;;;
  DUMP_IPTR (exec_env l) ;;;
  DUMP_IPTR (cur_func l) ;;;
  DUMP_IPTR (prev_frame l) ;;;
  DUMP_IPTR (memory l) ;;;
  DUMP_VAR 4 (num_bytes_per_page l) ;;;
  DUMP_IPTR (global_data l) ;;;
  DUMP_VAR 4 (linear_mem_size l) ;;;
  DUMP_IPTR (wasm_types l) ;;;
  DUMP_IPTR (globals l) ;;;
  DUMP_IPTR (global l) ;;;
  DUMP_VAR 1 (opcode_IMPDEP l) ;;;
  DUMP_IPTR (frame l) ;;;
  DUMP_DIST (frame_ip l) (func_code_of (cur_func l)) 1 ;;;
  DUMP_DIST (frame_sp l) sp_bottom 4 ;;;
  DUMP_DIST (frame_csp l) csp_bottom (SIZEOF WASMBranchBlock) ;;;
  DUMP_VAR 1 (opcode l) ;;;
  DUMP_VAR 4 (i_ l) ;;;
  DUMP_VAR 4 (depth l) ;;;
  DUMP_VAR 4 (cond l) ;;;
  DUMP_VAR 4 (count l) ;;;
  DUMP_VAR 4 (fidx l) ;;;
  DUMP_VAR 4 (tidx l) ;;;
  DUMP_VAR 4 (lidx l) ;;;
  DUMP_VAR 4 (frame_size l) ;;;
  DUMP_VAR 8 (all_cell_num l) ;;;
  DUMP_VAR 4 (val l) ;;;
  DUMP_DIST (else_addr l) (func_code_of (cur_func l)) 1 ;;;
  DUMP_DIST (end_addr l) (func_code_of (cur_func l)) 1 ;;;
  DUMP_DIST (maddr l) memory_data 1 ;;;
  DUMP_VAR 4 (local_idx l) ;;;
  DUMP_VAR 4 (local_offset l) ;;;
  DUMP_VAR 4 (global_idx l) ;;;
  DUMP_VAR 1 (local_type l) ;;;
  DUMP_VAR 8 (global_addr l - global_data l) ;;;
  DUMP_VAR 4 (cache_index l) ;;;
  DUMP_VAR 4 (type_index l) ;;;
  DUMP_VAR 4 (cell_num l) ;;;
  DUMP_VAR 1 (value_type l).

(** * Reading interp.img

    The block jumps over the initializers: [global_addr] keeps the value it has
    in [l0]. *)
Definition restore_locals (l0 : locals) : I locals :=
  let* module := RESTORE_IPTR in
  let* exec_env := RESTORE_IPTR in
  let* cur_func := RESTORE_IPTR in
  let* prev_frame := RESTORE_FPTR in
  let* memory := RESTORE_IPTR in
  let* num_bytes_per_page := RESTORE_VAR 4 in
  let* global_data := RESTORE_IPTR in
  let* linear_mem_size := RESTORE_VAR 4 in
  let* wasm_types := RESTORE_IPTR in
  let* globals := RESTORE_IPTR in
  let* global := RESTORE_IPTR in
  let* opcode_IMPDEP := RESTORE_VAR 1 in
  let* frame := RESTORE_FPTR in
  let* frame_ip := RESTORE_DIST (func_code_of cur_func) 1 in
  let* frame_sp := RESTORE_DIST (deref frame (FLD frame WASMInterpFrame "sp_bottom")) 4 in
  let* frame_csp := RESTORE_DIST (deref frame (FLD frame WASMInterpFrame "csp_bottom"))
                      (SIZEOF WASMBranchBlock) in
  let* frame_ip_end := run (wasm_get_func_code_end cur_func) in
  let* opcode := RESTORE_VAR 1 in
  let* i := RESTORE_VAR 4 in
  let* depth := RESTORE_VAR 4 in
  let* cond := RESTORE_VAR 4 in
  let* count := RESTORE_VAR 4 in
  let* fidx := RESTORE_VAR 4 in
  let* tidx := RESTORE_VAR 4 in
  let* lidx := RESTORE_VAR 4 in
  let* frame_size := RESTORE_VAR 4 in
  let* all_cell_num := RESTORE_VAR 8 in
  let* val := RESTORE_VAR 4 in
  let* else_addr := RESTORE_DIST (func_code_of cur_func) 1 in
  let* end_addr := RESTORE_DIST (func_code_of cur_func) 1 in
  let* maddr := RESTORE_DIST (deref memory (FLD memory WASMMemoryInstance "memory_data")) 1 in
  let* local_idx := RESTORE_VAR 4 in
  let* local_offset := RESTORE_VAR 4 in
  let* global_idx := RESTORE_VAR 4 in
  let* local_type := RESTORE_VAR 1 in
  let* _addr := RESTORE_VAR 8 in
  let global_data := uint64 (_addr + global_data) in
  let* cache_index := RESTORE_VAR 4 in
  let* type_index := RESTORE_VAR 4 in
  let* cell_num := RESTORE_VAR 4 in
  let cache_items := FLD exec_env WASMExecEnv "block_addr_cache"
                     + cache_index * BLOCK_ADDR_CONFLICT_SIZE * SIZEOF BlockAddr in
  let* value_type := RESTORE_VAR 1 in
  mret (mkLocals module exec_env cur_func prev_frame memory num_bytes_per_page global_data
    linear_mem_size wasm_types globals global opcode_IMPDEP frame frame_ip
    (FLD frame WASMInterpFrame "lp") frame_sp frame_csp frame_ip_end opcode i depth cond count
    fidx tidx lidx frame_size all_cell_num (int32 val) else_addr end_addr maddr local_idx
    local_offset global_idx local_type (global_addr l0) cache_index type_index cell_num
    value_type cache_items).

(** * The image *)

Definition enc_dist (p from item : Z) : list byte :=
  le_bytes 8 (if p =? NULL then -1 else (p - from) / item).

Definition sp_bottom_at (m : mem) (f : Z) : Z := ldp m (FLD f WASMInterpFrame "sp_bottom").
Definition csp_bottom_at (m : mem) (f : Z) : Z := ldp m (FLD f WASMInterpFrame "csp_bottom").
Definition memory_data_at (m : mem) (mi : Z) : Z := ldp m (FLD mi WASMMemoryInstance "memory_data").

Definition pointer_bytes (base : Z) (m : mem) (l : locals) : list byte :=
  enc_ptr base (module l) ++ enc_ptr base (exec_env l) ++ enc_ptr base (cur_func l)
  ++ enc_ptr base (prev_frame l) ++ enc_ptr base (memory l) ++ le_bytes 4 (num_bytes_per_page l)
  ++ enc_ptr base (global_data l) ++ le_bytes 4 (linear_mem_size l) ++ enc_ptr base (wasm_types l)
  ++ enc_ptr base (globals l) ++ enc_ptr base (global l) ++ le_bytes 1 (opcode_IMPDEP l)
  ++ enc_ptr base (frame l)
  ++ enc_dist (frame_ip l) (func_code m (cur_func l)) 1
  ++ enc_dist (frame_sp l) (sp_bottom_at m (frame l)) 4
  ++ enc_dist (frame_csp l) (csp_bottom_at m (frame l)) (SIZEOF WASMBranchBlock).

Definition register_bytes (m : mem) (l : locals) : list byte :=
  le_bytes 1 (opcode l) ++ le_bytes 4 (i_ l) ++ le_bytes 4 (depth l) ++ le_bytes 4 (cond l)
  ++ le_bytes 4 (count l) ++ le_bytes 4 (fidx l) ++ le_bytes 4 (tidx l) ++ le_bytes 4 (lidx l)
  ++ le_bytes 4 (frame_size l) ++ le_bytes 8 (all_cell_num l) ++ le_bytes 4 (val l)
  ++ enc_dist (else_addr l) (func_code m (cur_func l)) 1
  ++ enc_dist (end_addr l) (func_code m (cur_func l)) 1
  ++ enc_dist (maddr l) (memory_data_at m (memory l)) 1
  ++ le_bytes 4 (local_idx l) ++ le_bytes 4 (local_offset l) ++ le_bytes 4 (global_idx l)
  ++ le_bytes 1 (local_type l) ++ le_bytes 8 (global_addr l - global_data l)
  ++ le_bytes 4 (cache_index l) ++ le_bytes 4 (type_index l) ++ le_bytes 4 (cell_num l)
  ++ le_bytes 1 (value_type l).

Definition locals_bytes (base : Z) (m : mem) (l : locals) : list byte :=
  pointer_bytes base m l ++ register_bytes m l.

(** A structure that a distance is measured in is there. *)
Record locals_live (l : locals) : Prop := {
  ll_sp : frame_sp l ≠ NULL → frame l ≠ NULL;
  ll_csp : frame_csp l ≠ NULL → frame l ≠ NULL;
  ll_maddr : maddr l ≠ NULL → memory l ≠ NULL
}.

(** ** Macros *)

Lemma run_ok {A} (c : C A) out w a : c w = Ok a w → run c (out, w) = Ok a (out, w).
Proof. unfold run. simpl. by intros ->. Qed.

Lemma DUMP_IPTR_ok p out w :
  DUMP_IPTR p (out, w) = Ok tt (out ++ enc_ptr (pool_allocator w) p, w).
Proof. unfold DUMP_IPTR, enc_ptr. by destruct (p =? NULL). Qed.

Lemma DUMP_DIST_ok p from item out w v :
  (p ≠ NULL → from (out, w) = Ok v (out, w)) →
  DUMP_DIST p from item (out, w) = Ok tt (out ++ enc_dist p v item, w).
Proof.
  intros H. unfold DUMP_DIST, enc_dist. destruct (Z.eqb_spec p NULL); [done|].
  by erewrite mbind_ok by (by apply H).
Qed.

Lemma func_code_ok f out w : func_code_of f (out, w) = Ok (func_code (wmem w) f) (out, w).
Proof. apply run_ok, wasm_get_func_code_eq. Qed.

Lemma deref_ok p a out w : p ≠ NULL → deref p a (out, w) = Ok (ldp (wmem w) a) (out, w).
Proof. intros H. unfold deref. by rewrite (proj2 (Z.eqb_neq _ _)). Qed.

Lemma RESTORE_VAR_ok n v rest w :
  RESTORE_VAR n (le_bytes n v ++ rest, w) = Ok (v mod 256 ^ Z.of_nat n) (rest, w).
Proof.
  unfold RESTORE_VAR. cbn [fst snd].
  rewrite (proj2 (Nat.ltb_ge _ _)) by (rewrite length_app, length_le_bytes; lia).
  by rewrite take_app_eq, drop_app_eq, le_Z_bytes by (by rewrite length_le_bytes).
Qed.

Lemma DUMP_VAR_ok n v out w : DUMP_VAR n v (out, w) = Ok tt (out ++ le_bytes n v, w).
Proof. done. Qed.

(** Runs a sequence of dumps. *)
Ltac dump_step :=
  match goal with
  | |- (mbind (DUMP_VAR _ _) _) _ = _ => erewrite mbind_ok by apply DUMP_VAR_ok
  | |- (mbind (DUMP_IPTR _) _) _ = _ => erewrite mbind_ok by apply DUMP_IPTR_ok
  | |- (mbind (DUMP_DIST _ (func_code_of _) _) _) _ = _ =>
      erewrite mbind_ok by (apply DUMP_DIST_ok; intros ?; apply func_code_ok)
  | |- (mbind (DUMP_DIST _ _ _) _) _ = _ =>
      erewrite mbind_ok by (apply DUMP_DIST_ok; intros ?; apply deref_ok; by auto)
  end.

Lemma dump_locals_ok l w :
  locals_live l →
  dump_locals l ([], w) = Ok tt (locals_bytes (pool_allocator w) (wmem w) l, w).
Proof.
  intros [? ? ?]. unfold dump_locals. repeat dump_step. rewrite DUMP_VAR_ok.
  unfold locals_bytes, pointer_bytes, register_bytes. by rewrite <- !app_assoc.
Qed.

(** * Restoring *)

(** The frame that stands for a frame of the source process. *)
Definition reloc_frame (base : Z) (frames : list Pool_Info) (p : Z) : option Z :=
  if p =? NULL then Some NULL
  else if int32 (p - base) =? -1 then Some NULL
  else p_raw ∘ head <$> find (fun i => p_abs (head i) =? int32 (p - base)) frames.

(** A pointer into an object, at the same distance from its start. *)
Definition move (p from from' : Z) : Z := if p =? NULL then NULL else uint64 (p - from + from').

Definition dist_ok (p from item : Z) : Prop :=
  p ≠ NULL → ∃ k, p = from + k * item ∧ 0 <= k < 2 ^ 63.

Lemma RESTORE_IPTR_ok base p q rest w :
  reloc base (root_info w) p = Some q →
  RESTORE_IPTR (enc_ptr base p ++ rest, w) = Ok q (rest, w).
Proof.
  intros Hr. unfold RESTORE_IPTR_WITH, enc_ptr, reloc in *. destruct (p =? NULL) eqn:E.
  - erewrite mbind_ok by apply RESTORE_VAR_ok. simpl. by simplify_eq.
  - erewrite mbind_ok by apply RESTORE_VAR_ok. cbv beta.
    rewrite <- le_Z_bytes, le_Z_int32.
    destruct (int32 (p - base) =? -1) eqn:E1; [by simplify_eq|].
    unfold mbind, run, get_info. cbn [fst snd]. rewrite E1.
    destruct (find_info _ (root_info w)); simpl in Hr; by simplify_eq.
Qed.

Lemma RESTORE_FPTR_ok base p q rest w :
  reloc_frame base (root_frame w) p = Some q →
  RESTORE_FPTR (enc_ptr base p ++ rest, w) = Ok q (rest, w).
Proof.
  intros Hr. unfold RESTORE_IPTR_WITH, enc_ptr, reloc_frame in *. destruct (p =? NULL) eqn:E.
  - erewrite mbind_ok by apply RESTORE_VAR_ok. simpl. by simplify_eq.
  - erewrite mbind_ok by apply RESTORE_VAR_ok. cbv beta.
    rewrite <- le_Z_bytes, le_Z_int32.
    destruct (int32 (p - base) =? -1) eqn:E1; [by simplify_eq|].
    unfold mbind, run, get_frame_info. cbn [fst snd]. rewrite E1.
    destruct (find _ (root_frame w)); simpl in Hr; by simplify_eq.
Qed.

Lemma RESTORE_DIST_ok p from item c v rest w :
  0 < item → dist_ok p from item → (p ≠ NULL → c (rest, w) = Ok v (rest, w)) →
  RESTORE_DIST c item (enc_dist p from item ++ rest, w) = Ok (move p from v) (rest, w).
Proof.
  intros Hi Hd Hc. unfold RESTORE_DIST, enc_dist, move. destruct (Z.eqb_spec p NULL) as [E|E].
  - erewrite mbind_ok by apply RESTORE_VAR_ok. done.
  - destruct (Hd E) as (k&->&Hk). replace (from + k * item - from) with (k * item) by lia.
    rewrite Z.div_mul by lia. erewrite mbind_ok by apply RESTORE_VAR_ok. cbv beta.
    rewrite Z.mod_small by (change (256 ^ Z.of_nat 8) with (2 ^ 64); lia).
    rewrite swrap_small by lia. rewrite (proj2 (Z.eqb_neq _ _)) by lia.
    by erewrite mbind_ok by (by apply Hc).
Qed.

(** The values of the variables fit their types, and the addresses point into
    the objects they are measured from. *)
Record locals_ok (m : mem) (l : locals) : Prop := {
  lo_live : locals_live l;
  lo_bytes : Forall (fun v => 0 <= v < 256) [opcode_IMPDEP l; opcode l; local_type l; value_type l];
  lo_words : Forall (fun v => 0 <= v < 2 ^ 32)
    [num_bytes_per_page l; linear_mem_size l; i_ l; depth l; cond l; count l; fidx l; tidx l; lidx l;
     frame_size l; local_idx l; local_offset l; global_idx l; cache_index l; type_index l; cell_num l];
  lo_cells : 0 <= all_cell_num l < 2 ^ 64;
  lo_val : - 2 ^ 31 <= val l < 2 ^ 31;
  lo_ip : dist_ok (frame_ip l) (func_code m (cur_func l)) 1;
  lo_sp : dist_ok (frame_sp l) (sp_bottom_at m (frame l)) 4;
  lo_csp : dist_ok (frame_csp l) (csp_bottom_at m (frame l)) (SIZEOF WASMBranchBlock);
  lo_else : dist_ok (else_addr l) (func_code m (cur_func l)) 1;
  lo_end : dist_ok (end_addr l) (func_code m (cur_func l)) 1;
  lo_maddr : dist_ok (maddr l) (memory_data_at m (memory l)) 1
}.

(** The variables that hold addresses of whole objects, before and after. *)
Record pointers_moved (base : Z) (w : world) (l l' : locals) : Prop := {
  pm_module : reloc base (root_info w) (module l) = Some (module l');
  pm_exec_env : reloc base (root_info w) (exec_env l) = Some (exec_env l');
  pm_cur_func : reloc base (root_info w) (cur_func l) = Some (cur_func l');
  pm_prev_frame : reloc_frame base (root_frame w) (prev_frame l) = Some (prev_frame l');
  pm_memory : reloc base (root_info w) (memory l) = Some (memory l');
  pm_wasm_types : reloc base (root_info w) (wasm_types l) = Some (wasm_types l');
  pm_globals : reloc base (root_info w) (globals l) = Some (globals l');
  pm_global : reloc base (root_info w) (global l) = Some (global l');
  pm_frame : reloc_frame base (root_frame w) (frame l) = Some (frame l')
}.

(** The frame and the memory that an address moves into are there. *)
Record targets_live (l l' : locals) : Prop := {
  tl_sp : frame_sp l ≠ NULL → frame l' ≠ NULL;
  tl_csp : frame_csp l ≠ NULL → frame l' ≠ NULL;
  tl_maddr : maddr l ≠ NULL → memory l' ≠ NULL
}.

(** The variables of the restarted interpreter. *)
Definition restarted (m m' : mem) (gdata : Z) (l0 l q : locals) : locals :=
  let code := func_code m (cur_func l) in
  let code' := func_code m' (cur_func q) in
  mkLocals (module q) (exec_env q) (cur_func q) (prev_frame q) (memory q) (num_bytes_per_page l)
    (uint64 ((global_addr l - global_data l) mod 2 ^ 64 + gdata)) (linear_mem_size l)
    (wasm_types q) (globals q) (global q) (opcode_IMPDEP l) (frame q)
    (move (frame_ip l) code code') (FLD (frame q) WASMInterpFrame "lp")
    (move (frame_sp l) (sp_bottom_at m (frame l)) (sp_bottom_at m' (frame q)))
    (move (frame_csp l) (csp_bottom_at m (frame l)) (csp_bottom_at m' (frame q)))
    (frame_ip_end q) (opcode l) (i_ l) (depth l) (cond l) (count l) (fidx l) (tidx l) (lidx l)
    (frame_size l) (all_cell_num l) (val l) (move (else_addr l) code code')
    (move (end_addr l) code code')
    (move (maddr l) (memory_data_at m (memory l)) (memory_data_at m' (memory q)))
    (local_idx l) (local_offset l) (global_idx l) (local_type l) (global_addr l0) (cache_index l)
    (type_index l) (cell_num l) (value_type l)
    (FLD (exec_env q) WASMExecEnv "block_addr_cache"
     + cache_index l * BLOCK_ADDR_CONFLICT_SIZE * SIZEOF BlockAddr).

Lemma func_code_end_ok f w :
  ∃ v, wasm_get_func_code_end f w = Ok v w
    ∧ (load_Z (wmem w) (FLD f WASMFunctionInstance "is_import_func") 1 = 0 →
       v = func_code (wmem w) f
           + load_Z (wmem w) (FLD (ldp (wmem w) (FLD f WASMFunctionInstance "u.func"))
                                WASMFunction "code_size") 4).
Proof.
  unfold wasm_get_func_code_end, func_code. erewrite mbind_ok by reflexivity.
  destruct (Z.eqb_spec (load_Z (wmem w) (FLD f WASMFunctionInstance "is_import_func") 1) 0)
    as [E|E]; simpl negb; cbv iota; by eexists.
Qed.

Ltac restore_step :=
  match goal with
  | |- (mbind (RESTORE_VAR _) _) _ = _ => erewrite mbind_ok by apply RESTORE_VAR_ok
  | |- (mbind RESTORE_IPTR _) _ = _ => erewrite mbind_ok by (by apply RESTORE_IPTR_ok)
  | |- (mbind RESTORE_FPTR _) _ = _ => erewrite mbind_ok by (by apply RESTORE_FPTR_ok)
  | |- (mbind (RESTORE_DIST (func_code_of _) _) _) _ = _ =>
      erewrite mbind_ok by (apply RESTORE_DIST_ok; [done|done|intros ?; apply func_code_ok])
  | |- (mbind (RESTORE_DIST _ _) _) _ = _ =>
      erewrite mbind_ok by (apply RESTORE_DIST_ok; [done|done|intros ?; apply deref_ok; by auto])
  | |- (mbind (run (wasm_get_func_code_end _)) _) _ = _ =>
      erewrite mbind_ok by (by apply run_ok)
  end.

Lemma restore_locals_ok base m l l0 q gdata w rest :
  locals_ok m l → pointers_moved base w l q → targets_live l q →
  reloc base (root_info w) (global_data l) = Some gdata →
  wasm_get_func_code_end (cur_func q) w = Ok (frame_ip_end q) w →
  restore_locals l0 (locals_bytes base m l ++ rest, w)
  = Ok (restarted m (wmem w) gdata l0 l q) (rest, w).
Proof.
  intros [_ Hb Hw Hc Hv ? ? ? ? ? ?] [? ? ? ? ? ? ? ? ?] [? ? ?] ? ?.
  rewrite !Forall_cons in Hb. rewrite !Forall_cons in Hw. cbv beta in Hb, Hw. unfold locals_bytes, pointer_bytes, register_bytes.
  rewrite <- !app_assoc. unfold restore_locals. repeat restore_step.
  unfold restarted, mret.
  change (256 ^ Z.of_nat 1) with 256. change (256 ^ Z.of_nat 4) with (2 ^ 32).
  change (256 ^ Z.of_nat 8) with (2 ^ 64).
  set (g := (global_addr l - global_data l) mod 2 ^ 64).
  assert (int32 (val l mod 2 ^ 32) = val l) as ->.
  { transitivity (int32 (val l)); [apply (swrap_wrap 32); lia|by apply int32_small]. }
  rewrite !Z.mod_small by lia. done.
Qed.

(** * The checkpoint and the restart

    A checkpoint happens between two instructions and ends the process with
    status 0 after the images are written; the images are the result here.  The
    offsets of the table are computed anew when the process itself was
    restored ([migr_flag]). *)
Definition on_image {A B} (c : I A) (img : list byte) (k : A → list byte → B) : C B := fun w =>
  match c (img, w) with
  | Ok a (rest, w) => Ok (k a rest) w
  | Exited n => Exited n
  | Stuck => Stuck
  end.

Definition interp_checkpoint (migr_flag : bool) (l : locals) : C (list byte * list byte) :=
  (if migr_flag then abs_translation else skip) ;;;
  SYNC_ALL_TO_FRAME l ;;;
  let* pool_img := dump_runtime in
  on_image (dump_locals l) [] (fun _ interp_img => (pool_img, interp_img)).

Definition interp_restart (s : memory_state) (init_wasi : C unit)
    (resolve_symbol : mem → Z → Z → Z → Z * Z * Z * Z) (l0 : locals)
    (pool_img interp_img : list byte) : C locals :=
  restore_runtime s init_wasi resolve_symbol pool_img ;;;
  on_image (restore_locals l0) interp_img (fun l _ => l).

Lemma SYNC_ALL_TO_FRAME_ok l w :
  ∃ m', SYNC_ALL_TO_FRAME l w = Ok tt (set_mem m' w)
    ∧ ldp m' (FLD (frame l) WASMInterpFrame "sp") = uint64 (frame_sp l)
    ∧ ldp m' (FLD (frame l) WASMInterpFrame "ip") = uint64 (frame_ip l)
    ∧ ldp m' (FLD (frame l) WASMInterpFrame "csp") = uint64 (frame_csp l)
    ∧ unchanged_outside
        [(FLD (frame l) WASMInterpFrame "sp", 8); (FLD (frame l) WASMInterpFrame "ip", 8);
         (FLD (frame l) WASMInterpFrame "csp", 8)] (wmem w) m'.
Proof.
  eexists. split; [reflexivity|]. cbn [wmem set_mem]. unfold ldp. split_and!.
  - rewrite !load_store_Z_ne by lia. by rewrite load_store_Z_eq by lia.
  - rewrite load_store_Z_ne by lia. by rewrite load_store_Z_eq by lia.
  - by rewrite load_store_Z_eq by lia.
  - eapply (unchanged_trans [_] [_; _]); [apply unchanged_store_Z|].
    eapply (unchanged_trans [_] [_]); apply unchanged_store_Z.
Qed.

(** ** Theorems *)


(** C35: the restart loses the address of the current global: [global_addr] keeps
    the value it had before the restart, and the start of the global data is
    moved by the distance instead, so that it is right only when that distance
    is zero. *)
Theorem global_data_moved_twice m base l l0 q gdata w rest r w1 :
  locals_ok m l → pointers_moved base w l q → targets_live l q →
  reloc base (root_info w) (global_data l) = Some gdata → 0 <= gdata < 2 ^ 64 →
  wasm_get_func_code_end (cur_func q) w = Ok (frame_ip_end q) w →
  restore_locals l0 (locals_bytes base m l ++ rest, w) = Ok r (rest, w1) →
  global_addr r = global_addr l0
  ∧ (global_data r = gdata ↔ (global_addr l - global_data l) mod 2 ^ 64 = 0).
Proof.
  intros Hl Hp Ht Hg Hb He Hr. rewrite (restore_locals_ok base m l l0 q gdata) in Hr by done.
  inversion Hr; subst r. cbn [restarted global_addr global_data]. split; [done|].
  unfold uint64, wrap. split; intros H; lia.
Qed.

(** A checkpoint stores the registers in the current frame, so that
    frame.img has them, and writes the table, the heap and the registers of a
    well-formed process. *)
Lemma interp_checkpoint_writes l w m' :
  SYNC_ALL_TO_FRAME l w = Ok tt (set_mem m' w) → heap_ok (set_mem m' w) → locals_live l →
  ∃ w1, interp_checkpoint false l w
        = Ok (table_bytes (root_info w), locals_bytes (pool_allocator w) m' l) w1
    ∧ w_fp w1 = FWrite (heap_bytes m' (pool_allocator w) (root_info w))
    ∧ root_info w1 = root_info w ∧ wmem w1 = m'
    ∧ ldp m' (FLD (frame l) WASMInterpFrame "ip") = uint64 (frame_ip l)
    ∧ ldp m' (FLD (frame l) WASMInterpFrame "sp") = uint64 (frame_sp l)
    ∧ ldp m' (FLD (frame l) WASMInterpFrame "csp") = uint64 (frame_csp l).
Proof.
  intros Hs Hh Hl. destruct (SYNC_ALL_TO_FRAME_ok l w) as (m''&Hs'&E1&E2&E3&_).
  assert (m'' = m') as -> by (rewrite Hs in Hs'; by inversion Hs').
  destruct (dump_runtime_ok _ Hh) as (w1&Hd&[Em Er _ Ep _ _]&Hf). cbn in Em, Er, Ep.
  exists w1. unfold interp_checkpoint. erewrite mbind_ok by reflexivity.
  erewrite mbind_ok by exact Hs. erewrite mbind_ok by exact Hd.
  unfold on_image. rewrite dump_locals_ok by done. rewrite Em, Ep. by split_and!.
Qed.

(** ** A running interpreter

    It is in the function of the frame at 5248 ([src_frames_mem]), its globals
    are at offset 512 of the pool. *)
Definition sample_locals : locals :=
  mkLocals NULL NULL 16384 NULL NULL 65536 4608 0 NULL NULL NULL 254 5248
    20486 5320 5332 5368 20500 106 1 2 3 4 5 6 7 8 9 (-10) NULL 20490 NULL 11 12 13 127 4616 14 15 16 64 0.

Definition sample_source : world :=
  mkWorld src_frames_mem FClosed FClosed [] [] 4096 4096 0 0 0 0 0.

Definition sample_dest : world :=
  set_root_info [mkInfo (mkElem 12288 81920 1 WASMFunctionInstanceT) [];
                 mkInfo (mkElem 512 90112 64 uint8T) []]
    (set_mem (store_Z (wmem (dst_stack [])) (FLD 73856 WASMInterpFrame "sp_bottom") 8 73936)
       (dst_stack [])).

(** The new addresses of the objects. *)
Definition sample_moved : locals :=
  mkLocals NULL NULL 81920 NULL NULL 0 0 0 NULL NULL NULL 0 73856
    0 0 0 0 86016 0 0 0 0 0 0 0 0 0 0 0 0 0 0 0 0 0 0 0 0 0 0 0 0.

Lemma sample_locals_ok : locals_ok src_frames_mem sample_locals.
Proof.
  constructor.
  - constructor; intros H; try discriminate. by destruct H.
  - each; by_compute.
  - each; by_compute.
  - by_compute.
  - by_compute.
  - intros _. exists 6. by_compute.
  - intros _. exists 1. by_compute.
  - intros _. exists 1. by_compute.
  - intros H. by destruct H.
  - intros _. exists 10. by_compute.
  - intros H. by destruct H.
Qed.

Lemma sample_pointers_moved : pointers_moved 4096 sample_dest sample_locals sample_moved.
Proof. constructor; vm_compute; reflexivity. Qed.

Lemma sample_targets_live : targets_live sample_locals sample_moved.
Proof. constructor; intros H; try discriminate. by destruct H. Qed.


Lemma global_data_moved_twice_witness :
  ∃ r, restore_locals sample_moved (locals_bytes 4096 src_frames_mem sample_locals, sample_dest)
       = Ok r ([], sample_dest)
    ∧ global_addr r = 0 ∧ global_data r ≠ 90112.
Proof.
  assert (restore_locals sample_moved (locals_bytes 4096 src_frames_mem sample_locals, sample_dest)
          = Ok (restarted src_frames_mem (wmem sample_dest) 90112 sample_moved sample_locals sample_moved)
              ([], sample_dest)) as Hr by (vm_compute; reflexivity).
  eexists. split; [exact Hr|].
  destruct (global_data_moved_twice src_frames_mem 4096 sample_locals sample_moved sample_moved 90112
    sample_dest [] (restarted src_frames_mem (wmem sample_dest) 90112 sample_moved sample_locals sample_moved)
    sample_dest sample_locals_ok sample_pointers_moved sample_targets_live) as [H1 H2].
  - reflexivity.
  - by_compute.
  - reflexivity.
  - by rewrite app_nil_r.
  - split; [exact H1|]. rewrite H2. vm_compute. discriminate.
Defined.

(** A checkpoint of the sample heap in its only frame. *)
Definition sample_regs : locals :=
  mkLocals NULL NULL NULL NULL NULL 0 NULL 0 NULL NULL NULL 254 5120
    20486 5192 5200 5300 20500 106 0 0 0 0 0 0 0 0 0 0 NULL NULL NULL 0 0 0 0 NULL 0 0 0 0 0.

Definition synced : mem :=
  store_Z (store_Z (store_Z sample_mem (FLD 5120 WASMInterpFrame "sp") 8 5200)
             (FLD 5120 WASMInterpFrame "ip") 8 20486)
    (FLD 5120 WASMInterpFrame "csp") 8 5300.

Lemma synced_ok : heap_ok (set_mem synced sample).
Proof. prove_heap_ok. Qed.

Lemma interp_checkpoint_writes_witness :
  ∃ w1, interp_checkpoint false sample_regs sample
        = Ok (table_bytes sample_table, locals_bytes 4096 synced sample_regs) w1
    ∧ ldp (wmem w1) (FLD 5120 WASMInterpFrame "ip") = 20486.
Proof.
  destruct (interp_checkpoint_writes sample_regs sample synced) as (w1&H1&_&_&Em&H2&_).
  - reflexivity.
  - exact synced_ok.
  - constructor; intros H; try discriminate. by destruct H.
  - exists w1. split; [exact H1|]. rewrite Em. exact H2.
Defined.
