(* ===== verification/Moved.v ===== *)
(** What a checkpoint writes for the frames on the way through the table, and the
    objects of a restored heap: every object and array element of the source has a
    new address, its own span of a new block, and the fields of the source. *)
From stdpp Require Import base gmap list numbers strings.
From Stdlib Require Import Strings.Byte ZArith Lia.
From S2P Require Import Prelude CMemory WasmTypes PoolInfo Table ExecEnv Memory Dump Restore.
From S2P Require Import Format Codec Records Searches Heap Frames Checkpoint Extents TableImage.
From S2P Require Import FrameImage Migration Regs InterpState.

(** * The images of the heap and of the frames *)

(** Every object has a codec, is a frame, or is passed over. *)
Definition known_kind (i : Pool_Info) : Prop :=
  is_Some (codec_of (type (head i))) ∨ is_frame i = true ∨ dump_skipped (type (head i)) = true.

Definition frame_out (m : mem) (base : Z) (i : Pool_Info) : list byte :=
  if is_frame i then frame_record m base i else [].

Lemma codec_not_frame i : is_Some (codec_of (type (head i))) → is_frame i = false.
Proof.
  intros Hc. destruct (is_frame i) eqn:E; [|done]. rewrite (is_frame_type _ E) in Hc. by destruct Hc.
Qed.

Lemma dump_object_frames i w w1 g out :
  w_fp w = FWrite out → w_gp w = FWrite g → dumpable w i → known_kind i →
  dump_object i w = Ok tt w1 → w_gp w1 = FWrite (g ++ frame_out (wmem w) (dump_base w) i).
Proof.
  intros Hf Hg Hd [[c Hc]|[Hk|Hk]] Hr; unfold frame_out.
  - rewrite (codec_not_frame i) by (by exists c).
    unfold dumpable in Hd. unfold dump_object in Hr.
    rewrite (codec_not_skipped _ c Hc) in Hr. rewrite c_dump_data in Hr. rewrite Hc in Hd.
    erewrite c_dump_ok in Hr; [|exact Hf|].
    + injection Hr as <-. rewrite (su_gp _ (c_deff_static (Codec := c))). cbn [w_gp set_fp].
      by rewrite Hg, app_nil_r.
    + eapply Forall_impl; [exact Hd|]. intros e [? ?]. split; [done|]. by apply codec_wf.
  - rewrite Hk. pose proof (is_frame_type _ Hk) as Ht.
    assert (dump_object i w = dump_WASMInterpFrame i w) as E by (unfold dump_object; by rewrite Ht).
    rewrite E, (dump_frame_gp w g i Hg) in Hr. by injection Hr as <-.
  - assert (is_frame i = false) as ->.
    { unfold is_frame. apply Z.eqb_neq. intros E%type_code_inj. by rewrite E in Hk. }
    unfold dump_object in Hr. rewrite Hk in Hr. injection Hr as <-. by rewrite app_nil_r.
Qed.

Lemma dump_table_frames root : ∀ w out g w1 img,
  w_fp w = FWrite out → w_gp w = FWrite g → Forall (dumpable w) root → Forall known_kind root →
  dump_table root w = Ok img w1 →
  w_gp w1 = FWrite (g ++ frames_image (wmem w) (dump_base w) (filter (fun i => is_frame i = true) root)).
Proof.
  induction root as [|i root IH]; intros w out g w1 img Hf Hg Hd Hk Hr.
  - injection Hr as <- <-. by rewrite app_nil_r.
  - apply Forall_cons in Hd as [Hi Hd], Hk as [Hki Hk]. cbn [dump_table] in Hr.
    destruct (dump_object_ok i w out g Hf Hg Hi) as (w2&g2&Hr2&Hs2&Hf2&_).
    pose proof (dump_object_frames i w w2 g out Hf Hg Hi Hki Hr2) as Hg2.
    assert (frames_image (wmem w) (dump_base w) (filter (fun i => is_frame i = true) (i :: root))
            = frame_out (wmem w) (dump_base w) i
              ++ frames_image (wmem w) (dump_base w) (filter (fun i => is_frame i = true) root)) as ->.
    { unfold frame_out. rewrite filter_cons. destruct (decide _) as [E|E]; [by rewrite E|].
      by destruct (is_frame i). }
    rewrite app_assoc. rewrite <- (sh_mem _ _ Hs2), <- (sh_base _ _ Hs2) in *.
    assert (Forall (dumpable w2) root) as Hd2.
    { eapply Forall_impl; [exact Hd|]. intros j. by rewrite Hs2. }
    destruct (dump_skipped (type i)) eqn:Es.
    + unfold dump_object in Hr2. rewrite Es in Hr2. injection Hr2 as <-.
      by apply (IH w _ _ w1 img Hf2 Hg2).
    + rewrite (mbind_ok _ _ _ _ _ Hr2) in Hr. unfold mbind at 1 in Hr.
      destruct (match chain i with [] => mret [] | _ => _ end w2) as [nodes w3| |] eqn:En; [|done..].
      assert (w3 = w2) as ->.
      { destruct (chain i) as [|e es]; [by injection En|]. revert En.
        generalize (Z.to_nat (size i - 1)). generalize (e :: es).
        clear. intros l n. revert l nodes w3. induction n as [|n IHn]; intros [|x l] nodes w3; simpl; try done.
        - by intros [= <- <-].
        - unfold mbind. destruct (dump_list n l w2) as [bs w4| |] eqn:E; [|done..].
          intros [= <- <-]. by eapply IHn. }
      unfold mbind in Hr. destruct (dump_table root w2) as [rest w4| |] eqn:Et; [|done..].
      injection Hr as <- <-. by apply (IH w2 _ _ w4 rest Hf2 Hg2).
Qed.

(** * Objects and their new places *)

Lemma FOP_elem {A} (R : A → A → Prop) l x y :
  ForallOrdPairs R l → (∀ a b, R a b → R b a) → x ∈ l → y ∈ l → x ≠ y → R x y.
Proof.
  intros HF Hs. induction HF as [|z l Hz _ IH]; intros Hx Hy Hne; [by apply not_elem_of_nil in Hx|].
  rewrite Forall_forall in Hz.
  apply elem_of_cons in Hx as [->|Hx], Hy as [->|Hy]; auto. done.
Qed.

Lemma FOP_lookup_2 {A} (R : A → A → Prop) l j k x y :
  ForallOrdPairs R l → (j < k)%nat → l !! j = Some x → l !! k = Some y → R x y.
Proof.
  intros H. revert j k. induction H as [|z l Hz _ IH]; intros [|j] [|k] Hjk Hx Hy; try done; try lia.
  - injection Hx as ->. rewrite Forall_forall in Hz. apply Hz. by eapply (list_elem_of_lookup_2 _ k).
  - apply (IH j k); [lia|done|done].
Qed.

Lemma find_NoDup {A} (f : A → Z) l x :
  NoDup (f <$> l) → x ∈ l → find (fun y => f y =? f x) l = Some x.
Proof.
  induction l as [|y l IH]; intros Hnd Hx; [by apply not_elem_of_nil in Hx|]. cbn [find].
  apply NoDup_cons in Hnd as [Hn Hnd]. apply elem_of_cons in Hx as [->|Hx]; [by rewrite Z.eqb_refl|].
  destruct (Z.eqb_spec (f y) (f x)) as [E|E]; [|by apply IH].
  destruct Hn. rewrite E. by apply list_elem_of_fmap_2.
Qed.

(** The records of these kinds hold every element of an array. *)
Definition chained (t : Data_Type) : bool :=
  match codec_of t with Some _ => match c_pre (t := t) with PAbs => true | _ => false end | None => false end.

(** The fields that the rest of a restart sets anew: the top of the stack, which the
    frames are taken from, and the calling convention of an imported function. *)
Definition relinked (t : Data_Type) : list region :=
  match t with
  | WASMExecEnvT => [(OFS WASMExecEnv "wasm_stack.s.top", 8)]
  | WASMImportT => [(OFS WASMImport "u.function.call_conv_raw", 1)]
  | _ => []
  end.

Definition kept_items (t : Data_Type) (its : list item) : list item :=
  filter (fun it => item_region it ∉ relinked t) its.

(** A part [r] of an object that holds no field but relinked ones. *)
Definition clear_of (r : region) (t : Data_Type) (it : item) : bool :=
  bool_decide (item_region it ∈ relinked t) || (r.1 + r.2 <=? (item_region it).1)
  || ((item_region it).1 + (item_region it).2 <=? r.1).

Lemma clear_of_ok r t its it :
  forallb (clear_of r t) its = true → it ∈ kept_items t its → disjoint_region r (item_region it).
Proof.
  intros H [Hk Hit%list_elem_of_In]%list_elem_of_filter. rewrite forallb_forall in H.
  specialize (H it Hit). unfold clear_of in H. rewrite bool_decide_eq_false_2 in H by done.
  unfold disjoint_region. simpl in H. zbool; lia.
Qed.

(** No field is computed from a relinked one. *)
Definition dep_free (t : Data_Type) (it : item) : bool :=
  match it with
  | ISet _ deps _ => forallb (fun d => bool_decide (d ∉ relinked t)) deps
  | _ => true
  end.

Lemma record_dep_free t m e : forallb (dep_free t) (items m (p_raw e) (obj_fmt t m e)) = true.
Proof.
  destruct (decide (relinked t = [])) as [E|E].
  - apply forallb_forall. intros it _. destruct it; try done. cbn [dep_free]. rewrite E.
    apply forallb_forall. intros d _. apply bool_decide_eq_true_2, not_elem_of_nil.
  - destruct t; try done. change (obj_fmt WASMImportT m e) with fmt_WASMImport.
    cbn [items fseq foldr fmt_WASMImport]. unfold fmt_import_data. by repeat case_match.
Qed.

Lemma done_ok_kept t m e :
  wf_fmt m (p_raw e) [] (obj_fmt t m e) → done_ok (kept_items t (items m (p_raw e) (obj_fmt t m e))).
Proof.
  intros Hwf. pose proof (wf_done_ok m (p_raw e) _ [] Hwf done_ok_nil) as Hd. rewrite app_nil_r in Hd.
  pose proof (record_dep_free t m e) as Hdep. rewrite forallb_forall in Hdep.
  intros it Hit. assert (Hit2 := Hit). apply list_elem_of_In, list_elem_of_filter in Hit2 as [_ Hin].
  apply list_elem_of_In in Hin. destruct (Hd it Hin) as [Hl Hds]. split; [done|].
  destruct it as [| | |off deps g| |]; try done. specialize (Hdep _ Hin). cbn [dep_free] in Hdep.
  rewrite Forall_forall in Hds |- *. rewrite forallb_forall in Hdep. intros d Hdin.
  destruct (Hds d Hdin) as (?&j&Hj&<-). split; [done|]. exists j. split; [|done].
  apply list_elem_of_In, list_elem_of_filter. split; [|by apply list_elem_of_In].
  eapply bool_decide_eq_true_1, Hdep. by apply list_elem_of_In.
Qed.

(** A well-formed heap, restored. *)
Class RestoredHeap (w w' : world) (ps : list place) (w2 : world) : Prop := {
  rh_heap : heap_ok w;
  rh_base : 0 <= pool_allocator w;
  rh_restored : checkpoint_restored w w' ps w2
}.

Section Moved.
Context {w w' w2 : world} {ps : list place} `{RH : !RestoredHeap w w' ps w2}.

Abbreviation base := (pool_allocator w).
Abbreviation m := (wmem w).

(** [e], the element [k] of an object of kind [t], has become [e']. *)
Record moved (t : Data_Type) (p : place) (k : nat) (e e' : Pool_Elem) : Prop := {
  mv_place : p ∈ ps;
  mv_type : type (head (pl_src p)) = t;
  mv_src : elems (pl_src p) !! k = Some e;
  mv_dst : elems (pl_dst p) !! k = Some e'
}.

(** The bytes of the new block that the element may use. *)
Definition span (p : place) (e' : Pool_Elem) : region := (p_raw e', slot (pl_src p) (pl_dsize p)).

Lemma place_of_object i : i ∈ objects (root_info w) → ∃ p, p ∈ ps ∧ pl_src p = i.
Proof.
  rewrite <- (cr_src _ _ _ _ rh_restored). intros (p&->&Hp)%list_elem_of_fmap. by exists p.
Qed.

Lemma object_of_place p : p ∈ ps → pl_src p ∈ root_info w ∧ place_ok p.
Proof.
  intros Hp. split; [|by pose proof (cr_places _ _ _ _ rh_restored) as H; rewrite Forall_forall in H; apply H].
  assert (pl_src p ∈ objects (root_info w)) as Ho
    by (rewrite <- (cr_src _ _ _ _ rh_restored); by apply (list_elem_of_fmap_2 pl_src)).
  by do 2 apply list_elem_of_filter in Ho as [_ Ho].
Qed.

Lemma restored_offsets :
  p_abs <$> all_elems (root_info w2) ≡ₚ p_abs <$> all_elems (objects (root_info w)).
Proof.
  rewrite (cr_root _ _ _ _ rh_restored), <- (cr_src _ _ _ _ rh_restored), <- (all_elems_abs pl_dst ps) by done.
  apply fmap_Permutation, all_elems_perm. symmetry. apply Permutation_rev.
Qed.

Lemma moved_at p k e : p ∈ ps → elems (pl_src p) !! k = Some e →
  ∃ e', moved (type (head (pl_src p))) p k e e'.
Proof.
  intros Hp He.
  assert (length (elems (pl_dst p)) = length (elems (pl_src p))) as Hl.
  { pose proof (f_equal length (rebuild_abs (pl_src p) (pl_addr p) (pl_dsize p))) as H.
    by rewrite !length_fmap in H. }
  destruct (lookup_lt_is_Some_2 (elems (pl_dst p)) k) as [e' He'].
  { rewrite Hl. by eapply lookup_lt_Some. }
  by exists e'.
Qed.

Lemma moved_of i k e : i ∈ objects (root_info w) → elems i !! k = Some e →
  ∃ p e', moved (type (head i)) p k e e' ∧ pl_src p = i.
Proof.
  intros Hi He. destruct (place_of_object i Hi) as (p&Hp&<-).
  destruct (moved_at p k e Hp He) as [e' Hm]. by exists p, e'.
Qed.

Lemma moved_abs t p k e e' : moved t p k e e' → p_abs e' = p_abs e.
Proof.
  intros [_ _ H1 H2]. pose proof (rebuild_abs (pl_src p) (pl_addr p) (pl_dsize p)) as H.
  apply (f_equal (fun l : list Z => l !! k)) in H. rewrite !list_lookup_fmap in H.
  fold (pl_dst p) in H. rewrite H1, H2 in H. by injection H.
Qed.

Lemma moved_known t p k e e' : moved t p k e e' →
  e ∈ all_elems (root_info w) ∧ e' ∈ all_elems (root_info w2).
Proof.
  intros [Hp _ H1 H2]. split; apply in_all_elems.
  - exists (pl_src p). split; [by apply object_of_place|by eapply list_elem_of_lookup_2].
  - exists (pl_dst p). split; [|by eapply list_elem_of_lookup_2].
    rewrite (cr_root _ _ _ _ rh_restored), <- Permutation_rev. by apply (list_elem_of_fmap_2 pl_dst).
Qed.

Lemma known_offset e : e ∈ all_elems (root_info w) →
  p_raw e ≠ NULL ∧ int32 (p_raw e - base) = p_abs e ∧ p_abs e ≠ -1 ∧ 0 < p_abs e < 2 ^ 31.
Proof.
  intros He. pose proof rh_base as Hbase. pose proof (p_abs_positive _ _ _ (ho_table _ rh_heap) He) as Hp.
  destruct (ho_table _ rh_heap) as [Ha Hn _]. rewrite Forall_forall in Ha, Hn.
  specialize (Ha e He). specialize (Hn e He). unfold elem_at, near in *. unfold NULL.
  split_and!; [lia|by symmetry|lia|lia|lia].
Qed.

Lemma moved_reloc t p k e e' : moved t p k e e' → reloc base (root_info w2) (p_raw e) = Some (p_raw e').
Proof.
  intros Hm. destruct (moved_known _ _ _ _ _ Hm) as [He He'].
  destruct (known_offset e He) as (H0&Ho&H1&_). unfold reloc.
  rewrite (proj2 (Z.eqb_neq (p_raw e) NULL)), Ho, (proj2 (Z.eqb_neq (p_abs e) (-1))) by done.
  destruct (find_info_key p_abs (fun x => p_abs e =? p_abs x) (p_abs e) (abs_key _) (root_info w2) e')
    as (i&->&Ei); [apply rh_restored|done|by eapply moved_abs|]. simpl. by rewrite Ei.
Qed.

Lemma moved_span t p k e e' : moved t p k e e' →
  p_raw e' = pl_addr p + Z.of_nat k * slot (pl_src p) (pl_dsize p)
  ∧ 0 <= slot (pl_src p) (pl_dsize p)
  ∧ 0 < pl_addr p ∧ pl_addr p <= p_raw e'
  ∧ p_raw e' + slot (pl_src p) (pl_dsize p) <= pl_addr p + (pl_block p).2
  ∧ pl_addr p + (pl_block p).2 < 2 ^ 64.
Proof.
  intros [Hp _ H1 H2]. destruct (object_of_place p Hp) as [_ Hok].
  destruct (slot_ok _ _ _ _ (po_entry _ Hok) H1) as (_&Hk0&Hk&Hend).
  pose proof (rebuild_lookup _ _ _ _ _ H2) as Hr. pose proof (po_low _ Hok). pose proof (po_high _ Hok).
  assert (0 <= slot (pl_src p) (pl_dsize p)).
  { pose proof (po_entry _ Hok) as [_ ? _ _ Hcl _]. unfold slot, request in *.
    destruct (class_of _); try done; try lia; nia. }
  unfold pl_block, block_of in *. cbn [fst snd] in *. split_and!; nia.
Qed.

Lemma place_eq_or p q : p ∈ ps → q ∈ ps → p = q ∨ p ≠ q.
Proof.
  intros P1 P2.
  destruct (decide (pl_addr p = pl_addr q)) as [E|E]; [|right; congruence].
  destruct (decide (pl_dsize p = pl_dsize q)) as [E'|E']; [|right; congruence].
  destruct (decide (p_abs (head (pl_src p)) = p_abs (head (pl_src q)))) as [E2|E2]; [|right; congruence].
  destruct (object_of_place p P1) as [O1 _], (object_of_place q P2) as [O2 _]. left.
  pose proof (NoDup_p_abs _ _ (ho_table _ rh_heap)) as Hnd.
  pose proof (find_info_head p_abs _ _ (abs_key _) _ (pl_src p) Hnd O1 eq_refl) as F1.
  pose proof (find_info_head p_abs _ _ (abs_key _) _ (pl_src q) Hnd O2 (eq_sym E2)) as F2.
  destruct p, q; simpl in *; congruence.
Qed.

Lemma moved_disjoint t1 p1 k1 e1 e1' t2 p2 k2 e2 e2' :
  moved t1 p1 k1 e1 e1' → moved t2 p2 k2 e2 e2' → p1 ≠ p2 ∨ k1 ≠ k2 →
  disjoint_region (span p1 e1') (span p2 e2').
Proof.
  intros M1 M2 Hne. destruct (moved_span _ _ _ _ _ M1) as (E1&N1&_&L1&U1&_).
  destruct (moved_span _ _ _ _ _ M2) as (E2&N2&_&L2&U2&_). unfold span, disjoint_region. cbn [fst snd].
  destruct (place_eq_or p1 p2) as [->|Hp]; [apply M1|apply M2|..].
  - destruct Hne as [?|Hne]; [done|]. rewrite E1, E2. nia.
  - assert (disjoint_region (pl_block p1) (pl_block p2)) as Hd.
    { assert (ForallOrdPairs (fun p q => disjoint_region (pl_block p) (pl_block q)) ps) as HF.
      { pose proof (cr_disjoint _ _ _ _ rh_restored) as H. clear -H. revert H.
        induction ps as [|p l IH]; intros H; [constructor|]. inversion H; subst.
        constructor; [by apply Forall_map|by apply IH]. }
      apply (FOP_elem _ _ _ _ HF); [unfold disjoint_region; lia|apply M1|apply M2|done]. }
    unfold disjoint_region, pl_block, block_of in *. cbn [fst snd] in *. lia.
Qed.

(** The fields of an object whose record holds it. *)
Lemma moved_elem t p k e e' : moved t p k e e' → is_Some (codec_of t) → chained t = true ∨ k = 0%nat →
  wf_fmt m (p_raw e) [] (obj_fmt t m e)
  ∧ Forall (within (slot (pl_src p) (pl_dsize p))) (items m (p_raw e) (obj_fmt t m e))
  ∧ obj_rel base (root_info w2) m (p_raw e) (wmem w2) (p_raw e') (obj_fmt t m e)
  ∧ src_ok base (objects (root_info w)) m (p_raw e) (obj_fmt t m e)
  ∧ (e, e') ∈ elem_pairs (pl_pair p).
Proof.
  intros [Hp <- H1 H2] [c Hc] Hk. destruct (object_of_place p Hp) as [Hin Hok].
  pose proof (ho_objects _ rh_heap) as Ho. rewrite Forall_forall in Ho. specialize (Ho _ Hin).
  unfold object_ok in Ho. rewrite Hc in Ho. destruct Ho as [Hwf _].
  assert (elem_pairs (pl_pair p) !! k = Some (e, e')) as Hq.
  { unfold elem_pairs. cbn [pl_pair fst snd]. rewrite Hc. unfold chained in Hk. rewrite Hc in Hk.
    apply lookup_zip_with_Some. exists e, e'. split; [done|].
    destruct c_pre; cbn [objs]; destruct Hk as [?| ->]; done. }
  destruct (place_elem w p c k (e, e') Hok Hc Hwf Hq) as (n&Hn&->&_&_&_&He&_&_).
  unfold obj_fmt. rewrite Hc. cbn [fst snd] in *.
  pose proof (cr_rel _ _ _ _ rh_restored) as Hrel. rewrite Forall_map, Forall_forall in Hrel.
  specialize (Hrel p Hp). unfold info_rel in Hrel. rewrite Forall_lookup in Hrel.
  specialize (Hrel k _ Hq). unfold pair_rel, obj_fmt in Hrel. cbn [pl_pair fst snd] in Hrel. rewrite Hc in Hrel.
  split_and!; [|done|done|apply He|by eapply list_elem_of_lookup_2].
  apply codec_wf; [done|apply He].
Qed.

(** One field of it. *)
Lemma moved_item t p k e e' n it : moved t p k e e' → is_Some (codec_of t) →
  chained t = true ∨ k = 0%nat → nth_error (items m (p_raw e) (obj_fmt t m e)) n = Some it →
  item_rel base (root_info w2) m (p_raw e) (wmem w2) (p_raw e') it
  ∧ within (slot (pl_src p) (pl_dsize p)) it.
Proof.
  intros Hm Hc Hk Hit%nth_error_In%list_elem_of_In.
  destruct (moved_elem t p k e e' Hm Hc Hk) as (_&Hw&Hr&_).
  unfold obj_rel in Hr. rewrite Forall_forall in Hw, Hr. auto.
Qed.

(** ** What the rest of the restart keeps *)

Definition in_record (t : Data_Type) (k : nat) : Prop :=
  is_Some (codec_of t) ∧ (chained t = true ∨ k = 0%nat).

Abbreviation record_items t e := (items m (p_raw e) (obj_fmt t m e)).

(** A region that holds no field of a restored object, but for [relinked] ones. *)
Definition spares (r : region) : Prop :=
  ∀ t p k e e', moved t p k e e' → in_record t k →
    ∀ it, it ∈ kept_items t (record_items t e) → disjoint_region r (shift (p_raw e') (item_region it)).

Definition heap_kept (M : mem) : Prop :=
  ∀ t p k e e', moved t p k e e' → in_record t k →
    Forall (item_rel base (root_info w2) m (p_raw e) M (p_raw e')) (kept_items t (record_items t e)).

Lemma spares_away r :
  (∀ t p k e e', moved t p k e e' → disjoint_region r (span p e')) → spares r.
Proof.
  intros Hr t p k e e' Hm [Hc Hk] it [_ Hit]%list_elem_of_filter.
  destruct (moved_elem _ _ _ _ _ Hm Hc Hk) as (_&Hw&_). rewrite Forall_forall in Hw.
  specialize (Hw it Hit). specialize (Hr _ _ _ _ _ Hm).
  unfold within, disjoint_region, shift, span in *. cbn [fst snd] in *. lia.
Qed.

Lemma spares_inside t p k e e' r :
  moved t p k e e' → in_record t k → p_raw e' <= r.1 → r.1 + r.2 <= p_raw e' + slot (pl_src p) (pl_dsize p) →
  (∀ it, it ∈ kept_items t (record_items t e) → disjoint_region r (shift (p_raw e') (item_region it))) →
  spares r.
Proof.
  intros Hm Hrec H1 H2 Hr t2 p2 k2 e2 e2' Hm2 [Hc Hk] it Hit.
  assert (p = p2 ∧ k = k2 ∨ (p ≠ p2 ∨ k ≠ k2)) as [[-> ->]|Hne].
  { destruct (place_eq_or p p2) as [->|?]; [apply Hm|apply Hm2| |by auto].
    destruct (decide (k = k2)); auto. }
  - destruct Hm as [_ <- Hs Hd], Hm2 as [_ <- Hs2 Hd2]. rewrite Hs in Hs2. rewrite Hd in Hd2.
    injection Hs2 as <-. injection Hd2 as <-. by apply Hr.
  - apply list_elem_of_filter in Hit as [_ Hit].
    destruct (moved_elem _ _ _ _ _ Hm2 Hc Hk) as (_&Hw&_). rewrite Forall_forall in Hw.
    specialize (Hw it Hit). pose proof (moved_disjoint _ _ _ _ _ _ _ _ _ _ Hm Hm2 Hne).
    unfold within, disjoint_region, shift, span in *. cbn [fst snd] in *. lia.
Qed.

Lemma spares_word t p k e e' r :
  moved t p k e e' → in_record t k → forallb (clear_of r t) (record_items t e) = true →
  0 <= r.1 → r.1 + r.2 <= slot (pl_src p) (pl_dsize p) → spares (shift (p_raw e') r).
Proof.
  intros Hm Hrec Hc H1 H2. eapply spares_inside; [exact Hm|exact Hrec|..]; try (unfold shift; cbn [fst snd]; lia).
  intros it Hit. by eapply disjoint_shift, clear_of_ok.
Qed.

Lemma spares_kept rs M : (∀ r, In r rs → spares r) → unchanged_outside rs (wmem w2) M → heap_kept M.
Proof.
  intros Hr Hu t p k e e' Hm [Hc Hk].
  destruct (moved_elem _ _ _ _ _ Hm Hc Hk) as (Hwf&_&Hrel&_).
  eapply items_preserved; [by apply done_ok_kept| |exact Hu|].
  - intros it r Hit Hin. by apply (Hr r Hin _ _ _ _ _ Hm), list_elem_of_In.
  - unfold kept_items. apply Forall_forall. intros it [_ Hit]%list_elem_of_filter.
    unfold obj_rel in Hrel. rewrite Forall_forall in Hrel. by apply Hrel.
Qed.

Lemma kept_item M t p k e e' n it :
  heap_kept M → moved t p k e e' → in_record t k → nth_error (record_items t e) n = Some it →
  item_region it ∉ relinked t → item_rel base (root_info w2) m (p_raw e) M (p_raw e') it.
Proof.
  intros HM Hm Hrec Hn%nth_error_In%list_elem_of_In Hit.
  specialize (HM _ _ _ _ _ Hm Hrec). rewrite Forall_forall in HM. apply HM.
  by apply list_elem_of_filter.
Qed.
End Moved.
#[global] Arguments moved : clear implicits.
#[global] Arguments spares : clear implicits.
#[global] Arguments heap_kept : clear implicits.
