(* ===== verification/Restart.v ===== *)
(** The second half of a restart over a restored heap: the frames are taken on
    the stack of the new execution environment and filled, the imports are linked
    again, and the registers are read. *)
From stdpp Require Import base gmap list numbers strings.
From Stdlib Require Import Strings.Byte ZArith Lia Sorting.Sorted.
From S2P Require Import Prelude CMemory WasmTypes PoolInfo Table ExecEnv Memory Dump Restore.
From S2P Require Import Format Codec Records Searches Heap Frames Checkpoint Extents TableImage.
From S2P Require Import FrameImage Migration Regs InterpState Moved.

(** * The running process *)

(** [i] is the one object of kind [t]. *)
Record the_object (w : world) (t : Data_Type) (i : Pool_Info) : Prop := {
  to_in : i ∈ objects (root_info w);
  to_type : type (head i) = t;
  to_one : ∀ j, j ∈ root_info w → type (head j) = t → j = i
}.

(** [a] is the address of element [k] of an object of kind [t]. *)
Definition elem_of_kind (w : world) (t : Data_Type) (k : nat) (a : Z) : Prop :=
  ∃ i e, i ∈ objects (root_info w) ∧ type (head i) = t ∧ elems i !! k = Some e ∧ p_raw e = a.

(** A function instance of the module with its function. *)
Record func_live (w : world) (func : Z) : Prop := {
  fl_inst : ∃ k, elem_of_kind w WASMFunctionInstanceT k func;
  fl_own : load_Z (wmem w) (FLD func WASMFunctionInstance "is_import_func") 1 = 0;
  fl_func : elem_of_kind w WASMFunctionT 0 (ldp (wmem w) (FLD func WASMFunctionInstance "u.func"))
}.

(** A frame with a function has its operand stack, its labels and its locals where
    the function says, in the bytes of the frame. *)
Record frame_live (w : world) (i : Pool_Info) : Prop := {
  fv_ok : frame_ok (wmem w) (p_raw i);
  fv_func : func_live w (frame_func (wmem w) i);
  fv_blocks : bb_num (wmem w) (p_raw i) <= block_num (wmem w) (frame_func (wmem w) i);
  fv_size : csp_boundary_of (wmem w) (frame_func (wmem w) i) (p_raw i) <= p_raw i + size i
}.

(** The imported functions of [md] are an array of imports of that kind. *)
Definition imports_live (w : world) (md : Pool_Info) : Prop :=
  let n := load_Z (wmem w) (FLD (p_raw md) WASMModule "import_function_count") 4 in
  n ≠ 0 → ∃ i k e, i ∈ objects (root_info w) ∧ type (head i) = WASMImportT
    ∧ elems i !! k = Some e ∧ p_raw e = ldp (wmem w) (FLD (p_raw md) WASMModule "import_functions")
    ∧ ∀ j, 0 <= j < n → ∃ e, elems i !! (k + Z.to_nat j)%nat = Some e
                             ∧ load_Z (wmem w) (FLD (p_raw e) WASMImport "kind") 1 = IMPORT_KIND_FUNC.

Definition wasm_stack_size (m : mem) (env : Z) : Z :=
  load_Z m (FLD env WASMExecEnv "wasm_stack_size") 4.

(** The stack of [env] holds [frames], outermost first. *)
Record stack_live (w : world) (env : Pool_Info) (frames : list Pool_Info) : Prop := {
  sl_env : the_object w WASMExecEnvT env;
  sl_frames : filter (fun i => is_frame i = true) (root_info w) ≡ₚ frames;
  sl_some : frames ≠ [];
  sl_stacked : stacked (stack_bottom (p_raw env)) frames;
  sl_size : wasm_stack_size (wmem w) (p_raw env) <= size env;
  sl_fits : fits_all (stack_bottom (p_raw env))
              (stack_bottom (p_raw env)
               + wasm_stack_size (wmem w) (p_raw env)) frames;
  sl_live : Forall (fun i => frame_func (wmem w) i ≠ NULL → frame_live w i) frames
}.

(** * Frame nodes *)

Lemma insert_frame_node x l :
  insert_frame (frame_node x) (map frame_node l) = map frame_node (insert_frame x l).
Proof.
  induction l as [|y l IH]; [done|]. cbn [map insert_frame frame_node head p_abs].
  case_match; [|done]. cbn [map]. by rewrite IH.
Qed.

Lemma insert_frame_nodes l : foldl (fun acc x => insert_frame x acc) [] (map frame_node l)
  = map frame_node (insert_frames l).
Proof.
  unfold insert_frames. change ([] : list Pool_Info) with (map frame_node []) at 1.
  generalize ([] : list Pool_Info). induction l as [|x l IH]; intros acc; [done|].
  cbn [map foldl]. by rewrite insert_frame_node, IH.
Qed.

(** What the restart knows of a frame of the source is enough to place it. *)
Lemma place_nodes a l : Forall (fun i => chain i = []) l → ExecEnv.place a (map frame_node l) = ExecEnv.place a l.
Proof.
  intros H. revert a. induction H as [|i l Hi _ IH]; intros a; [done|].
  cbn [map ExecEnv.place frame_node head chain p_abs size type]. by rewrite Hi, IH.
Qed.

Lemma place_chains a l : Forall (fun i => chain i = []) l → Forall (fun i => chain i = []) (ExecEnv.place a l).
Proof. intros H. revert a. by induction H as [|i l Hi _ IH]; intros a; constructor. Qed.

Lemma fits_all_nodes a b l : fits_all a b (map frame_node l) ↔ fits_all a b l.
Proof. revert a. induction l as [|i l IH]; intros a; [done|]. cbn [map fits_all]. by rewrite IH. Qed.

Lemma total_nodes l : total (map frame_node l) = total l.
Proof. induction l as [|i l IH]; [done|]. unfold total in *. simpl. by rewrite IH. Qed.

Lemma fits_all_shift d a b l : fits_all a b l → fits_all (a + d) (b + d) l.
Proof.
  revert a. induction l as [|i l IH]; intros a; [done|]. cbn [fits_all]. intros (?&?&H).
  split_and!; [lia..|]. replace (a + d + size i) with (a + size i + d) by lia. by apply IH.
Qed.

Lemma fits_all_total a b l : fits_all a b l → l ≠ [] → a + total l <= b.
Proof.
  revert a. induction l as [|i [|j l] IH]; intros a H Hne; [done|..]; destruct H as (?&?&H).
  - unfold total. simpl. lia.
  - specialize (IH _ H ltac:(done)). unfold total in *. cbn [foldr] in *. lia.
Qed.

Lemma fits_all_sizes a b l : fits_all a b l → Forall (fun i => OFS WASMInterpFrame "lp" <= size (head i)) l.
Proof.
  revert a. induction l as [|i l IH]; intros a H; [constructor|]. destruct H as (?&?&H).
  constructor; [lia|by eapply IH].
Qed.

(** The frames of a stack do not overlap and fill it without gaps. *)
Lemma stacked_spans a l : stacked a l → Forall (fun i => 0 < size (head i)) l →
  ForallOrdPairs (fun i j => p_raw (head i) + size (head i) <= p_raw (head j)) l
  ∧ Forall (fun i => a <= p_raw (head i) ∧ p_raw (head i) + size (head i) <= a + total l) l.
Proof.
  induction 1 as [a|a i l <- _ IH]; intros Hz; [by split; constructor|].
  apply Forall_cons in Hz as [Hi Hz]. destruct (IH Hz) as [H1 H2].
  assert (0 <= total l) by (clear -Hz; induction Hz; simpl; lia).
  assert (total (i :: l) = size i + total l) as -> by done. rewrite Forall_forall in H2. split.
  - constructor; [|done]. apply Forall_forall. intros j Hj. specialize (H2 j Hj). simpl in H2. lia.
  - constructor; [lia|]. apply Forall_forall. intros j Hj. specialize (H2 j Hj). simpl in H2. lia.
Qed.

(** * Over the restored heap *)

Section Restart.
Context {w w' w2 : world} {ps : list place} `{RH : !RestoredHeap w w' ps w2}.

Abbreviation base := (pool_allocator w).
Abbreviation m := (wmem w).
Abbreviation m2 := (wmem w2).

Lemma the_object_moved t i : the_object w t i → is_Some (codec_of t) →
  ∃ p e', moved ps t p 0 (head i) e' ∧ pl_src p = i ∧ pl_addr p = p_raw e'
    ∧ ∀ a, static_at t w ps a → a = p_raw e'.
Proof.
  intros [Hin Ht Hone] Hc.
  destruct (moved_of i 0 (head i) Hin eq_refl) as (p&e'&Hm&Hp).
  rewrite Ht in Hm. pose proof (rebuild_lookup _ _ _ _ _ (mv_dst _ _ _ _ _ Hm)) as Hr.
  exists p, e'. split_and!; [done|done|lia|]. intros a Ha.
  assert (i ∈ root_info w) as Hi by (by do 2 apply list_elem_of_filter in Hin as [_ Hin]).
  destruct (Ha i Hi Ht) as (q&Hq&Eq&<-); [intros; by apply Hone|].
  assert (moved ps t q 0 (head i) (head (pl_dst q))) as Hmq.
  { constructor; [done|by rewrite Eq|by rewrite Eq|done]. }
  pose proof (moved_reloc _ _ _ _ _ Hm) as R1.
  pose proof (moved_reloc _ _ _ _ _ Hmq) as R2.
  rewrite R1 in R2. injection R2 as ->. done.
Qed.

(** ** Functions *)

Lemma elem_moved t k a : elem_of_kind w t k a → ∃ p e e', moved ps t p k e e' ∧ p_raw e = a.
Proof.
  intros (i&e&Hi&<-&He&<-). destruct (moved_of i k e Hi He) as (p&e'&Hm&_). by exists p, e, e'.
Qed.

(** What the restored heap has for a function of the module. *)
Record func_moved (func : Z) (p : place) (e' : Pool_Elem) (q : place) (g' : Pool_Elem) : Prop := {
  fm_inst : ∃ k e, moved ps WASMFunctionInstanceT p k e e';
  fm_func : ∃ g, moved ps WASMFunctionT q 0 g g';
  fm_reloc : reloc base (root_info w2) func = Some (p_raw e');
  fm_own : load_Z m2 (FLD (p_raw e') WASMFunctionInstance "is_import_func") 1 = 0;
  fm_code : ldp m2 (FLD (p_raw e') WASMFunctionInstance "u.func") = p_raw g';
  fm_param : param_cells m2 (p_raw e') = param_cells m func;
  fm_local : local_cells m2 (p_raw e') = local_cells m func;
  fm_stack : stack_cells m2 (p_raw e') = stack_cells m func;
  fm_blocks : block_num m2 (p_raw e') = block_num m func;
  fm_inst_size : SIZEOF WASMFunctionInstance <= (span p e').2;
  fm_func_size : SIZEOF WASMFunction <= (span q g').2
}.

Lemma load_Z_item off n it e e' :
  item_rel base (root_info w2) m (p_raw e) m2 (p_raw e') it → it = IFld off n 1 → 0 <= n →
  load_Z m2 (p_raw e' + off) n = load_Z m (p_raw e + off) n.
Proof.
  intros Hr -> Hn. cbn [item_rel] in Hr. rewrite Z.mul_1_r in Hr. exact (f_equal le_Z Hr).
Qed.

Lemma func_live_moved func : func_live w func → ∃ p e' q g', func_moved func p e' q g'.
Proof.
  intros [[k Hi] Hown Hf].
  destruct (elem_moved _ _ _ Hi) as (p&e&e'&Hm&<-), (elem_moved _ _ _ Hf) as (q&g&g'&Hq&Hg).
  exists p, e', q, g'.
  assert (∀ n it, nth_error (items m (p_raw e) (obj_fmt WASMFunctionInstanceT m e)) n = Some it →
    item_rel base (root_info w2) m (p_raw e) m2 (p_raw e') it) as Hit1.
  { intros n it Hn. eapply moved_item; [exact Hm|by eexists|by left|exact Hn]. }
  assert (∀ n it, nth_error (items m (p_raw g) (obj_fmt WASMFunctionT m g)) n = Some it →
    item_rel base (root_info w2) m (p_raw g) m2 (p_raw g') it) as Hit2.
  { intros n it Hn. eapply moved_item; [exact Hq|by eexists|by right|exact Hn]. }
  assert (items m (p_raw e) (obj_fmt WASMFunctionInstanceT m e)
    = items m (p_raw e) (fseq
        [F WASMFunctionInstance "is_import_func" 1 1; F WASMFunctionInstance "param_count" 2 1;
         F WASMFunctionInstance "local_count" 2 1; F WASMFunctionInstance "param_cell_num" 2 1;
         F WASMFunctionInstance "ret_cell_num" 2 1; F WASMFunctionInstance "local_cell_num" 2 1]
        (fmt_func_data 0))) as E.
  { change (obj_fmt WASMFunctionInstanceT m e) with fmt_WASMFunctionInstance.
    cbn [items fseq foldr fmt_WASMFunctionInstance]. by rewrite Hown. }
  rewrite E in Hit1. clear E.
  assert (ldp m2 (FLD (p_raw e') WASMFunctionInstance "u.func") = p_raw g') as Eu.
  { destruct (Hit1 6%nat _ eq_refl) as (x&Hx&Ex). rewrite <- Hg in Hx.
    rewrite (moved_reloc _ _ _ _ _ Hq) in Hx. injection Hx as <-. rewrite Ex.
    destruct (moved_span _ _ _ _ _ Hq) as (?&?&?&?&?&?). apply wrap_small. lia. }
  destruct (object_of_place p (mv_place _ _ _ _ _ Hm)) as [_ Hok1].
  destruct (object_of_place q (mv_place _ _ _ _ _ Hq)) as [_ Hok2].
  destruct (po_entry _ Hok1) as [Hd1 _ _ _ _ _], (po_entry _ Hok2) as [Hd2 _ _ _ Hcl2 _].
  assert (SIZEOF WASMFunctionInstance <= (span p e').2 ∧ SIZEOF WASMFunction <= (span q g').2) as [].
  { unfold span, slot, request. rewrite (mv_type _ _ _ _ _ Hm) in *. rewrite (mv_type _ _ _ _ _ Hq) in *.
    change (data_size WASMFunctionInstanceT) with (Some (SIZEOF WASMFunctionInstance)) in Hd1.
    change (data_size WASMFunctionT) with (Some (SIZEOF WASMFunction)) in Hd2.
    injection Hd1 as <-. injection Hd2 as <-. cbn [class_of snd] in *. lia. }
  constructor; [by exists k, e|by exists g|by eapply moved_reloc|..]; try done; try lia.
  - etransitivity; [|exact Hown]. by apply (load_Z_item _ 1 _ _ _ (Hit1 0%nat _ eq_refl)).
  - by apply (load_Z_item _ 2 _ _ _ (Hit1 3%nat _ eq_refl)).
  - by apply (load_Z_item _ 2 _ _ _ (Hit1 5%nat _ eq_refl)).
  - unfold stack_cells. rewrite Eu, <- Hg. by apply (load_Z_item _ 4 _ _ _ (Hit2 7%nat _ eq_refl)).
  - unfold block_num. rewrite Eu, <- Hg. by apply (load_Z_item _ 4 _ _ _ (Hit2 8%nat _ eq_refl)).
Qed.

(** ** Regions *)

(** A region of an object of kind [t] of the restored heap. *)
Definition inside_kind (t : Data_Type) (r : region) : Prop :=
  ∃ p k e e', moved ps t p k e e' ∧ (span p e').1 <= r.1 ∧ r.1 + r.2 <= (span p e').1 + (span p e').2.

(** A region that neither the frames nor their functions use. *)
Definition elsewhere (r : region) : Prop :=
  inside_kind WASMModuleInstanceT r ∨ inside_kind WASMImportT r
  ∨ ∀ t p k e e', moved ps t p k e e' → disjoint_region r (span p e').

Lemma elsewhere_apart r t p k e e' :
  elsewhere r → moved ps t p k e e' → t ≠ WASMModuleInstanceT → t ≠ WASMImportT →
  disjoint_region r (span p e').
Proof.
  intros Hr Hm H1 H2.
  assert (∀ t', t ≠ t' → inside_kind t' r → disjoint_region r (span p e')) as Hin.
  { intros t' Ht (q&k2&x&x'&Hq&L&U).
    assert (disjoint_region (span q x') (span p e')) as Hd.
    { eapply moved_disjoint; [exact Hq|exact Hm|]. left. intros ->.
      apply Ht. by rewrite <- (mv_type _ _ _ _ _ Hm), (mv_type _ _ _ _ _ Hq). }
    unfold disjoint_region in *. lia. }
  destruct Hr as [Hr|[Hr|Hr]]; [by apply (Hin _ H1 Hr)|by apply (Hin _ H2 Hr)|by eapply Hr].
Qed.

Lemma elsewhere_func_apart r func p e' q g' :
  elsewhere r → func_moved func p e' q g' → func_apart r m2 (p_raw e').
Proof.
  intros Hr Hf. destruct (fm_inst _ _ _ _ _ Hf) as (k&e&Hi), (fm_func _ _ _ _ _ Hf) as (g&Hg).
  pose proof (elsewhere_apart _ _ _ _ _ _ Hr Hi ltac:(done) ltac:(done)) as D1.
  pose proof (elsewhere_apart _ _ _ _ _ _ Hr Hg ltac:(done) ltac:(done)) as D2.
  pose proof (fm_inst_size _ _ _ _ _ Hf). pose proof (fm_func_size _ _ _ _ _ Hf).
  unfold func_apart. rewrite (fm_code _ _ _ _ _ Hf).
  unfold disjoint_region, span in *. cbn [fst snd] in *. lia.
Qed.

(** ** The stack of the new execution environment *)

Section Stack.
Context (env : Pool_Info) (frames : list Pool_Info) (Hstack : stack_live w env frames).
Context (p : place) (env' : Pool_Elem) (Hm : moved ps WASMExecEnvT p 0 (head env) env').
Context (Hp : pl_src p = env).

Abbreviation stack_size := (wasm_stack_size m (p_raw env)).
Abbreviation bottom := (stack_bottom (p_raw env)).
Abbreviation bottom' := (stack_bottom (p_raw env')).

Lemma env_slot : slot (pl_src p) (pl_dsize p) = OFS WASMExecEnv "wasm_stack.s.bottom" + size env.
Proof.
  destruct (object_of_place p (mv_place _ _ _ _ _ Hm)) as [_ Hok].
  pose proof (eo_size _ _ (po_entry _ Hok)) as Hd. unfold slot, request.
  rewrite (mv_type _ _ _ _ _ Hm) in Hd |- *. rewrite Hp. cbn [class_of data_size] in *.
  by injection Hd as <-.
Qed.

Lemma env_stack_ready :
  stack_ok m2 (p_raw env') ∧ stack_top m2 (p_raw env') = bottom'
  ∧ stack_boundary m2 (p_raw env') = bottom' + stack_size
  ∧ bottom' + stack_size <= (span p env').1 + (span p env').2 < 2 ^ 64 ∧ 0 < p_raw env'.
Proof.
  destruct (moved_span _ _ _ _ _ Hm) as (_&_&H0&Hlo&Hhi&Hmax).
  unfold span. cbn [fst snd]. rewrite env_slot in *.
  assert (∀ n it, nth_error (items m (p_raw (head env)) (obj_fmt WASMExecEnvT m (head env))) n = Some it →
    item_rel base (root_info w2) m (p_raw (head env)) m2 (p_raw env') it) as Hit.
  { intros n it Hn. eapply moved_item; [exact Hm|by eexists|by right|exact Hn]. }
  pose proof (sl_size _ _ _ Hstack).
  pose proof (Hit 132%nat _ eq_refl) as Hsize.
  pose proof (Hit 133%nat _ eq_refl) as Htop.
  pose proof (Hit 134%nat _ eq_refl) as Hbound.
  cbn [item_rel ld_deps map fst snd] in Hsize, Htop, Hbound.
  assert (load_Z m2 (FLD (p_raw env') WASMExecEnv "wasm_stack_size") 4 = stack_size) as Es
    by exact (f_equal le_Z Hsize).
  rewrite Es in Hbound. unfold stack_bottom in *. clear Hit Hsize Es.
  assert (0 <= stack_size) by (by apply load_Z_nonneg).
  change (ldp m2 (FLD (p_raw env') WASMExecEnv "wasm_stack.s.top")) with (stack_top m2 (p_raw env')) in Htop.
  change (ldp m2 (FLD (p_raw env') WASMExecEnv "wasm_stack.s.top_boundary"))
    with (stack_boundary m2 (p_raw env')) in Hbound.
  rewrite Htop, Hbound. unfold uint64. rewrite !wrap_small by lia.
  split_and!; try lia. constructor; rewrite ?Htop, ?Hbound; unfold uint64, stack_bottom; rewrite ?wrap_small; lia.
Qed.

Lemma frames_known :
  Forall (fun i => elem_at base (head i) ∧ near base (p_raw (head i))) frames
  ∧ Forall (fun i => 0 < size (head i)) frames ∧ Forall (fun i => chain i = []) frames.
Proof.
  pose proof (sl_frames _ _ _ Hstack) as Hperm. split_and!.
  - destruct (ho_table _ rh_heap) as [Ha Hn _]. rewrite Forall_forall in Ha, Hn.
    apply Forall_forall. intros i Hi. rewrite <- Hperm in Hi. apply list_elem_of_filter in Hi as [_ Hi].
    assert (head i ∈ all_elems (root_info w)) as He by (apply in_all_elems; exists i; split; [done|left]).
    auto.
  - eapply fits_all_positive, Hstack.
  - apply Forall_forall. intros i Hi. rewrite <- Hperm in Hi. apply list_elem_of_filter in Hi as [Hf Hi].
    pose proof (ho_entries _ rh_heap) as He. rewrite Forall_forall in He.
    destruct (He i) as [_ Hok]; [|by rewrite Hf in Hok; apply Hok].
    apply list_elem_of_filter. split; [|done]. by rewrite (is_frame_type _ Hf).
Qed.

Lemma restored_frames : root_frame w2 = map frame_node frames.
Proof.
  rewrite (cr_frame _ _ _ _ rh_restored), insert_frame_nodes. f_equal.
  destruct frames_known as (Hk&Hz&_).
  eapply insert_frames_stacked; [apply Hstack|exact Hk|exact Hz|].
  rewrite <- (sl_frames _ _ _ Hstack). rewrite list_filter_filter.
  erewrite list_filter_iff; [reflexivity|]. intros i. cbv beta.
  split; [tauto|]. intros Hf. split; [done|]. by rewrite (is_frame_type _ Hf).
Qed.

Definition placed : list Pool_Info := ExecEnv.place bottom' frames.

Lemma frames_taken :
  ∃ m3, alloc_frames (p_raw env') NULL (root_frame w2) w2 = Ok placed (set_mem m3 w2)
    ∧ stack_top m3 (p_raw env') = bottom' + total frames
    ∧ linked m3 NULL placed
    ∧ ldp m3 (FLD (p_raw env') WASMExecEnv "cur_frame") = last_frame NULL placed
    ∧ unchanged_outside (env_words (p_raw env') ++ link_words placed) m2 m3.
Proof.
  destruct env_stack_ready as (Hok&Ht&Hb&_&_). destruct frames_known as (_&_&Hc).
  pose proof (fits_all_shift (bottom' - bottom) _ _ _ (sl_fits _ _ _ Hstack)) as Hf.
  replace (bottom + (bottom' - bottom)) with bottom' in Hf by lia.
  replace (bottom + stack_size + (bottom' - bottom)) with (bottom' + stack_size) in Hf by lia.
  rewrite restored_frames.
  destruct (alloc_frames_ok (p_raw env') (map frame_node frames) NULL w2 Hok) as (m3&H1&H2&H3&H4&H5).
  { rewrite Ht, Hb. by apply fits_all_nodes. }
  rewrite Ht, place_nodes in * by done. rewrite total_nodes in H2.
  exists m3. split_and!; try done. apply H4. intros E%map_eq_nil. by apply Hstack.
Qed.

(** ** The frames filled *)

Definition frame_pairs : list frame_pair :=
  zip_with (fun i i' => mkPair i i' (default NULL (reloc base (root_info w2) (frame_func m i)))) frames placed.

Lemma placed_shift :
  Forall2 (fun i i' => p_raw (head i') - bottom' = p_raw (head i) - bottom
                       ∧ p_abs (head i') = p_abs (head i) ∧ size (head i') = size (head i)) frames placed.
Proof. apply place_shift, Hstack. Qed.

Lemma frame_pair_facts q : q ∈ frame_pairs →
  ∃ n, frames !! n = Some (fp_src q) ∧ placed !! n = Some (fp_dst q)
  ∧ p_raw (head (fp_dst q)) = p_raw (head (fp_src q)) - bottom + bottom'
  ∧ p_abs (head (fp_dst q)) = p_abs (head (fp_src q)) ∧ size (head (fp_dst q)) = size (head (fp_src q))
  ∧ fp_func q = default NULL (reloc base (root_info w2) (frame_func m (fp_src q))).
Proof.
  intros [n Hn]%list_elem_of_lookup. apply lookup_zip_with_Some in Hn as (i&i'&->&Hi&Hi'). cbn [fp_src fp_dst fp_func].
  destruct (Forall2_lookup_lr _ _ _ _ _ _ placed_shift Hi Hi') as (?&?&?).
  exists n. split_and!; try done. lia.
Qed.

(** The frames of the new stack follow each other. *)
Lemma placed_spans : ForallOrdPairs (fun i j => p_raw (head i) + size (head i) <= p_raw (head j)) placed
  ∧ Forall (fun i => OFS WASMInterpFrame "lp" <= size (head i)) placed.
Proof.
  destruct frames_known as (_&Hpos&_).
  destruct (stacked_spans _ _ (sl_stacked _ _ _ Hstack) Hpos) as [Hs _].
  pose proof (fits_all_sizes _ _ _ (sl_fits _ _ _ Hstack)) as Hz. rewrite Forall_lookup in Hz. split.
  - apply FOP_lookup. intros j k x y Hjk Hx Hy.
    destruct (Forall2_lookup_r _ _ _ _ _ placed_shift Hx) as (x0&Hx0&?&_&?).
    destruct (Forall2_lookup_r _ _ _ _ _ placed_shift Hy) as (y0&Hy0&?&_&?).
    pose proof (FOP_lookup_2 _ _ _ _ _ _ Hs Hjk Hx0 Hy0) as Ho. simpl in Ho. lia.
  - apply Forall_lookup. intros n x Hx.
    destruct (Forall2_lookup_r _ _ _ _ _ placed_shift Hx) as (x0&Hx0&_&_&E).
    specialize (Hz n _ Hx0). simpl in Hz. lia.
Qed.

(** Each frame keeps to its own bytes of the stack. *)
Lemma frame_pair_region q : q ∈ frame_pairs →
  p_raw (head (fp_dst q)) + 8 <= (fp_region m m2 q).1
  ∧ (fp_region m m2 q).1 + (fp_region m m2 q).2 <= p_raw (head (fp_dst q)) + size (head (fp_dst q)).
Proof.
  intros Hq. destruct (frame_pair_facts q Hq) as (n&Hi&_&Hr&_&Hz&Ef).
  pose proof (fits_all_sizes _ _ _ (sl_fits _ _ _ Hstack)) as Hs. rewrite Forall_lookup in Hs.
  specialize (Hs n _ Hi). simpl in Hs. rewrite Hz.
  unfold fp_region, frame_region. cbn [fst snd]. destruct (Z.eqb_spec (frame_func m (fp_src q)) NULL) as [E|E].
  - cbn [fst snd]. lia.
  - pose proof (sl_live _ _ _ Hstack) as Hl. rewrite Forall_lookup in Hl.
    destruct (Hl n _ Hi E) as [_ Hfl _ Hsz]. destruct (func_live_moved _ Hfl) as (pf&e'&qf&g'&Hf).
    rewrite Ef, (fm_reloc _ _ _ _ _ Hf). cbn [default from_option id].
    unfold frame_block, csp_boundary_of, sp_boundary_of, sp_bottom_of, block_addr in *. cbn [fst snd].
    rewrite (fm_param _ _ _ _ _ Hf), (fm_local _ _ _ _ _ Hf), (fm_stack _ _ _ _ _ Hf), (fm_blocks _ _ _ _ _ Hf).
    lia.
Qed.

(** The bytes of the new stack. *)
Definition in_stack (r : region) : Prop := bottom' <= r.1 ∧ r.1 + r.2 <= bottom' + stack_size.

Lemma frame_pair_in_stack q : q ∈ frame_pairs →
  bottom' <= p_raw (head (fp_dst q))
  ∧ p_raw (head (fp_dst q)) + size (head (fp_dst q)) <= bottom' + total frames
  ∧ total frames <= stack_size.
Proof.
  intros Hq. destruct (frame_pair_facts q Hq) as (n&Hi&_&Hr&_&Hz&_).
  destruct frames_known as (_&Hpos&_).
  destruct (stacked_spans _ _ (sl_stacked _ _ _ Hstack) Hpos) as [_ Hs]. rewrite Forall_lookup in Hs.
  specialize (Hs n _ Hi). simpl in Hs.
  pose proof (fits_all_total _ _ _ (sl_fits _ _ _ Hstack) (sl_some _ _ _ Hstack)). lia.
Qed.

Lemma stack_in_span r : in_stack r → (span p env').1 <= r.1 ∧ r.1 + r.2 <= (span p env').1 + (span p env').2.
Proof.
  destruct env_stack_ready as (_&_&_&?&?). unfold in_stack, stack_bottom, span in *. cbn [fst snd] in *. lia.
Qed.

(** The objects of the heap that are not the execution environment lie elsewhere. *)
Lemma env_span_apart t q k e e' : moved ps t q k e e' → t ≠ WASMExecEnvT →
  disjoint_region (span p env') (span q e').
Proof.
  intros Hq Ht. eapply moved_disjoint; [exact Hm|exact Hq|]. left. intros E.
  pose proof (mv_type _ _ _ _ _ Hm). pose proof (mv_type _ _ _ _ _ Hq). congruence.
Qed.

Lemma env_func_apart func q e' qf g' r : func_moved func q e' qf g' →
  (span p env').1 <= r.1 → r.1 + r.2 <= (span p env').1 + (span p env').2 → func_apart r m2 (p_raw e').
Proof.
  intros Hf H1 H2. destruct (fm_inst _ _ _ _ _ Hf) as (k&e&Hi), (fm_func _ _ _ _ _ Hf) as (g&Hg).
  pose proof (env_span_apart _ _ _ _ _ Hi ltac:(done)) as D1.
  pose proof (env_span_apart _ _ _ _ _ Hg ltac:(done)) as D2.
  pose proof (fm_inst_size _ _ _ _ _ Hf). pose proof (fm_func_size _ _ _ _ _ Hf).
  unfold func_apart. rewrite (fm_code _ _ _ _ _ Hf).
  unfold disjoint_region, span in *. cbn [fst snd] in *. lia.
Qed.

Lemma frame_pairs_src : map fp_src frame_pairs = frames.
Proof.
  unfold frame_pairs. pose proof (Forall2_length _ _ _ placed_shift) as Hl. revert Hl.
  generalize placed as l', frames as l. intros l' l. revert l'.
  induction l as [|i l IH]; intros [|i' l'] Hl; simpl in *; try done. f_equal. apply IH. lia.
Qed.

Lemma placed_NoDup : NoDup ((fun i => p_abs (head i)) <$> placed).
Proof.
  destruct frames_known as (Hk&Hpos&_).
  assert (((fun i => p_abs (head i)) <$> placed) = ((fun i => p_abs (head i)) <$> frames)) as ->.
  { pose proof placed_shift as H. revert H. generalize placed as l', frames as l. intros l' l H.
    induction H as [|i i' l l' (_&E&_) _ IH]; [done|]. rewrite !fmap_cons. by f_equal. }
  eapply stacked_NoDup_abs; [apply Hstack|exact Hk|exact Hpos].
Qed.

Lemma frame_pairs_ready : Forall (pair_ready m base (set_root_frame placed w2)) frame_pairs.
Proof.
  apply Forall_forall. intros q Hq. destruct (frame_pair_facts q Hq) as (n&Hi&Hi'&Hr&Ha&Hz&Ef).
  destruct (frame_pair_in_stack q Hq) as (L1&L2&L3). destruct (frame_pair_region q Hq) as [R1 R2].
  destruct env_stack_ready as (_&_&_&B&B0). unfold stack_bottom in *.
  destruct frames_known as (Hk&Hpos&_). rewrite Forall_lookup in Hpos. pose proof (Hpos n _ Hi) as Hp0. simpl in Hp0.
  assert (fp_src q ∈ root_info w) as Hin.
  { assert (fp_src q ∈ frames) as Hf by (by eapply list_elem_of_lookup_2).
    rewrite <- (sl_frames _ _ _ Hstack) in Hf. by apply list_elem_of_filter in Hf as [_ ?]. }
  assert (head (fp_src q) ∈ all_elems (root_info w)) as He
    by (apply in_all_elems; exists (fp_src q); split; [done|left]).
  destruct (known_offset _ He) as (_&_&_&Hab).
  constructor; [done|done| |lia|].
  - cbn [root_frame set_root_frame]. rewrite <- Ha.
    apply (find_NoDup (fun i => p_abs (head i))); [exact placed_NoDup|by eapply list_elem_of_lookup_2].
  - intros E. pose proof (sl_live _ _ _ Hstack) as Hl. rewrite Forall_lookup in Hl.
    destruct (Hl n _ Hi E) as [Hok Hfl Hbb _]. split; [|done].
    destruct (func_live_moved _ Hfl) as (pf&e'&qf&g'&Hf). rewrite Ef, (fm_reloc _ _ _ _ _ Hf).
    assert (fp_region m m2 q = frame_block m2 (p_raw e') (p_raw (head (fp_dst q)))) as Er.
    { unfold fp_region, frame_region. cbn [fst snd]. rewrite (proj2 (Z.eqb_neq _ _)) by done.
      by rewrite Ef, (fm_reloc _ _ _ _ _ Hf). }
    rewrite Er in R1, R2. unfold frame_block in R1, R2. cbn [fst snd] in R1, R2.
    destruct (fm_inst _ _ _ _ _ Hf) as (k&e&Hi1). pose proof (fm_inst_size _ _ _ _ _ Hf) as Hsz.
    destruct (moved_span _ _ _ _ _ Hi1) as (_&_&?&?&?&?). unfold span in Hsz. cbn [snd] in Hsz.
    constructor; cbn [default from_option id wmem set_root_frame root_info]; try apply Hf; try done; try lia.
    + by rewrite (fm_blocks _ _ _ _ _ Hf).
    + rewrite <- Er. eapply env_func_apart; [exact Hf|..]; rewrite Er; unfold frame_block, span in *; cbn [fst snd] in *; lia.
Qed.

Lemma frame_pairs_apart : frames_apart m m2 frame_pairs.
Proof.
  constructor.
  - apply FOP_lookup. intros j k p1 p2 Hjk H1 H2.
    destruct (frame_pair_region p1) as [_ R1]; [by eapply list_elem_of_lookup_2|].
    destruct (frame_pair_region p2) as [R2 _]; [by eapply list_elem_of_lookup_2|].
    apply lookup_zip_with_Some in H1 as (i1&i1'&->&_&Hi1), H2 as (i2&i2'&->&_&Hi2).
    pose proof (FOP_lookup_2 _ _ _ _ _ _ (proj1 placed_spans) Hjk Hi1 Hi2) as Ho.
    unfold disjoint_region. cbn [fp_src fp_dst] in *. simpl in Ho. lia.
  - intros p1 p2 H1 H2 E.
    destruct (frame_pair_facts p2 H2) as (n&Hi&_&_&_&_&Ef).
    pose proof (sl_live _ _ _ Hstack) as Hl. rewrite Forall_lookup in Hl.
    destruct (Hl n _ Hi E) as [_ Hfl _ _]. destruct (func_live_moved _ Hfl) as (pf&e'&qf&g'&Hf).
    rewrite Ef, (fm_reloc _ _ _ _ _ Hf). cbn [default from_option id].
    destruct (frame_pair_region p1 H1) as [R1 R2]. destruct (frame_pair_in_stack p1 H1) as (L1&L2&L3).
    destruct (stack_in_span (fp_region m m2 p1)); [split; lia|]. by eapply env_func_apart.
Qed.

Definition stack_words : list region := env_words (p_raw env') ++ link_words placed.

Lemma link_word_in_stack r : In r (link_words placed) → in_stack r.
Proof.
  intros (i'&<-&Hi'%list_elem_of_In)%in_map_iff. unfold in_stack. cbn [fst snd].
  apply list_elem_of_lookup in Hi' as [n Hn].
  destruct (Forall2_lookup_r _ _ _ _ _ placed_shift Hn) as (i&Hi&_&_&Hz1).
  destruct (frame_pair_in_stack (mkPair i i' (default NULL (reloc base (root_info w2) (frame_func m i))))) as (L1&L2&L3).
  { apply list_elem_of_lookup. exists n. by apply lookup_zip_with_Some; eauto. }
  pose proof (fits_all_sizes _ _ _ (sl_fits _ _ _ Hstack)) as Hs. rewrite Forall_lookup in Hs.
  specialize (Hs n _ Hi). cbn [fp_dst] in *. simpl in Hs. lia.
Qed.

Lemma stack_words_in r : In r stack_words →
  (span p env').1 <= r.1 ∧ r.1 + r.2 <= (span p env').1 + (span p env').2.
Proof.
  intros [Hr|Hr]%in_app_iff; [|by apply stack_in_span, link_word_in_stack].
  destruct env_stack_ready as (_&_&_&B&_).
  pose proof (load_Z_nonneg m (FLD (p_raw env) WASMExecEnv "wasm_stack_size") 4 ltac:(lia)).
  unfold span, stack_bottom, wasm_stack_size in *. cbn [fst snd] in *.
  destruct Hr as [<-|[<-|[]]]; cbn [fst snd]; lia.
Qed.

Lemma env_same_func M rs func q e' qf g' : func_moved func q e' qf g' →
  unchanged_outside rs m2 M →
  (∀ r, In r rs → (span p env').1 <= r.1 ∧ r.1 + r.2 <= (span p env').1 + (span p env').2) →
  same_func m2 M (p_raw e').
Proof.
  intros Hf Hu Hr. eapply func_view_stables; [|exact Hu]. intros r Hin.
  destruct (Hr r Hin). by eapply env_func_apart.
Qed.

Lemma frame_pair_func q : q ∈ frame_pairs → frame_func m (fp_src q) ≠ NULL →
  ∃ pf e' qf g', func_moved (frame_func m (fp_src q)) pf e' qf g' ∧ fp_func q = p_raw e'.
Proof.
  intros Hq E. destruct (frame_pair_facts q Hq) as (n&Hi&_&_&_&_&Ef).
  pose proof (sl_live _ _ _ Hstack) as Hl. rewrite Forall_lookup in Hl.
  destruct (Hl n _ Hi E) as [_ Hfl _ _]. destruct (func_live_moved _ Hfl) as (pf&e'&qf&g'&Hf).
  exists pf, e', qf, g'. split; [done|]. by rewrite Ef, (fm_reloc _ _ _ _ _ Hf).
Qed.

Lemma frames_filled m3 :
  unchanged_outside stack_words m2 m3 →
  w_gp w2 = FRead (frames_image m base (filter (fun i => is_frame i = true) (root_info w))) →
  let bytes := frames_image m base (filter (fun i => is_frame i = true) (root_info w)) in
  let w3 := set_root_frame placed (set_mem m3 w2) in
  ∃ m4, restore_frame_loop (S (length bytes)) w3 = Ok tt (set_mem m4 (set_gp (FRead []) w3))
    ∧ Forall (pair_done m m4) frame_pairs
    ∧ unchanged_outside (map (fp_region m m2) frame_pairs) m3 m4.
Proof.
  intros Hu Hg bytes w3.
  destruct (Permutation_map_inv fp_src frame_pairs (l1 := filter (fun i => is_frame i = true) (root_info w)))
    as (qs&Hqs&Hperm).
  { by rewrite frame_pairs_src, (sl_frames _ _ _ Hstack). }
  assert (∀ q, q ∈ frame_pairs → frame_func m (fp_src q) ≠ NULL → same_func m2 m3 (fp_func q)) as Hsf.
  { intros q Hq E. destruct (frame_pair_func q Hq E) as (pf&e'&qf&g'&Hf&->).
    eapply env_same_func; [exact Hf|exact Hu|exact stack_words_in]. }
  assert (∀ q, q ∈ frame_pairs → fp_region m m3 q = fp_region m m2 q) as Hreg
    by (intros q Hq; apply fp_region_stable; by apply Hsf).
  destruct (restore_frame_loop_ok m base qs (S (length bytes)) w3) as (m4&Hr&Hd&Hu4).
  - pose proof (length_frames_image m base (filter (fun i => is_frame i = true) (root_info w))) as Hl.
    rewrite Hqs, length_map in Hl. fold bytes in Hl. rewrite <- Hqs in Hl. fold bytes in Hl. lia.
  - rewrite <- Hqs. exact Hg.
  - rewrite <- Hperm. pose proof frame_pairs_ready as Hrd. rewrite Forall_forall in Hrd |- *.
    intros q Hq. change w3 with (set_mem m3 (set_gp (w_gp w2) (set_root_frame placed w2))).
    apply pair_ready_stable; [by apply Hsf|by apply Hrd].
  - eapply frames_apart_perm; [exact Hperm|]. eapply frames_apart_stable; [exact Hsf|exact frame_pairs_apart].
  - exists m4. split_and!; [exact Hr|by rewrite Hperm|].
    eapply unchanged_incl; [|exact Hu4]. intros r (q&<-&Hq%list_elem_of_In)%in_map_iff.
    rewrite <- Hperm in Hq. change (wmem w3) with m3. rewrite Hreg by done.
    apply in_map_iff. exists q. split; [done|]. by apply list_elem_of_In.
Qed.

(** ** Nothing else is touched *)

Lemma env_spares r : In r (stack_words ++ map (fp_region m m2) frame_pairs) → spares w ps r.
Proof.
  assert (in_record WASMExecEnvT 0) as Hrec by (split; [by eexists|by right]).
  destruct env_stack_ready as (_&_&_&B&_). unfold stack_bottom in B.
  pose proof (load_Z_nonneg m (FLD (p_raw env) WASMExecEnv "wasm_stack_size") 4 ltac:(lia)) as Hnn.
  unfold span, wasm_stack_size in *. cbn [fst snd] in B.
  assert (∀ o, o = OFS WASMExecEnv "wasm_stack.s.top" ∨ o = OFS WASMExecEnv "cur_frame" →
    spares w ps (p_raw env' + o, 8)) as Hword.
  { intros o Ho. apply (spares_word _ _ _ _ _ (o, 8) Hm Hrec); destruct Ho as [-> | ->];
      first [reflexivity | cbn [fst snd]; lia]. }
  assert (∀ r, bottom' <= r.1 → r.1 + r.2 <= bottom' + wasm_stack_size m (p_raw env) →
    spares w ps r) as Hstk.
  { intros r' H1 H2. unfold stack_bottom, wasm_stack_size in *.
    eapply spares_inside; [exact Hm|exact Hrec|lia|lia|].
    intros it [_ Hit]%list_elem_of_filter.
    pose proof (within_exec_env m (p_raw (head env)) (exec_env_codes m (head env)) _ (Z.le_refl _)) as Hw.
    rewrite Forall_forall in Hw. specialize (Hw it Hit).
    unfold within, disjoint_region, shift in *. cbn [fst snd]. lia. }
  intros [[[<-|[<-|[]]]|Hr]%in_app_iff|Hr]%in_app_iff; [apply Hword; auto..| |].
  - destruct (link_word_in_stack r Hr). by apply Hstk.
  - apply in_map_iff in Hr as (q&<-&Hq%list_elem_of_In).
    destruct (frame_pair_region q Hq) as [R1 R2]. destruct (frame_pair_in_stack q Hq) as (L1&L2&L3).
    apply Hstk; lia.
Qed.
Lemma stack_region_in r : In r (stack_words ++ map (fp_region m m2) frame_pairs) →
  (span p env').1 <= r.1 ∧ r.1 + r.2 <= (span p env').1 + (span p env').2.
Proof.
  intros [Hr|Hr]%in_app_iff; [by apply stack_words_in|].
  apply in_map_iff in Hr as (q&<-&Hq%list_elem_of_In).
  destruct (frame_pair_region q Hq) as [R1 R2]. destruct (frame_pair_in_stack q Hq) as (L1&L2&L3).
  apply stack_in_span. split; lia.
Qed.

(** The stack of the restarted process: the frames filled, linked and current. *)
Record frames_moved (M : mem) : Prop := {
  fmv_done : Forall (pair_done m M) frame_pairs;
  fmv_linked : linked M NULL placed;
  fmv_top : stack_top M (p_raw env') = bottom' + total frames;
  fmv_cur : ldp M (FLD (p_raw env') WASMExecEnv "cur_frame") = last_frame NULL placed
}.

Lemma frames_links_apart r s :
  In r (map (fp_region m m2) frame_pairs) → In s (link_words placed) → disjoint_region r s.
Proof.
  intros (q&<-&Hq%list_elem_of_In)%in_map_iff (i'&<-&Hi'%list_elem_of_In)%in_map_iff.
  destruct (frame_pair_region q Hq) as [R1 R2].
  destruct (frame_pair_facts q Hq) as (n&_&Hn&_).
  apply list_elem_of_lookup in Hi' as [k Hk].
  destruct placed_spans as [Hs Hz]. rewrite Forall_lookup in Hz.
  pose proof (Hz k _ Hk) as Hzk. unfold disjoint_region. cbn [fst snd] in *. simpl in Hzk.
  destruct (Nat.lt_trichotomy n k) as [Hlt|[->|Hlt]].
  - pose proof (FOP_lookup_2 _ _ _ _ _ _ Hs Hlt Hn Hk) as Ho. simpl in Ho. lia.
  - rewrite Hn in Hk. injection Hk as <-. lia.
  - pose proof (FOP_lookup_2 _ _ _ _ _ _ Hs Hlt Hk Hn) as Ho. simpl in Ho. lia.
Qed.

(** The words of the environment are before its frames. *)
Lemma frames_words_apart r s :
  In r (map (fp_region m m2) frame_pairs) → In s (env_words (p_raw env')) → disjoint_region r s.
Proof.
  intros (q&<-&Hq%list_elem_of_In)%in_map_iff Hs.
  destruct (frame_pair_region q Hq) as [R1 R2].
  destruct (frame_pair_in_stack q Hq) as (L1&_).
  unfold stack_bottom, disjoint_region in *. destruct Hs as [<-|[<-|[]]]; cbn [fst snd]; lia.
Qed.

(** What is written elsewhere, after the frames are filled, keeps them. *)
Lemma frames_moved_kept m3 m4 M rs :
  unchanged_outside stack_words m2 m3 →
  stack_top m3 (p_raw env') = bottom' + total frames →
  linked m3 NULL placed →
  ldp m3 (FLD (p_raw env') WASMExecEnv "cur_frame") = last_frame NULL placed →
  unchanged_outside (map (fp_region m m2) frame_pairs) m3 m4 →
  Forall (pair_done m m4) frame_pairs →
  unchanged_outside rs m4 M → (∀ r, In r rs → elsewhere r) →
  frames_moved M.
Proof.
  intros U3 Ht Hl Hc U4 Hd UM He.
  assert (∀ r, In r rs → disjoint_region r (span p env')) as Henv
    by (intros r Hr; eapply elsewhere_apart; [by apply He|exact Hm|done|done]).
  assert (∀ r s, In r rs → In s (env_words (p_raw env') ++ link_words placed) → disjoint_region r s) as Hw.
  { intros r s Hr Hs. specialize (Henv r Hr).
    destruct (stack_words_in s Hs). unfold disjoint_region in *. lia. }
  assert (∀ a, In (a, 8) (env_words (p_raw env')) → ldp M a = ldp m3 a) as Hword.
  { intros a Ha. transitivity (ldp m4 a); unfold ldp, load_Z; f_equal; eapply unchanged_load.
    - exact UM.
    - intros r Hr. apply (Hw r (a, 8)); [done|apply in_app_iff; by left].
    - exact U4.
    - intros r Hr. by apply (frames_words_apart r (a, 8)). }
  constructor.
  - assert (unchanged_outside (stack_words ++ map (fp_region m m2) frame_pairs) m2 m4) as U
      by (by eapply unchanged_trans).
    apply Forall_forall. intros q Hq. rewrite Forall_forall in Hd.
    assert (frame_func m (fp_src q) ≠ NULL → same_func m2 m4 (fp_func q)) as Hs.
    { intros E. destruct (frame_pair_func q Hq E) as (pf&e'&qf&g'&Hf&->).
      eapply env_same_func; [exact Hf|exact U|exact stack_region_in]. }
    eapply pair_done_preserved; [exact UM| | |by apply Hd].
    + intros r Hr. rewrite (fp_region_stable m m2) by done. specialize (Henv r Hr).
      destruct (stack_region_in (fp_region m m2 q)).
      { apply in_app_iff. right. apply in_map_iff. exists q. split; [done|]. by apply list_elem_of_In. }
      unfold disjoint_region in *. lia.
    + intros E. destruct (frame_pair_func q Hq E) as (pf&e'&qf&g'&Hf&Ef). specialize (Hs E).
      destruct (same_func_views _ _ _ Hs) as (_&_&_&_&->). rewrite Ef in *. split.
      * eapply func_view_stables; [|exact UM]. intros r Hr. eapply same_func_apart; [exact Hs|].
        by eapply elsewhere_func_apart; [apply He|].
      * rewrite (fm_blocks _ _ _ _ _ Hf).
        destruct (frame_pair_facts q Hq) as (n&Hi&_). pose proof (sl_live _ _ _ Hstack) as Hlv.
        rewrite Forall_lookup in Hlv. by destruct (Hlv n _ Hi E).
  - eapply linked_preserved; [exact UM|intros; apply Hw; [done|apply in_app_iff; by right]|].
    eapply linked_preserved; [exact U4|exact frames_links_apart|exact Hl].
  - rewrite <- Ht. apply Hword. simpl; auto.
  - rewrite <- Hc. apply Hword. simpl; auto.
Qed.
End Stack.

(** ** The imports linked *)

Section Imports.
Context (resolve : mem → Z → Z → Z → Z * Z * Z * Z).

Definition import_words (a : Z) : list region :=
  [shift a (OFS WASMImport "u.function.func_ptr_linked", 8);
   shift a (OFS WASMImport "u.function.signature", 8);
   shift a (OFS WASMImport "u.function.attachment", 8);
   shift a (OFS WASMImport "u.function.call_conv_raw", 1)].

Lemma link_import_ok a v :
  ∃ M, link_import resolve a v = Ok tt (set_mem M v) ∧ unchanged_outside (import_words a) (wmem v) M.
Proof.
  unfold link_import. erewrite mbind_ok by reflexivity. destruct (resolve _ _ _ _) as [[[f s] t] c].
  eexists. split; [reflexivity|]. unfold import_words, shift. cbn [fst snd wmem set_mem].
  eapply (unchanged_trans [_] [_; _; _]); [apply unchanged_store_Z|].
  eapply (unchanged_trans [_] [_; _]); [apply unchanged_store_Z|].
  eapply (unchanged_trans [_] [_]); [apply unchanged_store_Z|].
  pose proof (unchanged_store (store_Z (store_Z (store_Z (wmem v) (a + OFS WASMImport "u.function.func_ptr_linked") 8 f)
    (a + OFS WASMImport "u.function.signature") 8 s) (a + OFS WASMImport "u.function.attachment") 8 t)
    (a + OFS WASMImport "u.function.call_conv_raw") (le_bytes 1 c)) as H.
  by rewrite length_le_bytes in H.
Qed.

Lemma link_loop_ok import n : ∀ i v,
  ∃ M, mfor (seqZ i (Z.of_nat n)) (fun i => link_import resolve (import + i * SIZEOF WASMImport)) v
       = Ok tt (set_mem M v)
    ∧ unchanged_outside (seqZ i (Z.of_nat n) ≫= fun i => import_words (import + i * SIZEOF WASMImport))
        (wmem v) M.
Proof.
  induction n as [|n IH]; intros i v.
  - exists (wmem v). split; [by destruct v|apply unchanged_refl].
  - rewrite seqZ_cons by lia. replace (Z.pred (Z.of_nat (S n))) with (Z.of_nat n) by lia.
    destruct (link_import_ok (import + i * SIZEOF WASMImport) v) as (M1&H1&U1).
    destruct (IH (Z.succ i) (set_mem M1 v)) as (M2&H2&U2). exists M2. split.
    + cbn [mfor]. erewrite mbind_ok by exact H1. exact H2.
    + by eapply unchanged_trans.
Qed.

Lemma import_slot q k e e' :
  moved ps WASMImportT q k e e' → slot (pl_src q) (pl_dsize q) = SIZEOF WASMImport.
Proof.
  intros Hq. destruct (object_of_place q (mv_place _ _ _ _ _ Hq)) as [_ Hok].
  pose proof (eo_size _ _ (po_entry _ Hok)) as Hd.
  unfold slot. rewrite (mv_type _ _ _ _ _ Hq) in Hd |- *. cbn [class_of].
  change (data_size WASMImportT) with (Some (SIZEOF WASMImport)) in Hd. by injection Hd.
Qed.

Lemma import_words_spared q k e e' r :
  moved ps WASMImportT q k e e' → load_Z m (FLD (p_raw e) WASMImport "kind") 1 = IMPORT_KIND_FUNC →
  In r (import_words (p_raw e')) → spares w ps r ∧ inside_kind WASMImportT r.
Proof.
  intros Hq Hk Hr.
  pose proof (import_slot _ _ _ _ Hq) as Hs.
  assert (∀ o n, 0 <= o → o + n <= SIZEOF WASMImport →
    forallb (clear_of (o, n) WASMImportT) (items m (p_raw e) (obj_fmt WASMImportT m e)) = true →
    spares w ps (shift (p_raw e') (o, n)) ∧ inside_kind WASMImportT (shift (p_raw e') (o, n))) as Hw.
  { intros o n H0 H1 Hc. split.
    - eapply spares_word; [exact Hq|split; [by eexists|by left]|exact Hc|done|cbn [fst snd]; lia].
    - exists q, k, e, e'. split; [done|]. unfold span, shift. cbn [fst snd]. lia. }
  assert (∀ r, forallb (clear_of r WASMImportT) (items m (p_raw e) (obj_fmt WASMImportT m e))
    = forallb (clear_of r WASMImportT) (items m (p_raw e) (fseq
        [F WASMImport "kind" 1 1; N WASMImport "u.names.module_name"; N WASMImport "u.names.field_name"]
        (fmt_import_data IMPORT_KIND_FUNC)))) as Hi.
  { intros r'. change (obj_fmt WASMImportT m e) with fmt_WASMImport.
    cbn [items fseq foldr fmt_WASMImport]. by rewrite Hk. }
  destruct Hr as [<-|[<-|[<-|[<-|[]]]]]; apply Hw; try lia; rewrite Hi; reflexivity.
Qed.

Lemma link_imports_ok md p e' v :
  moved ps WASMModuleT p 0 (head md) e' → imports_live w md → heap_kept w w2 ps (wmem v) →
  ∃ M rs, link_imports resolve (p_raw e') v = Ok tt (set_mem M v)
    ∧ unchanged_outside rs (wmem v) M ∧ ∀ r, In r rs → spares w ps r ∧ inside_kind WASMImportT r.
Proof.
  intros Hm Hlive Hk.
  assert (in_record WASMModuleT 0) as Hrec by (split; [by eexists|by right]).
  pose proof (kept_item _ _ _ _ _ _ 10 _ Hk Hm Hrec eq_refl ltac:(apply not_elem_of_nil)) as Hn.
  pose proof (kept_item _ _ _ _ _ _ 14 _ Hk Hm Hrec eq_refl ltac:(apply not_elem_of_nil)) as (imp&Himp&Eimp).
  unfold imports_live in Hlive. set (n := load_Z m (FLD (p_raw md) WASMModule "import_function_count") 4) in *.
  assert (load_Z (wmem v) (FLD (p_raw e') WASMModule "import_function_count") 4 = n) as En
    by exact (f_equal le_Z Hn).
  assert (0 <= n) by (by apply load_Z_nonneg).
  unfold link_imports. do 2 erewrite mbind_ok by apply ld_eq. rewrite En.
  fold (ldp (wmem v) (FLD (p_raw e') WASMModule "import_functions")).
  set (import := ldp (wmem v) (FLD (p_raw e') WASMModule "import_functions")).
  destruct (link_loop_ok import (Z.to_nat n) 0 v) as (M&Hr&Hu). rewrite Z2Nat.id in Hr, Hu by done.
  eexists M, _. split; [exact Hr|]. split; [exact Hu|]. clear Hr Hu.
  intros r (j&Hr&Hj)%list_elem_of_In%list_elem_of_bind.
  apply elem_of_seqZ in Hj. destruct (Hlive ltac:(lia)) as (i&k&e&Hi&Ht&He&Ee&Hall).
  destruct (moved_of i k e Hi He) as (q&x&Hq&Eq). rewrite Ht in Hq.
  destruct (Hall j ltac:(lia)) as (ej&Hej&Hkind).
  rewrite <- Eq in Hej.
  destruct (moved_at q _ ej (mv_place _ _ _ _ _ Hq) Hej) as (xj&Hqj).
  rewrite (mv_type _ _ _ _ _ Hq) in Hqj.
  assert (import + j * SIZEOF WASMImport = p_raw xj) as E.
  { destruct (moved_span _ _ _ _ _ Hq) as (R1&_&?&?&?&?), (moved_span _ _ _ _ _ Hqj) as (R2&_).
    rewrite (import_slot _ _ _ _ Hq) in *.
    unfold import. rewrite Eimp, <- Ee in *. rewrite (moved_reloc _ _ _ _ _ Hq) in Himp.
    injection Himp as <-. unfold uint64. rewrite wrap_small; lia. }
  rewrite E in Hr. eapply import_words_spared; [exact Hqj|exact Hkind|by apply list_elem_of_In].
Qed.
End Imports.

(** ** The WASI context *)

Definition elem_region (e : Pool_Elem) : region := (p_raw e, extent (type e) (size e)).
Definition wasi_word (inst : Z) : region := shift inst (OFS WASMModuleInstance "wasi_ctx", 8).

Lemma moved_elem_region t p k e e' : moved ps t p k e e' → elem_region e' = span p e'.
Proof.
  intros Hm. destruct (object_of_place p (mv_place _ _ _ _ _ Hm)) as [_ Hok].
  pose proof (po_entry _ Hok) as [Hd _ _ _ Hcl _]. destruct Hm as [Hp Ht Hs Hd'].
  unfold elem_region, span, slot, extent, request. f_equal.
  destruct k as [|k].
  - injection Hd' as <-. cbn [rebuild pl_dst head type size]. rewrite Hd. by destruct (class_of _).
  - cbn [pl_dst rebuild elems chain lookup list_lookup] in Hd'.
    rewrite (rebuild_chain_type _ _ _ _ _ _ _ Hd'), Hd.
    destruct (class_of (type (pl_src p))); try done; by destruct Hcl as [E _]; rewrite E in Hd'.
Qed.

(** What the restart counts on: [wasm_runtime_init_wasi] makes its objects anew, in
    memory of its own, under offsets the table does not have yet, and stores the
    context in the module instance. *)
Definition wasi_contract (init_wasi : C unit) (offsets : list Z) : Prop :=
  ∀ v, p_abs <$> all_elems (root_info v) ≡ₚ offsets →
  ∃ v' new rs, init_wasi v = Ok tt v'
    ∧ root_frame v' = root_frame v ∧ r_module v' = r_module v
    ∧ root_info v' = new ++ root_info v
    ∧ (∀ a, a ∈ p_abs <$> all_elems new → a ∉ offsets)
    ∧ unchanged_outside (wasi_word (r_module_inst v) :: rs) (wmem v) (wmem v')
    ∧ (∀ r e, In r rs → e ∈ all_elems (root_info v) → disjoint_region r (elem_region e)).

Lemma wasi_spared inst p e' rs r :
  moved ps WASMModuleInstanceT p 0 (head inst) e' →
  (∀ r e, In r rs → e ∈ all_elems (root_info w2) → disjoint_region r (elem_region e)) →
  In r (wasi_word (p_raw e') :: rs) →
  spares w ps r
  ∧ (inside_kind WASMModuleInstanceT r ∨ ∀ t p k e e', moved ps t p k e e' → disjoint_region r (span p e')).
Proof.
  intros Hm Hrs [<-|Hr].
  - destruct (object_of_place p (mv_place _ _ _ _ _ Hm)) as [_ Hok].
    pose proof (po_entry _ Hok) as [Hd Hpos _ _ Hcl _].
    assert (slot (pl_src p) (pl_dsize p) = SIZEOF WASMModuleInstance) as Hs.
    { unfold slot. rewrite (mv_type _ _ _ _ _ Hm) in Hd |- *. cbn [class_of].
      change (data_size WASMModuleInstanceT) with (Some (SIZEOF WASMModuleInstance)) in Hd. by injection Hd. }
    split.
    + eapply spares_word; [exact Hm|split; [by eexists|by left]|reflexivity|done|cbn [fst snd]; lia].
    + left. exists p, 0%nat, (head inst), e'. split; [done|]. unfold span, wasi_word, shift. cbn [fst snd]. lia.
  - assert (∀ t p k e e', moved ps t p k e e' → disjoint_region r (span p e')) as Hd.
    { intros t q k e x Hq. rewrite <- (moved_elem_region _ _ _ _ _ Hq). apply Hrs; [done|].
      by eapply moved_known. }
    split; [by apply spares_away|by right].
Qed.

(** ** Composition *)


(** ** All of it *)

(** The process after [restore_frame_internal], and, with the frames in front of the
    table, after [restore_runtime]. *)
Record process_moved (frames : list Pool_Info) (env' : Pool_Elem) (front : list Pool_Info)
    (w6 : world) : Prop := {
  pv_root_frame : root_frame w6 = placed frames env';
  pv_root_info : ∃ new, root_info w6 = front ++ new ++ root_info w2
    ∧ ∀ a, a ∈ p_abs <$> all_elems new → a ∉ p_abs <$> all_elems (objects (root_info w));
  pv_heap : heap_kept w w2 ps (wmem w6);
  pv_frames : frames_moved frames env' (wmem w6)
}.

Lemma restore_frame_internal_ok init_wasi resolve env frames md inst :
  stack_live w env frames → the_object w WASMModuleT md → the_object w WASMModuleInstanceT inst →
  imports_live w md → wasi_contract init_wasi (p_abs <$> all_elems (objects (root_info w))) →
  w_gp w2 = FRead (frames_image m base (filter (fun i => is_frame i = true) (root_info w))) →
  ∃ p env' w6, moved ps WASMExecEnvT p 0 (head env) env' ∧ pl_src p = env
    ∧ restore_frame_internal init_wasi resolve w2 = Ok tt w6 ∧ process_moved frames env' [] w6.
Proof.
  intros Hstack Hmd Hinst Himp Hwasi Hg. pose proof restored_offsets as Hoff.
  destruct (the_object_moved _ _ (sl_env _ _ _ Hstack) ltac:(by eexists)) as (p&env'&Hm&Hp&_&Henv).
  destruct (the_object_moved _ _ Hmd ltac:(by eexists)) as (pm&md'&Hmdm&_&_&Hmda).
  destruct (the_object_moved _ _ Hinst ltac:(by eexists)) as (pi&inst'&Hinstm&_&_&Hinsta).
  destruct (frames_taken env frames Hstack p env' Hm Hp) as (m3&R3&T3&L3&C3&U3).
  destruct (frames_filled env frames Hstack p env' Hm Hp m3 U3 Hg) as (m4&R4&D4&U4).
  set (w4 := set_mem m4 (set_gp (FRead []) (set_root_frame (placed frames env') (set_mem m3 w2)))) in *.
  destruct (Hwasi w4) as (w5&new&rs&R5&F5&M5&I5&N5&U5&S5); [exact Hoff|].
  change (r_module_inst w4) with (r_module_inst w2) in U5.
  rewrite (Hinsta _ (cr_inst _ _ _ _ rh_restored)) in U5.
  change (root_info w4) with (root_info w2) in I5, S5. change (wmem w4) with m4 in U5.
  change (root_frame w4) with (placed frames env') in F5. change (r_module w4) with (r_module w2) in M5.
  assert (∀ r, In r (wasi_word (p_raw inst') :: rs) → spares w ps r ∧ elsewhere r) as Hws.
  { intros r Hr. destruct (wasi_spared inst pi inst' rs r Hinstm S5 Hr) as [? [?|?]]; (split; [done|]);
      [by left|by right; right]. }
  assert (heap_kept w w2 ps (wmem w5)) as Hk5.
  { eapply spares_kept; [|eapply unchanged_trans; [exact U3|eapply unchanged_trans; [exact U4|exact U5]]].
    intros r [Hr|[Hr|Hr]%in_app_iff]%in_app_iff; [| |by apply Hws];
      apply (env_spares env frames Hstack p env' Hm Hp), in_app_iff; auto. }
  destruct (link_imports_ok resolve md pm md' w5 Hmdm Himp Hk5) as (m6&rs6&R6&U6&S6).
  exists p, env', (set_mem m6 w5). split; [done|]. split; [done|]. split.
  - unfold restore_frame_internal. erewrite mbind_ok by reflexivity.
    erewrite mbind_ok by reflexivity. rewrite (Henv _ (cr_env _ _ _ _ rh_restored)).
    erewrite mbind_ok by exact R3. erewrite mbind_ok by reflexivity. erewrite mbind_ok by reflexivity.
    cbn [w_gp set_root_frame set_mem]. rewrite Hg. erewrite mbind_ok by exact R4.
    fold w4. erewrite mbind_ok by exact R5. erewrite mbind_ok by reflexivity.
    rewrite M5, (Hmda _ (cr_module _ _ _ _ rh_restored)). exact R6.
  - constructor; cbn [root_frame root_info set_mem wmem].
    + exact F5.
    + by exists new.
    + eapply spares_kept; [|eapply unchanged_trans; [exact U3|eapply unchanged_trans;
        [exact U4|eapply unchanged_trans; [exact U5|exact U6]]]].
      intros r [Hr|[Hr|[Hr|Hr]%in_app_iff]%in_app_iff]%in_app_iff; [| |by apply Hws|by apply S6];
        apply (env_spares env frames Hstack p env' Hm Hp), in_app_iff; auto.
    + eapply (frames_moved_kept env frames Hstack p env' Hm Hp m3 m4);
        [exact U3|exact T3|exact L3|exact C3|exact U4|exact D4|eapply unchanged_trans; [exact U5|exact U6]|].
      intros r [Hr|Hr]%in_app_iff; [by apply Hws|]. right. left. by apply S6.
Qed.

(** ** The registers *)

(** Null, or the address of an object or of an element of an array. *)
Definition known (a : Z) : Prop := a = NULL ∨ ∃ t k, elem_of_kind w t k a.

Record registers_live (frames : list Pool_Info) (l : locals) : Prop := {
  rl_ok : locals_ok m l;
  rl_known : Forall known [module l; exec_env l; cur_func l; memory l; wasm_types l; globals l;
                           global l; global_data l];
  rl_frames : Forall (fun a => a = NULL ∨ ∃ i, i ∈ frames ∧ p_raw (head i) = a) [frame l; prev_frame l]
}.

Lemma placed_some env frames : stack_live w env frames → ∀ env', placed frames env' ≠ [].
Proof. intros Hs env'. destruct frames as [|i frames]; [by destruct (sl_some _ _ _ Hs)|done]. Qed.

(** The frames have offsets of their own. *)
Lemma placed_offsets env frames env' a :
  stack_live w env frames → a ∈ p_abs <$> all_elems (placed frames env') →
  a ∉ p_abs <$> all_elems (objects (root_info w)).
Proof.
  intros Hstack (e&->&(i'&Hi'&He)%in_all_elems)%list_elem_of_fmap (e2&E2&(j&Hj&He2)%in_all_elems)%list_elem_of_fmap.
  apply list_elem_of_lookup in Hi' as [n Hn].
  destruct (Forall2_lookup_r _ _ _ _ _ (placed_shift env frames Hstack env') Hn) as (i&Hi&_&Ea&_).
  destruct (frames_known env frames Hstack) as (_&_&Hc).
  apply (place_chains (stack_bottom (p_raw env'))) in Hc. rewrite Forall_lookup in Hc.
  pose proof (Hc n _ Hn) as Hch. unfold elems in He. rewrite Hch in He. apply list_elem_of_singleton in He as ->.
  assert (i ∈ filter (fun i => is_frame i = true) (root_info w)) as [Hf Hin]%list_elem_of_filter.
  { rewrite (sl_frames _ _ _ Hstack). by eapply list_elem_of_lookup_2. }
  apply list_elem_of_filter in Hj as [Hnf [_ Hj]%list_elem_of_filter].
  assert (i = j) as ->; [|by rewrite Hf in Hnf].
  apply (same_info p_abs (root_info w) i j (head i) e2); try done; [|left|congruence].
  eapply NoDup_p_abs, rh_heap.
Qed.

Lemma find_info_front P l r : Forall (fun e => P e = false) (all_elems l) → find_info P (l ++ r) = find_info P r.
Proof.
  intros H%find_info_none. by rewrite find_info_app, H.
Qed.

Lemma known_moved front v a : known a → root_info v = front ++ root_info w2 →
  (∀ x, x ∈ p_abs <$> all_elems front → x ∉ p_abs <$> all_elems (objects (root_info w))) →
  ∃ a', reloc base (root_info v) a = Some a' ∧ 0 <= a' < 2 ^ 64 ∧ (a ≠ NULL → a' ≠ NULL).
Proof.
  intros [->|(t&k&Ha)] Hr Hf; [by exists NULL|].
  destruct (elem_moved _ _ _ Ha) as (p&e&e'&Hm&<-).
  exists (p_raw e'). pose proof (moved_reloc _ _ _ _ _ Hm) as Hreloc.
  destruct (moved_span _ _ _ _ _ Hm) as (_&?&?&?&?&?). unfold NULL. split_and!; [|lia..].
  rewrite <- Hreloc. unfold reloc. rewrite Hr. zcase; [done|]. zcase; [done|]. f_equal.
  apply find_info_front, Forall_forall. intros x Hx. apply Z.eqb_neq. intros Ex.
  apply (Hf (p_abs x)); [by apply list_elem_of_fmap_2|]. rewrite <- Ex.
  destruct (moved_known _ _ _ _ _ Hm) as [He He'].
  destruct (known_offset e He) as (_&->&_). rewrite <- (moved_abs _ _ _ _ _ Hm), <- restored_offsets.
  by apply list_elem_of_fmap_2.
Qed.

Lemma frame_moved env frames env' v a :
  stack_live w env frames → (∃ p, moved ps WASMExecEnvT p 0 (head env) env' ∧ pl_src p = env) →
  root_frame v = placed frames env' → a = NULL ∨ (∃ i, i ∈ frames ∧ p_raw (head i) = a) →
  ∃ a', reloc_frame base (root_frame v) a = Some a' ∧ (a ≠ NULL → a' ≠ NULL).
Proof.
  intros Hstack (p&Hm&Hp) -> [->|(i&Hi&<-)]; [by exists NULL|].
  assert (head i ∈ all_elems (root_info w)) as He.
  { rewrite <- (sl_frames _ _ _ Hstack) in Hi. apply list_elem_of_filter in Hi as [_ Hi].
    apply in_all_elems. exists i. split; [done|left]. }
  destruct (known_offset _ He) as (H0&H1&H2&_).
  apply list_elem_of_lookup in Hi as [n Hn].
  destruct (Forall2_lookup_l _ _ _ _ _ (placed_shift env frames Hstack env') Hn) as (i'&Hi'&_&Ea&Hz).
  exists (p_raw (head i')). split.
  - unfold reloc_frame. rewrite (proj2 (Z.eqb_neq _ _)) by done. rewrite H1, (proj2 (Z.eqb_neq _ _)) by done.
    rewrite <- Ea, (find_NoDup (fun j => p_abs (head j))); [done|by eapply placed_NoDup|].
    by eapply list_elem_of_lookup_2.
  - intros _. assert (In (FLD (p_raw (head i')) WASMInterpFrame "prev_frame", 8) (link_words (placed frames env'))) as Hl.
    { unfold link_words. apply in_map_iff. exists i'. split; [done|].
      apply list_elem_of_In. by eapply list_elem_of_lookup_2. }
    destruct (link_word_in_stack env frames Hstack env' _ Hl) as [L _].
    destruct (env_stack_ready env frames Hstack p env' Hm Hp) as (_&_&_&_&?).
    unfold stack_bottom, NULL in *. cbn [fst] in L. lia.
Qed.

Lemma registers_moved env frames env' front l l0 v rest :
  stack_live w env frames → (∃ p, moved ps WASMExecEnvT p 0 (head env) env' ∧ pl_src p = env) →
  root_frame v = placed frames env' → root_info v = front ++ root_info w2 →
  (∀ x, x ∈ p_abs <$> all_elems front → x ∉ p_abs <$> all_elems (objects (root_info w))) →
  registers_live frames l →
  ∃ gdata q, pointers_moved base v l q ∧ reloc base (root_info v) (global_data l) = Some gdata
    ∧ restore_locals l0 (locals_bytes base m l ++ rest, v) = Ok (restarted m (wmem v) gdata l0 l q) (rest, v).
Proof.
  intros Hstack Henv Hrf Hri Hfront [Hok Hknown Hframes].
  assert (∀ a, known a → ∃ a', reloc base (root_info v) a = Some a' ∧ 0 <= a' < 2 ^ 64 ∧ (a ≠ NULL → a' ≠ NULL)) as Hk
    by (intros; by eapply known_moved).
  rewrite !Forall_cons in Hknown. destruct Hknown as (K1&K2&K3&K4&K5&K6&K7&K8&_).
  rewrite !Forall_cons in Hframes. destruct Hframes as (F1&F2&_).
  destruct (Hk _ K1) as (a1&A1&_), (Hk _ K2) as (a2&A2&_), (Hk _ K3) as (a3&A3&_),
    (Hk _ K4) as (a4&A4&_&N4), (Hk _ K5) as (a5&A5&_), (Hk _ K6) as (a6&A6&_), (Hk _ K7) as (a7&A7&_),
    (Hk _ K8) as (gdata&A8&_).
  destruct (frame_moved env frames env' v _ Hstack Henv Hrf F1) as (f1&B1&NF),
    (frame_moved env frames env' v _ Hstack Henv Hrf F2) as (f2&B2&_).
  destruct (func_code_end_ok a3 v) as (ip_end&Hend&_).
  set (q := mkLocals a1 a2 a3 f2 a4 0 0 0 a5 a6 a7 0 f1 0 0 0 0 ip_end 0 0 0 0 0 0 0 0 0 0 0 0 0 0 0 0 0 0 0 0 0 0 0 0).
  exists gdata, q. assert (pointers_moved base v l q) as Hpm by (by constructor).
  split; [done|]. split; [done|]. apply restore_locals_ok; try done.
  destruct Hok as [[L1 L2 L3] _ _ _ _ _ _ _ _ _ _]. constructor; cbn [frame memory q]; auto.
Qed.
End Restart.
#[global] Arguments process_moved : clear implicits.
#[global] Arguments registers_live : clear implicits.
