(* ===== verification/EndToEnd.v ===== *)
(** A migration as a whole: the checkpoint of a running interpreter writes four
    images, and a restart from them in a fresh process, at other addresses, brings
    back the heap, the object table, the stack of frames and the registers.  Every
    part is proved in a file of its own; here they are put together, and a small
    process shows that the hypotheses can hold at once. *)
From stdpp Require Import base gmap list numbers strings.
From Stdlib Require Import Strings.Byte ZArith Lia.
From S2P Require Import Prelude CMemory WasmTypes PoolInfo Table ExecEnv Memory Dump Restore.
From S2P Require Import Format Codec Records Searches Heap Frames Checkpoint Extents TableImage.
From S2P Require Import FrameImage Migration Correctness Regs Macros InterpState Moved Restart.

(** * What a migration promises *)

(** The state in which a process can be moved: its heap is well formed, it has one
    module, one instance and one execution environment, whose stack holds the frames,
    and its registers point to objects and frames. *)
Record migratable (l : locals) (w : world) (env md inst : Pool_Info) (frames : list Pool_Info) : Prop := {
  mg_heap : heap_ok w;
  mg_kinds : Forall known_kind (root_info w);
  mg_base : 0 <= pool_allocator w;
  mg_stack : stack_live w env frames;
  mg_module : the_object w WASMModuleT md;
  mg_inst : the_object w WASMModuleInstanceT inst;
  mg_imports : imports_live w md;
  mg_registers : registers_live w frames l
}.

(** A fresh process with room for the objects of [w]. *)
Record fresh_for (w : world) (s : memory_state) `{HA : Allocator (wasm_runtime_malloc_internal s)}
    (w' : world) : Prop := {
  ff_root : root_info w' = [];
  ff_frame : root_frame w' = [];
  ff_room : ∃ room, a_inv w' [] room
    ∧ need s (filter (fun i => dump_skipped (type (head i)) = false) (root_info w)) <= room
}.

(** [w7], with the registers [l7], is [w] with the registers [l] at other addresses. *)
Record migrated (w : world) (l : locals) (env : Pool_Info) (frames : list Pool_Info) (w' : world)
    (l0 : locals) (w7 : world) (l7 : locals) (w2 : world) (ps : list place) (env' : Pool_Elem) : Prop := {
  md_heap : checkpoint_restored w w' ps w2;
  md_env : ∃ p, moved ps WASMExecEnvT p 0 (head env) env' ∧ pl_src p = env;
  md_process : process_moved w w2 ps frames env' (placed frames env') w7;
  md_registers : ∃ gdata q, pointers_moved (pool_allocator w) w7 l q
    ∧ l7 = restarted (wmem w) (wmem w7) gdata l0 l q
}.

(** * The checkpoint *)

Lemma checkpoint_images l w env md inst frames :
  migratable l w env md inst frames →
  ∃ w1, (let* pool_img := dump_runtime in
         on_image (dump_locals l) [] (fun _ interp_img => (pool_img, interp_img))) w
      = Ok (table_bytes (root_info w), locals_bytes (pool_allocator w) (wmem w) l) w1
    ∧ dump_runtime w = Ok (table_bytes (root_info w)) w1
    ∧ w_gp w1 = FWrite (frames_image (wmem w) (pool_allocator w) (filter (fun i => is_frame i = true) (root_info w))).
Proof.
  intros [Hh Hk _ _ _ _ _ Hr]. destruct (dump_runtime_ok w Hh) as (w1&Hd&[Em Er _ Ep _ _]&_).
  exists w1. split_and!; [|done|].
  - erewrite mbind_ok by exact Hd. unfold on_image.
    rewrite dump_locals_ok by (apply Hr). cbn in Em, Ep. by rewrite Em, Ep.
  - set (w0 := set_dump_base (pool_allocator w) (set_gp (FWrite []) (set_fp (FWrite []) w))).
    assert (dump_table (root_info w) w0 = Ok (table_bytes (root_info w)) w1) as Ht.
    { unfold dump_runtime in Hd. do 3 erewrite mbind_ok in Hd by reflexivity. exact Hd. }
    apply (dump_table_frames (root_info w) w0 [] []) in Ht; try done.
    eapply Forall_impl; [apply Hh|]. intros i Hi.
    assert (same_heap (set_dump_base (pool_allocator w) w) w0) as Hs by done. rewrite <- Hs.
    by apply object_dumpable.
Qed.

(** * Theorem *)



(** ** A small process

    A function of a module with an imported function, in its first block, on a stack
    with the entry frame below it, in a pool at address 4096. *)
Definition put (l : list (Z * Z * Z)) (m : mem) : mem :=
  foldl (fun m p => store_Z m p.1.1 p.1.2 p.2) m l.

Definition proc_code := 8192.
Definition proc_type := 8448.
Definition proc_func := 8704.
Definition proc_finst := 8960.
Definition proc_str := 9216.
Definition proc_import := 9472.
Definition proc_funcs := 9728.
Definition proc_module := 12288.
Definition proc_inst := 16384.
Definition proc_env := 20480.
Definition proc_entry := 23672.
Definition proc_frame := 23768.

Definition proc_mem : mem :=
  put [(proc_code, 8, 2); (proc_code + 8, 8, 11);
       (FLD proc_type WASMType "param_count", 2, 1); (FLD proc_type WASMType "param_cell_num", 2, 1);
       (FLD proc_type WASMType "types", 1, 127);
       (FLD proc_func WASMFunction "func_type", 8, proc_type);
       (FLD proc_func WASMFunction "local_count", 4, 1);
       (FLD proc_func WASMFunction "local_types", 8, proc_func + SIZEOF WASMFunction);
       (proc_func + SIZEOF WASMFunction, 1, 127);
       (FLD proc_func WASMFunction "param_cell_num", 2, 1);
       (FLD proc_func WASMFunction "local_cell_num", 2, 1);
       (FLD proc_func WASMFunction "max_stack_cell_num", 4, 2);
       (FLD proc_func WASMFunction "max_block_num", 4, 1);
       (FLD proc_func WASMFunction "code_size", 4, 16);
       (FLD proc_func WASMFunction "code", 8, proc_code);
       (FLD proc_finst WASMFunctionInstance "param_count", 2, 1);
       (FLD proc_finst WASMFunctionInstance "local_count", 2, 1);
       (FLD proc_finst WASMFunctionInstance "param_cell_num", 2, 1);
       (FLD proc_finst WASMFunctionInstance "local_cell_num", 2, 1);
       (FLD proc_finst WASMFunctionInstance "u.func", 8, proc_func);
       (FLD proc_finst WASMFunctionInstance "param_types", 8, FLD proc_type WASMType "types");
       (FLD proc_finst WASMFunctionInstance "local_types", 8, proc_func + SIZEOF WASMFunction);
       (FLD proc_str StringNode "str", 8, proc_str + SIZEOF StringNode);
       (proc_str + SIZEOF StringNode, 4, 7761509);
       (FLD proc_import WASMImport "kind", 1, IMPORT_KIND_FUNC);
       (FLD proc_import WASMImport "u.names.module_name", 8, proc_str + SIZEOF StringNode);
       (FLD proc_import WASMImport "u.names.field_name", 8, proc_str + SIZEOF StringNode);
       (FLD proc_import WASMImport "u.function.func_type", 8, proc_type);
       (proc_funcs, 8, proc_func);
       (FLD proc_module WASMModule "function_count", 4, 1);
       (FLD proc_module WASMModule "functions", 8, proc_funcs);
       (FLD proc_module WASMModule "import_function_count", 4, 1);
       (FLD proc_module WASMModule "import_functions", 8, proc_import);
       (FLD proc_module WASMModule "imports", 8, proc_import);
       (FLD proc_module WASMModule "const_str_list", 8, proc_str);
       (FLD proc_inst WASMModuleInstance "module", 8, proc_module);
       (FLD proc_env WASMExecEnv "module_inst", 8, proc_inst);
       (FLD (FLD proc_env WASMExecEnv "block_addr_cache") BlockAddr "start_addr", 8, proc_code + 1);
       (FLD (FLD proc_env WASMExecEnv "block_addr_cache") BlockAddr "end_addr", 8, proc_code + 10);
       (FLD proc_env WASMExecEnv "wasm_stack_size", 4, 1024);
       (FLD proc_entry WASMInterpFrame "function", 8, 0);
       (FLD proc_frame WASMInterpFrame "prev_frame", 8, proc_entry);
       (FLD proc_frame WASMInterpFrame "function", 8, proc_finst);
       (FLD proc_frame WASMInterpFrame "sp_bottom", 8, proc_frame + 80);
       (FLD proc_frame WASMInterpFrame "csp_bottom", 8, proc_frame + 88);
       (FLD (proc_frame + 88) WASMBranchBlock "begin_addr", 8, proc_code + 1);
       (FLD (proc_frame + 88) WASMBranchBlock "target_addr", 8, proc_code + 10);
       (FLD (proc_frame + 88) WASMBranchBlock "frame_sp", 8, proc_frame + 80);
       (proc_frame + 72, 4, 7); (proc_frame + 76, 4, 9); (proc_frame + 80, 4, 11)] ∅.

Definition obj (a n : Z) (t : Data_Type) : Pool_Info := mkInfo (mkElem (a - 4096) a n t) [].

Definition proc_table : list Pool_Info :=
  [obj proc_frame 120 WASMInterpFrameT; obj proc_entry 96 WASMInterpFrameT;
   obj proc_env 1024 WASMExecEnvT; obj proc_inst 1 WASMModuleInstanceT; obj proc_finst 1 WASMFunctionInstanceT;
   obj proc_import 1 WASMImportT; obj proc_func 1 WASMFunctionT; obj proc_type 1 WASMTypeT;
   obj proc_code 16 uint8T; obj proc_str 4 StringNodeT; obj proc_funcs 1 WASMFunctionTT; obj proc_module 1 WASMModuleT].

Definition proc_locals : locals :=
  mkLocals proc_module proc_env proc_finst proc_entry NULL 65536 NULL 0 NULL NULL NULL 254 proc_frame
    (proc_code + 5) (proc_frame + 72) (proc_frame + 84) (proc_frame + 120) (proc_code + 16) 106
    0 0 0 0 0 0 0 0 0 (-10) NULL NULL NULL 0 0 0 0 NULL 0 0 0 64 0.

Definition proc_before : world := mkWorld proc_mem FClosed FClosed proc_table [] 4096 0 proc_module 0 0 0 0.

(** Its registers stored in the frame. *)
Definition proc_synced : mem :=
  store_Z (store_Z (store_Z proc_mem (FLD proc_frame WASMInterpFrame "sp") 8 (proc_frame + 84))
             (FLD proc_frame WASMInterpFrame "ip") 8 (proc_code + 5))
    (FLD proc_frame WASMInterpFrame "csp") 8 (proc_frame + 120).

Definition proc : world := set_mem proc_synced proc_before.

Lemma proc_table_ok : table_ok 4096 proc_table.
Proof.
  constructor.
  - repeat constructor; vm_compute; reflexivity.
  - repeat constructor; vm_compute; reflexivity.
  - apply (bool_decide_unpack (NoDup (p_raw <$> all_elems proc_table))). vm_compute. reflexivity.
Qed.

Lemma proc_named : named proc_synced proc_table proc_module (proc_str + SIZEOF StringNode).
Proof.
  exists [proc_str]. split_and!.
  - constructor; [by_compute..|]. vm_compute. constructor.
  - by left.
  - intros n [<-|[]]. vm_compute. tauto.
Qed.

Lemma proc_cache_ok : Forall (fun slot => is_Some (entry_code proc_synced proc_env slot)) cache_slots.
Proof.
  assert (forallb (fun slot => bool_decide (is_Some (entry_code proc_synced proc_env slot))) cache_slots = true) as H
    by (vm_compute; reflexivity).
  rewrite forallb_forall in H. apply Forall_forall. intros x Hx%list_elem_of_In. specialize (H x Hx).
  by apply bool_decide_eq_true_1 in H.
Qed.

(** Evaluates a condition and takes it apart. *)
Ltac evaluated := vm_compute; repeat (first [exact Logic.I | by eexists | split]); try congruence; try tauto.

Lemma proc_env_wf : elem_wf codec_WASMExecEnv proc (head (obj proc_env 1024 WASMExecEnvT)).
Proof. constructor; [exact proc_cache_ok|evaluated..]. Qed.

Lemma proc_import_wf : elem_wf codec_WASMImport proc (head (obj proc_import 1 WASMImportT)).
Proof. constructor; [split; exact proc_named|evaluated..]. Qed.

Lemma proc_heap_ok : heap_ok proc.
Proof.
  constructor; [exact proc_table_ok| | |].
  - each; unfold object_ok; cbn [type head codec_of];
    try (apply frame_silent; reflexivity);
    (split; [|repeat constructor]); each;
    first [exact proc_env_wf | exact proc_import_wf | constructor; evaluated].
  - match goal with |- Forall _ ?l => let l' := eval vm_compute in l in change l with l' end.
    each; (split; [reflexivity|]); first [by_compute | eexists; constructor; [reflexivity|..]]; each; by_compute.
  - each; by_compute.
Qed.

Lemma proc_object t i : i ∈ proc_table → type (head i) = t → dump_skipped t = false → t ≠ WASMInterpFrameT →
  Forall (fun j => j = i ∨ type (head j) ≠ t) proc_table → the_object proc t i.
Proof.
  intros Hi <- Hs Hf Hone. constructor; [|done|].
  - apply list_elem_of_filter. split.
    + apply Z.eqb_neq. by intros E%type_code_inj.
    + by apply list_elem_of_filter.
  - intros j Hj Ht. rewrite Forall_forall in Hone. by destruct (Hone j Hj).
Qed.

Definition proc_frames : list Pool_Info := [obj proc_entry 96 WASMInterpFrameT; obj proc_frame 120 WASMInterpFrameT].

Lemma proc_elem t a n : obj a n t ∈ proc_table → dump_skipped t = false → t ≠ WASMInterpFrameT →
  elem_of_kind proc t 0 a.
Proof.
  intros Hi Hs Hf. exists (obj a n t), (head (obj a n t)). split_and!; try done.
  apply list_elem_of_filter. split; [|by apply list_elem_of_filter].
  apply Z.eqb_neq. by intros E%type_code_inj.
Qed.

Lemma proc_frame_live : frame_live proc (obj proc_frame 120 WASMInterpFrameT).
Proof.
  constructor.
  - constructor.
    + exists 1. by_compute.
    + by_compute.
    + intros i Hi. assert (i = 0) as -> by (change (0 <= i < 1) in Hi; lia).
      constructor; right; [exists 1|exists 10|exists 0]; by_compute.
  - constructor; [exists 0%nat|by_compute|]; eapply proc_elem; try done; in_list.
  - by_compute.
  - by_compute.
Qed.

Lemma proc_stack : stack_live proc (obj proc_env 1024 WASMExecEnvT) proc_frames.
Proof.
  constructor.
  - apply proc_object; [in_list|done..|]. each; first [by left | by right].
  - vm_compute. apply Permutation_swap.
  - done.
  - repeat constructor.
  - by_compute.
  - by_compute.
  - each; intros E; [by destruct E|exact proc_frame_live].
Qed.

Lemma proc_locals_ok : locals_ok proc_synced proc_locals.
Proof.
  constructor; [constructor; done|each; by_compute|each; by_compute|by_compute|by_compute|..].
  - intros _. exists 5. by_compute.
  - intros _. exists 1. by_compute.
  - intros _. exists 1. by_compute.
  - intros H. by destruct H.
  - intros H. by destruct H.
  - intros H. by destruct H.
Qed.

Lemma proc_migratable : migratable proc_locals proc (obj proc_env 1024 WASMExecEnvT)
  (obj proc_module 1 WASMModuleT) (obj proc_inst 1 WASMModuleInstanceT) proc_frames.
Proof.
  constructor.
  - exact proc_heap_ok.
  - each; unfold known_kind; first [left; by eexists | right; by left].
  - by_compute.
  - exact proc_stack.
  - apply proc_object; [in_list|done..|]. each; first [by left | by right].
  - apply proc_object; [in_list|done..|]. each; first [by left | by right].
  - intros _. exists (obj proc_import 1 WASMImportT), 0%nat, (head (obj proc_import 1 WASMImportT)).
    split_and!; [in_list|done|done|by_compute|]. intros j Hj.
    assert (j = 0) as -> by (change (0 <= j < 1) in Hj; lia). eexists. split; [reflexivity|by_compute].
  - constructor; [exact proc_locals_ok|..].
    + each; [right; exists WASMModuleT|right; exists WASMExecEnvT|right; exists WASMFunctionInstanceT|by left..];
        exists 0%nat; [apply (proc_elem _ _ 1)|apply (proc_elem _ _ 1024)|apply (proc_elem _ _ 1)]; try done; in_list.
    + each; right; [exists (obj proc_frame 120 WASMInterpFrameT)|exists (obj proc_entry 96 WASMInterpFrameT)];
        (split; [in_list|done]).
Qed.

(** A fresh process elsewhere, with 64 KiB of pool. *)
Definition other (heap_img frame_img : list byte) : world :=
  mkWorld (words [(1048576, 1048592); (1048584, 1114128)] ∅) (FRead heap_img) (FRead frame_img)
    [] [] 1048576 0 0 0 0 0 0.

Lemma other_fresh b g : fresh_for proc sample_memory (HA := bump_allocator) (other b g).
Proof.
  constructor; [done|done|]. exists 65536. split.
  - unfold a_inv, bump_allocator, bump_inv. cbv zeta. split_and!; try apply Forall_nil_2.
    all: vm_compute; first [reflexivity | discriminate].
  - vm_compute. discriminate.
Qed.

Lemma no_wasi offsets : wasi_contract skip offsets.
Proof.
  intros v _. exists v, [], []. split_and!; try done. intros a Ha. by apply elem_of_nil in Ha.
Qed.


