(* ===== verification/LoaderCtx.v ===== *)
(** The context in which the loader checks the body of a function
    (wasm_loader.c): the stack of operand types ([frame_ref], one byte for each
    cell), the stack of open blocks ([frame_csp]) and the routines that push, pop
    and grow them.  The two stacks are buffers of the runtime heap that grow by
    reallocation; which requests the heap grants is a parameter. *)
From stdpp Require Import base gmap list numbers strings pretty.
From Stdlib Require Import Strings.Byte ZArith Lia.
From S2P Require Import Prelude CMemory WasmTypes PoolInfo Opcodes Leb FindBlock.

(** * Data *)

Definition VALUE_TYPE_V128 : Z := 0x7B.
Definition VALUE_TYPE_FUNCREF : Z := 0x70.
Definition VALUE_TYPE_EXTERNREF : Z := 0x6F.
Definition VALUE_TYPE_ANY : Z := 0x42.

(** [WASMType]: the parameter types and then the result types in [types]. *)
Record func_type := mkType { param_count : Z; result_count : Z; types : list Z }.

Definition param_types (t : func_type) : list Z := take (Z.to_nat (param_count t)) (types t).
Definition result_types (t : func_type) : list Z :=
  take (Z.to_nat (result_count t)) (drop (Z.to_nat (param_count t)) (types t)).

(** The union of [BlockType] with its flag. *)
Inductive BlockType := BlockValue (value_type : Z) | BlockFunc (type : func_type).

Record BranchBlock := mkBranch {
  label_type : Z;
  block_type : BlockType;
  start_addr : Z;
  else_addr : Z;
  end_addr : Z;
  b_stack_cell_num : Z;
  is_stack_polymorphic : bool
}.

(** What [memset] of a block leaves: the type is a null pointer, for which a value
    type of no code stands. *)
Definition blank_block : BranchBlock := mkBranch 0 (BlockValue 0) NULL NULL NULL 0 false.
Definition null_type (b : BlockType) : bool :=
  match b with BlockValue v => v =? 0 | BlockFunc _ => false end.

(** sizeof on x86-64. *)
Definition BranchBlock_c : ctype :=
  TStruct [("label_type", u8); ("block_type", TStruct [("u", ptr); ("is_value_type", tbool)]);
           ("start_addr", ptr); ("else_addr", ptr); ("end_addr", ptr); ("stack_cell_num", u32);
           ("is_stack_polymorphic", tbool)]%string.
Definition WASMLoaderContext_c : ctype :=
  TStruct [("frame_ref", ptr); ("frame_ref_bottom", ptr); ("frame_ref_boundary", ptr);
           ("frame_ref_size", u32); ("stack_cell_num", u32); ("max_stack_cell_num", u32);
           ("frame_csp", ptr); ("frame_csp_bottom", ptr); ("frame_csp_boundary", ptr);
           ("frame_csp_size", u32); ("csp_num", u32); ("max_csp_num", u32)]%string.
Definition BRANCH_BLOCK_SIZE : Z := sizeof BranchBlock_c.

(** The fields of [WASMLoaderContext].  A pointer into a buffer is an index, the
    contents of the buffer a list, and its block a number. *)
Record ref_stack := mkRefs {
  frame_ref : Z;
  frame_ref_bottom : list Z;
  frame_ref_boundary : Z;
  frame_ref_size : Z;
  stack_cell_num : Z;
  max_stack_cell_num : Z;
  ref_block : nat
}.

Record csp_stack := mkCsps {
  frame_csp : Z;
  frame_csp_bottom : list BranchBlock;
  frame_csp_boundary : Z;
  frame_csp_size : Z;
  csp_num : Z;
  max_csp_num : Z;
  csp_block : nat
}.

Record WASMLoaderContext := mkCtx { refs : ref_stack; csps : csp_stack; ctx_block : nat }.

(** The heap as the loader sees it: the live blocks, each with what the object
    table says of it, and where the blocks are and how big, those given back
    included. *)
Record scratch := mkScratch {
  next_block : nat;
  live : gmap nat (option (Data_Type * Z));
  extents : gmap nat (Z * Z)
}.

(** What the check leaves in the function and in the module. *)
Record verdict := mkVerdict {
  has_op_func_call : bool;
  has_op_memory_grow : bool;
  possible_memory_grow : bool;
  max_stack_cells : Z;                  (* func->max_stack_cell_num *)
  max_block_num : Z
}.

Record loader := mkLoader {
  l_mem : mem;                          (* with the code, which is rewritten in place *)
  l_p : Z;
  l_ctx : option WASMLoaderContext;     (* loader_ctx *)
  l_heap : scratch;
  l_error : option string;              (* what error_buf holds *)
  l_verdict : verdict
}.

Definition set_l_mem (m : mem) (s : loader) : loader :=
  mkLoader m (l_p s) (l_ctx s) (l_heap s) (l_error s) (l_verdict s).
Definition set_l_p (p : Z) (s : loader) : loader :=
  mkLoader (l_mem s) p (l_ctx s) (l_heap s) (l_error s) (l_verdict s).
Definition set_l_ctx (c : option WASMLoaderContext) (s : loader) : loader :=
  mkLoader (l_mem s) (l_p s) c (l_heap s) (l_error s) (l_verdict s).
Definition set_l_heap (h : scratch) (s : loader) : loader :=
  mkLoader (l_mem s) (l_p s) (l_ctx s) h (l_error s) (l_verdict s).
Definition set_l_error (e : option string) (s : loader) : loader :=
  mkLoader (l_mem s) (l_p s) (l_ctx s) (l_heap s) e (l_verdict s).
Definition set_l_verdict (v : verdict) (s : loader) : loader :=
  mkLoader (l_mem s) (l_p s) (l_ctx s) (l_heap s) (l_error s) v.

(** * Routines that can fail

    [None] is [return false], [return NULL] or [goto fail]: the caller of every
    routine here fails in turn. *)

Definition L (A : Type) : Type := M loader (option A).

Definition lret {S A} (a : A) : M S (option A) := mret (Some a).
Definition lbind {S A B} (c : M S (option A)) (k : A → M S (option B)) : M S (option B) :=
  mbind c (fun o => match o with Some a => k a | None => mret None end).
Definition lget {A} (f : loader → A) : L A := gets (fun s => Some (f s)).
Definition lmod (f : loader → loader) : L unit := modify f ;;; lret tt.
Definition set_error_buf (msg : string) : M loader unit :=
  modify (set_l_error (Some ("WASM module load failed: " +:+ msg))).
Definition lfail {A} (msg : string) : L A := set_error_buf msg ;;; mret None.

Notation "'let+' x ':=' c 'in' k" := (lbind c (fun x => k))
  (at level 10, x name, c at level 200, k at level 200,
   format "'[v' 'let+'  x  ':='  c  'in' '/' k ']'") : c_scope.
Notation "c ;+ k" := (lbind c (fun _ => k)) (at level 100, right associativity) : c_scope.

(** [for] over the elements of an array. *)
Fixpoint lfor {S X} (l : list X) (body : X → M S (option unit)) : M S (option unit) :=
  match l with
  | [] => lret tt
  | x :: l => body x ;+ lfor l body
  end.

(** The context, whose null pointer is never followed. *)
Definition ctx : L WASMLoaderContext := fun s =>
  match l_ctx s with Some c => Ok (Some c) s | None => Stuck end.
Definition put_refs (r : ref_stack) : L unit := fun s =>
  match l_ctx s with
  | Some c => Ok (Some tt) (set_l_ctx (Some (mkCtx r (csps c) (ctx_block c))) s)
  | None => Stuck
  end.
Definition put_csps (k : csp_stack) : L unit := fun s =>
  match l_ctx s with
  | Some c => Ok (Some tt) (set_l_ctx (Some (mkCtx (refs c) k (ctx_block c))) s)
  | None => Stuck
  end.

(** An element of a buffer; an access outside has no meaning. *)
Fixpoint index {A} (l : list A) (i : Z) : option A :=
  match l with
  | [] => None
  | a :: l => if i =? 0 then Some a else index l (i - 1)
  end.
Definition at_index {A} (l : list A) (i : Z) : L A :=
  match index l i with Some a => lret a | None => mstuck end.
Definition ref_at (i : Z) : L Z := let+ c := ctx in at_index (frame_ref_bottom (refs c)) i.
Definition csp_at (i : Z) : L BranchBlock :=
  let+ c := ctx in at_index (frame_csp_bottom (csps c)) i.

(** [*(loader_ctx->frame_csp - 1)]. *)
Definition cur_block : L BranchBlock := let+ c := ctx in csp_at (frame_csp (csps c) - 1).

Definition set_csp (i : Z) (f : BranchBlock → BranchBlock) : L unit :=
  let+ c := ctx in
  let k := csps c in
  match index (frame_csp_bottom k) i with
  | Some b =>
      put_csps (mkCsps (frame_csp k) (<[Z.to_nat i := f b]> (frame_csp_bottom k))
                  (frame_csp_boundary k) (frame_csp_size k) (csp_num k) (max_csp_num k) (csp_block k))
  | None => mstuck
  end.

(** * Value types *)

Definition is_32bit_type (type : Z) : bool := (type =? VALUE_TYPE_I32) || (type =? VALUE_TYPE_F32).
Definition is_64bit_type (type : Z) : bool := (type =? VALUE_TYPE_I64) || (type =? VALUE_TYPE_F64).
Definition is_value_type (type : Z) : bool :=
  (type =? VALUE_TYPE_I32) || (type =? VALUE_TYPE_I64) || (type =? VALUE_TYPE_F32)
  || (type =? VALUE_TYPE_F64).
Definition is_byte_a_type (type : Z) : bool := is_value_type type || (type =? VALUE_TYPE_VOID).

Definition type2str (type : Z) : string :=
  if (VALUE_TYPE_V128 <=? type) && (type <=? VALUE_TYPE_I32)
  then nth (Z.to_nat (type - VALUE_TYPE_V128)) ["v128"; "f64"; "f32"; "i64"; "i32"]%string ""%string
  else if type =? VALUE_TYPE_FUNCREF then "funcref"
  else if type =? VALUE_TYPE_EXTERNREF then "externref"
  else "unknown type".

Fixpoint wasm_get_cell_num (types : list Z) : Z :=
  match types with
  | [] => 0
  | t :: types => wasm_value_type_cell_num t + wasm_get_cell_num types
  end.

Definition block_type_get_param_types (b : BlockType) : list Z :=
  match b with BlockFunc t => param_types t | BlockValue _ => [] end.
Definition block_type_get_result_types (b : BlockType) : list Z :=
  match b with
  | BlockValue v => if v =? VALUE_TYPE_VOID then [] else [v]
  | BlockFunc t => result_types t
  end.

(** * The heap *)

(** The address of the block a request of a number of bytes is granted, if it is;
    that may depend on all the requests before. *)
Class ScratchPool := grants : scratch → Z → option Z.

Section context.
Context `{ScratchPool}.

Definition wasm_runtime_malloc (size : Z) : L nat := fun s =>
  let h := l_heap s in
  let id := next_block h in
  match grants h size with
  | Some a =>
      Ok (Some id) (set_l_heap (mkScratch (S id) (<[id := None]> (live h)) (<[id := (a, size)]> (extents h))) s)
  | None => Ok None (set_l_heap (mkScratch (S id) (live h) (extents h)) s)
  end.

Definition alloc_info (id : nat) (t : Data_Type) (n : Z) : L unit :=
  lmod (fun s => set_l_heap (mkScratch (next_block (l_heap s)) (<[id := Some (t, n)]> (live (l_heap s)))
                              (extents (l_heap s))) s).

Definition wasm_runtime_free (id : nat) : L unit :=
  lmod (fun s => set_l_heap (mkScratch (next_block (l_heap s)) (delete id (live (l_heap s))) (extents (l_heap s))) s).

Definition loader_malloc (size : Z) : L nat :=
  if 2 ^ 32 - 1 <=? size then lfail "allocate memory failed"
  else mbind (wasm_runtime_malloc size) (fun o =>
         match o with
         | Some id => lret id
         | None => lfail "allocate memory failed"
         end).

(** The block after a reallocation; the caller moves the contents. *)
Definition memory_realloc (mem_old : nat) (size_new : Z) : L nat :=
  let+ mem_new := loader_malloc size_new in
  alloc_info mem_new uint8T size_new ;+
  wasm_runtime_free mem_old ;+
  lret mem_new.

(** * The operand stack *)

Definition check_stack_push : L unit :=
  let+ c := ctx in
  let r := refs c in
  if frame_ref_boundary r <=? frame_ref r then
    let size_new := uint32 (frame_ref_size r + 16) in
    let+ mem_new := memory_realloc (ref_block r) size_new in
    put_refs (mkRefs (stack_cell_num r)
                (frame_ref_bottom r ++ replicate (Z.to_nat (size_new - frame_ref_size r)) 0)
                size_new size_new (stack_cell_num r) (max_stack_cell_num r) mem_new)
  else lret tt.

Definition check_stack_top_values (frame_ref stack_cell_num type : Z) : L unit :=
  if (is_32bit_type type && (stack_cell_num <? 1)) || (is_64bit_type type && (stack_cell_num <? 2))
  then lfail "type mismatch: expect data but stack was empty"
  else
    let+ bad :=
      (if is_32bit_type type then
         let+ t1 := ref_at (frame_ref - 1) in lret (negb (t1 =? type))
       else if is_64bit_type type then
         let+ t2 := ref_at (frame_ref - 2) in
         if negb (t2 =? type) then lret true
         else let+ t1 := ref_at (frame_ref - 1) in lret (negb (t1 =? type))
       else lret false) in
    if bad : bool then lfail ("type mismatch: expect " +:+ type2str type +:+ " but got other")
    else lret tt.

Definition check_stack_pop (type : Z) : L unit :=
  let+ c := ctx in
  let+ b := cur_block in
  let block_stack_cell_num := int32 (stack_cell_num (refs c) - b_stack_cell_num b) in
  let+ any :=
    (if 0 <? block_stack_cell_num
     then let+ t := ref_at (frame_ref (refs c) - 1) in lret (t =? VALUE_TYPE_ANY)
     else lret false) in
  if any : bool then lret tt
  else check_stack_top_values (frame_ref (refs c)) block_stack_cell_num type.

(** [*ctx->frame_ref++ = type; ctx->stack_cell_num++]. *)
Definition push_cell (type : Z) : L unit :=
  let+ c := ctx in
  let r := refs c in
  match index (frame_ref_bottom r) (frame_ref r) with
  | Some _ =>
      put_refs (mkRefs (frame_ref r + 1) (<[Z.to_nat (frame_ref r) := type]> (frame_ref_bottom r))
                  (frame_ref_boundary r) (frame_ref_size r) (uint32 (stack_cell_num r + 1))
                  (max_stack_cell_num r) (ref_block r))
  | None => mstuck
  end.

(** [ctx->frame_ref -= n; ctx->stack_cell_num -= n]. *)
Definition drop_cells (n : Z) : L unit :=
  let+ c := ctx in
  let r := refs c in
  put_refs (mkRefs (frame_ref r - n) (frame_ref_bottom r) (frame_ref_boundary r) (frame_ref_size r)
              (uint32 (stack_cell_num r - n)) (max_stack_cell_num r) (ref_block r)).

(** The label [check_stack_and_return]. *)
Definition note_max : L unit :=
  let+ c := ctx in
  let r := refs c in
  if max_stack_cell_num r <? stack_cell_num r then
    put_refs (mkRefs (frame_ref r) (frame_ref_bottom r) (frame_ref_boundary r) (frame_ref_size r)
                (stack_cell_num r) (stack_cell_num r) (ref_block r))
  else lret tt.

Definition wasm_loader_push_frame_ref (type : Z) : L unit :=
  if type =? VALUE_TYPE_VOID then lret tt
  else
    check_stack_push ;+
    push_cell type ;+
    if is_32bit_type type || (type =? VALUE_TYPE_ANY) then note_max
    else check_stack_push ;+ push_cell type ;+ note_max.

Definition wasm_loader_pop_frame_ref (type : Z) : L unit :=
  let+ c := ctx in
  let+ cur_block := cur_block in
  let available_stack_cell := int32 (stack_cell_num (refs c) - b_stack_cell_num cur_block) in
  if (available_stack_cell <=? 0) && is_stack_polymorphic cur_block then lret tt
  else if type =? VALUE_TYPE_VOID then lret tt
  else
    check_stack_pop type ;+
    drop_cells 1 ;+
    if is_32bit_type type then lret tt
    else
      let+ c := ctx in
      let+ t := ref_at (frame_ref (refs c)) in
      if t =? VALUE_TYPE_ANY then lret tt else drop_cells 1.

Definition wasm_loader_push_pop_frame_ref (pop_cnt : nat) (type_push type_pop : Z) : L unit :=
  lfor (seq 0 pop_cnt) (fun _ => wasm_loader_pop_frame_ref type_pop) ;+
  wasm_loader_push_frame_ref type_push.

(** [POP_TYPE] from the last type to the first, and [PUSH_TYPE] from the first. *)
Definition pop_types (ts : list Z) : L unit := lfor (rev ts) wasm_loader_pop_frame_ref.
Definition push_types (ts : list Z) : L unit := lfor ts wasm_loader_push_frame_ref.

(** * The block stack *)

Definition CHECK_CSP_PUSH : L unit :=
  let+ c := ctx in
  let k := csps c in
  if frame_csp_boundary k <=? frame_csp k then
    let size_new := uint32 (frame_csp_size k + 8 * BRANCH_BLOCK_SIZE) in
    let+ mem_new := memory_realloc (csp_block k) size_new in
    put_csps (mkCsps (csp_num k)
                (frame_csp_bottom k
                 ++ replicate (Z.to_nat ((size_new - frame_csp_size k) / BRANCH_BLOCK_SIZE)) blank_block)
                (size_new / BRANCH_BLOCK_SIZE) size_new (csp_num k) (max_csp_num k) mem_new)
  else lret tt.

Definition wasm_loader_push_frame_csp (label_type : Z) (block_type : BlockType) (start_addr : Z) :
    L unit :=
  CHECK_CSP_PUSH ;+
  let+ c := ctx in
  let k := csps c in
  match index (frame_csp_bottom k) (frame_csp k) with
  | Some _ =>
      let b := mkBranch label_type block_type start_addr NULL NULL (stack_cell_num (refs c)) false in
      let n := uint32 (csp_num k + 1) in
      put_csps (mkCsps (frame_csp k + 1) (<[Z.to_nat (frame_csp k) := b]> (frame_csp_bottom k))
                  (frame_csp_boundary k) (frame_csp_size k) n
                  (if max_csp_num k <? n then n else max_csp_num k) (csp_block k))
  | None => mstuck
  end.

Definition wasm_loader_pop_frame_csp : L unit :=
  let+ c := ctx in
  let k := csps c in
  if csp_num k <? 1
  then lfail "type mismatch: expect data but block stack was empty"
  else put_csps (mkCsps (frame_csp k - 1) (frame_csp_bottom k) (frame_csp_boundary k)
                   (frame_csp_size k) (uint32 (csp_num k - 1)) (max_csp_num k) (csp_block k)).

(** Back to the operands below the current block. *)
Definition RESET_STACK : L unit :=
  let+ c := ctx in
  let+ b := cur_block in
  let r := refs c in
  put_refs (mkRefs (b_stack_cell_num b) (frame_ref_bottom r) (frame_ref_boundary r)
              (frame_ref_size r) (b_stack_cell_num b) (max_stack_cell_num r) (ref_block r)).

Definition SET_CUR_BLOCK_STACK_POLYMORPHIC_STATE (flag : bool) : L unit :=
  let+ c := ctx in
  set_csp (frame_csp (csps c) - 1) (fun b =>
    mkBranch (label_type b) (block_type b) (start_addr b) (else_addr b) (end_addr b)
      (b_stack_cell_num b) flag).

(** * Branches and the end of a block *)

(** The values on top of the stack against the types, from the last one. *)
Fixpoint check_tops (ts : list Z) (frame_ref available : Z) : L unit :=
  match ts with
  | [] => lret tt
  | t :: ts =>
      check_stack_top_values frame_ref available t ;+
      let n := wasm_value_type_cell_num t in
      check_tops ts (frame_ref - n) (available - n)
  end.

Definition wasm_loader_check_br (depth : Z) : L unit :=
  let+ c := ctx in
  if csp_num (csps c) <? uint32 (depth + 1)
  then lfail "unknown label, unexpected end of section or function"
  else
    let+ cur_block := cur_block in
    let+ target_block := csp_at (frame_csp (csps c) - uint32 (depth + 1)) in
    (if null_type (block_type target_block) then mstuck else lret tt) ;+
    let types := if label_type target_block =? LABEL_TYPE_LOOP
                 then block_type_get_param_types (block_type target_block)
                 else block_type_get_result_types (block_type target_block) in
    if is_stack_polymorphic cur_block then pop_types types ;+ push_types types
    else
      check_tops (rev types) (frame_ref (refs c))
        (int32 (stack_cell_num (refs c) - b_stack_cell_num cur_block)).

Definition check_block_stack (block : BranchBlock) : L unit :=
  let+ c := ctx in
  let available_stack_cell := int32 (stack_cell_num (refs c) - b_stack_cell_num block) in
  let return_types := block_type_get_result_types (block_type block) in
  let return_cell_num := int32 (uint32 (wasm_get_cell_num return_types)) in
  if is_stack_polymorphic block then
    pop_types return_types ;+
    let+ c := ctx in
    if negb (stack_cell_num (refs c) =? b_stack_cell_num block)
    then lfail "type mismatch: stack size does not match block type"
    else push_types return_types
  else if negb (available_stack_cell =? return_cell_num)
  then lfail "type mismatch: stack size does not match block type"
  else check_tops (rev return_types) (frame_ref (refs c)) available_stack_cell.

(** * The context itself *)

Definition wasm_loader_ctx_destroy : L unit :=
  let+ c := lget l_ctx in
  match c with
  | None => lret tt
  | Some c =>
      wasm_runtime_free (ref_block (refs c)) ;+
      wasm_runtime_free (csp_block (csps c)) ;+
      wasm_runtime_free (ctx_block c)
  end.

(** A block that is not granted frees those that were, and the result is a null
    pointer. *)
Definition wasm_loader_ctx_init : L unit :=
  let+ loader_ctx := wasm_runtime_malloc (sizeof WASMLoaderContext_c) in
  alloc_info loader_ctx WASMLoaderContextT 1 ;+
  mbind (wasm_runtime_malloc 32) (fun o =>
    match o with
    | None => wasm_runtime_free loader_ctx ;+ mret None
    | Some frame_ref_bottom =>
        alloc_info frame_ref_bottom uint8T 32 ;+
        mbind (wasm_runtime_malloc (BRANCH_BLOCK_SIZE * 8)) (fun o =>
          match o with
          | None =>
              wasm_runtime_free frame_ref_bottom ;+ wasm_runtime_free loader_ctx ;+ mret None
          | Some frame_csp_bottom =>
              alloc_info frame_csp_bottom BranchBlockT 8 ;+
              lmod (set_l_ctx (Some (mkCtx
                (mkRefs 0 (replicate 32 0) 32 32 0 0 frame_ref_bottom)
                (mkCsps 0 (replicate 8 blank_block) 8 (BRANCH_BLOCK_SIZE * 8) 0 0 frame_csp_bottom)
                loader_ctx)))
          end)
    end).

End context.
