(* ===== verification/Validate.v ===== *)
(** The check of a function body (wasm_loader.c, [wasm_loader_prepare_bytecode]):
    one handler for each group of cases of its [switch], the loop over the code,
    and the rewriting of instructions in place for the classic interpreter. *)
From stdpp Require Import base gmap list numbers strings pretty.
From Stdlib Require Import Strings.Byte ZArith Lia.
From S2P Require Import Prelude CMemory WasmTypes PoolInfo Opcodes Leb FindBlock LoaderCtx.

(** * The module and the function *)

(** What the check reads of [WASMModule]: the types, the type of each imported
    and each own function, the type and mutability of each imported and each own
    global, the numbers of tables and memories, the auxiliary stack. *)
Record module_info := mkModule {
  m_types : list func_type;
  import_functions : list func_type;
  functions : list func_type;
  import_table_count : Z;
  table_count : Z;
  import_memory_count : Z;
  memory_count : Z;
  import_globals : list (Z * bool);
  globals : list (Z * bool);
  aux_stack_size : Z;
  aux_stack_top_global_index : Z
}.

(** [WASMFunction]. *)
Record func_info := mkFunc {
  f_type : func_type;
  local_types : list Z;
  local_offsets : list Z;
  code : Z;
  code_size : Z
}.

Definition zlen {A} (l : list A) : Z := Z.of_nat (length l).

(** [p_import[i]] for an index of the import space, else [own[i - imports]]. *)
Definition imported_or_own {A} (imports own : list A) (i : Z) : option A :=
  if i <? zlen imports then index imports i else index own (i - zlen imports).

(** * Reading the code *)

(** The message [read_leb] leaves. *)
Fixpoint leb_error (fuel : nat) (m : mem) (buf buf_end maxbits offset bcnt : Z) : string :=
  match fuel with
  | O => ""
  | S fuel =>
      if (maxbits + 6) / 7 <? bcnt + 1 then "integer representation too long"
      else if negb (check_buf buf buf_end (offset + 1))
      then "unexpected end of section or function"
      else if Z.land (load_Z m (buf + offset) 1) 0x80 =? 0 then "integer too large"
      else leb_error fuel m buf buf_end maxbits (offset + 1) (bcnt + 1)
  end.

Definition read_leb_to (p_end maxbits : Z) (sign : bool) : L Z :=
  let+ m := lget l_mem in
  let+ p := lget l_p in
  match loader_read_leb m p p_end maxbits sign with
  | Some (res64, p) => lmod (set_l_p p) ;+ lret res64
  | None => lfail (leb_error 11 m p p_end maxbits 0 0)
  end.

Section validate.
Context `{ScratchPool} (module : module_info) (func : func_info).

Definition p_end : Z := code func + code_size func.

Definition read_leb_p (maxbits : Z) (sign : bool) : L Z := read_leb_to p_end maxbits sign.

Definition read_leb_uint32 : L Z := let+ r := read_leb_p 32 false in lret (uint32 r).
Definition read_leb_int32 : L Z := let+ r := read_leb_p 32 true in lret (int32 r).
Definition read_leb_int64 : L Z := let+ r := read_leb_p 64 true in lret (swrap 64 r).

(** No check of the end. *)
Definition read_uint8 : L Z :=
  let+ m := lget l_mem in
  let+ p := lget l_p in
  lmod (set_l_p (p + 1)) ;+ lret (load_Z m p 1).

Definition CHECK_BUF (length : Z) : L unit :=
  let+ p := lget l_p in
  if check_buf p p_end length then lret tt else lfail "unexpected end of section or function".

Definition move_p (n : Z) : L unit := let+ p := lget l_p in lmod (set_l_p (p + n)).

(** [*a = v] in the code. *)
Definition poke (a v : Z) : L unit := lmod (fun s => set_l_mem (store_Z (l_mem s) a 1 v) s).

Definition note (f : verdict → verdict) : L unit := lmod (fun s => set_l_verdict (f (l_verdict s)) s).
Definition note_call : L unit :=
  note (fun v => mkVerdict true (has_op_memory_grow v) (possible_memory_grow v) (max_stack_cells v) (max_block_num v)).
Definition note_grow : L unit :=
  note (fun v => mkVerdict (has_op_func_call v) true (possible_memory_grow v) (max_stack_cells v) (max_block_num v)).
Definition note_possible_grow : L unit :=
  note (fun v => mkVerdict (has_op_func_call v) (has_op_memory_grow v) true (max_stack_cells v) (max_block_num v)).
Definition note_maxima : L unit :=
  let+ c := ctx in
  note (fun v => mkVerdict (has_op_func_call v) (has_op_memory_grow v) (possible_memory_grow v)
                   (max_stack_cell_num (refs c)) (max_csp_num (csps c))).

(** * Indices *)

Definition check_function_index (function_index : Z) : L unit :=
  if uint32 (zlen (import_functions module) + zlen (functions module)) <=? function_index
  then lfail ("unknown function " +:+ pretty (int32 function_index))
  else lret tt.

Definition check_table_index (table_index : Z) : L unit :=
  if negb (table_index =? 0) then lfail "zero byte expected"
  else if uint32 (import_table_count module + table_count module) <=? table_index
  then lfail ("unknown table " +:+ pretty (int32 table_index))
  else lret tt.

Definition check_memory : L unit :=
  if (memory_count module =? 0) && (import_memory_count module =? 0)
  then lfail "unknown memory" else lret tt.

Definition mem_access_aligns : list Z :=
  [2; 3; 2; 3; 0; 0; 1; 1; 0; 0; 1; 1; 2; 2;
   2; 3; 2; 3; 0; 1; 0; 1; 2].

Definition check_memory_access_align (opcode : WASMOpcode) (align : Z) : L unit :=
  let+ natural := at_index mem_access_aligns (opcode_code opcode - opcode_code WASM_OP_I32_LOAD) in
  if natural <? align then lfail "alignment must not be larger than natural" else lret tt.

Definition or_stuck {A} (o : option A) : L A :=
  match o with Some a => lret a | None => mstuck end.

(** The type and the offset of the local variable the code names. *)
Definition GET_LOCAL_INDEX_TYPE_AND_OFFSET : L (Z * Z) :=
  let+ local_idx := read_leb_uint32 in
  let params := param_types (f_type func) in
  if uint32 (param_count (f_type func) + zlen (local_types func)) <=? local_idx
  then lfail "unknown local"
  else
    let+ local_type := or_stuck (imported_or_own params (local_types func) local_idx) in
    let+ local_offset := at_index (local_offsets func) local_idx in
    lret (local_type, local_offset).

(** * Control instructions *)

Definition handle_op_block_and_loop (opcode : WASMOpcode) : L unit :=
  let ofs := opcode_code opcode - opcode_code WASM_OP_BLOCK in
  let+ value_type := read_uint8 in
  let+ block_type :=
    (if is_byte_a_type value_type then lret (BlockValue value_type)
     else
       move_p (-1) ;+
       let+ type_index := read_leb_uint32 in
       if zlen (m_types module) <=? type_index then lfail "unknown type"
       else
         let+ t := at_index (m_types module) type_index in
         let+ p := lget l_p in
         poke (p - 2) (opcode_code EXT_OP_BLOCK + ofs) ;+
         lret (BlockFunc t)) in
  pop_types (block_type_get_param_types block_type) ;+
  let+ p := lget l_p in
  wasm_loader_push_frame_csp (LABEL_TYPE_BLOCK + ofs) block_type p ;+
  push_types (block_type_get_param_types block_type).

Definition set_else_addr (a : Z) : L unit :=
  let+ c := ctx in
  set_csp (frame_csp (csps c) - 1) (fun b =>
    mkBranch (label_type b) (block_type b) (start_addr b) a (end_addr b)
      (b_stack_cell_num b) (is_stack_polymorphic b)).

Definition prepare_else : L unit :=
  let+ b := cur_block in
  let+ c := ctx in
  if (csp_num (csps c) <? 2) || negb (label_type b =? LABEL_TYPE_IF)
  then lfail "opcode else found without matched opcode if"
  else
    check_block_stack b ;+
    let+ p := lget l_p in
    set_else_addr (p - 1) ;+
    RESET_STACK ;+
    SET_CUR_BLOCK_STACK_POLYMORPHIC_STATE false ;+
    push_types (block_type_get_param_types (block_type b)).

(** The types of a block without [else]: the result is the parameter. *)
Definition else_not_needed (b : BlockType) : bool :=
  bool_decide (block_type_get_param_types b = block_type_get_result_types b).

(** After the last block of the function the rest of the code is ignored. *)
Definition prepare_end : L unit :=
  let+ cur_block := cur_block in
  check_block_stack cur_block ;+
  if (label_type cur_block =? LABEL_TYPE_IF) && (else_addr cur_block =? NULL)
     && negb (else_not_needed (block_type cur_block))
  then lfail "type mismatch: else branch missing"
  else
    wasm_loader_pop_frame_csp ;+
    let+ c := ctx in
    let+ p := lget l_p in
    if 0 <? csp_num (csps c) then
      set_csp (frame_csp (csps c)) (fun b =>
        mkBranch (label_type b) (block_type b) (start_addr b) (else_addr b) (p - 1)
          (b_stack_cell_num b) (is_stack_polymorphic b)) ;+
      SET_CUR_BLOCK_STACK_POLYMORPHIC_STATE false
    else lmod (set_l_p p_end).

(** The index of the target in the block stack. *)
Definition check_branch_block : L Z :=
  let+ depth := read_leb_uint32 in
  wasm_loader_check_br depth ;+
  let+ c := ctx in
  lret (frame_csp (csps c) - depth - 1).

Definition unreachable_from_here : L unit :=
  RESET_STACK ;+ SET_CUR_BLOCK_STACK_POLYMORPHIC_STATE true.

(** The result types of a target of [br_table]; those of a loop count as none. *)
Definition target_ret_types (b : BranchBlock) : list Z :=
  if label_type b =? LABEL_TYPE_LOOP then [] else block_type_get_result_types (block_type b).

(** [for (i = 0; i <= count; i++)]: every turn reads a byte at least. *)
Fixpoint br_table_targets (fuel : nat) (i count : Z) (ret_types : list Z) : L unit :=
  match fuel with
  | O => mstuck
  | S fuel =>
      if count <? i then lret tt
      else
        let+ t := check_branch_block in
        let+ b := csp_at t in
        if i =? 0 then br_table_targets fuel (uint32 (i + 1)) count (target_ret_types b)
        else if bool_decide (ret_types = target_ret_types b)
        then br_table_targets fuel (uint32 (i + 1)) count ret_types
        else lfail "type mismatch: br_table targets must all use same result type"
  end.

Definition prepare_br_table : L unit :=
  let+ count := read_leb_uint32 in
  wasm_loader_pop_frame_ref VALUE_TYPE_I32 ;+
  let+ p := lget l_p in
  br_table_targets (S (S (Z.to_nat (p_end - p)))) 0 count [] ;+
  unreachable_from_here.

Definition pass_arguments (t : func_type) : L unit :=
  pop_types (param_types t) ;+ push_types (result_types t) ;+ note_call.

Definition prepare_call : L unit :=
  let+ func_idx := read_leb_uint32 in
  check_function_index func_idx ;+
  let+ func_type := or_stuck (imported_or_own (import_functions module) (functions module) func_idx) in
  pass_arguments func_type.

Definition prepare_call_indirect : L unit :=
  let+ type_idx := read_leb_uint32 in
  CHECK_BUF 1 ;+
  let+ table_idx := read_uint8 in
  check_table_index table_idx ;+
  wasm_loader_pop_frame_ref VALUE_TYPE_I32 ;+
  if zlen (m_types module) <=? type_idx then lfail "unknown type"
  else let+ func_type := at_index (m_types module) type_idx in pass_arguments func_type.

Definition prepare_control (op : WASMOpcode) : option (L unit) :=
  match op with
  | WASM_OP_UNREACHABLE => Some unreachable_from_here
  | WASM_OP_NOP => Some (lret tt)
  | WASM_OP_IF =>
      Some (wasm_loader_pop_frame_ref VALUE_TYPE_I32 ;+ handle_op_block_and_loop op)
  | WASM_OP_BLOCK | WASM_OP_LOOP => Some (handle_op_block_and_loop op)
  | WASM_OP_ELSE => Some prepare_else
  | WASM_OP_END => Some prepare_end
  | WASM_OP_BR => Some (check_branch_block ;+ unreachable_from_here)
  | WASM_OP_BR_IF =>
      Some (wasm_loader_pop_frame_ref VALUE_TYPE_I32 ;+ check_branch_block ;+ lret tt)
  | WASM_OP_BR_TABLE => Some prepare_br_table
  | WASM_OP_RETURN => Some (pop_types (result_types (f_type func)) ;+ unreachable_from_here)
  | WASM_OP_CALL => Some prepare_call
  | WASM_OP_CALL_INDIRECT => Some prepare_call_indirect
  | _ => None
  end.

(** * Parametric and variable instructions *)

Definition available_stack_cell : L Z :=
  let+ c := ctx in
  let+ b := cur_block in
  lret (int32 (stack_cell_num (refs c) - b_stack_cell_num b)).

(** The instruction is rewritten to the variant for operands of two cells. *)
Definition prepare_drop : L unit :=
  let+ cur_block := cur_block in
  let+ available := available_stack_cell in
  if (available <=? 0) && negb (is_stack_polymorphic cur_block)
  then lfail "type mismatch, opcode drop was found but stack was empty"
  else if 0 <? available then
    let+ c := ctx in
    let+ t := ref_at (frame_ref (refs c) - 1) in
    if (t =? VALUE_TYPE_I32) || (t =? VALUE_TYPE_F32) then drop_cells 1
    else if (t =? VALUE_TYPE_I64) || (t =? VALUE_TYPE_F64) then
      drop_cells 2 ;+
      let+ p := lget l_p in poke (p - 1) (opcode_code WASM_OP_DROP_64)
    else lfail "type mismatch"
  else lret tt.

Definition prepare_select : L unit :=
  let+ cur_block := cur_block in
  wasm_loader_pop_frame_ref VALUE_TYPE_I32 ;+
  let+ available := available_stack_cell in
  if (available <=? 0) && negb (is_stack_polymorphic cur_block)
  then lfail "type mismatch or invalid result arity, opcode select was found but stack was empty"
  else if 0 <? available then
    let+ c := ctx in
    let+ ref_type := ref_at (frame_ref (refs c) - 1) in
    (if (ref_type =? VALUE_TYPE_I32) || (ref_type =? VALUE_TYPE_F32) then lret tt
     else if (ref_type =? VALUE_TYPE_I64) || (ref_type =? VALUE_TYPE_F64) then
       let+ p := lget l_p in poke (p - 1) (opcode_code WASM_OP_SELECT_64)
     else lfail "type mismatch") ;+
    wasm_loader_push_pop_frame_ref 2 ref_type ref_type
  else wasm_loader_push_frame_ref VALUE_TYPE_ANY.

(** [while (p_org < p) *p_org++ = WASM_OP_NOP]. *)
Definition fill_nops (p_org p : Z) : L unit :=
  lfor (seqZ p_org (p - p_org)) (fun a => poke a (opcode_code WASM_OP_NOP)).

(** A local whose offset has seven bits is accessed by the short instruction. *)
Definition use_fast_local (p_org local_type local_offset : Z) (fast : WASMOpcode) : L unit :=
  if local_offset <? 0x80 then
    poke p_org (opcode_code fast) ;+
    poke (p_org + 1) (if is_32bit_type local_type then wrap 8 local_offset
                      else wrap 8 (Z.lor local_offset 0x80)) ;+
    let+ p := lget l_p in fill_nops (p_org + 2) p
  else lret tt.

Definition local_access (fast : WASMOpcode) (stack : Z → L unit) : L unit :=
  let+ p := lget l_p in
  let+ lt := GET_LOCAL_INDEX_TYPE_AND_OFFSET in
  stack lt.1 ;+
  use_fast_local (p - 1) lt.1 lt.2 fast.

(** The index, the type and the mutability of the global the code names. *)
Definition global_access : L (Z * (Z * bool)) :=
  let+ global_idx := read_leb_uint32 in
  if uint32 (zlen (import_globals module) + zlen (globals module)) <=? global_idx
  then lfail "unknown global"
  else
    let+ g := or_stuck (imported_or_own (import_globals module) (globals module) global_idx) in
    lret (global_idx, g).

Definition prepare_get_global : L unit :=
  let+ p := lget l_p in
  let+ g := global_access in
  let global_type := g.2.1 in
  wasm_loader_push_frame_ref global_type ;+
  if (global_type =? VALUE_TYPE_I64) || (global_type =? VALUE_TYPE_F64)
  then poke (p - 1) (opcode_code WASM_OP_GET_GLOBAL_64) else lret tt.

Definition prepare_set_global : L unit :=
  let+ p := lget l_p in
  let+ g := global_access in
  let global_type := g.2.1 in
  if negb g.2.2 then lfail "global is immutable"
  else
    wasm_loader_pop_frame_ref global_type ;+
    if (global_type =? VALUE_TYPE_I64) || (global_type =? VALUE_TYPE_F64)
    then poke (p - 1) (opcode_code WASM_OP_SET_GLOBAL_64)
    else if (0 <? aux_stack_size module) && (g.1 =? aux_stack_top_global_index module)
    then poke (p - 1) (opcode_code WASM_OP_SET_GLOBAL_AUX_STACK)
    else lret tt.

Definition prepare_variable (op : WASMOpcode) : option (L unit) :=
  match op with
  | WASM_OP_DROP | WASM_OP_DROP_64 => Some prepare_drop
  | WASM_OP_SELECT | WASM_OP_SELECT_64 => Some prepare_select
  | WASM_OP_GET_LOCAL => Some (local_access EXT_OP_GET_LOCAL_FAST wasm_loader_push_frame_ref)
  | WASM_OP_SET_LOCAL => Some (local_access EXT_OP_SET_LOCAL_FAST wasm_loader_pop_frame_ref)
  | WASM_OP_TEE_LOCAL =>
      Some (local_access EXT_OP_TEE_LOCAL_FAST (fun t =>
              wasm_loader_pop_frame_ref t ;+ wasm_loader_push_frame_ref t))
  | WASM_OP_GET_GLOBAL => Some prepare_get_global
  | WASM_OP_SET_GLOBAL => Some prepare_set_global
  | _ => None
  end.

(** * Memory and constants *)

Definition POP_AND_PUSH (type_pop type_push : Z) : L unit :=
  wasm_loader_push_pop_frame_ref 1 type_push type_pop.
Definition POP2_AND_PUSH (type_pop type_push : Z) : L unit :=
  wasm_loader_push_pop_frame_ref 2 type_push type_pop.

(** The stack effect of the loads and the stores. *)
Definition memory_effect (op : WASMOpcode) : option (L unit) :=
  match op with
  | WASM_OP_I32_LOAD | WASM_OP_I32_LOAD8_S | WASM_OP_I32_LOAD8_U | WASM_OP_I32_LOAD16_S
  | WASM_OP_I32_LOAD16_U => Some (POP_AND_PUSH VALUE_TYPE_I32 VALUE_TYPE_I32)
  | WASM_OP_I64_LOAD | WASM_OP_I64_LOAD8_S | WASM_OP_I64_LOAD8_U | WASM_OP_I64_LOAD16_S
  | WASM_OP_I64_LOAD16_U | WASM_OP_I64_LOAD32_S | WASM_OP_I64_LOAD32_U =>
      Some (POP_AND_PUSH VALUE_TYPE_I32 VALUE_TYPE_I64)
  | WASM_OP_F32_LOAD => Some (POP_AND_PUSH VALUE_TYPE_I32 VALUE_TYPE_F32)
  | WASM_OP_F64_LOAD => Some (POP_AND_PUSH VALUE_TYPE_I32 VALUE_TYPE_F64)
  | WASM_OP_I32_STORE | WASM_OP_I32_STORE8 | WASM_OP_I32_STORE16 =>
      Some (wasm_loader_pop_frame_ref VALUE_TYPE_I32 ;+ wasm_loader_pop_frame_ref VALUE_TYPE_I32)
  | WASM_OP_I64_STORE | WASM_OP_I64_STORE8 | WASM_OP_I64_STORE16 | WASM_OP_I64_STORE32 =>
      Some (wasm_loader_pop_frame_ref VALUE_TYPE_I64 ;+ wasm_loader_pop_frame_ref VALUE_TYPE_I32)
  | WASM_OP_F32_STORE =>
      Some (wasm_loader_pop_frame_ref VALUE_TYPE_F32 ;+ wasm_loader_pop_frame_ref VALUE_TYPE_I32)
  | WASM_OP_F64_STORE =>
      Some (wasm_loader_pop_frame_ref VALUE_TYPE_F64 ;+ wasm_loader_pop_frame_ref VALUE_TYPE_I32)
  | _ => None
  end.

Definition prepare_access (op : WASMOpcode) : option (L unit) :=
  match memory_effect op with
  | Some effect =>
      Some (check_memory ;+
            let+ align := read_leb_uint32 in
            let+ mem_offset := read_leb_uint32 in
            check_memory_access_align op align ;+
            effect)
  | None => None
  end.

Definition zero_byte : L unit :=
  let+ b := read_uint8 in
  if negb (b =? 0x00) then lfail "zero byte expected" else lret tt.

Definition prepare_memory (op : WASMOpcode) : option (L unit) :=
  match op with
  | WASM_OP_MEMORY_SIZE =>
      Some (check_memory ;+ zero_byte ;+
            wasm_loader_push_frame_ref VALUE_TYPE_I32 ;+ note_possible_grow)
  | WASM_OP_MEMORY_GROW =>
      Some (check_memory ;+ zero_byte ;+
            POP_AND_PUSH VALUE_TYPE_I32 VALUE_TYPE_I32 ;+ note_grow ;+ note_possible_grow)
  | WASM_OP_I32_CONST =>
      Some (read_leb_int32 ;+ wasm_loader_push_frame_ref VALUE_TYPE_I32)
  | WASM_OP_I64_CONST =>
      Some (read_leb_int64 ;+ wasm_loader_push_frame_ref VALUE_TYPE_I64)
  | WASM_OP_F32_CONST => Some (move_p 4 ;+ wasm_loader_push_frame_ref VALUE_TYPE_F32)
  | WASM_OP_F64_CONST => Some (move_p 8 ;+ wasm_loader_push_frame_ref VALUE_TYPE_F64)
  | _ => None
  end.

(** * Comparisons, arithmetic and conversions *)

Definition prepare_comparison (op : WASMOpcode) : option (L unit) :=
  match op with
  | WASM_OP_I32_EQZ => Some (POP_AND_PUSH VALUE_TYPE_I32 VALUE_TYPE_I32)
  | WASM_OP_I32_EQ | WASM_OP_I32_NE | WASM_OP_I32_LT_S | WASM_OP_I32_LT_U | WASM_OP_I32_GT_S
  | WASM_OP_I32_GT_U | WASM_OP_I32_LE_S | WASM_OP_I32_LE_U | WASM_OP_I32_GE_S
  | WASM_OP_I32_GE_U => Some (POP2_AND_PUSH VALUE_TYPE_I32 VALUE_TYPE_I32)
  | WASM_OP_I64_EQZ => Some (POP_AND_PUSH VALUE_TYPE_I64 VALUE_TYPE_I32)
  | WASM_OP_I64_EQ | WASM_OP_I64_NE | WASM_OP_I64_LT_S | WASM_OP_I64_LT_U | WASM_OP_I64_GT_S
  | WASM_OP_I64_GT_U | WASM_OP_I64_LE_S | WASM_OP_I64_LE_U | WASM_OP_I64_GE_S
  | WASM_OP_I64_GE_U => Some (POP2_AND_PUSH VALUE_TYPE_I64 VALUE_TYPE_I32)
  | WASM_OP_F32_EQ | WASM_OP_F32_NE | WASM_OP_F32_LT | WASM_OP_F32_GT | WASM_OP_F32_LE
  | WASM_OP_F32_GE => Some (POP2_AND_PUSH VALUE_TYPE_F32 VALUE_TYPE_I32)
  | WASM_OP_F64_EQ | WASM_OP_F64_NE | WASM_OP_F64_LT | WASM_OP_F64_GT | WASM_OP_F64_LE
  | WASM_OP_F64_GE => Some (POP2_AND_PUSH VALUE_TYPE_F64 VALUE_TYPE_I32)
  | _ => None
  end.

Definition prepare_arithmetic (op : WASMOpcode) : option (L unit) :=
  match op with
  | WASM_OP_I32_CLZ | WASM_OP_I32_CTZ | WASM_OP_I32_POPCNT =>
      Some (POP_AND_PUSH VALUE_TYPE_I32 VALUE_TYPE_I32)
  | WASM_OP_I32_ADD | WASM_OP_I32_SUB | WASM_OP_I32_MUL | WASM_OP_I32_DIV_S | WASM_OP_I32_DIV_U
  | WASM_OP_I32_REM_S | WASM_OP_I32_REM_U | WASM_OP_I32_AND | WASM_OP_I32_OR | WASM_OP_I32_XOR
  | WASM_OP_I32_SHL | WASM_OP_I32_SHR_S | WASM_OP_I32_SHR_U | WASM_OP_I32_ROTL
  | WASM_OP_I32_ROTR => Some (POP2_AND_PUSH VALUE_TYPE_I32 VALUE_TYPE_I32)
  | WASM_OP_I64_CLZ | WASM_OP_I64_CTZ | WASM_OP_I64_POPCNT =>
      Some (POP_AND_PUSH VALUE_TYPE_I64 VALUE_TYPE_I64)
  | WASM_OP_I64_ADD | WASM_OP_I64_SUB | WASM_OP_I64_MUL | WASM_OP_I64_DIV_S | WASM_OP_I64_DIV_U
  | WASM_OP_I64_REM_S | WASM_OP_I64_REM_U | WASM_OP_I64_AND | WASM_OP_I64_OR | WASM_OP_I64_XOR
  | WASM_OP_I64_SHL | WASM_OP_I64_SHR_S | WASM_OP_I64_SHR_U | WASM_OP_I64_ROTL
  | WASM_OP_I64_ROTR => Some (POP2_AND_PUSH VALUE_TYPE_I64 VALUE_TYPE_I64)
  | WASM_OP_F32_ABS | WASM_OP_F32_NEG | WASM_OP_F32_CEIL | WASM_OP_F32_FLOOR | WASM_OP_F32_TRUNC
  | WASM_OP_F32_NEAREST | WASM_OP_F32_SQRT => Some (POP_AND_PUSH VALUE_TYPE_F32 VALUE_TYPE_F32)
  | WASM_OP_F32_ADD | WASM_OP_F32_SUB | WASM_OP_F32_MUL | WASM_OP_F32_DIV | WASM_OP_F32_MIN
  | WASM_OP_F32_MAX | WASM_OP_F32_COPYSIGN => Some (POP2_AND_PUSH VALUE_TYPE_F32 VALUE_TYPE_F32)
  | WASM_OP_F64_ABS | WASM_OP_F64_NEG | WASM_OP_F64_CEIL | WASM_OP_F64_FLOOR | WASM_OP_F64_TRUNC
  | WASM_OP_F64_NEAREST | WASM_OP_F64_SQRT => Some (POP_AND_PUSH VALUE_TYPE_F64 VALUE_TYPE_F64)
  | WASM_OP_F64_ADD | WASM_OP_F64_SUB | WASM_OP_F64_MUL | WASM_OP_F64_DIV | WASM_OP_F64_MIN
  | WASM_OP_F64_MAX | WASM_OP_F64_COPYSIGN => Some (POP2_AND_PUSH VALUE_TYPE_F64 VALUE_TYPE_F64)
  | _ => None
  end.

Definition prepare_conversion (op : WASMOpcode) : option (L unit) :=
  match op with
  | WASM_OP_I32_WRAP_I64 => Some (POP_AND_PUSH VALUE_TYPE_I64 VALUE_TYPE_I32)
  | WASM_OP_I32_TRUNC_S_F32 | WASM_OP_I32_TRUNC_U_F32 =>
      Some (POP_AND_PUSH VALUE_TYPE_F32 VALUE_TYPE_I32)
  | WASM_OP_I32_TRUNC_S_F64 | WASM_OP_I32_TRUNC_U_F64 =>
      Some (POP_AND_PUSH VALUE_TYPE_F64 VALUE_TYPE_I32)
  | WASM_OP_I64_EXTEND_S_I32 | WASM_OP_I64_EXTEND_U_I32 =>
      Some (POP_AND_PUSH VALUE_TYPE_I32 VALUE_TYPE_I64)
  | WASM_OP_I64_TRUNC_S_F32 | WASM_OP_I64_TRUNC_U_F32 =>
      Some (POP_AND_PUSH VALUE_TYPE_F32 VALUE_TYPE_I64)
  | WASM_OP_I64_TRUNC_S_F64 | WASM_OP_I64_TRUNC_U_F64 =>
      Some (POP_AND_PUSH VALUE_TYPE_F64 VALUE_TYPE_I64)
  | WASM_OP_F32_CONVERT_S_I32 | WASM_OP_F32_CONVERT_U_I32 =>
      Some (POP_AND_PUSH VALUE_TYPE_I32 VALUE_TYPE_F32)
  | WASM_OP_F32_CONVERT_S_I64 | WASM_OP_F32_CONVERT_U_I64 =>
      Some (POP_AND_PUSH VALUE_TYPE_I64 VALUE_TYPE_F32)
  | WASM_OP_F32_DEMOTE_F64 => Some (POP_AND_PUSH VALUE_TYPE_F64 VALUE_TYPE_F32)
  | WASM_OP_F64_CONVERT_S_I32 | WASM_OP_F64_CONVERT_U_I32 =>
      Some (POP_AND_PUSH VALUE_TYPE_I32 VALUE_TYPE_F64)
  | WASM_OP_F64_CONVERT_S_I64 | WASM_OP_F64_CONVERT_U_I64 =>
      Some (POP_AND_PUSH VALUE_TYPE_I64 VALUE_TYPE_F64)
  | WASM_OP_F64_PROMOTE_F32 => Some (POP_AND_PUSH VALUE_TYPE_F32 VALUE_TYPE_F64)
  | WASM_OP_I32_REINTERPRET_F32 => Some (POP_AND_PUSH VALUE_TYPE_F32 VALUE_TYPE_I32)
  | WASM_OP_I64_REINTERPRET_F64 => Some (POP_AND_PUSH VALUE_TYPE_F64 VALUE_TYPE_I64)
  | WASM_OP_F32_REINTERPRET_I32 => Some (POP_AND_PUSH VALUE_TYPE_I32 VALUE_TYPE_F32)
  | WASM_OP_F64_REINTERPRET_I64 => Some (POP_AND_PUSH VALUE_TYPE_I64 VALUE_TYPE_F64)
  | WASM_OP_I32_EXTEND8_S | WASM_OP_I32_EXTEND16_S =>
      Some (POP_AND_PUSH VALUE_TYPE_I32 VALUE_TYPE_I32)
  | WASM_OP_I64_EXTEND8_S | WASM_OP_I64_EXTEND16_S | WASM_OP_I64_EXTEND32_S =>
      Some (POP_AND_PUSH VALUE_TYPE_I64 VALUE_TYPE_I64)
  | _ => None
  end.

(** The second byte is an index of 32 bits; [%02x] prints it. *)
Definition hex_digit (d : Z) : string :=
  String (Ascii.ascii_of_nat (Z.to_nat (if d <? 10 then 48 + d else 87 + d))) "".
Fixpoint hex (digits : nat) (n : Z) : string :=
  match digits with
  | O => ""
  | S k => if n =? 0 then "" else hex k (n / 16) +:+ hex_digit (n mod 16)
  end.
Definition hex02 (n : Z) : string :=
  if n <? 16 then "0" +:+ hex_digit n else hex 8 n.

Definition misc_effect (op : WASMMiscEXTOpcode) : option (L unit) :=
  match op with
  | WASM_OP_I32_TRUNC_SAT_S_F32 | WASM_OP_I32_TRUNC_SAT_U_F32 =>
      Some (POP_AND_PUSH VALUE_TYPE_F32 VALUE_TYPE_I32)
  | WASM_OP_I32_TRUNC_SAT_S_F64 | WASM_OP_I32_TRUNC_SAT_U_F64 =>
      Some (POP_AND_PUSH VALUE_TYPE_F64 VALUE_TYPE_I32)
  | WASM_OP_I64_TRUNC_SAT_S_F32 | WASM_OP_I64_TRUNC_SAT_U_F32 =>
      Some (POP_AND_PUSH VALUE_TYPE_F32 VALUE_TYPE_I64)
  | WASM_OP_I64_TRUNC_SAT_S_F64 | WASM_OP_I64_TRUNC_SAT_U_F64 =>
      Some (POP_AND_PUSH VALUE_TYPE_F64 VALUE_TYPE_I64)
  | _ => None
  end.

Definition prepare_misc : L unit :=
  let+ opcode1 := read_leb_uint32 in
  match misc_of opcode1 ≫= misc_effect with
  | Some effect => effect
  | None => lfail ("unsupported opcode fc " +:+ hex02 opcode1)
  end.

(** * The loop *)

Definition prepare_op (op : WASMOpcode) : option (L unit) :=
  match prepare_control op with Some c => Some c | None =>
  match prepare_variable op with Some c => Some c | None =>
  match prepare_access op with Some c => Some c | None =>
  match prepare_memory op with Some c => Some c | None =>
  match prepare_comparison op with Some c => Some c | None =>
  match prepare_arithmetic op with Some c => Some c | None =>
  match prepare_conversion op with Some c => Some c | None =>
  match op with WASM_OP_MISC_PREFIX => Some prepare_misc | _ => None end
  end end end end end end end.

Definition prepare_turn : L unit :=
  let+ opcode := read_uint8 in
  match opcode_of opcode ≫= prepare_op with
  | Some c => c
  | None => lfail ("unsupported opcode " +:+ hex02 opcode)
  end.

(** [while (p < p_end)]: every turn reads a byte. *)
Fixpoint prepare_loop (fuel : nat) : L unit :=
  match fuel with
  | O => mstuck
  | S fuel =>
      let+ p := lget l_p in
      if p <? p_end then prepare_turn ;+ prepare_loop fuel else lret tt
  end.

Definition check_body : L unit :=
  mbind wasm_loader_ctx_init (fun o =>
    match o with Some _ => lret tt | None => lfail "allocate memory failed" end) ;+
  let+ p := lget l_p in
  wasm_loader_push_frame_csp LABEL_TYPE_FUNCTION (BlockFunc (f_type func)) p ;+
  prepare_loop (S (Z.to_nat (code_size func))) ;+
  let+ c := ctx in
  if 0 <? csp_num (csps c) then lfail "function body must end with END opcode"
  else note_maxima.

(** The label [fail] is reached on both ways. *)
Definition wasm_loader_prepare_bytecode : M loader bool :=
  modify (fun s => set_l_ctx None (set_l_p (code func) s)) ;;;
  let* o := check_body in
  wasm_loader_ctx_destroy ;;;
  mret (match o with Some _ => true | None => false end).

End validate.
