(* ===== verification/Typing.v ===== *)
(** What it means for the code of a function to be well typed: the instructions
    the bytes stand for, and the validation algorithm of the WebAssembly
    specification (its appendix) on them, with the dialect of it that the loader
    implements.

    The state of the algorithm is the stack of open blocks, innermost first, each
    with the operands pushed in it; an operand is a value type, or [None] for the
    type that unreachable code leaves open. *)
From stdpp Require Import base gmap list numbers strings.
From Stdlib Require Import Strings.Byte ZArith Lia.
From S2P Require Import Prelude CMemory Opcodes Leb FindBlock LoaderCtx Validate.

(** * Instructions *)

Inductive raw_block_type := RawValue (value_type : Z) | RawIndex (i : Z).

Inductive instr :=
| IUnreachable | INop
| IBlock (label : Z) (t : raw_block_type)     (* block, loop and if *)
| IElse | IEnd
| IBr (l : Z) | IBrIf (l : Z) | IBrTable (ls : list Z)
| IReturn
| ICall (f : Z) | ICallIndirect (t table : Z)
| IDrop | ISelect
| ILocalGet (x : Z) | ILocalSet (x : Z) | ILocalTee (x : Z)
| IGlobalGet (x : Z) | IGlobalSet (x : Z)
| IAccess (op align : Z)                      (* loads and stores *)
| IMemorySize (b : Z) | IMemoryGrow (b : Z)
| IConst (t : Z)
| INumeric (op : Z) | ITruncSat (op : Z).

(** * The bytes of an instruction *)

(** An immediate and the address after it. *)
Definition imm {A B} (r : option (A * Z)) (k : A → Z → option B) : option B :=
  match r with Some (a, q) => k a q | None => None end.

(** [n] integers. *)
Fixpoint decode_labels (n : nat) (m : mem) (e p : Z) : option (list Z * Z) :=
  match n with
  | O => Some ([], p)
  | S n => imm (loader_leb_uint32 m p e) (fun l p =>
             imm (decode_labels n m e p) (fun ls p => Some (l :: ls, p)))
  end.

Definition decode_block_type (m : mem) (e p : Z) : option (raw_block_type * Z) :=
  let b := load_Z m p 1 in
  if is_byte_a_type b then Some (RawValue b, p + 1)
  else imm (loader_leb_uint32 m p e) (fun i q => Some (RawIndex i, q)).

Definition index_instr (c : Z → instr) (m : mem) (e p : Z) : option (instr * Z) :=
  imm (loader_leb_uint32 m p e) (fun i q => Some (c i, q)).

(** A count of labels that the bytes cannot hold is not read. *)
Definition decode_br_table (m : mem) (e p : Z) : option (instr * Z) :=
  imm (loader_leb_uint32 m p e) (fun count p =>
    if e - p <? count then None
    else imm (decode_labels (S (Z.to_nat count)) m e p) (fun ls q => Some (IBrTable ls, q))).

Definition is_access (b : Z) : bool := (0x28 <=? b) && (b <=? 0x3e).
Definition is_numeric (b : Z) : bool := (0x45 <=? b) && (b <=? 0xc4).

(** The instruction of opcode [b], whose immediates are at [p]. *)
Definition decode_op (b : Z) (m : mem) (e p : Z) : option (instr * Z) :=
  if is_access b then
    imm (loader_leb_uint32 m p e) (fun align p =>
      imm (loader_leb_uint32 m p e) (fun _ q => Some (IAccess b align, q)))
  else if is_numeric b then Some (INumeric b, p)
  else match b with
  | 0x00 => Some (IUnreachable, p)
  | 0x01 => Some (INop, p)
  | 0x02 => imm (decode_block_type m e p) (fun t q => Some (IBlock LABEL_TYPE_BLOCK t, q))
  | 0x03 => imm (decode_block_type m e p) (fun t q => Some (IBlock LABEL_TYPE_LOOP t, q))
  | 0x04 => imm (decode_block_type m e p) (fun t q => Some (IBlock LABEL_TYPE_IF t, q))
  | 0x05 => Some (IElse, p)
  | 0x0b => Some (IEnd, p)
  | 0x0c => index_instr IBr m e p
  | 0x0d => index_instr IBrIf m e p
  | 0x0e => decode_br_table m e p
  | 0x0f => Some (IReturn, p)
  | 0x10 => index_instr ICall m e p
  | 0x11 => imm (loader_leb_uint32 m p e) (fun t p =>
              if check_buf p e 1 then Some (ICallIndirect t (load_Z m p 1), p + 1) else None)
  | 0x1a | 0xc5 => Some (IDrop, p)                      (* 0xc5, 0xc6: see [Dialects] *)
  | 0x1b | 0xc6 => Some (ISelect, p)
  | 0x20 => index_instr ILocalGet m e p
  | 0x21 => index_instr ILocalSet m e p
  | 0x22 => index_instr ILocalTee m e p
  | 0x23 => index_instr IGlobalGet m e p
  | 0x24 => index_instr IGlobalSet m e p
  | 0x3f => Some (IMemorySize (load_Z m p 1), p + 1)
  | 0x40 => Some (IMemoryGrow (load_Z m p 1), p + 1)
  | 0x41 => imm (loader_read_leb m p e 32 true) (fun _ q => Some (IConst VALUE_TYPE_I32, q))
  | 0x42 => imm (loader_read_leb m p e 64 true) (fun _ q => Some (IConst VALUE_TYPE_I64, q))
  | 0x43 => Some (IConst VALUE_TYPE_F32, p + 4)
  | 0x44 => Some (IConst VALUE_TYPE_F64, p + 8)
  | 0xfc => index_instr ITruncSat m e p
  | _ => None
  end.

Definition decode (m : mem) (e p : Z) : option (instr * Z) := decode_op (load_Z m p 1) m e (p + 1).

(** The instructions between two addresses. *)
Inductive decodes (m : mem) (e : Z) : Z → list instr → Z → Prop :=
| decodes_nil p : decodes m e p [] p
| decodes_cons p i q ins r :
    p < e → decode m e p = Some (i, q) → decodes m e q ins r → decodes m e p (i :: ins) r.

(** * Types of the instructions *)

(** By the ranges of the opcodes. *)
Definition between (a b x : Z) : bool := (a <=? x) && (x <=? b).

Definition numeric_type (b : Z) : option (list Z * Z) :=
  let i32 := VALUE_TYPE_I32 in let i64 := VALUE_TYPE_I64 in
  let f32 := VALUE_TYPE_F32 in let f64 := VALUE_TYPE_F64 in
  if b =? 0x45 then Some ([i32], i32)
  else if between 0x46 0x4f b then Some ([i32; i32], i32)
  else if b =? 0x50 then Some ([i64], i32)
  else if between 0x51 0x5a b then Some ([i64; i64], i32)
  else if between 0x5b 0x60 b then Some ([f32; f32], i32)
  else if between 0x61 0x66 b then Some ([f64; f64], i32)
  else if between 0x67 0x69 b then Some ([i32], i32)
  else if between 0x6a 0x78 b then Some ([i32; i32], i32)
  else if between 0x79 0x7b b then Some ([i64], i64)
  else if between 0x7c 0x8a b then Some ([i64; i64], i64)
  else if between 0x8b 0x91 b then Some ([f32], f32)
  else if between 0x92 0x98 b then Some ([f32; f32], f32)
  else if between 0x99 0x9f b then Some ([f64], f64)
  else if between 0xa0 0xa6 b then Some ([f64; f64], f64)
  else if between 0xc0 0xc1 b then Some ([i32], i32)
  else if between 0xc2 0xc4 b then Some ([i64], i64)
  else match b with
  | 0xa7 => Some ([i64], i32)
  | 0xa8 | 0xa9 => Some ([f32], i32)
  | 0xaa | 0xab => Some ([f64], i32)
  | 0xac | 0xad => Some ([i32], i64)
  | 0xae | 0xaf => Some ([f32], i64)
  | 0xb0 | 0xb1 => Some ([f64], i64)
  | 0xb2 | 0xb3 => Some ([i32], f32)
  | 0xb4 | 0xb5 => Some ([i64], f32)
  | 0xb6 => Some ([f64], f32)
  | 0xb7 | 0xb8 => Some ([i32], f64)
  | 0xb9 | 0xba => Some ([i64], f64)
  | 0xbb => Some ([f32], f64)
  | 0xbc => Some ([f32], i32)
  | 0xbd => Some ([f64], i64)
  | 0xbe => Some ([i32], f32)
  | 0xbf => Some ([i64], f64)
  | _ => None
  end.

Definition trunc_sat_type (op : Z) : option (Z * Z) :=
  if between 0 7 op
  then Some (if op mod 4 <? 2 then VALUE_TYPE_F32 else VALUE_TYPE_F64,
             if op <? 4 then VALUE_TYPE_I32 else VALUE_TYPE_I64)
  else None.

(** The type of the value a load or a store moves, and the binary logarithm of
    the number of bytes it takes in the memory. *)
Definition access_type (b : Z) : Z * Z :=
  match b with
  | 0x28 | 0x36 => (VALUE_TYPE_I32, 2)
  | 0x29 | 0x37 => (VALUE_TYPE_I64, 3)
  | 0x2a | 0x38 => (VALUE_TYPE_F32, 2)
  | 0x2b | 0x39 => (VALUE_TYPE_F64, 3)
  | 0x2c | 0x2d | 0x3a => (VALUE_TYPE_I32, 0)
  | 0x2e | 0x2f | 0x3b => (VALUE_TYPE_I32, 1)
  | 0x30 | 0x31 | 0x3c => (VALUE_TYPE_I64, 0)
  | 0x32 | 0x33 | 0x3d => (VALUE_TYPE_I64, 1)
  | _ => (VALUE_TYPE_I64, 2)
  end.
Definition is_store (b : Z) : bool := 0x36 <=? b.

(** * The state *)

Record control := mkControl {
  c_label : Z;
  c_type : BlockType;
  c_else : bool;                     (* [else] has been seen *)
  c_unreachable : bool;
  c_opds : list (option Z)           (* the last one pushed first *)
}.

Definition with_opds (os : list (option Z)) (f : control) : control :=
  mkControl (c_label f) (c_type f) (c_else f) (c_unreachable f) os.

Definition push (t : Z) (f : control) : control := with_opds (Some t :: c_opds f) f.
Definition pushes (ts : list Z) (f : control) : control :=
  with_opds (rev (Some <$> ts) ++ c_opds f) f.

Definition pop (t : Z) (f : control) : option control :=
  match c_opds f with
  | [] => if c_unreachable f then Some f else None
  | None :: os => Some (with_opds os f)
  | Some t' :: os => if t' =? t then Some (with_opds os f) else None
  end.
Fixpoint pop_rev (ts : list Z) (f : control) : option control :=
  match ts with
  | [] => Some f
  | t :: ts => pop t f ≫= pop_rev ts
  end.
Definition pops (ts : list Z) (f : control) : option control := pop_rev (rev ts) f.

Definition unreachable (f : control) : control :=
  mkControl (c_label f) (c_type f) (c_else f) true [].

Definition label_types (f : control) : list Z :=
  if c_label f =? LABEL_TYPE_LOOP then block_type_get_param_types (c_type f)
  else block_type_get_result_types (c_type f).

(** The operands of the innermost block. *)
Definition on_top (g : control → option control) (st : list control) : option (list control) :=
  match st with
  | [] => None
  | f :: fs => match g f with Some f => Some (f :: fs) | None => None end
  end.

(** * Dialects

    The loader departs from the specification.  In two rules it lets more code
    pass: an [if] may have several [else], and the targets of [br_table] must have
    the same result types, those of a loop counting as none, where the
    specification wants the same number of label types.  [Lenient] is the
    specification without these two rules, which do not matter to safety.

    In two rules it lets less code pass: [drop] and [select] refuse an operand of
    open type, and the end of a block makes the code of the enclosing block
    reachable, even if it was not; where it holds the code for reachable, a branch
    and the end of a block refuse an operand of open type too.

    (The loader also takes the opcodes 0xc5 and 0xc6, which are its own names for
    [drop] and [select] of two cells, for [drop] and [select].) *)

Inductive dialect := Standard | Lenient | Loader.

Definition may_else (d : dialect) (f : control) : bool :=
  match d with Standard => negb (c_else f) | _ => true end.

(** Whether a target agrees with the first one. *)
Definition table_agrees (d : dialect) (first f : control) : bool :=
  match d with
  | Standard => (length (label_types first) =? length (label_types f))%nat
  | Lenient => true
  | Loader =>
      let results f := if c_label f =? LABEL_TYPE_LOOP then []
                       else block_type_get_result_types (c_type f) in
      bool_decide (results first = results f)
  end.

Definition drop_opd (d : dialect) (f : control) : option control :=
  match c_opds f with
  | [] => if c_unreachable f then Some f else None
  | None :: os => match d with Loader => None | _ => Some (with_opds os f) end
  | Some _ :: os => Some (with_opds os f)
  end.

Definition select_opds (d : dialect) (f : control) : option control :=
  match pop VALUE_TYPE_I32 f with
  | None => None
  | Some f =>
      match c_opds f with
      | [] => if c_unreachable f then Some (with_opds [None] f) else None
      | None :: os =>
          match d, os with
          | Loader, _ => None
          | _, [] => Some (with_opds [None] f)
          | _, o :: os => Some (with_opds (o :: os) f)
          end
      | Some t :: os =>
          match pop t (with_opds os f) with Some f => Some (push t f) | None => None end
      end
  end.

(** Operands of exactly these types. *)
Definition pop_exact (t : Z) (f : control) : option control :=
  match c_opds f with
  | Some t' :: os => if t' =? t then Some (with_opds os f) else None
  | _ => None
  end.
Fixpoint exact_rev (ts : list Z) (f : control) : option control :=
  match ts with
  | [] => Some f
  | t :: ts => pop_exact t f ≫= exact_rev ts
  end.

(** The operands of a branch and of the end of a block. *)
Definition takes (d : dialect) (ts : list Z) (f : control) : option control :=
  match d with
  | Loader => if c_unreachable f then pops ts f else exact_rev (rev ts) f
  | _ => pops ts f
  end.

(** They are all that is left. *)
Definition leaves (d : dialect) (ts : list Z) (f : control) : option control :=
  match takes d ts f with
  | Some f' => match c_opds f' with [] => Some f' | _ => None end
  | None => None
  end.

Definition set_unreachable (u : bool) (f : control) : control :=
  mkControl (c_label f) (c_type f) (c_else f) u (c_opds f).

(** The enclosing block after the end of a block. *)
Definition resumed (d : dialect) (f : control) : control :=
  match d with Loader => set_unreachable false f | _ => f end.

(** * The algorithm *)

Section typing.
Context (d : dialect) (module : module_info) (func : func_info).

Definition block_type_of (r : raw_block_type) : option BlockType :=
  match r with
  | RawValue v => Some (BlockValue v)
  | RawIndex i => BlockFunc <$> index (m_types module) i
  end.

Definition local_type_of (x : Z) : option Z :=
  index (param_types (f_type func) ++ local_types func) x.
Definition global_of (x : Z) : option (Z * bool) :=
  index (import_globals module ++ globals module) x.
Definition function_of (x : Z) : option func_type :=
  index (import_functions module ++ functions module) x.
Definition has_memory : bool := negb ((memory_count module =? 0) && (import_memory_count module =? 0)).
Definition has_table (x : Z) : bool := (x =? 0) && (0 <? import_table_count module + table_count module).

(** A branch to label [l] as long as the label exists and its operands are there. *)
Definition branch_opds (st : list control) (l : Z) (f : control) : option control :=
  match index st l with
  | Some target => match takes d (label_types target) f with
                   | Some f => Some (pushes (label_types target) f)
                   | None => None
                   end
  | None => None
  end.

Fixpoint table_opds (st : list control) (first : control) (ls : list Z) (f : control) :
    option control :=
  match ls with
  | [] => Some f
  | l :: ls =>
      match index st l with
      | Some target =>
          match branch_opds st l f with
          | Some f => if table_agrees d first target then table_opds st first ls f else None
          | None => None
          end
      | None => None
      end
  end.

Definition call_opds (t : func_type) (f : control) : option control :=
  match pops (param_types t) f with Some f => Some (pushes (result_types t) f) | None => None end.

(** Without an [else] the parameters of an [if] must be its results. *)
Definition end_block (f : control) (fs : list control) : option (list control) :=
  match leaves d (block_type_get_result_types (c_type f)) f with
  | Some _ =>
      if (c_label f =? LABEL_TYPE_IF) && negb (c_else f) && negb (else_not_needed (c_type f)) then None
      else match fs with
           | [] => Some []
           | g :: gs => Some (resumed d (pushes (block_type_get_result_types (c_type f)) g) :: gs)
           end
  | None => None
  end.

Definition else_block (f : control) : option control :=
  if (c_label f =? LABEL_TYPE_IF) && may_else d f then
    match leaves d (block_type_get_result_types (c_type f)) f with
    | Some _ =>
        Some (pushes (block_type_get_param_types (c_type f))
                (mkControl (c_label f) (c_type f) true false []))
    | None => None
    end
  else None.

Definition enter_block (label : Z) (t : BlockType) (st : list control) : option (list control) :=
  match on_top (fun f =>
          (if label =? LABEL_TYPE_IF then pop VALUE_TYPE_I32 f else Some f)
            ≫= pops (block_type_get_param_types t)) st with
  | Some st =>
      Some (pushes (block_type_get_param_types t) (mkControl label t false false []) :: st)
  | None => None
  end.

Definition type_instr (i : instr) (st : list control) : option (list control) :=
  match i with
  | IUnreachable => on_top (fun f => Some (unreachable f)) st
  | INop => on_top Some st
  | IBlock label r =>
      match block_type_of r with Some t => enter_block label t st | None => None end
  | IElse => on_top else_block st
  | IEnd => match st with f :: fs => end_block f fs | [] => None end
  | IBr l => on_top (fun f => unreachable <$> branch_opds st l f) st
  | IBrIf l => on_top (fun f => pop VALUE_TYPE_I32 f ≫= branch_opds st l) st
  | IBrTable ls =>
      match hd_error ls ≫= index st with
      | Some first => on_top (fun f => unreachable <$> (pop VALUE_TYPE_I32 f ≫= table_opds st first ls)) st
      | None => None
      end
  | IReturn => on_top (fun f => unreachable <$> pops (result_types (f_type func)) f) st
  | ICall x => match function_of x with Some t => on_top (call_opds t) st | None => None end
  | ICallIndirect x table =>
      if has_table table then
        match index (m_types module) x with
        | Some t => on_top (fun f => pop VALUE_TYPE_I32 f ≫= call_opds t) st
        | None => None
        end
      else None
  | IDrop => on_top (drop_opd d) st
  | ISelect => on_top (select_opds d) st
  | ILocalGet x => match local_type_of x with Some t => on_top (fun f => Some (push t f)) st | None => None end
  | ILocalSet x => match local_type_of x with Some t => on_top (pop t) st | None => None end
  | ILocalTee x =>
      match local_type_of x with Some t => on_top (fun f => push t <$> pop t f) st | None => None end
  | IGlobalGet x => match global_of x with Some g => on_top (fun f => Some (push g.1 f)) st | None => None end
  | IGlobalSet x =>
      match global_of x with
      | Some g => if g.2 then on_top (pop g.1) st else None
      | None => None
      end
  | IAccess op align =>
      let '(t, natural) := access_type op in
      if has_memory && (align <=? natural) then
        on_top (fun f => if is_store op then pop t f ≫= pop VALUE_TYPE_I32
                         else push t <$> pop VALUE_TYPE_I32 f) st
      else None
  | IMemorySize b => if has_memory && (b =? 0) then on_top (fun f => Some (push VALUE_TYPE_I32 f)) st else None
  | IMemoryGrow b =>
      if has_memory && (b =? 0) then on_top (fun f => push VALUE_TYPE_I32 <$> pop VALUE_TYPE_I32 f) st
      else None
  | IConst t => on_top (fun f => Some (push t f)) st
  | INumeric op =>
      match numeric_type op with
      | Some (ts, t) => on_top (fun f => push t <$> pops ts f) st
      | None => None
      end
  | ITruncSat op =>
      match trunc_sat_type op with
      | Some (t, t') => on_top (fun f => push t' <$> pop t f) st
      | None => None
      end
  end.

(** The states an instruction sequence goes through. *)
Fixpoint type_seq (ins : list instr) (st : list control) : option (list control) :=
  match ins with
  | [] => Some st
  | i :: ins => match type_instr i st with Some st => type_seq ins st | None => None end
  end.

Definition entry_state : list control :=
  [mkControl LABEL_TYPE_FUNCTION (BlockFunc (f_type func)) false false []].

(** The code from [p] to [q] is a function body of the type of the function. *)
Definition well_typed (ins : list instr) : Prop := type_seq ins entry_state = Some [].

End typing.
