(* ===== verification/Wp.v ===== *)
(** Reasoning about the routines of the loader that can fail: what holds when a
    routine succeeds and when it fails, and the invariant that ties the context of
    the loader to the state of the validation algorithm of [Typing]. *)
From stdpp Require Import base gmap list numbers strings.
From Stdlib Require Import Strings.Byte ZArith Lia.
From S2P Require Import Prelude CMemory WasmTypes Opcodes FindBlock LoaderCtx Validate Typing.

(** * Success and failure *)

Definition wp {S A} (c : M S (option A)) (Q : A → S → Prop) (F : S → Prop) (s : S) : Prop :=
  match c s with
  | Ok (Some a) s => Q a s
  | Ok None s => F s
  | _ => False
  end.

Lemma wp_bind {S A B} (c : M S (option A)) (k : A → M S (option B)) Q F s :
  wp c (fun a => wp (k a) Q F) F s → wp (lbind c k) Q F s.
Proof. unfold wp, lbind, mbind. by destruct (c s) as [[a|] s'| |]. Qed.

Lemma wp_bind_assoc {S A B C} (c : M S (option A)) (k : A → M S (option B)) (j : B → M S (option C)) Q F s :
  wp (lbind (lbind c k) j) Q F s → wp (lbind c (fun a => lbind (k a) j)) Q F s.
Proof. unfold wp, lbind, mbind. by destruct (c s) as [[a|] s'| |]. Qed.

Lemma wp_mono {S A} (c : M S (option A)) Q Q' (F F' : S → Prop) s :
  wp c Q F s → (∀ a s, Q a s → Q' a s) → (∀ s, F s → F' s) → wp c Q' F' s.
Proof. unfold wp. destruct (c s) as [[a|] s'| |]; auto. Qed.

Lemma wp_ret {S A} (a : A) (Q : A → S → Prop) F s : Q a s → wp (lret a) Q F s.
Proof. done. Qed.

Lemma wp_get {A} (f : loader → A) (Q : A → loader → Prop) F s : Q (f s) s → wp (lget f) Q F s.
Proof. done. Qed.

Lemma wp_mod f (Q : unit → loader → Prop) F s : Q tt (f s) → wp (lmod f) Q F s.
Proof. done. Qed.

Definition failed_with (msg : string) (s : loader) : loader :=
  set_l_error (Some ("WASM module load failed: " +:+ msg)) s.

Lemma wp_fail {A} msg (Q : A → loader → Prop) (F : loader → Prop) s :
  F (failed_with msg s) → wp (lfail msg) Q F s.
Proof. done. Qed.

Lemma wp_ctx (Q : WASMLoaderContext → loader → Prop) F s c :
  l_ctx s = Some c → Q c s → wp ctx Q F s.
Proof. unfold wp, ctx. by intros ->. Qed.

Lemma wp_put_refs r (Q : unit → loader → Prop) F s c :
  l_ctx s = Some c → Q tt (set_l_ctx (Some (mkCtx r (csps c) (ctx_block c))) s) → wp (put_refs r) Q F s.
Proof. unfold wp, put_refs. by intros ->. Qed.

Lemma wp_put_csps k (Q : unit → loader → Prop) F s c :
  l_ctx s = Some c → Q tt (set_l_ctx (Some (mkCtx (refs c) k (ctx_block c))) s) → wp (put_csps k) Q F s.
Proof. unfold wp, put_csps. by intros ->. Qed.

Lemma wp_at {A} (l : list A) i a (Q : A → loader → Prop) F s :
  index l i = Some a → Q a s → wp (at_index l i) Q F s.
Proof. unfold wp, at_index. by intros ->. Qed.

Lemma wp_ref_at i t (Q : Z → loader → Prop) F s c :
  l_ctx s = Some c → index (frame_ref_bottom (refs c)) i = Some t → Q t s → wp (ref_at i) Q F s.
Proof. intros Hc Hi HQ. apply wp_bind. eapply wp_ctx; [done|]. by eapply wp_at. Qed.

Lemma wp_csp_at i b (Q : BranchBlock → loader → Prop) F s c :
  l_ctx s = Some c → index (frame_csp_bottom (csps c)) i = Some b → Q b s → wp (csp_at i) Q F s.
Proof. intros Hc Hi HQ. apply wp_bind. eapply wp_ctx; [done|]. by eapply wp_at. Qed.

(** * Lists *)

Lemma zlen_nonneg {A} (l : list A) : 0 <= zlen l.
Proof. unfold zlen. lia. Qed.

Lemma zlen_app {A} (l k : list A) : zlen (l ++ k) = zlen l + zlen k.
Proof. unfold zlen. rewrite length_app. lia. Qed.

Lemma zlen_cons {A} (a : A) l : zlen (a :: l) = zlen l + 1.
Proof. unfold zlen. simpl. lia. Qed.

Lemma zlen_snoc {A} (a : A) l : zlen (l ++ [a]) = zlen l + 1.
Proof. by rewrite zlen_app. Qed.

Lemma zlen_replicate {A} n (a : A) : zlen (replicate n a) = Z.of_nat n.
Proof. unfold zlen. by rewrite length_replicate. Qed.

Lemma index_cons {A} (a : A) l i : index (a :: l) i = if i =? 0 then Some a else index l (i - 1).
Proof. done. Qed.

Lemma index_lookup {A} (l : list A) : ∀ i, index l i = if i <? 0 then None else l !! Z.to_nat i.
Proof.
  induction l as [|a l IH]; intros i; cbn [index]; [by destruct (i <? 0)|]. rewrite IH.
  destruct (Z.eqb_spec i 0) as [->|]; [done|].
  destruct (Z.ltb_spec i 0), (Z.ltb_spec (i - 1) 0); try done; try lia.
  replace (Z.to_nat i) with (S (Z.to_nat (i - 1))) by lia. done.
Qed.

Lemma index_app_r {A} (l k : list A) i : zlen l <= i → index (l ++ k) i = index k (i - zlen l).
Proof.
  rewrite ?index_lookup. unfold zlen. intros Hi. rewrite (proj2 (Z.ltb_ge i 0)), (proj2 (Z.ltb_ge _ 0)) by lia.
  rewrite lookup_app_r by lia. f_equal. lia.
Qed.

Lemma index_app_l {A} (l k : list A) i : i < zlen l → index (l ++ k) i = index l i.
Proof.
  rewrite ?index_lookup. unfold zlen. intros Hi. destruct (Z.ltb_spec i 0); [done|]. rewrite lookup_app_l by lia. done.
Qed.

Lemma index_some {A} (l : list A) i : 0 <= i < zlen l → is_Some (index l i).
Proof.
  rewrite ?index_lookup. unfold zlen. intros Hi. rewrite (proj2 (Z.ltb_ge i 0)) by lia.
  apply lookup_lt_is_Some. lia.
Qed.

Lemma index_none {A} (l : list A) i : zlen l <= i → index l i = None.
Proof.
  rewrite ?index_lookup. unfold zlen. intros Hi. destruct (i <? 0); [done|]. apply lookup_ge_None. lia.
Qed.

Lemma index_range {A} (l : list A) i a : index l i = Some a → 0 <= i < zlen l.
Proof.
  rewrite ?index_lookup. unfold zlen. destruct (Z.ltb_spec i 0); [done|]. intros Hl%lookup_lt_Some. lia.
Qed.

(** A buffer of which the first elements are in use. *)
Definition used {A} (l bottom : list A) : Prop := ∃ rest, bottom = l ++ rest.

Lemma used_index {A} (l bottom : list A) i : used l bottom → i < zlen l → index bottom i = index l i.
Proof. intros [rest ->]. apply index_app_l. Qed.

Lemma used_app {A} (l k bottom : list A) : used (l ++ k) bottom → used l bottom.
Proof. intros [rest ->]. exists (k ++ rest). by rewrite app_assoc. Qed.

Lemma used_more {A} (l bottom more : list A) : used l bottom → used l (bottom ++ more).
Proof. intros [rest ->]. exists (rest ++ more). by rewrite app_assoc. Qed.

Lemma used_push {A} (l bottom : list A) a :
  used l bottom → zlen l < zlen bottom →
  used (l ++ [a]) (<[Z.to_nat (zlen l) := a]> bottom).
Proof.
  intros [rest ->] Hl. rewrite zlen_app in Hl. unfold zlen in *. rewrite Nat2Z.id.
  destruct rest as [|b rest]; [simpl in Hl; lia|]. exists rest.
  rewrite insert_app_r_alt, Nat.sub_diag by lia. simpl. by rewrite <- app_assoc.
Qed.

Lemma used_set_last {A} (l bottom : list A) a b :
  used (l ++ [a]) bottom → used (l ++ [b]) (<[Z.to_nat (zlen l) := b]> bottom).
Proof.
  intros [rest ->]. exists rest. unfold zlen. rewrite Nat2Z.id, <- !app_assoc.
  rewrite insert_app_r_alt, Nat.sub_diag by lia. done.
Qed.

Lemma used_set_above {A} (l bottom : list A) i b :
  used l bottom → zlen l <= i → used l (<[Z.to_nat i := b]> bottom).
Proof.
  intros [rest ->] Hi. unfold zlen in Hi. eexists. rewrite insert_app_r_alt by lia. done.
Qed.

Lemma zlen_insert {A} (l : list A) i a : zlen (<[i := a]> l) = zlen l.
Proof. unfold zlen. by rewrite length_insert. Qed.

Lemma index_in {A} (l : list A) i a : index l i = Some a → a ∈ l.
Proof. rewrite index_lookup. destruct (i <? 0); [done|]. apply list_elem_of_lookup_2. Qed.
