(* ===== verification/LoaderInv.v ===== *)
(** The invariant of the loader's context: the buffers hold the cells of the
    operands and the open blocks of the validation state, and the heap holds the
    three blocks of the context besides what it held before.  The routines of
    [LoaderCtx] keep it and do on the context what [Typing] does on the state. *)
From stdpp Require Import base gmap list numbers strings.
From Stdlib Require Import Strings.Byte ZArith Lia.
From S2P Require Import Prelude CMemory WasmTypes Opcodes FindBlock LoaderCtx Validate Typing Wp.

(** A heap that never grants more than a gigabyte at once. *)
Class BoundedPool `{ScratchPool} : Prop := grants_bound h n a : grants h n = Some a → n <= 2 ^ 30.

(** * The invariant *)

(** The operands as cells. *)
Definition opd_code (o : option Z) : Z := default VALUE_TYPE_ANY o.
Definition cells_of (o : option Z) : list Z :=
  match o with
  | Some t => replicate (Z.to_nat (wasm_value_type_cell_num t)) t
  | None => [VALUE_TYPE_ANY]
  end.

Fixpoint opd_cells (os : list (option Z)) : list Z :=
  match os with [] => [] | o :: os => opd_cells os ++ cells_of o end.

Fixpoint stack_cells (st : list control) : list Z :=
  match st with [] => [] | f :: fs => stack_cells fs ++ opd_cells (c_opds f) end.

Record refs_ok (r : ref_stack) (cells : list Z) : Prop := {
  ro_top : frame_ref r = zlen cells;
  ro_num : stack_cell_num r = zlen cells;
  ro_used : used cells (frame_ref_bottom r);
  ro_boundary : frame_ref_boundary r = zlen (frame_ref_bottom r);
  ro_size : frame_ref_size r = zlen (frame_ref_bottom r);
  ro_bound : zlen (frame_ref_bottom r) <= 2 ^ 30
}.

Record block_ok (b : BranchBlock) (f : control) (below : Z) : Prop := {
  bo_label : label_type b = c_label f;
  bo_type : block_type b = c_type f;
  bo_else : (else_addr b =? NULL) = negb (c_else f);
  bo_below : b_stack_cell_num b = below;
  bo_poly : is_stack_polymorphic b = c_unreachable f
}.

Fixpoint blocks_ok (bs : list BranchBlock) (st : list control) : Prop :=
  match bs, st with
  | [], [] => True
  | b :: bs, f :: fs => block_ok b f (zlen (stack_cells fs)) ∧ blocks_ok bs fs
  | _, _ => False
  end.

Definition csps_ok (k : csp_stack) (st : list control) : Prop :=
  ∃ bs, used (rev bs) (frame_csp_bottom k) ∧ blocks_ok bs st
    ∧ frame_csp k = zlen st ∧ csp_num k = zlen st
    ∧ frame_csp_boundary k = zlen (frame_csp_bottom k)
    ∧ frame_csp_size k = BRANCH_BLOCK_SIZE * zlen (frame_csp_bottom k)
    ∧ frame_csp_size k <= 2 ^ 30.

(** The heap is [h0] and the blocks [l]. *)
Record owns (h0 h : scratch) (l : list nat) : Prop := {
  ow_nodup : NoDup l;
  ow_mine i : i ∈ l → (i < next_block h)%nat ∧ live h0 !! i = None;
  ow_rest i : i ∉ l → live h !! i = live h0 !! i;
  ow_old i : is_Some (live h0 !! i) → (i < next_block h)%nat;
  ow_extents i : is_Some (live h0 !! i) → extents h !! i = extents h0 !! i
}.

Definition ctx_blocks (c : WASMLoaderContext) : list nat :=
  [ref_block (refs c); csp_block (csps c); ctx_block c].

Record ctx_ok (h0 : scratch) (s : loader) (c : WASMLoaderContext)
    (cells : list Z) (st : list control) : Prop := {
  ok_ctx : l_ctx s = Some c;
  ok_refs : refs_ok (refs c) cells;
  ok_csps : csps_ok (csps c) st;
  ok_owns : owns h0 (l_heap s) (ctx_blocks c)
}.

Definition types_wf (ts : list Z) : Prop := Forall (fun t => is_value_type t = true) ts.

Definition opd_wf (o : option Z) : Prop :=
  match o with Some t => is_value_type t = true | None => True end.

Record control_wf (f : control) : Prop := {
  cw_params : types_wf (block_type_get_param_types (c_type f));
  cw_results : types_wf (block_type_get_result_types (c_type f));
  cw_cells : wasm_get_cell_num (block_type_get_result_types (c_type f)) < 2 ^ 31;
  cw_opds : Forall opd_wf (c_opds f)
}.

Record noted (c : WASMLoaderContext) (cells : list Z) (st : list control) : Prop := {
  no_cells : zlen cells <= max_stack_cell_num (refs c);
  no_blocks : zlen st <= max_csp_num (csps c)
}.

Definition inv h0 (s : loader) (st : list control) : Prop :=
  Forall control_wf st ∧ ∃ c, ctx_ok h0 s c (stack_cells st) st ∧ noted c (stack_cells st) st.

Definition max_cells (s : loader) : Z :=
  match l_ctx s with Some c => max_stack_cell_num (refs c) | None => 0 end.
Definition max_blocks (s : loader) : Z :=
  match l_ctx s with Some c => max_csp_num (csps c) | None => 0 end.

(** The code and the position in it stay, the maxima do not sink. *)
Record kept (s s' : loader) : Prop := {
  ke_mem : l_mem s' = l_mem s;
  ke_p : l_p s' = l_p s;
  ke_cells : max_cells s <= max_cells s';
  ke_blocks : max_blocks s <= max_blocks s'
}.

(** After a failure the blocks of the context are still there to be freed, and
    the message is that of a request the heap refused, unless the code is wrong. *)
Definition lost h0 (s : loader) : Prop :=
  ∃ c, l_ctx s = Some c ∧ owns h0 (l_heap s) (ctx_blocks c).
Definition oom_msg : option string := Some "WASM module load failed: allocate memory failed"%string.
Definition refused h0 (wrong : Prop) (s : loader) : Prop := lost h0 s ∧ (l_error s = oom_msg ∨ wrong).

Lemma lkept_refl s : kept s s.
Proof. by constructor. Qed.
Lemma lkept_trans s1 s2 s3 : kept s1 s2 → kept s2 s3 → kept s1 s3.
Proof. intros [??] [??]. constructor; try congruence; etrans; eauto. Qed.

Lemma lost_of h0 s c cells st : ctx_ok h0 s c cells st → lost h0 s.
Proof. intros [Hc _ _ Ho]. by exists c. Qed.

Lemma lost_failed h0 s msg : lost h0 s → lost h0 (failed_with msg s).
Proof. done. Qed.

Lemma refused_wrong h0 (P : Prop) s msg : lost h0 s → P → refused h0 P (failed_with msg s).
Proof. intros Hl HP. split; [done|by right]. Qed.

#[export] Hint Resolve lkept_refl lost_of lost_failed : mig.

(** * Value types *)

Lemma value_type_cases t : is_value_type t = true →
  t = VALUE_TYPE_I32 ∨ t = VALUE_TYPE_I64 ∨ t = VALUE_TYPE_F32 ∨ t = VALUE_TYPE_F64.
Proof. unfold is_value_type. rewrite !orb_true_iff, !Z.eqb_eq. tauto. Qed.

(** Case analysis on a value type. *)
Ltac vtype H := apply value_type_cases in H as [->|[->|[->| ->]]].

Lemma cells_pos o : opd_wf o → 1 <= zlen (cells_of o) <= 2.
Proof. destruct o as [t|]; [|done]. simpl. intros H. by vtype H. Qed.

Lemma zlen_cells_of t : is_value_type t = true → zlen (cells_of (Some t)) = wasm_value_type_cell_num t.
Proof. intros H. by vtype H. Qed.

Lemma opd_cells_pushes ts os :
  opd_cells (rev (Some <$> ts) ++ os) = opd_cells os ++ (ts ≫= fun t => cells_of (Some t)).
Proof.
  revert os. induction ts as [|t ts IH]; intros os; [by rewrite app_nil_r|].
  rewrite fmap_cons. simpl rev. rewrite <- app_assoc. simpl app. rewrite IH.
  cbn [opd_cells]. by rewrite <- app_assoc.
Qed.

(** * The heap *)

(** The blocks of [h0] and no others. *)
Record same_heap (h0 h : scratch) : Prop := {
  sh_live : live h = live h0;
  sh_old i : is_Some (live h0 !! i) → (i < next_block h)%nat;
  sh_extents i : is_Some (live h0 !! i) → extents h !! i = extents h0 !! i
}.

Lemma owns_perm h0 h l l' : l ≡ₚ l' → owns h0 h l → owns h0 h l'.
Proof.
  intros Hp [H1 H2 H3 H4 H5]. constructor; [by rewrite <- Hp| | |done|done];
    intros i Hi; [apply H2|apply H3]; by rewrite Hp.
Qed.

Lemma owns_malloc h0 h l x r :
  owns h0 h l →
  owns h0 (mkScratch (S (next_block h)) (<[next_block h := x]> (live h)) (<[next_block h := r]> (extents h)))
    (next_block h :: l).
Proof.
  intros [H1 H2 H3 H4 H5]. constructor; cbn [next_block live extents].
  - constructor; [|done]. intros Hi. apply H2 in Hi. lia.
  - intros i Hi. apply elem_of_cons in Hi as [->|Hi]; [|apply H2 in Hi; intuition lia].
    split; [lia|]. apply eq_None_not_Some. intros Hs%H4. lia.
  - intros i Hi. apply not_elem_of_cons in Hi as [Hn Hi]. rewrite lookup_insert_ne by done. by apply H3.
  - intros i Hs%H4. lia.
  - intros i Hs. pose proof (H4 i Hs). rewrite lookup_insert_ne by lia. by apply H5.
Qed.

Lemma owns_bump h0 h l : owns h0 h l → owns h0 (mkScratch (S (next_block h)) (live h) (extents h)) l.
Proof.
  intros [H1 H2 H3 H4 H5]. constructor; cbn [next_block live extents]; try done.
  - intros i Hi%H2. intuition lia.
  - intros i Hs%H4. lia.
Qed.

Lemma owns_info h0 h l i x :
  i ∈ l → owns h0 h l → owns h0 (mkScratch (next_block h) (<[i := x]> (live h)) (extents h)) l.
Proof.
  intros Hi [H1 H2 H3 H4 H5]. constructor; cbn [next_block live extents]; try done.
  intros j Hj. rewrite lookup_insert_ne by (intros ->; done). by apply H3.
Qed.

Lemma owns_free h0 h l i :
  owns h0 h (i :: l) → owns h0 (mkScratch (next_block h) (delete i (live h)) (extents h)) l.
Proof.
  intros [H1 H2 H3 H4 H5]. apply NoDup_cons in H1 as [Hn H1]. constructor; cbn [next_block live extents]; try done.
  - intros j Hj. apply H2. by apply elem_of_cons; right.
  - intros j Hj. destruct (decide (j = i)) as [->|Hij].
    + rewrite lookup_delete_eq. symmetry. apply H2, elem_of_cons. by left.
    + rewrite lookup_delete_ne by done. apply H3. apply not_elem_of_cons. done.
Qed.

Lemma owns_nil h0 h : owns h0 h [] → same_heap h0 h.
Proof. intros [_ _ H3 H4 H5]. constructor; [|done|done]. apply map_eq. intros i. apply H3. apply not_elem_of_nil. Qed.

(** * Requests *)

Section ops.
Context `{BoundedPool} (h0 : scratch).

Lemma wp_loader_malloc s c n (P : Prop) Q :
  l_ctx s = Some c → owns h0 (l_heap s) (ctx_blocks c) → n < 2 ^ 32 - 1 →
  (∀ id s', n <= 2 ^ 30 → l_ctx s' = Some c → kept s s' → owns h0 (l_heap s') (id :: ctx_blocks c) →
     Q id s') →
  wp (loader_malloc n) Q (refused h0 P) s.
Proof.
  intros Hc Ho Hn HQ. unfold loader_malloc. rewrite (proj2 (Z.leb_gt _ _)) by done.
  unfold wp, mbind, wasm_runtime_malloc. destruct (grants _ _) as [a|] eqn:Eg; cbn.
  - apply HQ; [by eapply grants_bound|done|by constructor|by apply owns_malloc].
  - split; [|by left]. exists c. split; [done|]. by apply owns_bump.
Qed.

Lemma wp_memory_realloc s c old rest n (P : Prop) Q :
  l_ctx s = Some c → owns h0 (l_heap s) (ctx_blocks c) → ctx_blocks c ≡ₚ old :: rest → n < 2 ^ 32 - 1 →
  (∀ id s', n <= 2 ^ 30 → l_ctx s' = Some c → kept s s' → owns h0 (l_heap s') (id :: rest) → Q id s') →
  wp (memory_realloc old n) Q (refused h0 P) s.
Proof.
  intros Hc Ho Hp Hn HQ. apply wp_bind. eapply wp_loader_malloc; [done..|].
  intros id s' Hb Hc' [K1 K2 K3 K4] Ho'. do 2 (apply wp_bind, wp_mod). apply wp_ret.
  apply HQ; [done|done|by constructor|]. cbn -[ctx_blocks].
  apply (owns_free h0 (mkScratch _ _ _) _ old). eapply (owns_perm _ _ (id :: ctx_blocks c)).
  - rewrite Hp. apply perm_swap.
  - apply owns_info; [apply elem_of_cons; by left|done].
Qed.

(** * The operand stack *)

Lemma wp_check_stack_push s c cells st (P : Prop) Q :
  ctx_ok h0 s c cells st →
  (∀ s' c', ctx_ok h0 s' c' cells st → kept s s' →
     max_stack_cell_num (refs c') = max_stack_cell_num (refs c) → csps c' = csps c →
     zlen cells < zlen (frame_ref_bottom (refs c')) → Q tt s') →
  wp check_stack_push Q (refused h0 P) s.
Proof.
  intros [Hc Hr Hk Ho] HQ. pose proof Hr as [R1 R2 R3 R4 R5 R6].
  apply wp_bind. eapply wp_ctx; [done|]. cbv zeta. rewrite R4, R1, R2, R5.
  assert (zlen cells <= zlen (frame_ref_bottom (refs c))).
  { destruct R3 as [rest ->]. rewrite zlen_app. pose proof (zlen_nonneg rest). lia. }
  pose proof (zlen_nonneg cells). destruct (Z.leb_spec (zlen (frame_ref_bottom (refs c))) (zlen cells)).
  - assert (uint32 (zlen (frame_ref_bottom (refs c)) + 16) = zlen (frame_ref_bottom (refs c)) + 16) as Eu
      by (apply wrap_small; lia).
    rewrite Eu. apply wp_bind.
    eapply (wp_memory_realloc _ _ _ [csp_block (csps c); ctx_block c]); [done|done|done|lia|].
    intros id s' Hb Hc' K Ho'. eapply wp_put_refs; [done|].
    replace (zlen _ + 16 - zlen _) with 16 by lia.
    eapply (HQ _ (mkCtx (mkRefs _ _ _ _ _ _ _) _ _)); cbn; try done.
    + split; cbn; [done| |done|done]. constructor; cbn; try done;
        rewrite ?zlen_app; try (by apply used_more); change (zlen (replicate _ _)) with 16; lia.
    + destruct K as [K1 K2 K3 K4]. constructor; cbn; try done.
      * unfold max_cells. by rewrite Hc.
      * unfold max_blocks. by rewrite Hc.
    + rewrite zlen_app. change (zlen (replicate _ _)) with 16. lia.
  - apply wp_ret. eapply HQ; [by constructor|apply lkept_refl|done..].
Qed.

Lemma wp_push_cell s c cells st t F Q :
  ctx_ok h0 s c cells st → zlen cells < zlen (frame_ref_bottom (refs c)) →
  (∀ s' c', ctx_ok h0 s' c' (cells ++ [t]) st → kept s s' →
     max_stack_cell_num (refs c') = max_stack_cell_num (refs c) → csps c' = csps c → Q tt s') →
  wp (push_cell t) Q F s.
Proof.
  intros [Hc Hr Hk Ho] Hl HQ. pose proof Hr as [R1 R2 R3 R4 R5 R6]. pose proof (zlen_nonneg cells).
  apply wp_bind. eapply wp_ctx; [done|]. cbv zeta. rewrite R1.
  destruct (index_some (frame_ref_bottom (refs c)) (zlen cells)) as [x ->]; [lia|].
  eapply wp_put_refs; [done|]. eapply (HQ _ (mkCtx (mkRefs _ _ _ _ _ _ _) _ _)); cbn; try done.
  - split; cbn; [done| |done|done]. assert (zlen (cells ++ [t]) = zlen cells + 1) as E by by rewrite zlen_app.
    constructor; cbn; rewrite ?E, ?zlen_insert; try done; [|by apply used_push].
    rewrite R2. apply wrap_small. lia.
  - constructor; cbn; try done; unfold max_cells, max_blocks; rewrite Hc; cbn; lia.
Qed.

Lemma wp_note_max s c cells st F Q :
  ctx_ok h0 s c cells st →
  (∀ s' c', ctx_ok h0 s' c' cells st → kept s s' →
     zlen cells <= max_stack_cell_num (refs c') → csps c' = csps c → Q tt s') →
  wp note_max Q F s.
Proof.
  intros Hok HQ. pose proof Hok as [Hc Hr Hk Ho]. pose proof Hr as [R1 R2 R3 R4 R5 R6].
  apply wp_bind. eapply wp_ctx; [done|]. cbv zeta.
  destruct (Z.ltb_spec (max_stack_cell_num (refs c)) (stack_cell_num (refs c))).
  - eapply wp_put_refs; [done|]. eapply (HQ _ (mkCtx (mkRefs _ _ _ _ _ _ _) _ _)); cbn; try done.
    + constructor; cbn; try done; unfold max_cells, max_blocks; rewrite Hc; cbn; lia.
    + lia.
  - apply wp_ret. eapply HQ; [exact Hok|apply lkept_refl|lia|done].
Qed.

(** A value, or an operand of open type. *)
Lemma wp_push_opd s c cells st o (P : Prop) Q :
  ctx_ok h0 s c cells st → opd_wf o →
  (∀ s' c', ctx_ok h0 s' c' (cells ++ cells_of o) st → kept s s' →
     zlen (cells ++ cells_of o) <= max_stack_cell_num (refs c') → csps c' = csps c → Q tt s') →
  wp (wasm_loader_push_frame_ref (opd_code o)) Q (refused h0 P) s.
Proof.
  intros Hok Ho HQ. unfold wasm_loader_push_frame_ref.
  assert ((opd_code o =? VALUE_TYPE_VOID) = false) as ->.
  { destruct o as [t|]; [|done]. simpl in Ho. by vtype Ho. }
  apply wp_bind. eapply wp_check_stack_push; [done|]. intros s1 c1 H1 K1 M1 E1 L1.
  apply wp_bind. eapply wp_push_cell; [done..|]. intros s2 c2 H2 K2 M2 E2.
  assert (is_32bit_type (opd_code o) || (opd_code o =? VALUE_TYPE_ANY) = true ∧ cells_of o = [opd_code o]
    ∨ is_32bit_type (opd_code o) || (opd_code o =? VALUE_TYPE_ANY) = false
      ∧ cells_of o = [opd_code o] ++ [opd_code o]) as [[-> Ec]|[-> Ec]].
  { destruct o as [t|]; [|by left]. simpl in Ho. vtype Ho; auto. }
  - eapply wp_note_max; [done|]. intros s3 c3 H3 K3 M3 E3. rewrite Ec in HQ.
    eapply HQ; [done| |done|congruence]. eauto using lkept_trans.
  - apply wp_bind. eapply wp_check_stack_push; [done|]. intros s3 c3 H3 K3 M3 E3 L3.
    apply wp_bind. eapply wp_push_cell; [done..|]. intros s4 c4 H4 K4 M4 E4.
    eapply wp_note_max; [done|]. intros s5 c5 H5 K5 M5 E5. rewrite Ec, app_assoc in HQ.
    eapply HQ; [done| |done|congruence]. eauto 6 using lkept_trans.
Qed.

(** The last cells of a stack of operands. *)
Lemma last_cell os o : opd_wf o →
  index (opd_cells (o :: os)) (zlen (opd_cells (o :: os)) - 1) = Some (opd_code o).
Proof.
  intros Ho. cbn [opd_cells]. rewrite zlen_app.
  pose proof (zlen_nonneg (opd_cells os)). rewrite index_app_r.
  - replace (_ + _ - 1 - _) with (zlen (cells_of o) - 1) by lia.
    destruct o as [t|]; [simpl in Ho; by vtype Ho|done].
  - pose proof (cells_pos o Ho). lia.
Qed.

Lemma opd_cells_pos os o : opd_wf o → 1 <= zlen (opd_cells (o :: os)).
Proof.
  intros Ho. cbn [opd_cells]. rewrite zlen_app. pose proof (zlen_nonneg (opd_cells os)).
  pose proof (cells_pos o Ho). lia.
Qed.

Lemma wp_top_values s c cells st lo os rest t (P : Prop) Q :
  ctx_ok h0 s c cells st → cells = lo ++ opd_cells os ++ rest → Forall opd_wf os →
  is_value_type t = true →
  (hd_error os = Some (Some t) → Q tt s) → (hd_error os ≠ Some (Some t) → P) →
  wp (check_stack_top_values (zlen (lo ++ opd_cells os)) (zlen (opd_cells os)) t) Q (refused h0 P) s.
Proof.
  intros [Hc Hr Hk Ho] Hcells Hos Ht HQ HP. pose proof (ro_used _ _ Hr) as Hu.
  rewrite Hcells, app_assoc in Hu. apply used_app in Hu.
  assert (∀ i, 0 <= i < zlen (opd_cells os) →
    index (frame_ref_bottom (refs c)) (zlen (lo ++ opd_cells os) - 1 - i)
    = index (opd_cells os) (zlen (opd_cells os) - 1 - i)) as Hix.
  { intros i Hi. rewrite (used_index _ _ _ Hu) by lia. pose proof (zlen_nonneg lo).
    rewrite index_app_r; rewrite zlen_app; [f_equal|]; lia. }
  assert (∀ msg, hd_error os ≠ Some (Some t) → refused h0 P (failed_with msg s)) as Hbad.
  { intros msg Hn. apply refused_wrong; [|by apply HP]. exists c. done. }
  unfold check_stack_top_values. destruct os as [|o os].
  { change (zlen (opd_cells [])) with 0. replace (_ || _) with true by (by vtype Ht).
    apply wp_fail, Hbad. done. }
  apply Forall_cons in Hos as [Hwf Hos]. pose proof (opd_cells_pos os o Hwf) as Hpos.
  pose proof (last_cell os o Hwf) as Hlast.
  rewrite (proj2 (Z.ltb_ge _ 1)), andb_false_r by done. cbn [orb].
  assert (index (frame_ref_bottom (refs c)) (zlen (lo ++ opd_cells (o :: os)) - 1) = Some (opd_code o)) as Htop.
  { rewrite <- Hlast, <- (Z.sub_0_r (_ - 1)), Hix by lia. f_equal. lia. }
  assert (opd_code o ≠ t → hd_error (o :: os) ≠ Some (Some t)) as Hnot by (intros Hn [= ->]; done).
  assert (o = Some t ∨ opd_code o ≠ t) as Hot.
  { destruct o as [t'|]; [simpl; destruct (decide (t' = t)) as [->|]; auto|]. right. by vtype Ht. }
  destruct (is_32bit_type t) eqn:E32; [|destruct (is_64bit_type t) eqn:E64].
  - replace (is_64bit_type t) with false by (by vtype Ht). cbn [andb].
    do 2 apply wp_bind. eapply wp_ref_at; [done..|]. apply wp_ret.
    destruct Hot as [->|Hne]; [rewrite Z.eqb_refl; by apply HQ|].
    rewrite (proj2 (Z.eqb_neq _ _)) by done. apply wp_fail, Hbad, Hnot. done.
  - cbn [andb]. destruct Hot as [->|Hne].
    + assert (opd_cells (Some t :: os) = opd_cells os ++ [t; t]) as E by (by vtype Ht).
      pose proof (zlen_nonneg (opd_cells os)) as Hn0.
      assert (zlen (opd_cells (Some t :: os)) = zlen (opd_cells os) + 2) as E2 by (by rewrite E, zlen_app).
      rewrite (proj2 (Z.ltb_ge _ 2)) by lia. do 2 apply wp_bind. eapply (wp_ref_at _ t); [done| |].
      { replace (_ - 2) with (zlen (lo ++ opd_cells (Some t :: os)) - 1 - 1) by lia.
        rewrite Hix by lia. rewrite E, index_app_r; rewrite ?zlen_app; change (zlen [t; t]) with 2; [|lia].
        by replace (_ - _) with 0 by lia. }
      rewrite Z.eqb_refl. cbn [negb]. apply wp_bind. eapply wp_ref_at; [done..|]. apply wp_ret.
      cbn [opd_code default]. rewrite Z.eqb_refl. by apply HQ.
    + destruct (Z.ltb_spec (zlen (opd_cells (o :: os))) 2); [by apply wp_fail, Hbad, Hnot|].
      destruct (index_some (frame_ref_bottom (refs c)) (zlen (lo ++ opd_cells (o :: os)) - 2)) as [t2 E2].
      { destruct Hu as [r ->]. pose proof (zlen_nonneg r). pose proof (zlen_nonneg lo).
        pose proof (zlen_app (lo ++ opd_cells (o :: os)) r). pose proof (zlen_app lo (opd_cells (o :: os))). lia. }
      do 2 apply wp_bind. eapply wp_ref_at; [done..|].
      assert (∀ b : bool, b = true → wp (if b then lfail ("type mismatch: expect " +:+ type2str t +:+ " but got other")
        else lret tt) Q (refused h0 P) s) as Hfin.
      { intros b ->. cbv iota. by apply wp_fail, Hbad, Hnot. }
      destruct (negb (t2 =? t)); [exact (Hfin true eq_refl)|].
      apply wp_bind. eapply wp_ref_at; [done..|]. apply wp_ret. refine (Hfin _ _).
      by rewrite (proj2 (Z.eqb_neq _ _) Hne).
  - by vtype Ht.
Qed.

(** * The block stack *)

Lemma blocks_ok_length bs st : blocks_ok bs st → zlen bs = zlen st.
Proof.
  revert st. induction bs as [|b bs IH]; intros [|f fs] Hb; try done.
  destruct Hb as [_ Hb]. rewrite !zlen_cons. by rewrite (IH fs).
Qed.

Lemma blocks_ok_index bs st l f : blocks_ok bs st → index st l = Some f →
  ∃ b below, index (rev bs) (zlen st - 1 - l) = Some b ∧ block_ok b f below.
Proof.
  revert st l. induction bs as [|b bs IH]; intros [|g fs] l Hb Hi; try done;
    try (by apply index_range in Hi; unfold zlen in Hi; simpl in Hi; lia).
  destruct Hb as [Hb Hbs]. pose proof (index_range _ _ _ Hi) as Hr. rewrite zlen_cons in *. simpl rev.
  pose proof (blocks_ok_length _ _ Hbs) as Hl.
  assert (zlen (rev bs) = zlen fs) as Hl' by (rewrite <- Hl; unfold zlen; by rewrite length_rev).
  destruct (decide (l = 0)) as [->|Hl0].
  - assert (f = g) as -> by (cbn in Hi; congruence).
    exists b, (zlen (stack_cells fs)). split; [|done]. rewrite index_app_r by lia.
    by replace (_ - _) with 0 by lia.
  - assert (index fs (l - 1) = Some f) as Hi'.
    { rewrite index_cons, (proj2 (Z.eqb_neq l 0)) in Hi by lia. exact Hi. }
    destruct (IH fs (l - 1) Hbs Hi') as (b'&below&Hx&Hy). exists b', below. split; [|done].
    rewrite index_app_l by lia. rewrite <- Hx. f_equal. lia.
Qed.

Lemma wp_cur_block s c cells f fs F Q :
  ctx_ok h0 s c cells (f :: fs) → (∀ b, block_ok b f (zlen (stack_cells fs)) → Q b s) →
  wp cur_block Q F s.
Proof.
  intros [Hc Hr (bs&Hu&Hb&E1&E2&E3&E4&E5) Ho] HQ. destruct bs as [|b bs]; [done|].
  destruct Hb as [Hb Hbs]. apply wp_bind. eapply wp_ctx; [done|].
  eapply (wp_csp_at _ b); [done| |by apply HQ]. rewrite E1, zlen_cons.
  rewrite (used_index _ _ _ Hu).
  - pose proof (blocks_ok_length _ _ Hbs). simpl rev.
    assert (zlen (rev bs) = zlen fs) as Hl by (unfold zlen in *; rewrite length_rev; lia).
    rewrite index_app_r by lia. by replace (_ - _) with 0 by lia.
  - pose proof (blocks_ok_length _ _ Hbs). simpl rev. rewrite zlen_app.
    unfold zlen in *. rewrite length_rev. simpl. lia.
Qed.

(** The operands of the innermost block do not matter to the block stack. *)
Lemma csps_ok_opds k f f' fs :
  c_label f' = c_label f → c_type f' = c_type f → c_else f' = c_else f →
  c_unreachable f' = c_unreachable f → csps_ok k (f :: fs) → csps_ok k (f' :: fs).
Proof.
  intros E1 E2 E3 E4 (bs&Hu&Hb&H1&H2&H3). exists bs. rewrite !zlen_cons in *. split_and!; try done; try apply H3.
  destruct bs as [|b bs]; [done|]. destruct Hb as [[B1 B2 B3 B4 B5] Hb]. split; [|done].
  constructor; congruence.
Qed.

(** * Operands *)

Lemma used_le {A} (l bottom : list A) : used l bottom → zlen l <= zlen bottom.
Proof. intros [r ->]. rewrite zlen_app. pose proof (zlen_nonneg r). lia. Qed.

Lemma available s c f fs b :
  ctx_ok h0 s c (stack_cells (f :: fs)) (f :: fs) → block_ok b f (zlen (stack_cells fs)) →
  int32 (stack_cell_num (refs c) - b_stack_cell_num b) = zlen (opd_cells (c_opds f)).
Proof.
  intros [_ Hr _ _] Hb. rewrite (ro_num _ _ Hr), (bo_below _ _ _ Hb).
  pose proof (used_le _ _ (ro_used _ _ Hr)) as Hle. pose proof (ro_bound _ _ Hr).
  cbn [stack_cells] in *. rewrite zlen_app in *.
  pose proof (zlen_nonneg (stack_cells fs)). pose proof (zlen_nonneg (opd_cells (c_opds f))).
  replace (_ + _ - _) with (zlen (opd_cells (c_opds f))) by lia. apply swrap_small; lia.
Qed.

Lemma wp_drop_cells s c cells k n st F Q :
  ctx_ok h0 s c (cells ++ k) st → zlen k = n →
  (∀ s' c', ctx_ok h0 s' c' cells st → kept s s' → csps c' = csps c →
     max_stack_cell_num (refs c') = max_stack_cell_num (refs c) →
     frame_ref_bottom (refs c') = frame_ref_bottom (refs c) → Q tt s') →
  wp (drop_cells n) Q F s.
Proof.
  intros [Hc [R1 R2 R3 R4 R5 R6] Hk Ho] Hn HQ. apply wp_bind. eapply wp_ctx; [done|]. cbv zeta.
  eapply wp_put_refs; [done|]. eapply (HQ _ (mkCtx (mkRefs _ _ _ _ _ _ _) _ _)); cbn; try done.
  - pose proof (used_le _ _ R3). rewrite zlen_app in *. pose proof (zlen_nonneg cells).
    pose proof (zlen_nonneg k). split; cbn; [done| |done|done].
    constructor; cbn; try done; [lia| |by eapply used_app].
    rewrite R2. replace (_ - n) with (zlen cells) by lia. apply wrap_small. lia.
  - constructor; cbn; try done; unfold max_cells, max_blocks; rewrite Hc; cbn; lia.
Qed.

Definition same_block (f f' : control) : Prop :=
  c_label f' = c_label f ∧ c_type f' = c_type f ∧ c_else f' = c_else f
  ∧ c_unreachable f' = c_unreachable f.

(** The operands of the innermost block are replaced. *)
Lemma inv_opds s c f f' fs :
  same_block f f' → Forall control_wf (f :: fs) → Forall opd_wf (c_opds f') →
  ctx_ok h0 s c (stack_cells (f' :: fs)) (f :: fs) → noted c (stack_cells (f' :: fs)) (f :: fs) →
  inv h0 s (f' :: fs).
Proof.
  intros (E1&E2&E3&E4) Hwf Hos [Hc Hr Hk Ho] [N1 N2]. split.
  - apply Forall_cons in Hwf as [[W1 W2 W3 W4] Hwf]. constructor; [|done].
    constructor; rewrite ?E2, ?E4; done.
  - exists c. split; [|by constructor]. constructor; [done..| |done]. by eapply csps_ok_opds.
Qed.

Lemma inv_wf s st : inv h0 s st → Forall control_wf st.
Proof. by intros [? _]. Qed.

Lemma inv_opds_wf s f fs : inv h0 s (f :: fs) → Forall opd_wf (c_opds f).
Proof.
  intros [Hwf _]. by apply Forall_cons in Hwf as [[_ _ _ W] _].
Qed.

Lemma wp_push_any s f fs o (P : Prop) Q :
  inv h0 s (f :: fs) → opd_wf o →
  (∀ s', inv h0 s' (with_opds (o :: c_opds f) f :: fs) → kept s s' → Q tt s') →
  wp (wasm_loader_push_frame_ref (opd_code o)) Q (refused h0 P) s.
Proof.
  intros [Hwf (c&Hok&[N1 N2])] Ho HQ. eapply wp_push_opd; [exact Hok|done|].
  intros s' c' Hok' K M E. apply HQ; [|done].
  assert (stack_cells (f :: fs) ++ cells_of o = stack_cells (with_opds (o :: c_opds f) f :: fs)) as Es
    by (simpl; by rewrite <- app_assoc).
  rewrite Es in *. eapply (inv_opds _ _ f); try done.
  - apply Forall_cons in Hwf as [[_ _ _ W] _]. by constructor.
  - constructor; [done|]. by rewrite E.
Qed.

Lemma wp_push s f fs t (P : Prop) Q :
  inv h0 s (f :: fs) → is_value_type t = true →
  (∀ s', inv h0 s' (push t f :: fs) → kept s s' → Q tt s') →
  wp (wasm_loader_push_frame_ref t) Q (refused h0 P) s.
Proof. intros Hi Ht HQ. by eapply (wp_push_any _ _ _ (Some t)). Qed.

Lemma check_stack_pop_ok s f fs t (P : Prop) Q :
  inv h0 s (f :: fs) → is_value_type t = true →
  (∀ o os, c_opds f = o :: os → o = None ∨ o = Some t → Q tt s) →
  ((∀ o os, c_opds f = o :: os → ¬ (o = None ∨ o = Some t)) → P) →
  wp (check_stack_pop t) Q (refused h0 P) s.
Proof.
  intros Hi Ht HQ HP. pose proof (inv_opds_wf _ _ _ Hi) as Hos. destruct Hi as [Hwf (c&Hok&[N1 N2])].
  pose proof Hok as [Hc Hr Hk Ho].
  apply wp_bind. eapply wp_ctx; [done|]. apply wp_bind. eapply wp_cur_block; [done|]. intros b Hb.
  cbv zeta. rewrite (available _ _ _ _ _ Hok Hb), (ro_top _ _ Hr).
  assert (∀ any : bool, any = false → (∀ os, c_opds f ≠ None :: os) →
    wp (if any then lret tt else check_stack_top_values (zlen (stack_cells (f :: fs)))
          (zlen (opd_cells (c_opds f))) t) Q (refused h0 P) s) as Hval.
  { intros any -> Hn. cbn [stack_cells].
    apply (wp_top_values s c (stack_cells (f :: fs)) (f :: fs) (stack_cells fs) (c_opds f) []); try done.
    - cbn [stack_cells]. by rewrite app_nil_r.
    - destruct (c_opds f) as [|o os] eqn:Ef; [done|]. intros [= ->]. eapply HQ; [done|by right].
    - intros Hne. apply HP. intros o os Ef [->| ->]; [by eapply Hn|]. by rewrite Ef in Hne. }
  destruct (c_opds f) as [|o os] eqn:Ef.
  { change (zlen (opd_cells [])) with 0. apply wp_bind, wp_ret. apply (Hval false); done. }
  apply Forall_cons in Hos as [Hwo Hos]. pose proof (opd_cells_pos os o Hwo).
  rewrite (proj2 (Z.ltb_lt 0 _)) by lia. apply wp_bind, wp_bind. eapply (wp_ref_at _ (opd_code o)); [done| |].
  - rewrite (used_index _ _ _ (ro_used _ _ Hr)) by lia. rewrite <- (last_cell os o Hwo).
    cbn [stack_cells]. rewrite Ef, zlen_app. pose proof (zlen_nonneg (stack_cells fs)).
    rewrite index_app_r by lia. f_equal. lia.
  - apply wp_ret. destruct o as [t'|].
    + assert ((t' =? VALUE_TYPE_ANY) = false) as E by (simpl in Hwo; by vtype Hwo).
      change (opd_code (Some t')) with t'. rewrite E. apply (Hval false); [done|]. by intros ? [=].
    + apply wp_ret. eapply HQ; [done|by left].
Qed.

Lemma wp_pop s f fs t (P : Prop) Q :
  inv h0 s (f :: fs) → is_value_type t = true →
  (∀ f' s', pop t f = Some f' → inv h0 s' (f' :: fs) → kept s s' → Q tt s') →
  (pop t f = None → P) →
  wp (wasm_loader_pop_frame_ref t) Q (refused h0 P) s.
Proof.
  intros Hi Ht HQ HP. pose proof (inv_opds_wf _ _ _ Hi) as Hos. pose proof Hi as [Hwf (c&Hok&[N1 N2])].
  pose proof Hok as [Hc Hr Hk Ho].
  apply wp_bind. eapply wp_ctx; [done|]. apply wp_bind. eapply wp_cur_block; [done|]. intros b Hb.
  cbv zeta. rewrite (available _ _ _ _ _ Hok Hb), (bo_poly _ _ _ Hb).
  replace (t =? VALUE_TYPE_VOID) with false by (by vtype Ht). unfold pop in HQ, HP.
  destruct (c_opds f) as [|o os] eqn:Ef.
  { change (zlen (opd_cells [])) with 0. cbn [Z.leb]. change (0 <=? 0) with true. cbn [andb].
    destruct (c_unreachable f); [by eapply wp_ret, HQ|]. apply wp_bind.
    eapply check_stack_pop_ok; [done..| |]; [intros o os E; by rewrite Ef in E|intros _; by apply HP]. }
  apply Forall_cons in Hos as [Hwo Hos]. pose proof (opd_cells_pos os o Hwo).
  rewrite (proj2 (Z.leb_gt _ 0)) by lia. cbn [andb]. apply wp_bind.
  eapply check_stack_pop_ok; [done..| |].
  2:{ intros Hn. apply HP. destruct o as [t'|]; [|exfalso; eapply Hn; [done|by left]].
      destruct (Z.eqb_spec t' t) as [->|]; [|done]. exfalso. eapply Hn; [done|by right]. }
  intros o' os' Ef' Hot. rewrite Ef in Ef'. injection Ef' as <- <-. apply wp_bind.
  assert (∃ k, cells_of o = k ++ [opd_code o] ∧ (k = [] ∨ k = [t] ∧ is_32bit_type t = false ∧ o = Some t)
    ∧ (is_32bit_type t = false → k = [] → o = None)) as (k&Ek&Hkk&Hkn).
  { destruct Hot as [->| ->]; [exists []; split_and!; auto|]. vtype Ht; [exists []|exists [VALUE_TYPE_I64]
      |exists []|exists [VALUE_TYPE_F64]]; split_and!; auto; done. }
  assert (stack_cells (f :: fs) = (stack_cells fs ++ opd_cells os ++ k) ++ [opd_code o]) as Es
    by (cbn [stack_cells]; rewrite Ef; cbn [opd_cells]; by rewrite Ek, !app_assoc).
  rewrite Es in Hok. eapply wp_drop_cells; [exact Hok|done|]. intros s1 c1 Hok1 K1 E1 M1 B1.
  assert (∀ s' c', ctx_ok h0 s' c' (stack_cells (with_opds os f :: fs)) (f :: fs) → kept s s' →
    max_stack_cell_num (refs c') = max_stack_cell_num (refs c) → csps c' = csps c → Q tt s') as Hfin.
  { intros s' c' Hok' K' M' E'. eapply (HQ (with_opds os f)); [|eapply (inv_opds _ _ f); try done|done].
    - destruct Hot as [->| ->]; [done|]. by rewrite Z.eqb_refl.
    - constructor; rewrite ?M', ?E'; [|done]. rewrite Es, !zlen_app in N1. cbn [stack_cells with_opds c_opds].
      rewrite zlen_app. pose proof (zlen_nonneg k). pose proof (zlen_nonneg [opd_code o]). lia. }
  destruct (is_32bit_type t) eqn:E32.
  - destruct Hkk as [->|(_&?&_)]; [|done]. rewrite app_nil_r in Hok1. eapply wp_ret, Hfin; done.
  - pose proof Hok1 as [Hc1 Hr1 _ _]. apply wp_bind. eapply wp_ctx; [done|]. apply wp_bind.
    eapply (wp_ref_at _ (opd_code o)); [done| |].
    { rewrite B1, (ro_top _ _ Hr1). destruct Hok as [_ Hr' _ _].
      rewrite (used_index _ _ _ (ro_used _ _ Hr')) by (rewrite zlen_snoc; lia).
      rewrite index_app_r by lia. by rewrite Z.sub_diag. }
    destruct Hkk as [->|(->&_&->)].
    + rewrite Hkn by done. rewrite app_nil_r in Hok1. eapply wp_ret, Hfin; done.
    + replace (opd_code (Some t) =? VALUE_TYPE_ANY) with false by (by vtype Ht).
      rewrite app_assoc in Hok1. eapply wp_drop_cells; [exact Hok1|done|].
      intros s2 c2 Hok2 K2 E2 M2 _. eapply Hfin; [done|by eapply lkept_trans|congruence..].
Qed.

End ops.
