(* ===== verification/LoaderOps.v ===== *)
(** The routines of the loader on whole blocks: sequences of operands, the opening
    and closing of blocks, the checks at a branch and at the end of a block. *)
From stdpp Require Import base gmap list numbers strings.
From Stdlib Require Import Strings.Byte ZArith Lia.
From S2P Require Import Prelude CMemory WasmTypes Opcodes FindBlock LoaderCtx Validate Typing Wp.
From S2P Require Import LoaderInv.

(** * Facts about the validation state *)

Lemma pushes_cons t ts f : pushes (t :: ts) f = pushes ts (push t f).
Proof. unfold pushes, push, with_opds. cbn. by rewrite <- app_assoc. Qed.

Lemma pop_same t f f' : pop t f = Some f' → same_block f f'.
Proof.
  unfold pop. destruct (c_opds f) as [|[t'|] os].
  - destruct (c_unreachable f); by intros [= <-].
  - destruct (t' =? t); by intros [= <-].
  - by intros [= <-].
Qed.

Lemma same_block_trans f g h : same_block f g → same_block g h → same_block f h.
Proof. unfold same_block. intuition congruence. Qed.

Lemma pop_rev_same ts : ∀ f f', pop_rev ts f = Some f' → same_block f f'.
Proof.
  induction ts as [|t ts IH]; intros f f'; [by intros [= <-]|]. cbn [pop_rev].
  destruct (pop t f) as [g|] eqn:E; [|done]. intros H. eapply same_block_trans; [by eapply pop_same|by apply IH].
Qed.

(** Operands of exactly these types are brought back by a push. *)
Lemma exact_rev_push ts : ∀ f f', exact_rev ts f = Some f' →
  pushes (rev ts) f' = f ∧ (Forall opd_wf (c_opds f) → Forall opd_wf (c_opds f')).
Proof.
  induction ts as [|t ts IH]; intros f f'.
  { intros [= <-]. split; [|done]. by destruct f. }
  cbn [exact_rev]. unfold pop_exact. destruct (c_opds f) as [|[t'|] os] eqn:Ef; [done| |done].
  destruct (Z.eqb_spec t' t) as [->|]; [|done]. intros H.
  destruct (IH (with_opds os f) f' H) as [E Hf']. split.
  - destruct f as [l bt e u os']. cbn in Ef. subst os'. destruct f' as [l' bt' e' u' os''].
    unfold pushes, with_opds in *. cbn in *. injection E as -> -> -> -> <-.
    by rewrite fmap_app, rev_app_distr.
  - intros Hos. apply Forall_cons in Hos as [_ Hos]. by apply Hf'.
Qed.

Lemma zlen_pushed ts os : types_wf ts →
  zlen (opd_cells (rev (Some <$> ts) ++ os)) = zlen (opd_cells os) + wasm_get_cell_num ts.
Proof.
  intros Hts. rewrite opd_cells_pushes, zlen_app. f_equal.
  induction Hts as [|t ts Ht Hts IH]; [done|]. cbn [mbind wasm_get_cell_num].
  change ((t :: ts) ≫= _) with (cells_of (Some t) ++ (ts ≫= fun t => cells_of (Some t))).
  by rewrite zlen_app, IH, zlen_cells_of.
Qed.

Lemma opd_cells_empty os : Forall opd_wf os → zlen (opd_cells os) <= 0 → os = [].
Proof.
  intros Ho Hz. destruct os as [|o os]; [done|]. apply Forall_cons in Ho as [Ho _].
  pose proof (opd_cells_pos os o Ho). lia.
Qed.

Lemma wasm_get_cell_num_nonneg ts : types_wf ts → 0 <= wasm_get_cell_num ts.
Proof. induction 1 as [|t ts Ht _ IH]; cbn [wasm_get_cell_num]; [done|]. vtype Ht; cbn; lia. Qed.

Section blocks.
Context `{BoundedPool} (h0 : scratch).
Local Abbreviation inv := (inv h0).
Local Abbreviation ctx_ok := (ctx_ok h0).
Local Abbreviation refused := (refused h0).

(** * Sequences *)

Lemma wp_pushes s f fs ts (P : Prop) Q :
  inv s (f :: fs) → types_wf ts →
  (∀ s', inv s' (pushes ts f :: fs) → kept s s' → Q tt s') →
  wp (push_types ts) Q (refused P) s.
Proof.
  intros Hi Hts. revert s f Hi. induction Hts as [|t ts Ht Hts IH]; intros s f Hi HQ.
  - apply wp_ret, HQ; [|apply lkept_refl]. by destruct f.
  - apply wp_bind. eapply wp_push; [done..|]. intros s1 Hi1 K1. eapply IH; [done|].
    intros s2 Hi2 K2. apply HQ; [by rewrite pushes_cons|by eapply lkept_trans].
Qed.

Lemma wp_pop_rev s f fs ts (P : Prop) Q :
  inv s (f :: fs) → types_wf ts →
  (∀ f' s', pop_rev ts f = Some f' → inv s' (f' :: fs) → kept s s' → Q tt s') →
  (pop_rev ts f = None → P) →
  wp (lfor ts wasm_loader_pop_frame_ref) Q (refused P) s.
Proof.
  intros Hi Hts. revert s f Hi. induction Hts as [|t ts Ht Hts IH]; intros s f Hi HQ HP.
  - apply wp_ret. eapply HQ; [done|done|apply lkept_refl].
  - apply wp_bind. cbn [pop_rev] in *. eapply wp_pop; [done..| |].
    + intros f1 s1 E1 Hi1 K1. rewrite E1 in *. eapply IH; [done| |done].
      intros f' s' E' Hi' K'. eapply HQ; [done..|by eapply lkept_trans].
    + intros E1. rewrite E1 in *. by apply HP.
Qed.

Lemma types_wf_rev ts : types_wf ts → types_wf (rev ts).
Proof. apply Forall_rev. Qed.

Lemma wp_pops s f fs ts (P : Prop) Q :
  inv s (f :: fs) → types_wf ts →
  (∀ f' s', pops ts f = Some f' → inv s' (f' :: fs) → kept s s' → Q tt s') →
  (pops ts f = None → P) →
  wp (pop_types ts) Q (refused P) s.
Proof. intros Hi Hts HQ HP. eapply wp_pop_rev; [done|by apply types_wf_rev|done..]. Qed.

Lemma lfor_seq_replicate n t : ∀ k s,
  lfor (seq k n) (fun _ => wasm_loader_pop_frame_ref t) s = lfor (replicate n t) wasm_loader_pop_frame_ref s.
Proof.
  induction n as [|n IH]; intros k s; [done|]. cbn [lfor seq replicate]. unfold lbind.
  apply mbind_ext; [done|]. intros [[]|] s'; [apply IH|done].
Qed.

(** [POP_AND_PUSH] and [POP2_AND_PUSH]. *)
Lemma wp_pop_push n s f fs t t' (P : Prop) Q :
  inv s (f :: fs) → is_value_type t = true → is_value_type t' = true →
  (∀ f' s', push t' <$> pops (replicate n t) f = Some f' → inv s' (f' :: fs) → kept s s' → Q tt s') →
  (push t' <$> pops (replicate n t) f = None → P) →
  wp (wasm_loader_push_pop_frame_ref n t' t) Q (refused P) s.
Proof.
  intros Hi Ht Ht' HQ HP. apply wp_bind. unfold wp at 1. rewrite lfor_seq_replicate.
  assert (pops (replicate n t) f = pop_rev (replicate n t) f) as E.
  { unfold pops. f_equal. rewrite rev_alt. apply reverse_replicate. }
  rewrite E in *. refine (wp_pop_rev _ _ _ _ _ _ Hi _ _ _).
  - by apply Forall_replicate.
  - intros f1 s1 E1 Hi1 K1. rewrite E1 in *. eapply wp_push; [done..|].
    intros s2 Hi2 K2. eapply HQ; [done|done|by eapply lkept_trans].
  - intros E1. apply HP. by rewrite E1.
Qed.

(** * The innermost block *)

(** A change of the top of the block stack. *)
Lemma wp_set_top s c cells f f' fs g F Q :
  ctx_ok s c cells (f :: fs) → (∀ b below, block_ok b f below → block_ok (g b) f' below) →
  (∀ s' c', ctx_ok s' c' cells (f' :: fs) → kept s s' → refs c' = refs c →
     max_csp_num (csps c') = max_csp_num (csps c) → Q tt s') →
  wp (set_csp (frame_csp (csps c) - 1) g) Q F s.
Proof.
  intros [Hc Hr (bs&Hu&Hb&E1&E2&E3&E4&E5) Ho] Hg HQ. destruct bs as [|b bs]; [done|].
  destruct Hb as [Hb Hbs]. pose proof (blocks_ok_length _ _ Hbs) as Hl. rewrite zlen_cons in *.
  assert (zlen (rev bs) = zlen fs) as Hl' by (rewrite <- Hl; unfold zlen; by rewrite length_rev).
  apply wp_bind. eapply wp_ctx; [done|]. cbv zeta. rewrite E1. replace (_ + 1 - 1) with (zlen fs) by lia.
  rewrite (used_index _ _ _ Hu) by (simpl; rewrite zlen_snoc; lia). simpl rev.
  rewrite index_app_r by lia. rewrite Hl', Z.sub_diag. change (index [b] 0) with (Some b). cbv iota. eapply wp_put_csps; [done|].
  eapply (HQ _ (mkCtx _ (mkCsps _ _ _ _ _ _ _) _)); cbn; try done.
  - split; cbn; [done|done| |done]. exists (g b :: bs). cbn. rewrite zlen_insert. split_and!; try done.
    + rewrite <- Hl'. eapply used_set_last. exact Hu.
    + by apply Hg.
    + by rewrite zlen_cons.
    + by rewrite zlen_cons.
  - constructor; cbn; try done; unfold max_cells, max_blocks; rewrite Hc; cbn; lia.
Qed.

Lemma wp_set_polymorphic s c cells f fs u F Q :
  ctx_ok s c cells (f :: fs) →
  (∀ s' c', ctx_ok s' c' cells (set_unreachable u f :: fs) → kept s s' → refs c' = refs c →
     max_csp_num (csps c') = max_csp_num (csps c) → Q tt s') →
  wp (SET_CUR_BLOCK_STACK_POLYMORPHIC_STATE u) Q F s.
Proof.
  intros Hok HQ. apply wp_bind. eapply wp_ctx; [apply (ok_ctx _ _ _ _ _ Hok)|].
  eapply wp_set_top; [exact Hok| |exact HQ]. intros b below [B1 B2 B3 B4 B5]. by constructor.
Qed.

Lemma wp_reset s f fs F Q :
  inv s (f :: fs) →
  (∀ s', inv s' (with_opds [] f :: fs) → kept s s' → Q tt s') →
  wp RESET_STACK Q F s.
Proof.
  intros [Hwf (c&Hok&[N1 N2])] HQ. pose proof Hok as [Hc Hr Hk Ho].
  apply wp_bind. eapply wp_ctx; [done|]. apply wp_bind. eapply wp_cur_block; [done|]. intros b Hb.
  cbv zeta. eapply wp_put_refs; [done|]. rewrite (bo_below _ _ _ Hb).
  destruct Hr as [R1 R2 R3 R4 R5 R6]. cbn [stack_cells] in *. rewrite zlen_app in *.
  pose proof (zlen_nonneg (opd_cells (c_opds f))).
  apply HQ; [|constructor; cbn; try done; unfold max_cells, max_blocks; rewrite Hc; cbn; lia].
  eapply (inv_opds _ _ _ f); try done.
  - cbn [stack_cells with_opds c_opds opd_cells]. rewrite app_nil_r. split; cbn; [done| |done|done].
    constructor; cbn; try done. by eapply used_app.
  - cbn [stack_cells with_opds c_opds opd_cells]. rewrite app_nil_r. constructor; cbn; [lia|done].
Qed.

Lemma wp_unreachable s f fs F Q :
  inv s (f :: fs) →
  (∀ s', inv s' (unreachable f :: fs) → kept s s' → Q tt s') →
  wp unreachable_from_here Q F s.
Proof.
  intros Hi HQ. apply wp_bind. eapply wp_reset; [done|]. intros s1 [Hwf (c&Hok&[N1 N2])] K1.
  eapply wp_set_polymorphic; [exact Hok|]. intros s2 c2 Hok2 K2 E2 M2.
  apply HQ; [|by eapply lkept_trans]. split.
  - apply Forall_cons in Hwf as [[W1 W2 W3 W4] Hwf]. constructor; [|done]. by constructor.
  - exists c2. split; [exact Hok2|]. constructor; [by rewrite E2|by rewrite M2].
Qed.

(** * Opening and closing a block *)

Lemma branch_block_size : BRANCH_BLOCK_SIZE = 56.
Proof. done. Qed.

Lemma zlen_rev {A} (l : list A) : zlen (rev l) = zlen l.
Proof. unfold zlen. by rewrite length_rev. Qed.

Lemma csps_room k st : csps_ok k st → zlen st <= zlen (frame_csp_bottom k).
Proof.
  intros (bs&Hu&Hb&_). pose proof (used_le _ _ Hu) as Hle. rewrite zlen_rev in Hle.
  by rewrite (blocks_ok_length _ _ Hb) in Hle.
Qed.

Lemma wp_csp_push s c st (P : Prop) Q :
  ctx_ok s c (stack_cells st) st →
  (∀ s' c', ctx_ok s' c' (stack_cells st) st → kept s s' → refs c' = refs c →
     max_csp_num (csps c') = max_csp_num (csps c) →
     zlen st < zlen (frame_csp_bottom (csps c')) → Q tt s') →
  wp CHECK_CSP_PUSH Q (refused P) s.
Proof.
  intros Hok HQ. pose proof Hok as [Hc Hr Hk Ho]. pose proof (csps_room _ _ Hk) as Hroom.
  destruct Hk as (bs&Hu&Hb&E1&E2&E3&E4&E5). pose proof (zlen_nonneg st). rewrite branch_block_size in *.
  apply wp_bind. eapply wp_ctx; [done|]. cbv zeta. rewrite E3, E1, E2, E4, branch_block_size.
  destruct (Z.leb_spec (zlen (frame_csp_bottom (csps c))) (zlen st)).
  - assert (uint32 (56 * zlen (frame_csp_bottom (csps c)) + 8 * 56)
      = 56 * (zlen (frame_csp_bottom (csps c)) + 8)) as Eu
      by (unfold uint32; rewrite wrap_small; lia).
    rewrite Eu. apply wp_bind.
    eapply (wp_memory_realloc _ _ _ _ [ref_block (refs c); ctx_block c]); [done|done|apply perm_swap|lia|].
    intros id s' Hb' Hc' K Ho'. eapply wp_put_csps; [done|].
    replace ((_ - _) / 56) with 8 by (rewrite <- Z.mul_sub_distr_l; lia).
    replace (56 * _ / 56) with (zlen (frame_csp_bottom (csps c)) + 8) by lia.
    assert (∀ l : list BranchBlock, zlen (l ++ replicate (Z.to_nat 8) blank_block) = zlen l + 8) as E8
      by (intros l; by rewrite zlen_app).
    eapply (HQ _ (mkCtx _ (mkCsps _ _ _ _ _ _ _) _)); cbn; try done.
    + split; cbn; [done|done| |].
      * exists bs. cbn. rewrite E8. split_and!; try done; first [by apply used_more|lia].
      * eapply owns_perm; [|exact Ho']. apply perm_swap.
    + destruct K as [K1 K2 K3 K4]. constructor; cbn; try done.
      * unfold max_cells. by rewrite Hc.
      * unfold max_blocks. by rewrite Hc.
    + rewrite E8. lia.
  - apply wp_ret. eapply HQ; [exact Hok|apply lkept_refl|done|done|lia].
Qed.

Lemma wp_push_frame_csp s st label bt p (P : Prop) Q :
  inv s st → types_wf (block_type_get_param_types bt) → types_wf (block_type_get_result_types bt) →
  wasm_get_cell_num (block_type_get_result_types bt) < 2 ^ 31 →
  (∀ s', inv s' (mkControl label bt false false [] :: st) → kept s s' → Q tt s') →
  wp (wasm_loader_push_frame_csp label bt p) Q (refused P) s.
Proof.
  intros [Hwf (c&Hok&[N1 N2])] W1 W2 W3 HQ. apply wp_bind. eapply wp_csp_push; [exact Hok|].
  intros s1 c1 Hok1 K1 R1 M1 Hroom. pose proof Hok1 as [Hc Hr (bs&Hu&Hb&E1&E2&E3&E4&E5) Ho].
  pose proof (zlen_nonneg st). pose proof (blocks_ok_length _ _ Hb) as Hl.
  apply wp_bind. eapply wp_ctx; [done|]. cbv zeta. rewrite E1.
  destruct (index_some (frame_csp_bottom (csps c1)) (zlen st)) as [x ->]; [lia|].
  eapply wp_put_csps; [done|]. rewrite E2, (ro_num _ _ Hr). rewrite branch_block_size in *.
  assert (uint32 (zlen st + 1) = zlen st + 1) as -> by (apply wrap_small; lia).
  apply HQ.
  - split; [constructor; [by constructor|done]|]. eexists. split.
    + split; cbn; [done| | |done].
      * by rewrite app_nil_r.
      * eexists (mkBranch _ _ _ _ _ _ _ :: bs). cbn. rewrite zlen_insert, zlen_cons. split_and!; try done; try lia.
        -- rewrite <- Hl, <- zlen_rev. apply used_push; [done|]. rewrite zlen_rev. lia.
        -- by constructor.
    + cbn. rewrite app_nil_r. constructor; cbn; [by rewrite R1|].
      rewrite zlen_cons. destruct (Z.ltb_spec (max_csp_num (csps c1)) (zlen st + 1)); lia.
  - eapply lkept_trans; [exact K1|]. constructor; cbn; try done; unfold max_cells, max_blocks; rewrite Hc; cbn;
      [done|]. destruct (Z.ltb_spec (max_csp_num (csps c1)) (zlen st + 1)); lia.
Qed.

(** The block is closed; its operands are still on the stack. *)
Lemma wp_pop_frame_csp s c cells f fs F Q :
  ctx_ok s c cells (f :: fs) →
  (∀ s' c', ctx_ok s' c' cells fs → kept s s' → refs c' = refs c →
     max_csp_num (csps c') = max_csp_num (csps c) → zlen fs < zlen (frame_csp_bottom (csps c')) → Q tt s') →
  wp wasm_loader_pop_frame_csp Q F s.
Proof.
  intros Hok HQ. pose proof Hok as [Hc Hr Hk Ho]. pose proof (csps_room _ _ Hk) as Hroom.
  destruct Hk as (bs&Hu&Hb&E1&E2&E3&E4&E5). rewrite zlen_cons in *. pose proof (zlen_nonneg fs).
  destruct bs as [|b bs]; [done|]. destruct Hb as [Hb Hbs]. rewrite branch_block_size in *.
  apply wp_bind. eapply wp_ctx; [done|]. cbv zeta. rewrite E2, (proj2 (Z.ltb_ge _ 1)) by lia.
  eapply wp_put_csps; [done|]. rewrite E1.
  assert (uint32 (zlen fs + 1 - 1) = zlen fs) as -> by (unfold uint32; rewrite wrap_small; lia).
  eapply (HQ _ (mkCtx _ (mkCsps _ _ _ _ _ _ _) _)); cbn; try done.
  - split; cbn; [done|done| |done]. exists bs. cbn. split_and!; try done; [by eapply used_app|lia].
  - constructor; cbn; try done; unfold max_cells, max_blocks; rewrite Hc; cbn; lia.
  - lia.
Qed.

(** * The checks *)

(** Reachable code: the operands are compared where they lie. *)
Lemma wp_check_tops s c cells st lo rest (P : Prop) Q ts : ∀ f,
  ctx_ok s c cells st → cells = lo ++ opd_cells (c_opds f) ++ rest →
  Forall opd_wf (c_opds f) → types_wf ts →
  (is_Some (exact_rev ts f) → Q tt s) → (exact_rev ts f = None → P) →
  wp (check_tops ts (zlen (lo ++ opd_cells (c_opds f))) (zlen (opd_cells (c_opds f)))) Q (refused P) s.
Proof.
  revert rest. induction ts as [|t ts IH]; intros rest f Hok Hcells Hos Hts HQ HP.
  { apply wp_ret, HQ. by eexists. }
  apply Forall_cons in Hts as [Ht Hts]. cbn [check_tops exact_rev] in *. apply wp_bind.
  eapply wp_top_values; [exact Hok|exact Hcells|done|done| |].
  - intros Ehd. destruct (c_opds f) as [|o os] eqn:Ef; [done|]. injection Ehd as ->.
    apply Forall_cons in Hos as [_ Hos]. unfold pop_exact in HQ, HP. rewrite Ef, Z.eqb_refl in HQ, HP.
    assert (zlen (lo ++ opd_cells (Some t :: os)) - wasm_value_type_cell_num t = zlen (lo ++ opd_cells os)
      ∧ zlen (opd_cells (Some t :: os)) - wasm_value_type_cell_num t = zlen (opd_cells os)) as [-> ->].
    { cbn [opd_cells]. rewrite !zlen_app, (zlen_cells_of t Ht). lia. }
    apply (IH (cells_of (Some t) ++ rest) (with_opds os f)); try done.
    rewrite Hcells. cbn [opd_cells with_opds c_opds]. by rewrite <- app_assoc.
  - intros Hne. apply HP. unfold pop_exact. destruct (c_opds f) as [|[t'|] os] eqn:Ef; [done| |done].
    by destruct (Z.eqb_spec t' t) as [->|].
Qed.

Lemma inv_label_types s st l f : inv s st → index st l = Some f → types_wf (label_types f).
Proof.
  intros [Hwf _] Hl. assert (f ∈ st) as Hin.
  { by apply index_in in Hl. }
  rewrite Forall_forall in Hwf. destruct (Hwf f Hin) as [W1 W2 _ _].
  unfold label_types. by destruct (_ =? _).
Qed.

(** The type of an open block is not the null pointer. *)
Lemma inv_not_null s st l f : inv s st → index st l = Some f → null_type (c_type f) = false.
Proof.
  intros [Hwf _] Hl. apply (index_in _ _ _) in Hl. rewrite Forall_forall in Hwf.
  destruct (Hwf _ Hl) as [_ W _ _]. destruct (c_type f) as [v|t]; [|done]. cbn in *.
  destruct (Z.eqb_spec v 0) as [->|]; [|done]. change (0 =? VALUE_TYPE_VOID) with false in W.
  apply Forall_cons in W as [W _]. discriminate W.
Qed.

(** A branch: the label must exist and its operands be there. *)
Lemma wp_check_br s f fs l (P : Prop) Q :
  inv s (f :: fs) → 0 <= l < 2 ^ 32 - 1 →
  (∀ f' s', branch_opds Loader (f :: fs) l f = Some f' → inv s' (f' :: fs) → kept s s' → Q tt s') →
  (branch_opds Loader (f :: fs) l f = None → P) →
  wp (wasm_loader_check_br l) Q (refused P) s.
Proof.
  intros Hi Hl HQ HP. pose proof Hi as [Hwf (c&Hok&[N1 N2])]. pose proof Hok as [Hc Hr Hk Ho].
  pose proof Hk as (bs&Hu&Hb&E1&E2&E3&E4&E5). apply wp_bind. eapply wp_ctx; [done|].
  assert (uint32 (l + 1) = l + 1) as -> by (apply wrap_small; lia). rewrite E2.
  unfold branch_opds in HQ, HP. destruct (Z.ltb_spec (zlen (f :: fs)) (l + 1)).
  { apply wp_fail, refused_wrong; [by eapply lost_of|]. apply HP. by rewrite index_none by lia. }
  destruct (index_some (f :: fs) l) as [g Hg]; [lia|]. rewrite Hg in HQ, HP.
  pose proof (inv_label_types _ _ _ _ Hi Hg) as Htw.
  apply wp_bind. eapply wp_cur_block; [done|]. intros b Hbf.
  destruct (blocks_ok_index _ _ _ _ Hb Hg) as (b'&below&Hb'&Hbg). pose proof (blocks_ok_length _ _ Hb) as Hbl.
  apply wp_bind. eapply (wp_csp_at _ b'); [done| |].
  { rewrite E1, (used_index _ _ _ Hu) by (rewrite zlen_rev; lia). rewrite <- Hb'. f_equal. lia. }
  apply wp_bind. rewrite (bo_type _ _ _ Hbg), (inv_not_null _ _ _ _ Hi Hg). apply wp_ret.
  cbv zeta. rewrite (bo_label _ _ _ Hbg), (bo_poly _ _ _ Hbf).
  fold (label_types g). unfold takes in HQ, HP. destruct (c_unreachable f) eqn:Eu.
  - apply wp_bind. eapply wp_pops; [exact Hi|done| |].
    + intros f1 s1 Ep Hi1 K1. rewrite Ep in *. eapply wp_pushes; [done..|].
      intros s2 Hi2 K2. eapply HQ; [done|done|by eapply lkept_trans].
    + intros Ep. rewrite Ep in *. by apply HP.
  - pose proof (inv_opds_wf _ _ _ _ Hi) as Hos.
    rewrite (available _ _ _ _ _ _ Hok Hbf), (ro_top _ _ Hr). cbn [stack_cells].
    apply (wp_check_tops s c (stack_cells (f :: fs)) (f :: fs) (stack_cells fs) []); try done.
    + cbn [stack_cells]. by rewrite app_nil_r.
    + by apply types_wf_rev.
    + intros [f' Ep]. rewrite Ep in HQ.
      destruct (exact_rev_push _ _ _ Ep) as [E _]. rewrite rev_involutive in E.
      rewrite E in HQ. by eapply HQ; [|exact Hi|apply lkept_refl].
    + intros Ep. rewrite Ep in HP. by apply HP.
Qed.

Lemma exact_cells ts f f' : types_wf ts → exact_rev (rev ts) f = Some f' →
  zlen (opd_cells (c_opds f)) = zlen (opd_cells (c_opds f')) + wasm_get_cell_num ts.
Proof.
  intros Hts Hp. destruct (exact_rev_push _ _ _ Hp) as [E _]. rewrite rev_involutive in E.
  rewrite <- E at 1. cbn [pushes with_opds c_opds]. by apply zlen_pushed.
Qed.

Lemma wp_check_block_stack s f fs b below (P : Prop) Q :
  inv s (f :: fs) → block_ok b f below → b_stack_cell_num b = zlen (stack_cells fs) →
  (∀ f' s', leaves Loader (block_type_get_result_types (c_type f)) f = Some f' →
     inv s' (pushes (block_type_get_result_types (c_type f)) f' :: fs) → kept s s' → Q tt s') →
  (leaves Loader (block_type_get_result_types (c_type f)) f = None → P) →
  wp (check_block_stack b) Q (refused P) s.
Proof.
  intros Hi [B1 B2 B3 B4 B5] Hbelow HQ HP. pose proof Hi as [Hwf (c&Hok&[N1 N2])].
  pose proof Hok as [Hc Hr Hk Ho]. apply Forall_cons in Hwf as [[W1 W2 W3 W4] Hwf].
  set (ts := block_type_get_result_types (c_type f)) in *. pose proof (wasm_get_cell_num_nonneg _ W2) as Hn.
  apply wp_bind. eapply wp_ctx; [done|]. cbv zeta. rewrite B2, B5. fold ts.
  assert (int32 (uint32 (wasm_get_cell_num ts)) = wasm_get_cell_num ts) as ->.
  { unfold uint32. rewrite wrap_small by lia. apply swrap_small; lia. }
  unfold leaves, takes in HQ, HP. destruct (c_unreachable f) eqn:Eu.
  - apply wp_bind. eapply wp_pops; [exact Hi|done| |].
    + intros f1 s1 Ep Hi1 K1. rewrite Ep in *. pose proof (inv_opds_wf _ _ _ _ Hi1) as Hos1.
      pose proof Hi1 as [_ (c1&Hok1&_)]. pose proof Hok1 as [Hc1 Hr1 _ _].
      apply wp_bind. eapply wp_ctx; [done|]. rewrite (ro_num _ _ Hr1), Hbelow. cbn [stack_cells].
      rewrite zlen_app. destruct (c_opds f1) as [|o os] eqn:Eo.
      * change (zlen (opd_cells [])) with 0. rewrite Z.add_0_r, Z.eqb_refl. cbn [negb].
        eapply wp_pushes; [exact Hi1|done|]. intros s2 Hi2 K2. eapply HQ; [done|done|by eapply lkept_trans].
      * apply Forall_cons in Hos1 as [Ho1 _]. pose proof (opd_cells_pos os o Ho1).
        rewrite (proj2 (Z.eqb_neq _ _)) by lia. apply wp_fail, refused_wrong; [by eapply lost_of|by apply HP].
    + intros Ep. rewrite Ep in *. by apply HP.
  - assert (block_ok b f (zlen (stack_cells fs))) as Hb by (constructor; congruence).
    rewrite (available _ _ _ _ _ _ Hok Hb), (ro_top _ _ Hr).
    destruct (Z.eqb_spec (zlen (opd_cells (c_opds f))) (wasm_get_cell_num ts)) as [En|En]; cbn [negb].
    + cbn [stack_cells]. apply (wp_check_tops s c (stack_cells (f :: fs)) (f :: fs) (stack_cells fs) []); try done.
      * cbn [stack_cells]. by rewrite app_nil_r.
      * by apply types_wf_rev.
      * intros [f' Ep]. rewrite Ep in HQ. pose proof (exact_cells ts f f' W2 Ep) as Ec.
        destruct (exact_rev_push _ _ _ Ep) as [E Hf']. rewrite rev_involutive in E.
        rewrite (opd_cells_empty (c_opds f')) in HQ; [|by apply Hf'|lia].
        eapply HQ; [done|by rewrite E|apply lkept_refl].
      * intros Ep. rewrite Ep in HP. by apply HP.
    + apply wp_fail, refused_wrong; [by eapply lost_of|]. apply HP.
      destruct (exact_rev (rev ts) f) as [f'|] eqn:Ep; [|done]. pose proof (exact_cells ts f f' W2 Ep) as Ec.
      destruct (c_opds f'); [|done]. exfalso. apply En. rewrite Ec. done.
Qed.

End blocks.
