(* ===== verification/LoaderStep.v ===== *)
(** One turn of the loop of [wasm_loader_prepare_bytecode] is one step of the
    validation algorithm: every handler of [Validate], on a context that holds the
    state of [Typing], succeeds exactly when the bytes stand for an instruction
    that the algorithm accepts, and then holds the next state. *)
From stdpp Require Import base gmap list numbers strings.
From Stdlib Require Import Strings.Byte ZArith Lia.
From S2P Require Import Prelude CMemory WasmTypes Opcodes Leb FindBlock LoaderCtx Validate Typing Wp.
From S2P Require Import LoaderInv LoaderOps.

(** * Well-formed modules and functions *)

(** What the loader has checked of the type, import, function and global sections
    before it looks at the code. *)
Record type_wf (t : func_type) : Prop := {
  tw_params : 0 <= param_count t < 2 ^ 16;
  tw_results : 0 <= result_count t < 2 ^ 16;
  tw_length : zlen (types t) = param_count t + result_count t;
  tw_types : types_wf (types t)
}.

Record module_wf (module : module_info) : Prop := {
  mw_types : Forall type_wf (m_types module);
  mw_functions : Forall type_wf (import_functions module ++ functions module);
  mw_function_count : zlen (import_functions module ++ functions module) < 2 ^ 32;
  mw_globals : Forall (fun g => is_value_type g.1 = true) (import_globals module ++ globals module);
  mw_global_count : zlen (import_globals module ++ globals module) < 2 ^ 32;
  mw_tables : 0 <= import_table_count module ∧ 0 <= table_count module
              ∧ import_table_count module + table_count module < 2 ^ 32
}.

Record func_wf (func : func_info) : Prop := {
  fw_type : type_wf (f_type func);
  fw_locals : types_wf (local_types func);
  fw_local_count : param_count (f_type func) + zlen (local_types func) < 2 ^ 32;
  fw_offsets : zlen (local_offsets func) = param_count (f_type func) + zlen (local_types func);
  fw_code : 0 < code func ∧ 0 <= code_size func
}.

Lemma zlen_param_types t : type_wf t → zlen (param_types t) = param_count t.
Proof.
  intros [P R Hl _]. unfold param_types, zlen in *. rewrite length_take. lia.
Qed.

Lemma param_types_wf t : type_wf t → types_wf (param_types t).
Proof. intros [_ _ _ H]. by apply Forall_take. Qed.

Lemma result_types_wf t : type_wf t → types_wf (result_types t).
Proof. intros [_ _ _ H]. by apply Forall_take, Forall_drop. Qed.

Lemma cell_num_bound ts : types_wf ts → wasm_get_cell_num ts <= 2 * zlen ts.
Proof.
  induction 1 as [|t ts Ht _ IH]; [done|]. cbn [wasm_get_cell_num]. rewrite zlen_cons.
  assert (wasm_value_type_cell_num t <= 2) by (by vtype Ht). lia.
Qed.

Lemma result_cells t : type_wf t → wasm_get_cell_num (result_types t) < 2 ^ 31.
Proof.
  intros Ht. pose proof (cell_num_bound _ (result_types_wf t Ht)) as Hb. destruct Ht as [P R Hl _].
  assert (zlen (result_types t) <= result_count t); [|lia].
  unfold result_types, zlen in *. rewrite length_take, length_drop. lia.
Qed.

Lemma imported_or_own_app {A} (l k : list A) i : imported_or_own l k i = index (l ++ k) i.
Proof.
  unfold imported_or_own. destruct (Z.ltb_spec i (zlen l)); [by rewrite index_app_l|by rewrite index_app_r].
Qed.

Lemma index_Forall {A} (P : A → Prop) l i a : Forall P l → index l i = Some a → P a.
Proof.
  intros HF Hi. rewrite index_lookup in Hi. destruct (i <? 0); [done|]. by eapply Forall_lookup_1.
Qed.

(** * Opcodes *)

Lemma opcode_of_inv b op : opcode_of b = Some op → b = opcode_code op.
Proof.
  unfold opcode_of. intros H.
  repeat match type of H with context [match ?x with _ => _ end] => destruct x; try discriminate H end;
    injection H as <-; reflexivity.
Qed.

Lemma misc_of_inv b op : misc_of b = Some op → b = misc_code op.
Proof.
  unfold misc_of. intros H.
  repeat match type of H with context [match ?x with _ => _ end] => destruct x; try discriminate H end;
    injection H as <-; reflexivity.
Qed.

Lemma between_in a n b : between a (a + n - 1) b = true → b ∈ seqZ a n.
Proof. unfold between. intros H. apply andb_prop in H as [??]. zbool. apply elem_of_seqZ. lia. Qed.

(** A byte that is no opcode does not decode. *)
Lemma decode_op_known b m e q : opcode_of b = None → decode_op b m e q = None.
Proof.
  intros Hb. unfold decode_op.
  assert (is_access b = false) as ->.
  { apply not_true_iff_false. intros H%(between_in 0x28 23).
    assert (Forall (fun b => opcode_of b ≠ None) (seqZ 0x28 23)) as HF by (by repeat constructor).
    by apply (proj1 (Forall_forall _ _) HF b H). }
  assert (is_numeric b = false) as ->.
  { apply not_true_iff_false. intros H%(between_in 0x45 128).
    assert (Forall (fun b => opcode_of b ≠ None) (seqZ 0x45 128)) as HF by (by repeat constructor).
    by apply (proj1 (Forall_forall _ _) HF b H). }
  destruct b as [|p|p]; [done| |done].
  repeat match goal with |- context [match ?x with _ => _ end] => destruct x; try done end.
Qed.

Lemma decode_op_handled module func `{ScratchPool} op m e q :
  prepare_op module func op = None → decode_op (opcode_code op) m e q = None.
Proof. destruct op; intros E; try discriminate E; reflexivity. Qed.

(** * Reading integers *)

Lemma loader_leb_loop_span m buf e maxbits : ∀ fuel off bcnt r sh r' off' sh' b,
  loader_leb_loop fuel m buf e maxbits off bcnt r sh = Some (r', off', sh', b) →
  off < off' ∧ buf + off' <= e.
Proof.
  induction fuel as [|fuel IH]; intros off bcnt r sh r' off' sh' b; [done|]. cbn [loader_leb_loop].
  destruct (_ <? _); [done|]. unfold check_buf. destruct (Z.ltb_spec e (buf + (off + 1))); [done|].
  cbn [negb]. destruct (_ =? 0); [intros [= _ <- _ _]; lia|]. intros Hs%IH. lia.
Qed.

Lemma loader_read_leb_span m p e maxbits sign v q :
  loader_read_leb m p e maxbits sign = Some (v, q) → p < q <= e.
Proof.
  unfold loader_read_leb.
  destruct (loader_leb_loop _ _ _ _ _ _ _ _ _) as [[[[r off] sh] b]|] eqn:El; [|done].
  apply loader_leb_loop_span in El. intros H.
  assert (q = p + off); [|lia]. revert H.
  repeat match goal with |- context [if ?x then _ else _] => destruct x end; congruence.
Qed.

Lemma loader_leb_uint32_span m p e v q :
  loader_leb_uint32 m p e = Some (v, q) → p < q <= e ∧ 0 <= v < 2 ^ 32.
Proof.
  unfold loader_leb_uint32. destruct (loader_read_leb _ _ _ _ _) as [[r q']|] eqn:E; [|done].
  intros [= <- <-]. split; [by eapply loader_read_leb_span|]. by apply wrap_range.
Qed.

(** Two memories with the same code from an address on. *)
Definition same_from (p : Z) (m m' : mem) : Prop := ∀ x, p <= x → m' !!! x = m !!! x.

Lemma same_from_load p m m' a n : same_from p m m' → p <= a → load_Z m' a n = load_Z m a n.
Proof. intros Hs Ha. unfold load_Z. f_equal. apply load_ext. intros x Hx. apply Hs. lia. Qed.

Lemma same_from_le p q m m' : same_from p m m' → p <= q → same_from q m m'.
Proof. intros Hs Hq x Hx. apply Hs. lia. Qed.

Lemma loader_leb_loop_local p m m' e maxbits : same_from p m m' → ∀ fuel off bcnt r sh, 0 <= off →
  loader_leb_loop fuel m' p e maxbits off bcnt r sh = loader_leb_loop fuel m p e maxbits off bcnt r sh.
Proof.
  intros Hs. induction fuel as [|fuel IH]; intros off bcnt r sh Ho; [done|]. cbn [loader_leb_loop].
  rewrite (same_from_load p m m') by (done || lia). destruct (_ <? _); [done|].
  destruct (negb _); [done|]. destruct (_ =? 0); [done|]. apply IH. lia.
Qed.

Lemma loader_read_leb_local p m m' e maxbits sign : same_from p m m' →
  loader_read_leb m' p e maxbits sign = loader_read_leb m p e maxbits sign.
Proof. intros Hs. unfold loader_read_leb. by rewrite (loader_leb_loop_local p m m'). Qed.

Lemma loader_leb_uint32_local p m m' e : same_from p m m' →
  loader_leb_uint32 m' p e = loader_leb_uint32 m p e.
Proof. intros Hs. unfold loader_leb_uint32. by rewrite (loader_read_leb_local p m m'). Qed.

Section step.
Context `{BoundedPool} (h0 : scratch) (module : module_info) (func : func_info).
Context (Hmodule : module_wf module) (Hfunc : func_wf func).
Local Abbreviation inv := (inv h0).
Local Abbreviation ctx_ok := (ctx_ok h0).
Local Abbreviation refused := (refused h0).
Local Abbreviation p_end := (p_end func).
Local Abbreviation type_instr := (type_instr Loader module func).

(** Only the position has changed, the message and what is noted of the function. *)
Record reading (s0 s : loader) : Prop := {
  rd_ctx : l_ctx s = l_ctx s0;
  rd_heap : l_heap s = l_heap s0;
  rd_mem : l_mem s = l_mem s0
}.

Lemma reading_move s0 s q : reading s0 s → reading s0 (set_l_p q s).
Proof. by intros [??]. Qed.

Lemma inv_heap s0 s st : l_ctx s = l_ctx s0 → l_heap s = l_heap s0 → inv s0 st → inv s st.
Proof.
  intros E1 E2 [Hwf (c&[Hc Hr Hk Ho]&N)]. split; [done|]. exists c. split; [|done].
  constructor; try done; congruence.
Qed.

Lemma inv_reading s0 s st : reading s0 s → inv s0 st → inv s st.
Proof. intros [E1 E2 E3]. by apply inv_heap. Qed.

(** * Operations on the innermost operands *)

(** [c] does on the context what [g] does on the innermost block. *)
Definition does (c : L unit) (g : control → option control) : Prop :=
  ∀ s f fs (P : Prop) (Q : unit → loader → Prop), inv s (f :: fs) →
    (∀ f' s', g f = Some f' → inv s' (f' :: fs) → kept s s' → Q tt s') → (g f = None → P) →
    wp c Q (refused P) s.

Lemma does_ext c g g' : (∀ f, g f = g' f) → does c g → does c g'.
Proof. intros E Hd s f fs P Q Hi HQ HP. rewrite <- E in *. by eapply Hd. Qed.

Lemma does_seq c1 c2 g1 g2 : does c1 g1 → does c2 g2 → does (c1 ;+ c2) (fun f => g1 f ≫= g2).
Proof.
  intros H1 H2 s f fs P Q Hi HQ HP. apply wp_bind. eapply H1; [exact Hi| |].
  - intros f1 s1 E1 Hi1 K1. rewrite E1 in *. eapply H2; [exact Hi1| |done].
    intros f2 s2 E2 Hi2 K2. eapply HQ; [done|done|by eapply lkept_trans].
  - intros E1. rewrite E1 in *. by apply HP.
Qed.

Lemma does_push t : is_value_type t = true → does (wasm_loader_push_frame_ref t) (fun f => Some (push t f)).
Proof. intros Ht s f fs P Q Hi HQ HP. eapply wp_push; [done..|]. intros s' Hi' K. by eapply HQ. Qed.

Lemma does_pop t : is_value_type t = true → does (wasm_loader_pop_frame_ref t) (pop t).
Proof. intros Ht s f fs P Q Hi HQ HP. by eapply wp_pop. Qed.

Lemma does_pushes ts : types_wf ts → does (push_types ts) (fun f => Some (pushes ts f)).
Proof. intros Ht s f fs P Q Hi HQ HP. eapply wp_pushes; [done..|]. intros s' Hi' K. by eapply HQ. Qed.

Lemma does_pops ts : types_wf ts → does (pop_types ts) (pops ts).
Proof. intros Ht s f fs P Q Hi HQ HP. by eapply wp_pops. Qed.

Lemma does_pop_push n t t' : is_value_type t = true → is_value_type t' = true →
  does (wasm_loader_push_pop_frame_ref n t' t) (fun f => push t' <$> pops (replicate n t) f).
Proof. intros Ht Ht' s f fs P Q Hi HQ HP. by eapply wp_pop_push. Qed.

Lemma does_note n : does (note n) Some.
Proof. intros s f fs P Q Hi HQ HP. apply wp_mod. eapply HQ; [done|eapply inv_reading; [|exact Hi]; by constructor|by constructor]. Qed.

Lemma does_skip : does (lret tt) Some.
Proof. intros s f fs P Q Hi HQ HP. apply wp_ret. eapply HQ; [done|done|apply lkept_refl]. Qed.

Lemma does_pop1_push t t' : is_value_type t = true → is_value_type t' = true →
  does (POP_AND_PUSH t t') (fun f => push t' <$> pop t f).
Proof.
  intros Ht Ht'. eapply does_ext; [|by apply does_pop_push]. intros f. cbn.
  by destruct (pop t f).
Qed.

(** * One turn *)

(** The state after the instruction: of a closed function only the results are
    left, and the rest of the code is skipped. *)
Definition holds (s : loader) (st : list control) : Prop :=
  match st with
  | [] => ∃ c cells, ctx_ok s c cells []
  | _ => inv s st
  end.

(** [s0] is the state before the turn, [q] the end of the instruction. *)
Record reached (s0 : loader) (q : Z) (st : list control) (s : loader) : Prop := {
  re_holds : holds s st;
  re_p : l_p s = match st with [] => p_end | _ => q end;
  re_mem : unchanged_outside [(l_p s0, Z.min q p_end - l_p s0)] (l_mem s0) (l_mem s);
  re_cells : max_cells s0 <= max_cells s;
  re_blocks : max_blocks s0 <= max_blocks s
}.

(** What the turn must do: [o] is the instruction at the position, if any. *)
Definition steps (o : option (instr * Z)) (st : list control) : option (Z * list control) :=
  match o with
  | Some (i, q) => match type_instr i st with Some st => Some (q, st) | None => None end
  | None => None
  end.

Definition handled (c : L unit) (s0 s : loader) (r : option (Z * list control)) : Prop :=
  ∀ (P : Prop) (Q : unit → loader → Prop),
    (∀ q st' s', r = Some (q, st') → reached s0 q st' s' → Q tt s') → (r = None → P) →
    wp c Q (refused P) s.

Lemma lost_reading s0 s st : reading s0 s → inv s0 st → lost h0 s.
Proof. intros Hr Hi. destruct (inv_reading _ _ _ Hr Hi) as [_ (c&Hok&_)]. by eapply lost_of. Qed.

Lemma maxima_reading s0 s : reading s0 s → max_cells s = max_cells s0 ∧ max_blocks s = max_blocks s0.
Proof. intros [E1 E2 E3]. unfold max_cells, max_blocks. by rewrite E1. Qed.

(** An instruction without more immediates that works on the innermost operands. *)
Lemma handled_does c g s0 s f fs i :
  reading s0 s → inv s0 (f :: fs) → does c g → type_instr i (f :: fs) = on_top g (f :: fs) →
  handled c s0 s (steps (Some (i, l_p s)) (f :: fs)).
Proof.
  intros Hr Hi Hd Et P Q HQ HP. cbn [steps] in *. rewrite Et in *. cbn [on_top] in *.
  destruct (maxima_reading _ _ Hr) as [M1 M2].
  eapply Hd; [by eapply inv_reading| |].
  - intros f' s' E Hi' [K1 K2 K3 K4]. rewrite E in *. eapply HQ; [done|]. constructor; try lia; try done.
    rewrite K1, (rd_mem _ _ Hr). apply unchanged_refl.
  - intros E. rewrite E in *. by apply HP.
Qed.

(** * Immediates *)

Lemma wp_read_leb maxbits sign s (P : Prop) Q :
  lost h0 s →
  (∀ v q, loader_read_leb (l_mem s) (l_p s) p_end maxbits sign = Some (v, q) → Q v (set_l_p q s)) →
  (loader_read_leb (l_mem s) (l_p s) p_end maxbits sign = None → P) →
  wp (read_leb_p func maxbits sign) Q (refused P) s.
Proof.
  intros Hl HQ HP. do 2 (apply wp_bind, wp_get). cbv beta.
  destruct (loader_read_leb _ _ _ _ _) as [[v q]|]; [|by apply wp_fail, refused_wrong; auto].
  apply wp_bind, wp_mod. apply wp_ret. by apply HQ.
Qed.

Lemma wp_read_leb_uint32 s (P : Prop) Q :
  lost h0 s →
  (∀ v q, loader_leb_uint32 (l_mem s) (l_p s) p_end = Some (v, q) → Q v (set_l_p q s)) →
  (loader_leb_uint32 (l_mem s) (l_p s) p_end = None → P) →
  wp (read_leb_uint32 func) Q (refused P) s.
Proof.
  intros Hl HQ HP. unfold loader_leb_uint32 in *. apply wp_bind. eapply wp_read_leb; [done| |].
  - intros v q E. rewrite E in *. by apply wp_ret, HQ.
  - intros E. rewrite E in *. by apply HP.
Qed.

(** * Numeric instructions *)

Lemma numeric_table op c m q :
  prepare_comparison op = Some c ∨ prepare_arithmetic op = Some c ∨ prepare_conversion op = Some c →
  decode_op (opcode_code op) m p_end q = Some (INumeric (opcode_code op), q)
  ∧ ∃ n t t', c = wasm_loader_push_pop_frame_ref n t' t
      ∧ numeric_type (opcode_code op) = Some (replicate n t, t')
      ∧ is_value_type t = true ∧ is_value_type t' = true.
Proof.
  destruct op; (intros [E|[E|E]]; [try discriminate E..]); injection E as <-;
    (split; [reflexivity|]); do 3 eexists; (split; [reflexivity|]); split_and!; reflexivity.
Qed.

Lemma handled_numeric op c s0 s f fs :
  prepare_comparison op = Some c ∨ prepare_arithmetic op = Some c ∨ prepare_conversion op = Some c →
  reading s0 s → inv s0 (f :: fs) →
  handled c s0 s (steps (decode_op (opcode_code op) (l_mem s0) p_end (l_p s)) (f :: fs)).
Proof.
  intros Hc Hr Hi. destruct (numeric_table op c (l_mem s0) (l_p s) Hc) as (->&n&t&t'&->&En&Ht&Ht').
  eapply handled_does; [done..|by apply does_pop_push|]. cbn [Typing.type_instr]. by rewrite En.
Qed.

Lemma misc_table op c : misc_effect op = Some c →
  ∃ t t', c = POP_AND_PUSH t t' ∧ trunc_sat_type (misc_code op) = Some (t, t')
    ∧ is_value_type t = true ∧ is_value_type t' = true.
Proof.
  destruct op; intros E; try discriminate E; injection E as <-; do 2 eexists; split_and!; reflexivity.
Qed.

Lemma misc_unknown v : misc_of v ≫= misc_effect = None → trunc_sat_type v = None.
Proof.
  intros E. unfold trunc_sat_type. destruct (between 0 7 v) eqn:Eb; [|done].
  apply (between_in 0 8) in Eb. exfalso.
  assert (Forall (fun v => misc_of v ≫= misc_effect ≠ None) (seqZ 0 8)) as HF by (by repeat constructor).
  by apply (proj1 (Forall_forall _ _) HF v Eb).
Qed.

(** An instruction with one index, which selects what is done. *)
Lemma handled_index (k : Z → L unit) (i : Z → instr) s0 s f fs :
  reading s0 s → inv s0 (f :: fs) →
  (∀ v q, loader_leb_uint32 (l_mem s0) (l_p s) p_end = Some (v, q) →
     handled (k v) s0 (set_l_p q s) (steps (Some (i v, q)) (f :: fs))) →
  handled (lbind (read_leb_uint32 func) k) s0 s
    (steps (index_instr i (l_mem s0) p_end (l_p s)) (f :: fs)).
Proof.
  intros Hr Hi Hk P Q HQ HP. apply wp_bind. unfold index_instr in *. pose proof (rd_mem _ _ Hr) as Em.
  eapply wp_read_leb_uint32; [by eapply lost_reading|..].
  - intros v q E. rewrite Em in E. rewrite E in *. by eapply Hk.
  - intros E. rewrite Em in E. rewrite E in *. by apply HP.
Qed.

Lemma handled_fail msg s0 s st : reading s0 s → inv s0 st → handled (lfail msg) s0 s None.
Proof. intros Hr Hi P Q HQ HP. apply wp_fail, refused_wrong; [by eapply lost_reading|by apply HP]. Qed.

Lemma steps_none i q st : type_instr i st = None → steps (Some (i, q)) st = None.
Proof. cbn. by intros ->. Qed.

Lemma handled_misc s0 s f fs :
  reading s0 s → inv s0 (f :: fs) →
  handled (prepare_misc func) s0 s
    (steps (decode_op (opcode_code WASM_OP_MISC_PREFIX) (l_mem s0) p_end (l_p s)) (f :: fs)).
Proof.
  intros Hr Hi. apply (handled_index _ ITruncSat); [done..|]. intros v q Ev.
  destruct (misc_of v ≫= misc_effect) as [c|] eqn:Ec.
  - destruct (misc_of v) as [op|] eqn:Eo; [|done]. apply misc_of_inv in Eo as ->.
    destruct (misc_table op c Ec) as (t&t'&->&Et&Ht&Ht').
    apply (handled_does _ (fun f => push t' <$> pop t f) s0 (set_l_p q s)); [by apply reading_move|done|by apply does_pop1_push|].
    cbn [Typing.type_instr]. by rewrite Et.
  - rewrite (steps_none (ITruncSat v)); [by eapply handled_fail, Hi; apply reading_move|].
    cbn [Typing.type_instr]. by rewrite misc_unknown.
Qed.

(** * Memory instructions *)

Lemma check_memory_ok s (P : Prop) Q :
  lost h0 s → (has_memory module = true → Q tt s) → (has_memory module = false → P) →
  wp (check_memory module) Q (refused P) s.
Proof.
  intros Hl HQ HP. unfold check_memory, has_memory in *. destruct (_ && _); cbn [negb] in *.
  - by apply wp_fail, refused_wrong; auto.
  - by apply wp_ret, HQ.
Qed.

Lemma access_table op c : memory_effect op = Some c →
  is_access (opcode_code op) = true
  ∧ ∃ t natural, access_type (opcode_code op) = (t, natural)
      ∧ index mem_access_aligns (opcode_code op - opcode_code WASM_OP_I32_LOAD) = Some natural
      ∧ does c (fun f => if is_store (opcode_code op) then pop t f ≫= pop VALUE_TYPE_I32
                         else push t <$> pop VALUE_TYPE_I32 f).
Proof.
  destruct op; intros E; try discriminate E; injection E as <-; (split; [reflexivity|]); do 2 eexists;
    (split; [reflexivity|]); (split; [reflexivity|]);
    first [by apply does_pop1_push|apply does_seq; by apply does_pop].
Qed.

Lemma handled_access op c s0 s f fs :
  prepare_access module func op = Some c → reading s0 s → inv s0 (f :: fs) →
  handled c s0 s (steps (decode_op (opcode_code op) (l_mem s0) p_end (l_p s)) (f :: fs)).
Proof.
  intros Hc Hr Hi P Q HQ HP. unfold prepare_access in Hc.
  destruct (memory_effect op) as [eff|] eqn:Ee; [|done]. injection Hc as <-.
  destruct (access_table op eff Ee) as (Ha&t&natural&Et&En&Hd). unfold decode_op in *. rewrite Ha in *.
  pose proof (rd_mem _ _ Hr) as Em. assert (∀ a q, type_instr (IAccess (opcode_code op) a) (f :: fs) = None →
    steps (Some (IAccess (opcode_code op) a, q)) (f :: fs) = None) as Hno by (intros; by apply steps_none).
  cbn [Typing.type_instr] in Hno. rewrite Et in Hno.
  apply wp_bind, check_memory_ok; [by eapply lost_reading| |].
  2:{ intros Hm. rewrite Hm in Hno. apply HP. unfold imm. destruct (loader_leb_uint32 _ _ _) as [[a q]|]; [|done].
      destruct (loader_leb_uint32 _ _ _) as [[o q']|]; [|done]. by apply Hno. }
  intros Hm. rewrite Hm in Hno. apply wp_bind, wp_read_leb_uint32; [by eapply lost_reading| |].
  2:{ intros E. rewrite Em in E. rewrite E in *. by apply HP. }
  intros a q1 E1. rewrite Em in E1. rewrite E1 in *. cbn [imm] in *.
  apply wp_bind, wp_read_leb_uint32; [by eapply lost_reading, Hi; apply reading_move| |].
  2:{ intros E. cbn in E. rewrite Em in E. rewrite E in *. by apply HP. }
  intros o q2 E2. cbn in E2. rewrite Em in E2. rewrite E2 in *. cbn [imm] in *.
  apply wp_bind. unfold check_memory_access_align. apply wp_bind. eapply wp_at; [exact En|].
  destruct (Z.ltb_spec natural a) as [Hlt|Hge].
  - apply wp_fail, refused_wrong; [by eapply lost_reading, Hi; do 2 apply reading_move|].
    apply HP, Hno. rewrite (proj2 (Z.leb_gt _ _)) by lia. done.
  - apply wp_ret. refine (handled_does _ _ s0 (set_l_p q2 (set_l_p q1 s)) f fs _ _ Hi Hd _ P Q HQ HP).
    + by do 2 apply reading_move.
    + cbn [Typing.type_instr]. rewrite Et, Hm, (proj2 (Z.leb_le _ _)) by lia. done.
Qed.

Lemma wp_read_uint8 s (Q : Z → loader → Prop) F :
  Q (load_Z (l_mem s) (l_p s) 1) (set_l_p (l_p s + 1) s) → wp read_uint8 Q F s.
Proof. done. Qed.

Lemma wp_move_p n s (Q : unit → loader → Prop) F : Q tt (set_l_p (l_p s + n) s) → wp (move_p n) Q F s.
Proof. done. Qed.

(** [memory.size] and [memory.grow]: a zero byte, then the operands. *)
Lemma handled_size c g (i : Z → instr) s0 s f fs :
  reading s0 s → inv s0 (f :: fs) → does c g →
  (∀ b, type_instr (i b) (f :: fs) = if has_memory module && (b =? 0) then on_top g (f :: fs) else None) →
  handled (check_memory module ;+ zero_byte ;+ c) s0 s
    (steps (Some (i (load_Z (l_mem s0) (l_p s) 1), l_p s + 1)) (f :: fs)).
Proof.
  intros Hr Hi Hd Ei P Q HQ HP. apply wp_bind, check_memory_ok; [by eapply lost_reading| |].
  2:{ intros Hm. apply HP, steps_none. by rewrite Ei, Hm. }
  intros Hm. apply wp_bind, wp_bind, wp_read_uint8. rewrite (rd_mem _ _ Hr).
  destruct (Z.eqb_spec (load_Z (l_mem s0) (l_p s) 1) 0) as [E|E]; cbn [negb].
  - apply wp_ret. refine (handled_does _ g s0 (set_l_p (l_p s + 1) s) f fs _ _ Hi Hd _ P Q HQ HP).
    + by apply reading_move.
    + by rewrite Ei, Hm, E.
  - apply wp_fail, refused_wrong; [by eapply lost_reading, Hi; apply reading_move|].
    apply HP, steps_none. by rewrite Ei, Hm, (proj2 (Z.eqb_neq _ _) E).
Qed.

(** A constant: its immediate is skipped. *)
Lemma handled_const c t maxbits s0 s f fs :
  reading s0 s → inv s0 (f :: fs) → is_value_type t = true →
  (∀ Q F s, wp (read_leb_p func maxbits true) (fun _ => Q) F s → wp c (fun _ => Q) F s) →
  handled ((c : L Z) ;+ wasm_loader_push_frame_ref t) s0 s
    (steps (imm (loader_read_leb (l_mem s0) (l_p s) p_end maxbits true) (fun _ q => Some (IConst t, q)))
       (f :: fs)).
Proof.
  intros Hr Hi Ht Hc P Q HQ HP. pose proof (rd_mem _ _ Hr) as Em. apply wp_bind, Hc.
  eapply wp_read_leb; [by eapply lost_reading| |].
  - intros v q E. rewrite Em in E. rewrite E in *. cbn [imm] in *.
    refine ((_ : handled _ s0 (set_l_p q s) (steps (Some (IConst t, q)) (f :: fs))) P Q HQ HP).
    by eapply handled_does; [apply reading_move|..|apply does_push|].
  - intros E. rewrite Em in E. rewrite E in *. by apply HP.
Qed.

Lemma handled_float_const t n s0 s f fs :
  reading s0 s → inv s0 (f :: fs) → is_value_type t = true →
  handled (move_p n ;+ wasm_loader_push_frame_ref t) s0 s (steps (Some (IConst t, l_p s + n)) (f :: fs)).
Proof.
  intros Hr Hi Ht P Q HQ HP. apply wp_bind, wp_move_p.
  refine ((_ : handled _ s0 (set_l_p (l_p s + n) s) (steps (Some (IConst t, l_p s + n)) (f :: fs))) P Q HQ HP).
  by eapply handled_does; [apply reading_move|..|apply does_push|].
Qed.

Lemma does_then_note c g n : does c g → does (c ;+ note n) g.
Proof.
  intros Hc. eapply does_ext; [|apply does_seq; [exact Hc|apply does_note]]. intros f. cbv beta. by destruct (g f).
Qed.

Lemma handled_memory op c s0 s f fs :
  prepare_memory module func op = Some c → reading s0 s → inv s0 (f :: fs) →
  handled c s0 s (steps (decode_op (opcode_code op) (l_mem s0) p_end (l_p s)) (f :: fs)).
Proof.
  intros Hc Hr Hi. destruct op; try discriminate Hc; injection Hc as <-.
  - eapply handled_size; [done|done|by apply does_then_note, does_push|done].
  - eapply (handled_size _ (fun f => push VALUE_TYPE_I32 <$> pop VALUE_TYPE_I32 f)); [done|done| |done].
    eapply does_ext; [|apply does_seq; [by apply does_pop1_push|apply does_then_note, does_note]].
    intros g. cbv beta. by destruct (pop _ g).
  - eapply handled_const; [done..|]. intros Q F s' Hw. apply wp_bind. exact Hw.
  - eapply handled_const; [done..|]. intros Q F s' Hw. apply wp_bind. exact Hw.
  - by apply handled_float_const.
  - by apply handled_float_const.
Qed.

(** * Instructions that are rewritten *)

(** [c] does [g] at position [hi] and may change the code from [lo] on. *)
Definition does_in (lo hi : Z) (c : L unit) (g : control → option control) : Prop :=
  ∀ s f fs (P : Prop) (Q : unit → loader → Prop), l_p s = hi → inv s (f :: fs) →
    (∀ f' s', g f = Some f' → inv s' (f' :: fs) → l_p s' = hi →
       unchanged_outside [(lo, hi - lo)] (l_mem s) (l_mem s') →
       max_cells s <= max_cells s' → max_blocks s <= max_blocks s' → Q tt s') →
    (g f = None → P) → wp c Q (refused P) s.

Lemma handled_does_in c g s0 s f fs i :
  reading s0 s → l_p s <= p_end → inv s0 (f :: fs) → does_in (l_p s0) (l_p s) c g →
  type_instr i (f :: fs) = on_top g (f :: fs) →
  handled c s0 s (steps (Some (i, l_p s)) (f :: fs)).
Proof.
  intros Hr Hle Hi Hd Et P Q HQ HP. cbn [steps] in *. rewrite Et in *. cbn [on_top] in *.
  destruct (maxima_reading _ _ Hr) as [M1 M2].
  eapply Hd; [done|by eapply inv_reading| |].
  - intros f' s' E Hi' Ep Hm K3 K4. rewrite E in *. eapply HQ; [done|]. constructor; try lia; try done.
    rewrite Z.min_l by done. by rewrite (rd_mem _ _ Hr) in Hm.
  - intros E. rewrite E in *. by apply HP.
Qed.

(** [c] only changes the code. *)
Definition patches (lo hi : Z) (c : L unit) : Prop :=
  ∀ s (Q : unit → loader → Prop) F, l_p s = hi →
    (∀ m, unchanged_outside [(lo, hi - lo)] (l_mem s) m → Q tt (set_l_mem m s)) → wp c Q F s.

Lemma patches_skip lo hi : patches lo hi (lret tt).
Proof. intros s Q F Hp HQ. apply wp_ret. specialize (HQ (l_mem s) (unchanged_refl _ _)). by destruct s. Qed.

Lemma patches_seq lo hi c1 c2 : patches lo hi c1 → patches lo hi c2 → patches lo hi (c1 ;+ c2).
Proof.
  intros H1 H2 s Q F Hp HQ. apply wp_bind. apply H1; [done|]. intros m Hm. apply H2; [done|].
  intros m' Hm'. change (set_l_mem m' (set_l_mem m s)) with (set_l_mem m' s). apply HQ.
  eapply unchanged_incl; [|eapply unchanged_trans; [exact Hm|exact Hm']]. intros r Hin.
  by apply in_app_or in Hin as [|].
Qed.

Lemma patches_poke lo hi a v : lo <= a < hi → patches lo hi (poke a v).
Proof.
  intros Ha s Q F Hp HQ. apply wp_mod, HQ. eapply unchanged_weaken; [|apply unchanged_store].
  intros x r [<-|[]] Hx. unfold in_region in *. rewrite length_le_bytes in Hx. cbn in *.
  eexists. split; [by left|]. cbn. lia.
Qed.

Lemma patches_nops lo hi a : lo <= a → patches lo hi (fill_nops a hi).
Proof.
  unfold fill_nops. intros Ha. remember (Z.to_nat (hi - a)) as n eqn:En. revert a Ha En.
  induction n as [|n IH]; intros a Ha En.
  - rewrite seqZ_nil by lia. apply patches_skip.
  - rewrite seqZ_cons by lia. cbn [lfor]. apply patches_seq; [apply patches_poke; lia|].
    replace (Z.pred (hi - a)) with (hi - Z.succ a) by lia. apply IH; lia.
Qed.

Lemma patches_at_p lo hi k : patches lo hi (k hi) → patches lo hi (let+ p := lget l_p in k p).
Proof. intros Hk s Q F Hp HQ. apply wp_bind, wp_get. cbv beta. rewrite Hp. by apply Hk. Qed.

Lemma patches_fast p_org hi t ofs fast : p_org + 2 <= hi → patches p_org hi (use_fast_local p_org t ofs fast).
Proof.
  intros Hp. unfold use_fast_local. destruct (_ <? _); [|apply patches_skip].
  apply patches_seq; [apply patches_poke; lia|]. apply patches_seq; [apply patches_poke; lia|].
  apply patches_at_p, patches_nops. lia.
Qed.

Lemma patches_if lo hi (b : bool) c1 c2 :
  patches lo hi c1 → patches lo hi c2 → patches lo hi (if b then c1 else c2).
Proof. by destruct b. Qed.

Lemma does_in_does lo hi c g : does c g → does_in lo hi c g.
Proof.
  intros Hd s f fs P Q Hp Hi HQ HP. eapply Hd; [done| |done]. intros f' s' E Hi' [K1 K2 K3 K4].
  eapply HQ; try done; [congruence|]. rewrite K1. apply unchanged_refl.
Qed.

Lemma does_in_then lo hi c g k : does c g → patches lo hi k → does_in lo hi (c ;+ k) g.
Proof.
  intros Hd Hk s f fs P Q Hp Hi HQ HP. apply wp_bind. eapply Hd; [done| |done].
  intros f' s' E Hi' [K1 K2 K3 K4]. apply Hk; [congruence|]. intros m Hm. eapply HQ; try done.
  - eapply inv_heap; [..|exact Hi']; done.
  - cbn. congruence.
  - cbn. by rewrite K1 in Hm.
Qed.

(** * Parametric instructions *)

Lemma wp_available s f fs (Q : Z → loader → Prop) F :
  inv s (f :: fs) → Q (zlen (opd_cells (c_opds f))) s → wp available_stack_cell Q F s.
Proof.
  intros [_ (c&Hok&_)] HQ. pose proof Hok as [Hc _ _ _].
  apply wp_bind. eapply wp_ctx; [done|]. apply wp_bind. eapply wp_cur_block; [done|]. intros b Hb.
  apply wp_ret. by rewrite (available _ _ _ _ _ _ Hok Hb).
Qed.

Lemma wp_cur_poly s f fs (Q : BranchBlock → loader → Prop) F :
  inv s (f :: fs) → (∀ b, is_stack_polymorphic b = c_unreachable f → Q b s) → wp cur_block Q F s.
Proof.
  intros [_ (c&Hok&_)] HQ. eapply wp_cur_block; [done|]. intros b Hb. apply HQ. apply (bo_poly _ _ _ Hb).
Qed.

(** The last cell of the innermost operands. *)
Lemma wp_top_cell {A} s f fs o os (k : Z → L A) Q F :
  inv s (f :: fs) → c_opds f = o :: os → wp (k (opd_code o)) Q F s →
  wp (let+ c := ctx in let+ t := ref_at (frame_ref (refs c) - 1) in k t) Q F s.
Proof.
  intros Hi Ef HQ. pose proof (inv_opds_wf _ _ _ _ Hi) as Hos. destruct Hi as [_ (c&Hok&_)].
  pose proof Hok as [Hc Hr _ _]. rewrite Ef in Hos. apply Forall_cons in Hos as [Ho _].
  apply wp_bind. eapply wp_ctx; [done|]. apply wp_bind. eapply wp_ref_at; [done| |exact HQ].
  pose proof (opd_cells_pos os o Ho). rewrite (ro_top _ _ Hr), (used_index _ _ _ (ro_used _ _ Hr)) by lia.
  rewrite <- (last_cell os o Ho). cbn [stack_cells]. rewrite Ef, zlen_app, index_app_r by
    (rewrite ?zlen_app; lia). f_equal. lia.
Qed.

Lemma wp_drop_opd s f fs o os n (Q : unit → loader → Prop) F :
  inv s (f :: fs) → c_opds f = o :: os → zlen (cells_of o) = n →
  (∀ s', inv s' (with_opds os f :: fs) → kept s s' → Q tt s') → wp (drop_cells n) Q F s.
Proof.
  intros Hi Ef Hn HQ. pose proof (inv_opds_wf _ _ _ _ Hi) as Hos. rewrite Ef in Hos.
  apply Forall_cons in Hos as [_ Hos]. destruct Hi as [Hwf (c&Hok&[N1 N2])].
  cbn [stack_cells] in *. rewrite Ef in *. cbn [opd_cells] in *. rewrite app_assoc in *.
  eapply wp_drop_cells; [exact Hok|exact Hn|]. intros s' c' Hok' K E M _. apply HQ; [|done].
  eapply (inv_opds _ _ _ f); try done. rewrite zlen_app in N1. pose proof (zlen_nonneg (cells_of o)).
  constructor; cbn; [rewrite M; lia|by rewrite E].
Qed.

Lemma zlen_opds_pos s f fs o os : inv s (f :: fs) → c_opds f = o :: os → 1 <= zlen (opd_cells (c_opds f)).
Proof.
  intros Hi Ef. pose proof (inv_opds_wf _ _ _ _ Hi) as Hos. rewrite Ef in *.
  apply Forall_cons in Hos as [Ho _]. by apply opd_cells_pos.
Qed.

(** The four types and the open one. *)
Lemma top_opd_cases s f fs o os : inv s (f :: fs) → c_opds f = o :: os →
  o = None ∨ ∃ t, o = Some t ∧ is_value_type t = true.
Proof.
  intros Hi Ef. pose proof (inv_opds_wf _ _ _ _ Hi) as Hos. rewrite Ef in *.
  apply Forall_cons in Hos as [Ho _]. destruct o as [t|]; eauto.
Qed.

Lemma does_drop lo hi : lo < hi → does_in lo hi prepare_drop (drop_opd Loader).
Proof.
  intros Hlo s f fs P Q Hp Hi HQ HP. unfold drop_opd in *.
  apply wp_bind. eapply wp_cur_poly; [done|]. intros b Eb. apply wp_bind. eapply wp_available; [done|].
  rewrite Eb. destruct (c_opds f) as [|o os] eqn:Ef.
  { change (zlen (opd_cells [])) with 0. change (0 <=? 0) with true. change (0 <? 0) with false.
    cbn [andb]. destruct (c_unreachable f); cbn [negb].
    - apply wp_ret. eapply HQ; [done|done|done|apply unchanged_refl|lia|lia].
    - apply wp_fail, refused_wrong; [|by apply HP]. by eapply lost_reading. }
  pose proof (zlen_opds_pos _ _ _ _ _ Hi Ef) as Hpos. rewrite Ef in Hpos.
  rewrite (proj2 (Z.leb_gt _ 0)), (proj2 (Z.ltb_lt 0 _)) by lia. cbn [andb].
  eapply wp_top_cell; [done..|]. destruct (top_opd_cases _ _ _ _ _ Hi Ef) as [->|(t&->&Ht)].
  { apply wp_fail, refused_wrong; [|by apply HP]. by eapply lost_reading. }
  assert (∀ n k, zlen (cells_of (Some t)) = n → patches lo hi k →
    wp (drop_cells n ;+ k) Q (refused P) s) as Hfin.
  { intros n k Hn Hk. apply wp_bind. eapply wp_drop_opd; [done..|]. intros s' Hi' [K1 K2 K3 K4].
    apply Hk; [congruence|]. intros m Hm. eapply HQ; try done; [by eapply inv_heap, Hi'|cbn; congruence|].
    cbn. by rewrite K1 in Hm. }
  change (opd_code (Some t)) with t.
  destruct ((t =? VALUE_TYPE_I32) || (t =? VALUE_TYPE_F32)) eqn:E1.
  - assert (zlen (cells_of (Some t)) = 1) as E by (by vtype Ht).
    specialize (Hfin 1 _ E (patches_skip lo hi)). unfold wp, lbind, mbind in *.
    by destruct (drop_cells 1 s) as [[[]|] s'| |].
  - replace ((t =? VALUE_TYPE_I64) || (t =? VALUE_TYPE_F64)) with true by (by vtype Ht).
    apply Hfin; [by vtype Ht|]. apply patches_at_p, patches_poke. lia.
Qed.

Lemma does_select lo hi : lo < hi → does_in lo hi prepare_select (select_opds Loader).
Proof.
  intros Hlo s f fs P Q Hp Hi HQ HP. unfold select_opds in *.
  apply wp_bind. eapply wp_cur_poly; [done|]. intros b Eb. apply wp_bind.
  eapply wp_pop; [done..| |intros E; apply HP; by rewrite E]. intros f1 s1 E1 Hi1 [K1 K2 K3 K4].
  rewrite E1 in *. pose proof (pop_same _ _ _ E1) as (_&_&_&Eu).
  apply wp_bind. eapply wp_available; [done|]. rewrite Eb, <- Eu.
  assert (lost h0 s1) as Hl1 by (by eapply (lost_reading s1)).
  destruct (c_opds f1) as [|o os] eqn:Ef.
  { change (zlen (opd_cells [])) with 0. change (0 <=? 0) with true. change (0 <? 0) with false.
    cbn [andb]. destruct (c_unreachable f1) eqn:Eu1; cbn [negb].
    - apply (wp_push_any _ s1 f1 fs None); [done|done|]. intros s2 Hi2 [J1 J2 J3 J4]. rewrite Ef in Hi2.
      eapply HQ; [done|done|congruence| |lia|lia]. rewrite J1, K1. apply unchanged_refl.
    - apply wp_fail, refused_wrong; [done|by apply HP]. }
  pose proof (zlen_opds_pos _ _ _ _ _ Hi1 Ef) as Hpos. rewrite Ef in Hpos.
  rewrite (proj2 (Z.leb_gt _ 0)), (proj2 (Z.ltb_lt 0 _)) by lia. cbn [andb].
  eapply wp_top_cell; [done..|]. destruct (top_opd_cases _ _ _ _ _ Hi1 Ef) as [->|(t&->&Ht)].
  { apply wp_bind. apply wp_fail, refused_wrong; [done|by apply HP]. }
  change (opd_code (Some t)) with t.
  assert (∀ k, patches lo hi k → wp (k ;+ wasm_loader_push_pop_frame_ref 2 t t) Q (refused P) s1) as Hfin.
  { intros k Hk. apply wp_bind, Hk; [congruence|]. intros m Hm.
    assert (pops (replicate 2 t) f1 = pop t (with_opds os f1)) as Ep.
    { assert (pop t f1 = Some (with_opds os f1)) as Ep1 by (unfold pop; by rewrite Ef, Z.eqb_refl).
      unfold pops. cbn [replicate rev app pop_rev]. rewrite Ep1.
      change (Some (with_opds os f1) ≫= _) with (pop t (with_opds os f1) ≫= pop_rev []).
      by destruct (pop t (with_opds os f1)). }
    eapply wp_pop_push; [by eapply inv_heap, Hi1|done..| |]; rewrite Ep.
    - intros f2 s2 E2 Hi2 [J1 J2 J3 J4]. eapply HQ; [|exact Hi2|cbn in *; congruence| | |].
      + by destruct (pop t (with_opds os f1)).
      + rewrite J1. cbn. by rewrite K1 in Hm.
      + cbn in J3. unfold max_cells in *. cbn in J3. lia.
      + cbn in J4. unfold max_blocks in *. cbn in J4. lia.
    - intros E2. apply HP. by destruct (pop t (with_opds os f1)). }
  apply Hfin. destruct ((t =? VALUE_TYPE_I32) || (t =? VALUE_TYPE_F32)) eqn:E32; [apply patches_skip|].
  replace ((t =? VALUE_TYPE_I64) || (t =? VALUE_TYPE_F64)) with true by (by vtype Ht).
  apply patches_at_p, patches_poke. lia.
Qed.

(** * Locals and globals *)

Lemma wp_local s (P : Prop) Q :
  lost h0 s →
  (∀ v q t ofs, loader_leb_uint32 (l_mem s) (l_p s) p_end = Some (v, q) →
     local_type_of func v = Some t → is_value_type t = true → index (local_offsets func) v = Some ofs →
     Q (t, ofs) (set_l_p q s)) →
  (loader_leb_uint32 (l_mem s) (l_p s) p_end = None → P) →
  (∀ v q, loader_leb_uint32 (l_mem s) (l_p s) p_end = Some (v, q) → local_type_of func v = None → P) →
  wp (GET_LOCAL_INDEX_TYPE_AND_OFFSET func) Q (refused P) s.
Proof.
  intros Hl HQ HP1 HP2. destruct Hfunc as [Ht Hls Hn Hofs _]. pose proof (zlen_param_types _ Ht) as Hp.
  apply wp_bind. eapply wp_read_leb_uint32; [done| |done]. intros v q E. cbv zeta.
  pose proof (zlen_nonneg (local_types func)) as Hn0. pose proof (tw_params _ Ht) as Hpc.
  unfold uint32. rewrite wrap_small by lia. unfold local_type_of in *.
  destruct (Z.leb_spec (param_count (f_type func) + zlen (local_types func)) v).
  { apply wp_fail, refused_wrong; [done|]. eapply HP2; [done|]. apply index_none. rewrite zlen_app. lia. }
  pose proof (loader_leb_uint32_span _ _ _ _ _ E) as [_ Hv]. rewrite imported_or_own_app.
  destruct (index_some (param_types (f_type func) ++ local_types func) v) as [t Et]; [rewrite zlen_app; lia|].
  destruct (index_some (local_offsets func) v) as [ofs Eo]; [lia|].
  apply wp_bind. rewrite Et. apply wp_ret. apply wp_bind. eapply wp_at; [done|]. apply wp_ret.
  eapply HQ; [done..| |done]. eapply (index_Forall (fun t => is_value_type t = true)); [|exact Et].
  apply Forall_app. split; [by apply param_types_wf|done].
Qed.

Lemma handled_local fast stack g (i : Z → instr) s0 s f fs :
  (∀ t, is_value_type t = true → does (stack t) (g t)) →
  (∀ x st, type_instr (i x) st = match local_type_of func x with Some t => on_top (g t) st | None => None end) →
  reading s0 s → l_p s = l_p s0 + 1 → inv s0 (f :: fs) →
  handled (local_access func fast stack) s0 s (steps (index_instr i (l_mem s0) p_end (l_p s)) (f :: fs)).
Proof.
  intros Hd Et Hr Hp Hi P Q HQ HP. apply wp_bind, wp_get. cbv beta. apply wp_bind. unfold index_instr in *.
  pose proof (rd_mem _ _ Hr) as Em. eapply wp_local; [by eapply lost_reading|..]; rewrite Em.
  - intros v q t ofs E El Ht Eo. rewrite E in *. cbn [imm fst snd] in *.
    pose proof (loader_leb_uint32_span _ _ _ _ _ E) as [Hq _].
    refine ((_ : handled _ s0 (set_l_p q s) (steps (Some (i v, q)) (f :: fs))) P Q HQ HP).
    eapply (handled_does_in _ (g t) s0 (set_l_p q s)); [by apply reading_move|cbn; lia|done| |by rewrite Et, El].
    apply does_in_then; [by apply Hd|]. replace (l_p s - 1) with (l_p s0) by lia. apply patches_fast. cbn. lia.
  - intros E. rewrite E in *. by apply HP.
  - intros v q E El. rewrite E in *. apply HP, steps_none. by rewrite Et, El.
Qed.

Lemma wp_global s (P : Prop) Q :
  lost h0 s →
  (∀ v q g, loader_leb_uint32 (l_mem s) (l_p s) p_end = Some (v, q) →
     global_of module v = Some g → is_value_type g.1 = true → Q (v, g) (set_l_p q s)) →
  (loader_leb_uint32 (l_mem s) (l_p s) p_end = None → P) →
  (∀ v q, loader_leb_uint32 (l_mem s) (l_p s) p_end = Some (v, q) → global_of module v = None → P) →
  wp (global_access module func) Q (refused P) s.
Proof.
  intros Hl HQ HP1 HP2. destruct Hmodule as [_ _ _ Hg Hn _]. rewrite zlen_app in Hn.
  apply wp_bind. eapply wp_read_leb_uint32; [done| |done]. intros v q E.
  pose proof (zlen_nonneg (import_globals module)). pose proof (zlen_nonneg (globals module)).
  unfold uint32. rewrite wrap_small by lia. unfold global_of in *.
  destruct (Z.leb_spec (zlen (import_globals module) + zlen (globals module)) v).
  { apply wp_fail, refused_wrong; [done|]. eapply HP2; [done|]. apply index_none. rewrite zlen_app. lia. }
  pose proof (loader_leb_uint32_span _ _ _ _ _ E) as [_ Hv]. rewrite imported_or_own_app.
  destruct (index_some (import_globals module ++ globals module) v) as [g Eg]; [rewrite zlen_app; lia|].
  apply wp_bind. rewrite Eg. apply wp_ret, wp_ret. eapply HQ; [done..|].
  by eapply (index_Forall (fun g => is_value_type g.1 = true)).
Qed.

Lemma handled_global (k : Z → Z * (Z * bool) → L unit) g (i : Z → instr) s0 s f fs :
  (∀ x st, type_instr (i x) st = match global_of module x with Some d => on_top (g d) st | None => None end) →
  (∀ v q d, global_of module v = Some d → is_value_type d.1 = true → l_p s < q →
     does_in (l_p s0) q (k (l_p s) (v, d)) (g d)) →
  reading s0 s → inv s0 (f :: fs) →
  handled (let+ p := lget l_p in let+ d := global_access module func in k p d) s0 s
    (steps (index_instr i (l_mem s0) p_end (l_p s)) (f :: fs)).
Proof.
  intros Et Hd Hr Hi P Q HQ HP. apply wp_bind, wp_get. cbv beta. apply wp_bind. unfold index_instr in *.
  pose proof (rd_mem _ _ Hr) as Em. eapply wp_global; [by eapply lost_reading|..]; rewrite Em.
  - intros v q d E Eg Hg. rewrite E in *. cbn [imm] in *.
    pose proof (loader_leb_uint32_span _ _ _ _ _ E) as [Hq _].
    refine ((_ : handled _ s0 (set_l_p q s) (steps (Some (i v, q)) (f :: fs))) P Q HQ HP).
    eapply (handled_does_in _ (g d) s0 (set_l_p q s)); [by apply reading_move|cbn; lia|done| |by rewrite Et, Eg].
    apply Hd; [done|done|cbn; lia].
  - intros E. rewrite E in *. by apply HP.
  - intros v q E El. rewrite E in *. apply HP, steps_none. by rewrite Et, El.
Qed.

Lemma handled_variable op c s0 s f fs :
  prepare_variable module func op = Some c → reading s0 s → l_p s = l_p s0 + 1 → l_p s0 < p_end →
  inv s0 (f :: fs) →
  handled c s0 s (steps (decode_op (opcode_code op) (l_mem s0) p_end (l_p s)) (f :: fs)).
Proof.
  intros Hc Hr Hp Hle Hi.
  assert (∀ t, is_value_type t = true →
    does (wasm_loader_pop_frame_ref t ;+ wasm_loader_push_frame_ref t) (fun f => push t <$> pop t f)) as Htee.
  { intros t Ht. eapply does_ext; [|by apply does_seq; [apply does_pop|apply does_push]].
    intros g. cbv beta. by destruct (pop t g). }
  destruct op; try discriminate Hc; injection Hc as <-.
  - eapply handled_does_in; [done|lia|done|apply does_drop; lia|done].
  - eapply handled_does_in; [done|lia|done|apply does_select; lia|done].
  - by eapply (handled_local _ _ (fun t f => Some (push t f)) ILocalGet); [apply does_push|..].
  - by eapply (handled_local _ _ pop ILocalSet); [apply does_pop|..].
  - by eapply (handled_local _ _ (fun t f => push t <$> pop t f) ILocalTee).
  - eapply (handled_global (fun p g => wasm_loader_push_frame_ref g.2.1 ;+ _)
              (fun d f => Some (push d.1 f)) IGlobalGet); [done| |done|done].
    intros v q d _ Hd Hq. cbn [fst snd]. apply does_in_then; [by apply does_push|].
    apply patches_if; [apply patches_poke; lia|apply patches_skip].
  - eapply (handled_global _ (fun d f => if d.2 then pop d.1 f else None) IGlobalSet); [|  |done|done].
    + intros x st. cbn [Typing.type_instr]. destruct (global_of module x) as [[t []]|]; [done| |done].
      by destruct st.
    + intros v q d _ Hd Hq. cbn [fst snd]. destruct d as [t []]; cbn [fst snd negb] in *.
      * apply does_in_then; [by apply does_pop|].
        repeat apply patches_if; first [apply patches_poke; lia|apply patches_skip].
      * intros s' f' fs' P Q _ Hi' _ HP. apply wp_fail, refused_wrong; [|by apply HP].
        by eapply (lost_reading s').
  - eapply handled_does_in; [done|lia|done|apply does_drop; lia|done].
  - eapply handled_does_in; [done|lia|done|apply does_select; lia|done].
Qed.

(** * Control instructions *)

Lemma does_unreachable : does unreachable_from_here (fun f => Some (unreachable f)).
Proof. intros s f fs P Q Hi HQ HP. eapply wp_unreachable; [done|]. intros s' Hi' K. by eapply HQ. Qed.

Lemma does_map c g h : does c g → does unreachable_from_here h →
  (∀ f, h f = Some (unreachable f)) → does (c ;+ unreachable_from_here) (fun f => unreachable <$> g f).
Proof.
  intros Hc Hu Eh. eapply does_ext; [|by apply does_seq; [exact Hc|exact Hu]].
  intros f. cbv beta. destruct (g f) as [f'|]; [|done]. apply Eh.
Qed.

Lemma does_return : does (pop_types (result_types (f_type func)) ;+ unreachable_from_here)
  (fun f => unreachable <$> pops (result_types (f_type func)) f).
Proof.
  eapply does_map; [|apply does_unreachable|done]. apply does_pops, result_types_wf, (fw_type _ Hfunc).
Qed.

Lemma does_call t : type_wf t → does (pass_arguments t) (call_opds t).
Proof.
  intros Ht. eapply does_ext; [|apply does_seq;
    [apply does_pops, param_types_wf, Ht|apply does_then_note, does_pushes, result_types_wf, Ht]].
  intros f. cbv beta. unfold call_opds. by destruct (pops _ f).
Qed.

Lemma handled_call s0 s f fs :
  reading s0 s → inv s0 (f :: fs) →
  handled (prepare_call module func) s0 s (steps (index_instr ICall (l_mem s0) p_end (l_p s)) (f :: fs)).
Proof.
  intros Hr Hi. apply handled_index; [done..|]. intros v q E. pose proof (reading_move _ _ q Hr) as Hr'.
  pose proof (loader_leb_uint32_span _ _ _ _ _ E) as [_ Hv].
  destruct Hmodule as [_ Hfs Hn _ _ _]. intros P Q HQ HP. unfold check_function_index. apply wp_bind.
  assert (∀ x, type_instr (ICall v) (f :: fs) = x → function_of module v = None → x = None) as Hno
    by (intros x <- E'; cbn [Typing.type_instr]; by rewrite E').
  rewrite zlen_app in Hn. pose proof (zlen_nonneg (import_functions module)). pose proof (zlen_nonneg (functions module)).
  unfold uint32. rewrite wrap_small by lia. unfold function_of in *.
  destruct (Z.leb_spec (zlen (import_functions module) + zlen (functions module)) v).
  { apply wp_fail, refused_wrong; [by eapply lost_reading|]. apply HP, steps_none, (Hno _ eq_refl).
    apply index_none. rewrite zlen_app. lia. }
  destruct (index_some (import_functions module ++ functions module) v) as [t Et]; [rewrite zlen_app; lia|].
  apply wp_ret. apply wp_bind. rewrite imported_or_own_app, Et. apply wp_ret.
  refine ((_ : handled _ s0 (set_l_p q s) (steps (Some (ICall v, q)) (f :: fs))) P Q HQ HP).
  eapply (handled_does _ (call_opds t)); [done|done|apply does_call; by eapply index_Forall|].
  cbn [Typing.type_instr]. unfold function_of. by rewrite Et.
Qed.

Lemma handled_call_indirect s0 s f fs :
  reading s0 s → inv s0 (f :: fs) →
  handled (prepare_call_indirect module func) s0 s
    (steps (decode_op (opcode_code WASM_OP_CALL_INDIRECT) (l_mem s0) p_end (l_p s)) (f :: fs)).
Proof.
  intros Hr Hi P Q HQ HP. change (decode_op _ _ _ _) with
    (imm (loader_leb_uint32 (l_mem s0) (l_p s) p_end) (fun t p =>
       if check_buf p p_end 1 then Some (ICallIndirect t (load_Z (l_mem s0) p 1), p + 1) else None)) in *.
  destruct Hmodule as [Hts _ _ _ _ (Ht1&Ht2&Ht3)]. pose proof (rd_mem _ _ Hr) as Em.
  apply wp_bind. eapply wp_read_leb_uint32; [by eapply lost_reading|..]; rewrite Em;
    [|intros E; rewrite E in *; by apply HP].
  intros v q E. rewrite E in *. cbn [imm] in *.
  pose proof (loader_leb_uint32_span _ _ _ _ _ E) as [_ Hv].
  apply wp_bind. apply wp_bind, wp_get. cbn [l_p set_l_p].
  destruct (check_buf q p_end 1); [|apply wp_fail, refused_wrong; [by eapply lost_reading, Hi; apply reading_move|by apply HP]].
  apply wp_ret. apply wp_bind, wp_read_uint8. cbn [l_p l_mem set_l_p]. rewrite Em in *.
  set (b := load_Z (l_mem s0) q 1) in *. set (s1 := set_l_p (q + 1) (set_l_p q s)).
  assert (reading s0 s1) as Hr1 by (by do 2 apply reading_move).
  assert (∀ msg, has_table module b = false → refused P (failed_with msg s1)) as Hno.
  { intros msg Hf. apply refused_wrong; [by eapply lost_reading|]. apply HP, steps_none.
    cbn [Typing.type_instr]. by rewrite Hf. }
  apply wp_bind. unfold check_table_index, has_table in *.
  unfold uint32. rewrite wrap_small by lia.
  destruct (Z.eqb_spec b 0) as [Eb|]; cbn [negb]; [|by apply wp_fail, Hno]. rewrite Eb in *. cbn [Z.eqb andb] in *.
  destruct (Z.leb_spec (import_table_count module + table_count module) 0).
  { apply wp_fail, Hno. rewrite (proj2 (Z.ltb_ge 0 _)); [done|lia]. }
  apply wp_ret. refine ((_ : handled _ s0 s1 (steps (Some (ICallIndirect v 0, q + 1)) (f :: fs))) P Q HQ HP).
  assert (type_instr (ICallIndirect v 0) (f :: fs) = match index (m_types module) v with
    | Some t => on_top (fun f => pop VALUE_TYPE_I32 f ≫= call_opds t) (f :: fs) | None => None end) as Et.
  { cbn [Typing.type_instr]. unfold has_table. cbn [Z.eqb andb]. by rewrite (proj2 (Z.ltb_lt 0 _)) by lia. }
  destruct (Z.leb_spec (zlen (m_types module)) v).
  - rewrite steps_none by (by rewrite Et, index_none). intros P' Q' _ HP'. apply wp_bind.
    eapply wp_pop; [by eapply inv_reading|done| |intros _; by apply HP'].
    intros f' s' _ Hi' _. apply wp_fail, refused_wrong; [|by apply HP']. by eapply (lost_reading s').
  - destruct (index_some (m_types module) v) as [t Ev]; [lia|]. rewrite Ev in Et.
    eapply (handled_does _ (fun f => pop VALUE_TYPE_I32 f ≫= call_opds t)); [done|done| |by rewrite Et].
    apply does_seq; [by apply does_pop|]. unfold lbind, at_index, mbind. rewrite Ev. unfold lret, mret.
    apply does_call. by eapply index_Forall.
Qed.

(** * Branches *)

(** No integer from [p] on is the label 2^32 - 1, whose successor is 0 in C. *)
Definition tame (m : mem) (p : Z) : Prop :=
  ∀ a v q, p <= a → loader_leb_uint32 m a p_end = Some (v, q) → v < 2 ^ 32 - 1.

Lemma wp_branch s f fs (P : Prop) Q :
  inv s (f :: fs) → tame (l_mem s) (l_p s) →
  (∀ l q f' s', loader_leb_uint32 (l_mem s) (l_p s) p_end = Some (l, q) →
     branch_opds Loader (f :: fs) l f = Some f' → inv s' (f' :: fs) → kept (set_l_p q s) s' →
     Q (zlen (f :: fs) - l - 1) s') →
  (loader_leb_uint32 (l_mem s) (l_p s) p_end = None → P) →
  (∀ l q, loader_leb_uint32 (l_mem s) (l_p s) p_end = Some (l, q) →
     branch_opds Loader (f :: fs) l f = None → P) →
  wp (check_branch_block func) Q (refused P) s.
Proof.
  intros Hi Ht HQ HP1 HP2. assert (lost h0 s) as Hl by (by eapply (lost_reading s)).
  apply wp_bind. eapply wp_read_leb_uint32; [done| |done]. intros l q E.
  pose proof (loader_leb_uint32_span _ _ _ _ _ E) as [_ Hv]. pose proof (Ht _ _ _ (Z.le_refl _) E) as Hw.
  apply wp_bind. eapply wp_check_br; [by eapply inv_reading, Hi|lia| |by eapply HP2].
  intros f' s' Eb Hi' K. pose proof Hi' as [_ (c'&Hok'&_)]. pose proof Hok' as [Hc' _ (bs&_&_&E1&_) _].
  apply wp_bind. eapply wp_ctx; [done|]. apply wp_ret. rewrite E1, zlen_cons, <- (zlen_cons f). by eapply HQ.
Qed.

Lemma kept_move s s' q : kept (set_l_p q s) s' →
  l_mem s' = l_mem s ∧ l_p s' = q ∧ max_cells s <= max_cells s' ∧ max_blocks s <= max_blocks s'.
Proof. by intros [? ? ? ?]. Qed.

Lemma handled_br (pre : L unit) gpre (post : L unit) gpost (i : Z → instr) s0 s f fs :
  reading s0 s → inv s0 (f :: fs) → tame (l_mem s0) (l_p s) → does pre gpre → does post gpost →
  (∀ g g', gpre g = Some g' → same_block g g') →
  (∀ l st, type_instr (i l) st = on_top (fun g => gpre g ≫= fun g => branch_opds Loader st l g ≫= gpost) st) →
  (∀ g g' st l, same_block g g' → branch_opds Loader (g' :: st) l g' = branch_opds Loader (g :: st) l g') →
  handled (pre ;+ (check_branch_block func ;+ post)) s0 s
    (steps (index_instr i (l_mem s0) p_end (l_p s)) (f :: fs)).
Proof.
  intros Hr Hi Ht Hpre Hpost Hsame Et Hbr P Q HQ HP. unfold index_instr in *.
  pose proof (rd_mem _ _ Hr) as Em. destruct (maxima_reading _ _ Hr) as [M1 M2].
  assert (∀ l q, loader_leb_uint32 (l_mem s0) (l_p s) p_end = Some (l, q) →
    (gpre f ≫= fun g => branch_opds Loader (f :: fs) l g ≫= gpost) = None → P) as HP2.
  { intros l q E En. rewrite E in HP. apply HP, steps_none. rewrite Et. cbn [on_top]. by rewrite En. }
  assert (loader_leb_uint32 (l_mem s0) (l_p s) p_end = None → P) as HP1 by (intros E; rewrite E in HP; by apply HP).
  apply wp_bind. eapply Hpre; [by eapply inv_reading| |].
  2:{ intros E. destruct (loader_leb_uint32 (l_mem s0) (l_p s) p_end) as [[l q]|] eqn:El; [|by apply HP1].
      eapply HP2; [done|]. by rewrite E. }
  intros f1 s1 E1 Hi1 [K1 K2 K3 K4]. pose proof (Hsame _ _ E1) as Hs1. rewrite Em in K1.
  apply wp_bind. eapply wp_branch; [done|by rewrite K1, K2|..]; rewrite ?K1, ?K2.
  2:{ exact HP1. }
  2:{ intros l q E Eb. rewrite (Hbr f) in Eb by done. eapply HP2; [done|]. rewrite E1. cbn. by rewrite Eb. }
  intros l q f2 s2 E Eb Hi2 K%kept_move. destruct K as (J1&J2&J3&J4). rewrite (Hbr f) in Eb by done.
  eapply Hpost; [done| |].
  - intros f3 s3 E3 Hi3 [I1 I2 I3 I4]. eapply (HQ q (f3 :: fs)).
    + rewrite E. cbn [imm steps]. rewrite Et. cbn [on_top]. rewrite E1. cbn. rewrite Eb. cbn. by rewrite E3.
    + constructor; [done|congruence| |lia|lia]. rewrite I1, J1, K1. apply unchanged_refl.
  - intros E3. eapply HP2; [done|]. rewrite E1. cbn. rewrite Eb. cbn. by rewrite E3.
Qed.

(** Only the label and the type of a block matter to a branch. *)
Lemma branch_same g g' st l h : same_block g g' → branch_opds Loader (g' :: st) l h = branch_opds Loader (g :: st) l h.
Proof.
  intros (E1&E2&E3&E4). unfold branch_opds. rewrite !index_cons. destruct (l =? 0); [|done].
  unfold label_types. by rewrite E1, E2.
Qed.

Lemma exact_rev_same ts : ∀ f f', exact_rev ts f = Some f' → same_block f f'.
Proof.
  induction ts as [|t ts IH]; intros f f'; [by intros [= <-]|]. cbn [exact_rev]. unfold pop_exact.
  destruct (c_opds f) as [|[t'|] os]; [done| |done]. destruct (t' =? t); [|done]. intros E%IH. exact E.
Qed.

Lemma takes_same d ts f f' : takes d ts f = Some f' → same_block f f'.
Proof.
  unfold takes. destruct d; [apply pop_rev_same..|].
  destruct (c_unreachable f); [apply pop_rev_same|apply exact_rev_same].
Qed.

Lemma branch_opds_same d st l f f' : branch_opds d st l f = Some f' → same_block f f'.
Proof.
  unfold branch_opds. destruct (index st l) as [t|]; [|done]. destruct (takes _ _ _) as [g|] eqn:E; [|done].
  intros [= <-]. by apply takes_same in E.
Qed.

End step.
