(* ===== verification/LoaderBlocks.v ===== *)
(** The control instructions of the loader against the validation algorithm:
    branches, [br_table], the opening, the [else] and the end of a block; and one
    whole turn of the loop. *)
From stdpp Require Import base gmap list numbers strings.
From Stdlib Require Import Strings.Byte ZArith Lia.
From S2P Require Import Prelude CMemory WasmTypes Opcodes Leb FindBlock LoaderCtx Validate Typing Wp.
From S2P Require Import LoaderInv LoaderOps LoaderStep.

(** * The bytes of the labels *)

Lemma decode_labels_span m e : ∀ n p ls q, decode_labels n m e p = Some (ls, q) →
  p + Z.of_nat n <= q ∧ (n ≠ O → q <= e) ∧ length ls = n.
Proof.
  induction n as [|n IH]; intros p ls q; [intros [= <- <-]; repeat split; [lia|done]|]. cbn [decode_labels].
  destruct (loader_leb_uint32 m p e) as [[l p1]|] eqn:E; [|done]. cbn [imm].
  destruct (decode_labels n m e p1) as [[ls1 q1]|] eqn:E1; [|done]. intros [= <- <-].
  apply loader_leb_uint32_span in E as [? _]. destruct (IH _ _ _ E1) as (Hq&He&<-).
  split_and!; [lia| |done]. intros _. destruct ls1; [|by apply He].
  injection E1 as <-. lia.
Qed.

Lemma decode_labels_many m e n p : e - p <= Z.of_nat n → decode_labels (S n) m e p = None.
Proof.
  intros Hn. destruct (decode_labels (S n) m e p) as [[ls q]|] eqn:E; [|done].
  destruct (decode_labels_span _ _ _ _ _ _ E) as (?&He&_). specialize (He ltac:(done)). lia.
Qed.

Lemma bind_some {A B} (a : A) (k : A → option B) : Some a ≫= k = k a.
Proof. done. Qed.

Section step.
Context `{BoundedPool} (h0 : scratch) (module : module_info) (func : func_info).
Context (Hmodule : module_wf module) (Hfunc : func_wf func).
Local Abbreviation inv := (inv h0).
Local Abbreviation ctx_ok := (ctx_ok h0).
Local Abbreviation refused := (refused h0).
Local Abbreviation p_end := (p_end func).
Local Abbreviation type_instr := (type_instr Loader module func).
Local Abbreviation steps := (steps module func).
Local Abbreviation handled := (handled h0 func).
Local Abbreviation reached := (reached h0 func).
Local Abbreviation does := (does h0).
Local Abbreviation tame := (tame func).

(** * Branches *)

Lemma handled_br_op s0 s f fs :
  reading s0 s → inv s0 (f :: fs) → tame (l_mem s0) (l_p s) →
  handled (check_branch_block func ;+ unreachable_from_here) s0 s
    (steps (index_instr IBr (l_mem s0) p_end (l_p s)) (f :: fs)).
Proof.
  intros Hr Hi Ht.
  change (check_branch_block func ;+ unreachable_from_here)
    with (lret tt ;+ (check_branch_block func ;+ unreachable_from_here)).
  eapply (handled_br h0 module func _ Some _ (fun g => Some (unreachable g)));
    [done..|apply does_skip|apply does_unreachable| | |].
  - intros g g' [= <-]. done.
  - intros l st. cbn [Typing.type_instr]. destruct st as [|g st]; [done|]. cbn.
    by destruct (branch_opds _ _ _ _).
  - intros. by apply branch_same.
Qed.

Lemma handled_br_if s0 s f fs :
  reading s0 s → inv s0 (f :: fs) → tame (l_mem s0) (l_p s) →
  handled (wasm_loader_pop_frame_ref VALUE_TYPE_I32 ;+ check_branch_block func ;+ lret tt) s0 s
    (steps (index_instr IBrIf (l_mem s0) p_end (l_p s)) (f :: fs)).
Proof.
  intros Hr Hi Ht.
  eapply (handled_br h0 module func _ (pop VALUE_TYPE_I32) _ Some); [done..|by apply does_pop|apply does_skip| | |].
  - apply pop_same.
  - intros l st. cbn [Typing.type_instr]. destruct st as [|g st]; [done|]. cbn.
    destruct (pop _ g) as [g'|]; [|done]. cbn. by destruct (branch_opds _ _ _ _).
  - intros. by apply branch_same.
Qed.

(** The types [br_table] compares. *)
Definition table_results (f : control) : list Z :=
  if c_label f =? LABEL_TYPE_LOOP then [] else block_type_get_result_types (c_type f).

Lemma wp_target s f g fs l tgt (Q : BranchBlock → loader → Prop) F :
  inv s (g :: fs) → same_block f g → index (f :: fs) l = Some tgt →
  (∀ b, target_ret_types b = table_results tgt → Q b s) →
  wp (csp_at (zlen (f :: fs) - l - 1)) Q F s.
Proof.
  intros [_ (c&[Hc _ (bs&Hu&Hb&_) _]&_)] (S1&S2&S3&S4) Hl HQ.
  assert (∃ tgt', index (g :: fs) l = Some tgt' ∧ table_results tgt' = table_results tgt) as (tgt'&Hl'&Et).
  { rewrite index_cons in *. destruct (l =? 0); [|by eauto]. injection Hl as <-. eexists. split; [done|].
    unfold table_results. by rewrite S1, S2. }
  destruct (blocks_ok_index _ _ _ _ Hb Hl') as (b&below&Eb&[B1 B2 _ _ _]).
  pose proof (index_range _ _ _ Eb) as Hrange. pose proof (blocks_ok_length _ _ Hb) as Hlen.
  rewrite !zlen_cons in *. eapply wp_csp_at; [done| |].
  - rewrite (used_index _ _ _ Hu) by lia. rewrite <- Eb. f_equal. lia.
  - apply HQ. unfold target_ret_types, table_results in *. by rewrite B1, B2.
Qed.

Lemma kept_moves s s1 s2 q1 q2 :
  kept (set_l_p q1 s) s1 → kept (set_l_p q2 s1) s2 → kept (set_l_p q2 s) s2.
Proof.
  intros [K1 K2 K3 K4] [J1 J2 J3 J4]. constructor; cbn in *; [congruence|done|etrans; eauto..].
Qed.

(** The targets after the first one. *)
Lemma wp_targets f fs first count : count < 2 ^ 32 - 1 → ∀ fuel i s g (P : Prop) Q,
  inv s (g :: fs) → same_block f g → tame (l_mem s) (l_p s) → 0 < i <= count + 1 →
  l_p s <= p_end → p_end - l_p s < Z.of_nat fuel →
  (∀ ls q g' s', decode_labels (Z.to_nat (count + 1 - i)) (l_mem s) p_end (l_p s) = Some (ls, q) →
     table_opds Loader (f :: fs) first ls g = Some g' → inv s' (g' :: fs) → kept (set_l_p q s) s' → Q tt s') →
  (decode_labels (Z.to_nat (count + 1 - i)) (l_mem s) p_end (l_p s) = None → P) →
  (∀ ls q, decode_labels (Z.to_nat (count + 1 - i)) (l_mem s) p_end (l_p s) = Some (ls, q) →
     table_opds Loader (f :: fs) first ls g = None → P) →
  wp (br_table_targets func fuel i count (table_results first)) Q (refused P) s.
Proof.
  intros Hcount. induction fuel as [|fuel IH]; intros i s g P Q Hi Hs Ht Hrange Hp Hfuel HQ HP1 HP2; [lia|].
  cbn [br_table_targets]. destruct (Z.ltb_spec count i).
  { replace (Z.to_nat _) with O in * by lia. apply wp_ret. by eapply (HQ [] (l_p s)). }
  replace (Z.to_nat (count + 1 - i)) with (S (Z.to_nat (count + 1 - (i + 1)))) in * by lia.
  set (n := Z.to_nat (count + 1 - (i + 1))) in *. cbn [decode_labels] in *.
  apply wp_bind. eapply wp_branch; [done|done| | |].
  2:{ intros E. rewrite E in HP1. by apply HP1. }
  2:{ intros l q E Eb. rewrite (branch_same f) in Eb by done. rewrite E in HP1, HP2. cbn [imm] in *.
      destruct (decode_labels n _ _ q) as [[ls q']|]; [|by apply HP1].
      eapply HP2; [done|]. cbn [table_opds]. rewrite Eb. by destruct (index _ l). }
  intros l q g1 s1 E Eb Hi1 K. rewrite (branch_same f) in Eb by done. rewrite E in *. cbn [imm] in *.
  pose proof (loader_leb_uint32_span _ _ _ _ _ E) as [Hq _]. destruct (kept_move _ _ _ K) as (K1&K2&_&_).
  destruct (index (f :: fs) l) as [tgt|] eqn:El; [|unfold branch_opds in Eb; by rewrite El in Eb].
  assert (same_block f g1) as Hs1 by (by eapply same_block_trans, branch_opds_same).
  apply wp_bind. replace (zlen (g :: fs)) with (zlen (f :: fs)) by (by rewrite !zlen_cons).
  eapply wp_target; [done..|]. intros b ->. rewrite (proj2 (Z.eqb_neq i 0)) by lia.
  assert (∀ ls g', table_opds Loader (f :: fs) first (l :: ls) g = g' →
    g' = if bool_decide (table_results first = table_results tgt)
         then table_opds Loader (f :: fs) first ls g1 else None) as Etab.
  { intros ls g' <-. cbn [table_opds]. rewrite El, Eb. done. }
  case_bool_decide as Hag.
  - assert (uint32 (i + 1) = i + 1) as -> by (apply wrap_small; lia).
    eapply IH; [done|done|rewrite K1, K2; intros a v q' Ha; apply Ht; lia|lia|lia|lia|..];
      fold n; rewrite K1, K2.
    + intros ls q' g' s' Ed Eg Hi' K'. eapply HQ; [by rewrite Ed| |done|by eapply kept_moves].
      by rewrite (Etab ls _ eq_refl), Eg.
    + intros Ed. apply HP1. by rewrite Ed.
    + intros ls q' Ed Eg. eapply HP2; [by rewrite Ed|]. by rewrite (Etab ls _ eq_refl).
  - apply wp_fail, refused_wrong; [by eapply (lost_reading h0 s1)|].
    destruct (decode_labels n _ _ q) as [[ls q']|]; [|by apply HP1]. eapply HP2; [done|]. apply (Etab ls _ eq_refl).
Qed.

(** The whole table: at least one target, which fixes the types. *)
Lemma type_table l ls f fs :
  type_instr (IBrTable (l :: ls)) (f :: fs) =
    match index (f :: fs) l with
    | Some first => on_top (fun f => unreachable <$> (pop VALUE_TYPE_I32 f ≫= table_opds Loader (f :: fs) first (l :: ls))) (f :: fs)
    | None => None
    end.
Proof. done. Qed.

Lemma table_first st l ls first f : index st l = Some first →
  table_opds Loader st first (l :: ls) f = branch_opds Loader st l f ≫= table_opds Loader st first ls.
Proof.
  intros El. cbn [table_opds]. rewrite El. unfold table_agrees. rewrite bool_decide_eq_true_2 by done.
  by destruct (branch_opds _ _ _ _).
Qed.

(** The instruction the bytes after the count stand for, if any. *)
Lemma decode_br_table_count m p count q1 :
  loader_leb_uint32 m p p_end = Some (count, q1) →
  decode_br_table m p_end p =
    imm (decode_labels (S (Z.to_nat count)) m p_end q1) (fun ls q => Some (IBrTable ls, q)).
Proof.
  intros E. unfold decode_br_table. rewrite E. cbn [imm]. destruct (Z.ltb_spec (p_end - q1) count); [|done].
  by rewrite decode_labels_many by lia.
Qed.

Lemma table_none f fs g ls l first : pop VALUE_TYPE_I32 f = Some g → index (f :: fs) l = Some first →
  branch_opds Loader (f :: fs) l g ≫= table_opds Loader (f :: fs) first ls = None →
  type_instr (IBrTable (l :: ls)) (f :: fs) = None.
Proof. intros Ep El En. rewrite type_table, El. cbn [on_top]. by rewrite Ep, bind_some, table_first, En. Qed.

Lemma handled_br_table s0 s f fs :
  reading s0 s → inv s0 (f :: fs) → tame (l_mem s0) (l_p s) →
  handled (prepare_br_table func) s0 s (steps (decode_br_table (l_mem s0) p_end (l_p s)) (f :: fs)).
Proof.
  intros Hr Hi Ht P Q HQ HP. pose proof (rd_mem _ _ Hr) as Em. destruct (maxima_reading _ _ Hr) as [M1 M2].
  apply wp_bind. eapply wp_read_leb_uint32; [by eapply lost_reading|..]; rewrite Em.
  2:{ intros E. apply HP. unfold decode_br_table. by rewrite E. }
  intros count q1 E. rewrite (decode_br_table_count _ _ _ _ E) in *. cbn [decode_labels] in *.
  pose proof (loader_leb_uint32_span _ _ _ _ _ E) as [Hq1 Hc]. pose proof (Ht _ _ _ (Z.le_refl _) E) as Hw.
  apply wp_bind. eapply wp_pop; [by eapply inv_reading, Hi; apply reading_move|done| |].
  2:{ intros Ep. apply HP. destruct (loader_leb_uint32 _ q1 _) as [[l q2]|]; [|done]. cbn [imm].
      destruct (decode_labels _ _ _ q2) as [[ls q]|]; [|done]. apply steps_none. rewrite type_table.
      destruct (index _ l); [|done]. cbn [on_top]. by rewrite Ep. }
  intros f1 s1 Ep Hi1 K0%kept_move. destruct K0 as (K1&K2&K3&K4). pose proof (pop_same _ _ _ Ep) as Hs1.
  rewrite Em in K1. apply wp_bind, wp_get. cbv beta. rewrite K2. apply wp_bind. remember (S (Z.to_nat (p_end - q1))) as fuel eqn:Ef.
  cbn [br_table_targets]. rewrite (proj2 (Z.ltb_ge count 0)) by lia. apply wp_bind.
  eapply wp_branch; [done|rewrite K1, K2; intros a v q Ha; apply Ht; lia|..]; rewrite K1, K2.
  2:{ intros E1. apply HP. by rewrite E1. }
  2:{ intros l q2 E1 Eb. apply HP. rewrite E1. cbn [imm]. destruct (decode_labels _ _ _ q2) as [[ls q]|]; [|done].
      rewrite (branch_same f) in Eb by done. apply steps_none. destruct (index (f :: fs) l) as [first|] eqn:El.
      - eapply table_none; [done..|]. by rewrite Eb.
      - by rewrite type_table, El. }
  intros l q2 g s2 E1 Eb Hi2 K. rewrite (branch_same f) in Eb by done. rewrite E1 in *. cbn [imm] in *.
  pose proof (loader_leb_uint32_span _ _ _ _ _ E1) as [Hq2 _]. destruct (kept_move _ _ _ K) as (J1&J2&J3&J4).
  destruct (index (f :: fs) l) as [first|] eqn:El; [|unfold branch_opds in Eb; by rewrite El in Eb].
  assert (same_block f g) as Hsg by (by eapply same_block_trans, branch_opds_same).
  apply wp_bind. replace (zlen (f1 :: fs)) with (zlen (f :: fs)) by (by rewrite !zlen_cons).
  eapply wp_target; [done..|]. intros b ->. cbn [Z.eqb].
  assert (∀ ls, table_opds Loader (f :: fs) first ls g = None → type_instr (IBrTable (l :: ls)) (f :: fs) = None) as Hno.
  { intros ls En. eapply table_none; [done..|]. by rewrite Eb. }
  change (uint32 (0 + 1)) with 1.
  eapply wp_targets; [exact Hw|done|done|rewrite J1, J2, K1; intros a v q Ha; apply Ht; lia|lia|lia|lia|..];
    replace (count + 1 - 1) with count by lia; rewrite J1, J2, K1.
  2:{ intros Ed. apply HP. by rewrite Ed. }
  2:{ intros ls q Ed En. apply HP. rewrite Ed. by apply steps_none, Hno. }
  intros ls q g' s3 Ed Eg Hi3 K'. rewrite Ed in *. destruct (kept_move _ _ _ K') as (I1&I2&I3&I4).
  eapply wp_unreachable; [done|]. intros s4 Hi4 [L1 L2 L3 L4]. eapply (HQ q (unreachable g' :: fs)).
  - unfold steps. cbn [imm LoaderStep.steps]. rewrite type_table, El. cbn [on_top].
    by rewrite Ep, bind_some, table_first, Eb, bind_some, Eg by done.
  - constructor; [done|congruence| |lia|lia]. rewrite L1, I1, J1, K1. apply unchanged_refl.
Qed.

(** * Opening a block *)

Definition block_wf (t : BlockType) : Prop :=
  types_wf (block_type_get_param_types t) ∧ types_wf (block_type_get_result_types t)
  ∧ wasm_get_cell_num (block_type_get_result_types t) < 2 ^ 31.

Lemma value_block_wf v : is_byte_a_type v = true → block_wf (BlockValue v).
Proof.
  unfold is_byte_a_type, block_wf. cbn [block_type_get_param_types block_type_get_result_types].
  intros Hv. destruct (v =? VALUE_TYPE_VOID); [split_and!; done || constructor|].
  rewrite orb_false_r in Hv. split_and!; [constructor|by constructor|by vtype Hv].
Qed.

Lemma func_block_wf i t : index (m_types module) i = Some t → block_wf (BlockFunc t).
Proof.
  intros Hi. destruct Hmodule as [Hts _ _ _ _ _]. assert (type_wf t) as Ht by (by eapply index_Forall).
  split_and!; [by apply param_types_wf|by apply result_types_wf|by apply result_cells].
Qed.

(** The type is read; an opcode followed by an index of one byte is rewritten. *)
Lemma wp_block_type ofs s (P : Prop) Q :
  lost h0 s →
  (∀ r q t m, decode_block_type (l_mem s) p_end (l_p s) = Some (r, q) →
     block_type_of module r = Some t → block_wf t →
     unchanged_outside [(l_p s - 1, Z.min q p_end - (l_p s - 1))] (l_mem s) m →
     Q t (set_l_mem m (set_l_p q s))) →
  (decode_block_type (l_mem s) p_end (l_p s) = None → P) →
  (∀ r q, decode_block_type (l_mem s) p_end (l_p s) = Some (r, q) → block_type_of module r = None → P) →
  wp read_uint8 (fun value_type =>
    wp (if is_byte_a_type value_type then lret (BlockValue value_type)
        else
          move_p (-1) ;+
          let+ type_index := read_leb_uint32 func in
          if zlen (m_types module) <=? type_index then lfail "unknown type"
          else
            let+ t := at_index (m_types module) type_index in
            let+ p := lget l_p in
            poke (p - 2) (opcode_code EXT_OP_BLOCK + ofs) ;+
            lret (BlockFunc t)) Q (refused P)) (refused P) s.
Proof.
  intros Hl HQ HP1 HP2. apply wp_read_uint8. unfold decode_block_type in *.
  destruct (is_byte_a_type (load_Z (l_mem s) (l_p s) 1)) eqn:Eb.
  { apply wp_ret. specialize (HQ _ _ _ (l_mem s) eq_refl eq_refl (value_block_wf _ Eb) (unchanged_refl _ _)).
    by destruct s. }
  apply wp_bind, wp_move_p. cbn [l_p set_l_p]. replace (l_p s + 1 + -1) with (l_p s) by lia.
  apply wp_bind. eapply wp_read_leb_uint32; [done|..]; cbn [l_mem l_p set_l_p].
  2:{ intros E. apply HP1. by rewrite E. }
  intros i q E. rewrite E in *. cbn [imm] in *. pose proof (loader_leb_uint32_span _ _ _ _ _ E) as [Hq Hv].
  destruct (Z.leb_spec (zlen (m_types module)) i).
  { apply wp_fail, refused_wrong; [done|]. eapply HP2; [done|]. cbn [block_type_of]. by rewrite index_none. }
  destruct (index_some (m_types module) i) as [t Et]; [lia|].
  apply wp_bind. eapply wp_at; [done|]. apply wp_bind, wp_get. cbn [l_p set_l_p]. apply wp_bind, wp_mod, wp_ret.
  eapply (HQ (RawIndex i) q _ (store_Z (l_mem s) (q - 2) 1 _)); [done|cbn; by rewrite Et|by eapply func_block_wf|].
  eapply unchanged_weaken; [|apply unchanged_store].
  intros x r [<-|[]] Hx. unfold in_region in *. rewrite length_le_bytes in Hx. cbn in *.
  eexists. split; [by left|]. cbn. lia.
Qed.

Lemma handled_block pre gpre op label s0 s f fs :
  reading s0 s → l_p s = l_p s0 + 1 → inv s0 (f :: fs) → does pre gpre →
  label = LABEL_TYPE_BLOCK + (opcode_code op - opcode_code WASM_OP_BLOCK) →
  (∀ f, (if label =? LABEL_TYPE_IF then pop VALUE_TYPE_I32 f else Some f) = gpre f) →
  handled (pre ;+ handle_op_block_and_loop module func op) s0 s
    (steps (imm (decode_block_type (l_mem s0) p_end (l_p s)) (fun t q => Some (IBlock label t, q))) (f :: fs)).
Proof.
  intros Hr Hp Hi Hpre El Eg P Q HQ HP. pose proof (rd_mem _ _ Hr) as Em. destruct (maxima_reading _ _ Hr) as [M1 M2].
  assert (∀ r q t, block_type_of module r = Some t →
    (gpre f ≫= pops (block_type_get_param_types t)) = None → steps (Some (IBlock label r, q)) (f :: fs) = None) as Hno.
  { intros r q t Et En. apply steps_none. cbn [Typing.type_instr]. rewrite Et. unfold enter_block. cbn [on_top].
    by rewrite Eg, En. }
  apply wp_bind. eapply Hpre; [by eapply inv_reading| |].
  2:{ intros Ep. apply HP. destruct (decode_block_type _ _ _) as [[r q]|]; [|done]. cbn [imm].
      destruct (block_type_of module r) as [t|] eqn:Et; [eapply Hno; [done|by rewrite Ep]|].
      apply steps_none. cbn [Typing.type_instr]. by rewrite Et. }
  intros f1 s1 Ep Hi1 [K1 K2 K3 K4]. rewrite Em in K1. apply wp_bind.
  eapply wp_mono; [apply (wp_block_type (opcode_code op - opcode_code WASM_OP_BLOCK) s1 P) |..].
  1:{ by eapply (lost_reading h0 s1). }
  4:{ intros v s2 Hw. apply wp_bind. exact Hw. }
  4:{ done. }
  all: rewrite K1, K2.
  2:{ intros E. apply HP. by rewrite E. }
  2:{ intros r q E En. apply HP. rewrite E. apply steps_none. cbn [Typing.type_instr]. by rewrite En. }
  intros r q t m E Et (W1&W2&W3) Hm. rewrite E in *. cbn [imm] in *. rewrite Hp in Hm.
  replace (l_p s0 + 1 - 1) with (l_p s0) in Hm by lia.
  apply wp_bind. eapply wp_pops; [by eapply inv_heap, Hi1|done| |].
  2:{ intros En. apply HP. eapply Hno; [done|]. by rewrite Ep, bind_some. }
  intros f2 s2 E2 Hi2 [I1 I2 I3 I4]. apply wp_bind, wp_get. cbv beta. apply wp_bind. rewrite <- El.
  eapply wp_push_frame_csp; [done..|]. intros s3 Hi3 [J1 J2 J3 J4].
  eapply wp_pushes; [done..|]. intros s4 Hi4 [L1 L2 L3 L4].
  eapply (HQ q (pushes (block_type_get_param_types t) (mkControl label t false false []) :: f2 :: fs)).
  - unfold steps. cbn [LoaderStep.steps Typing.type_instr]. rewrite Et. unfold enter_block. cbn [on_top].
    by rewrite Eg, Ep, bind_some, E2.
  - unfold max_cells, max_blocks in *. cbn in *. constructor; unfold max_cells, max_blocks; [done|cbn; congruence| |lia|lia].
    by rewrite L1, J1, I1.
Qed.

(** * The [else] of a block *)

Lemma wp_set_current s f f' fs g (Q : unit → loader → Prop) F :
  inv s (f :: fs) → (∀ b below, block_ok b f below → block_ok (g b) f' below) →
  c_type f' = c_type f → c_opds f' = c_opds f →
  (∀ s', inv s' (f' :: fs) → kept s s' → Q tt s') →
  wp (let+ c := ctx in set_csp (frame_csp (csps c) - 1) g) Q F s.
Proof.
  intros [Hwf (c&Hok&[N1 N2])] Hg Et Eo HQ. pose proof Hok as [Hc _ _ _]. apply wp_bind. eapply wp_ctx; [done|].
  eapply wp_set_top; [exact Hok|exact Hg|]. intros s' c' Hok' K Er Ec. apply HQ; [|done].
  assert (stack_cells (f' :: fs) = stack_cells (f :: fs)) as Es by (cbn [stack_cells]; by rewrite Eo).
  split.
  - apply Forall_cons in Hwf as [[W1 W2 W3 W4] Hwf]. constructor; [|done]. constructor; rewrite ?Et, ?Eo; done.
  - exists c'. rewrite Es. split; [exact Hok'|]. constructor; [by rewrite Er|by rewrite Ec].
Qed.

(** The outermost block is the function, not an [if]. *)
Definition rooted (st : list control) : Prop := ∃ f, last st = Some f ∧ c_label f = LABEL_TYPE_FUNCTION.

Lemma csp_num_of s c cells st : ctx_ok s c cells st → csp_num (csps c) = zlen st.
Proof. by intros [_ _ (bs&_&_&_&E&_) _]. Qed.

Lemma wp_cur_ctx {A} s f fs (k : BranchBlock → WASMLoaderContext → L A) Q F :
  inv s (f :: fs) →
  (∀ b c, block_ok b f (zlen (stack_cells fs)) → csp_num (csps c) = zlen (f :: fs) → wp (k b c) Q F s) →
  wp (let+ b := cur_block in let+ c := ctx in k b c) Q F s.
Proof.
  intros [_ (c&Hok&_)] HQ. pose proof Hok as [Hc _ _ _]. apply wp_bind. eapply wp_cur_block; [done|].
  intros b Hb. apply wp_bind. eapply wp_ctx; [done|]. apply HQ; [done|]. by eapply csp_num_of.
Qed.

Lemma leaves_same d ts f f' : leaves d ts f = Some f' → same_block f f' ∧ c_opds f' = [].
Proof.
  unfold leaves. destruct (takes d ts f) as [g|] eqn:E; [|done]. destruct (c_opds g) eqn:Eo; [|done].
  intros [= <-]. split; [by eapply takes_same|done].
Qed.

Lemma handled_else s0 s f fs :
  reading s0 s → l_p s = l_p s0 + 1 → 0 < l_p s0 → rooted (f :: fs) → inv s0 (f :: fs) →
  handled prepare_else s0 s (steps (Some (IElse, l_p s)) (f :: fs)).
Proof.
  intros Hr Hp Hpos (g&Hg&Elab) Hi P Q HQ HP. destruct (maxima_reading _ _ Hr) as [M1 M2].
  assert (inv s (f :: fs)) as His by (by eapply inv_reading).
  assert (else_block Loader f = None → P) as HP'.
  { intros En. apply HP, steps_none. cbn [Typing.type_instr on_top]. by rewrite En. }
  assert (lost h0 s) as Hl by (by eapply (lost_reading h0 s)).
  eapply wp_cur_ctx; [done|]. intros b c Hb Ec. rewrite Ec. rewrite (bo_label _ _ _ Hb).
  destruct (c_label f =? LABEL_TYPE_IF) eqn:Eif.
  2:{ rewrite orb_true_r. apply wp_fail, refused_wrong; [done|]. apply HP'. unfold else_block. by rewrite Eif. }
  destruct fs as [|h fs]; [injection Hg as ->; by rewrite Elab in Eif|].
  destruct (Z.ltb_spec (zlen (f :: h :: fs)) 2) as [Hlt|].
  { rewrite !zlen_cons in Hlt. pose proof (zlen_nonneg fs). lia. }
  cbn [orb negb]. apply wp_bind.
  eapply wp_check_block_stack; [done|exact Hb|exact (bo_below _ _ _ Hb)| |].
  2:{ intros En. apply HP'. unfold else_block. rewrite Eif. cbn. by rewrite En. }
  intros f1 s1 E1 Hi1 [K1 K2 K3 K4]. destruct (leaves_same _ _ _ _ E1) as [(S1&S2&S3&S4) Eo].
  apply wp_bind, wp_get. cbv beta. apply wp_bind. set (res := block_type_get_result_types (c_type f)) in *.
  set (f2 := mkControl (c_label f) (c_type f) true (c_unreachable f) (c_opds (pushes res f1))).
  eapply (wp_set_current s1 _ f2); [exact Hi1| |cbn; congruence|done|].
  { intros b' below [B1 B2 B3 B4 B5]. constructor; cbn in *; try congruence.
    change NULL with 0. apply Z.eqb_neq. lia. }
  intros s2 Hi2 [I1 I2 I3 I4]. apply wp_bind. eapply wp_reset; [exact Hi2|].
  intros s3 Hi3 [J1 J2 J3 J4]. apply wp_bind.
  eapply (wp_set_current s3 _ (set_unreachable false (with_opds [] f2))); [exact Hi3| |done|done|].
  { intros b' below [B1 B2 B3 B4 B5]. by constructor. }
  intros s4 Hi4 [L1 L2 L3 L4]. rewrite (bo_type _ _ _ Hb).
  assert (types_wf (block_type_get_param_types (c_type f))) as Hpt.
  { destruct His as [Hwf _]. apply Forall_cons in Hwf as [[W1 _ _ _] _]. exact W1. }
  eapply wp_pushes; [exact Hi4|done|]. intros s5 Hi5 [N1 N2 N3 N4].
  eapply (HQ (l_p s) (pushes (block_type_get_param_types (c_type f)) (mkControl (c_label f) (c_type f) true false []) :: h :: fs)).
  - cbn [LoaderStep.steps Typing.type_instr on_top]. unfold else_block. rewrite Eif. cbn [may_else andb]. fold res.
    by rewrite E1.
  - constructor; [done|congruence| |lia|lia]. rewrite N1, L1, J1, I1, K1, (rd_mem _ _ Hr). apply unchanged_refl.
Qed.

(** * The end of a block *)

(** A change of the block stack above its top. *)
Lemma wp_set_above s c cells st i g F (Q : unit → loader → Prop) :
  ctx_ok s c cells st → zlen st <= i < zlen (frame_csp_bottom (csps c)) →
  (∀ s' c', ctx_ok s' c' cells st → kept s s' → refs c' = refs c →
     max_csp_num (csps c') = max_csp_num (csps c) → Q tt s') →
  wp (set_csp i g) Q F s.
Proof.
  intros [Hc Hr (bs&Hu&Hb&E1&E2&E3&E4&E5) Ho] Hi HQ. pose proof (blocks_ok_length _ _ Hb) as Hlen.
  pose proof (zlen_nonneg st). apply wp_bind. eapply wp_ctx; [done|]. cbv zeta.
  destruct (index_some (frame_csp_bottom (csps c)) i) as [b ->]; [lia|]. eapply wp_put_csps; [done|].
  eapply (HQ _ (mkCtx _ (mkCsps _ _ _ _ _ _ _) _)); cbn; try done.
  - split; cbn; [done|done| |done]. exists bs. cbn. rewrite zlen_insert. split_and!; try done.
    apply used_set_above; [done|]. rewrite zlen_rev. lia.
  - constructor; cbn; try done; unfold max_cells, max_blocks; rewrite Hc; cbn; lia.
Qed.

(** The results of the closed block are operands of the enclosing one. *)
Lemma stack_cells_results ts f g gs : c_opds f = [] →
  stack_cells (pushes ts f :: g :: gs) = stack_cells (pushes ts g :: gs).
Proof.
  intros Eo. cbn [stack_cells pushes with_opds c_opds]. rewrite !opd_cells_pushes, Eo. cbn [opd_cells].
  by rewrite <- app_assoc.
Qed.

Lemma wp_resume s c f g gs ts p (Q : unit → loader → Prop) F :
  ctx_ok s c (stack_cells (pushes ts f :: g :: gs)) (g :: gs) → c_opds f = [] →
  zlen (stack_cells (pushes ts f :: g :: gs)) <= max_stack_cell_num (refs c) →
  zlen (g :: gs) <= max_csp_num (csps c) → zlen (g :: gs) < zlen (frame_csp_bottom (csps c)) →
  Forall control_wf (g :: gs) → types_wf ts →
  (∀ s', inv s' (resumed Loader (pushes ts g) :: gs) → kept s s' → Q tt s') →
  wp (set_csp (frame_csp (csps c)) (fun b =>
        mkBranch (label_type b) (block_type b) (start_addr b) (else_addr b) p
          (b_stack_cell_num b) (is_stack_polymorphic b)) ;+
      SET_CUR_BLOCK_STACK_POLYMORPHIC_STATE false) Q F s.
Proof.
  intros Hok Eo N1 N2 Hroom Hwf Hts HQ. rewrite stack_cells_results in * by done.
  pose proof Hok as [_ _ (bs&_&_&Ef&_) _]. apply wp_bind. rewrite Ef.
  eapply wp_set_above; [exact Hok|lia|]. intros s1 c1 Hok1 K1 R1 M1.
  assert (ctx_ok s1 c1 (stack_cells (pushes ts g :: gs)) (pushes ts g :: gs)) as Hok2.
  { destruct Hok1 as [? ? ? ?]. constructor; try done. by eapply (csps_ok_opds _ g). }
  eapply wp_set_polymorphic; [exact Hok2|]. intros s2 c2 Hok3 K2 R2 M2. apply HQ; [|by eapply lkept_trans].
  split.
  - apply Forall_cons in Hwf as [[W1 W2 W3 W4] Hwf]. constructor; [|done]. constructor; try done.
    cbn. apply Forall_app. split; [|done]. apply Forall_rev, Forall_fmap. exact Hts.
  - exists c2. split; [exact Hok3|]. change (stack_cells (resumed Loader (pushes ts g) :: gs)) with (stack_cells (pushes ts g :: gs)).
    constructor; [by rewrite R2, R1|]. rewrite M2, M1. exact N2.
Qed.

Lemma handled_end s0 s f fs :
  reading s0 s → l_p s = l_p s0 + 1 → inv s0 (f :: fs) →
  handled (prepare_end func) s0 s (steps (Some (IEnd, l_p s)) (f :: fs)).
Proof.
  intros Hr Hp Hi P Q HQ HP. destruct (maxima_reading _ _ Hr) as [M1 M2]. pose proof (rd_mem _ _ Hr) as Em.
  assert (inv s (f :: fs)) as His by (by eapply inv_reading).
  cbn [LoaderStep.steps Typing.type_instr] in HQ, HP. unfold end_block in HQ, HP.
  destruct His as [Hwf (c0&Hok0&Hn0)] eqn:Ehis. clear Ehis. apply wp_bind. eapply wp_cur_block; [exact Hok0|]. intros b Hb.
  apply wp_bind. eapply wp_check_block_stack; [by eapply inv_reading|exact Hb|exact (bo_below _ _ _ Hb)| |].
  2:{ intros En. apply HP. by rewrite En. }
  intros f1 s1 E1 Hi1 [K1 K2 K3 K4]. rewrite E1 in HQ, HP. destruct (leaves_same _ _ _ _ E1) as [_ Eo].
  rewrite (bo_label _ _ _ Hb), (bo_else _ _ _ Hb), (bo_type _ _ _ Hb).
  destruct (_ && _); [apply wp_fail, refused_wrong; [by eapply (lost_reading h0 s1)|by apply HP]|].
  destruct Hi1 as [Hwf1 (c1&Hok1&[N1 N2])]. set (res := block_type_get_result_types (c_type f)) in *.
  apply wp_bind. eapply wp_pop_frame_csp; [exact Hok1|]. intros s2 c2 Hok2 [I1 I2 I3 I4] R2 Mx2 Hroom.
  pose proof Hok2 as [Hc2 _ _ _]. apply wp_bind. eapply wp_ctx; [done|]. apply wp_bind, wp_get. cbv beta.
  rewrite (csp_num_of _ _ _ _ Hok2). apply Forall_cons in Hwf as [[W1 W2 W3 W4] Hwf]. rewrite zlen_cons in N2.
  destruct fs as [|g gs].
  - change (0 <? zlen []) with false. apply wp_mod. eapply (HQ (l_p s) []); [done|]. constructor; cbn.
    + exists c2, (stack_cells [pushes res f1]). destruct Hok2. by constructor.
    + done.
    + rewrite I1, K1, Em. apply unchanged_refl.
    + change (max_cells s0 <= max_cells s2). lia.
    + change (max_blocks s0 <= max_blocks s2). lia.
  - rewrite zlen_cons in *. pose proof (zlen_nonneg gs). rewrite (proj2 (Z.ltb_lt 0 _)) by lia.
    eapply (wp_resume s2 c2 f1 g gs res); [exact Hok2|exact Eo|by rewrite R2|rewrite zlen_cons; lia|rewrite zlen_cons; lia|done|done|].
    intros s3 Hi3 [J1 J2 J3 J4]. eapply (HQ (l_p s) (resumed Loader (pushes res g) :: gs)); [done|].
    constructor; [done|congruence| |lia|lia]. rewrite J1, I1, K1, Em. apply unchanged_refl.
Qed.

(** * A turn *)

Lemma handled_control op c s0 s f fs :
  prepare_control module func op = Some c → reading s0 s → l_p s = l_p s0 + 1 → 0 < l_p s0 →
  tame (l_mem s0) (l_p s) → rooted (f :: fs) → inv s0 (f :: fs) →
  handled c s0 s (steps (decode_op (opcode_code op) (l_mem s0) p_end (l_p s)) (f :: fs)).
Proof.
  intros Hc Hr Hp Hpos Ht Hroot Hi. destruct op; try discriminate Hc; injection Hc as <-.
  - by eapply handled_does; [done|done|apply does_unreachable|].
  - by eapply handled_does; [done|done|apply does_skip|].
  - change (handle_op_block_and_loop module func WASM_OP_BLOCK)
      with (lret tt ;+ handle_op_block_and_loop module func WASM_OP_BLOCK).
    by apply (handled_block _ Some); [..|apply does_skip|done|].
  - change (handle_op_block_and_loop module func WASM_OP_LOOP)
      with (lret tt ;+ handle_op_block_and_loop module func WASM_OP_LOOP).
    by apply (handled_block _ Some); [..|apply does_skip|done|].
  - by apply (handled_block _ (pop VALUE_TYPE_I32)); [..|apply does_pop|done|].
  - by apply handled_else.
  - by apply handled_end.
  - by apply handled_br_op.
  - by apply handled_br_if.
  - by apply handled_br_table.
  - by eapply handled_does; [done|done|apply does_return|].
  - by apply handled_call.
  - by apply handled_call_indirect.
Qed.

Lemma prepare_turn_ok s f fs :
  inv s (f :: fs) → rooted (f :: fs) → 0 < l_p s < p_end → tame (l_mem s) (l_p s) →
  handled (prepare_turn module func) s s (steps (decode (l_mem s) p_end (l_p s)) (f :: fs)).
Proof.
  intros Hi Hroot Hp Ht P Q HQ HP. unfold decode in *. apply wp_bind, wp_read_uint8.
  set (s1 := set_l_p (l_p s + 1) s). assert (reading s s1) as Hr by (by apply reading_move).
  change (l_p s + 1) with (l_p s1) in HQ, HP.
  assert (tame (l_mem s) (l_p s1)) as Ht1 by (intros a v q Ha; apply Ht; cbn in Ha; lia).
  destruct (opcode_of _) as [op|] eqn:Eo.
  2:{ apply wp_fail, refused_wrong; [by eapply (lost_reading h0 s)|]. apply HP. by rewrite decode_op_known. }
  apply opcode_of_inv in Eo. rewrite Eo in *. rewrite bind_some.
  destruct (prepare_op module func op) as [c|] eqn:Ec.
  2:{ apply wp_fail, refused_wrong; [by eapply (lost_reading h0 s)|]. apply HP. by rewrite (decode_op_handled module func op _ _ _ Ec). }
  refine ((_ : handled c s s1 _) P Q HQ HP). unfold prepare_op in Ec.
  destruct (prepare_control module func op) eqn:E1; [injection Ec as ->; apply handled_control; try done; cbn; lia|].
  destruct (prepare_variable module func op) eqn:E2; [injection Ec as ->; apply handled_variable; try done; cbn; lia|].
  destruct (prepare_access module func op) eqn:E3; [injection Ec as ->; by apply handled_access|].
  destruct (prepare_memory module func op) eqn:E4; [injection Ec as ->; by eapply handled_memory|].
  destruct (prepare_comparison op) eqn:E5; [injection Ec as ->; apply handled_numeric; auto|].
  destruct (prepare_arithmetic op) eqn:E6; [injection Ec as ->; apply handled_numeric; auto|].
  destruct (prepare_conversion op) eqn:E7; [injection Ec as ->; apply handled_numeric; auto|].
  destruct op; try discriminate Ec. injection Ec as <-. by apply handled_misc.
Qed.

End step.
