(* ===== verification/LoaderLoop.v ===== *)
(** The loop over the code of a function and the whole of
    [wasm_loader_prepare_bytecode]: it ends, gives back the memory it took, and
    accepts the body exactly when the validation algorithm of [Typing], in the
    loader's dialect, ends with every block closed. *)
From stdpp Require Import base gmap list numbers strings.
From Stdlib Require Import Strings.Byte ZArith Lia.
From S2P Require Import Prelude CMemory WasmTypes PoolInfo Opcodes Leb FindBlock LoaderCtx Validate Typing Wp.
From S2P Require Import LoaderInv LoaderOps LoaderStep LoaderBlocks.

(** * Instructions and the code before them *)

Lemma decode_labels_local p m m' e : same_from p m m' → ∀ n q, p <= q →
  decode_labels n m' e q = decode_labels n m e q.
Proof.
  intros Hs. induction n as [|n IH]; intros q Hq; [done|]. cbn [decode_labels].
  rewrite (loader_leb_uint32_local q m m') by (by eapply same_from_le).
  destruct (loader_leb_uint32 m q e) as [[l q1]|] eqn:E; [|done]. cbn [imm].
  apply loader_leb_uint32_span in E as [? _]. by rewrite IH by lia.
Qed.

Section local.
Context (p e : Z) (m m' : mem) (Hs : same_from p m m').

Lemma imm_leb_local {B} (k k' : Z → Z → option B) :
  (∀ v q, p < q → k v q = k' v q) →
  imm (loader_leb_uint32 m' p e) k = imm (loader_leb_uint32 m p e) k'.
Proof.
  intros Hk. rewrite (loader_leb_uint32_local p m m') by done.
  destruct (loader_leb_uint32 m p e) as [[v q]|] eqn:E; [|done]. cbn [imm].
  apply loader_leb_uint32_span in E as [? _]. apply Hk. lia.
Qed.

Lemma index_instr_local c : index_instr c m' e p = index_instr c m e p.
Proof. by apply imm_leb_local. Qed.

Lemma decode_block_type_local : decode_block_type m' e p = decode_block_type m e p.
Proof.
  unfold decode_block_type. rewrite (same_from_load p m m') by (done || lia).
  destruct (is_byte_a_type _); [done|]. by apply imm_leb_local.
Qed.

Lemma decode_br_table_local : decode_br_table m' e p = decode_br_table m e p.
Proof.
  apply imm_leb_local. intros v q Hq. destruct (_ <? _); [done|].
  by rewrite (decode_labels_local p m m') by (done || lia).
Qed.

Lemma decode_op_local b : decode_op b m' e p = decode_op b m e p.
Proof.
  unfold decode_op. destruct (is_access b).
  { apply imm_leb_local. intros v q Hq. by rewrite (loader_leb_uint32_local q m m') by (eapply same_from_le; [done|lia]). }
  destruct (is_numeric b); [done|].
  rewrite !(loader_read_leb_local p m m'), decode_block_type_local, !index_instr_local, decode_br_table_local by done.
  rewrite !(same_from_load p m m') by (done || lia).
  rewrite (imm_leb_local _ (fun t p => if check_buf p e 1 then Some (ICallIndirect t (load_Z m p 1), p + 1) else None)); [done|].
  intros v q Hq. by rewrite (same_from_load p m m') by (done || lia).
Qed.

End local.

Lemma decode_local p e m m' : same_from p m m' → decode m' e p = decode m e p.
Proof.
  intros Hs. unfold decode. rewrite (same_from_load p m m') by (done || lia).
  apply decode_op_local. eapply same_from_le; [done|lia].
Qed.

(** An instruction is at least a byte. *)
Lemma imm_leb_span {B} m e p (k : Z → Z → option B) (P : B → Prop) b :
  imm (loader_leb_uint32 m p e) k = Some b → (∀ v q, p < q → k v q = Some b → P b) → P b.
Proof.
  destruct (loader_leb_uint32 m p e) as [[v q]|] eqn:E; [|done]. cbn [imm].
  apply loader_leb_uint32_span in E as [? _]. intros Hk HP. eapply HP; [|done]. lia.
Qed.

Lemma index_instr_span c m e p i q : index_instr c m e p = Some (i, q) → p <= q.
Proof. intros H. apply (imm_leb_span _ _ _ _ (fun b => p <= b.2) _ H). intros v q' Hq [= <- <-]. cbn. lia. Qed.

Lemma decode_block_type_span m e p r q : decode_block_type m e p = Some (r, q) → p <= q.
Proof.
  unfold decode_block_type. destruct (is_byte_a_type _); [intros [= _ <-]; lia|]. intros H.
  apply (imm_leb_span _ _ _ _ (fun b => p <= b.2) _ H). intros v q' Hq [= <- <-]. cbn. lia.
Qed.

Lemma decode_br_table_span m e p i q : decode_br_table m e p = Some (i, q) → p <= q.
Proof.
  intros H. apply (imm_leb_span _ _ _ _ (fun b => p <= b.2) _ H). intros v q' Hq. destruct (_ <? _); [done|].
  destruct (decode_labels _ _ _ _) as [[ls q1]|] eqn:E; [|done]. intros [= <- <-].
  apply decode_labels_span in E as (?&_). cbn. lia.
Qed.

Lemma imm_leb_const m e p maxbits sign t i q :
  imm (loader_read_leb m p e maxbits sign) (fun _ q => Some (IConst t, q)) = Some (i, q) → p <= q.
Proof.
  destruct (loader_read_leb _ _ _ _ _) as [[v q']|] eqn:E; [|done]. intros [= _ <-].
  apply loader_read_leb_span in E. lia.
Qed.

Lemma imm_block_span m e p label i q :
  imm (decode_block_type m e p) (fun t q => Some (IBlock label t, q)) = Some (i, q) → p <= q.
Proof.
  destruct (decode_block_type m e p) as [[r q']|] eqn:E; [|done]. intros [= _ <-].
  by eapply decode_block_type_span.
Qed.

Lemma decode_op_span b m e p i q : decode_op b m e p = Some (i, q) → p <= q.
Proof.
  unfold decode_op. destruct (is_access b).
  { intros H. apply (imm_leb_span _ _ _ _ (fun b => p <= b.2) _ H). intros v q1 Hq1 H1.
    apply (imm_leb_span _ _ _ _ (fun b => p <= b.2) _ H1). intros v' q2 Hq2 [= <- <-]. cbn. lia. }
  destruct (is_numeric b); [intros [= _ <-]; lia|].
  destruct b as [|b|b]; [intros [= _ <-]; lia| |done].
  repeat match goal with |- context [match ?x with _ => _ end = Some (i, q)] => is_var x; destruct x; try done end;
    first [ intros [= _ <-]; lia | by apply index_instr_span | by apply imm_block_span
          | by apply decode_br_table_span | by apply imm_leb_const | idtac ].
  all: intros H; apply (imm_leb_span _ _ _ _ (fun b => p <= b.2) _ H); intros v q1 Hq1;
    destruct (check_buf _ _ _); [intros [= <- <-]; cbn; lia|done].
Qed.

Lemma decode_span m e p i q : decode m e p = Some (i, q) → p < q.
Proof. intros H%decode_op_span. lia. Qed.

(** * The shape of the validation state *)

(** Instructions work on the operands of the innermost block and leave its label
    and its type. *)
Definition keeps (g : control → option control) : Prop :=
  ∀ f f', g f = Some f' → c_label f' = c_label f ∧ c_type f' = c_type f.

Lemma keeps_some h : (∀ f, c_label (h f) = c_label f ∧ c_type (h f) = c_type f) → keeps (fun f => Some (h f)).
Proof. intros Hh f f' [= <-]. apply Hh. Qed.

Lemma keeps_bind g h : keeps g → keeps h → keeps (fun f => g f ≫= h).
Proof.
  intros Hg Hh f f'. destruct (g f) as [f1|] eqn:E; [|done]. rewrite bind_some. intros E'.
  destruct (Hg _ _ E), (Hh _ _ E'). split; congruence.
Qed.

Lemma keeps_map g h : keeps g → (∀ f, c_label (h f) = c_label f ∧ c_type (h f) = c_type f) →
  keeps (fun f => h <$> g f).
Proof.
  intros Hg Hh f f'. destruct (g f) as [f1|] eqn:E; [|done]. cbn. intros [= <-].
  destruct (Hg _ _ E), (Hh f1). split; congruence.
Qed.

Lemma same_keeps f f' : same_block f f' → c_label f' = c_label f ∧ c_type f' = c_type f.
Proof. by intros (?&?&_). Qed.

Lemma keeps_pop t : keeps (pop t).
Proof. intros f f' E%pop_same. by apply same_keeps. Qed.

Lemma keeps_pops ts : keeps (pops ts).
Proof. intros f f' E%pop_rev_same. by apply same_keeps. Qed.

Lemma keeps_call t : keeps (call_opds t).
Proof.
  intros f f'. unfold call_opds. destruct (pops _ f) as [g|] eqn:E; [|done]. intros [= <-].
  by apply keeps_pops in E.
Qed.

Lemma keeps_branch d st l : keeps (branch_opds d st l).
Proof. intros f f' E%branch_opds_same. by apply same_keeps. Qed.

Lemma keeps_table d st first ls : keeps (table_opds d st first ls).
Proof.
  induction ls as [|l ls IH]; intros f f'; [by intros [= <-]|]. cbn [table_opds].
  destruct (index st l); [|done]. destruct (branch_opds d st l f) as [g|] eqn:E; [|done].
  destruct (table_agrees _ _ _); [|done]. intros E'. destruct (keeps_branch _ _ _ _ _ E), (IH _ _ E'). split; congruence.
Qed.

Lemma keeps_drop d : keeps (drop_opd d).
Proof.
  intros f f'. unfold drop_opd. destruct (c_opds f) as [|[t|] os].
  - destruct (c_unreachable f); by intros [= <-].
  - by intros [= <-].
  - destruct d; by intros [= <-].
Qed.

Lemma keeps_select d : keeps (select_opds d).
Proof.
  intros f f'. unfold select_opds. destruct (pop _ f) as [g|] eqn:E; [|done]. apply keeps_pop in E.
  destruct (c_opds g) as [|[t|] os].
  - destruct (c_unreachable g); [|done]. by intros [= <-].
  - destruct (pop t _) as [h|] eqn:E'; [|done]. apply keeps_pop in E'. intros [= <-]. cbn in *. intuition congruence.
  - destruct d, os; first [done|by intros [= <-]].
Qed.

Lemma keeps_else d : keeps (else_block d).
Proof.
  intros f f'. unfold else_block. destruct (_ && _); [|done]. destruct (leaves d _ f); [|done]. by intros [= <-].
Qed.

Create HintDb keeps.
#[local] Hint Resolve keeps_some keeps_bind keeps_map keeps_pop keeps_pops keeps_call keeps_branch
  keeps_table keeps_drop keeps_select keeps_else : keeps.

Section shape.
Context (d : dialect) (module : module_info) (func : func_info).
Local Abbreviation type_instr := (type_instr d module func).

(** An instruction changes the innermost block, opens one or closes it. *)
Inductive shape : list control → list control → Prop :=
| shape_top f f' fs : c_label f' = c_label f → c_type f' = c_type f → shape (f :: fs) (f' :: fs)
| shape_open b f f' fs : c_label f' = c_label f → c_type f' = c_type f → shape (f :: fs) (b :: f' :: fs)
| shape_last f : shape [f] []
| shape_close f g g' gs : c_label g' = c_label g → c_type g' = c_type g → shape (f :: g :: gs) (g' :: gs).

Lemma on_top_shape g f fs st : keeps g → on_top g (f :: fs) = Some st → shape (f :: fs) st.
Proof.
  intros Hg. cbn [on_top]. destruct (g f) as [f'|] eqn:E; [|done]. intros [= <-].
  apply Hg in E as []. by constructor.
Qed.

Lemma enter_shape label t f fs st : enter_block label t (f :: fs) = Some st → shape (f :: fs) st.
Proof.
  unfold enter_block. cbn [on_top]. destruct ((if label =? LABEL_TYPE_IF then _ else _) ≫= _) as [f'|] eqn:E; [|done].
  intros [= <-]. assert (keeps (fun f => (if label =? LABEL_TYPE_IF then pop VALUE_TYPE_I32 f else Some f)
    ≫= pops (block_type_get_param_types t))) as Hk.
  { apply keeps_bind; [|auto with keeps]. destruct (label =? LABEL_TYPE_IF); [auto with keeps|].
    by apply keeps_some. }
  apply Hk in E as []. by constructor.
Qed.

Lemma end_shape f fs st : end_block d f fs = Some st → shape (f :: fs) st.
Proof.
  unfold end_block. destruct (leaves d _ f); [|done]. destruct (_ && _); [done|].
  destruct fs as [|g gs]; intros [= <-]; [constructor|]. by constructor; destruct d.
Qed.

Lemma type_shape i f fs st : type_instr i (f :: fs) = Some st → shape (f :: fs) st.
Proof.
  assert (∀ g st, keeps g → on_top g (f :: fs) = Some st → shape (f :: fs) st) as Hon by (intros; by eapply on_top_shape).
  destruct i; cbn [Typing.type_instr]; intros Ht;
    repeat match type of Ht with
    | match hd_error ?x ≫= ?k with _ => _ end = _ => destruct (hd_error x ≫= k); [|done]
    | match ?x with _ => _ end = Some _ => is_var x; destruct x
    | match ?k ?x with _ => _ end = Some _ => destruct (k x); try done
    | match ?k ?x ?y with _ => _ end = Some _ => destruct (k x y); try done
    | match ?k ?x ?y ?z with _ => _ end = Some _ => destruct (k x y z); try done
    | (if ?b then _ else _) = Some _ => destruct b; try done
    end;
    try (eapply Hon; [|exact Ht]; auto 6 with keeps).
  - by apply enter_shape in Ht.
  - by apply end_shape.
  - destruct (is_store op); auto with keeps.
Qed.

Lemma type_instr_nil i : type_instr i [] = None.
Proof.
  destruct i; cbn [Typing.type_instr]; try done;
    repeat match goal with |- context [match ?x with _ => _ end] => destruct x; try done end.
Qed.

Lemma shape_rooted f fs st : shape (f :: fs) st → rooted (f :: fs) → st = [] ∨ rooted st.
Proof.
  intros Hs (r&Hr&Hl). inversion Hs as [? f' ? E _|b ? f' ? E _| |? g g' gs E _]; subst; [right..|by left|right];
    unfold rooted.
  - destruct fs as [|g fs]; [exists f'; cbn in *; split; congruence|by exists r].
  - destruct fs as [|g fs]; [exists f'; cbn in *; split; congruence|by exists r].
  - destruct gs as [|h gs]; [exists g'; cbn in *; split; congruence|by exists r].
Qed.

End shape.

Lemma decodes_local m m' e p ins q : same_from p m m' → decodes m e p ins q → decodes m' e p ins q.
Proof.
  intros Hs Hd. induction Hd as [p|p i q ins r Hp Hi Hd IH]; [constructor|].
  econstructor; [done|by rewrite (decode_local p e m m')|]. apply IH. eapply same_from_le; [done|].
  apply decode_span in Hi. lia.
Qed.

Lemma decodes_same m m' e p ins q : same_from p m m' → decodes m e p ins q ↔ decodes m' e p ins q.
Proof.
  intros Hs. split; apply decodes_local; [done|]. intros x Hx. symmetry. by apply Hs.
Qed.

(** What is outside a stretch of code that ends at [q] is outside it from [q] on. *)
Lemma unchanged_same_from a n m m' q : unchanged_outside [(a, n)] m m' → a + n <= q → same_from q m m'.
Proof.
  intros Hu Hq x Hx. apply Hu. intros r [<-|[]]. unfold in_region. cbn. lia.
Qed.

(** * The loop *)

Section loop.
Context `{BoundedPool} (h0 : scratch) (module : module_info) (func : func_info).
Context (Hmodule : module_wf module) (Hfunc : func_wf func).
Local Abbreviation inv := (inv h0).
Local Abbreviation refused := (refused h0).
Local Abbreviation p_end := (p_end func).
Local Abbreviation type_instr := (type_instr Loader module func).
Local Abbreviation type_seq := (type_seq Loader module func).

(** From [p] the code closes every block of the state. *)
Definition completes (m : mem) (p : Z) (st : list control) : Prop :=
  ∃ ins q, decodes m p_end p ins q ∧ type_seq ins st = Some [].

Lemma completes_inv m p f fs : completes m p (f :: fs) →
  p < p_end ∧ ∃ i q st, decode m p_end p = Some (i, q) ∧ type_instr i (f :: fs) = Some st ∧ completes m q st.
Proof.
  intros (ins&r&Hd&Ht). destruct Hd as [p|p i q ins r Hp Hi Hd]; [done|]. split; [done|].
  cbn [Typing.type_seq] in Ht. destruct (type_instr i (f :: fs)) as [st|] eqn:Est; [|done].
  exists i, q, st. split_and!; [done|done|]. by exists ins, r.
Qed.

Lemma completes_same m m' p st : same_from p m m' → completes m' p st ↔ completes m p st.
Proof.
  intros Hs. unfold completes. split; intros (ins&q&Hd&Ht); exists ins, q; (split; [|done]).
  - by apply (decodes_same m m').
  - by apply (decodes_same m m').
Qed.

(** Cells and blocks enough for every state the instructions go through. *)
Definition bounded (cells blocks : Z) (ins : list instr) (st : list control) : Prop :=
  ∀ ins1 ins2 st1, ins = ins1 ++ ins2 → type_seq ins1 st = Some st1 →
    zlen (stack_cells st1) <= cells ∧ zlen st1 <= blocks.

Lemma bounded_nil c b st : zlen (stack_cells st) <= c → zlen st <= b → bounded c b [] st.
Proof. intros Hc Hb ins1 ins2 st1 E Ht. symmetry in E. apply app_nil in E as [-> _]. by injection Ht as <-. Qed.

Lemma bounded_cons c b i ins st st1 : zlen (stack_cells st) <= c → zlen st <= b →
  type_instr i st = Some st1 → bounded c b ins st1 → bounded c b (i :: ins) st.
Proof.
  intros Hc Hb Hi Hins ins1 ins2 st2 E Ht. destruct ins1 as [|j ins1]; [by injection Ht as <-|].
  injection E as <- E. cbn [Typing.type_seq] in Ht. rewrite Hi in Ht. by eapply Hins.
Qed.

Lemma inv_maxima s st : inv s st → zlen (stack_cells st) <= max_cells s ∧ zlen st <= max_blocks s.
Proof. intros [_ (c&[Hc _ _ _]&[N1 N2])]. unfold max_cells, max_blocks. by rewrite Hc. Qed.

Lemma tame_same m m' p q : tame func m p → same_from q m m' → p <= q → tame func m' q.
Proof. intros Ht Hs Hq a v r Ha E. eapply (Ht a v r); [lia|]. by rewrite <- (loader_leb_uint32_local a m m') by (eapply same_from_le; [done|lia]). Qed.

Lemma prepare_loop_ok fuel : ∀ s f fs (P : Prop) (Q : unit → loader → Prop),
  inv s (f :: fs) → rooted (f :: fs) → 0 < l_p s → tame func (l_mem s) (l_p s) →
  0 < Z.of_nat fuel → p_end - l_p s < Z.of_nat fuel →
  (∀ ins q s', decodes (l_mem s) p_end (l_p s) ins q → type_seq ins (f :: fs) = Some [] →
     holds h0 s' [] → bounded (max_cells s') (max_blocks s') ins (f :: fs) →
     unchanged_outside [(l_p s, p_end - l_p s)] (l_mem s) (l_mem s') →
     max_cells s <= max_cells s' → max_blocks s <= max_blocks s' → Q tt s') →
  (∀ s' g gs, ¬ completes (l_mem s) (l_p s) (f :: fs) → inv s' (g :: gs) → Q tt s') →
  (¬ completes (l_mem s) (l_p s) (f :: fs) → P) →
  wp (prepare_loop module func fuel) Q (refused P) s.
Proof.
  induction fuel as [|fuel IH]; intros s f fs P Q Hi Hroot Hpos Ht Hf0 Hfuel HQ1 HQ2 HP; [done|].
  cbn [prepare_loop]. apply wp_bind, wp_get. cbv beta. destruct (Z.ltb_spec (l_p s) p_end) as [Hp|Hp].
  2:{ apply wp_ret. eapply HQ2; [|done]. intros [Hp' _]%completes_inv. lia. }
  apply wp_bind. eapply (prepare_turn_ok h0); [done..|lia|done| |].
  2:{ intros En. apply HP. intros (_&i&q&st&Ed&Est&_)%completes_inv. unfold steps in En. by rewrite Ed, Est in En. }
  intros q st s' Es [R1 R2 R3 R4 R5]. unfold steps in Es.
  destruct (decode (l_mem s) p_end (l_p s)) as [[i q']|] eqn:Ed; [|done].
  destruct (type_instr i (f :: fs)) as [st'|] eqn:Est; [|done]. injection Es as <- <-.
  pose proof (decode_span _ _ _ _ _ Ed) as Hq. destruct (inv_maxima _ _ Hi) as [B1 B2].
  assert (same_from q' (l_mem s) (l_mem s')) as Hsame by (eapply unchanged_same_from; [done|lia]).
  destruct st' as [|g gs].
  - destruct fuel as [|fuel]; [lia|]. cbn [prepare_loop]. apply wp_bind, wp_get. cbv beta.
    rewrite R2, Z.ltb_irrefl. apply wp_ret. eapply (HQ1 [i] q'); [|by cbn; rewrite Est|done| | |done|done].
    + econstructor; [done..|constructor].
    + pose proof (zlen_nonneg (f :: fs)). pose proof (zlen_nonneg (stack_cells (f :: fs))).
      eapply bounded_cons; [lia|lia|done|]. apply bounded_nil.
      * change (0 <= max_cells s'). lia.
      * change (0 <= max_blocks s'). lia.
    + eapply unchanged_weaken; [|exact R3]. intros x r [<-|[]] Hx. eexists. split; [by left|].
      unfold in_region in *. cbn in *. lia.
  - destruct (shape_rooted _ _ _ (type_shape _ _ _ _ _ _ _ Est) Hroot) as [?|Hroot']; [done|].
    assert (∀ st, completes (l_mem s') q' st ↔ completes (l_mem s) q' st) as Hcs by (intros; by apply completes_same).
    assert (¬ completes (l_mem s') q' (g :: gs) → ¬ completes (l_mem s) (l_p s) (f :: fs)) as Hnc.
    { intros Hn (_&j&r&st&Ed'&Est'&Hc)%completes_inv. rewrite Ed in Ed'. injection Ed' as <- <-.
      rewrite Est in Est'. injection Est' as <-. by apply Hn, Hcs. }
    eapply IH; [exact R1|done|rewrite R2; lia|rewrite R2; eapply tame_same; [done|done|lia]|lia|rewrite R2; lia|..];
      rewrite R2.
    + intros ins r s2 Hd Htq Hh Hb Hu M1 M2. eapply (HQ1 (i :: ins) r); [| |done| | |lia|lia].
      * econstructor; [done|done|]. by apply (decodes_same (l_mem s) (l_mem s')).
      * cbn. by rewrite Est.
      * eapply bounded_cons; [lia|lia|done|done].
      * eapply unchanged_weaken; [|eapply unchanged_trans; [exact R3|exact Hu]].
        intros x a [<-|[<-|[]]] Hx; unfold in_region in *; cbn in *; (eexists; split; [by left|cbn; lia]).
    + intros s2 h hs Hn Hi2. eapply HQ2; [by apply Hnc|done].
    + intros Hn. by apply HP, Hnc.
Qed.

(** * The context *)

Lemma wp_catch {A B} (c : L A) (k : option A → L B) (Q : B → loader → Prop) F s :
  wp c (fun a => wp (k (Some a)) Q F) (fun s => wp (k None) Q F s) s → wp (mbind c k) Q F s.
Proof. unfold wp, mbind. by destruct (c s) as [[a|] s'| |]. Qed.

Lemma wp_malloc s l n (Q : nat → loader → Prop) (F : loader → Prop) :
  owns h0 (l_heap s) l →
  (∀ id h, owns h0 h (id :: l) → Q id (set_l_heap h s)) → (∀ h, owns h0 h l → F (set_l_heap h s)) →
  wp (LoaderCtx.wasm_runtime_malloc n) Q F s.
Proof.
  intros Ho HQ HF. unfold wp, LoaderCtx.wasm_runtime_malloc. destruct (grants _ _) as [a|].
  - apply HQ. by apply owns_malloc.
  - apply HF. by apply owns_bump.
Qed.

Lemma wp_info s l i t n (Q : unit → loader → Prop) F :
  owns h0 (l_heap s) l → i ∈ l → (∀ h, owns h0 h l → Q tt (set_l_heap h s)) → wp (alloc_info i t n) Q F s.
Proof. intros Ho Hi HQ. apply wp_mod, HQ. by apply owns_info. Qed.

Lemma wp_free s l i (Q : unit → loader → Prop) F :
  owns h0 (l_heap s) (i :: l) → (∀ h, owns h0 h l → Q tt (set_l_heap h s)) →
  wp (LoaderCtx.wasm_runtime_free i) Q F s.
Proof. intros Ho HQ. apply wp_mod, HQ. by apply owns_free. Qed.

(** No context, and nothing left of it. *)
Definition gone (s : loader) : Prop := l_ctx s = None ∧ owns h0 (l_heap s) [].

Lemma wp_ctx_init s (Q : unit → loader → Prop) (F : loader → Prop) :
  gone s → (∀ s', inv s' [] → kept s s' → Q tt s') → (∀ s', gone s' → F s') →
  wp wasm_loader_ctx_init Q F s.
Proof.
  intros [Hc Ho] HQ HF. apply wp_bind. eapply wp_malloc; [exact Ho| |by intros h Hh; apply HF].
  intros i1 h1 H1. apply wp_bind. eapply wp_info; [exact H1|by left|]. intros h1' H1'.
  apply wp_catch. eapply wp_malloc; [exact H1'| |].
  2:{ intros h Hh. apply wp_bind. eapply wp_free; [exact Hh|]. intros h' Hh'. by apply HF. }
  intros i2 h2 H2. apply wp_bind. eapply wp_info; [exact H2|by left|]. intros h2' H2'.
  apply wp_catch. eapply wp_malloc; [exact H2'| |].
  2:{ intros h Hh. apply wp_bind. eapply wp_free; [exact Hh|]. intros h' Hh'. apply wp_bind.
      eapply wp_free; [exact Hh'|]. intros h'' Hh''. by apply HF. }
  intros i3 h3 H3. apply wp_bind. eapply wp_info; [exact H3|by left|]. intros h3' H3'. apply wp_mod, HQ.
  - split; [constructor|]. eexists. split.
    + constructor; [done| | |eapply owns_perm; [|exact H3']; apply perm_swap].
      * constructor; try done. by eexists.
      * exists []. split_and!; try done. by eexists.
    + split; cbn; done.
  - constructor; try done; unfold max_cells, max_blocks; rewrite Hc; cbn; lia.
Qed.

Lemma wp_ctx_destroy s (Q : unit → loader → Prop) F :
  lost h0 s ∨ gone s →
  (∀ h, same_heap h0 h → Q tt (set_l_heap h s)) → wp wasm_loader_ctx_destroy Q F s.
Proof.
  intros Hs HQ. apply wp_bind, wp_get. destruct Hs as [(c&Hc&Ho)|[Hc Ho]]; rewrite Hc.
  - apply wp_bind. eapply wp_free; [exact Ho|]. intros h1 H1. apply wp_bind. eapply wp_free; [exact H1|].
    intros h2 H2. eapply wp_free; [exact H2|]. intros h3 H3. by apply (HQ h3), owns_nil.
  - apply wp_ret. specialize (HQ (l_heap s) (owns_nil _ _ Ho)). by destruct s.
Qed.

(** * The function *)

Lemma entry_inv s label_p (P : Prop) (Q : unit → loader → Prop) :
  inv s [] → (∀ s', inv s' (entry_state func) → kept s s' → Q tt s') →
  wp (wasm_loader_push_frame_csp LABEL_TYPE_FUNCTION (BlockFunc (f_type func)) label_p) Q (refused P) s.
Proof.
  intros Hi HQ. destruct Hfunc as [Ht _ _ _ _]. eapply wp_push_frame_csp; [exact Hi|..|exact HQ].
  - by apply param_types_wf.
  - by apply result_types_wf.
  - by apply result_cells.
Qed.

(** The body from its first byte. *)
Definition accepted (m : mem) : Prop := completes m (code func) (entry_state func).

Record passed (s s' : loader) : Prop := {
  pa_typed : ∃ ins q, decodes (l_mem s) p_end (code func) ins q
    ∧ type_seq ins (entry_state func) = Some []
    ∧ bounded (max_stack_cells (l_verdict s')) (max_block_num (l_verdict s')) ins (entry_state func);
  pa_mem : unchanged_outside [(code func, code_size func)] (l_mem s) (l_mem s')
}.

Lemma check_body_ok s :
  gone s → l_p s = code func → tame func (l_mem s) (code func) →
  wp (check_body module func) (fun _ s' => lost h0 s' ∧ passed s s')
    (fun s' => (lost h0 s' ∨ gone s') ∧ (l_error s' = oom_msg ∨ ¬ accepted (l_mem s))) s.
Proof.
  intros Hg Hp Ht. destruct (fw_code _ Hfunc) as [Hpos Hsize].
  apply wp_bind, wp_catch, wp_ctx_init; [done| |].
  2:{ intros s' Hs'. apply wp_fail. split; [by right|by left]. }
  intros s1 Hi1 [K1 K2 K3 K4]. apply wp_ret. apply wp_bind, wp_get. cbv beta.
  eapply (wp_mono _ _ _ (refused (¬ accepted (l_mem s)))); [|intros a s' Hq; exact Hq|].
  2:{ intros s' [Hl Hw]. split; [by left|exact Hw]. }
  apply wp_bind, entry_inv; [exact Hi1|]. intros s2 Hi2 [J1 J2 J3 J4]. apply wp_bind.
  assert (l_mem s2 = l_mem s) as Em by congruence. assert (l_p s2 = code func) as Ep by congruence.
  eapply (prepare_loop_ok _ s2); [exact Hi2|by eexists|lia|by rewrite Em, Ep|lia| |..]; rewrite ?Em, ?Ep; unfold Validate.p_end.
  - lia.
  - intros ins q s' Hd Htq (c&cells&Hok) Hb Hu _ _. pose proof Hok as [Hc _ _ Ho].
    apply wp_bind. eapply wp_ctx; [done|]. rewrite (csp_num_of _ _ _ _ _ Hok). change (0 <? zlen []) with false.
    apply wp_bind. eapply wp_ctx; [done|]. apply wp_mod. split; [by exists c|]. constructor; cbn.
    + exists ins, q. split_and!; [done|done|]. unfold max_cells, max_blocks in Hb. by rewrite Hc in Hb.
    + replace (code func + code_size func - code func) with (code_size func) in Hu by lia. exact Hu.
  - intros s' g gs Hn [_ (c&Hok&_)]. pose proof Hok as [Hc _ _ _].
    apply wp_bind. eapply wp_ctx; [done|]. rewrite (csp_num_of _ _ _ _ _ Hok), zlen_cons.
    pose proof (zlen_nonneg gs). rewrite (proj2 (Z.ltb_lt 0 _)) by lia.
    apply wp_fail, refused_wrong; [by eapply lost_of|exact Hn].
  - done.
Qed.

Lemma prepare_ok s :
  owns h0 (l_heap s) [] → tame func (l_mem s) (code func) →
  ∃ b s', wasm_loader_prepare_bytecode module func s = Ok b s' ∧ same_heap h0 (l_heap s')
    ∧ if b : bool then passed s s' else l_error s' = oom_msg ∨ ¬ accepted (l_mem s).
Proof.
  intros Ho Ht. unfold wasm_loader_prepare_bytecode. set (s1 := set_l_ctx None (set_l_p (code func) s)).
  rewrite (mbind_ok (modify (fun s => set_l_ctx None (set_l_p (code func) s))) _ s tt s1) by done.
  assert (gone s1) as Hg by done.
  pose proof (check_body_ok s1 Hg eq_refl Ht) as Hb. unfold wp in Hb.
  destruct (check_body module func s1) as [o s2| |] eqn:E; [|done|done]. rewrite (mbind_ok _ _ _ _ _ E).
  assert (lost h0 s2 ∨ gone s2) as Hd by (destruct o; [left|]; apply Hb).
  pose proof (wp_ctx_destroy s2 (fun _ s' => ∃ h, same_heap h0 h ∧ s' = set_l_heap h s2) (fun _ => False) Hd
    (fun h Hh => ex_intro _ h (conj Hh eq_refl))) as Hw. unfold wp in Hw.
  destruct (wasm_loader_ctx_destroy s2) as [[u|] s3| |] eqn:Ed; try done. rewrite (mbind_ok _ _ _ _ _ Ed).
  destruct Hw as (h&Hh&->). do 2 eexists. split; [reflexivity|]. split; [done|].
  destruct o as [[]|]; [|apply Hb]. destruct Hb as [_ [Hty Hm]]. by constructor.
Qed.

End loop.
