(* ===== verification/Dialects.v ===== *)
(** The dialects of the validation algorithm of [Typing]: all the loader accepts is
    well typed by the rules of the specification, but for two that do not matter
    to safety; and it accepts what is well typed by all of them if the code has no
    dead instructions and its tables no loops with parameters. *)
From stdpp Require Import base gmap list numbers strings.
From Stdlib Require Import Strings.Byte ZArith Lia.
From S2P Require Import Prelude CMemory Opcodes FindBlock LoaderCtx Validate Typing Wp.
From S2P Require Import LoaderInv LoaderOps LoaderStep LoaderBlocks LoaderLoop.

(** * Simulation by the lenient dialect *)

(** The same block, which the second state may know to be unreachable where the
    first one has forgotten it. *)
Record rel (f g : control) : Prop := {
  rel_label : c_label g = c_label f;
  rel_type : c_type g = c_type f;
  rel_else : c_else g = c_else f;
  rel_opds : c_opds g = c_opds f;
  rel_unreachable : c_unreachable f = true → c_unreachable g = true
}.

#[export] Instance rel_refl : Reflexive rel.
Proof. by intros f; constructor. Qed.

(** What succeeds on the first succeeds on the second, and related. *)
Definition sim (g1 g2 : control → option control) : Prop :=
  ∀ f g r, rel f g → g1 f = Some r → ∃ r', g2 g = Some r' ∧ rel r r'.

Definition mono (h : control → control) : Prop := ∀ f g, rel f g → rel (h f) (h g).

Lemma sim_some h : mono h → sim (fun f => Some (h f)) (fun f => Some (h f)).
Proof. intros Hh f g r Hr [= <-]. eexists. split; [done|]. by apply Hh. Qed.

Lemma sim_bind g1 g2 k1 k2 : sim g1 g2 → sim k1 k2 → sim (fun f => g1 f ≫= k1) (fun f => g2 f ≫= k2).
Proof.
  intros Hg Hk f g r Hr. destruct (g1 f) as [f1|] eqn:E; [|done]. rewrite bind_some. intros E'.
  destruct (Hg _ _ _ Hr E) as (f2&->&Hr2). rewrite bind_some. by eapply Hk.
Qed.

Lemma sim_map g1 g2 h : sim g1 g2 → mono h → sim (fun f => h <$> g1 f) (fun f => h <$> g2 f).
Proof.
  intros Hg Hh f g r Hr. destruct (g1 f) as [f1|] eqn:E; [|done]. intros [= <-].
  destruct (Hg _ _ _ Hr E) as (f2&->&Hr2). eexists. split; [done|]. by apply Hh.
Qed.

Lemma mono_opds k : mono (fun f => with_opds (k (c_opds f)) f).
Proof. intros f g [R1 R2 R3 R4 R5]. rewrite R4. by constructor. Qed.

Lemma mono_push t : mono (push t).
Proof. apply (mono_opds (cons (Some t))). Qed.

Lemma mono_pushes ts : mono (pushes ts).
Proof. apply (mono_opds (app (rev (Some <$> ts)))). Qed.

Lemma mono_unreachable : mono unreachable.
Proof. intros f g [R1 R2 R3 R4 R5]. by constructor. Qed.

Lemma rel_with_opds os f g : rel f g → rel (with_opds os f) (with_opds os g).
Proof. intros Hr. by apply (mono_opds (fun _ => os)). Qed.

Lemma sim_pop t : sim (pop t) (pop t).
Proof.
  intros f g r Hr. unfold pop. rewrite (rel_opds _ _ Hr). destruct (c_opds f) as [|[t'|] os].
  - destruct (c_unreachable f) eqn:Eu; [|done]. rewrite (rel_unreachable _ _ Hr Eu). intros [= <-]. by eexists.
  - destruct (t' =? t); [|done]. intros [= <-]. eexists. split; [done|]. by apply rel_with_opds.
  - intros [= <-]. eexists. split; [done|]. by apply rel_with_opds.
Qed.

Lemma sim_id : sim Some Some.
Proof. intros f g r Hr [= <-]. by eexists. Qed.

Lemma sim_pop_rev ts : sim (pop_rev ts) (pop_rev ts).
Proof. induction ts as [|t ts IH]; [apply sim_id|]. apply (sim_bind _ _ _ _ (sim_pop t) IH). Qed.

Lemma sim_pops ts : sim (pops ts) (pops ts).
Proof. apply sim_pop_rev. Qed.

Lemma sim_exact ts : sim (exact_rev ts) (pop_rev ts).
Proof.
  induction ts as [|t ts IH]; [apply sim_id|].
  apply (sim_bind (pop_exact t) (pop t) _ _); [|exact IH]. intros f g r Hr Hp. apply (sim_pop t f); [done|].
  unfold pop_exact in Hp. unfold pop. by destruct (c_opds f) as [|[t'|] os].
Qed.

Lemma sim_takes d ts : sim (takes d ts) (takes Lenient ts).
Proof.
  destruct d; [apply sim_pops..|]. intros f g r Hr. cbn [takes].
  destruct (c_unreachable f); [by apply sim_pops|by apply sim_exact].
Qed.

Lemma sim_leaves d ts : sim (leaves d ts) (leaves Lenient ts).
Proof.
  intros f g r Hr. unfold leaves. destruct (takes d ts f) as [f1|] eqn:E; [|done].
  destruct (sim_takes d ts _ _ _ Hr E) as (g1&->&Hr1). rewrite (rel_opds _ _ Hr1).
  destruct (c_opds f1); [|done]. intros [= <-]. by eexists.
Qed.

Lemma sim_drop d : sim (drop_opd d) (drop_opd Lenient).
Proof.
  intros f g r Hr. unfold drop_opd. rewrite (rel_opds _ _ Hr). destruct (c_opds f) as [|[t|] os].
  - destruct (c_unreachable f) eqn:Eu; [|done]. rewrite (rel_unreachable _ _ Hr Eu). intros [= <-]. by eexists.
  - intros [= <-]. eexists. split; [done|]. by apply rel_with_opds.
  - destruct d; [..|done]; intros [= <-]; (eexists; split; [done|]; by apply rel_with_opds).
Qed.

Lemma sim_select d : sim (select_opds d) (select_opds Lenient).
Proof.
  intros f g r Hr. unfold select_opds. destruct (pop _ f) as [f1|] eqn:E; [|done].
  destruct (sim_pop _ _ _ _ Hr E) as (g1&->&Hr1). rewrite (rel_opds _ _ Hr1). destruct (c_opds f1) as [|[t|] os].
  - destruct (c_unreachable f1) eqn:Eu; [|done]. rewrite (rel_unreachable _ _ Hr1 Eu). intros [= <-].
    eexists. split; [done|]. by apply rel_with_opds.
  - destruct (pop t (with_opds os f1)) as [f2|] eqn:E'; [|done]. intros [= <-].
    destruct (sim_pop _ _ _ _ (rel_with_opds os _ _ Hr1) E') as (g2&->&Hr2). eexists. split; [done|].
    by apply mono_push.
  - destruct d, os; try done; intros [= <-]; (eexists; split; [done|]; by apply rel_with_opds).
Qed.

Lemma sim_call t : sim (call_opds t) (call_opds t).
Proof.
  intros f g r Hr. unfold call_opds. destruct (pops _ f) as [f1|] eqn:E; [|done]. intros [= <-].
  destruct (sim_pops _ _ _ _ Hr E) as (g1&->&Hr1). eexists. split; [done|]. by apply mono_pushes.
Qed.

(** * Labels *)

Lemma index_rel st st' l f : Forall2 rel st st' → index st l = Some f → ∃ f', index st' l = Some f' ∧ rel f f'.
Proof. rewrite !index_lookup. destruct (l <? 0); [done|]. intros HF Hi. eapply Forall2_lookup_l in Hi as (f'&?&?); [by exists f'|done]. Qed.

Lemma rel_label_types f f' : rel f f' → label_types f' = label_types f.
Proof. intros [R1 R2 _ _ _]. unfold label_types. by rewrite R1, R2. Qed.

Lemma sim_branch d st st' l : Forall2 rel st st' → sim (branch_opds d st l) (branch_opds Lenient st' l).
Proof.
  intros HF f g r Hr. unfold branch_opds. destruct (index st l) as [tgt|] eqn:El; [|done].
  destruct (index_rel _ _ _ _ HF El) as (tgt'&->&Ht). rewrite (rel_label_types _ _ Ht).
  destruct (takes d _ f) as [f1|] eqn:E; [|done]. intros [= <-].
  destruct (sim_takes d _ _ _ _ Hr E) as (g1&->&Hr1). eexists. split; [done|]. by apply mono_pushes.
Qed.

Lemma sim_table d st st' first first' ls : Forall2 rel st st' →
  sim (table_opds d st first ls) (table_opds Lenient st' first' ls).
Proof.
  intros HF. induction ls as [|l ls IH]; [apply sim_id|]. intros f g r Hr. cbn [table_opds].
  destruct (index st l) as [tgt|] eqn:El; [|done]. destruct (index_rel _ _ _ _ HF El) as (tgt'&->&_).
  destruct (branch_opds d st l f) as [f1|] eqn:E; [|done].
  destruct (sim_branch d _ _ l HF _ _ _ Hr E) as (g1&->&Hr1). destruct (table_agrees d first tgt); [|done].
  intros E'. by eapply IH.
Qed.

Create HintDb sim.
#[local] Hint Resolve sim_some sim_bind sim_map sim_pop sim_pops sim_drop sim_select sim_call sim_branch
  sim_table sim_id mono_push mono_pushes mono_unreachable : sim.

(** * Instructions *)

Lemma sim_on_top g1 g2 st st' st1 : sim g1 g2 → Forall2 rel st st' → on_top g1 st = Some st1 →
  ∃ st1', on_top g2 st' = Some st1' ∧ Forall2 rel st1 st1'.
Proof.
  intros Hg HF. destruct HF as [|f g fs gs Hr HF]; [done|]. cbn [on_top]. destruct (g1 f) as [f1|] eqn:E; [|done].
  destruct (Hg _ _ _ Hr E) as (r'&->&Hr'). intros [= <-]. eexists. split; [done|]. by constructor.
Qed.

Lemma rel_resumed d f g : rel f g → rel (resumed d f) (resumed Lenient g).
Proof. intros [R1 R2 R3 R4 R5]. destruct d; by constructor. Qed.

Lemma sim_else d : sim (else_block d) (else_block Lenient).
Proof.
  intros f g r Hr. pose proof Hr as [R1 R2 R3 R4 R5]. unfold else_block. rewrite R1, R2. cbn [may_else]. rewrite andb_true_r.
  destruct (c_label f =? LABEL_TYPE_IF); [|done]. destruct (may_else d f); [|done]. cbn [andb].
  destruct (leaves d _ f) as [f1|] eqn:E; [|done]. destruct (sim_leaves d _ _ _ _ Hr E) as (g1&->&_).
  intros [= <-]. eexists. split; [done|]. apply mono_pushes. by constructor.
Qed.

Section instructions.
Context (d : dialect) (module : module_info) (func : func_info).

Lemma sim_end f g fs gs st1 : rel f g → Forall2 rel fs gs → end_block d f fs = Some st1 →
  ∃ st1', end_block Lenient g gs = Some st1' ∧ Forall2 rel st1 st1'.
Proof.
  intros Hr HF. pose proof Hr as [R1 R2 R3 R4 R5]. unfold end_block. rewrite R1, R2, R3.
  destruct (leaves d _ f) as [f1|] eqn:E; [|done]. destruct (sim_leaves d _ _ _ _ Hr E) as (g1&->&_).
  destruct (_ && _); [done|]. destruct HF as [|f2 g2 fs gs Hr2 HF]; intros [= <-]; (eexists; split; [done|]).
  - constructor.
  - constructor; [|done]. by apply rel_resumed, mono_pushes.
Qed.

Lemma sim_enter label t st st' st1 : Forall2 rel st st' → enter_block label t st = Some st1 →
  ∃ st1', enter_block label t st' = Some st1' ∧ Forall2 rel st1 st1'.
Proof.
  intros HF. unfold enter_block.
  assert (sim (fun f => (if label =? LABEL_TYPE_IF then pop VALUE_TYPE_I32 f else Some f)
                 ≫= pops (block_type_get_param_types t))
              (fun f => (if label =? LABEL_TYPE_IF then pop VALUE_TYPE_I32 f else Some f)
                 ≫= pops (block_type_get_param_types t))) as Hs.
  { apply sim_bind; [|apply sim_pops]. destruct (label =? LABEL_TYPE_IF); auto with sim. }
  destruct (on_top _ st) as [st2|] eqn:E; [|done]. intros [= <-].
  destruct (sim_on_top _ _ _ _ _ Hs HF E) as (st2'&->&HF2). eexists. split; [done|]. by constructor.
Qed.

Lemma type_instr_lenient i st st' st1 : Forall2 rel st st' → type_instr d module func i st = Some st1 →
  ∃ st1', type_instr Lenient module func i st' = Some st1' ∧ Forall2 rel st1 st1'.
Proof.
  intros HF. assert (∀ g1 g2 st1, sim g1 g2 → on_top g1 st = Some st1 →
    ∃ st1', on_top g2 st' = Some st1' ∧ Forall2 rel st1 st1') as Hon by (intros; by eapply sim_on_top).
  destruct i; cbn [Typing.type_instr]; intros Ht;
    repeat match type of Ht with
    | match hd_error ?x ≫= ?k with _ => _ end = _ => fail 1
    | match st with _ => _ end = Some _ => fail 1
    | match ?x with _ => _ end = Some _ => is_var x; destruct x
    | match ?k ?x with _ => _ end = Some _ => destruct (k x); try done
    | match ?k ?x ?y with _ => _ end = Some _ => destruct (k x y); try done
    | match ?k ?x ?y ?z with _ => _ end = Some _ => destruct (k x y z); try done
    | (if ?b then _ else _) = Some _ => destruct b; try done
    end;
    try (eapply Hon; [|exact Ht]; auto 6 with sim).
  - by eapply sim_enter.
  - apply sim_else.
  - destruct HF as [|f g fs gs Hr HF]; [done|]. by eapply sim_end.
  - destruct ls as [|l ls]; [done|]. cbn [hd_error] in *. rewrite bind_some in *.
    destruct (index st l) as [first|] eqn:El; [|done]. destruct (index_rel _ _ _ _ HF El) as (first'&->&_).
    eapply Hon; [|exact Ht]. auto with sim.
  - destruct (is_store op); auto with sim.
Qed.

(** What is well typed in any dialect is so in the lenient one. *)
Lemma type_seq_lenient ins : ∀ st st' st1, Forall2 rel st st' →
  type_seq d module func ins st = Some st1 →
  ∃ st1', type_seq Lenient module func ins st' = Some st1' ∧ Forall2 rel st1 st1'.
Proof.
  induction ins as [|i ins IH]; intros st st' st1 HF; cbn [Typing.type_seq].
  - intros [= <-]. by exists st'.
  - destruct (type_instr d module func i st) as [st2|] eqn:E; [|done].
    destruct (type_instr_lenient _ _ _ _ HF E) as (st2'&->&HF2). by apply IH.
Qed.

Lemma lenient_ok ins : well_typed d module func ins → well_typed Lenient module func ins.
Proof.
  intros Hw. destruct (type_seq_lenient _ _ (entry_state func) _ (reflexivity _) Hw) as (st&E&HF).
  unfold well_typed. rewrite E. by inversion HF.
Qed.

End instructions.

(** * Code without dead instructions *)

(** The operands are values, the code is reachable. *)
Definition live_block (f : control) : Prop := c_unreachable f = false ∧ Forall is_Some (c_opds f).

(** Only the innermost block may be unreachable, right after a branch. *)
Definition live_state (st : list control) : Prop :=
  match st with
  | [] => True
  | f :: fs => (live_block f ∨ c_unreachable f = true ∧ c_opds f = []) ∧ Forall live_block fs
  end.

(** What the loader wants besides the rules of the specification: no instruction
    after a branch up to the end of the block, no loop with parameters as a
    target of [br_table]. *)
Definition tame_target (st : list control) (l : Z) : Prop :=
  ∀ f, index st l = Some f → c_label f = LABEL_TYPE_LOOP → block_type_get_param_types (c_type f) = [].

Definition reachable (st : list control) : Prop :=
  match st with f :: _ => c_unreachable f = false | [] => True end.

Definition lively (i : instr) (st : list control) : Prop :=
  match i with
  | IEnd | IElse => True
  | IBrTable ls => Forall (tame_target st) ls ∧ reachable st
  | _ => reachable st
  end.

(** On a live block: what the specification does, the loader does, and the block
    stays live. *)
Definition agree (g1 g2 : control → option control) : Prop :=
  ∀ f r, live_block f → g1 f = Some r → g2 f = Some r ∧ live_block r.

Lemma agree_some h : (∀ f, live_block f → live_block (h f)) → agree (fun f => Some (h f)) (fun f => Some (h f)).
Proof. intros Hh f r Hf [= <-]. split; [done|by apply Hh]. Qed.

Lemma agree_bind g1 g2 k1 k2 : agree g1 g2 → agree k1 k2 → agree (fun f => g1 f ≫= k1) (fun f => g2 f ≫= k2).
Proof.
  intros Hg Hk f r Hf. destruct (g1 f) as [f1|] eqn:E; [|done]. rewrite bind_some. intros E'.
  destruct (Hg _ _ Hf E) as [-> Hf1]. rewrite bind_some. by apply Hk.
Qed.

Lemma agree_map g1 g2 h : agree g1 g2 → (∀ f, live_block f → live_block (h f)) →
  agree (fun f => h <$> g1 f) (fun f => h <$> g2 f).
Proof.
  intros Hg Hh f r Hf. destruct (g1 f) as [f1|] eqn:E; [|done]. intros [= <-].
  destruct (Hg _ _ Hf E) as [-> Hf1]. split; [done|by apply Hh].
Qed.

Lemma live_push t f : live_block f → live_block (push t f).
Proof. intros [H1 H2]. split; [done|]. by constructor. Qed.

Lemma live_pushes ts f : live_block f → live_block (pushes ts f).
Proof.
  intros [H1 H2]. split; [done|]. cbn. apply Forall_app. split; [|done].
  apply Forall_rev, Forall_fmap, Forall_true. by eexists.
Qed.

Lemma live_opds os f : live_block f → Forall is_Some os → live_block (with_opds os f).
Proof. by intros [H1 _]. Qed.

Lemma agree_id : agree Some Some.
Proof. by intros f r Hf [= <-]. Qed.

(** Reachable values are popped as they are compared. *)
Lemma agree_pop_exact t : agree (pop t) (pop_exact t).
Proof.
  intros f r [Hu Ho]. unfold pop, pop_exact. rewrite Hu. destruct (c_opds f) as [|[t'|] os] eqn:Ef; [done| |].
  - destruct (t' =? t); [|done]. intros [= <-]. split; [done|]. apply Forall_cons in Ho as [_ Ho]. by split.
  - apply Forall_cons in Ho as [[? ?] _]. done.
Qed.

Lemma agree_pop t : agree (pop t) (pop t).
Proof. intros f r Hf E. split; [done|]. by apply (agree_pop_exact t f r). Qed.

Lemma agree_pop_rev ts : agree (pop_rev ts) (pop_rev ts).
Proof. induction ts as [|t ts IH]; [apply agree_id|]. apply (agree_bind _ _ _ _ (agree_pop t) IH). Qed.

Lemma agree_pops ts : agree (pops ts) (pops ts).
Proof. apply agree_pop_rev. Qed.

Lemma agree_exact ts : agree (pop_rev ts) (exact_rev ts).
Proof. induction ts as [|t ts IH]; [apply agree_id|]. apply (agree_bind _ _ _ _ (agree_pop_exact t) IH). Qed.

Lemma agree_takes ts : agree (takes Standard ts) (takes Loader ts).
Proof.
  intros f r Hf. pose proof Hf as [Hu _]. cbn [takes]. rewrite Hu. by apply agree_exact.
Qed.

Lemma agree_drop : agree (drop_opd Standard) (drop_opd Loader).
Proof.
  intros f r [Hu Ho]. unfold drop_opd. rewrite Hu. destruct (c_opds f) as [|[t|] os]; [done| |].
  - intros [= <-]. split; [done|]. apply Forall_cons in Ho as [_ Ho]. by split.
  - apply Forall_cons in Ho as [[? ?] _]. done.
Qed.

Lemma agree_select : agree (select_opds Standard) (select_opds Loader).
Proof.
  intros f r Hf. unfold select_opds. destruct (pop _ f) as [f1|] eqn:E; [|done].
  destruct (agree_pop _ _ _ Hf E) as [_ Hf1]. pose proof Hf1 as [Hu Ho]. rewrite Hu.
  destruct (c_opds f1) as [|[t|] os]; [done| |].
  - apply Forall_cons in Ho as [_ Ho]. destruct (pop t _) as [f2|] eqn:E'; [|done]. intros [= <-].
    split; [done|]. apply live_push. eapply agree_pop; [|exact E']. by apply live_opds.
  - apply Forall_cons in Ho as [[? ?] _]. done.
Qed.

Lemma agree_call t : agree (call_opds t) (call_opds t).
Proof.
  intros f r Hf. unfold call_opds. destruct (pops _ f) as [f1|] eqn:E; [|done]. intros [= <-].
  destruct (agree_pops _ _ _ Hf E) as [_ Hf1]. split; [done|]. by apply live_pushes.
Qed.

Lemma agree_branch st l : agree (branch_opds Standard st l) (branch_opds Loader st l).
Proof.
  intros f r Hf. unfold branch_opds. destruct (index st l) as [tgt|]; [|done].
  destruct (takes Standard _ f) as [f1|] eqn:E; [|done]. intros [= <-].
  destruct (agree_takes _ _ _ Hf E) as [-> Hf1]. split; [done|]. by apply live_pushes.
Qed.

(** ** Tables *)

Lemma exact_opds ts f f' : exact_rev (rev ts) f = Some f' → c_opds f = rev (Some <$> ts) ++ c_opds f'.
Proof. intros E%exact_rev_push. destruct E as [E _]. rewrite rev_involutive in E. by rewrite <- E at 1. Qed.

(** A branch from live code leaves the operands as they are: they are on top. *)
Lemma branch_live st l tgt f r : live_block f → index st l = Some tgt →
  branch_opds Standard st l f = Some r →
  r = f ∧ branch_opds Loader st l f = Some f ∧ ∃ os, c_opds f = rev (Some <$> label_types tgt) ++ os.
Proof.
  intros Hf El E. destruct (agree_branch _ _ _ _ Hf E) as [E' _]. pose proof E' as Eb.
  unfold branch_opds in E'. rewrite El in E'. cbn [takes] in E'. destruct Hf as [Hu _]. rewrite Hu in E'.
  destruct (exact_rev _ f) as [f1|] eqn:Ex; [|done]. injection E' as <-.
  pose proof (exact_opds _ _ _ Ex) as Eo. apply exact_rev_push in Ex as [Ex _].
  rewrite rev_involutive in Ex. rewrite Ex in *. split_and!; [done|done|by eexists].
Qed.

Lemma tops_same (ts ts' : list Z) (os os' : list (option Z)) : length ts = length ts' →
  rev (Some <$> ts) ++ os = rev (Some <$> ts') ++ os' → ts = ts'.
Proof.
  intros Hl E. apply app_inj_1 in E as [E _]; [|by rewrite !length_rev, !length_fmap].
  apply (f_equal (@rev _)) in E. rewrite !rev_involutive in E. by apply (inj (fmap Some)) in E.
Qed.

(** The types the loader compares are those of the label. *)
Lemma tame_results st l f : tame_target st l → index st l = Some f → table_results f = label_types f.
Proof.
  intros Ht El. unfold table_results, label_types. destruct (Z.eqb_spec (c_label f) LABEL_TYPE_LOOP) as [E|]; [|done].
  by rewrite (Ht _ El E).
Qed.

Lemma agree_table st first ls f r os : live_block f → Forall (tame_target st) ls →
  table_results first = label_types first → c_opds f = rev (Some <$> label_types first) ++ os →
  table_opds Standard st first ls f = Some r → r = f ∧ table_opds Loader st first ls f = Some f.
Proof.
  intros Hf Hls Hfirst Eo. induction Hls as [|l ls Hl Hls IH]; [by intros [= <-]|]. cbn [table_opds].
  destruct (index st l) as [tgt|] eqn:El; [|done].
  destruct (branch_opds Standard st l f) as [f1|] eqn:E; [|done].
  destruct (branch_live _ _ _ _ _ Hf El E) as (->&->&os'&Eo'). destruct (table_agrees Standard first tgt) eqn:Ea; [|done].
  cbn [table_agrees] in *. apply Nat.eqb_eq in Ea. rewrite Eo in Eo'. pose proof (tops_same _ _ _ _ Ea Eo') as Et.
  change (bool_decide (table_results first = table_results tgt)) with (bool_decide (table_results first = table_results tgt)).
  assert (table_results first = table_results tgt) as Er by (rewrite Hfirst, (tame_results _ _ _ Hl El); exact Et).
  unfold table_results in Er. rewrite bool_decide_eq_true_2 by exact Er. exact IH.
Qed.

(** ** Instructions *)

Lemma live_top g1 g2 f fs st : agree g1 g2 → live_block f → Forall live_block fs →
  on_top g1 (f :: fs) = Some st → on_top g2 (f :: fs) = Some st ∧ live_state st.
Proof.
  intros Hg Hf Hfs. cbn [on_top]. destruct (g1 f) as [f1|] eqn:E; [|done].
  destruct (Hg _ _ Hf E) as [-> Hf1]. intros [= <-]. split; [done|]. split; [by left|done].
Qed.

(** A branch at the end. *)
Lemma live_top_branch g1 g2 f fs st : agree g1 g2 → live_block f → Forall live_block fs →
  on_top (fun f => unreachable <$> g1 f) (f :: fs) = Some st →
  on_top (fun f => unreachable <$> g2 f) (f :: fs) = Some st ∧ live_state st.
Proof.
  intros Hg Hf Hfs. cbn [on_top]. destruct (g1 f) as [f1|] eqn:E; [|done].
  destruct (Hg _ _ Hf E) as [-> Hf1]. intros [= <-]. split; [done|]. split; [by right|done].
Qed.

Lemma pop_rev_dead ts : ∀ f r, c_unreachable f = true → c_opds f = [] → pop_rev ts f = Some r → r = f.
Proof.
  induction ts as [|t ts IH]; intros f r Hu Ho; [by intros [= <-]|]. cbn [pop_rev]. unfold pop. rewrite Ho, Hu.
  rewrite bind_some. by apply IH.
Qed.

(** The end of a block, whether its code ends in a branch or not. *)
Lemma live_leaves ts f r : live_block f ∨ c_unreachable f = true ∧ c_opds f = [] →
  leaves Standard ts f = Some r → leaves Loader ts f = Some r.
Proof.
  intros Hf. unfold leaves. destruct (takes Standard ts f) as [f1|] eqn:E; [|done].
  assert (takes Loader ts f = Some f1) as ->; [|done]. destruct Hf as [Hf|[Hu Ho]].
  - by apply agree_takes.
  - cbn [takes] in *. by rewrite Hu.
Qed.

#[local] Hint Resolve agree_some agree_bind agree_map agree_pop agree_pops agree_drop agree_select agree_call
  agree_branch agree_id live_push live_pushes : sim.

Section complete.
Context (module : module_info) (func : func_info).

Lemma live_end f fs st : live_state (f :: fs) → end_block Standard f fs = Some st →
  end_block Loader f fs = Some st ∧ live_state st.
Proof.
  intros [Hf Hfs]. unfold end_block. destruct (leaves Standard _ f) as [f1|] eqn:E; [|done].
  rewrite (live_leaves _ _ _ Hf E). destruct (_ && _); [done|]. destruct fs as [|g gs]; intros [= <-]; [done|].
  apply Forall_cons in Hfs as [Hg Hgs]. apply (live_pushes (block_type_get_result_types (c_type f))) in Hg.
  cbn [resumed]. assert (set_unreachable false (pushes (block_type_get_result_types (c_type f)) g)
    = pushes (block_type_get_result_types (c_type f)) g) as ->.
  { destruct Hg as [Hu _]. unfold set_unreachable. rewrite <- Hu. by destruct (pushes _ g). }
  split; [done|]. split; [by left|done].
Qed.

Lemma live_else f fs st : live_state (f :: fs) → on_top (else_block Standard) (f :: fs) = Some st →
  on_top (else_block Loader) (f :: fs) = Some st ∧ live_state st.
Proof.
  intros [Hf Hfs]. cbn [on_top]. unfold else_block. cbn [may_else]. rewrite andb_true_r.
  destruct (c_label f =? LABEL_TYPE_IF); [|done]. destruct (negb (c_else f)); [|done]. cbn [andb].
  destruct (leaves Standard _ f) as [f1|] eqn:E; [|done]. rewrite (live_leaves _ _ _ Hf E). intros [= <-].
  split; [done|]. split; [|done]. left. apply live_pushes. by split.
Qed.

Lemma live_enter label t f fs st : live_block f → Forall live_block fs →
  enter_block label t (f :: fs) = Some st → live_state st.
Proof.
  intros Hf Hfs. unfold enter_block.
  assert (agree (fun f => (if label =? LABEL_TYPE_IF then pop VALUE_TYPE_I32 f else Some f)
                   ≫= pops (block_type_get_param_types t))
                (fun f => (if label =? LABEL_TYPE_IF then pop VALUE_TYPE_I32 f else Some f)
                   ≫= pops (block_type_get_param_types t))) as Ha.
  { apply agree_bind; [|auto with sim]. destruct (label =? LABEL_TYPE_IF); auto with sim. }
  cbn [on_top]. destruct (_ ≫= _) as [f1|] eqn:E; [|done]. intros [= <-]. destruct (Ha _ _ Hf E) as [_ Hf1].
  split; [left; by apply live_pushes|]. by constructor.
Qed.

Lemma lively_live i f fs : live_state (f :: fs) → lively i (f :: fs) →
  i = IEnd ∨ i = IElse ∨ live_block f ∧ Forall live_block fs
                         ∧ ∀ ls, i = IBrTable ls → Forall (tame_target (f :: fs)) ls.
Proof.
  intros [Hf Hfs] Hl. destruct i; auto; right; right; cbn [lively reachable] in Hl;
    (split; [destruct Hf as [Hf|[Hu _]]; [done|intuition congruence]|]); (split; [done|]); try done.
  intros ls' [= <-]. apply Hl.
Qed.

Lemma live_table l ls f fs st1 : live_block f → Forall live_block fs → Forall (tame_target (f :: fs)) (l :: ls) →
  type_instr Standard module func (IBrTable (l :: ls)) (f :: fs) = Some st1 →
  type_instr Loader module func (IBrTable (l :: ls)) (f :: fs) = Some st1 ∧ live_state st1.
Proof.
  intros Hf Hfs Htame. cbn [Typing.type_instr hd_error]. rewrite !bind_some.
  destruct (index (f :: fs) l) as [first|] eqn:El; [|done]. eapply live_top_branch; [|done|done].
  intros g r Hg. destruct (pop VALUE_TYPE_I32 g) as [g1|] eqn:Ep; [|done]. rewrite !bind_some. intros Et.
  destruct (agree_pop _ _ _ Hg Ep) as [_ Hg1]. apply Forall_cons in Htame as [Hl Hls].
  cbn [table_opds] in Et |- *. rewrite El in *.
  destruct (branch_opds Standard _ l g1) as [g2|] eqn:Eb; [|done].
  destruct (branch_live _ _ _ _ _ Hg1 El Eb) as (->&->&os&Eo). destruct (table_agrees Standard first first); [|done].
  destruct (agree_table _ _ _ _ _ _ Hg1 Hls (tame_results _ _ _ Hl El) Eo Et) as [-> E2].
  split; [|done]. unfold table_agrees. rewrite bool_decide_eq_true_2 by done. exact E2.
Qed.

Lemma live_instr i st st1 : live_state st → lively i st → type_instr Standard module func i st = Some st1 →
  type_instr Loader module func i st = Some st1 ∧ live_state st1.
Proof.
  intros Hst Hl Ht. destruct st as [|f fs]; [by rewrite type_instr_nil in Ht|].
  destruct (lively_live _ _ _ Hst Hl) as [->|[->|(Hf&Hfs&Htame)]]; [by apply live_end|by apply live_else|].
  assert (∀ g1 g2, agree g1 g2 → on_top g1 (f :: fs) = Some st1 →
    on_top g2 (f :: fs) = Some st1 ∧ live_state st1) as Hon by (intros; by eapply live_top).
  assert (∀ g1 g2, agree g1 g2 → on_top (fun f => unreachable <$> g1 f) (f :: fs) = Some st1 →
    on_top (fun f => unreachable <$> g2 f) (f :: fs) = Some st1 ∧ live_state st1) as Hbr by (intros; by eapply live_top_branch).
  destruct i; try (by apply live_end); try (by apply live_else);
    try (destruct ls as [|l ls]; [done|apply live_table; [done|done|by apply Htame|done]]);
    cbn [Typing.type_instr] in *;
    repeat match type of Ht with
    | match ?x with _ => _ end = Some _ => is_var x; destruct x
    | match ?k ?x with _ => _ end = Some _ => destruct (k x); try done
    | match ?k ?x ?y with _ => _ end = Some _ => destruct (k x y); try done
    | match ?k ?x ?y ?z with _ => _ end = Some _ => destruct (k x y z); try done
    | (if ?b then _ else _) = Some _ => destruct b; try done
    end;
    try (eapply Hbr; [|exact Ht]; solve [auto 6 with sim]);
    try (eapply Hon; [|exact Ht]; solve [auto 6 with sim]).
  - injection Ht as <-. split; [done|]. split; [by right|done].
  - split; [done|]. by eapply live_enter.
  - eapply Hon; [|exact Ht]. destruct (is_store op); auto with sim.
Qed.

(** The states of a typing, one for each instruction. *)
Fixpoint lively_seq (ins : list instr) (st : list control) : Prop :=
  match ins with
  | [] => True
  | i :: ins => lively i st ∧ ∀ st1, type_instr Standard module func i st = Some st1 → lively_seq ins st1
  end.

Lemma live_seq ins : ∀ st st1, live_state st → lively_seq ins st → type_seq Standard module func ins st = Some st1 →
  type_seq Loader module func ins st = Some st1.
Proof.
  induction ins as [|i ins IH]; intros st st1 Hst; [done|]. cbn [lively_seq Typing.type_seq]. intros [Hl Hls].
  destruct (type_instr Standard module func i st) as [st2|] eqn:E; [|done].
  destruct (live_instr _ _ _ Hst Hl E) as [-> Hst2]. apply IH; [done|by apply Hls].
Qed.

Lemma live_ok ins : well_typed Standard module func ins → lively_seq ins (entry_state func) →
  well_typed Loader module func ins.
Proof. intros Hw Hl. apply live_seq; [|done|done]. split; [by left|constructor]. Qed.

End complete.
