(* ===== verification/Validation.v ===== *)
(** What the check of a function body promises: it always answers and gives back
    its memory, it accepts exactly the code that is well typed in its dialect, the
    sizes it notes are enough for the operands and the labels of the code, and the
    code it refuses although the specification accepts it. *)
From stdpp Require Import base gmap list numbers strings.
From Stdlib Require Import Strings.Byte ZArith Lia.
From S2P Require Import Prelude CMemory WasmTypes Opcodes Leb FindBlock LoaderCtx Validate Typing Wp.
From S2P Require Import LoaderInv LoaderOps LoaderStep LoaderBlocks LoaderLoop Dialects.

(** Numbers of blocks are not used again. *)
Definition heap_fresh (h : scratch) : Prop := ∀ i, is_Some (live h !! i) → (i < next_block h)%nat.

Lemma owns_fresh h : heap_fresh h → owns h h [].
Proof. intros Hf. constructor; [constructor|by intros i ?%not_elem_of_nil|done..]. Qed.

(** ** Checks by evaluation *)

Definition tame_b (func : func_info) (m : mem) (p : Z) : bool :=
  forallb (fun a => match loader_leb_uint32 m a (p_end func) with
                    | Some (v, _) => v <? 2 ^ 32 - 1
                    | None => true
                    end) (seqZ p (p_end func - p)).

Lemma tame_of_b func m p : tame_b func m p = true → tame func m p.
Proof.
  intros Hb a v q Ha E. pose proof (loader_leb_uint32_span _ _ _ _ _ E) as [Hq _].
  unfold tame_b in Hb. rewrite forallb_forall in Hb. specialize (Hb a). rewrite E in Hb.
  apply Z.ltb_lt, Hb, list_elem_of_In, elem_of_seqZ. lia.
Qed.

(** The instructions from [p] on, as many as [fuel]. *)
Fixpoint decode_all (fuel : nat) (m : mem) (e p : Z) : option (list instr * Z) :=
  match fuel with
  | O => Some ([], p)
  | S fuel =>
      if p <? e then
        match decode m e p with
        | Some (i, q) => match decode_all fuel m e q with
                         | Some (ins, r) => Some (i :: ins, r)
                         | None => None
                         end
        | None => None
        end
      else Some ([], p)
  end.

Lemma decode_all_ok fuel m e : ∀ p ins q, decode_all fuel m e p = Some (ins, q) → decodes m e p ins q.
Proof.
  induction fuel as [|fuel IH]; intros p ins q; cbn [decode_all]; [intros [= <- <-]; constructor|].
  destruct (Z.ltb_spec p e); [|intros [= <- <-]; constructor].
  destruct (decode m e p) as [[i q1]|] eqn:E; [|done].
  destruct (decode_all fuel m e q1) as [[ins1 r]|] eqn:E1; [|done]. intros [= <- <-].
  econstructor; [done..|]. by apply IH.
Qed.

(** * Properties *)

Section properties.
Context `{BoundedPool} (module : module_info) (func : func_info).
Context (Hmodule : module_wf module) (Hfunc : func_wf func).


(** C10: the check of a body always answers, and whatever it answers, the blocks it
    took from the heap are free again and no other is touched; and it decides
    typing in the loader's dialect: unless the heap refuses it memory, it accepts
    the body if and only if it is well typed. *)
Theorem prepare_bytecode_decides s :
  heap_fresh (l_heap s) → tame func (l_mem s) (code func) →
  ∃ b s', wasm_loader_prepare_bytecode module func s = Ok b s'
    ∧ live (l_heap s') = live (l_heap s)
    ∧ (b = false ∧ l_error s' = oom_msg
       ∨ (b = true ↔ ∃ ins q, decodes (l_mem s) (p_end func) (code func) ins q ∧ well_typed Loader module func ins)).
Proof.
  intros Hh Ht. destruct (prepare_ok (l_heap s) module func Hmodule Hfunc s) as (b&s'&E&Hl&Hb);
    [by apply owns_fresh|done|]. exists b, s'. split; [done|]. split; [apply (sh_live _ _ Hl)|]. destruct b.
  - right. split; [|done]. intros _. destruct Hb as [(ins&q&Hd&Hty&_) _]. by exists ins, q.
  - destruct Hb as [Ho|Hn]; [by left|right]. split; [done|]. intros Ha. by destruct Hn.
Qed.

(** C13: the sizes noted in the function bound the operand cells and the open blocks
    before and after every instruction of the body. *)
Theorem noted_sizes_suffice s s' :
  heap_fresh (l_heap s) → tame func (l_mem s) (code func) →
  wasm_loader_prepare_bytecode module func s = Ok true s' →
  ∃ ins q, decodes (l_mem s) (p_end func) (code func) ins q
    ∧ ∀ ins1 ins2 st, ins = ins1 ++ ins2 → type_seq Loader module func ins1 (entry_state func) = Some st →
        zlen (stack_cells st) <= max_stack_cells (l_verdict s') ∧ zlen st <= max_block_num (l_verdict s').
Proof.
  intros Hh Ht E. destruct (prepare_ok (l_heap s) module func Hmodule Hfunc s) as (b&s1&E1&_&Hb);
    [by apply owns_fresh|done|]. rewrite E in E1. injection E1 as <- <-.
  destruct Hb as [(ins&q&Hd&_&Hbd) _]. by exists ins, q.
Qed.

(** C12: code that is well typed by all the rules of the specification is accepted,
    unless the heap refuses memory, if it has no dead instructions and its
    [br_table]s have no loops with parameters as targets. *)
Theorem valid_code_accepted s ins q :
  heap_fresh (l_heap s) → tame func (l_mem s) (code func) →
  decodes (l_mem s) (p_end func) (code func) ins q →
  well_typed Standard module func ins → lively_seq module func ins (entry_state func) →
  ∃ b s', wasm_loader_prepare_bytecode module func s = Ok b s' ∧ (b = true ∨ l_error s' = oom_msg).
Proof.
  intros Hh Ht Hd Hw Hl. destruct (prepare_ok (l_heap s) module func Hmodule Hfunc s) as (b&s'&E&_&Hb);
    [by apply owns_fresh|done|]. exists b, s'. split; [done|]. destruct b; [by left|].
  destruct Hb as [Ho|Hn]; [by right|]. destruct Hn. exists ins, q. split; [done|]. by apply live_ok.
Qed.

End properties.

(** * A module *)

(** A function type of one parameter and one result, a memory. *)
Definition sample_type : func_type := mkType 1 1 [VALUE_TYPE_I32; VALUE_TYPE_I32].
Definition sample_module : module_info :=
  mkModule [sample_type] [] [sample_type] 0 0 0 1 [] [] 0 0.
#[local] Instance sample_pool : ScratchPool := fun _ n => if n <=? 2 ^ 30 then Some 16 else None.
#[local] Instance sample_pool_bounded : BoundedPool.
Proof. intros h n a. unfold grants, sample_pool. destruct (Z.leb_spec n (2 ^ 30)); [done|discriminate]. Qed.

(** A body at address 100, with a local of eight bytes. *)
Definition body (bytes : list Z) : func_info :=
  mkFunc sample_type [VALUE_TYPE_I64] [0; 1] 100 (zlen bytes).
Definition loading (bytes : list Z) : loader :=
  mkLoader (store ∅ 100 (map Z_byte bytes)) 0 None (mkScratch 0 ∅ ∅) None (mkVerdict false false false 0 0).

(** The answer, and the byte at [100 + i] afterwards. *)
Definition check_sample (bytes : list Z) (i : Z) : option (bool * Z) :=
  match wasm_loader_prepare_bytecode sample_module (body bytes) (loading bytes) with
  | Ok b s => Some (b, load_Z (l_mem s) (100 + i) 1)
  | _ => None
  end.

Definition sample_instrs (bytes : list Z) : list instr :=
  match decode_all 20 (l_mem (loading bytes)) (p_end (body bytes)) 100 with
  | Some (ins, _) => ins
  | None => []
  end.

(** The body of the instructions well typed or not. *)
Definition typed_as (d : dialect) (bytes : list Z) : bool :=
  match type_seq d sample_module (body bytes) (sample_instrs bytes) (entry_state (body bytes)) with
  | Some [] => true
  | _ => false
  end.

(** local.get 0; if (result i32) i32.const 1 else i32.const 2 end; i64.const 5;
    drop; br 0; end *)
Definition good_body : list Z :=
  [0x20; 0; 0x04; 0x7f; 0x41; 1; 0x05; 0x41; 2; 0x0b; 0x42; 5; 0x1a; 0x0c; 0; 0x0b].

(** unreachable; block end; end *)
Definition dead_block : list Z := [0x00; 0x02; 0x40; 0x0b; 0x0b].
(** unreachable; select; drop; i32.const 1; end *)
Definition open_drop : list Z := [0x00; 0x1b; 0x1a; 0x41; 1; 0x0b].
(** block i32.const 1; loop (param i32) (result i32) br_table 0 1 end; end: in the
    block type the index is of one byte *)
Definition loop_table : list Z :=
  [0x02; 0x7f; 0x41; 1; 0x03; 0; 0x41; 0; 0x0e; 1; 0; 1; 0x0b; 0x0b; 0x0b].


(** block end; i32.const 1; br 4294967295; end *)
Definition wild_branch : list Z :=
  [0x02; 0x40; 0x0b; 0x41; 1; 0x0c; 0xff; 0xff; 0xff; 0xff; 0x0f; 0x0b].
(** local.get 0; if else else end; i32.const 1; end *)
Definition second_else : list Z := [0x20; 0; 0x04; 0x40; 0x05; 0x05; 0x0b; 0x41; 1; 0x0b].
(** i32.const 1; br_table in a loop whose targets are the loop and a block without
    results *)
Definition cells_of_drop : list Z := [0x41; 1; 0x41; 1; 0xc5; 0x0b].


(** local.get 0; block (type 0); end; end, the index of the type on one byte and on
    two *)
Definition short_index : list Z := [0x20; 0; 0x02; 0x00; 0x0b; 0x0b].
Definition long_index : list Z := [0x20; 0; 0x02; 0x80; 0x00; 0x0b; 0x0b].


(** * Witnesses *)

Lemma sample_types_wf : types_wf [VALUE_TYPE_I32; VALUE_TYPE_I32].
Proof. by repeat constructor. Qed.

Lemma sample_type_wf : type_wf sample_type.
Proof. constructor; [done|done|done|apply sample_types_wf]. Qed.

Lemma sample_module_wf : module_wf sample_module.
Proof.
  pose proof sample_type_wf. constructor; try done; by repeat constructor.
Qed.

Lemma body_wf bytes : func_wf (body bytes).
Proof.
  constructor; try done; [apply sample_type_wf|by repeat constructor|].
  split; [done|]. apply zlen_nonneg.
Qed.

Lemma loading_fresh bytes : heap_fresh (l_heap (loading bytes)).
Proof. intros i [x Hx]. cbn in Hx. by rewrite lookup_empty in Hx. Qed.

Lemma good_body_tame : tame (body good_body) (l_mem (loading good_body)) 100.
Proof. apply tame_of_b. by vm_compute. Qed.

Definition loaded (bytes : list Z) : loader :=
  match wasm_loader_prepare_bytecode sample_module (body bytes) (loading bytes) with
  | Ok _ s => s
  | _ => loading bytes
  end.

Lemma good_body_accepted :
  wasm_loader_prepare_bytecode sample_module (body good_body) (loading good_body) = Ok true (loaded good_body).
Proof.
  unfold loaded. assert (match wasm_loader_prepare_bytecode sample_module (body good_body) (loading good_body) with
    | Ok b _ => b | _ => false end = true) as H by (by vm_compute).
  by destruct (wasm_loader_prepare_bytecode _ _ _) as [[] ?| |].
Qed.


Lemma prepare_bytecode_decides_witness :
  ∃ b s', wasm_loader_prepare_bytecode sample_module (body good_body) (loading good_body) = Ok b s'
    ∧ live (l_heap s') = ∅
    ∧ (b = false ∧ l_error s' = oom_msg
       ∨ (b = true ↔ ∃ ins q, decodes (l_mem (loading good_body)) 116 100 ins q
                              ∧ well_typed Loader sample_module (body good_body) ins)).
Proof.
  exact (prepare_bytecode_decides _ _ sample_module_wf (body_wf _) _ (loading_fresh _) good_body_tame).
Defined.

Lemma noted_sizes_suffice_witness :
  ∃ ins q, decodes (l_mem (loading good_body)) 116 100 ins q
    ∧ ∀ ins1 ins2 st, ins = ins1 ++ ins2 →
        type_seq Loader sample_module (body good_body) ins1 (entry_state (body good_body)) = Some st →
        zlen (stack_cells st) <= 3 ∧ zlen st <= 2.
Proof.
  exact (noted_sizes_suffice _ _ sample_module_wf (body_wf _) _ _ (loading_fresh _) good_body_tame good_body_accepted).
Defined.

Lemma good_body_decodes : decodes (l_mem (loading good_body)) (p_end (body good_body)) 100 (sample_instrs good_body) 116.
Proof. apply (decode_all_ok 20). by vm_compute. Qed.

Lemma good_body_lively :
  lively_seq sample_module (body good_body) (sample_instrs good_body) (entry_state (body good_body)).
Proof.
  assert (sample_instrs good_body = [ILocalGet 0; IBlock LABEL_TYPE_IF (RawValue VALUE_TYPE_I32);
    IConst VALUE_TYPE_I32; IElse; IConst VALUE_TYPE_I32; IEnd; IConst VALUE_TYPE_I64; IDrop; IBr 0; IEnd]) as ->
    by (by vm_compute).
  repeat (split; [done|]; intros ? [= <-]). done.
Qed.

Lemma valid_code_accepted_witness :
  ∃ b s', wasm_loader_prepare_bytecode sample_module (body good_body) (loading good_body) = Ok b s'
    ∧ (b = true ∨ l_error s' = oom_msg).
Proof.
  apply (valid_code_accepted _ _ sample_module_wf (body_wf _) _ (sample_instrs good_body) 116
           (loading_fresh _) good_body_tame good_body_decodes); [by vm_compute|apply good_body_lively].
Defined.
