(* ===== verification/LoaderModule.v ===== *)
(** A module while it is loaded (wasm.h, wasm_loader.c): the structures of the
    module, the state of the loader around it, the strings of the module and the
    routines every section uses.  An array is a block of the heap with the list of
    its elements; a pointer into the module is the element it points to. *)
From stdpp Require Import base gmap list numbers strings pretty.
From Stdlib Require Import Strings.Byte ZArith Lia.
From S2P Require Import Prelude CMemory WasmTypes PoolInfo Opcodes Leb FindBlock LoaderCtx Validate.

(** * The structures *)

(** [WASMType]; the numbers of cells are computed when it is loaded. *)
Record type_obj := mkTypeObj { ty : func_type; ty_param_cell_num : Z; ty_ret_cell_num : Z }.

(** [InitializerExpression]: the member of the union that the tag selects; a zero
    tag before it is loaded.  A float is its bits. *)
Inductive initializer :=
| InitNone
| InitI32 (i32 : Z)
| InitI64 (i64 : Z)
| InitF32 (f32 : Z)
| InitF64 (f64 : Z)
| InitGlobal (global_index : Z).

(** [WASMTable]. *)
Record table_obj := mkTableObj { elem_type : Z; t_flags : Z; init_size : Z; max_size : Z }.

(** [WASMMemory]. *)
Record memory_obj := mkMemoryObj {
  m_flags : Z;
  num_bytes_per_page : Z;
  init_page_count : Z;
  max_page_count : Z
}.

(** What [wasm_native_resolve_symbol] answers: the function, its signature, its
    attachment and its calling convention. *)
Record native_symbol := mkNative {
  linked_func : Z; linked_signature : Z; linked_attachment : Z; linked_call_conv_raw : bool
}.

(** The union of [WASMImport].  The two names of an import are at the same place in
    all its members. *)
Inductive import_union :=
| ImportBlank
| ImportFunction (func_type : type_obj) (linked : native_symbol)
| ImportTable (table : table_obj)
| ImportMemory (memory : memory_obj)
| ImportGlobal (type : Z) (is_mutable : bool) (global_data_linked : option Z).

Record import_obj := mkImportObj {
  i_kind : Z; i_module_name : list Z; i_field_name : list Z; i_u : import_union
}.
Definition blank_import : import_obj := mkImportObj 0 [] [] ImportBlank.

(** [WASMFunction], with the blocks of the structure, of the offsets and of the
    code. *)
Record function_obj := mkFunctionObj {
  fn_type : type_obj;
  local_count : Z;
  fn_local_types : list Z;
  param_cell_num : Z;
  ret_cell_num : Z;
  local_cell_num : Z;
  fn_local_offsets : list Z;
  fn_verdict : verdict;
  fn_code_size : Z;
  fn_code : Z;
  fn_block : nat;
  fn_offsets_block : option nat;
  fn_code_block : option nat
}.

(** [WASMGlobal]. *)
Record global_obj := mkGlobalObj { g_type : Z; g_is_mutable : bool; g_init : initializer }.
Definition blank_global : global_obj := mkGlobalObj 0 false InitNone.

(** [WASMExport]. *)
Record export_obj := mkExportObj { e_name : list Z; e_kind : Z; e_index : Z }.
Definition blank_export : export_obj := mkExportObj [] 0 0.

(** [WASMTableSeg]. *)
Record table_seg_obj := mkTableSegObj {
  table_index : Z;
  ts_base_offset : initializer;
  ts_function_count : Z;
  func_indexes : option (nat * list Z)
}.
Definition blank_segment : table_seg_obj := mkTableSegObj 0 InitNone 0 None.

(** [WASMDataSeg], with its block and that of its data. *)
Record data_seg_obj := mkDataSegObj {
  memory_index : Z;
  ds_base_offset : initializer;
  data_length : Z;
  ds_data : Z;
  ds_block : nat;
  ds_data_block : option nat
}.

(** An array of the heap, or a null pointer, with the count the module keeps. *)
Record counted (A : Type) := mkCounted { count : Z; array : option (nat * list A) }.
Arguments mkCounted {A} count array.
Arguments count {A} c.
Arguments array {A} c.
Definition elems {A} (c : counted A) : list A :=
  match array c with Some (_, l) => l | None => [] end.

(** The imports; the pointers into the array are indices. *)
Record import_info := mkImportInfo {
  md_import_array : counted import_obj;
  import_function_count : Z;
  m_import_table_count : Z;
  m_import_memory_count : Z;
  import_global_count : Z;
  import_functions_at : option Z;
  import_tables_at : option Z;
  import_memories_at : option Z;
  import_globals_at : option Z
}.

(** What the module tells of the stack and the heap of its source language. *)
Record aux_info := mkAux {
  aux_data_end_global_index : Z;
  aux_data_end : Z;
  aux_heap_base_global_index : Z;
  aux_heap_base : Z;
  m_aux_stack_top_global_index : Z;
  aux_stack_bottom : Z;
  m_aux_stack_size : Z
}.

Record runtime_funcs := mkRuntime { malloc_function : Z; free_function : Z; retain_function : Z }.

Record module_obj := mkModuleObj {
  md_block : nat;
  md_types : counted (option (nat * type_obj));
  md_imports : import_info;
  md_functions : counted (option function_obj);
  md_tables : counted table_obj;
  md_memories : counted memory_obj;
  md_globals : counted global_obj;
  md_exports : counted export_obj;
  md_table_segments : counted table_seg_obj;
  md_data_segments : counted (option data_seg_obj);
  md_start_function : Z;
  md_aux : aux_info;
  md_runtime : runtime_funcs;
  md_possible_memory_grow : bool;
  md_strings : list (nat * list Z);
  md_is_wasi : bool
}.

Definition set_md_types (x : counted (option (nat * type_obj))) (m : module_obj) : module_obj :=
  mkModuleObj (md_block m) x (md_imports m) (md_functions m) (md_tables m) (md_memories m) (md_globals m)
    (md_exports m) (md_table_segments m) (md_data_segments m) (md_start_function m) (md_aux m)
    (md_runtime m) (md_possible_memory_grow m) (md_strings m) (md_is_wasi m).
Definition set_md_imports (x : import_info) (m : module_obj) : module_obj :=
  mkModuleObj (md_block m) (md_types m) x (md_functions m) (md_tables m) (md_memories m) (md_globals m)
    (md_exports m) (md_table_segments m) (md_data_segments m) (md_start_function m) (md_aux m)
    (md_runtime m) (md_possible_memory_grow m) (md_strings m) (md_is_wasi m).
Definition set_md_functions (x : counted (option function_obj)) (m : module_obj) : module_obj :=
  mkModuleObj (md_block m) (md_types m) (md_imports m) x (md_tables m) (md_memories m) (md_globals m)
    (md_exports m) (md_table_segments m) (md_data_segments m) (md_start_function m) (md_aux m)
    (md_runtime m) (md_possible_memory_grow m) (md_strings m) (md_is_wasi m).
Definition set_md_tables (x : counted table_obj) (m : module_obj) : module_obj :=
  mkModuleObj (md_block m) (md_types m) (md_imports m) (md_functions m) x (md_memories m) (md_globals m)
    (md_exports m) (md_table_segments m) (md_data_segments m) (md_start_function m) (md_aux m)
    (md_runtime m) (md_possible_memory_grow m) (md_strings m) (md_is_wasi m).
Definition set_md_memories (x : counted memory_obj) (m : module_obj) : module_obj :=
  mkModuleObj (md_block m) (md_types m) (md_imports m) (md_functions m) (md_tables m) x (md_globals m)
    (md_exports m) (md_table_segments m) (md_data_segments m) (md_start_function m) (md_aux m)
    (md_runtime m) (md_possible_memory_grow m) (md_strings m) (md_is_wasi m).
Definition set_md_globals (x : counted global_obj) (m : module_obj) : module_obj :=
  mkModuleObj (md_block m) (md_types m) (md_imports m) (md_functions m) (md_tables m) (md_memories m) x
    (md_exports m) (md_table_segments m) (md_data_segments m) (md_start_function m) (md_aux m)
    (md_runtime m) (md_possible_memory_grow m) (md_strings m) (md_is_wasi m).
Definition set_md_exports (x : counted export_obj) (m : module_obj) : module_obj :=
  mkModuleObj (md_block m) (md_types m) (md_imports m) (md_functions m) (md_tables m) (md_memories m)
    (md_globals m) x (md_table_segments m) (md_data_segments m) (md_start_function m) (md_aux m)
    (md_runtime m) (md_possible_memory_grow m) (md_strings m) (md_is_wasi m).
Definition set_md_table_segments (x : counted table_seg_obj) (m : module_obj) : module_obj :=
  mkModuleObj (md_block m) (md_types m) (md_imports m) (md_functions m) (md_tables m) (md_memories m)
    (md_globals m) (md_exports m) x (md_data_segments m) (md_start_function m) (md_aux m)
    (md_runtime m) (md_possible_memory_grow m) (md_strings m) (md_is_wasi m).
Definition set_md_data_segments (x : counted (option data_seg_obj)) (m : module_obj) : module_obj :=
  mkModuleObj (md_block m) (md_types m) (md_imports m) (md_functions m) (md_tables m) (md_memories m)
    (md_globals m) (md_exports m) (md_table_segments m) x (md_start_function m) (md_aux m)
    (md_runtime m) (md_possible_memory_grow m) (md_strings m) (md_is_wasi m).
Definition set_md_start_function (x : Z) (m : module_obj) : module_obj :=
  mkModuleObj (md_block m) (md_types m) (md_imports m) (md_functions m) (md_tables m) (md_memories m)
    (md_globals m) (md_exports m) (md_table_segments m) (md_data_segments m) x (md_aux m)
    (md_runtime m) (md_possible_memory_grow m) (md_strings m) (md_is_wasi m).
Definition set_md_aux (x : aux_info) (m : module_obj) : module_obj :=
  mkModuleObj (md_block m) (md_types m) (md_imports m) (md_functions m) (md_tables m) (md_memories m)
    (md_globals m) (md_exports m) (md_table_segments m) (md_data_segments m) (md_start_function m)
    x (md_runtime m) (md_possible_memory_grow m) (md_strings m) (md_is_wasi m).
Definition set_md_runtime (x : runtime_funcs) (m : module_obj) : module_obj :=
  mkModuleObj (md_block m) (md_types m) (md_imports m) (md_functions m) (md_tables m) (md_memories m)
    (md_globals m) (md_exports m) (md_table_segments m) (md_data_segments m) (md_start_function m)
    (md_aux m) x (md_possible_memory_grow m) (md_strings m) (md_is_wasi m).
Definition set_md_possible_memory_grow (x : bool) (m : module_obj) : module_obj :=
  mkModuleObj (md_block m) (md_types m) (md_imports m) (md_functions m) (md_tables m) (md_memories m)
    (md_globals m) (md_exports m) (md_table_segments m) (md_data_segments m) (md_start_function m)
    (md_aux m) (md_runtime m) x (md_strings m) (md_is_wasi m).
Definition set_md_strings (x : list (nat * list Z)) (m : module_obj) : module_obj :=
  mkModuleObj (md_block m) (md_types m) (md_imports m) (md_functions m) (md_tables m) (md_memories m)
    (md_globals m) (md_exports m) (md_table_segments m) (md_data_segments m) (md_start_function m)
    (md_aux m) (md_runtime m) (md_possible_memory_grow m) x (md_is_wasi m).
Definition set_md_is_wasi (x : bool) (m : module_obj) : module_obj :=
  mkModuleObj (md_block m) (md_types m) (md_imports m) (md_functions m) (md_tables m) (md_memories m)
    (md_globals m) (md_exports m) (md_table_segments m) (md_data_segments m) (md_start_function m)
    (md_aux m) (md_runtime m) (md_possible_memory_grow m) (md_strings m) x.

(** A new module: all bytes zero but those [create_module] sets. *)
Definition no_elems {A} : counted A := mkCounted 0 None.
Definition UINT32_MAX : Z := 2 ^ 32 - 1.
Definition blank_module (block : nat) : module_obj :=
  mkModuleObj block no_elems (mkImportInfo no_elems 0 0 0 0 None None None None) no_elems no_elems
    no_elems no_elems no_elems no_elems no_elems UINT32_MAX (mkAux 0 0 0 0 0 0 0)
    (mkRuntime 0 0 0) false [] false.

(** * The state *)

Record loading := mkLoading { ld : loader; md : module_obj }.

Definition K (A : Type) : Type := M loading (option A).

(** A routine that leaves the module alone. *)
Definition lift {A} (c : L A) : K A := fun s =>
  match c (ld s) with
  | Ok o l => Ok o (mkLoading l (md s))
  | Exited n => Exited n
  | Stuck => Stuck
  end.
Definition getm {A} (f : module_obj → A) : K A := gets (fun s => Some (f (md s))).
Definition modm (f : module_obj → module_obj) : K unit := fun s => Ok (Some tt) (mkLoading (ld s) (f (md s))).
Definition getl {A} (f : loader → A) : K A := lift (lget f).
Definition fail {A} (msg : string) : K A := lift (lfail msg).
Definition some {A} (o : option A) : K A :=
  match o with Some a => lret a | None => mstuck end.

(** [for (i = i; i < i + n; i++)]. *)
Fixpoint kfor (n : nat) (i : Z) (body : Z → K unit) : K unit :=
  match n with
  | O => lret tt
  | S n => body i ;+ kfor n (i + 1) body
  end.
Definition count_to (n : Z) (body : Z → K unit) : K unit := kfor (Z.to_nat n) 0 body.

(** The element of an array, which is there; and a store into an array of the
    module, with [get] and [set]. *)
Definition elem {A} (c : counted A) (i : Z) : K A := some (index (elems c) i).
Definition put {A} (get : module_obj → counted A) (set : counted A → module_obj → module_obj)
    (i : Z) (a : A) : K unit :=
  let+ c := getm get in
  match array c with
  | Some (b, l) => if (0 <=? i) && (i <? zlen l)
                   then modm (set (mkCounted (count c) (Some (b, <[Z.to_nat i := a]> l)))) else mstuck
  | None => mstuck
  end.

(** * Reading *)

(** A read from [p_end] on has no meaning: it is outside the section. *)
Definition read_uint8 (p_end : Z) : K Z :=
  let+ p := getl l_p in
  if p <? p_end then lift Validate.read_uint8 else mstuck.

Definition CHECK_BUF (p_end length : Z) : K unit :=
  let+ p := getl l_p in
  if check_buf p p_end length then lret tt else fail "unexpected end of section or function".

Definition CHECK_BUF1 (p_end length : Z) : K unit :=
  let+ p := getl l_p in
  if check_buf p p_end length then lret tt else fail "unexpected end".

Definition read_leb_uint32 (p_end : Z) : K Z := lift (let+ r := read_leb_to p_end 32 false in lret (uint32 r)).
Definition read_leb_int32 (p_end : Z) : K Z := lift (let+ r := read_leb_to p_end 32 true in lret (int32 r)).
Definition read_leb_int64 (p_end : Z) : K Z := lift (let+ r := read_leb_to p_end 64 true in lret (swrap 64 r)).

Definition skip (n : Z) : K unit := lift (move_p n).
Definition set_p (p : Z) : K unit := lift (lmod (set_l_p p)).

(** The bytes from [p] on, as integers. *)
Definition bytes (m : mem) (p n : Z) : list Z := map (fun a => load_Z m a 1) (seqZ p n).
Definition bytes_here (p_end n : Z) : K (list Z) :=
  let+ p := getl l_p in
  let+ m := getl l_mem in
  if p + n <=? p_end then lret (bytes m p n) else mstuck.

(** A second cursor: [c] reads from [q] on. *)
Definition at_cursor {A} (q : Z) (c : K A) : K (A * Z) :=
  let+ p := getl l_p in
  set_p q ;+
  let+ a := c in
  let+ q := getl l_p in
  set_p p ;+ lret (a, q).

Section heap.
Context `{ScratchPool}.

Definition loader_malloc (size : Z) : K nat := lift (LoaderCtx.loader_malloc size).
Definition alloc_info (b : nat) (t : Data_Type) (n : Z) : K unit := lift (LoaderCtx.alloc_info b t n).
Definition wasm_runtime_free (b : nat) : K unit := lift (LoaderCtx.wasm_runtime_free b).

(** Where a block is. *)
Definition address (b : nat) : K Z :=
  let+ h := getl l_heap in
  some (option_map fst (extents h !! b)).

(** [memcpy] of [n] bytes from the reading position to a block. *)
Definition copy_to (b : nat) (p_end n : Z) : K Z :=
  let+ a := address b in
  let+ p := getl l_p in
  if p + n <=? p_end then
    lift (lmod (fun s => set_l_mem (store (l_mem s) a (load (l_mem s) p (Z.to_nat n))) s)) ;+ lret a
  else mstuck.

(** The count of an array of the module, its block and its entry in the table. *)
Definition new_array {A} (set : counted A → module_obj → module_obj) (size n : Z) (t : Data_Type)
    (blank : A) : K unit :=
  modm (set (mkCounted n None)) ;+
  let+ b := loader_malloc (size * n) in
  modm (set (mkCounted n (Some (b, replicate (Z.to_nat n) blank)))) ;+
  alloc_info b t n.

(** * Strings *)

(** A string as C reads it, to the first zero. *)
Fixpoint c_string (s : list Z) : list Z :=
  match s with
  | [] => []
  | c :: s => if c =? 0 then [] else c :: c_string s
  end.
Definition strcmp (s t : list Z) : bool := bool_decide (c_string s = c_string t).
Definition chars (s : string) : list Z :=
  map (fun c => Z.of_N (Ascii.N_of_ascii c)) (String.list_ascii_of_string s).

Definition byte_in (lo c hi : Z) : bool := negb ((c <? lo) || (hi <? c)).
Definition tail_byte (c : Z) : bool := byte_in 0x80 c 0xBF.

(** [check_utf8_str]; each turn goes on behind one character. *)
Fixpoint check_utf8_str (str : list Z) : bool :=
  match str with
  | [] => true
  | chr :: p =>
      if chr <? 0x80 then check_utf8_str p
      else match p with
      | [] => false
      | p1 :: p =>
          if byte_in 0xC2 chr 0xDF then tail_byte p1 && check_utf8_str p
          else match p with
          | [] => false
          | p2 :: p =>
              if byte_in 0xE0 chr 0xEF then
                (if chr =? 0xE0 then byte_in 0xA0 p1 0xBF && tail_byte p2
                 else if chr =? 0xED then byte_in 0x80 p1 0x9F && tail_byte p2
                 else tail_byte p1 && tail_byte p2) && check_utf8_str p
              else match p with
              | [] => false
              | p3 :: p =>
                  if byte_in 0xF0 chr 0xF4 then
                    (if chr =? 0xF0 then byte_in 0x90 p1 0xBF && tail_byte p2 && tail_byte p3
                     else if chr =? 0xF4 then byte_in 0x80 p1 0x8F && tail_byte p2 && tail_byte p3
                     else tail_byte p1 && tail_byte p2 && tail_byte p3) && check_utf8_str p
                  else false
              end
          end
      end
  end.

(** The node of the list that holds [str], a string without its final zero. *)
Fixpoint find_string (nodes : list (nat * list Z)) (str : list Z) : option (list Z) :=
  match nodes with
  | [] => None
  | (_, node) :: nodes =>
      if (zlen (c_string node) =? zlen str) && bool_decide (take (length str) node = str)
      then Some node else find_string nodes str
  end.

Definition const_str_list_insert (str : list Z) : K (list Z) :=
  if negb (check_utf8_str str) then fail "invalid UTF-8 encoding"
  else
    let+ nodes := getm md_strings in
    match find_string nodes str with
    | Some node => lret node
    | None =>
        let+ b := loader_malloc (sizeof StringNode + zlen str + 1) in
        alloc_info b StringNodeT (zlen str + 1) ;+
        modm (set_md_strings ((b, str) :: nodes)) ;+
        lret str
    end.

(** * Initializers *)

Definition fail_type_mismatch {A} : K A := fail "type mismatch or constant expression required".

(** [n] bytes of a float. *)
Definition read_float (p_end n : Z) : K Z :=
  CHECK_BUF p_end n ;+
  let+ p := getl l_p in
  let+ m := getl l_mem in
  skip n ;+ lret (load_Z m p n).

Definition load_init_expr (p_end type : Z) : K initializer :=
  CHECK_BUF p_end 1 ;+
  let+ flag := read_uint8 p_end in
  let+ init :=
    (if flag =? INIT_EXPR_TYPE_I32_CONST then
       if negb (type =? VALUE_TYPE_I32) then fail_type_mismatch
       else let+ i := read_leb_int32 p_end in lret (InitI32 i)
     else if flag =? INIT_EXPR_TYPE_I64_CONST then
       if negb (type =? VALUE_TYPE_I64) then fail_type_mismatch
       else let+ i := read_leb_int64 p_end in lret (InitI64 i)
     else if flag =? INIT_EXPR_TYPE_F32_CONST then
       if negb (type =? VALUE_TYPE_F32) then fail_type_mismatch
       else let+ f := read_float p_end 4 in lret (InitF32 f)
     else if flag =? INIT_EXPR_TYPE_F64_CONST then
       if negb (type =? VALUE_TYPE_F64) then fail_type_mismatch
       else let+ f := read_float p_end 8 in lret (InitF64 f)
     else if flag =? INIT_EXPR_TYPE_GET_GLOBAL then
       let+ i := read_leb_uint32 p_end in lret (InitGlobal i)
     else fail "illegal opcode or constant expression required or type mismatch") in
  CHECK_BUF p_end 1 ;+
  let+ end_byte := read_uint8 p_end in
  if negb (end_byte =? 0x0b) then fail_type_mismatch else lret init.

End heap.
