(* ===== verification/Sections.v ===== *)
(** The sections of a module (wasm_loader.c): one routine for each section, which
    reads it from [p] to [p_end] into the module. *)
From stdpp Require Import base gmap list numbers strings pretty.
From Stdlib Require Import Strings.Byte ZArith Lia.
From S2P Require Import Prelude CMemory WasmTypes PoolInfo Opcodes Leb FindBlock LoaderCtx Validate LoaderModule MemInit.

Definition UINT16_MAX : Z := 65535.
Definition TABLE_MAX_SIZE : Z := 1024.
Definition DEFAULT_NUM_BYTES_PER_PAGE : Z := 65536.

(** [%02X]. *)
Definition hex_upper (d : Z) : string :=
  String (Ascii.ascii_of_nat (Z.to_nat (if d <? 10 then 48 + d else 55 + d))) "".
Definition hex02_upper (n : Z) : string := hex_upper (n / 16) +:+ hex_upper (n mod 16).

Section sections.
Context `{ScratchPool} (statics : memory_statics)
  (wasm_native_resolve_symbol : list Z → list Z → type_obj → native_symbol).

(** Every section ends at its end. *)
Definition section_end (p_end : Z) : K unit :=
  let+ p := getl l_p in
  if negb (p =? p_end) then fail "section size mismatch" else lret tt.

(** * Types *)

Fixpoint read_types (p_end : Z) (n : nat) : K (list Z) :=
  match n with
  | O => lret []
  | S n =>
      CHECK_BUF p_end 1 ;+
      let+ t := read_uint8 p_end in
      let+ ts := read_types p_end n in
      lret (t :: ts)
  end.

Definition set_type (i : Z) (t : nat * type_obj) : K unit :=
  put md_types set_md_types i (Some t).

Definition load_type (p_end i : Z) : K unit :=
  CHECK_BUF p_end 1 ;+
  let+ flag := read_uint8 p_end in
  if negb (flag =? 0x60) then fail "invalid type flag"
  else
    let+ param_count := read_leb_uint32 p_end in
    let+ p_org := getl l_p in
    CHECK_BUF p_end param_count ;+
    skip param_count ;+
    let+ result_count := read_leb_uint32 p_end in
    CHECK_BUF p_end result_count ;+
    set_p p_org ;+
    if (UINT16_MAX <? param_count) || (UINT16_MAX <? result_count)
    then fail "param count or result count too large"
    else
      let+ b := loader_malloc (8 + (param_count + result_count)) in
      alloc_info b WASMTypeT (param_count + result_count) ;+
      set_type i (b, mkTypeObj (mkType param_count result_count []) 0 0) ;+
      let+ params := read_types p_end (Z.to_nat param_count) in
      let+ result_count' := read_leb_uint32 p_end in
      let+ results := read_types p_end (Z.to_nat result_count') in
      let param_cell_num := uint32 (wasm_get_cell_num params) in
      let ret_cell_num := uint32 (wasm_get_cell_num results) in
      if (UINT16_MAX <? param_cell_num) || (UINT16_MAX <? ret_cell_num)
      then fail "param count or result count too large"
      else
        set_type i (b, mkTypeObj (mkType param_count result_count (params ++ results))
                         param_cell_num ret_cell_num).

Definition load_type_section (p_end : Z) : K unit :=
  let+ type_count := read_leb_uint32 p_end in
  (if negb (type_count =? 0) then
     new_array set_md_types 8 type_count WASMTypeTT None ;+
     count_to type_count (load_type p_end)
   else lret tt) ;+
  section_end p_end.

(** * Imports *)

Definition adjust_table_max_size (init_size max_size_flag max_size : Z) : Z :=
  let default_max_size :=
    if TABLE_MAX_SIZE <? uint32 (init_size * 2) then uint32 (init_size * 2) else TABLE_MAX_SIZE in
  if negb (max_size_flag =? 0) then
    if init_size <? max_size then
      if max_size <? default_max_size then max_size else default_max_size
    else max_size
  else default_max_size.

Definition check_table_max_size (init_size max_size : Z) : K unit :=
  if max_size <? init_size then fail "size minimum must not be greater than maximum" else lret tt.

Definition check_memory_init_size (init_size : Z) : K unit :=
  if 65536 <? init_size then fail "memory size must be at most 65536 pages (4GiB)" else lret tt.

Definition check_memory_max_size (init_size max_size : Z) : K unit :=
  if max_size <? init_size then fail "size minimum must not be greater than maximum"
  else if 65536 <? max_size then fail "memory size must be at most 65536 pages (4GiB)"
  else lret tt.

Definition load_function_import (p_end : Z) (sub_module_name function_name : list Z) : K import_union :=
  CHECK_BUF p_end 1 ;+
  let+ declare_type_index := read_leb_uint32 p_end in
  let+ types := getm md_types in
  if count types <=? declare_type_index then fail "unknown type"
  else
    let+ t := elem types declare_type_index in
    let+ t := some t in
    lret (ImportFunction t.2 (wasm_native_resolve_symbol sub_module_name function_name t.2)).

(** The maximum of a table: 0 if there is none. *)
Definition table_limits (p_end flags : Z) : K (Z * Z) :=
  let+ init_size := read_leb_uint32 p_end in
  let+ max_size :=
    (if negb (flags =? 0) then
       let+ max_size := read_leb_uint32 p_end in
       check_table_max_size init_size max_size ;+ lret max_size
     else lret 0) in
  lret (init_size, adjust_table_max_size init_size flags max_size).

Definition load_table_import (p_end : Z) (sub_module_name table_name : list Z) : K import_union :=
  CHECK_BUF p_end 1 ;+
  let+ declare_elem_type := read_uint8 p_end in
  if negb (VALUE_TYPE_FUNCREF =? declare_elem_type) then fail "incompatible import type"
  else
    let+ flags := read_leb_uint32 p_end in
    if 1 <? flags then fail "integer too large"
    else
      let+ limits := table_limits p_end flags in
      if strcmp (chars "spectest") sub_module_name then
        if negb (strcmp (chars "table") table_name)
        then fail "incompatible import type or unknown import"
        else if (10 <? limits.1) || (limits.2 <? 20) then fail "incompatible import type"
        else lret (ImportTable (mkTableObj declare_elem_type flags 10 20))
      else lret (ImportTable (mkTableObj declare_elem_type flags limits.1 limits.2)).

(** The pages of a memory. *)
Definition memory_limits (p_end flags : Z) : K (Z * Z) :=
  let max_page_count := wasm_runtime_memory_pool_size statics / DEFAULT_NUM_BYTES_PER_PAGE in
  let+ init := read_leb_uint32 p_end in
  check_memory_init_size init ;+
  let+ max :=
    (if negb (Z.land flags 1 =? 0) then
       let+ max := read_leb_uint32 p_end in
       check_memory_max_size init max ;+
       lret (if max_page_count <? max then max_page_count else max)
     else lret max_page_count) in
  lret (init, max).

Definition load_memory_import (p_end : Z) (sub_module_name memory_name : list Z) : K import_union :=
  let+ flags := read_leb_uint32 p_end in
  let+ limits := memory_limits p_end flags in
  let memory init max := ImportMemory (mkMemoryObj flags DEFAULT_NUM_BYTES_PER_PAGE init max) in
  if strcmp (chars "spectest") sub_module_name then
    if negb (strcmp (chars "memory") memory_name)
    then fail "incompatible import type or unknown import"
    else if (1 <? limits.1) || (limits.2 <? 2) then fail "incompatible import type"
    else lret (memory 1 2)
  else lret (memory limits.1 limits.2).

(** The table [native_global_defs] (libc_builtin_wrapper.c): names and bits. *)
Definition native_global_defs : list (list Z * list Z * (Z * bool * Z)) :=
  [(chars "global", chars "NaN", (VALUE_TYPE_F64, false, 0x7FF8000000000000));
   (chars "global", chars "Infinity", (VALUE_TYPE_F64, false, 0x7FF0000000000000))].

Fixpoint wasm_native_lookup_libc_builtin_global (defs : list (list Z * list Z * (Z * bool * Z)))
    (module_name global_name : list Z) : option (Z * bool * Z) :=
  match defs with
  | [] => None
  | (m, g, def) :: defs =>
      if strcmp m module_name && strcmp g global_name then Some def
      else wasm_native_lookup_libc_builtin_global defs module_name global_name
  end.

Definition load_global_import (p_end : Z) (sub_module_name global_name : list Z) : K import_union :=
  CHECK_BUF p_end 2 ;+
  let+ declare_type := read_uint8 p_end in
  let+ declare_mutable := read_uint8 p_end in
  if 2 <=? declare_mutable then fail "invalid mutability"
  else
    match wasm_native_lookup_libc_builtin_global native_global_defs sub_module_name global_name with
    | Some (type, is_mutable, value) =>
        if negb (type =? declare_type) || negb (Z.b2z is_mutable =? declare_mutable)
        then fail "incompatible import type"
        else lret (ImportGlobal declare_type (declare_mutable =? 1) (Some value))
    | None => lret (ImportGlobal declare_type (declare_mutable =? 1) None)
    end.

(** ** The scan that counts *)

Definition upd_imports (f : import_info → import_info) : K unit :=
  modm (fun m => set_md_imports (f (md_imports m)) m).

Definition get_import_array (m : module_obj) : counted import_obj := md_import_array (md_imports m).
Definition set_import_array (c : counted import_obj) (m : module_obj) : module_obj :=
  let i := md_imports m in
  set_md_imports (mkImportInfo c (import_function_count i) (m_import_table_count i)
    (m_import_memory_count i) (import_global_count i) (import_functions_at i) (import_tables_at i)
    (import_memories_at i) (import_globals_at i)) m.

Definition count_import (kind : Z) : K unit :=
  upd_imports (fun i =>
    mkImportInfo (md_import_array i)
      (uint32 (import_function_count i + Z.b2z (kind =? IMPORT_KIND_FUNC)))
      (uint32 (m_import_table_count i + Z.b2z (kind =? IMPORT_KIND_TABLE)))
      (uint32 (m_import_memory_count i + Z.b2z (kind =? IMPORT_KIND_MEMORY)))
      (uint32 (import_global_count i + Z.b2z (kind =? IMPORT_KIND_GLOBAL)))
      (import_functions_at i) (import_tables_at i) (import_memories_at i) (import_globals_at i)).

Definition skip_name (p_end : Z) : K unit :=
  let+ name_len := read_leb_uint32 p_end in
  CHECK_BUF p_end name_len ;+
  skip name_len.

Definition skip_limits (p_end : Z) : K unit :=
  let+ flags := read_leb_uint32 p_end in
  read_leb_uint32 p_end ;+
  if negb (Z.land flags 1 =? 0) then read_leb_uint32 p_end ;+ lret tt else lret tt.

Definition scan_import (p_end : Z) : K unit :=
  skip_name p_end ;+
  skip_name p_end ;+
  CHECK_BUF p_end 1 ;+
  let+ kind := read_uint8 p_end in
  if kind =? IMPORT_KIND_FUNC then
    read_leb_uint32 p_end ;+ count_import kind
  else if kind =? IMPORT_KIND_TABLE then
    CHECK_BUF p_end 1 ;+
    read_uint8 p_end ;+
    skip_limits p_end ;+
    count_import kind ;+
    let+ i := getm md_imports in
    if 1 <? m_import_table_count i then fail "multiple tables" else lret tt
  else if kind =? IMPORT_KIND_MEMORY then
    skip_limits p_end ;+
    count_import kind ;+
    let+ i := getm md_imports in
    if 1 <? m_import_memory_count i then fail "multiple memories" else lret tt
  else if kind =? IMPORT_KIND_GLOBAL then
    CHECK_BUF p_end 2 ;+ skip 2 ;+ count_import kind
  else fail "invalid import kind".

(** The four pointers into the array; a kind that does not occur keeps its null
    pointer. *)
Definition place_imports (i : import_info) : import_info :=
  let nf := import_function_count i in
  let nt := m_import_table_count i in
  let nm := m_import_memory_count i in
  let ng := import_global_count i in
  mkImportInfo (md_import_array i) nf nt nm ng
    (if negb (nf =? 0) then Some 0 else import_functions_at i)
    (if negb (nt =? 0) then Some nf else import_tables_at i)
    (if negb (nm =? 0) then Some (nf + nt) else import_memories_at i)
    (if negb (ng =? 0) then Some (nf + nt + nm) else import_globals_at i).

(** ** The scan that loads *)

(** The local variables [import_functions] and so on: where the next import of a
    kind goes. *)
Record import_cursors := mkCursors {
  next_function : option Z; next_table : option Z; next_memory : option Z; next_global : option Z
}.

Definition set_import (i : option Z) (import : import_obj) : K unit :=
  let+ i := some i in put get_import_array set_import_array i import.

Definition load_name (p_end : Z) : K (list Z) :=
  let+ name_len := read_leb_uint32 p_end in
  CHECK_BUF p_end name_len ;+
  let+ str := bytes_here p_end name_len in
  let+ name := const_str_list_insert str in
  skip name_len ;+ lret name.

Definition succ (c : option Z) : option Z := option_map (Z.add 1) c.

Definition load_import (p_end : Z) (c : import_cursors) : K import_cursors :=
  let+ sub_module_name := load_name p_end in
  let+ field_name := load_name p_end in
  CHECK_BUF p_end 1 ;+
  let+ kind := read_uint8 p_end in
  let import u := mkImportObj kind sub_module_name field_name u in
  if kind =? IMPORT_KIND_FUNC then
    let+ u := load_function_import p_end sub_module_name field_name in
    set_import (next_function c) (import u) ;+
    lret (mkCursors (succ (next_function c)) (next_table c) (next_memory c) (next_global c))
  else if kind =? IMPORT_KIND_TABLE then
    let+ u := load_table_import p_end sub_module_name field_name in
    set_import (next_table c) (import u) ;+
    lret (mkCursors (next_function c) (succ (next_table c)) (next_memory c) (next_global c))
  else if kind =? IMPORT_KIND_MEMORY then
    let+ u := load_memory_import p_end sub_module_name field_name in
    set_import (next_memory c) (import u) ;+
    lret (mkCursors (next_function c) (next_table c) (succ (next_memory c)) (next_global c))
  else if kind =? IMPORT_KIND_GLOBAL then
    let+ u := load_global_import p_end sub_module_name field_name in
    set_import (next_global c) (import u) ;+
    lret (mkCursors (next_function c) (next_table c) (next_memory c) (succ (next_global c)))
  else fail "invalid import kind".

Fixpoint load_imports (p_end : Z) (n : nat) (c : import_cursors) : K unit :=
  match n with
  | O => lret tt
  | S n => let+ c := load_import p_end c in load_imports p_end n c
  end.

(** The elements of a part of the imports. *)
Definition imports_from (at_ : option Z) (n : Z) (i : import_info) : list import_obj :=
  match at_ with
  | Some a => take (Z.to_nat n) (drop (Z.to_nat a) (elems (md_import_array i)))
  | None => []
  end.

Definition wasi_name (name : list Z) : bool :=
  strcmp name (chars "wasi_unstable") || strcmp name (chars "wasi_snapshot_preview1").

Definition load_import_section (p_end : Z) : K unit :=
  const_str_list_insert (chars "env") ;+
  const_str_list_insert (chars "wasi_unstable") ;+
  const_str_list_insert (chars "wasi_snapshot_preview1") ;+
  let+ import_count := read_leb_uint32 p_end in
  (if negb (import_count =? 0) then
     new_array set_import_array (sizeof WASMImport) import_count WASMImportT blank_import ;+
     let+ p_old := getl l_p in
     count_to import_count (fun _ => scan_import p_end) ;+
     upd_imports place_imports ;+
     set_p p_old ;+
     let+ i := getm md_imports in
     load_imports p_end (Z.to_nat import_count)
       (mkCursors (if import_function_count i =? 0 then None else import_functions_at i)
                  (if m_import_table_count i =? 0 then None else import_tables_at i)
                  (if m_import_memory_count i =? 0 then None else import_memories_at i)
                  (if import_global_count i =? 0 then None else import_globals_at i)) ;+
     let+ i := getm md_imports in
     if existsb (fun import => wasi_name (i_module_name import))
          (imports_from (import_functions_at i) (import_function_count i) i)
     then modm (set_md_is_wasi true) else lret tt
   else lret tt) ;+
  section_end p_end.

(** * Functions *)

(** The pass that counts the locals. *)
Fixpoint count_locals (p_end : Z) (local_set_count : nat) (local_count : Z) : K Z :=
  match local_set_count with
  | O => lret local_count
  | S n =>
      let+ sub_local_count := read_leb_uint32 p_end in
      if UINT32_MAX - local_count <? sub_local_count then fail "too many locals"
      else
        CHECK_BUF p_end 1 ;+
        read_uint8 p_end ;+
        count_locals p_end n (local_count + sub_local_count)
  end.

Definition local_type_error (type : Z) : string :=
  if type =? VALUE_TYPE_V128 then "v128 value type requires simd feature"
  else if (type =? VALUE_TYPE_FUNCREF) || (type =? VALUE_TYPE_EXTERNREF)
  then "ref value type requires reference types feature"
  else "invalid local type 0x" +:+ hex02_upper type.

(** [local_types[i]], ..., [local_types[i + n - 1]] become [type]. *)
Definition fill {A} (l : list A) (i : Z) (n : Z) (a : A) : list A :=
  take (Z.to_nat i) l ++ replicate (Z.to_nat n) a ++ drop (Z.to_nat (i + n)) l.

(** The pass that loads their types. *)
Fixpoint load_locals (p_end : Z) (local_set_count : nat) (local_count local_type_index : Z)
    (local_types : list Z) : K (list Z) :=
  match local_set_count with
  | O => lret local_types
  | S n =>
      let+ sub_local_count := read_leb_uint32 p_end in
      if (sub_local_count =? 0) || (UINT32_MAX - sub_local_count <? local_type_index)
         || (local_count <? uint32 (local_type_index + sub_local_count))
      then fail "invalid local count"
      else
        CHECK_BUF p_end 1 ;+
        let+ type := read_uint8 p_end in
        if (type <? VALUE_TYPE_F64) || (VALUE_TYPE_I32 <? type) then fail (local_type_error type)
        else load_locals p_end n local_count (local_type_index + sub_local_count)
               (fill local_types local_type_index sub_local_count type)
  end.

(** The offsets of variables of some types, the first at [local_offset], and the
    offset after them; each is stored as [uint16]. *)
Fixpoint offsets_of (types : list Z) (local_offset : Z) : list Z :=
  match types with
  | [] => []
  | t :: types => wrap 16 local_offset :: offsets_of types (uint32 (local_offset + wasm_value_type_cell_num t))
  end.

Definition init_function_local_offsets (f : function_obj) : K function_obj :=
  let n := param_count (ty (fn_type f)) + local_count f in
  let offsets := offsets_of (param_types (ty (fn_type f)) ++ fn_local_types f) 0 in
  let with_offsets b :=
    mkFunctionObj (fn_type f) (local_count f) (fn_local_types f) (param_cell_num f) (ret_cell_num f)
      (local_cell_num f) offsets (fn_verdict f) (fn_code_size f) (fn_code f) (fn_block f) b
      (fn_code_block f) in
  if 0 <? 2 * n then
    let+ b := loader_malloc (2 * n) in
    alloc_info b uint16T (uint32 n) ;+
    lret (with_offsets (Some b))
  else lret (with_offsets None).

Definition set_function (i : Z) (f : function_obj) : K unit :=
  put md_functions set_md_functions i (Some f).

Definition no_verdict : verdict := mkVerdict false false false 0 0.

(** One function: its type from the function section, its locals and code from
    [p_code] in the code section; the result is [p_code_end]. *)
Definition load_function (p_end buf_code_end i p_code : Z) : K Z :=
  let+ type_index := read_leb_uint32 p_end in
  let+ types := getm md_types in
  if count types <=? type_index then fail "unknown type"
  else
    let+ cs := at_cursor p_code (read_leb_uint32 buf_code_end) in
    let code_size := cs.1 in
    let p_code := cs.2 in
    if (code_size =? 0) || (buf_code_end <? p_code + code_size) then fail "invalid function code size"
    else
      let p_code_end := p_code + code_size in
      let+ sets := at_cursor p_code (read_leb_uint32 buf_code_end) in
      let local_set_count := Z.to_nat sets.1 in
      let p_code_save := sets.2 in
      let+ locals := at_cursor p_code_save (count_locals buf_code_end local_set_count 0) in
      let local_count := locals.1 in
      let p_code := locals.2 in
      let code_size := uint32 (p_code_end - p_code) in
      let+ b := loader_malloc (sizeof WASMFunction + local_count) in
      alloc_info b WASMFunctionT local_count ;+
      let+ t := elem types type_index in
      let+ t := some t in
      let func types cells code block :=
        mkFunctionObj t.2 local_count types (ty_param_cell_num t.2) (ty_ret_cell_num t.2) cells []
          no_verdict code_size code b None block in
      let local_types := replicate (Z.to_nat local_count) 0 in
      set_function i (func local_types 0 NULL None) ;+
      let+ cb := loader_malloc code_size in
      alloc_info cb uint8T code_size ;+
      let+ code := at_cursor p_code (copy_to cb buf_code_end code_size) in
      set_function i (func local_types 0 code.1 (Some cb)) ;+
      let+ local_types :=
        at_cursor p_code_save (load_locals buf_code_end local_set_count local_count 0 local_types) in
      let f := func local_types.1 (wrap 16 (uint32 (wasm_get_cell_num local_types.1))) code.1 (Some cb) in
      set_function i f ;+
      let+ f := init_function_local_offsets f in
      set_function i f ;+
      lret p_code_end.

Fixpoint load_functions (p_end buf_code_end : Z) (n : nat) (i p_code : Z) : K unit :=
  match n with
  | O => lret tt
  | S n =>
      let+ p_code := load_function p_end buf_code_end i p_code in
      load_functions p_end buf_code_end n (i + 1) p_code
  end.

(** The code section, if there is one, is at [buf_code]. *)
Definition load_function_section (p_end : Z) (buf_code : option (Z * Z)) : K unit :=
  let+ func_count := read_leb_uint32 p_end in
  let+ code :=
    match buf_code with
    | Some (buf, buf_end) =>
        let+ c := at_cursor buf (read_leb_uint32 buf_end) in lret (c.1, c.2, buf_end)
    | None => lret (0, NULL, NULL)
    end in
  let code_count := code.1.1 in
  if negb (func_count =? code_count)
  then fail "function and code section have inconsistent lengths or unexpected end"
  else
    (if negb (func_count =? 0) then
       new_array set_md_functions 8 func_count WASMFunctionTT None ;+
       load_functions p_end code.2 (Z.to_nat func_count) 0 code.1.2
     else lret tt) ;+
    section_end p_end.

(** [bh_memcpy_s] and the code of the functions: the code section itself is only
    counted. *)
Definition load_code_section (p_end : Z) (buf_func : option (Z * Z)) : K unit :=
  let+ code_count := read_leb_uint32 p_end in
  let+ func_count :=
    match buf_func with
    | Some (buf, buf_end) => let+ c := at_cursor buf (read_leb_uint32 buf_end) in lret c.1
    | None => lret 0
    end in
  if negb (func_count =? code_count)
  then fail "function and code section have inconsistent lengths" else lret tt.

Definition all_functions (m : module_obj) : Z :=
  uint32 (import_function_count (md_imports m) + count (md_functions m)).

Definition check_function_index (function_index : Z) : K unit :=
  let+ n := getm all_functions in
  if n <=? function_index then fail ("unknown function " +:+ pretty (int32 function_index)) else lret tt.

Definition load_start_section (p_end : Z) : K unit :=
  let+ start_function := read_leb_uint32 p_end in
  let+ n := getm all_functions in
  if n <=? start_function then fail "unknown function"
  else
    let+ i := getm md_imports in
    let+ functions := getm md_functions in
    let+ type :=
      (if start_function <? import_function_count i then
         let+ at_ := some (import_functions_at i) in
         let+ import := elem (md_import_array i) (at_ + start_function) in
         match i_u import with
         | ImportFunction t _ => lret t
         | _ => mstuck
         end
       else
         let+ f := elem functions (start_function - import_function_count i) in
         let+ f := some f in
         lret (fn_type f)) in
    if negb (param_count (ty type) =? 0) || negb (result_count (ty type) =? 0)
    then fail "invalid start function"
    else
      modm (set_md_start_function start_function) ;+
      section_end p_end.

(** * Tables, memories and globals *)

(** A flag of one byte. *)
Definition read_flags (p_end : Z) : K Z :=
  let+ p_org := getl l_p in
  let+ flags := read_leb_uint32 p_end in
  let+ p := getl l_p in
  if 1 <? p - p_org then fail "integer representation too long"
  else if 1 <? flags then fail "integer too large"
  else lret flags.

Definition load_table (p_end : Z) : K table_obj :=
  CHECK_BUF p_end 1 ;+
  let+ elem_type := read_uint8 p_end in
  if negb (VALUE_TYPE_FUNCREF =? elem_type) then fail "incompatible import type"
  else
    let+ flags := read_flags p_end in
    let+ limits := table_limits p_end flags in
    lret (mkTableObj elem_type flags limits.1 limits.2).

Definition load_table_section (p_end : Z) : K unit :=
  let+ table_count := read_leb_uint32 p_end in
  let+ i := getm md_imports in
  if 1 <? uint32 (m_import_table_count i + table_count) then fail "multiple tables"
  else
    (if negb (table_count =? 0) then
       new_array set_md_tables (sizeof WASMTable) table_count WASMTableT (mkTableObj 0 0 0 0) ;+
       count_to table_count (fun i =>
         let+ t := load_table p_end in put md_tables set_md_tables i t)
     else lret tt) ;+
    section_end p_end.

Definition load_memory (p_end : Z) : K memory_obj :=
  let+ flags := read_flags p_end in
  let+ limits := memory_limits p_end flags in
  lret (mkMemoryObj flags DEFAULT_NUM_BYTES_PER_PAGE limits.1 limits.2).

Definition load_memory_section (p_end : Z) : K unit :=
  let+ memory_count := read_leb_uint32 p_end in
  let+ i := getm md_imports in
  if 1 <? uint32 (m_import_memory_count i + memory_count) then fail "multiple memories"
  else
    (if negb (memory_count =? 0) then
       new_array set_md_memories (sizeof WASMMemory) memory_count WASMMemoryT (mkMemoryObj 0 0 0 0) ;+
       count_to memory_count (fun i =>
         let+ t := load_memory p_end in put md_memories set_md_memories i t)
     else lret tt) ;+
    section_end p_end.

Definition load_global (p_end i : Z) : K unit :=
  CHECK_BUF p_end 2 ;+
  let+ type := read_uint8 p_end in
  let+ mutable := read_uint8 p_end in
  if 2 <=? mutable then fail "invalid mutability"
  else
    let+ init := load_init_expr p_end type in
    put md_globals set_md_globals i (mkGlobalObj type (negb (mutable =? 0)) init) ;+
    match init with
    | InitGlobal target_global_index =>
        let+ i := getm md_imports in
        if import_global_count i <=? target_global_index then fail "unknown global" else lret tt
    | _ => lret tt
    end.

Definition load_global_section (p_end : Z) : K unit :=
  let+ global_count := read_leb_uint32 p_end in
  (if negb (global_count =? 0) then
     new_array set_md_globals (sizeof WASMGlobal) global_count WASMGlobalT blank_global ;+
     count_to global_count (load_global p_end)
   else lret tt) ;+
  section_end p_end.

(** * Exports *)

(** [strlen(name) == str_len && memcmp(name, p, str_len) == 0]. *)
Definition same_name (str : list Z) (name : list Z) : bool :=
  (zlen (c_string name) =? zlen str) && bool_decide (take (length str) name = str).

Definition set_export (i : Z) (e : export_obj) : K unit :=
  put md_exports set_md_exports i e.

(** The number of functions, tables, memories and globals, and the message for an
    index that is not below it. *)
Definition exported (kind : Z) (m : module_obj) : option (Z * string) :=
  let i := md_imports m in
  if kind =? 0 then Some (uint32 (count (md_functions m) + import_function_count i), "unknown function"%string)
  else if kind =? 1 then Some (uint32 (count (md_tables m) + m_import_table_count i), "unknown table"%string)
  else if kind =? 2 then Some (uint32 (count (md_memories m) + m_import_memory_count i), "unknown memory"%string)
  else if kind =? 3 then Some (uint32 (count (md_globals m) + import_global_count i), "unknown global"%string)
  else None.

Definition load_export (p_end i : Z) : K unit :=
  let+ str_len := read_leb_uint32 p_end in
  CHECK_BUF p_end str_len ;+
  let+ str := bytes_here p_end str_len in
  let+ c := getm md_exports in
  if existsb (fun e => same_name str (e_name e)) (take (Z.to_nat i) (elems c))
  then fail "duplicate export name"
  else
    let+ name := const_str_list_insert str in
    skip str_len ;+
    CHECK_BUF p_end 1 ;+
    let+ kind := read_uint8 p_end in
    let+ index := read_leb_uint32 p_end in
    set_export i (mkExportObj name kind index) ;+
    let+ bound := getm (exported kind) in
    match bound with
    | Some (n, msg) => if n <=? index then fail msg else lret tt
    | None => fail "invalid export kind"
    end.

Definition load_export_section (p_end : Z) : K unit :=
  let+ export_count := read_leb_uint32 p_end in
  (if negb (export_count =? 0) then
     new_array set_md_exports (sizeof WASMExport) export_count WASMExportT blank_export ;+
     count_to export_count (load_export p_end)
   else lret tt) ;+
  section_end p_end.

(** * Segments *)

Definition check_table_index (table_index : Z) : K unit :=
  let+ i := getm md_imports in
  let+ n := getm (fun m => count (md_tables m)) in
  if negb (table_index =? 0) then fail "zero byte expected"
  else if uint32 (m_import_table_count i + n) <=? table_index
  then fail ("unknown table " +:+ pretty (int32 table_index))
  else lret tt.

Definition load_table_index (p_end : Z) : K Z :=
  let+ table_index := read_leb_uint32 p_end in
  check_table_index table_index ;+ lret table_index.

Definition set_segment (i : Z) (t : table_seg_obj) : K unit :=
  put md_table_segments set_md_table_segments i t.

Fixpoint load_func_indexes (p_end : Z) (n : nat) : K (list Z) :=
  match n with
  | O => lret []
  | S n =>
      let+ function_index := read_leb_uint32 p_end in
      check_function_index function_index ;+
      let+ l := load_func_indexes p_end n in
      lret (function_index :: l)
  end.

Definition load_func_index_vec (p_end i : Z) (t : table_seg_obj) : K unit :=
  let+ function_count := read_leb_uint32 p_end in
  let segment f := mkTableSegObj (table_index t) (ts_base_offset t) function_count f in
  if 0 <? 4 * function_count then
    let+ b := loader_malloc (4 * function_count) in
    set_segment i (segment (Some (b, replicate (Z.to_nat function_count) 0))) ;+
    alloc_info b uint32T function_count ;+
    let+ l := load_func_indexes p_end (Z.to_nat function_count) in
    set_segment i (segment (Some (b, l)))
  else set_segment i (segment None).

Definition load_table_segment (p_end i : Z) : K unit :=
  let+ p := getl l_p in
  if p_end <=? p then fail "invalid value type or invalid elements segment kind"
  else
    let+ table_index := load_table_index p_end in
    let+ base_offset := load_init_expr p_end VALUE_TYPE_I32 in
    load_func_index_vec p_end i (mkTableSegObj table_index base_offset 0 None).

Definition load_table_segment_section (p_end : Z) : K unit :=
  let+ table_segment_count := read_leb_uint32 p_end in
  (if negb (table_segment_count =? 0) then
     new_array set_md_table_segments (sizeof WASMTableSeg) table_segment_count WASMTableSegT blank_segment ;+
     count_to table_segment_count (load_table_segment p_end)
   else lret tt) ;+
  section_end p_end.

Definition set_data_segment (i : Z) (d : data_seg_obj) : K unit :=
  put md_data_segments set_md_data_segments i (Some d).

Definition load_data_segment (p_end i : Z) : K unit :=
  let+ mem_index := read_leb_uint32 p_end in
  let+ imported := getm (fun m => m_import_memory_count (md_imports m)) in
  let+ own := getm (fun m => count (md_memories m)) in
  if uint32 (imported + own) <=? mem_index then fail ("unknown memory " +:+ pretty (int32 mem_index))
  else
    let+ init_expr := load_init_expr p_end VALUE_TYPE_I32 in
    let+ data_seg_len := read_leb_uint32 p_end in
    let+ b := loader_malloc (sizeof WASMDataSeg) in
    alloc_info b WASMDataSegT 1 ;+
    let dataseg data block := mkDataSegObj mem_index init_expr data_seg_len data b block in
    set_data_segment i (dataseg NULL None) ;+
    CHECK_BUF p_end data_seg_len ;+
    let+ db := loader_malloc data_seg_len in
    alloc_info db uint8T data_seg_len ;+
    let+ data := copy_to db p_end data_seg_len in
    set_data_segment i (dataseg data (Some db)) ;+
    skip data_seg_len.

Definition load_data_segment_section (p_end : Z) : K unit :=
  let+ data_seg_count := read_leb_uint32 p_end in
  (if negb (data_seg_count =? 0) then
     new_array set_md_data_segments 8 data_seg_count WASMDataSegTT None ;+
     count_to data_seg_count (load_data_segment p_end)
   else lret tt) ;+
  section_end p_end.

(** * Custom sections *)

Definition load_user_section (p_end : Z) : K unit :=
  let+ p := getl l_p in
  if p_end <=? p then fail "unexpected end"
  else
    let+ name_len := read_leb_uint32 p_end in
    let+ p := getl l_p in
    if (name_len =? 0) || (p_end <? p + name_len) then fail "unexpected end"
    else
      let+ name := bytes_here p_end name_len in
      if negb (check_utf8_str name) then fail "invalid UTF-8 encoding" else lret tt.

End sections.
