(* ===== verification/LoadModule.v ===== *)
(** Loading a module (wasm_loader.c): cutting the binary into sections, loading
    them, what is resolved and checked after all sections, and unloading. *)
From stdpp Require Import base gmap list numbers strings.
From Stdlib Require Import Strings.Byte ZArith Lia.
From S2P Require Import Prelude CMemory WasmTypes PoolInfo Opcodes LoaderCtx Validate LoaderModule MemInit Sections.

Definition WASM_MAGIC_NUMBER : Z := 0x6d736100.
Definition WASM_CURRENT_VERSION : Z := 1.

Definition SECTION_TYPE_USER : Z := 0.
Definition SECTION_TYPE_TYPE : Z := 1.
Definition SECTION_TYPE_IMPORT : Z := 2.
Definition SECTION_TYPE_FUNC : Z := 3.
Definition SECTION_TYPE_TABLE : Z := 4.
Definition SECTION_TYPE_MEMORY : Z := 5.
Definition SECTION_TYPE_GLOBAL : Z := 6.
Definition SECTION_TYPE_EXPORT : Z := 7.
Definition SECTION_TYPE_START : Z := 8.
Definition SECTION_TYPE_ELEM : Z := 9.
Definition SECTION_TYPE_CODE : Z := 10.
Definition SECTION_TYPE_DATA : Z := 11.

Definition EXPORT_KIND_FUNC : Z := 0.
Definition EXPORT_KIND_GLOBAL : Z := 3.

(** [WASMSection] and its two blocks; the list of sections is a list. *)
Record section_obj := mkSection {
  section_type : Z;
  section_body : Z;
  section_body_size : Z;
  s_block : nat;
  s_body_block : nat
}.

Section load.
Context `{ScratchPool} (statics : memory_statics)
  (wasm_native_resolve_symbol : list Z → list Z → type_obj → native_symbol).

(** * After the sections: the stack and the heap of the module *)

Definition is_i32 (g : global_obj) : bool := g_type g =? VALUE_TYPE_I32.

(** The global an export names; for the export of an imported global that is the
    element at a wrapped index. *)
Definition exported_global (e : export_obj) : K global_obj :=
  let+ i := getm md_imports in
  let+ c := getm md_globals in
  elem c (uint32 (e_index e - import_global_count i)).

(** The index and the value of an immutable [i32.const]. *)
Definition aux_const (e : export_obj) (old : option (Z * Z)) : K (option (Z * Z)) :=
  let+ g := exported_global e in
  lret (match g_init g with
        | InitI32 v => if is_i32 g && negb (g_is_mutable g) then Some (e_index e, uint32 v) else old
        | _ => old
        end).

Fixpoint find_stack_top (globals : list global_obj) (global_index aux_heap_base : Z) : option (Z * Z) :=
  match globals with
  | [] => None
  | g :: globals =>
      match g_init g with
      | InitI32 v =>
          if g_is_mutable g && is_i32 g && (uint32 v <=? aux_heap_base) then Some (global_index, uint32 v)
          else find_stack_top globals (global_index + 1) aux_heap_base
      | _ => find_stack_top globals (global_index + 1) aux_heap_base
      end
  end.

(** The search through the exports; the result is [aux_heap_base], if the three
    globals are found. *)
Fixpoint resolve_aux (es : list export_obj) (data_end heap_base : option (Z * Z)) : K (option Z) :=
  match es with
  | [] => lret None
  | e :: es =>
      if negb (e_kind e =? EXPORT_KIND_GLOBAL) then resolve_aux es data_end heap_base
      else
        let+ found :=
          (if strcmp (e_name e) (chars "__heap_base") then
             let+ h := aux_const e heap_base in lret (data_end, h)
           else if strcmp (e_name e) (chars "__data_end") then
             let+ d := aux_const e None in
             lret (match d with Some (i, v) => Some (i, align_uint v 16) | None => data_end end, heap_base)
           else lret (data_end, heap_base)) in
        match found with
        | (Some (di, dv), Some (hi, hv)) =>
            if dv <=? hv then
              let+ gs := getm (fun m => elems (md_globals m)) in
              let+ ig := getm (fun m => import_global_count (md_imports m)) in
              let+ old := getm md_aux in
              match find_stack_top gs 0 hv with
              | Some (i, top) =>
                  modm (set_md_aux (mkAux di dv hi hv (uint32 (ig + i)) top
                                      (if dv <? top then top - dv else top))) ;+
                  lret (Some hv)
              | None =>
                  modm (set_md_aux (mkAux di dv hi hv (m_aux_stack_top_global_index old)
                                      (aux_stack_bottom old) (m_aux_stack_size old))) ;+
                  lret None
              end
            else resolve_aux es (found.1) (found.2)
        | (d, h) => resolve_aux es d h
        end
  end.

(** ** The allocator of the module *)

Definition has_type (t : func_type) (params results : list Z) : bool :=
  (param_count t =? zlen params) && (result_count t =? zlen results)
  && bool_decide (types t = params ++ results).

(** The type of an exported function that is not imported. *)
Definition exported_type (e : export_obj) : K func_type :=
  let+ i := getm md_imports in
  let+ c := getm md_functions in
  let+ f := elem c (e_index e - import_function_count i) in
  let+ f := some f in
  lret (ty (fn_type f)).

Definition own_function (e : export_obj) : K bool :=
  let+ i := getm md_imports in lret (import_function_count i <=? e_index e).

Definition set_runtime (f : runtime_funcs → runtime_funcs) : K unit :=
  modm (fun m => set_md_runtime (f (md_runtime m)) m).
Definition set_malloc (i : Z) : K unit :=
  set_runtime (fun r => mkRuntime i (free_function r) (retain_function r)).
Definition set_free (i : Z) : K unit :=
  set_runtime (fun r => mkRuntime (malloc_function r) i (retain_function r)).
Definition set_retain (i : Z) : K unit :=
  set_runtime (fun r => mkRuntime (malloc_function r) (free_function r) i).

(** The inner search; the result is whether the function is found. *)
Fixpoint find_retain (es : list export_obj) : K bool :=
  match es with
  | [] => lret false
  | e :: es =>
      let+ own := own_function e in
      if (e_kind e =? EXPORT_KIND_FUNC)
         && (strcmp (e_name e) (chars "__retain") || strcmp (e_name e) (chars "__pin")) && own
      then
        let+ t := exported_type e in
        if has_type t [VALUE_TYPE_I32] [VALUE_TYPE_I32]
        then set_retain (e_index e) ;+ lret true
        else find_retain es
      else find_retain es
  end.

Definition is_free_name (name : list Z) : bool :=
  strcmp name (chars "free") || strcmp name (chars "__release") || strcmp name (chars "__unpin").

Definition resolve_runtime_export (es : list export_obj) (e : export_obj) : K unit :=
  if negb (e_kind e =? EXPORT_KIND_FUNC) then lret tt
  else
    let+ own := own_function e in
    if strcmp (e_name e) (chars "malloc") && own then
      let+ t := exported_type e in
      if has_type t [VALUE_TYPE_I32] [VALUE_TYPE_I32] then set_malloc (e_index e) else lret tt
    else if strcmp (e_name e) (chars "__new") && own then
      let+ t := exported_type e in
      if has_type t [VALUE_TYPE_I32; VALUE_TYPE_I32] [VALUE_TYPE_I32] then
        set_malloc (e_index e) ;+
        let+ found := find_retain es in
        if found : bool then lret tt else set_malloc UINT32_MAX
      else lret tt
    else if is_free_name (e_name e) && own then
      let+ t := exported_type e in
      if has_type t [VALUE_TYPE_I32] [] then set_free (e_index e) else lret tt
    else lret tt.

(** * After the sections: the functions *)

(** What the check of a body reads of the module. *)
Definition import_type (i : import_obj) : option func_type :=
  match i_u i with ImportFunction t _ => Some (ty t) | _ => None end.
Definition import_global (i : import_obj) : option (Z * bool) :=
  match i_u i with ImportGlobal t mutable _ => Some (t, mutable) | _ => None end.
Definition global_type (g : global_obj) : Z * bool := (g_type g, g_is_mutable g).

Definition info_of (m : module_obj) : option module_info :=
  let i := md_imports m in
  match mapM (option_map (fun t => ty t.2)) (elems (md_types m)),
        mapM import_type (imports_from (import_functions_at i) (import_function_count i) i),
        mapM (option_map (fun f => ty (fn_type f))) (elems (md_functions m)),
        mapM import_global (imports_from (import_globals_at i) (import_global_count i) i) with
  | Some types, Some import_functions, Some functions, Some import_globals =>
      Some (mkModule types import_functions functions (m_import_table_count i) (count (md_tables m))
              (m_import_memory_count i) (count (md_memories m)) import_globals
              (map global_type (elems (md_globals m)))
              (m_aux_stack_size (md_aux m)) (m_aux_stack_top_global_index (md_aux m)))
  | _, _, _, _ => None
  end.

Definition func_info_of (f : function_obj) : func_info :=
  mkFunc (ty (fn_type f)) (fn_local_types f) (fn_local_offsets f) (fn_code f) (fn_code_size f).

Definition with_verdict (v : verdict) (f : function_obj) : function_obj :=
  mkFunctionObj (fn_type f) (local_count f) (fn_local_types f) (param_cell_num f) (ret_cell_num f)
    (local_cell_num f) (fn_local_offsets f) v (fn_code_size f) (fn_code f) (fn_block f)
    (fn_offsets_block f) (fn_code_block f).

(** The flag [possible_memory_grow] is that of the module. *)
Definition verdict_before (m : module_obj) (f : function_obj) : verdict :=
  let v := fn_verdict f in
  mkVerdict (has_op_func_call v) (has_op_memory_grow v) (md_possible_memory_grow m)
    (max_stack_cells v) (max_block_num v).

(** [wasm_loader_prepare_bytecode] on the function and the module. *)
Definition run_check (info : module_info) (f : function_obj) : M loading bool := fun s =>
  match wasm_loader_prepare_bytecode info (func_info_of f)
          (set_l_verdict (verdict_before (md s) f) (ld s)) with
  | Ok b l => Ok b (mkLoading l (md s))
  | Exited n => Exited n
  | Stuck => Stuck
  end.

Definition prepare_function (i : Z) : K unit :=
  let+ c := getm md_functions in
  let+ f := elem c i in
  let+ f := some f in
  let+ info := getm info_of in
  let+ info := some info in
  mbind (run_check info f) (fun b =>
    let+ v := getl l_verdict in
    set_function i (with_verdict v f) ;+
    modm (set_md_possible_memory_grow (possible_memory_grow v)) ;+
    if b : bool then lret tt else mret None).

(** * After the sections: the memory *)

(** A memory that cannot grow is one page of all its bytes, and no more than the
    module needs. *)
Definition shrink (aux_heap_base : option Z) (m : memory_obj) : memory_obj :=
  match aux_heap_base with
  | Some v =>
      let shrunk_memory_size := align_uint v 8 in
      if shrunk_memory_size <=? num_bytes_per_page m * init_page_count m
      then mkMemoryObj (m_flags m) shrunk_memory_size 1 (max_page_count m) else m
  | None => m
  end.

Definition one_page (m : memory_obj) : memory_obj :=
  mkMemoryObj (m_flags m) (uint32 (num_bytes_per_page m * init_page_count m)) 1 1.

Definition reset_memories (aux_heap_base : option Z) : K unit :=
  let+ i := getm md_imports in
  (if negb (m_import_memory_count i =? 0) then
     let+ at_ := some (import_memories_at i) in
     let+ import := elem (md_import_array i) at_ in
     match i_u import with
     | ImportMemory m =>
         set_import (Some at_) (mkImportObj (i_kind import) (i_module_name import) (i_field_name import)
                                  (ImportMemory (one_page (shrink aux_heap_base m))))
     | _ => mstuck
     end
   else lret tt) ;+
  let+ c := getm md_memories in
  if negb (count c =? 0) then
    let+ m := elem c 0 in
    put md_memories set_md_memories 0 (one_page (shrink aux_heap_base m))
  else lret tt.

(** * The sections of a module *)

Definition section_range (s : section_obj) : Z * Z := (section_body s, section_body s + section_body_size s).

(** The last section of a type. *)
Fixpoint find_section (type : Z) (l : list section_obj) (found : option (Z * Z)) : option (Z * Z) :=
  match l with
  | [] => found
  | s :: l => find_section type l (if section_type s =? type then Some (section_range s) else found)
  end.

Definition load_section (all : list section_obj) (s : section_obj) : K unit :=
  let p_end := section_body s + section_body_size s in
  set_p (section_body s) ;+
  let t := section_type s in
  if t =? SECTION_TYPE_USER then load_user_section p_end
  else if t =? SECTION_TYPE_TYPE then load_type_section p_end
  else if t =? SECTION_TYPE_IMPORT then load_import_section statics wasm_native_resolve_symbol p_end
  else if t =? SECTION_TYPE_FUNC then load_function_section p_end (find_section SECTION_TYPE_CODE all None)
  else if t =? SECTION_TYPE_TABLE then load_table_section p_end
  else if t =? SECTION_TYPE_MEMORY then load_memory_section statics p_end
  else if t =? SECTION_TYPE_GLOBAL then load_global_section p_end
  else if t =? SECTION_TYPE_EXPORT then load_export_section p_end
  else if t =? SECTION_TYPE_START then load_start_section p_end
  else if t =? SECTION_TYPE_ELEM then load_table_segment_section p_end
  else if t =? SECTION_TYPE_CODE then load_code_section p_end (find_section SECTION_TYPE_FUNC all None)
  else if t =? SECTION_TYPE_DATA then load_data_segment_section p_end
  else fail "invalid section id".

Definition no_runtime : runtime_funcs := mkRuntime UINT32_MAX UINT32_MAX UINT32_MAX.

Definition resolve : K (option Z) :=
  let+ old := getm md_aux in
  modm (set_md_aux (mkAux UINT32_MAX (aux_data_end old) UINT32_MAX (aux_heap_base old) UINT32_MAX
                      (aux_stack_bottom old) (m_aux_stack_size old))) ;+
  let+ es := getm (fun m => elems (md_exports m)) in
  let+ aux_heap_base := resolve_aux es None None in
  modm (set_md_runtime no_runtime) ;+
  lfor es (resolve_runtime_export es) ;+
  lret aux_heap_base.

Definition load_from_sections (sections : list section_obj) : K unit :=
  lfor sections (load_section sections) ;+
  let+ aux_heap_base := resolve in
  let+ c := getm md_functions in
  count_to (count c) prepare_function ;+
  let+ grow := getm md_possible_memory_grow in
  if grow : bool then lret tt else reset_memories aux_heap_base.

(** * The binary *)

Definition section_ids : list Z :=
  [SECTION_TYPE_USER; SECTION_TYPE_TYPE; SECTION_TYPE_IMPORT; SECTION_TYPE_FUNC; SECTION_TYPE_TABLE;
   SECTION_TYPE_MEMORY; SECTION_TYPE_GLOBAL; SECTION_TYPE_EXPORT; SECTION_TYPE_START; SECTION_TYPE_ELEM;
   SECTION_TYPE_CODE; SECTION_TYPE_DATA].

Fixpoint section_index_from (section_type : Z) (ids : list Z) (i : Z) : Z :=
  match ids with
  | [] => 255
  | id :: ids => if section_type =? id then i else section_index_from section_type ids (i + 1)
  end.
Definition get_section_index (section_type : Z) : Z := section_index_from section_type section_ids 0.

(** One section; the result is with the last index of a section that is not custom,
    255 before the first. *)
Definition create_section (p_end last_section_index : Z) : K (section_obj * Z) :=
  CHECK_BUF p_end 1 ;+
  let+ section_type := read_uint8 p_end in
  let section_index := get_section_index section_type in
  if section_index =? 255 then fail "invalid section id"
  else if negb (section_type =? SECTION_TYPE_USER) && negb (last_section_index =? 255)
          && (section_index <=? last_section_index)
  then fail "junk after last section"
  else
    CHECK_BUF1 p_end 1 ;+
    let+ section_size := read_leb_uint32 p_end in
    CHECK_BUF1 p_end section_size ;+
    let+ b := loader_malloc (sizeof WASMSection) in
    alloc_info b WASMSectionT 1 ;+
    let+ bb := loader_malloc section_size in
    alloc_info bb uint8T section_size ;+
    let+ body := copy_to bb p_end section_size in
    skip section_size ;+
    lret (mkSection section_type body section_size b bb,
          if section_type =? SECTION_TYPE_USER then last_section_index else section_index).

(** [while (p < p_end)]: a section has at least two bytes.  The list is there after
    a failure too. *)
Fixpoint create_sections (fuel : nat) (p_end last_section_index : Z) (acc : list section_obj) :
    M loading (bool * list section_obj) :=
  match fuel with
  | O => mstuck
  | S fuel =>
      let* p := gets (fun s => l_p (ld s)) in
      if p <? p_end then
        let* o := create_section p_end last_section_index in
        match o with
        | Some (s, last) => create_sections fuel p_end last (acc ++ [s])
        | None => mret (false, acc)
        end
      else mret (true, acc)
  end.

Definition destroy_sections (l : list section_obj) : K unit :=
  lfor l (fun s => wasm_runtime_free (s_block s)).

(** x86-64 is little-endian: no [exchange32]. *)
Definition read_uint32 : K Z :=
  let+ p := getl l_p in
  let+ m := getl l_mem in
  skip 4 ;+ lret (load_Z m p 4).

Definition load (buf size : Z) : K unit :=
  let p_end := buf + size in
  set_p buf ;+
  CHECK_BUF1 p_end 4 ;+
  let+ magic_number := read_uint32 in
  if negb (magic_number =? WASM_MAGIC_NUMBER) then fail "magic header not detected"
  else
    CHECK_BUF1 p_end 4 ;+
    let+ version := read_uint32 in
    if negb (version =? WASM_CURRENT_VERSION) then fail "unknown binary version"
    else
      let* r := create_sections (S (Z.to_nat size)) p_end 255 [] in
      let* o := (if r.1 : bool then load_from_sections r.2 else mret None) in
      destroy_sections r.2 ;+ mret o.

Definition create_module : L module_obj :=
  let+ b := LoaderCtx.loader_malloc (sizeof WASMModule) in
  LoaderCtx.alloc_info b WASMModuleT 1 ;+
  lret (blank_module b).

(** * Unloading *)

Definition free_opt (b : option nat) : L unit :=
  match b with Some b => LoaderCtx.wasm_runtime_free b | None => lret tt end.

(** An array and, before it, the blocks of its elements. *)
Definition free_array {A} (c : counted A) (blocks : A → L unit) : L unit :=
  match array c with
  | Some (b, l) => lfor l blocks ;+ LoaderCtx.wasm_runtime_free b
  | None => lret tt
  end.
Definition keep {A} (a : A) : L unit := lret tt.

Definition wasm_loader_unload (m : module_obj) : L unit :=
  free_array (md_types m) (fun t => free_opt (option_map fst t)) ;+
  free_array (md_import_array (md_imports m)) keep ;+
  free_array (md_functions m) (fun f =>
    match f with
    | Some f => free_opt (fn_offsets_block f) ;+ LoaderCtx.wasm_runtime_free (fn_block f)
    | None => lret tt
    end) ;+
  free_array (md_tables m) keep ;+
  free_array (md_memories m) keep ;+
  free_array (md_globals m) keep ;+
  free_array (md_exports m) keep ;+
  free_array (md_table_segments m) (fun t => free_opt (option_map fst (func_indexes t))) ;+
  free_array (md_data_segments m) (fun d => free_opt (option_map ds_block d)) ;+
  lfor (md_strings m) (fun node => LoaderCtx.wasm_runtime_free node.1) ;+
  LoaderCtx.wasm_runtime_free (md_block m).

(** [None] is a null pointer. *)
Definition loaded_or_not (c : K unit) (m : module_obj) : L module_obj := fun l =>
  match c (mkLoading l m) with
  | Ok (Some _) s => Ok (Some (md s)) (ld s)
  | Ok None s => mbind (wasm_loader_unload (md s)) (fun _ => mret None) (ld s)
  | Exited n => Exited n
  | Stuck => Stuck
  end.

Definition wasm_loader_load (buf size : Z) : L module_obj :=
  let+ m := create_module in loaded_or_not (load buf size) m.

Definition wasm_loader_load_from_sections (section_list : list section_obj) : L module_obj :=
  let+ m := create_module in loaded_or_not (load_from_sections section_list) m.

End load.
