(* ===== verification/LoadInv.v ===== *)
(** The invariant of loading: the heap the loader works in, what of it belongs to
    the module, and how far a step may change it; and the rules for the routines
    that every section uses. *)
From stdpp Require Import base gmap list numbers strings.
From Stdlib Require Import Strings.Byte ZArith Lia.
From S2P Require Import Prelude CMemory WasmTypes Opcodes Leb FindBlock LoaderCtx Validate Typing Wp.
From S2P Require Import LoaderInv LoaderOps LoaderStep LoaderModule Sections.

(** * The heap *)

(** A live block and where it is. *)
Definition block_at (h : scratch) (b : nat) (r : region) : Prop :=
  is_Some (live h !! b) ∧ extents h !! b = Some r.

(** A heap that grants a request outside the live blocks only. *)
Class PlacedPool `{BoundedPool} : Prop :=
  grants_placed h n a : grants h n = Some a → 0 <= n →
    0 < a ∧ ∀ b r, block_at h b r → disjoint_region (a, n) r.

Record heap_ok (h : scratch) : Prop := {
  ho_fresh b : is_Some (live h !! b) → (b < next_block h)%nat ∧ ∃ r, extents h !! b = Some r;
  ho_disjoint b b' r r' : b ≠ b' → block_at h b r → block_at h b' r' → disjoint_region r r';
  ho_size b r : block_at h b r → 0 < r.1 ∧ 0 <= r.2
}.

(** What a step leaves: the live blocks, where they are and what is in them. *)
Record kept_heap (h : scratch) (m : mem) (h' : scratch) (m' : mem) : Prop := {
  kh_live b : is_Some (live h !! b) → live h' !! b = live h !! b;
  kh_extent b : is_Some (live h !! b) → extents h' !! b = extents h !! b;
  kh_mem b r : block_at h b r → ∀ x, in_region x r → m' !!! x = m !!! x
}.

Definition heap_of (s : loading) : scratch := l_heap (ld s).
Definition mem_of (s : loading) : mem := l_mem (ld s).
Definition pos (s : loading) : Z := l_p (ld s).

Definition grows (s s' : loading) : Prop := kept_heap (heap_of s) (mem_of s) (heap_of s') (mem_of s').

Lemma disjoint_sym r r' : disjoint_region r r' → disjoint_region r' r.
Proof. unfold disjoint_region. tauto. Qed.

Lemma block_kept s s' b r : grows s s' → block_at (heap_of s) b r → block_at (heap_of s') b r.
Proof.
  intros [H1 H2 _] [Hl He]. split; [by rewrite H1|]. by rewrite H2.
Qed.

Lemma grows_refl s : grows s s.
Proof. by constructor. Qed.

Lemma grows_trans s1 s2 s3 : grows s1 s2 → grows s2 s3 → grows s1 s3.
Proof.
  intros G1 G2. constructor.
  - intros b Hb. rewrite (kh_live _ _ _ _ G2), (kh_live _ _ _ _ G1); [done..|].
    by rewrite (kh_live _ _ _ _ G1).
  - intros b Hb. rewrite (kh_extent _ _ _ _ G2), (kh_extent _ _ _ _ G1); [done..|].
    by rewrite (kh_live _ _ _ _ G1).
  - intros b r Hb x Hx. rewrite (kh_mem _ _ _ _ G2 b r), (kh_mem _ _ _ _ G1 b r); [done..| |done].
    by eapply block_kept.
Qed.

(** * The blocks of a module *)

Definition array_blocks {A} (f : A → list nat) (c : counted A) : list nat :=
  match array c with Some (b, l) => b :: flat_map f l | None => [] end.

Definition opt_block (b : option nat) : list nat := match b with Some b => [b] | None => [] end.
Definition type_blocks (t : option (nat * type_obj)) : list nat := opt_block (option_map fst t).
Definition function_blocks (f : option function_obj) : list nat :=
  match f with Some f => fn_block f :: opt_block (fn_offsets_block f) | None => [] end.
Definition segment_blocks (t : table_seg_obj) : list nat := opt_block (option_map fst (func_indexes t)).
Definition data_blocks (d : option data_seg_obj) : list nat := opt_block (option_map ds_block d).
Definition no_blocks {A} (a : A) : list nat := [].

(** The blocks [wasm_loader_unload] frees. *)
Definition blocks_of (m : module_obj) : list nat :=
  array_blocks type_blocks (md_types m)
  ++ array_blocks no_blocks (get_import_array m)
  ++ array_blocks function_blocks (md_functions m)
  ++ array_blocks no_blocks (md_tables m)
  ++ array_blocks no_blocks (md_memories m)
  ++ array_blocks no_blocks (md_globals m)
  ++ array_blocks no_blocks (md_exports m)
  ++ array_blocks segment_blocks (md_table_segments m)
  ++ array_blocks data_blocks (md_data_segments m)
  ++ map fst (md_strings m)
  ++ [md_block m].

(** An array of the module. *)
Class Field {A} (get : module_obj → counted A) (set : counted A → module_obj → module_obj)
    (bl : A → list nat) : Prop := {
  field_get c m : get (set c m) = c;
  field_set c c' m : set c (set c' m) = set c m;
  field_id m : set (get m) m = m;
  field_strings c m : md_strings (set c m) = md_strings m;
  field_block c m : md_block (set c m) = md_block m;
  field_blocks m b : b ∈ blocks_of m ↔ b ∈ array_blocks bl (get m) ∨ b ∈ blocks_of (set no_elems m)
}.

Lemma blocks_set {A} (get : module_obj → counted A) set bl `{!Field get set bl} c m b :
  b ∈ blocks_of (set c m) ↔ b ∈ array_blocks bl c ∨ b ∈ blocks_of (set no_elems m).
Proof. by rewrite field_blocks, field_get, field_set. Qed.

Ltac field := constructor; try (intros; reflexivity); [by intros []|];
  intros m b; unfold blocks_of; rewrite ?elem_of_app; cbn; rewrite ?elem_of_nil; intuition idtac.

#[export] Instance types_field : Field md_types set_md_types type_blocks.
Proof. field. Qed.
#[export] Instance imports_field : Field get_import_array set_import_array no_blocks.
Proof.
  constructor; try (intros; reflexivity); [by intros [? ? [] ? ? ? ? ? ? ? ? ? ? ? ? ?]|].
  intros m b; unfold blocks_of; rewrite ?elem_of_app; cbn; rewrite ?elem_of_nil; intuition idtac.
Qed.
#[export] Instance functions_field : Field md_functions set_md_functions function_blocks.
Proof. field. Qed.
#[export] Instance tables_field : Field md_tables set_md_tables no_blocks.
Proof. field. Qed.
#[export] Instance memories_field : Field md_memories set_md_memories no_blocks.
Proof. field. Qed.
#[export] Instance globals_field : Field md_globals set_md_globals no_blocks.
Proof. field. Qed.
#[export] Instance exports_field : Field md_exports set_md_exports no_blocks.
Proof. field. Qed.
#[export] Instance segments_field : Field md_table_segments set_md_table_segments segment_blocks.
Proof. field. Qed.
#[export] Instance data_field : Field md_data_segments set_md_data_segments data_blocks.
Proof. field. Qed.

Lemma blocks_strings x m b :
  b ∈ blocks_of (set_md_strings x m) ↔ b ∈ map fst x ∨ b ∈ blocks_of (set_md_strings [] m).
Proof. unfold blocks_of; rewrite ?elem_of_app; cbn; rewrite ?elem_of_nil; intuition idtac. Qed.

Lemma blocks_more_strings node m b :
  b ∈ blocks_of m → b ∈ blocks_of (set_md_strings (node :: md_strings m) m).
Proof.
  intros Hb. assert (m = set_md_strings (md_strings m) m) as E by (by destruct m). rewrite E in Hb.
  apply blocks_strings in Hb as [Hb|Hb]; apply blocks_strings; [left; by right|by right].
Qed.

(** * The invariant *)

(** What was there: the live blocks, the block of the module and the blocks the
    loader keeps for itself. *)
Record before := mkBefore {
  was_live : gmap nat (option (Data_Type * Z)); module_block : nat; kept_blocks : list nat
}.

(** The live blocks are those there were, those in hand, [hand], and those the
    table records: the blocks of the module and copies of bytes. *)
Record load_ok (old : before) (hand : list nat) (h : scratch) (m : module_obj) :
    Prop := {
  lo_heap : heap_ok h;
  lo_old b : is_Some (was_live old !! b) → live h !! b = was_live old !! b;
  lo_new b i : live h !! b = Some i →
    is_Some (was_live old !! b) ∨ b ∈ hand ++ kept_blocks old ∨ ∃ t n, i = Some (t, n) ∧ (t = uint8T ∨ b ∈ blocks_of m);
  lo_strings : Forall (fun node => check_utf8_str node.2 = true) (md_strings m);
  lo_block : md_block m = module_block old;
  lo_mine b : b ∈ blocks_of m ∨ b ∈ hand ++ kept_blocks old → ¬ is_Some (was_live old !! b)
}.

Definition ok old hand (s : loading) : Prop := load_ok old hand (heap_of s) (md s).

Definition goto (p : Z) (s : loading) : loading := mkLoading (set_l_p p (ld s)) (md s).
Definition err (msg : string) (s : loading) : loading := mkLoading (failed_with msg (ld s)) (md s).
Definition with_md (f : module_obj → module_obj) (s : loading) : loading := mkLoading (ld s) (f (md s)).

(** A step that leaves heap and memory alone. *)
Lemma ok_module old hand s f :
  ok old hand s → (∀ b, b ∈ blocks_of (md s) → b ∈ blocks_of (f (md s))) →
  (∀ b, b ∈ blocks_of (f (md s)) → b ∈ blocks_of (md s) ∨ b ∈ hand) →
  md_strings (f (md s)) = md_strings (md s) ∧ md_block (f (md s)) = md_block (md s) → ok old hand (with_md f s).
Proof.
  intros [H1 H2 H3 H4 H5 H6] Hb Hb' [Hs Hm]. constructor; [done|done| |by cbn; rewrite Hs|by cbn; rewrite Hm|].
  - intros b i Hl. destruct (H3 b i Hl) as [?|[?|(t&n&->&[?|?])]]; eauto 8.
  - intros b [[Hx|Hx]%Hb'|Hx]; apply H6; [by left|right; apply elem_of_app; by left|by right].
Qed.

Lemma ok_hand old hand hand' s : ok old hand s → (∀ b, b ∈ hand ↔ b ∈ hand') → ok old hand' s.
Proof.
  intros [H1 H2 H3 H4 H5 H6] Hh. constructor; [done|done| |done|done|].
  - intros b i Hl. destruct (H3 b i Hl) as [?|[?|?]]; [by left| |by right; right].
    right. left. rewrite elem_of_app in *. by rewrite <- Hh.
  - intros b Hb. apply H6. rewrite elem_of_app in *. by rewrite Hh.
Qed.

(** * Rules *)

Lemma wp_lift {A} (c : L A) (Q : A → loading → Prop) F s :
  wp c (fun a l => Q a (mkLoading l (md s))) (fun l => F (mkLoading l (md s))) (ld s) →
  wp (lift c) Q F s.
Proof. unfold wp, lift. by destruct (c (ld s)) as [[a|] l| |]. Qed.

Lemma wp_getm {A} (f : module_obj → A) (Q : A → loading → Prop) F s : Q (f (md s)) s → wp (getm f) Q F s.
Proof. done. Qed.

Lemma wp_getl {A} (f : loader → A) (Q : A → loading → Prop) F s : Q (f (ld s)) s → wp (getl f) Q F s.
Proof. by destruct s. Qed.

Lemma wp_modm f (Q : unit → loading → Prop) F s : Q tt (with_md f s) → wp (modm f) Q F s.
Proof. done. Qed.

Lemma wp_kfail {A} msg (Q : A → loading → Prop) (F : loading → Prop) s : F (err msg s) → wp (fail msg) Q F s.
Proof. done. Qed.

Lemma wp_some {A} (o : option A) a (Q : A → loading → Prop) F s : o = Some a → Q a s → wp (some o) Q F s.
Proof. by intros ->. Qed.

Lemma wp_elem {A} (c : counted A) i a (Q : A → loading → Prop) F s :
  index (elems c) i = Some a → Q a s → wp (elem c i) Q F s.
Proof. apply wp_some. Qed.

Lemma wp_set_p p (Q : unit → loading → Prop) F s : Q tt (goto p s) → wp (set_p p) Q F s.
Proof. done. Qed.

Lemma wp_skip n (Q : unit → loading → Prop) F s : Q tt (goto (pos s + n) s) → wp (LoaderModule.skip n) Q F s.
Proof. done. Qed.

Lemma wp_CHECK_BUF e n (Q : unit → loading → Prop) (F : loading → Prop) s :
  (pos s + n <= e → Q tt s) → (∀ msg, F (err msg s)) → wp (LoaderModule.CHECK_BUF e n) Q F s.
Proof.
  intros HQ HF. apply wp_bind, wp_getl. unfold check_buf. fold (pos s).
  destruct (Z.ltb_spec e (pos s + n)); [by apply wp_kfail|by apply wp_ret, HQ].
Qed.

Lemma wp_CHECK_BUF1 e n (Q : unit → loading → Prop) (F : loading → Prop) s :
  (pos s + n <= e → Q tt s) → (∀ msg, F (err msg s)) → wp (CHECK_BUF1 e n) Q F s.
Proof.
  intros HQ HF. apply wp_bind, wp_getl. unfold check_buf. fold (pos s).
  destruct (Z.ltb_spec e (pos s + n)); [by apply wp_kfail|by apply wp_ret, HQ].
Qed.

Lemma wp_read_byte e (Q : Z → loading → Prop) F s :
  pos s < e → Q (load_Z (mem_of s) (pos s) 1) (goto (pos s + 1) s) → wp (LoaderModule.read_uint8 e) Q F s.
Proof.
  intros Hp HQ. apply wp_bind, wp_getl. fold (pos s). by rewrite (proj2 (Z.ltb_lt _ _)).
Qed.

Lemma wp_read_leb_to e maxbits sign (Q : Z → loader → Prop) (F : loader → Prop) l :
  (∀ v q, loader_read_leb (l_mem l) (l_p l) e maxbits sign = Some (v, q) → Q v (set_l_p q l)) →
  (∀ msg, F (failed_with msg l)) → wp (read_leb_to e maxbits sign) Q F l.
Proof.
  intros HQ HF. do 2 (apply wp_bind, wp_get). cbv beta.
  destruct (loader_read_leb _ _ _ _ _) as [[v q]|]; [|by apply wp_fail].
  apply wp_bind, wp_mod, wp_ret. by apply HQ.
Qed.

Lemma wp_section_leb e (Q : Z → loading → Prop) (F : loading → Prop) s :
  (∀ v q, loader_leb_uint32 (mem_of s) (pos s) e = Some (v, q) → 0 <= v < 2 ^ 32 → pos s < q <= e →
     Q v (goto q s)) →
  (∀ msg, F (err msg s)) → wp (LoaderModule.read_leb_uint32 e) Q F s.
Proof.
  intros HQ HF. apply wp_lift, wp_bind, wp_read_leb_to; [|exact HF].
  intros v q E. apply wp_ret.
  assert (loader_leb_uint32 (mem_of s) (pos s) e = Some (uint32 v, q)) as E'
    by (unfold loader_leb_uint32, mem_of, pos; by rewrite E).
  destruct (loader_leb_uint32_span _ _ _ _ _ E'). by apply HQ.
Qed.

Lemma wp_read_leb_int32 e (Q : Z → loading → Prop) (F : loading → Prop) s :
  (∀ v q, pos s < q <= e → Q v (goto q s)) → (∀ msg, F (err msg s)) →
  wp (LoaderModule.read_leb_int32 e) Q F s.
Proof.
  intros HQ HF. apply wp_lift, wp_bind, wp_read_leb_to; [|exact HF].
  intros v q E. apply wp_ret, HQ. by eapply loader_read_leb_span.
Qed.

Lemma wp_read_leb_int64 e (Q : Z → loading → Prop) (F : loading → Prop) s :
  (∀ v q, pos s < q <= e → Q v (goto q s)) → (∀ msg, F (err msg s)) →
  wp (LoaderModule.read_leb_int64 e) Q F s.
Proof.
  intros HQ HF. apply wp_lift, wp_bind, wp_read_leb_to; [|exact HF].
  intros v q E. apply wp_ret, HQ. by eapply loader_read_leb_span.
Qed.

Lemma wp_bytes_here e n (Q : list Z → loading → Prop) F s :
  pos s + n <= e → Q (bytes (mem_of s) (pos s) n) s → wp (bytes_here e n) Q F s.
Proof.
  intros Hn HQ. do 2 apply wp_bind, wp_getl. fold (pos s) (mem_of s). by rewrite (proj2 (Z.leb_le _ _)).
Qed.

(** The other cursor: [c] runs at [q]. *)
Lemma wp_at_cursor {A} q (c : K A) (Q : A * Z → loading → Prop) F s :
  wp c (fun a s' => Q (a, pos s') (goto (pos s) s')) F (goto q s) → wp (at_cursor q c) Q F s.
Proof.
  intros H. apply wp_bind, wp_getl, wp_bind, wp_set_p, wp_bind. eapply wp_mono; [exact H| |done].
  intros a s' HQ. apply wp_bind, wp_getl, wp_bind, wp_set_p, wp_ret. exact HQ.
Qed.

(** ** Loops *)

Lemma wp_kfor n : ∀ i body (I : Z → loading → Prop) F s,
  I i s → (∀ j s, i <= j < i + Z.of_nat n → I j s → wp (body j) (fun _ => I (j + 1)) F s) →
  wp (kfor n i body) (fun _ => I (i + Z.of_nat n)) F s.
Proof.
  induction n as [|n IH]; intros i body I F s Hi Hb; cbn [kfor].
  - apply wp_ret. by rewrite Z.add_0_r.
  - apply wp_bind. eapply wp_mono; [apply Hb; [lia|done]| |done].
    intros [] s' Hi'. cbv beta in Hi' |- *. replace (i + Z.of_nat (S n)) with (i + 1 + Z.of_nat n) by lia.
    apply IH; [done|]. intros j s1 Hj. apply Hb. lia.
Qed.

Lemma wp_count_to n body (I : Z → loading → Prop) F s (Q : unit → loading → Prop) :
  0 <= n → I 0 s → (∀ j s, 0 <= j < n → I j s → wp (body j) (fun _ => I (j + 1)) F s) →
  (∀ s', I n s' → Q tt s') → wp (count_to n body) Q F s.
Proof.
  intros Hn Hi Hb HQ. eapply wp_mono; [apply (wp_kfor _ 0 body I F); [done|]| |done].
  - intros j s' Hj. apply Hb. lia.
  - intros [] s'. replace (0 + Z.of_nat (Z.to_nat n)) with n by lia. apply HQ.
Qed.

(** ** The heap *)

Section heap.
Context `{PlacedPool} (old : before).

Lemma heap_malloc h n a : heap_ok h → 0 <= n → grants h n = Some a →
  heap_ok (mkScratch (S (next_block h)) (<[next_block h := None]> (live h)) (<[next_block h := (a, n)]> (extents h))).
Proof.
  intros [W1 W2 W3] Hn Hg. destruct (grants_placed h n a Hg Hn) as [Ha Hd].
  assert (live h !! next_block h = None) as Hf.
  { apply eq_None_not_Some. intros [? _]%W1. lia. }
  assert (∀ b r, block_at (mkScratch (S (next_block h)) (<[next_block h := None]> (live h))
    (<[next_block h := (a, n)]> (extents h))) b r → b = next_block h ∧ r = (a, n) ∨ b ≠ next_block h ∧ block_at h b r) as Hb.
  { intros b r [Hl He]. cbn [live extents] in Hl, He. destruct (decide (b = next_block h)) as [->|Hbn].
    - rewrite lookup_insert_eq in He. injection He as <-. by left.
    - rewrite lookup_insert_ne in Hl by done. rewrite lookup_insert_ne in He by done. right. by split. }
  constructor; cbn [next_block live extents].
  - intros b Hl. destruct (decide (b = next_block h)) as [->|Hbn].
    + split; [lia|]. exists (a, n). by rewrite lookup_insert_eq.
    + rewrite lookup_insert_ne in Hl by done. rewrite lookup_insert_ne by done. destruct (W1 b Hl). split; [lia|done].
  - intros b b' r r' Hne [[-> ->]|[_ Hr]]%Hb [[-> ->]|[_ Hr']]%Hb; [done|by eapply Hd| |by eapply W2].
    by eapply disjoint_sym, Hd.
  - intros b r [[_ ->]|[_ Hr]]%Hb; [done|by eapply W3].
Qed.

Lemma heap_bump h : heap_ok h → heap_ok (mkScratch (S (next_block h)) (live h) (extents h)).
Proof.
  intros [W1 W2 W3]. constructor; [|exact W2|exact W3]. intros b Hb. destruct (W1 b Hb). split; [cbn; lia|done].
Qed.

(** A block in hand. *)
Record fresh_block (s : loading) (n : Z) (b : nat) (a : Z) (s' : loading) : Prop := {
  fb_new : live (heap_of s) !! b = None;
  fb_here : live (heap_of s') !! b = Some None;
  fb_extent : extents (heap_of s') !! b = Some (a, n);
  fb_bound : n <= 2 ^ 30;
  fb_mem : mem_of s' = mem_of s;
  fb_pos : pos s' = pos s;
  fb_md : md s' = md s
}.

Lemma wp_malloc_full n hand s (Q : nat → loading → Prop) (F : loading → Prop) :
  ok old hand s → 0 <= n →
  (∀ b a s', fresh_block s n b a s' → ok old (b :: hand) s' → grows s s' → Q b s') →
  (∀ s', ok old hand s' → grows s s' → md s' = md s → F s') → wp (LoaderModule.loader_malloc n) Q F s.
Proof.
  intros [W1 W2 W3 W4 W5 W6] Hn HQ HF. apply wp_lift. unfold LoaderCtx.loader_malloc.
  destruct (_ <=? n); [by apply wp_fail, HF; [|by constructor|]|].
  unfold wp, mbind, LoaderCtx.wasm_runtime_malloc. fold (heap_of s).
  assert (live (heap_of s) !! next_block (heap_of s) = None) as Hf.
  { apply eq_None_not_Some. intros [? _]%(ho_fresh _ W1). lia. }
  destruct (grants (heap_of s) n) as [a|] eqn:Eg; cbn.
  - apply (HQ _ a); [constructor|constructor|constructor]; try done; cbn.
    + by rewrite lookup_insert_eq.
    + by rewrite lookup_insert_eq.
    + by eapply grants_bound.
    + by apply heap_malloc.
    + intros b Hb. rewrite lookup_insert_ne; [by apply W2|]. intros <-. rewrite W2 in Hf by done.
      destruct Hb as [? Hb]. congruence.
    + intros b i Hl. destruct (decide (next_block (heap_of s) = b)) as [->|Hb]; [right; left; by left|].
      rewrite lookup_insert_ne in Hl by done. destruct (W3 b i Hl) as [?|[?|?]]; eauto. right. left. by right.
    + intros b [Hb|[->|Hb]%elem_of_cons]; [by apply W6; left| |by apply W6; right].
      intros Ho. rewrite W2 in Hf by done. rewrite Hf in Ho. by destruct Ho.
    + intros b Hb. apply lookup_insert_ne. intros <-. rewrite Hf in Hb. by destruct Hb.
    + intros b Hb. apply lookup_insert_ne. intros <-. rewrite Hf in Hb. by destruct Hb.
  - apply HF; [constructor; [by apply heap_bump|done..]|by constructor|done].
Qed.

Lemma wp_malloc_block n hand s (Q : nat → loading → Prop) (F : loading → Prop) :
  ok old hand s → 0 <= n →
  (∀ b a s', fresh_block s n b a s' → ok old (b :: hand) s' → grows s s' → Q b s') →
  (∀ s', ok old hand s' → F s') → wp (LoaderModule.loader_malloc n) Q F s.
Proof. intros Hok Hn HQ HF. by apply (wp_malloc_full n hand s); auto. Qed.

(** The entry in the table, of a block that was not there in [s0]. *)
Lemma wp_alloc_info b t n hand s0 s (Q : unit → loading → Prop) F :
  live (heap_of s0) !! b = None → is_Some (live (heap_of s) !! b) → ¬ is_Some (was_live old !! b) → b ∈ hand →
  ok old hand s → grows s0 s →
  (∀ s', live (heap_of s') !! b = Some (Some (t, n)) → extents (heap_of s') = extents (heap_of s) →
     mem_of s' = mem_of s → pos s' = pos s → md s' = md s → ok old hand s' → grows s0 s' → Q tt s') →
  wp (LoaderModule.alloc_info b t n) Q F s.
Proof.
  intros Hn [x Hb] Ho Hh [W1 W2 W3 W4 W5 W6] [G1 G2 G3] HQ. apply wp_lift, wp_mod.
  apply HQ; [cbn; by rewrite lookup_insert_eq|done|done|done|done|constructor|constructor]; cbn; try done.
  - assert (∀ b' r, block_at (mkScratch (next_block (heap_of s)) (<[b := Some (t, n)]> (live (heap_of s)))
      (extents (heap_of s))) b' r → block_at (heap_of s) b' r) as Hat.
    { intros b' r [L E]. split; [|done]. cbn in L. destruct (decide (b = b')) as [<-|]; [by exists x|].
      by rewrite lookup_insert_ne in L. }
    constructor; cbn.
    + intros b' Hb'. apply (ho_fresh _ W1). destruct (decide (b = b')) as [<-|Hne]; [by exists x|].
      by rewrite lookup_insert_ne in Hb'.
    + intros b1 b2 r r' Hne X1%Hat X2%Hat. by eapply (ho_disjoint _ W1).
    + intros b1 r X1%Hat. by eapply (ho_size _ W1).
  - intros b' Hb'. rewrite lookup_insert_ne; [by apply W2|]. by intros <-.
  - intros b' i Hl. destruct (decide (b = b')) as [<-|Hne]; [right; left; apply elem_of_app; by left|].
    rewrite lookup_insert_ne in Hl by done. by apply W3.
  - intros b' Hb'. rewrite lookup_insert_ne; [by apply G1|]. intros <-. rewrite Hn in Hb'. by destruct Hb'.
Qed.

(** A recorded block that the module has, or a copy, is no longer in hand. *)
Lemma ok_settle b t n hand s :
  ok old (b :: hand) s → live (heap_of s) !! b = Some (Some (t, n)) → t = uint8T ∨ b ∈ blocks_of (md s) →
  ok old hand s.
Proof.
  intros [W1 W2 W3 W4 W5 W6] Hl Ht. constructor; [done|done| |done|done|].
  - intros b' i Hb'. destruct (W3 b' i Hb') as [?|[[->|?]%elem_of_cons|?]]; eauto.
    right. right. exists t, n. split; [congruence|done].
  - intros b' [?|?]; apply W6; [by left|by right; right].
Qed.

Lemma fresh_not_old hand s b : ok old hand s → live (heap_of s) !! b = None → ¬ is_Some (was_live old !! b).
Proof. intros [_ W2 _ _ _ _] Hn Hb. rewrite W2 in Hn by done. rewrite Hn in Hb. by destruct Hb. Qed.

(** A copy into a block that was not there in [s0]. *)
Lemma wp_copy_to b a k e n hand s0 s (Q : Z → loading → Prop) F :
  live (heap_of s0) !! b = None → block_at (heap_of s) b (a, k) → 0 <= n <= k → pos s + n <= e →
  ok old hand s → grows s0 s →
  (∀ s', heap_of s' = heap_of s → mem_of s' = store (mem_of s) a (load (mem_of s) (pos s) (Z.to_nat n)) →
     pos s' = pos s → md s' = md s → ok old hand s' → grows s0 s' → Q a s') →
  wp (copy_to b e n) Q F s.
Proof.
  intros Hb [Hl He] Hn Hp Hok [G1 G2 G3] HQ. apply wp_bind, wp_bind, wp_getl.
  eapply wp_some; [fold (heap_of s); by rewrite He|]. cbn [fst]. apply wp_bind, wp_getl. fold (pos s).
  rewrite (proj2 (Z.leb_le _ _)) by done. apply wp_bind, wp_lift, wp_mod, wp_ret.
  apply HQ; try done. constructor; [done|done|]. intros b' r Hr x Hx. cbn -[store load].
  change (l_mem (set_l_mem ?m (ld s))) with m.
  rewrite store_out; [by eapply G3|]. rewrite length_load, Z2Nat.id by lia. fold (mem_of s).
  assert (b' ≠ b) as Hne by (intros ->; destruct Hr as [Hr _]; rewrite Hb in Hr; by destruct Hr).
  assert (block_at (heap_of s) b' r) as Hr' by (eapply (block_kept s0); [by constructor|done]).
  destruct (ho_disjoint _ (lo_heap _ _ _ _ Hok) b' b r (a, k) Hne Hr' (conj Hl He)) as [Hd|Hd];
    unfold in_region in Hx; cbn in Hd; lia.
Qed.

(** ** Arrays *)

Lemma in_array_blocks {A} (bl : A → list nat) n b (l : list A) y :
  y ∈ array_blocks bl (mkCounted n (Some (b, l))) ↔ y = b ∨ ∃ i x, l !! i = Some x ∧ y ∈ bl x.
Proof.
  unfold array_blocks. cbn [array]. rewrite elem_of_cons, (list_elem_of_In (flat_map bl l)), in_flat_map.
  split; (intros [->|Hy]; [by left|right]).
  - destruct Hy as (x&[i Hi]%list_elem_of_In%list_elem_of_lookup&Hy%list_elem_of_In). eauto.
  - destruct Hy as (i&x&Hi&Hy). exists x. split; apply list_elem_of_In; [|done]. by eapply list_elem_of_lookup_2.
Qed.

Lemma wp_put {A} (get : module_obj → counted A) set bl `{!Field get set bl} i a b n l hand s
    (Q : unit → loading → Prop) F :
  ok old hand s → get (md s) = mkCounted n (Some (b, l)) → 0 <= i < zlen l →
  (∀ x y, index l i = Some x → y ∈ bl x → y ∈ bl a) →
  (∀ y, y ∈ bl a → y ∈ hand ∨ ∃ x, index l i = Some x ∧ y ∈ bl x) →
  (∀ c, c = mkCounted n (Some (b, <[Z.to_nat i := a]> l)) → ok old hand (with_md (set c) s) →
     Q tt (with_md (set c) s)) →
  wp (put get set i a) Q F s.
Proof.
  intros Hok Hg Hi Hb Hb' HQ. apply wp_bind, wp_getm. rewrite Hg. cbn [array count].
  rewrite (proj2 (Z.leb_le _ _)), (proj2 (Z.ltb_lt _ _)) by lia. apply wp_modm, HQ; [done|].
  apply ok_module; [done| | |by rewrite field_strings, field_block]; intros y;
    rewrite (blocks_set get set bl), (field_blocks (get := get) (md s)), Hg.
  - intros [[->|(k&x&Hk&Hy)]%in_array_blocks|?]; [left|left|by right]; apply in_array_blocks; [by left|right].
    destruct (decide (k = Z.to_nat i)) as [->|Hne].
    + exists (Z.to_nat i), a. split; [apply list_lookup_insert_eq; by eapply lookup_lt_Some|].
      eapply Hb; [|done]. rewrite index_lookup, (proj2 (Z.ltb_ge _ _)) by lia. done.
    + exists k, x. by rewrite list_lookup_insert_ne.
  - intros [[->|(k&x&Hk&Hy)]%in_array_blocks|?]; [left; left; apply in_array_blocks; by left| |by left; right].
    destruct (decide (k = Z.to_nat i)) as [->|Hne].
    + rewrite list_lookup_insert_eq in Hk by (unfold zlen in Hi; lia). injection Hk as <-.
      destruct (Hb' y Hy) as [?|(x&Hx&Hyx)]; [by right|]. left. left. apply in_array_blocks. right.
      rewrite index_lookup, (proj2 (Z.ltb_ge _ _)) in Hx by lia. by exists (Z.to_nat i), x.
    + rewrite list_lookup_insert_ne in Hk by done. left. left. apply in_array_blocks. right. by exists k, x.
Qed.

Lemma wp_new_array {A} (get : module_obj → counted A) set bl `{!Field get set bl} size n t blank s
    (Q : unit → loading → Prop) (F : loading → Prop) :
  ok old [] s → array (get (md s)) = None → bl blank = [] → 0 <= size → 0 <= n →
  (∀ b s', size * n <= 2 ^ 30 → md s' = set (mkCounted n (Some (b, replicate (Z.to_nat n) blank))) (md s) →
     mem_of s' = mem_of s → pos s' = pos s → ok old [] s' → grows s s' → Q tt s') →
  (∀ s', ok old [] s' → F s') →
  wp (new_array set size n t blank) Q F s.
Proof.
  intros Hok Ha Hbl Hs Hn HQ HF. apply wp_bind, wp_modm. set (s1 := with_md _ s).
  assert (ok old [] s1) as Hok1.
  { apply ok_module; [done| | |by rewrite field_strings, field_block]; intros y;
      rewrite (blocks_set get set bl), (field_blocks (get := get) (md s)); unfold array_blocks; rewrite Ha; cbn [array];
      rewrite elem_of_nil; tauto. }
  apply wp_bind. eapply wp_malloc_block; [exact Hok1|lia| |done].
  intros b a s2 [B1 B2 B3 B4 B5 B6 B7] Hok2 G2. apply wp_bind, wp_modm. set (s3 := with_md _ s2).
  assert (ok old [b] s3) as Hok3.
  { apply ok_module; [done| | |by rewrite field_strings, field_block]; rewrite B7; cbn; intros y;
      rewrite field_set, (blocks_set get set bl (mkCounted n None)), (blocks_set get set bl (mkCounted n (Some _)));
      change (array_blocks bl (mkCounted n None)) with (@nil nat); rewrite elem_of_nil; [tauto|].
    intros [[->|(k&x&[-> _]%lookup_replicate&Hy)]%in_array_blocks|?]; [right; by left| |by left; right].
    rewrite Hbl in Hy. by apply not_elem_of_nil in Hy. }
  eapply (wp_alloc_info b t n [b] s1); [done|by exists None|by eapply fresh_not_old, B1|by left|exact Hok3|exact G2|].
  intros s4 L E M P D Hok4 G4. apply HQ with b; [done| |by rewrite M|by rewrite P| |exact G4].
  - rewrite D. cbn. rewrite B7. cbn. apply field_set.
  - eapply ok_settle; [exact Hok4|exact L|]. right. rewrite D. cbn. apply (blocks_set get set bl). left.
    apply in_array_blocks. by left.
Qed.

(** ** Strings *)

Lemma find_string_in nodes str node : find_string nodes str = Some node → ∃ b, (b, node) ∈ nodes.
Proof.
  induction nodes as [|[b n] nodes IH]; [done|]. cbn [find_string]. destruct (_ && _).
  - intros [= <-]. exists b. by left.
  - intros [b' Hb]%IH. exists b'. by right.
Qed.

Lemma wp_const_str_list_insert str s (Q : list Z → loading → Prop) (F : loading → Prop) :
  ok old [] s →
  (∀ node strs s', md s' = set_md_strings strs (md s) → check_utf8_str node = true →
     mem_of s' = mem_of s → pos s' = pos s → ok old [] s' → grows s s' → Q node s') →
  (∀ s', ok old [] s' → F s') →
  wp (const_str_list_insert str) Q F s.
Proof.
  intros Hok HQ HF. unfold const_str_list_insert. destruct (check_utf8_str str) eqn:Hu; [|by apply wp_kfail, HF].
  cbn [negb]. apply wp_bind, wp_getm. destruct (find_string _ _) as [node|] eqn:Ef.
  - apply wp_ret, (HQ node (md_strings (md s))); [by destruct s as [? []]| |done|done|done|by constructor].
    apply find_string_in in Ef as [b Hb]. by apply (proj1 (Forall_forall _ _) (lo_strings _ _ _ _ Hok) (b, node)).
  - apply wp_bind. eapply wp_malloc_block; [exact Hok| |  |done].
    { pose proof (zlen_nonneg str). change (sizeof StringNode) with 16. lia. }
    intros b a s2 [B1 B2 B3 B4 B5 B6 B7] Hok2 G2. apply wp_bind.
    eapply (wp_alloc_info b _ _ [b] s); [done|by exists None|by eapply fresh_not_old, B1|by left|exact Hok2|exact G2|].
    intros s4 L E M P D Hok4 G4. apply wp_bind, wp_modm, wp_ret.
    apply (HQ str ((b, str) :: md_strings (md s))); [cbn; congruence|done|exact (eq_trans M B5)|exact (eq_trans P B6)| |exact G4].
    destruct Hok4 as [W1 W2 W3 W4 W5 W6]. constructor; [done|done| | |exact W5|].
    + intros b' i Hb'. destruct (W3 b' i Hb') as [?|[[->|?]%elem_of_cons|(t&k&->&Ht)]]; [by left| |by right; left|].
      * right. right. exists StringNodeT, (zlen str + 1). split; [change (live (heap_of s4) !! b = Some i) in Hb'; congruence|].
        right. apply blocks_strings. left. by left.
      * right. right. exists t, k. split; [done|]. destruct Ht as [?|Ht]; [by left|right].
        rewrite D, B7 in Ht. cbn -[blocks_of]. rewrite D, B7. by apply blocks_more_strings.
    + cbn. constructor; [done|]. apply (lo_strings _ _ _ _ Hok).
    + intros b' [[[->|Hb']%elem_of_cons|Hb']%blocks_strings|Hb'].
      * apply W6. right. by left.
      * apply W6. left. rewrite D, B7. assert (md s = set_md_strings (md_strings (md s)) (md s)) as -> by (by destruct (md s)).
        apply blocks_strings. by left.
      * apply W6. left. cbn in Hb'. rewrite D, B7 in Hb' |- *.
        assert (md s = set_md_strings (md_strings (md s)) (md s)) as -> by (by destruct (md s)).
        apply blocks_strings. by right.
      * apply W6. right. by right.
Qed.

End heap.
