(* ===== verification/Loaded.v ===== *)
(** What the loader promises of a module it has loaded: every array is full, every
    index is in its range and every object is well formed. *)
From stdpp Require Import base gmap list numbers strings.
From Stdlib Require Import Strings.Byte ZArith Lia.
From S2P Require Import Prelude CMemory WasmTypes Opcodes LoaderCtx Validate Typing Wp LoaderInv LoaderStep.
From S2P Require Import LoaderModule Sections LoadModule LoadInv.

(** An array of which every element is loaded. *)
Record loaded {A} (P : A → Prop) (c : counted A) : Prop := {
  ld_count : count c = zlen (elems c);
  ld_bound : zlen (elems c) <= 2 ^ 30;
  ld_elems : Forall P (elems c)
}.

Lemma loaded_none {A} (P : A → Prop) : loaded P no_elems.
Proof. by constructor. Qed.

Lemma loaded_index {A} (P : A → Prop) c i :
  loaded P c → 0 <= i < count c → ∃ a, index (elems c) i = Some a ∧ P a.
Proof.
  intros [H1 H2 H3] Hi. destruct (index_some (elems c) i) as [a Ha]; [lia|]. exists a. split; [done|].
  by eapply index_Forall.
Qed.

(** A type: the bytes of its parameters and results are any bytes. *)
Record type_ok (t : type_obj) : Prop := {
  to_params : 0 <= param_count (ty t) < 2 ^ 16;
  to_results : 0 <= result_count (ty t) < 2 ^ 16;
  to_length : zlen (types (ty t)) = param_count (ty t) + result_count (ty t);
  to_param_cells : ty_param_cell_num t = wasm_get_cell_num (param_types (ty t)) ∧ ty_param_cell_num t < 2 ^ 16;
  to_ret_cells : ty_ret_cell_num t = wasm_get_cell_num (result_types (ty t)) ∧ ty_ret_cell_num t < 2 ^ 16
}.

Abbreviation types_array := (counted (option (nat * type_obj))).

Definition types_ok : types_array → Prop := loaded (fun o => ∃ b t, o = Some (b, t) ∧ type_ok t).
Definition in_types (ts : types_array) (t : type_obj) : Prop := ∃ b, Some (b, t) ∈ elems ts.

Lemma in_types_ok ts t : types_ok ts → in_types ts t → type_ok t.
Proof.
  intros [_ _ HF] [b Hb]. destruct (proj1 (Forall_forall _ _) HF _ Hb) as (b'&t'&[= <- <-]&Ht). done.
Qed.

Definition table_ok (t : table_obj) : Prop :=
  elem_type t = VALUE_TYPE_FUNCREF ∧ 0 <= init_size t < 2 ^ 32
  ∧ (init_size t < 2 ^ 31 → init_size t <= max_size t < 2 ^ 32).

(** A memory as it is read, or one of a single page that cannot grow. *)
Definition memory_ok (m : memory_obj) : Prop :=
  num_bytes_per_page m = 65536 ∧ 0 <= init_page_count m <= 65536
  ∨ 0 <= num_bytes_per_page m < 2 ^ 32 ∧ init_page_count m = 1 ∧ max_page_count m = 1.

(** * Imports *)

Definition function_import (ts : types_array) (i : import_obj) : Prop :=
  ∃ t l, i_u i = ImportFunction t l ∧ in_types ts t.
Definition table_import (i : import_obj) : Prop := ∃ t, i_u i = ImportTable t ∧ table_ok t.
Definition memory_import (i : import_obj) : Prop := ∃ m, i_u i = ImportMemory m ∧ memory_ok m.
Definition global_import (i : import_obj) : Prop := ∃ t m v, i_u i = ImportGlobal t m v.

Definition place_of (at_ n : Z) : option Z := if n =? 0 then None else Some at_.

(** The imports of a kind are together, the functions first. *)
Record imports_ok (ts : types_array) (i : import_info) : Prop := {
  im_parts : ∃ fs tabs mems globs,
    elems (md_import_array i) = fs ++ tabs ++ mems ++ globs
    ∧ zlen fs = import_function_count i ∧ zlen tabs = m_import_table_count i
    ∧ zlen mems = m_import_memory_count i ∧ zlen globs = import_global_count i
    ∧ Forall (function_import ts) fs ∧ Forall table_import tabs ∧ Forall memory_import mems
    ∧ Forall global_import globs;
  im_count : count (md_import_array i) = zlen (elems (md_import_array i));
  im_bound : zlen (elems (md_import_array i)) <= 2 ^ 30;
  im_one : m_import_table_count i <= 1 ∧ m_import_memory_count i <= 1;
  im_functions : import_functions_at i = place_of 0 (import_function_count i);
  im_tables : import_tables_at i = place_of (import_function_count i) (m_import_table_count i);
  im_memories : import_memories_at i
    = place_of (import_function_count i + m_import_table_count i) (m_import_memory_count i);
  im_globals : import_globals_at i
    = place_of (import_function_count i + m_import_table_count i + m_import_memory_count i) (import_global_count i)
}.

Definition no_imports : import_info := mkImportInfo no_elems 0 0 0 0 None None None None.

Lemma no_imports_ok ts : imports_ok ts no_imports.
Proof. constructor; try done. by exists [], [], [], []. Qed.

(** * Functions *)

(** A live block of bytes, and where it is. *)
Definition bytes_at (h : scratch) (b : nat) (r : region) : Prop :=
  live h !! b = Some (Some (uint8T, r.2)) ∧ extents h !! b = Some r.

Lemma bytes_block h b r : bytes_at h b r → block_at h b r.
Proof. intros [Hl He]. split; [by eexists|done]. Qed.

Lemma bytes_kept s s' b r : grows s s' → bytes_at (heap_of s) b r → bytes_at (heap_of s') b r.
Proof. intros [H1 H2 _] [Hl He]. split; [rewrite H1|rewrite H2]; first [done|by eexists]. Qed.

(** The code is in a block of its own. *)
Record function_ok (ts : types_array) (h : scratch) (f : function_obj) : Prop := {
  fo_type : in_types ts (fn_type f);
  fo_param_cells : param_cell_num f = ty_param_cell_num (fn_type f);
  fo_ret_cells : ret_cell_num f = ty_ret_cell_num (fn_type f);
  fo_locals : types_wf (fn_local_types f);
  fo_local_count : local_count f = zlen (fn_local_types f) ∧ local_count f < 2 ^ 30;
  fo_local_cells : local_cell_num f = wrap 16 (wasm_get_cell_num (fn_local_types f));
  fo_offsets : fn_local_offsets f = offsets_of (param_types (ty (fn_type f)) ++ fn_local_types f) 0;
  fo_code : ∃ cb, fn_code_block f = Some cb ∧ bytes_at h cb (fn_code f, fn_code_size f)
}.

Abbreviation functions_array := (counted (option function_obj)).

Record functions_ok (ts : types_array) (h : scratch) (c : functions_array) : Prop := {
  fs_loaded : loaded (fun o => ∃ f, o = Some f ∧ function_ok ts h f) c;
  fs_distinct i j f g : i ≠ j → elems c !! i = Some (Some f) → elems c !! j = Some (Some g) →
    fn_code_block f ≠ fn_code_block g
}.

(** * The rest *)

Definition global_ok (imported : Z) (g : global_obj) : Prop :=
  match g_init g with
  | InitNone => False
  | InitI32 _ => g_type g = VALUE_TYPE_I32
  | InitI64 _ => g_type g = VALUE_TYPE_I64
  | InitF32 _ => g_type g = VALUE_TYPE_F32
  | InitF64 _ => g_type g = VALUE_TYPE_F64
  | InitGlobal i => 0 <= i < imported
  end.

(** An offset of a segment. *)
Definition offset_ok (i : initializer) : Prop :=
  match i with InitI32 _ => True | InitGlobal i => 0 <= i < 2 ^ 32 | _ => False end.

Definition export_ok (m : module_obj) (e : export_obj) : Prop :=
  check_utf8_str (e_name e) = true
  ∧ ∃ n msg, exported (e_kind e) m = Some (n, msg) ∧ 0 <= e_index e < n.

(** A function of the module, imported or own. *)
Definition type_at (m : module_obj) (i : Z) : option func_type :=
  let imp := md_imports m in
  match index (imports_from (import_functions_at imp) (import_function_count imp) imp) i with
  | Some import => import_type import
  | None =>
      match index (elems (md_functions m)) (i - import_function_count imp) with
      | Some (Some f) => Some (ty (fn_type f))
      | _ => None
      end
  end.

Definition start_ok (m : module_obj) : Prop :=
  md_start_function m = UINT32_MAX
  ∨ ∃ t, type_at m (md_start_function m) = Some t ∧ param_count t = 0 ∧ result_count t = 0.

Definition segment_ok (m : module_obj) (t : table_seg_obj) : Prop :=
  table_index t = 0 ∧ m_import_table_count (md_imports m) + count (md_tables m) = 1
  ∧ offset_ok (ts_base_offset t)
  ∧ match func_indexes t with
    | None => ts_function_count t = 0
    | Some (_, l) => ts_function_count t = zlen l ∧ Forall (fun i => 0 <= i < all_functions m) l
    end.

Definition data_ok (m : module_obj) (d : option data_seg_obj) : Prop :=
  ∃ d', d = Some d' ∧ memory_index d' = 0
    ∧ m_import_memory_count (md_imports m) + count (md_memories m) = 1 ∧ offset_ok (ds_base_offset d').

Record module_ok (h : scratch) (m : module_obj) : Prop := {
  ok_types : types_ok (md_types m);
  ok_imports : imports_ok (md_types m) (md_imports m);
  ok_functions : functions_ok (md_types m) h (md_functions m);
  ok_tables : loaded table_ok (md_tables m) ∧ m_import_table_count (md_imports m) + count (md_tables m) <= 1;
  ok_memories : loaded memory_ok (md_memories m)
    ∧ m_import_memory_count (md_imports m) + count (md_memories m) <= 1;
  ok_globals : loaded (global_ok (import_global_count (md_imports m))) (md_globals m);
  ok_exports : loaded (export_ok m) (md_exports m);
  ok_start : start_ok m;
  ok_segments : loaded (segment_ok m) (md_table_segments m);
  ok_data : loaded (data_ok m) (md_data_segments m)
}.
