(* ===== verification/SectionProofs.v ===== *)
(** Every section: its routine never reads outside the section nor writes outside an
    array, and what it leaves in the module is well formed ([Loaded]). *)
From stdpp Require Import base gmap list numbers strings.
From Stdlib Require Import Strings.Byte ZArith Lia.
From S2P Require Import Prelude CMemory WasmTypes Opcodes Leb FindBlock LoaderCtx Validate Typing Wp.
From S2P Require Import LoaderInv LoaderStep LoaderModule MemInit Sections LoadInv Loaded.

(** * Arrays that are filled from the front *)

Definition partial {A} (n : Z) (blank : A) (done : list A) : list A :=
  done ++ replicate (Z.to_nat (n - zlen done)) blank.

Lemma partial_nil {A} n (blank : A) : partial n blank [] = replicate (Z.to_nat n) blank.
Proof. unfold partial. change (zlen []) with 0. by rewrite Z.sub_0_r. Qed.

Lemma partial_full {A} n (blank : A) done : zlen done = n → partial n blank done = done.
Proof. intros <-. unfold partial. by rewrite Z.sub_diag, app_nil_r. Qed.

Lemma zlen_partial {A} n (blank : A) done : zlen done <= n → zlen (partial n blank done) = n.
Proof. intros Hd. unfold partial. rewrite zlen_app, zlen_replicate. lia. Qed.

Lemma index_partial {A} n (blank : A) done : zlen done < n → index (partial n blank done) (zlen done) = Some blank.
Proof.
  intros Hd. unfold partial. rewrite index_app_r, Z.sub_diag by lia.
  replace (Z.to_nat (n - zlen done)) with (S (Z.to_nat (n - zlen done - 1))) by lia. done.
Qed.

Lemma insert_partial {A} n (blank : A) done x :
  zlen done < n → <[Z.to_nat (zlen done) := x]> (partial n blank done) = partial n blank (done ++ [x]).
Proof.
  intros Hd. unfold partial, zlen in *. rewrite Nat2Z.id, length_app. cbn [length].
  replace (Z.to_nat (n - Z.of_nat (length done))) with (S (Z.to_nat (n - Z.of_nat (length done + 1)))) by lia.
  cbn [replicate]. rewrite insert_app_r_alt, Nat.sub_diag by lia. cbn. by rewrite <- app_assoc.
Qed.

Lemma index_partial_last {A} n (blank : A) done x : index (partial n blank (done ++ [x])) (zlen done) = Some x.
Proof. unfold partial. by rewrite <- app_assoc, index_app_r, Z.sub_diag by lia. Qed.

Lemma update_partial {A} n (blank : A) done x y :
  <[Z.to_nat (zlen done) := y]> (partial n blank (done ++ [x])) = partial n blank (done ++ [y]).
Proof.
  unfold partial. rewrite <- !app_assoc. unfold zlen. rewrite Nat2Z.id, insert_app_r_alt, Nat.sub_diag by lia.
  cbn. by rewrite !length_app.
Qed.

Section proofs.
Context `{PlacedPool} (old : before).

Abbreviation oks := (ok old []).

Section arrays.
Context {A : Type} (get : module_obj → counted A) (set : counted A → module_obj → module_obj) (bl : A → list nat).
Context `{!Field get set bl}.
Context (Hstrings : ∀ c x m, set c (set_md_strings x m) = set_md_strings x (set c m)).
Context (Hget : ∀ x m, get (set_md_strings x m) = get m).

(** The module when [done] is loaded. *)
Definition filling (hand : list nat) (s : loading) (n : Z) (b : nat) (blank : A) (done : list A)
    (s1 : loading) : Prop :=
  ok old hand s1 ∧ grows s s1
  ∧ ∃ strs, md s1 = set_md_strings strs (set (mkCounted n (Some (b, partial n blank done))) (md s)).

Lemma wp_load_array size n t blank body (P : A → Prop) s (Q : unit → loading → Prop) (F : loading → Prop) :
  oks s → array (get (md s)) = None → bl blank = [] → 1 <= size → 0 <= n →
  (∀ s', oks s' → F s') →
  (∀ b done s1, size * n <= 2 ^ 30 → zlen done < n → filling [] s n b blank done s1 →
     wp (body (zlen done)) (fun _ s2 => ∃ x, P x ∧ filling [] s n b blank (done ++ [x]) s2) F s1) →
  (∀ c strs s2, oks s2 → grows s s2 → md s2 = set_md_strings strs (set c (md s)) → count c = n → loaded P c →
     Q tt s2) →
  wp (new_array set size n t blank ;+ count_to n body) Q F s.
Proof.
  intros Hok Ha Hbl Hs Hn HF Hb HQ. apply wp_bind.
  eapply (wp_new_array old get set bl); [exact Hok|exact Ha|exact Hbl|lia|exact Hn| |exact HF].
  intros b s1 Hsz D M P' Hok1 G1.
  eapply (wp_count_to n body (fun j s1 => ∃ done, zlen done = j ∧ Forall P done ∧ filling [] s n b blank done s1));
    [exact Hn| | |].
  - exists []. split_and!; [done|done|]. split_and!; [done|done|]. exists (md_strings (md s)).
    rewrite partial_nil, D. rewrite <- (field_strings (get := get) (mkCounted n (Some (b, replicate (Z.to_nat n) blank))) (md s)).
    by destruct (set _ (md s)).
  - intros j s2 Hj (done&<-&HP&Hf). eapply wp_mono; [apply (Hb b done s2); [done|lia|done]| |done].
    intros [] s3 (x&Hx&Hf3). exists (done ++ [x]). split_and!; [by rewrite zlen_snoc|apply Forall_app_2; [done|by constructor]|done].
  - intros s2 (done&Hd&HP&Hok2&G2&strs&D2). rewrite partial_full in D2 by done.
    eapply HQ; [done|done|exact D2|done|]. constructor; cbn [count elems array]; [lia|nia|done].
Qed.

(** A store of the element that is being loaded. *)
Lemma wp_fill_new hand s n b blank done s1 x (Q : unit → loading → Prop) F :
  filling hand s n b blank done s1 → zlen done < n → bl blank = [] → (∀ y, y ∈ bl x → y ∈ hand) →
  (∀ s2, ld s2 = ld s1 → filling hand s n b blank (done ++ [x]) s2 → Q tt s2) →
  wp (put get set (zlen done) x) Q F s1.
Proof.
  intros (Hok&G&strs&D) Hd Hbl Hx HQ.
  eapply (wp_put old get set bl _ _ b n (partial n blank done)); [exact Hok| | | |by left; apply Hx|].
  - rewrite D. rewrite Hget. apply field_get.
  - rewrite zlen_partial by lia. pose proof (zlen_nonneg done). lia.
  - intros y z Hy Hz. rewrite index_partial in Hy by done. injection Hy as <-. rewrite Hbl in Hz. by apply not_elem_of_nil in Hz.
  - intros c -> Hok2. apply HQ; [done|]. split_and!; [done|done|]. exists strs.
    cbn. rewrite D, Hstrings, field_set, insert_partial by done. done.
Qed.

Lemma wp_fill_again hand s n b blank done s1 x y (Q : unit → loading → Prop) F :
  filling hand s n b blank (done ++ [x]) s1 → zlen done < n → (∀ z, z ∈ bl x → z ∈ bl y) →
  (∀ z, z ∈ bl y → z ∈ hand ∨ z ∈ bl x) →
  (∀ s2, ld s2 = ld s1 → filling hand s n b blank (done ++ [y]) s2 → Q tt s2) →
  wp (put get set (zlen done) y) Q F s1.
Proof.
  intros (Hok&G&strs&D) Hd Hbl Hbl' HQ.
  eapply (wp_put old get set bl _ _ b n (partial n blank (done ++ [x]))); [exact Hok| | | | |].
  - rewrite D. rewrite Hget. apply field_get.
  - rewrite zlen_partial by (rewrite zlen_snoc; lia). pose proof (zlen_nonneg done). lia.
  - intros x' z Hy Hz. rewrite index_partial_last in Hy. injection Hy as <-. by apply Hbl.
  - intros z [?|?]%Hbl'; [by left|right]. exists x. by rewrite index_partial_last.
  - intros c -> Hok2. apply HQ; [done|]. split_and!; [done|done|]. exists strs.
    cbn. rewrite D, Hstrings, field_set, update_partial. done.
Qed.

Lemma filling_blocks hand s n b blank done x s1 y :
  filling hand s n b blank (done ++ [x]) s1 → y ∈ bl x → y ∈ blocks_of (md s1).
Proof.
  intros (_&_&strs&->) Hy. rewrite <- Hstrings. apply (blocks_set get set bl). left.
  apply in_array_blocks. right. exists (length done), x. split; [|done].
  unfold partial. rewrite <- app_assoc. by rewrite lookup_app_r, Nat.sub_diag by lia.
Qed.

Lemma filling_settle hand s n b blank done x s1 y t k :
  filling (y :: hand) s n b blank (done ++ [x]) s1 → y ∈ bl x →
  live (heap_of s1) !! y = Some (Some (t, k)) → filling hand s n b blank (done ++ [x]) s1.
Proof.
  intros Hf Hy Hl. assert (y ∈ blocks_of (md s1)) by (by eapply filling_blocks).
  destruct Hf as (Hok&G&D). split_and!; [|done|done]. eapply ok_settle; [done|done|by right].
Qed.

Lemma filling_fresh hand s n b blank done s1 k y a s2 :
  filling hand s n b blank done s1 → fresh_block s1 k y a s2 → ok old (y :: hand) s2 → grows s1 s2 →
  filling (y :: hand) s n b blank done s2.
Proof.
  intros (Hok&G&strs&D) [? ? ? ? ? ? B7] Hok2 G2. split_and!; [done|by eapply grows_trans|].
  exists strs. by rewrite B7.
Qed.

(** A block that is taken and recorded. *)
Record taken (s1 : loading) (y : nat) (a k : Z) (t : Data_Type) (c : Z) (s2 : loading) : Prop := {
  tk_new : live (heap_of s1) !! y = None;
  tk_live : live (heap_of s2) !! y = Some (Some (t, c));
  tk_extent : extents (heap_of s2) !! y = Some (a, k);
  tk_bound : k <= 2 ^ 30;
  tk_mem : mem_of s2 = mem_of s1;
  tk_pos : pos s2 = pos s1;
  tk_grows : grows s1 s2
}.

Lemma wp_take {B} hand s n b blank done s1 k t c (cont : nat → K B) (Q : B → loading → Prop) (F : loading → Prop) :
  filling hand s n b blank done s1 → 0 <= k →
  (∀ y a s2, filling (y :: hand) s n b blank done s2 → taken s1 y a k t c s2 → wp (cont y) Q F s2) →
  (∀ s2, ok old hand s2 → F s2) →
  wp (let+ y := LoaderModule.loader_malloc k in LoaderModule.alloc_info y t c ;+ cont y) Q F s1.
Proof.
  intros Hf Hk HQ HF. pose proof (proj1 Hf) as Hok. apply wp_bind.
  eapply wp_malloc_block; [exact Hok|done| |exact HF]. intros y a s2 B' Hok2 G2.
  pose proof (filling_fresh _ _ _ _ _ _ _ _ _ _ _ Hf B' Hok2 G2) as Hf2.
  destruct B' as [B1 B2 B3 B4 B5 B6 B7]. apply wp_bind.
  eapply (wp_alloc_info old y _ _ (y :: hand) s1);
    [done|by exists None|by eapply fresh_not_old, B1|by left|exact Hok2|exact G2|].
  intros s3 L E M P D Hok3 G3. apply (HQ y a).
  - destruct Hf2 as (_&_&strs&D2). split_and!; [done| |exists strs; by rewrite D].
    eapply grows_trans; [apply Hf|exact G3].
  - constructor; [done|done| |done|congruence|congruence|done]. by rewrite E.
Qed.

(** The first store of an element whose block has just been taken. *)
Lemma wp_fill_taken hand s n b blank done s0 y a k t c s1 x (Q : unit → loading → Prop) F :
  filling (y :: hand) s n b blank done s1 → taken s0 y a k t c s1 →
  zlen done < n → bl blank = [] → bl x = [y] →
  (∀ s2, ld s2 = ld s1 → filling hand s n b blank (done ++ [x]) s2 → Q tt s2) →
  wp (put get set (zlen done) x) Q F s1.
Proof.
  intros Hf T Hd Hbl Hy HQ. eapply wp_fill_new; [exact Hf|exact Hd|exact Hbl| |].
  { intros z. rewrite Hy. intros ->%list_elem_of_singleton. by left. }
  intros s2 E Hf2. apply HQ; [done|]. eapply filling_settle; [exact Hf2|rewrite Hy; by left|]. unfold heap_of. rewrite E. apply (tk_live _ _ _ _ _ _ _ T).
Qed.

Lemma filling_strings s n b blank done s1 strs s2 :
  filling [] s n b blank done s1 → md s2 = set_md_strings strs (md s1) → oks s2 → grows s1 s2 →
  filling [] s n b blank done s2.
Proof.
  intros (Hok&G&strs1&D) D2 Hok2 G2. split_and!; [done|by eapply grows_trans|]. exists strs. by rewrite D2, D.
Qed.

(** A block of bytes need not be in the module. *)
Lemma filling_bytes hand s n b blank done s1 y a k c s2 :
  filling (y :: hand) s n b blank done s2 → taken s1 y a k uint8T c s2 → filling hand s n b blank done s2.
Proof.
  intros (Hok&G&D) T. split_and!; [|done|done]. eapply ok_settle; [exact Hok|apply T|by left].
Qed.

Lemma wp_fill_copy hand s n b blank done s0 y a k t c s1 e j (Q : Z → loading → Prop) F :
  filling hand s n b blank done s1 → taken s0 y a k t c s1 → grows s s0 → 0 <= j <= k → pos s1 + j <= e →
  (∀ s2, heap_of s2 = heap_of s1 →
     mem_of s2 = store (mem_of s1) a (load (mem_of s1) (pos s1) (Z.to_nat j)) → pos s2 = pos s1 →
     filling hand s n b blank done s2 → grows s0 s2 → Q a s2) →
  wp (copy_to y e j) Q F s1.
Proof.
  intros (Hok&G&D) T G0 Hj Hp HQ.
  eapply (wp_copy_to old y a k e j hand s0); [apply T|split; [|apply T]; by eexists; apply T|done|done|exact Hok|apply T|].
  intros s2 E1 E2 E3 E4 Hok2 G2. apply HQ; [done..| |exact G2].
  split_and!; [done|by eapply grows_trans|by rewrite E4].
Qed.

End arrays.

(** ** Ends and initializers *)

Lemma wp_section_end e (Q : unit → loading → Prop) (F : loading → Prop) s :
  Q tt s → (∀ msg, F (err msg s)) → wp (section_end e) Q F s.
Proof.
  intros HQ HF. apply wp_bind, wp_getl. destruct (negb _); [by apply wp_kfail|by apply wp_ret].
Qed.

(** The type of a constant, which a loaded initializer has. *)
Definition init_ok (type : Z) (i : initializer) : Prop :=
  match i with
  | InitNone => False
  | InitI32 _ => type = VALUE_TYPE_I32
  | InitI64 _ => type = VALUE_TYPE_I64
  | InitF32 _ => type = VALUE_TYPE_F32
  | InitF64 _ => type = VALUE_TYPE_F64
  | InitGlobal i => 0 <= i < 2 ^ 32
  end.

Lemma wp_init_end e (init : initializer) (Q : initializer → loading → Prop) (F : loading → Prop) s :
  (∀ p, Q init (goto p s)) → (∀ msg p, F (err msg (goto p s))) → (∀ msg, F (err msg s)) →
  wp (LoaderModule.CHECK_BUF e 1 ;+
      (let+ end_byte := LoaderModule.read_uint8 e in
       if negb (end_byte =? 0x0b) then fail_type_mismatch else lret init)) Q F s.
Proof.
  intros HQ HF HF'. apply wp_bind, wp_CHECK_BUF; [|done]. intros Hp. apply wp_bind, wp_read_byte; [lia|].
  destruct (negb _); [apply wp_kfail, HF|by apply wp_ret].
Qed.

Lemma wp_load_init_expr e vt (Q : initializer → loading → Prop) (F : loading → Prop) s :
  (∀ i p, init_ok vt i → Q i (goto p s)) → (∀ msg p, F (err msg (goto p s))) →
  wp (load_init_expr e vt) Q F s.
Proof.
  intros HQ HF. assert (∀ msg, F (err msg s)) as HF' by (intros msg; specialize (HF msg (pos s)); by destruct s as [[]]).
  apply wp_bind, wp_CHECK_BUF; [|done]. intros Hp. apply wp_bind, wp_read_byte; [lia|].
  set (s1 := goto _ s). set (flag := load_Z _ _ _). apply wp_bind.
  assert (∀ i p, init_ok vt i → wp (LoaderModule.CHECK_BUF e 1 ;+
      (let+ end_byte := LoaderModule.read_uint8 e in
       if negb (end_byte =? 0x0b) then fail_type_mismatch else lret i)) Q F (goto p s)) as Hend.
  { intros i p Hi. apply wp_init_end; [intros q; by apply (HQ i q)|intros msg q; apply (HF msg q)|intros; apply HF]. }
  assert (∀ (c : K Z) k, (∀ Q', (∀ v q, Q' v (goto q s1)) → wp c Q' F s1) → (∀ v, init_ok vt (k v)) →
    wp (let+ v := c in lret (k v)) (fun i => wp (LoaderModule.CHECK_BUF e 1 ;+
      (let+ end_byte := LoaderModule.read_uint8 e in
       if negb (end_byte =? 0x0b) then fail_type_mismatch else lret i)) Q F) F s1) as Hk.
  { intros c k Hc Hi. apply wp_bind, Hc. intros v q. apply wp_ret. by apply (Hend (k v) q). }
  assert (∀ n Q', (∀ v q, Q' v (goto q s1)) → wp (read_float e n) Q' F s1) as Hfloat.
  { intros n Q' HQ'. apply wp_bind, wp_CHECK_BUF; [|intros; apply HF]. intros _.
    do 2 apply wp_bind, wp_getl. apply wp_bind, wp_skip, wp_ret, HQ'. }
  destruct (flag =? _); [|destruct (flag =? _); [|destruct (flag =? _); [|destruct (flag =? _); [|destruct (flag =? _)]]]].
  6: by apply wp_kfail, HF.
  5: { apply wp_bind, wp_section_leb; [|intros; apply HF]. intros v q _ Hv _.
       apply wp_ret. by apply (Hend (InitGlobal v) q). }
  all: match goal with |- context [negb (?x =? ?t)] => destruct (Z.eqb_spec x t) end; cbn [negb];
    [|by apply wp_kfail, HF].
  all: try (by apply Hk; [apply Hfloat|]).
  - apply Hk; [|done]. intros Q' HQ'. refine (wp_read_leb_int32 e _ _ s1 _ _); [intros v q _; exact (HQ' v q)|intros; apply HF].
  - apply Hk; [|done]. intros Q' HQ'. refine (wp_read_leb_int64 e _ _ s1 _ _); [intros v q _; exact (HQ' v q)|intros; apply HF].
Qed.

(** A section that is an array. *)
Lemma wp_array_section {A} (get : module_obj → counted A) set bl `{!Field get set bl} size n t blank body e
    (P : A → Prop) s (Q : unit → loading → Prop) :
  (∀ c x m, set c (set_md_strings x m) = set_md_strings x (set c m)) →
  oks s → get (md s) = no_elems → bl blank = [] → 1 <= size → 0 <= n →
  (∀ b done s1, size * n <= 2 ^ 30 → zlen done < n → filling set [] s n b blank done s1 →
     wp (body (zlen done)) (fun _ s2 => ∃ x, P x ∧ filling set [] s n b blank (done ++ [x]) s2) oks s1) →
  (∀ c strs s2, oks s2 → grows s s2 → md s2 = set_md_strings strs (set c (md s)) → count c = n → loaded P c →
     Q tt s2) →
  wp ((if negb (n =? 0) then new_array set size n t blank ;+ count_to n body else lret tt) ;+ section_end e) Q oks s.
Proof.
  intros Hstr Hok Hb Hbl Hs Hn Hbody HQ. apply wp_bind. destruct (Z.eqb_spec n 0) as [->|Hne]; cbn [negb].
  2:{
    eapply (wp_load_array get set bl); [exact Hok|by rewrite Hb|done|done|done|done|exact Hbody|].
    intros c strs s2 Hok2 G D Hc Hl. apply wp_section_end; [by eapply HQ|done]. }
  apply wp_ret, wp_section_end; [|done]. apply (HQ no_elems (md_strings (md s))); [done|done| |done|apply loaded_none].
    rewrite <- Hb, field_id. by destruct (md s).
Qed.

(** ** Routines that only read *)

(** [c] moves the position and yields a value of which [P] holds, or fails. *)
Definition reads {A} (m : module_obj) (c : K A) (P : A → Prop) : Prop :=
  ∀ s (Q : A → loading → Prop) (F : loading → Prop),
    md s = m → (∀ a p, P a → Q a (goto p s)) → (∀ msg p, F (err msg (goto p s))) → wp c Q F s.

Lemma goto_here s : goto (pos s) s = s.
Proof. by destruct s as [[]]. Qed.

Lemma reads_ret {A} m (a : A) (P : A → Prop) : P a → reads m (lret a) P.
Proof. intros Ha s Q F _ HQ _. apply wp_ret. rewrite <- goto_here. by apply HQ. Qed.

Lemma reads_fail {A} m msg (P : A → Prop) : reads m (fail msg) P.
Proof. intros s Q F _ _ HF. apply wp_kfail. rewrite <- (goto_here s). apply HF. Qed.

Lemma reads_bind {A B} m (c : K A) (k : A → K B) P P' :
  reads m c P → (∀ a, P a → reads m (k a) P') → reads m (let+ a := c in k a) P'.
Proof.
  intros Hc Hk s Q F Hm HQ HF. apply wp_bind, Hc; [done| |exact HF].
  intros a p Ha. apply Hk; [done|done| |]; intros; [by apply (HQ _ _)|apply HF].
Qed.

Lemma reads_mono {A} m (c : K A) (P P' : A → Prop) : reads m c P → (∀ a, P a → P' a) → reads m c P'.
Proof. intros Hc HP s Q F Hm HQ HF. apply Hc; auto. Qed.

Lemma reads_getm {A B} m (f : module_obj → A) (k : A → K B) P :
  reads m (k (f m)) P → reads m (let+ a := getm f in k a) P.
Proof. intros Hk s Q F <- HQ HF. apply wp_bind, wp_getm. by apply Hk. Qed.

Lemma reads_leb m e : reads m (LoaderModule.read_leb_uint32 e) (fun v => 0 <= v < 2 ^ 32).
Proof.
  intros s Q F _ HQ HF. apply wp_section_leb; [intros; by apply HQ|].
  intros msg. rewrite <- (goto_here s). apply HF.
Qed.

Lemma reads_check {A} m e n (k : K A) P : reads m k P → reads m (LoaderModule.CHECK_BUF e n ;+ k) P.
Proof.
  intros Hk s Q F Hm HQ HF. apply wp_bind, wp_CHECK_BUF; [intros _; by apply Hk|].
  intros msg. rewrite <- (goto_here s). apply HF.
Qed.

Lemma reads_byte {A} m e (k : Z → K A) P :
  (∀ b, reads m (k b) P) → reads m (LoaderModule.CHECK_BUF e 1 ;+ let+ b := LoaderModule.read_uint8 e in k b) P.
Proof.
  intros Hk s Q F Hm HQ HF. apply wp_bind, wp_CHECK_BUF.
  - intros Hp. apply wp_bind, wp_read_byte; [lia|]. apply Hk; [done| |]; intros; [by apply (HQ _ _)|apply HF].
  - intros msg. rewrite <- (goto_here s). apply HF.
Qed.

Lemma reads_bytes2 {A} m e (k : Z → Z → K A) P :
  (∀ b c, reads m (k b c) P) →
  reads m (LoaderModule.CHECK_BUF e 2 ;+ let+ b := LoaderModule.read_uint8 e in
           let+ c := LoaderModule.read_uint8 e in k b c) P.
Proof.
  intros Hk s Q F Hm HQ HF. apply wp_bind, wp_CHECK_BUF.
  - intros Hp. apply wp_bind, wp_read_byte; [lia|]. apply wp_bind, wp_read_byte; [cbn; lia|].
    apply Hk; [done| |]; intros; [by apply (HQ _ _)|apply HF].
  - intros msg. rewrite <- (goto_here s). apply HF.
Qed.

Lemma reads_init m e vt : reads m (load_init_expr e vt) (init_ok vt).
Proof. intros s Q F _ HQ HF. by apply wp_load_init_expr. Qed.

(** A use of [reads] where failure keeps the invariant. *)
Lemma wp_reads {A} (c : K A) P hand (Q : A → loading → Prop) s :
  reads (md s) c P → ok old hand s → (∀ a p, P a → Q a (goto p s)) → wp c Q (ok old hand) s.
Proof. intros Hc Hok HQ. by apply Hc. Qed.

(** ** Types *)

Lemma wp_read_types e n : ∀ s (Q : list Z → loading → Prop) (F : loading → Prop),
  (∀ ts, zlen ts = Z.of_nat n → Q ts (goto (pos s + Z.of_nat n) s)) → (∀ msg p, F (err msg (goto p s))) →
  wp (read_types e n) Q F s.
Proof.
  induction n as [|n IH]; intros s Q F HQ HF; cbn [read_types].
  - apply wp_ret. specialize (HQ [] eq_refl). by rewrite Z.add_0_r, goto_here in HQ.
  - apply wp_bind, wp_CHECK_BUF; [|intros msg; specialize (HF msg (pos s)); by rewrite goto_here in HF].
    intros Hp. apply wp_bind, wp_read_byte; [lia|]. apply wp_bind, IH; [|intros msg p; apply (HF msg p)].
    intros ts Hl. apply wp_ret. assert (∀ t, zlen (t :: ts) = Z.of_nat (S n)) as Hz by (intros; rewrite zlen_cons; lia).
    specialize (HQ _ (Hz (load_Z (mem_of s) (pos s) 1))).
    replace (pos s + Z.of_nat (S n)) with (pos (goto (pos s + 1) s) + Z.of_nat n) in HQ by (cbn; lia). exact HQ.
Qed.

Lemma param_types_app params results m k :
  zlen params = m → zlen results = k →
  param_types (mkType m k (params ++ results)) = params ∧ result_types (mkType m k (params ++ results)) = results.
Proof.
  unfold param_types, result_types, zlen. cbn. intros <- <-. rewrite !Nat2Z.id.
  split; [apply take_app_length|]. by rewrite drop_app_length, firstn_all.
Qed.

Lemma type_cells_nonneg ts : 0 <= wasm_get_cell_num ts.
Proof.
  induction ts as [|t ts IH]; cbn [wasm_get_cell_num]; [lia|].
  assert (0 <= wasm_value_type_cell_num t); [|lia].
  unfold wasm_value_type_cell_num. repeat case_match; lia.
Qed.

Lemma cells_bound ts : wasm_get_cell_num ts <= 2 * zlen ts.
Proof.
  induction ts as [|t ts IH]; [done|]. cbn [wasm_get_cell_num]. rewrite zlen_cons.
  assert (wasm_value_type_cell_num t <= 2); [|lia].
  unfold wasm_value_type_cell_num. repeat case_match; lia.
Qed.

Lemma wp_load_type e s n b done s1 :
  zlen done < n → filling set_md_types [] s n b None done s1 →
  wp (load_type e (zlen done))
    (fun _ s2 => ∃ x, (∃ b t, x = Some (b, t) ∧ type_ok t)
       ∧ filling set_md_types [] s n b None (done ++ [x]) s2) oks s1.
Proof.
  intros Hd Hf. pose proof (proj1 Hf) as Hok. apply wp_bind, wp_CHECK_BUF; [|done]. intros Hp1.
  apply wp_bind, wp_read_byte; [lia|]. destruct (negb _); [by apply wp_kfail|].
  apply wp_bind, wp_section_leb; [|done]. intros params q1 _ Hparams _. apply wp_bind, wp_getl.
  apply wp_bind, wp_CHECK_BUF; [|done]. intros Hp2. apply wp_bind, wp_skip.
  apply wp_bind, wp_section_leb; [|done]. intros results q2 Eresults Hresults _.
  apply wp_bind, wp_CHECK_BUF; [|done]. intros Hp3. apply wp_bind, wp_set_p.
  unfold UINT16_MAX. destruct (Z.ltb_spec 65535 params); [by apply wp_kfail|].
  destruct (Z.ltb_spec 65535 results); [by apply wp_kfail|]. cbn [orb].
  set (s2 := goto _ _). assert (filling set_md_types [] s n b None done s2) as Hf2 by exact Hf.
  eapply (wp_take set_md_types); [exact Hf2|lia| |by intros s3 [? ? ? ?]].
  intros y a s3 Hf3 T. apply wp_bind.
  eapply (wp_fill_taken md_types set_md_types type_blocks); [reflexivity..|exact Hf3|exact T|exact Hd|reflexivity|reflexivity|].
  intros s4 E4 Hf5.
  pose proof (proj1 Hf5) as Hok5. assert (mem_of s4 = mem_of s2) as M by (unfold mem_of; rewrite E4; apply T).
  assert (pos s4 = q1) as P by (unfold pos; rewrite E4; apply T).
  apply wp_bind, wp_read_types; [|done]. intros ts1 L1. apply wp_bind, wp_section_leb; [|done].
  cbn [goto ld pos l_p set_l_p mem_of]. intros results' q3 Er _ _.
  assert (results' = results) as ->.
  { change (loader_leb_uint32 (mem_of s4) (pos s4 + Z.of_nat (Z.to_nat params)) e = Some (results', q3)) in Er.
    rewrite M, P, Z2Nat.id in Er by lia. cbn in Er, Eresults. congruence. }
  apply wp_bind, wp_read_types; [|done]. intros ts2 L2. rewrite Z2Nat.id in L1, L2 by lia.
  pose proof (type_cells_nonneg ts1). pose proof (type_cells_nonneg ts2).
  pose proof (cells_bound ts1). pose proof (cells_bound ts2).
  unfold uint32. rewrite (wrap_small 32 (wasm_get_cell_num ts1)), (wrap_small 32 (wasm_get_cell_num ts2)) by lia.
  destruct (Z.ltb_spec 65535 (wasm_get_cell_num ts1)); [by apply wp_kfail|].
  destruct (Z.ltb_spec 65535 (wasm_get_cell_num ts2)); [by apply wp_kfail|]. cbn [orb].
  eapply (wp_fill_again md_types set_md_types type_blocks); [reflexivity..|exact Hf5|exact Hd|done|by right|]. intros s6 _ Hf6.
  destruct (param_types_app ts1 ts2 params results L1 L2) as [E1 E2].
  eexists. split; [|exact Hf6]. do 2 eexists. split; [done|].
  constructor; cbn [ty param_count result_count types ty_param_cell_num ty_ret_cell_num]; rewrite ?E1, ?E2, ?zlen_app; lia || done.
Qed.

Lemma wp_load_type_section e s (Q : unit → loading → Prop) :
  oks s → md_types (md s) = no_elems →
  (∀ c strs s2, oks s2 → grows s s2 → md s2 = set_md_strings strs (set_md_types c (md s)) → types_ok c → Q tt s2) →
  wp (load_type_section e) Q oks s.
Proof.
  intros Hok Hb HQ. apply wp_bind, wp_section_leb; [|done]. intros n q _ Hn _.
  eapply (wp_array_section md_types set_md_types type_blocks); [reflexivity|exact Hok|exact Hb|done|lia|lia| |].
  - intros b done s1 _. apply wp_load_type.
  - intros c strs s2 H2 H3 H4 _. by apply (HQ c strs).
Qed.

(** ** Tables and memories *)

Lemma adjust_range init flags max :
  0 <= init < 2 ^ 32 → 0 <= max < 2 ^ 32 → (flags ≠ 0 → init <= max) →
  init < 2 ^ 31 → init <= adjust_table_max_size init flags max < 2 ^ 32.
Proof.
  intros Hi Hm Hf Hs. unfold adjust_table_max_size, TABLE_MAX_SIZE, uint32. rewrite wrap_small by lia.
  destruct (Z.eqb_spec flags 0); cbn [negb]; repeat zcase; lia.
Qed.

Definition limits_ok (l : Z * Z) : Prop := 0 <= l.1 < 2 ^ 32 ∧ (l.1 < 2 ^ 31 → l.1 <= l.2 < 2 ^ 32).

Lemma reads_table_limits m e flags : reads m (table_limits e flags) limits_ok.
Proof.
  eapply reads_bind; [apply reads_leb|]. intros init Hi.
  eapply (reads_bind _ _ _ (fun max => 0 <= max < 2 ^ 32 ∧ (flags ≠ 0 → init <= max))).
  - destruct (Z.eqb_spec flags 0) as [->|Hf]; cbn [negb]; [by apply reads_ret|].
    eapply reads_bind; [apply reads_leb|]. intros max Hm.
    eapply (reads_bind _ _ _ (fun _ => init <= max)); [|intros _ Hle; by apply reads_ret].
    unfold check_table_max_size. destruct (Z.ltb_spec max init); [apply reads_fail|by apply reads_ret].
  - intros max [Hm Hf]. apply reads_ret. split; [done|]. intros. by apply adjust_range.
Qed.

Lemma reads_flags m e : reads m (read_flags e) (fun f => f = 0 ∨ f = 1).
Proof.
  intros s Q F _ HQ HF. apply wp_bind, wp_getl, wp_bind, wp_section_leb.
  - intros f q _ Hf Hq. apply wp_bind, wp_getl. destruct (1 <? _); [apply wp_kfail, HF|].
    destruct (Z.ltb_spec 1 f); [apply wp_kfail, HF|]. apply wp_ret, HQ. lia.
  - intros msg. rewrite <- (goto_here s). apply HF.
Qed.

Lemma reads_load_table m e : reads m (load_table e) table_ok.
Proof.
  apply reads_byte. intros b. destruct (Z.eqb_spec VALUE_TYPE_FUNCREF b) as [<-|]; cbn [negb]; [|apply reads_fail].
  eapply reads_bind; [apply reads_flags|]. intros f _. eapply reads_bind; [apply reads_table_limits|].
  intros [init max] [H3 H4]. by apply reads_ret.
Qed.

(** An element that is read and stored. *)
Lemma wp_fill_read {A} (get : module_obj → counted A) set bl `{!Field get set bl} (c : K A) (P : A → Prop)
    s n b blank done s1 :
  (∀ c x m, set c (set_md_strings x m) = set_md_strings x (set c m)) →
  (∀ x m, get (set_md_strings x m) = get m) →
  filling set [] s n b blank done s1 → zlen done < n → (∀ x, bl x = []) → (∀ m, reads m c P) →
  wp (let+ t := c in put get set (zlen done) t)
    (fun _ s2 => ∃ x, P x ∧ filling set [] s n b blank (done ++ [x]) s2) oks s1.
Proof.
  intros Hstr Hget Hf Hd Hbl Hc. apply wp_bind. eapply wp_reads; [apply Hc|apply Hf|].
  intros x p Hx. eapply (wp_fill_new get set bl); [done..|exact Hf|exact Hd|apply Hbl|by rewrite Hbl|]. intros s2 _ Hf2. by exists x.
Qed.

Lemma one_of_two i n : 0 <= i <= 1 → 0 <= n <= 2 ^ 30 → uint32 (i + n) <= 1 → i + n <= 1.
Proof. intros Hi Hn. unfold uint32. rewrite wrap_small by lia. done. Qed.

Lemma wp_load_table_section e s (Q : unit → loading → Prop) :
  oks s → md_tables (md s) = no_elems → 0 <= m_import_table_count (md_imports (md s)) <= 1 →
  (∀ c strs s2, oks s2 → grows s s2 → md s2 = set_md_strings strs (set_md_tables c (md s)) →
     loaded table_ok c → m_import_table_count (md_imports (md s)) + count c <= 1 → Q tt s2) →
  wp (load_table_section e) Q oks s.
Proof.
  intros Hok Hb Hi HQ. apply wp_bind, wp_section_leb; [|done]. intros n q _ Hn _. apply wp_bind, wp_getm.
  destruct (Z.ltb_spec 1 (uint32 (m_import_table_count (md_imports (md (goto q s))) + n))) as [|Hle]; [by apply wp_kfail|].
  eapply (wp_array_section md_tables set_md_tables no_blocks); [reflexivity|exact Hok|exact Hb|done|by vm_compute|lia| |].
  - intros b done s1 _ ??. by apply (wp_fill_read md_tables set_md_tables no_blocks); [..|intros; apply reads_load_table].
  - intros c strs s2 Hok2 G D Hc Hl. eapply HQ; [done|exact G|exact D|done|].
    eapply one_of_two; [exact Hi| |by rewrite Hc]. rewrite (ld_count _ _ Hl).
    split; [apply zlen_nonneg|apply (ld_bound _ _ Hl)].
Qed.

Section memory.
Context (statics : memory_statics).

Lemma reads_memory_limits m e flags :
  reads m (memory_limits statics e flags) (fun l => 0 <= l.1 <= 65536).
Proof.
  eapply reads_bind; [apply reads_leb|]. intros init Hi.
  eapply (reads_bind _ _ _ (fun _ => init <= 65536)).
  { unfold check_memory_init_size. destruct (Z.ltb_spec 65536 init); [apply reads_fail|by apply reads_ret]. }
  cbv beta in Hi. intros _ Hle. cbv beta in Hle.
  eapply (reads_bind _ _ _ (fun _ => True)); [|intros; apply reads_ret; cbn; lia].
  destruct (negb _); [|by apply reads_ret]. eapply reads_bind; [apply reads_leb|]. intros max Hm.
  eapply (reads_bind _ _ _ (fun _ => True)); [|intros; by apply reads_ret].
  unfold check_memory_max_size. repeat case_match; try apply reads_fail. by apply reads_ret.
Qed.

Lemma reads_load_memory m e : reads m (load_memory statics e) memory_ok.
Proof.
  eapply reads_bind; [apply reads_flags|]. intros f _. eapply reads_bind; [apply reads_memory_limits|].
  intros l Hl. apply reads_ret. by left.
Qed.

Lemma wp_load_memory_section e s (Q : unit → loading → Prop) :
  oks s → md_memories (md s) = no_elems → 0 <= m_import_memory_count (md_imports (md s)) <= 1 →
  (∀ c strs s2, oks s2 → grows s s2 → md s2 = set_md_strings strs (set_md_memories c (md s)) →
     loaded memory_ok c → m_import_memory_count (md_imports (md s)) + count c <= 1 → Q tt s2) →
  wp (load_memory_section statics e) Q oks s.
Proof.
  intros Hok Hb Hi HQ. apply wp_bind, wp_section_leb; [|done]. intros n q _ Hn _. apply wp_bind, wp_getm.
  destruct (Z.ltb_spec 1 (uint32 (m_import_memory_count (md_imports (md (goto q s))) + n))) as [|Hle]; [by apply wp_kfail|].
  eapply (wp_array_section md_memories set_md_memories no_blocks); [reflexivity|exact Hok|exact Hb|done|by vm_compute|lia| |].
  - intros b done s1 _ ??. by apply (wp_fill_read md_memories set_md_memories no_blocks); [..|intros; apply reads_load_memory].
  - intros c strs s2 Hok2 G D Hc Hl. eapply HQ; [done|exact G|exact D|done|].
    eapply one_of_two; [exact Hi| |by rewrite Hc]. rewrite (ld_count _ _ Hl).
    split; [apply zlen_nonneg|apply (ld_bound _ _ Hl)].
Qed.

End memory.

(** ** Globals *)

Lemma wp_load_global e s n b done s1 :
  filling set_md_globals [] s n b blank_global done s1 → zlen done < n →
  wp (load_global e (zlen done))
    (fun _ s2 => ∃ x, global_ok (import_global_count (md_imports (md s))) x
       ∧ filling set_md_globals [] s n b blank_global (done ++ [x]) s2) oks s1.
Proof.
  intros Hf Hd. pose proof (proj1 Hf) as Hok. apply wp_bind, wp_CHECK_BUF; [|done]. intros Hp.
  apply wp_bind, wp_read_byte; [lia|]. set (vt := load_Z _ _ _). apply wp_bind, wp_read_byte; [cbn; lia|].
  destruct (2 <=? _); [by apply wp_kfail|]. apply wp_bind, wp_load_init_expr; [|done].
  intros init p Hi. apply wp_bind.
  eapply (wp_fill_new md_globals set_md_globals no_blocks); [reflexivity..|exact Hf|exact Hd|reflexivity|done|].
  intros s2 _ Hf2. destruct init as [| | | | |i]; cbn in Hi; try done; try (apply wp_ret; eexists; split; [|exact Hf2]; exact Hi).
  apply wp_bind, wp_getm. assert (md_imports (md s2) = md_imports (md s)) as -> by (by destruct Hf2 as (_&_&strs&->)).
  destruct (Z.leb_spec (import_global_count (md_imports (md s))) i); [apply wp_kfail; apply Hf2|].
  apply wp_ret. eexists. split; [|exact Hf2]. cbn. lia.
Qed.

Lemma wp_load_global_section e s (Q : unit → loading → Prop) :
  oks s → md_globals (md s) = no_elems →
  (∀ c strs s2, oks s2 → grows s s2 → md s2 = set_md_strings strs (set_md_globals c (md s)) →
     loaded (global_ok (import_global_count (md_imports (md s)))) c → Q tt s2) →
  wp (load_global_section e) Q oks s.
Proof.
  intros Hok Hb HQ. apply wp_bind, wp_section_leb; [|done]. intros n q _ Hn _.
  eapply (wp_array_section md_globals set_md_globals no_blocks); [reflexivity|exact Hok|exact Hb|done|by vm_compute|lia| |].
  - intros b done s1 _ ??. by apply wp_load_global.
  - intros c strs s2 H2 H3 H4 _. by apply (HQ c strs).
Qed.

(** ** Exports *)

Lemma wp_load_export e s n b done s1 :
  filling set_md_exports [] s n b blank_export done s1 → zlen done < n →
  wp (load_export e (zlen done))
    (fun _ s2 => ∃ x, export_ok (md s) x ∧ filling set_md_exports [] s n b blank_export (done ++ [x]) s2) oks s1.
Proof.
  intros Hf Hd. pose proof (proj1 Hf) as Hok. apply wp_bind, wp_section_leb; [|done]. intros len q _ Hlen _.
  apply wp_bind, wp_CHECK_BUF; [|done]. intros Hp. apply wp_bind, wp_bytes_here; [lia|].
  apply wp_bind, wp_getm. destruct (existsb _ _); [by apply wp_kfail|].
  apply wp_bind. eapply wp_const_str_list_insert; [exact Hok| |done].
  intros node strs s2 D2 Hu M2 P2 Hok2 G2.
  assert (filling set_md_exports [] s n b blank_export done s2) as Hf2.
  { eapply filling_strings; [exact Hf|exact D2|done|exact G2]. }
  apply wp_bind, wp_skip. apply wp_bind, wp_CHECK_BUF; [|done]. intros Hp2. apply wp_bind, wp_read_byte; [lia|].
  apply wp_bind, wp_section_leb; [|done]. intros i q2 _ Hi _. apply wp_bind.
  eapply (wp_fill_new md_exports set_md_exports no_blocks); [reflexivity..|exact Hf2|exact Hd|reflexivity|done|].
  intros s3 _ Hf3. set (k := load_Z _ _ _) in *. apply wp_bind, wp_getm.
  assert (exported k (md s3) = exported k (md s)) as -> by (by destruct Hf3 as (_&_&strs3&->)).
  pose proof (proj1 Hf3) as Hok3. destruct (exported k (md s)) as [[m msg]|] eqn:Ek; [|by apply wp_kfail].
  destruct (Z.leb_spec m i); [by apply wp_kfail|]. apply wp_ret. eexists. split; [|exact Hf3].
  split; [done|]. exists m, msg. split; [done|cbn; lia].
Qed.

Lemma wp_load_export_section e s (Q : unit → loading → Prop) :
  oks s → md_exports (md s) = no_elems →
  (∀ c strs s2, oks s2 → grows s s2 → md s2 = set_md_strings strs (set_md_exports c (md s)) →
     loaded (export_ok (md s)) c → Q tt s2) →
  wp (load_export_section e) Q oks s.
Proof.
  intros Hok Hb HQ. apply wp_bind, wp_section_leb; [|done]. intros n q _ Hn _.
  eapply (wp_array_section md_exports set_md_exports no_blocks); [reflexivity|exact Hok|exact Hb|done|by vm_compute|lia| |].
  - intros b done s1 _ ??. by apply wp_load_export.
  - intros c strs s2 H2 H3 H4 _. by apply (HQ c strs).
Qed.

(** ** Segments *)

Lemma reads_check_table_index m i :
  m_import_table_count (md_imports m) + count (md_tables m) <= 1 →
  0 <= m_import_table_count (md_imports m) → 0 <= count (md_tables m) →
  reads m (check_table_index i)
    (fun _ => i = 0 ∧ m_import_table_count (md_imports m) + count (md_tables m) = 1).
Proof.
  intros H1' H2' H3'. do 2 apply reads_getm. destruct (Z.eqb_spec i 0) as [->|]; cbn [negb]; [|apply reads_fail].
  unfold uint32. rewrite wrap_small by lia.
  destruct (Z.leb_spec (m_import_table_count (md_imports m) + count (md_tables m)) 0); [apply reads_fail|].
  apply reads_ret. lia.
Qed.

Lemma reads_function_index m i :
  0 <= i → reads m (Sections.check_function_index i) (fun _ => 0 <= i < all_functions m).
Proof.
  intros Hi. apply reads_getm. destruct (Z.leb_spec (all_functions m) i); [apply reads_fail|by apply reads_ret].
Qed.

Lemma reads_func_indexes m e n :
  reads m (load_func_indexes e n) (fun l => zlen l = Z.of_nat n ∧ Forall (fun i => 0 <= i < all_functions m) l).
Proof.
  induction n as [|n IH]; cbn [load_func_indexes]; [by apply reads_ret|].
  eapply reads_bind; [apply reads_leb|]. intros i Hi. eapply reads_bind; [apply reads_function_index, Hi|].
  intros [] Hi'. eapply reads_bind; [exact IH|]. intros l [Hl HF]. apply reads_ret.
  split; [rewrite zlen_cons; lia|by constructor].
Qed.

Lemma init_offset i : init_ok VALUE_TYPE_I32 i → offset_ok i.
Proof. by destruct i. Qed.

Lemma wp_load_table_segment e s n b done s1 :
  filling set_md_table_segments [] s n b blank_segment done s1 → zlen done < n →
  m_import_table_count (md_imports (md s)) + count (md_tables (md s)) <= 1 →
  0 <= m_import_table_count (md_imports (md s)) → 0 <= count (md_tables (md s)) →
  wp (load_table_segment e (zlen done))
    (fun _ s2 => ∃ x, segment_ok (md s) x ∧ filling set_md_table_segments [] s n b blank_segment (done ++ [x]) s2) oks s1.
Proof.
  intros Hf Hd C1 C2 C3. pose proof (proj1 Hf) as Hok. destruct Hf as (_&G&strs&D).
  assert (filling set_md_table_segments [] s n b blank_segment done s1) as Hf by (split_and!; [done|done|by exists strs]).
  apply wp_bind, wp_getl. destruct (_ <=? _); [by apply wp_kfail|].
  apply wp_bind. eapply (wp_reads _ (fun i => i = 0 ∧ m_import_table_count (md_imports (md s)) + count (md_tables (md s)) = 1));
    [|exact Hok|].
  { eapply reads_bind; [apply reads_leb|]. intros i Hi.
    eapply reads_bind; [apply reads_check_table_index; by rewrite D|]. intros _ [-> Ht]. apply reads_ret.
    split; [done|]. by rewrite D in Ht. }
  intros ti p1 [-> Ht]. apply wp_bind, wp_load_init_expr; [|done]. intros off p2 Hoff%init_offset.
  apply wp_bind, wp_section_leb; [|done]. intros fc q _ Hfc _. set (s2 := goto _ _).
  assert (filling set_md_table_segments [] s n b blank_segment done s2) as Hf2 by exact Hf.
  destruct (Z.ltb_spec 0 (4 * fc)) as [Hpos|Hzero].
  - apply wp_bind. eapply wp_malloc_block; [exact Hok|lia| |done]. intros y a s3 B Hok3 G3.
    pose proof (filling_fresh _ _ _ _ _ _ _ _ _ _ _ _ Hf2 B Hok3 G3) as Hf3. apply wp_bind.
    eapply (wp_fill_new md_table_segments set_md_table_segments segment_blocks);
      [reflexivity..|exact Hf3|exact Hd|reflexivity|by intros z ->%list_elem_of_singleton; left|].
    intros s4 E4 Hf4. apply wp_bind.
    eapply (wp_alloc_info old y _ _ [y] s2); [apply B|exists None; unfold heap_of; rewrite E4; apply B
      |by eapply fresh_not_old, B|by left|apply Hf4| |].
    { destruct G3 as [K1 K2 K3]. constructor; unfold heap_of, mem_of in *; rewrite E4; done. }
    intros s5 L5 _ M5 P5 D5 Hok5 G5.
    match type of Hf4 with filling _ _ _ _ _ _ (_ ++ [?x]) _ => set (x0 := x) in * end.
    assert (filling set_md_table_segments [] s n b blank_segment (done ++ [x0]) s5) as Hf5.
    { eapply (filling_settle md_table_segments set_md_table_segments segment_blocks);
        [reflexivity| |by left|exact L5].
      destruct Hf4 as (_&_&D4). split_and!; [done|by eapply grows_trans; [apply Hf2|]|by rewrite D5]. }
    pose proof (proj1 Hf5) as Hok5'. apply wp_bind. eapply wp_reads; [apply reads_func_indexes|done|].
    intros l p3 [Hl HF]. 
    eapply (wp_fill_again md_table_segments set_md_table_segments segment_blocks);
      [reflexivity..|exact Hf5|exact Hd|done|by right|].
    intros s6 _ Hf6. eexists. split; [|exact Hf6]. split_and!; [done|done|done|]. cbn. split; [lia|].
    destruct Hf5 as (_&_&strs5&D5'). by rewrite D5' in HF.
  - eapply (wp_fill_new md_table_segments set_md_table_segments segment_blocks);
      [reflexivity..|exact Hf2|exact Hd|reflexivity|done|].
    intros s3 _ Hf3. eexists. split; [|exact Hf3]. split_and!; [done|done|done|]. cbn. lia.
Qed.

Lemma wp_load_table_segment_section e s (Q : unit → loading → Prop) :
  oks s → md_table_segments (md s) = no_elems →
  m_import_table_count (md_imports (md s)) + count (md_tables (md s)) <= 1 →
  0 <= m_import_table_count (md_imports (md s)) → 0 <= count (md_tables (md s)) →
  (∀ c strs s2, oks s2 → grows s s2 → md s2 = set_md_strings strs (set_md_table_segments c (md s)) →
     loaded (segment_ok (md s)) c → Q tt s2) →
  wp (load_table_segment_section e) Q oks s.
Proof.
  intros Hok Hb C1 C2 C3 HQ. apply wp_bind, wp_section_leb; [|done]. intros n q _ Hn _.
  eapply (wp_array_section md_table_segments set_md_table_segments segment_blocks);
    [reflexivity|exact Hok|exact Hb|done|by vm_compute|lia| |].
  - intros b done s1 _ ??. by apply wp_load_table_segment.
  - intros c strs s2 H2 H3 H4 _. by apply (HQ c strs).
Qed.

Lemma wp_load_data_segment e s n b done s1 :
  filling set_md_data_segments [] s n b None done s1 → zlen done < n →
  m_import_memory_count (md_imports (md s)) + count (md_memories (md s)) <= 1 →
  0 <= m_import_memory_count (md_imports (md s)) → 0 <= count (md_memories (md s)) →
  wp (load_data_segment e (zlen done))
    (fun _ s2 => ∃ x, data_ok (md s) x ∧ filling set_md_data_segments [] s n b None (done ++ [x]) s2) oks s1.
Proof.
  intros Hf Hd C1 C2 C3. pose proof (proj1 Hf) as Hok. destruct (proj2 Hf) as (_&strs&D).
  apply wp_bind, wp_section_leb; [|done]. intros mi q _ Hmi _. do 2 apply wp_bind, wp_getm.
  assert (m_import_memory_count (md_imports (md (goto q s1))) + count (md_memories (md (goto q s1)))
    = m_import_memory_count (md_imports (md s)) + count (md_memories (md s))) as -> by (cbn; by rewrite D).
  unfold uint32. rewrite wrap_small by lia.
  destruct (Z.leb_spec (m_import_memory_count (md_imports (md s)) + count (md_memories (md s))) mi); [by apply wp_kfail|].
  apply wp_bind, wp_load_init_expr; [|done]. intros off p2 Hoff%init_offset.
  apply wp_bind, wp_section_leb; [|done]. intros len q2 _ Hlen _. set (s2 := goto _ _).
  assert (filling set_md_data_segments [] s n b None done s2) as Hf2 by exact Hf.
  eapply (wp_take set_md_data_segments); [exact Hf2|by vm_compute| |by intros s3 [? ? ? ?]].
  intros y a s3 Hf3 T. apply wp_bind.
  eapply (wp_fill_taken md_data_segments set_md_data_segments data_blocks); [reflexivity..|exact Hf3|exact T|exact Hd|reflexivity|reflexivity|].
  intros s4 E4 Hf4. pose proof (proj1 Hf4) as Hok4. apply wp_bind, wp_CHECK_BUF; [|done]. intros Hp.
  eapply (wp_take set_md_data_segments); [exact Hf4|lia| |by intros s5 [? ? ? ?]].
  intros y2 a2 s5 Hf5 T2. pose proof (filling_bytes _ _ _ _ _ _ _ _ _ _ _ _ _ Hf5 T2) as Hf6.
  apply wp_bind. eapply (wp_fill_copy set_md_data_segments); [exact Hf6|exact T2|apply Hf4|lia|rewrite (tk_pos _ _ _ _ _ _ _ T2); lia|].
  intros s6 _ _ _ Hf7 _. apply wp_bind.
  eapply (wp_fill_again md_data_segments set_md_data_segments data_blocks); [reflexivity..|exact Hf7|exact Hd|done|by right|].
  intros s7 _ Hf8. apply wp_skip. eexists. split; [|exact Hf8]. eexists. split_and!; [done|cbn; lia|lia|done].
Qed.

Lemma wp_load_data_segment_section e s (Q : unit → loading → Prop) :
  oks s → md_data_segments (md s) = no_elems →
  m_import_memory_count (md_imports (md s)) + count (md_memories (md s)) <= 1 →
  0 <= m_import_memory_count (md_imports (md s)) → 0 <= count (md_memories (md s)) →
  (∀ c strs s2, oks s2 → grows s s2 → md s2 = set_md_strings strs (set_md_data_segments c (md s)) →
     loaded (data_ok (md s)) c → Q tt s2) →
  wp (load_data_segment_section e) Q oks s.
Proof.
  intros Hok Hb C1 C2 C3 HQ. apply wp_bind, wp_section_leb; [|done]. intros n q _ Hn _.
  eapply (wp_array_section md_data_segments set_md_data_segments data_blocks);
    [reflexivity|exact Hok|exact Hb|done|by vm_compute|lia| |].
  - intros b done s1 _ ??. by apply wp_load_data_segment.
  - intros c strs s2 H2 H3 H4 _. by apply (HQ c strs).
Qed.

(** ** Sections that load nothing *)

Lemma wp_load_code_section e buf_func s (Q : unit → loading → Prop) :
  oks s → (∀ p, Q tt (goto p s)) → wp (load_code_section e buf_func) Q oks s.
Proof.
  intros Hok HQ. apply wp_bind, wp_section_leb; [|done]. intros n q _ _ _.
  assert (∀ m, wp (if negb (m =? n) then fail "function and code section have inconsistent lengths" else lret tt)
    Q oks (goto q s)) as Hend.
  { intros m. destruct (negb _); [by apply wp_kfail|]. apply wp_ret, HQ. }
  apply wp_bind. destruct buf_func as [[buf buf_end]|]; [|by apply wp_ret].
  apply wp_bind, wp_at_cursor, wp_section_leb; [|done]. intros v q2 _ _ _. apply wp_ret. exact (Hend v).
Qed.

Lemma wp_load_user_section e s (Q : unit → loading → Prop) :
  oks s → (∀ p, Q tt (goto p s)) → wp (load_user_section e) Q oks s.
Proof.
  intros Hok HQ. apply wp_bind, wp_getl. destruct (_ <=? _); [by apply wp_kfail|].
  apply wp_bind, wp_section_leb; [|done]. intros len q _ Hlen _. apply wp_bind, wp_getl.
  destruct (len =? 0); [by apply wp_kfail|]. cbn [orb].
  destruct (Z.ltb_spec e (l_p (ld (goto q s)) + len)); [by apply wp_kfail|].
  apply wp_bind, wp_bytes_here; [done|]. destruct (negb _); [by apply wp_kfail|]. apply wp_ret, HQ.
Qed.

End proofs.
