(* ===== verification/ImportProofs.v ===== *)
(** The import section: the scan that counts and the scan that loads read the same
    imports, so that every import finds its place; and the start section. *)
From stdpp Require Import base gmap list numbers strings.
From Stdlib Require Import Strings.Byte ZArith Lia.
From S2P Require Import Prelude CMemory WasmTypes Opcodes Leb FindBlock LoaderCtx Validate Typing Wp.
From S2P Require Import LoaderInv LoaderStep LoaderModule MemInit Sections LoadModule LoadInv Loaded SectionProofs.

(** * Using the imports *)

Lemma index_drop {A} (l k : list A) j : 0 <= j → index (l ++ k) (zlen l + j) = index k j.
Proof. intros Hj. rewrite index_app_r by lia. f_equal. lia. Qed.

Lemma part_drop {A} (l k r : list A) n : n = zlen k →
  take (Z.to_nat n) (drop (Z.to_nat (zlen l)) (l ++ k ++ r)) = k.
Proof.
  intros ->. unfold zlen. rewrite !Nat2Z.id, drop_app_length. apply take_app_length.
Qed.

Section imports.
Context (ts : types_array) (i : import_info) (Hok : imports_ok ts i).

Lemma imports_bounds :
  0 <= import_function_count i ∧ 0 <= m_import_table_count i <= 1 ∧ 0 <= m_import_memory_count i <= 1
  ∧ 0 <= import_global_count i
  ∧ import_function_count i + m_import_table_count i + m_import_memory_count i + import_global_count i <= 2 ^ 30.
Proof using Hok.
  destruct Hok as [(fs&tabs&mems&globs&E&<-&<-&<-&<-&_) _ Hb [? ?] _ _ _ _].
  rewrite E, !zlen_app in Hb.
  pose proof (zlen_nonneg fs); pose proof (zlen_nonneg tabs); pose proof (zlen_nonneg mems);
    pose proof (zlen_nonneg globs). lia.
Qed.

(** The imported functions. *)
Lemma imports_functions :
  zlen (imports_from (import_functions_at i) (import_function_count i) i) = import_function_count i
  ∧ Forall (function_import ts) (imports_from (import_functions_at i) (import_function_count i) i)
  ∧ ∀ j, 0 <= j < import_function_count i → import_functions_at i = Some 0
      ∧ index (elems (md_import_array i)) j
        = index (imports_from (import_functions_at i) (import_function_count i) i) j.
Proof using Hok.
  destruct Hok as [(fs&tabs&mems&globs&E&Hf&_&_&_&HF&_) _ _ _ Ha _ _ _]. rewrite Ha. unfold place_of, imports_from.
  destruct (Z.eqb_spec (import_function_count i) 0) as [Hz|Hz].
  - rewrite Hz. split_and!; [done|done|]. intros j Hj. lia.
  - rewrite E. pose proof (part_drop [] fs (tabs ++ mems ++ globs) _ (eq_sym Hf)) as Hp. cbn [app] in Hp.
    change (Z.to_nat 0) with (Z.to_nat (zlen (@nil import_obj))). rewrite Hp. split_and!; [done|done|]. intros j Hj. split; [done|].
    apply index_app_l. lia.
Qed.

Lemma imports_globals :
  zlen (imports_from (import_globals_at i) (import_global_count i) i) = import_global_count i
  ∧ Forall global_import (imports_from (import_globals_at i) (import_global_count i) i).
Proof using Hok.
  destruct Hok as [(fs&tabs&mems&globs&E&Hf&Ht&Hm&Hg&_&_&_&HF) _ _ _ _ _ _ Ha]. rewrite Ha. unfold place_of, imports_from.
  destruct (Z.eqb_spec (import_global_count i) 0) as [Hz|Hz]; [by rewrite Hz|].
  rewrite E. pose proof (part_drop (fs ++ tabs ++ mems) globs [] _ (eq_sym Hg)) as Hp.
  rewrite app_nil_r, !zlen_app, Hf, Ht, Hm, <- !app_assoc, Z.add_assoc in Hp. by rewrite Hp.
Qed.

(** The imported memory. *)
Lemma imports_memory : m_import_memory_count i ≠ 0 →
  ∃ at_ x m, import_memories_at i = Some at_ ∧ index (elems (md_import_array i)) at_ = Some x
    ∧ i_u x = ImportMemory m ∧ memory_ok m.
Proof using Hok.
  destruct Hok as [(fs&tabs&mems&globs&E&Hf&Ht&Hm&Hg&_&_&HF&_) _ _ _ _ _ Ha _]. intros Hz.
  rewrite Ha. unfold place_of. rewrite (proj2 (Z.eqb_neq _ _)) by done.
  destruct mems as [|x mems]; [done|]. apply Forall_cons in HF as [(m&?&?) _].
  exists (import_function_count i + m_import_table_count i), x, m. split_and!; [done| |done|done].
  rewrite E, app_assoc, index_app_r by (rewrite zlen_app; lia). rewrite zlen_app, Hf, Ht, Z.sub_diag. done.
Qed.

End imports.

(** * Where an import ends *)

Definition name_end (m : mem) (e p : Z) : option Z :=
  match loader_leb_uint32 m p e with
  | Some (n, q) => if q + n <=? e then Some (q + n) else None
  | None => None
  end.

(** A minimum and perhaps a maximum. *)
Definition range_end (m : mem) (e p : Z) (max : bool) : option Z :=
  '(_, p) ← loader_leb_uint32 m p e;
  if max then snd <$> loader_leb_uint32 m p e else Some p.

Definition limits_end (m : mem) (e p : Z) : option Z :=
  '(flags, p) ← loader_leb_uint32 m p e;
  range_end m e p (negb (Z.land flags 1 =? 0)).

(** The kind of an import and its end. *)
Definition import_span (m : mem) (e p : Z) : option (Z * Z) :=
  p ← name_end m e p;
  p ← name_end m e p;
  let kind := load_Z m p 1 in
  q ← (if kind =? IMPORT_KIND_FUNC then snd <$> loader_leb_uint32 m (p + 1) e
       else if kind =? IMPORT_KIND_TABLE then limits_end m e (p + 2)
       else if kind =? IMPORT_KIND_MEMORY then limits_end m e (p + 1)
       else if kind =? IMPORT_KIND_GLOBAL then Some (p + 3) else None);
  Some (kind, q).

Fixpoint spans (m : mem) (e p : Z) (ks : list Z) (q : Z) : Prop :=
  match ks with
  | [] => p = q
  | k :: ks => ∃ p', import_span m e p = Some (k, p') ∧ spans m e p' ks q
  end.

Lemma spans_snoc m e ks k q q' : ∀ p,
  spans m e p ks q → import_span m e q = Some (k, q') → spans m e p (ks ++ [k]) q'.
Proof.
  induction ks as [|k' ks IH]; intros p; cbn; [intros ->; eauto|].
  intros (p'&Hp&Hs) Hq. exists p'. split; [done|]. by apply IH.
Qed.

(** The number of imports of a kind. *)
Definition cnt (k : Z) (ks : list Z) : Z := zlen (filter (k =.) ks).

Lemma cnt_app k ks ks' : cnt k (ks ++ ks') = cnt k ks + cnt k ks'.
Proof. unfold cnt. by rewrite filter_app, zlen_app. Qed.

Lemma cnt_one k k' : cnt k [k'] = Z.b2z (k' =? k).
Proof.
  unfold cnt. rewrite filter_cons, filter_nil. destruct (decide (k = k')) as [->|Hn]; [by rewrite Z.eqb_refl|].
  by rewrite (proj2 (Z.eqb_neq _ _)).
Qed.

Lemma cnt_nonneg k ks : 0 <= cnt k ks.
Proof. apply zlen_nonneg. Qed.

Definition kinds (ks : list Z) : Prop := Forall (fun k => 0 <= k <= 3) ks.

Lemma cnt_sum ks : kinds ks → cnt 0 ks + cnt 1 ks + cnt 2 ks + cnt 3 ks = zlen ks.
Proof.
  induction 1 as [|k ks Hk _ IH]; [done|]. change (k :: ks) with ([k] ++ ks).
  rewrite !cnt_app, !cnt_one, zlen_app, <- IH. change (zlen [k]) with 1. repeat zcase; cbn; lia.
Qed.

Lemma cnt_le k ks : kinds ks → 0 <= k <= 3 → cnt k ks <= zlen ks.
Proof.
  intros H Hk. rewrite <- (cnt_sum ks H).
  pose proof (cnt_nonneg 0 ks); pose proof (cnt_nonneg 1 ks); pose proof (cnt_nonneg 2 ks); pose proof (cnt_nonneg 3 ks).
  assert (k = 0 ∨ k = 1 ∨ k = 2 ∨ k = 3) as [-> |[-> |[-> | ->]]] by lia; lia.
Qed.

(** The module when the imports of kinds [ks] are counted. *)
Definition counts (ks : list Z) (i : import_info) : import_info :=
  mkImportInfo (md_import_array i) (cnt 0 ks) (cnt 1 ks) (cnt 2 ks) (cnt 3 ks)
    (import_functions_at i) (import_tables_at i) (import_memories_at i) (import_globals_at i).

Definition set_counts (ks : list Z) (m : module_obj) : module_obj := set_md_imports (counts ks (md_imports m)) m.

Section proofs.
Context `{PlacedPool} (old : before).

Abbreviation oks := (ok old []).

(** ** The scan that counts *)

Lemma wp_skip_name e s (Q : unit → loading → Prop) (F : loading → Prop) :
  (∀ q, name_end (mem_of s) e (pos s) = Some q → Q tt (goto q s)) → (∀ msg p, F (err msg (goto p s))) →
  wp (skip_name e) Q F s.
Proof.
  intros HQ HF. apply wp_bind, wp_section_leb; [|intros msg; rewrite <- (goto_here s); apply HF].
  intros n q E Hn _. apply wp_bind, wp_CHECK_BUF; [|intros; apply HF]. intros Hp. apply wp_skip, HQ.
  unfold name_end. rewrite E. cbn in Hp |- *. by rewrite (proj2 (Z.leb_le _ _)).
Qed.

Lemma wp_skip_limits e s (Q : unit → loading → Prop) (F : loading → Prop) :
  (∀ q, limits_end (mem_of s) e (pos s) = Some q → Q tt (goto q s)) → (∀ msg p, F (err msg (goto p s))) →
  wp (skip_limits e) Q F s.
Proof.
  intros HQ HF. unfold limits_end, range_end in HQ.
  apply wp_bind, wp_section_leb; [|intros msg; rewrite <- (goto_here s); apply HF]. intros f q E _ _. rewrite E in HQ.
  apply wp_bind, wp_section_leb; [|intros; apply HF]. intros v q2 E2 _ _. change (loader_leb_uint32 (mem_of s) q e = Some (v, q2)) in E2.
  cbn in HQ. rewrite E2 in HQ. cbn in HQ.
  destruct (Z.land f 1 =? 0); cbn [negb]; [by apply wp_ret, (HQ q2)|].
  apply wp_bind, wp_section_leb; [|intros; apply HF]. intros w q3 E3 _ _. change (loader_leb_uint32 (mem_of s) q2 e = Some (w, q3)) in E3.
  rewrite E3 in HQ.
  by apply wp_ret, (HQ q3).
Qed.

(** ** The start function *)

Lemma wp_load_start_section e s (Q : unit → loading → Prop) :
  oks s → types_ok (md_types (md s)) → imports_ok (md_types (md s)) (md_imports (md s)) →
  functions_ok (md_types (md s)) (heap_of s) (md_functions (md s)) →
  (∀ f p, start_ok (set_md_start_function f (md s)) → Q tt (with_md (set_md_start_function f) (goto p s))) →
  wp (load_start_section e) Q oks s.
Proof.
  intros Hok Ht Hi [Hf _] HQ. apply wp_bind, wp_section_leb; [|done]. intros f q _ Hr _.
  pose proof (imports_bounds _ _ Hi) as Hb. destruct (imports_functions _ _ Hi) as (Hl&HF&Hp).
  assert (0 <= count (md_functions (md s)) <= 2 ^ 30) as Hc.
  { rewrite (ld_count _ _ Hf). split; [apply zlen_nonneg|apply (ld_bound _ _ Hf)]. }
  apply wp_bind, wp_getm. unfold all_functions, uint32. cbn [goto md]. rewrite wrap_small by lia.
  destruct (Z.leb_spec (import_function_count (md_imports (md s)) + count (md_functions (md s))) f); [by apply wp_kfail|].
  do 2 apply wp_bind, wp_getm. cbn [goto md].
  assert (∀ t, type_at (md s) f = Some (ty t) →
    wp (if negb (param_count (ty t) =? 0) || negb (result_count (ty t) =? 0) then fail "invalid start function"
        else modm (set_md_start_function f) ;+ section_end e) Q oks (goto q s)) as Hend.
  { intros t Ht'. destruct (Z.eqb_spec (param_count (ty t)) 0); cbn [negb orb]; [|by apply wp_kfail].
    destruct (Z.eqb_spec (result_count (ty t)) 0); cbn [negb orb]; [|by apply wp_kfail].
    apply wp_bind, wp_modm, wp_section_end.
    - apply (HQ f q). right. exists (ty t). done.
    - intros msg. eapply (ok_module _ _ (err msg (goto q s))); [exact Hok|done|by left|done]. }
  apply wp_bind. unfold type_at in Hend. destruct (Z.ltb_spec f (import_function_count (md_imports (md s)))) as [Hlt|Hge].
  - destruct (Hp f) as [E1 E2]; [lia|]. rewrite E1. apply wp_bind, wp_ret, wp_bind.
    destruct (index_some (imports_from (import_functions_at (md_imports (md s))) (import_function_count (md_imports (md s)))
      (md_imports (md s))) f) as [x Hx]; [lia|].
    eapply wp_elem; [rewrite Z.add_0_l, E2; exact Hx|]. destruct (index_Forall _ _ _ _ HF Hx) as (t&l&E3&_).
    rewrite E3. apply wp_ret, Hend. rewrite Hx. unfold import_type. by rewrite E3.
  - destruct (loaded_index _ _ (f - import_function_count (md_imports (md s))) Hf) as (o&Ho&(g&->&_)); [lia|].
    apply wp_bind. eapply wp_elem; [exact Ho|]. apply wp_bind. eapply wp_some; [done|]. apply wp_ret, Hend.
    rewrite index_none by lia. by rewrite Ho.
Qed.

(** The state of the scan that started in [s]. *)
Definition at_scan (s : loading) (ks : list Z) (p : Z) : loading :=
  mkLoading (set_l_p p (ld s)) (set_counts ks (md s)).

Lemma count_small k k' ks : kinds ks → zlen ks < 2 ^ 30 → 0 <= k <= 3 →
  uint32 (cnt k ks + Z.b2z (k' =? k)) = cnt k (ks ++ [k']).
Proof.
  intros Hk Hl Hr. rewrite cnt_app, cnt_one. pose proof (cnt_le k ks Hk Hr). pose proof (cnt_nonneg k ks).
  apply wrap_small. destruct (k' =? k); cbn [Z.b2z]; lia.
Qed.

Lemma wp_count_import k s ks p (Q : unit → loading → Prop) F :
  kinds ks → zlen ks < 2 ^ 30 → Q tt (at_scan s (ks ++ [k]) p) → wp (count_import k) Q F (at_scan s ks p).
Proof.
  intros Hk Hl HQ. apply wp_modm. unfold with_md, at_scan, set_counts, counts. cbn.
  unfold IMPORT_KIND_FUNC, IMPORT_KIND_TABLE, IMPORT_KIND_MEMORY, IMPORT_KIND_GLOBAL.
  rewrite !count_small by (done || lia). exact HQ.
Qed.

Definition one_each (ks : list Z) : Prop := cnt 1 ks <= 1 ∧ cnt 2 ks <= 1.

Lemma wp_scan_import e s ks p (Q : unit → loading → Prop) (F : loading → Prop) :
  kinds ks → zlen ks < 2 ^ 30 → one_each ks →
  (∀ k q, import_span (mem_of s) e p = Some (k, q) → 0 <= k <= 3 → one_each (ks ++ [k]) →
     Q tt (at_scan s (ks ++ [k]) q)) →
  (∀ msg ks q, F (err msg (at_scan s ks q))) →
  wp (scan_import e) Q F (at_scan s ks p).
Proof.
  intros Hk Hl [O1 O2] HQ HF. unfold import_span in HQ.
  apply wp_bind, wp_skip_name; [|intros; apply (HF _ ks)]. intros p1 E1.
  change (name_end (mem_of s) e p = Some p1) in E1. rewrite E1 in HQ. cbn in HQ.
  apply wp_bind, wp_skip_name; [|intros; apply (HF _ ks)]. intros p2 E2.
  change (name_end (mem_of s) e p1 = Some p2) in E2. rewrite E2 in HQ. cbn in HQ.
  apply wp_bind, wp_CHECK_BUF; [|intros; apply (HF _ ks)]. intros Hp. apply wp_bind, wp_read_byte; [lia|].
  change (load_Z _ _ _) with (load_Z (mem_of s) p2 1). set (k := load_Z (mem_of s) p2 1) in *.
  change (goto _ _) with (at_scan s ks (p2 + 1)).
  assert (∀ j, 0 <= j <= 3 → cnt j (ks ++ [k]) = cnt j ks + Z.b2z (k =? j)) as Hc by (intros; by rewrite cnt_app, cnt_one).
  destruct (Z.eqb_spec k IMPORT_KIND_FUNC) as [K0|K0]; cbn iota; rewrite ?K0 in HQ; cbn in HQ.
  { apply wp_bind, wp_section_leb; [|intros; apply (HF _ ks)]. intros v q E _ _.
    change (loader_leb_uint32 (mem_of s) (p2 + 1) e = Some (v, q)) in E. rewrite E in HQ. cbn in HQ.
    rewrite K0. apply (wp_count_import _ s ks q); [done|done|]. apply HQ; [done|done|].
    rewrite <- K0. split; rewrite Hc, K0 by lia; cbn; lia. }
  destruct (Z.eqb_spec k IMPORT_KIND_TABLE) as [K1|K1]; cbn iota; rewrite ?K1 in HQ; cbn in HQ.
  { apply wp_bind, wp_CHECK_BUF; [|intros; apply (HF _ ks)]. intros Hp3. apply wp_bind, wp_read_byte; [lia|].
    replace (pos (at_scan s ks (p2 + 1)) + 1) with (p2 + 2) by (cbn; lia). change (goto _ _) with (at_scan s ks (p2 + 2)).
    apply wp_bind, wp_skip_limits; [|intros; apply (HF _ ks)]. intros q E.
    change (limits_end (mem_of s) e (p2 + 2) = Some q) in E. rewrite E in HQ. cbn in HQ.
    apply wp_bind. rewrite K1. apply (wp_count_import _ s ks q); [done|done|]. apply wp_bind, wp_getm. cbn.
    destruct (Z.ltb_spec 1 (cnt 1 (ks ++ [IMPORT_KIND_TABLE]))); [apply wp_kfail, HF|]. apply wp_ret, HQ; [done|done|].
    split; [done|]. rewrite <- K1. rewrite Hc, K1 by lia. cbn. lia. }
  destruct (Z.eqb_spec k IMPORT_KIND_MEMORY) as [K2|K2]; cbn iota; rewrite ?K2 in HQ; cbn in HQ.
  { apply wp_bind, wp_skip_limits; [|intros; apply (HF _ ks)]. intros q E.
    change (limits_end (mem_of s) e (p2 + 1) = Some q) in E. rewrite E in HQ. cbn in HQ.
    apply wp_bind. rewrite K2. apply (wp_count_import _ s ks q); [done|done|]. apply wp_bind, wp_getm. cbn.
    destruct (Z.ltb_spec 1 (cnt 2 (ks ++ [IMPORT_KIND_MEMORY]))); [apply wp_kfail, HF|]. apply wp_ret, HQ; [done|done|].
    split; [|done]. rewrite <- K2. rewrite Hc, K2 by lia. cbn. lia. }
  destruct (Z.eqb_spec k IMPORT_KIND_GLOBAL) as [K3|K3]; cbn iota; rewrite ?K3 in HQ; cbn in HQ.
  { apply wp_bind, wp_CHECK_BUF; [|intros; apply (HF _ ks)]. intros Hp3. apply wp_bind, wp_skip.
    replace (pos (at_scan s ks (p2 + 1)) + 2) with (p2 + 3) by (cbn; lia). change (goto _ _) with (at_scan s ks (p2 + 3)).
    rewrite K3. apply (wp_count_import _ s ks _); [done|done|]. apply HQ; [done|done|].
    rewrite <- K3. split; rewrite Hc, K3 by lia; cbn; lia. }
  apply wp_kfail. apply (HF _ ks).
Qed.

Lemma wp_scan_imports e n s (Q : unit → loading → Prop) (F : loading → Prop) :
  0 <= n <= 2 ^ 30 → s = at_scan s [] (pos s) →
  (∀ ks q, zlen ks = n → kinds ks → one_each ks → spans (mem_of s) e (pos s) ks q → Q tt (at_scan s ks q)) →
  (∀ msg ks q, F (err msg (at_scan s ks q))) →
  wp (count_to n (fun _ => scan_import e)) Q F s.
Proof.
  intros Hn Hs HQ HF.
  eapply (wp_count_to n _ (fun j s' => ∃ ks q, zlen ks = j ∧ kinds ks ∧ one_each ks
    ∧ spans (mem_of s) e (pos s) ks q ∧ s' = at_scan s ks q)); [lia| | |].
  - exists [], (pos s). split_and!; [done|by constructor|done|done|exact Hs].
  - intros j s' Hj (ks&q&<-&Hk&Ho&Hsp&->). apply wp_scan_import; [done|lia|done| |exact HF].
    intros k q' E Hkr Ho'. exists (ks ++ [k]), q'. split_and!; [apply zlen_snoc| |done| |done].
    + apply Forall_app_2; [done|by constructor].
    + by eapply spans_snoc.
  - intros s' (ks&q&Hl&Hk&Ho&Hsp&->). by apply HQ.
Qed.

(** ** The routines of the scan that loads *)

(** [c], at [p], moves to [q] and yields [a] with [P a q], or fails. *)
Definition reads_at {A} (m : module_obj) (mm : mem) (p : Z) (c : K A) (P : A → Z → Prop) : Prop :=
  ∀ s (Q : A → loading → Prop) (F : loading → Prop),
    md s = m → mem_of s = mm → pos s = p → (∀ a q, P a q → Q a (goto q s)) → (∀ msg q, F (err msg (goto q s))) →
    wp c Q F s.

Lemma at_ret {A} m mm p (a : A) (P : A → Z → Prop) : P a p → reads_at m mm p (lret a) P.
Proof. intros Ha s Q F _ _ <- HQ _. apply wp_ret. rewrite <- goto_here. by apply HQ. Qed.

Lemma at_fail {A} m mm p msg (P : A → Z → Prop) : reads_at m mm p (fail msg) P.
Proof. intros s Q F _ _ _ _ HF. apply wp_kfail. rewrite <- (goto_here s). apply HF. Qed.

Lemma at_bind {A B} m mm p (c : K A) (k : A → K B) P P' :
  reads_at m mm p c P → (∀ a q, P a q → reads_at m mm q (k a) P') → reads_at m mm p (let+ a := c in k a) P'.
Proof.
  intros Hc Hk s Q F Hm Hmm Hp HQ HF. apply wp_bind, Hc; [done..| |exact HF].
  intros a q Ha. eapply Hk; [exact Ha|done..| |]; intros; [by apply (HQ _ _)|apply HF].
Qed.

Lemma at_mono {A} m mm p (c : K A) (P P' : A → Z → Prop) :
  reads_at m mm p c P → (∀ a q, P a q → P' a q) → reads_at m mm p c P'.
Proof. intros Hc HP s Q F Hm Hmm Hp HQ HF. apply Hc; auto. Qed.

Lemma at_getm {A B} m mm p (f : module_obj → A) (k : A → K B) P :
  reads_at m mm p (k (f m)) P → reads_at m mm p (let+ a := getm f in k a) P.
Proof. intros Hk s Q F <- Hmm Hp HQ HF. apply wp_bind, wp_getm. by apply Hk. Qed.

Lemma at_leb m mm p e :
  reads_at m mm p (LoaderModule.read_leb_uint32 e) (fun v q => loader_leb_uint32 mm p e = Some (v, q) ∧ 0 <= v < 2 ^ 32).
Proof.
  intros s Q F _ <- <- HQ HF. apply wp_section_leb; [intros; by apply HQ|].
  intros msg. rewrite <- (goto_here s). apply HF.
Qed.

Lemma at_check {A} m mm p e n (k : K A) P : reads_at m mm p k P → reads_at m mm p (LoaderModule.CHECK_BUF e n ;+ k) P.
Proof.
  intros Hk s Q F Hm Hmm Hp HQ HF. apply wp_bind, wp_CHECK_BUF; [intros _; by apply Hk|].
  intros msg. rewrite <- (goto_here s). apply HF.
Qed.

Lemma at_byte {A} m mm p e (k : Z → K A) P :
  (∀ b, reads_at m mm (p + 1) (k b) P) →
  reads_at m mm p (LoaderModule.CHECK_BUF e 1 ;+ let+ b := LoaderModule.read_uint8 e in k b) P.
Proof.
  intros Hk s Q F Hm Hmm <- HQ HF. apply wp_bind, wp_CHECK_BUF.
  - intros Hp. apply wp_bind, wp_read_byte; [lia|]. apply Hk; [done..| |]; intros; [by apply (HQ _ _)|apply HF].
  - intros msg. rewrite <- (goto_here s). apply HF.
Qed.

Lemma at_bytes2 {A} m mm p e (k : Z → Z → K A) P :
  (∀ b c, reads_at m mm (p + 2) (k b c) P) →
  reads_at m mm p (LoaderModule.CHECK_BUF e 2 ;+ let+ b := LoaderModule.read_uint8 e in
                   let+ c := LoaderModule.read_uint8 e in k b c) P.
Proof.
  intros Hk s Q F Hm Hmm <- HQ HF. apply wp_bind, wp_CHECK_BUF.
  - intros Hp. apply wp_bind, wp_read_byte; [lia|]. apply wp_bind, wp_read_byte; [cbn; lia|].
    apply Hk; [done|done|cbn; lia| |]; intros; [by apply (HQ _ _)|apply HF].
  - intros msg. rewrite <- (goto_here s). apply HF.
Qed.

Section loaders.
Context (m : module_obj) (mm : mem) (e : Z).

Lemma at_function (resolve_symbol : list Z → list Z → type_obj → native_symbol) p mn fn : types_ok (md_types m) →
  reads_at m mm p (load_function_import resolve_symbol e mn fn)
    (fun u q => (∃ t l, u = ImportFunction t l ∧ in_types (md_types m) t) ∧ snd <$> loader_leb_uint32 mm p e = Some q).
Proof.
  intros Ht. apply at_check. eapply at_bind; [apply at_leb|]. intros i q [E Hi]. apply at_getm.
  destruct (Z.leb_spec (count (md_types m)) i); [apply at_fail|].
  destruct (loaded_index _ _ i Ht) as (o&Ho&(b&t&->&_)); [lia|].
  intros s Q F Hm Hmm Hp HQ HF. apply wp_bind. eapply wp_elem; [exact Ho|]. apply wp_bind. eapply wp_some; [done|].
  apply wp_ret. rewrite <- (goto_here s), Hp. apply HQ. split; [|by rewrite E]. eexists _, _. split; [done|].
  exists b. by eapply index_in.
Qed.

Lemma at_table_limits p flags :
  reads_at m mm p (table_limits e flags)
    (fun l q => limits_ok l ∧ range_end mm e p (negb (flags =? 0)) = Some q).
Proof.
  eapply at_bind; [apply at_leb|]. intros init q [E Hi]. unfold range_end. rewrite E. cbn.
  eapply (at_bind _ _ _ _ _ (fun max q' => 0 <= max < 2 ^ 32 ∧ (flags ≠ 0 → init <= max)
    ∧ (if negb (flags =? 0) then snd <$> loader_leb_uint32 mm q e else Some q) = Some q')).
  - destruct (Z.eqb_spec flags 0) as [->|Hf]; cbn [negb]; [by apply at_ret|].
    eapply at_bind; [apply at_leb|]. intros max q' [E' Hm]. rewrite E'. unfold check_table_max_size.
    destruct (Z.ltb_spec max init); [apply (at_bind _ _ _ _ _ (fun _ _ => False)); [apply at_fail|done]|].
    eapply (at_bind _ _ _ _ _ (fun _ q => q = q')); [by apply at_ret|]. intros _ ? ->. by apply at_ret.
  - intros max q' (Hm&Hf&Hq). apply at_ret. split; [|done]. split; [done|]. intros. by apply adjust_range.
Qed.

Lemma at_table p mn fn :
  reads_at m mm p (load_table_import e mn fn)
    (fun u q => (∃ t, u = ImportTable t ∧ table_ok t) ∧ limits_end mm e (p + 1) = Some q).
Proof.
  apply at_byte. intros b. destruct (Z.eqb_spec VALUE_TYPE_FUNCREF b) as [<-|]; cbn [negb]; [|apply at_fail].
  eapply at_bind; [apply at_leb|]. intros f q [E Hf]. unfold limits_end. rewrite E. cbn.
  destruct (Z.ltb_spec 1 f); [apply at_fail|].
  assert (negb (Z.land f 1 =? 0) = negb (f =? 0)) as -> by (assert (f = 0 ∨ f = 1) as [-> | ->] by lia; done).
  eapply at_bind; [apply at_table_limits|]. intros [init max] q' [Hl Hq].
  repeat case_match; try apply at_fail; apply at_ret; (split; [|done]); eexists; (split; [done|]);
    destruct Hl as [? Hl]; cbn in *; split_and!; cbn; try done; lia.
Qed.

Lemma at_memory_limits (statics : memory_statics) p flags :
  reads_at m mm p (memory_limits statics e flags)
    (fun l q => 0 <= l.1 <= 65536 ∧ range_end mm e p (negb (Z.land flags 1 =? 0)) = Some q).
Proof.
  eapply at_bind; [apply at_leb|]. intros init q [E Hi]. unfold range_end. rewrite E. cbn.
  unfold check_memory_init_size. destruct (Z.ltb_spec 65536 init); [apply (at_bind _ _ _ _ _ (fun _ _ => False)); [apply at_fail|done]|].
  eapply (at_bind _ _ _ _ _ (fun _ q' => q' = q)); [by apply at_ret|]. intros _ ? ->.
  eapply (at_bind _ _ _ _ _ (fun max q' =>
    (if negb (Z.land flags 1 =? 0) then snd <$> loader_leb_uint32 mm q e else Some q) = Some q')).
  - destruct (negb _); [|by apply at_ret]. eapply at_bind; [apply at_leb|]. intros max q' [E' _]. rewrite E'.
    unfold check_memory_max_size.
    eapply (at_bind _ _ _ _ _ (fun _ q => q = q')); [|intros _ ? ->; by apply at_ret].
    repeat case_match; try apply at_fail. by apply at_ret.
  - intros max q' Hq. apply at_ret. split; [cbn; lia|done].
Qed.

Lemma at_memory (statics : memory_statics) p mn fn :
  reads_at m mm p (load_memory_import statics e mn fn)
    (fun u q => (∃ t, u = ImportMemory t ∧ memory_ok t) ∧ limits_end mm e p = Some q).
Proof.
  eapply at_bind; [apply at_leb|]. intros f q [E Hf]. unfold limits_end. rewrite E. cbn.
  eapply at_bind; [apply at_memory_limits|]. intros [init max] q' [Hl Hq].
  repeat case_match; try apply at_fail; apply at_ret; (split; [|done]); eexists; (split; [done|]); left; (split; [done|]); cbn in *; lia.
Qed.

Lemma at_global p mn fn :
  reads_at m mm p (load_global_import e mn fn) (fun u q => (∃ t mu v, u = ImportGlobal t mu v) ∧ q = p + 2).
Proof.
  apply at_bytes2. intros t mu. repeat case_match; try apply at_fail; apply at_ret; eauto.
Qed.

End loaders.

(** ** Where the imports go *)

(** The imports [D k] of kind [k] that are loaded, of those counted in [ks]. *)
Definition parts (ks : list Z) (D : Z → list import_obj) : list import_obj :=
  partial (cnt 0 ks) blank_import (D 0) ++ partial (cnt 1 ks) blank_import (D 1)
  ++ partial (cnt 2 ks) blank_import (D 2) ++ partial (cnt 3 ks) blank_import (D 3).

Definition base (ks : list Z) (k : Z) : Z :=
  if k =? 0 then 0 else if k =? 1 then cnt 0 ks else if k =? 2 then cnt 0 ks + cnt 1 ks
  else cnt 0 ks + cnt 1 ks + cnt 2 ks.

Definition more (D : Z → list import_obj) (k : Z) (x : import_obj) (j : Z) : list import_obj :=
  if j =? k then D j ++ [x] else D j.

Lemma insert_above {A} (l r : list A) i x : 0 <= i →
  <[Z.to_nat (zlen l + i) := x]> (l ++ r) = l ++ <[Z.to_nat i := x]> r.
Proof. intros Hi. unfold zlen. rewrite insert_app_r_alt by lia. do 2 f_equal. lia. Qed.

Lemma insert_below {A} (l r : list A) i x : 0 <= i < zlen l →
  <[Z.to_nat i := x]> (l ++ r) = <[Z.to_nat i := x]> l ++ r.
Proof. unfold zlen. intros Hi. by rewrite insert_app_l by lia. Qed.

Lemma insert_parts ks D k x :
  (∀ j, zlen (D j) <= cnt j ks) → 0 <= k <= 3 → zlen (D k) < cnt k ks →
  <[Z.to_nat (base ks k + zlen (D k)) := x]> (parts ks D) = parts ks (more D k x).
Proof.
  intros Hd Hk Hlt. unfold parts, more, base. pose proof (zlen_nonneg (D k)) as Hn.
  pose proof (cnt_nonneg 0 ks); pose proof (cnt_nonneg 1 ks); pose proof (cnt_nonneg 2 ks).
  pose proof (zlen_partial (cnt 0 ks) blank_import (D 0) (Hd 0)) as L0.
  pose proof (zlen_partial (cnt 1 ks) blank_import (D 1) (Hd 1)) as L1.
  pose proof (zlen_partial (cnt 2 ks) blank_import (D 2) (Hd 2)) as L2.
  pose proof (zlen_partial (cnt 3 ks) blank_import (D 3) (Hd 3)) as L3.
  assert (k = 0 ∨ k = 1 ∨ k = 2 ∨ k = 3) as [-> |[-> |[-> | ->]]] by lia; cbn [Z.eqb Pos.eqb].
  - rewrite Z.add_0_l, insert_below, insert_partial by lia. done.
  - replace (cnt 0 ks + zlen (D 1)) with (zlen (partial (cnt 0 ks) blank_import (D 0)) + zlen (D 1)) by lia.
    rewrite insert_above, insert_below, insert_partial by lia. done.
  - replace (cnt 0 ks + cnt 1 ks + zlen (D 2)) with (zlen (partial (cnt 0 ks) blank_import (D 0))
      + (zlen (partial (cnt 1 ks) blank_import (D 1)) + zlen (D 2))) by lia.
    rewrite !insert_above, insert_below, insert_partial by lia. done.
  - replace (cnt 0 ks + cnt 1 ks + cnt 2 ks + zlen (D 3)) with (zlen (partial (cnt 0 ks) blank_import (D 0))
      + (zlen (partial (cnt 1 ks) blank_import (D 1)) + (zlen (partial (cnt 2 ks) blank_import (D 2)) + zlen (D 3)))) by lia.
    rewrite !insert_above, insert_partial by lia. done.
Qed.

Lemma zlen_parts ks D : kinds ks → (∀ j, zlen (D j) <= cnt j ks) → zlen (parts ks D) = zlen ks.
Proof. intros Hk Hd. unfold parts. rewrite !zlen_app, !zlen_partial by done. rewrite <- (cnt_sum ks Hk). lia. Qed.

(** The local pointer for a kind. *)
Definition cursor (ks : list Z) (D : Z → list import_obj) (k : Z) : option Z :=
  if cnt k ks =? 0 then None else Some (base ks k + zlen (D k)).

Definition cursors (ks : list Z) (D : Z → list import_obj) : import_cursors :=
  mkCursors (cursor ks D 0) (cursor ks D 1) (cursor ks D 2) (cursor ks D 3).

Lemma cursor_more ks D k x j :
  cursor ks (more D k x) j = if j =? k then succ (cursor ks D j) else cursor ks D j.
Proof.
  unfold cursor, more. destruct (j =? k); [|done]. destruct (cnt j ks =? 0); [done|].
  cbn. f_equal. rewrite zlen_snoc. lia.
Qed.

(** The imports of the module meanwhile. *)
Definition imported (b : nat) (ks : list Z) (D : Z → list import_obj) : import_info :=
  mkImportInfo (mkCounted (zlen ks) (Some (b, parts ks D))) (cnt 0 ks) (cnt 1 ks) (cnt 2 ks) (cnt 3 ks)
    (place_of (base ks 0) (cnt 0 ks)) (place_of (base ks 1) (cnt 1 ks))
    (place_of (base ks 2) (cnt 2 ks)) (place_of (base ks 3) (cnt 3 ks)).

Definition is_import (ts : types_array) (k : Z) (x : import_obj) : Prop :=
  if k =? 0 then function_import ts x else if k =? 1 then table_import x
  else if k =? 2 then memory_import x else global_import x.

Record loads (s : loading) (b : nat) (ks loaded : list Z) (D : Z → list import_obj) (s' : loading) : Prop := {
  il_ok : oks s';
  il_grows : grows s s';
  il_mem : mem_of s' = mem_of s;
  il_md : ∃ strs, md s' = set_md_strings strs (set_md_imports (imported b ks D) (md s));
  il_length k : zlen (D k) = cnt k loaded;
  il_each k : Forall (is_import (md_types (md s)) k) (D k)
}.

Lemma loads_goto s b ks l D s' p : loads s b ks l D s' → loads s b ks l D (goto p s').
Proof. by intros []. Qed.

Lemma wp_load_name e s (Q : list Z → loading → Prop) :
  oks s →
  (∀ name strs s', md s' = set_md_strings strs (md s) → name_end (mem_of s) e (pos s) = Some (pos s') →
     mem_of s' = mem_of s → oks s' → grows s s' → Q name s') →
  wp (load_name e) Q oks s.
Proof.
  intros Hok HQ. apply wp_bind, wp_section_leb; [|done]. intros n q E Hn _. apply wp_bind, wp_CHECK_BUF; [|done].
  intros Hp. apply wp_bind, wp_bytes_here; [done|]. apply wp_bind. eapply wp_const_str_list_insert; [exact Hok| |done].
  intros node strs s' D _ M P Hok' G. apply wp_bind, wp_skip, wp_ret. apply (HQ node strs); [done| |done|done|done].
  unfold name_end. rewrite E. rewrite (proj2 (Z.leb_le _ _)) by exact Hp. by cbn; rewrite P.
Qed.

Lemma loads_name s b ks l D s1 s2 strs :
  loads s b ks l D s1 → md s2 = set_md_strings strs (md s1) → mem_of s2 = mem_of s1 → oks s2 → grows s1 s2 →
  loads s b ks l D s2.
Proof.
  intros [I1 I2 I3 [strs1 I4] I5 I6] D2 M2 Hok2 G2. constructor; [done|by eapply grows_trans|congruence| |done|done].
  exists strs. by rewrite D2, I4.
Qed.

(** The store of an import and the move of its pointer. *)
Lemma wp_set_import s b ks l k todo D s1 x (Q : unit → loading → Prop) F :
  loads s b ks l D s1 → ks = l ++ k :: todo → 0 <= k <= 3 → kinds ks → is_import (md_types (md s)) k x →
  (∀ s2, loads s b ks (l ++ [k]) (more D k x) s2 → pos s2 = pos s1 → Q tt s2) →
  wp (set_import (cursor ks D k) x) Q F s1.
Proof.
  intros [I1 I2 I3 [strs I4] I5 I6] Hks Hk Hkinds Hx HQ.
  assert (∀ j, zlen (D j) <= cnt j ks) as Hle.
  { intros j. rewrite I5, Hks, cnt_app. pose proof (cnt_nonneg j (k :: todo)). lia. }
  assert (zlen (D k) < cnt k ks) as Hlt.
  { rewrite I5, Hks, cnt_app. change (k :: todo) with ([k] ++ todo). rewrite cnt_app, cnt_one, Z.eqb_refl.
    pose proof (cnt_nonneg k todo). cbn. lia. }
  pose proof (zlen_nonneg (D k)) as Hn. apply wp_bind. eapply wp_some.
  { unfold cursor. by rewrite (proj2 (Z.eqb_neq _ _)) by lia. }
  eapply (wp_put old get_import_array set_import_array no_blocks _ _ b (zlen ks) (parts ks D)); [done| | |done|by intros y Hy%not_elem_of_nil|].
  - by rewrite I4.
  - rewrite zlen_parts by done. rewrite <- (cnt_sum ks Hkinds).
    pose proof (cnt_nonneg 0 ks); pose proof (cnt_nonneg 1 ks); pose proof (cnt_nonneg 2 ks);
      pose proof (cnt_nonneg 3 ks).
    unfold base. assert (k = 0 ∨ k = 1 ∨ k = 2 ∨ k = 3) as [-> |[-> |[-> | ->]]] by lia; cbn [Z.eqb Pos.eqb]; lia.
  - intros c -> Hok2. apply HQ; [|done]. constructor; [done|done|done| | |].
    + exists strs. cbn. rewrite I4, insert_parts by done. done.
    + intros j. unfold more. rewrite cnt_app, cnt_one, <- I5, Z.eqb_sym.
      destruct (k =? j); [by rewrite zlen_snoc|]. cbn. lia.
    + intros j. unfold more. destruct (Z.eqb_spec j k) as [->|]; [|done]. apply Forall_app_2; [done|by constructor].
Qed.

Section section.
Context (statics : memory_statics) (resolve_symbol : list Z → list Z → type_obj → native_symbol).

(** A routine that reads, in the state of the scan. *)
Lemma wp_reads_at {A} s b ks l D s1 (c : K A) (P : A → Z → Prop) (Q : A → loading → Prop) :
  reads_at (md s1) (mem_of s) (pos s1) c P → loads s b ks l D s1 →
  (∀ a q, P a q → loads s b ks l D (goto q s1) → Q a (goto q s1)) → wp c Q oks s1.
Proof.
  intros Hc Hl HQ. apply Hc; [done|apply Hl|done| |intros; apply Hl]. intros a q Ha. apply HQ; [done|]. by apply loads_goto.
Qed.

Lemma wp_load_import e s b ks l k todo q D s1 :
  types_ok (md_types (md s)) → loads s b ks l D s1 → ks = l ++ k :: todo → kinds ks →
  import_span (mem_of s) e (pos s1) = Some (k, q) →
  wp (load_import statics resolve_symbol e (cursors ks D))
    (fun c s2 => ∃ x, c = cursors ks (more D k x) ∧ loads s b ks (l ++ [k]) (more D k x) s2 ∧ pos s2 = q) oks s1.
Proof.
  intros Ht Hl Hks Hk Hspan. unfold import_span in Hspan. rewrite <- (il_mem _ _ _ _ _ _ Hl) in Hspan.
  apply wp_bind, wp_load_name; [apply Hl|]. intros mn strs1 s2 D2 E2 M2 Hok2 G2.
  rewrite E2, <- M2 in Hspan. cbn in Hspan. pose proof (loads_name _ _ _ _ _ _ _ _ Hl D2 M2 Hok2 G2) as Hl2.
  apply wp_bind, wp_load_name; [done|]. intros fn strs3 s3 D3 E3 M3 Hok3 G3. rewrite E3, <- M3 in Hspan. cbn in Hspan.
  pose proof (loads_name _ _ _ _ _ _ _ _ Hl2 D3 M3 Hok3 G3) as Hl3.
  apply wp_bind, wp_CHECK_BUF; [|done]. intros Hp. apply wp_bind, wp_read_byte; [lia|].
  set (k' := load_Z (mem_of s3) (pos s3) 1) in *. pose proof (loads_goto _ _ _ _ _ _ (pos s3 + 1) Hl3) as Hl4.
  rewrite (il_mem _ _ _ _ _ _ Hl3) in Hspan.
  assert (md_types (md (goto (pos s3 + 1) s3)) = md_types (md s)) as Et by (destruct (il_md _ _ _ _ _ _ Hl4) as [? ->]; done).
  assert (∀ u q' c, k' = k → q' = q → 0 <= k <= 3 → is_import (md_types (md s)) k (mkImportObj k' mn fn u) →
    (∀ x, c = cursors ks (more D k x)) → loads s b ks l D (goto q' (goto (pos s3 + 1) s3)) →
    wp (set_import (cursor ks D k) (mkImportObj k' mn fn u) ;+ lret c)
      (fun c s2 => ∃ x, c = cursors ks (more D k x) ∧ loads s b ks (l ++ [k]) (more D k x) s2 ∧ pos s2 = q) oks
      (goto q' (goto (pos s3 + 1) s3))) as Hend.
  { intros u q' c -> -> Hkr Hx Hc Hlq. apply wp_bind. eapply wp_set_import; [exact Hlq|exact Hks|exact Hkr|exact Hk|exact Hx|].
    intros s5 Hl5 P5. apply wp_ret. eexists. split; [apply Hc|]. by split; [exact Hl5|]. }
  assert (∀ x, cursors ks (more D 0 x) = mkCursors (succ (cursor ks D 0)) (cursor ks D 1) (cursor ks D 2) (cursor ks D 3)
    ∧ cursors ks (more D 1 x) = mkCursors (cursor ks D 0) (succ (cursor ks D 1)) (cursor ks D 2) (cursor ks D 3)
    ∧ cursors ks (more D 2 x) = mkCursors (cursor ks D 0) (cursor ks D 1) (succ (cursor ks D 2)) (cursor ks D 3)
    ∧ cursors ks (more D 3 x) = mkCursors (cursor ks D 0) (cursor ks D 1) (cursor ks D 2) (succ (cursor ks D 3))) as Hcur.
  { intros x. unfold cursors. by rewrite !cursor_more. }
  destruct (Z.eqb_spec k' IMPORT_KIND_FUNC) as [K0|K0]; cbn iota.
  { apply bind_Some in Hspan as (q'&Eq&[= <- <-]). apply wp_bind.
    eapply wp_reads_at; [apply at_function; by rewrite Et|exact Hl4|]. intros u q2 [Hu E] Hl5. rewrite Et in Hu.
    change (pos (goto (pos s3 + 1) s3)) with (pos s3 + 1) in E.
    rewrite K0 in *. apply Hend; [done|congruence|done| |intros x; symmetry; apply (Hcur x)|done].
    destruct Hu as (t&li&->&Hin). by exists t, li. }
  destruct (Z.eqb_spec k' IMPORT_KIND_TABLE) as [K1|K1]; cbn iota.
  { apply bind_Some in Hspan as (q'&Eq&[= <- <-]). apply wp_bind.
    eapply wp_reads_at; [apply at_table|exact Hl4|]. intros u q2 [Hu E] Hl5.
    change (pos (goto (pos s3 + 1) s3)) with (pos s3 + 1) in E. rewrite <- Z.add_assoc in E. change (1 + 1) with 2 in E.
    rewrite K1 in *. apply Hend; [done|congruence|done| |intros x; symmetry; apply (Hcur x)|done].
    destruct Hu as (t&->&Hin). by exists t. }
  destruct (Z.eqb_spec k' IMPORT_KIND_MEMORY) as [K2|K2]; cbn iota.
  { apply bind_Some in Hspan as (q'&Eq&[= <- <-]). apply wp_bind.
    eapply wp_reads_at; [apply at_memory|exact Hl4|]. intros u q2 [Hu E] Hl5.
    change (pos (goto (pos s3 + 1) s3)) with (pos s3 + 1) in E.
    rewrite K2 in *. apply Hend; [done|congruence|done| |intros x; symmetry; apply (Hcur x)|done].
    destruct Hu as (t&->&Hin). by exists t. }
  destruct (Z.eqb_spec k' IMPORT_KIND_GLOBAL) as [K3|K3]; cbn iota; [|done].
  apply bind_Some in Hspan as (q'&Eq&[= <- <-]). apply wp_bind.
  eapply wp_reads_at; [apply at_global|exact Hl4|]. intros u q2 [Hu E] Hl5.
  change (pos (goto (pos s3 + 1) s3)) with (pos s3 + 1) in E. rewrite <- Z.add_assoc in E. change (1 + 2) with 3 in E.
  rewrite K3 in *. apply Hend; [done|congruence|done| |intros x; symmetry; apply (Hcur x)|done].
  destruct Hu as (t&mu&v&->). by exists t, mu, v.
Qed.

Lemma wp_load_imports e s b ks todo : ∀ l q D s1 (Q : unit → loading → Prop),
  types_ok (md_types (md s)) → loads s b ks l D s1 → ks = l ++ todo → kinds ks →
  spans (mem_of s) e (pos s1) todo q →
  (∀ D s2, loads s b ks ks D s2 → Q tt s2) →
  wp (load_imports statics resolve_symbol e (length todo) (cursors ks D)) Q oks s1.
Proof.
  induction todo as [|k todo IH]; intros l q D s1 Q Ht Hl Hks Hk Hspan HQ; cbn [load_imports length].
  - rewrite app_nil_r in Hks. subst l. by apply wp_ret, (HQ D).
  - destruct Hspan as (p'&Hspan&Hspans). apply wp_bind. eapply wp_mono; [by eapply wp_load_import| |done].
    intros c s2 (x&->&Hl2&P2). cbv beta. eapply IH; [done|exact Hl2| |done|rewrite P2; exact Hspans|exact HQ].
    by rewrite <- app_assoc.
Qed.


Lemma at_scan_ok s ks q : oks s → oks (at_scan s ks q).
Proof. intros [W1 W2 W3 W4 W5 W6]. constructor; [done|done|exact W3|done|exact W5|exact W6]. Qed.

(** What is loaded at the end. *)
Lemma loads_imports s b ks D s' :
  loads s b ks ks D s' → kinds ks → one_each ks → zlen ks <= 2 ^ 30 →
  imports_ok (md_types (md s)) (imported b ks D).
Proof.
  intros Hl Hk [O1 O2] Hb. pose proof (il_length _ _ _ _ _ _ Hl) as Hz. pose proof (il_each _ _ _ _ _ _ Hl) as He.
  assert (zlen (parts ks D) = zlen ks) as Hp by (apply zlen_parts; [done|]; intros j; by rewrite Hz).
  constructor; cbn [imported md_import_array elems array count import_function_count m_import_table_count
    m_import_memory_count import_global_count import_functions_at import_tables_at import_memories_at import_globals_at];
    [|by rewrite Hp|by rewrite Hp|done..].
  exists (D 0), (D 1), (D 2), (D 3). unfold parts. rewrite !partial_full by apply Hz.
  split_and!; [done|apply Hz..|exact (He 0)|exact (He 1)|exact (He 2)|exact (He 3)].
Qed.

Lemma place_of_if at_ n : (if negb (n =? 0) then Some at_ else None) = place_of at_ n.
Proof. unfold place_of. by destruct (n =? 0). Qed.

(** The start of the second scan. *)
Definition nothing (k : Z) : list import_obj := [].

Lemma parts_nothing ks n : kinds ks → zlen ks = n → parts ks nothing = replicate (Z.to_nat n) blank_import.
Proof.
  intros Hk <-. unfold parts, nothing. rewrite !partial_nil, <- !replicate_add, <- (cnt_sum ks Hk). f_equal.
  pose proof (cnt_nonneg 0 ks); pose proof (cnt_nonneg 1 ks); pose proof (cnt_nonneg 2 ks); pose proof (cnt_nonneg 3 ks).
  lia.
Qed.

Lemma placed s b n ks : md_imports s = no_imports → kinds ks → zlen ks = n →
  place_imports (counts ks (md_imports (set_import_array (mkCounted n (Some (b, replicate (Z.to_nat n) blank_import))) s)))
  = imported b ks nothing.
Proof.
  intros Hs Hk Hn. unfold place_imports, counts, imported, set_import_array. cbn -[parts]. rewrite Hs. cbn -[parts].
  rewrite !place_of_if, (parts_nothing ks n), Hn by done. done.
Qed.

Lemma first_cursors b ks (i := imported b ks nothing) :
  mkCursors (if import_function_count i =? 0 then None else import_functions_at i)
    (if m_import_table_count i =? 0 then None else import_tables_at i)
    (if m_import_memory_count i =? 0 then None else import_memories_at i)
    (if import_global_count i =? 0 then None else import_globals_at i) = cursors ks nothing.
Proof.
  unfold cursors, cursor, i, place_of. cbn. unfold place_of. change (zlen (nothing _)) with 0.
  rewrite !Z.add_0_r. by repeat destruct (_ =? 0).
Qed.

Lemma wp_load_import_array e n s (k : K unit) (Q : unit → loading → Prop) :
  oks s → md_imports (md s) = no_imports → types_ok (md_types (md s)) → 0 <= n →
  (∀ i strs s2, oks s2 → grows s s2 → md s2 = set_md_strings strs (set_md_imports i (md s)) →
     imports_ok (md_types (md s)) i → wp k Q oks s2) →
  wp (new_array set_import_array (sizeof WASMImport) n WASMImportT blank_import ;+
      let+ p_old := getl l_p in
      count_to n (fun _ => scan_import e) ;+
      upd_imports place_imports ;+
      set_p p_old ;+
      let+ i := getm md_imports in
      load_imports statics resolve_symbol e (Z.to_nat n)
        (mkCursors (if import_function_count i =? 0 then None else import_functions_at i)
                   (if m_import_table_count i =? 0 then None else import_tables_at i)
                   (if m_import_memory_count i =? 0 then None else import_memories_at i)
                   (if import_global_count i =? 0 then None else import_globals_at i)) ;+ k) Q oks s.
Proof.
  intros Hok Hno Ht Hn HQ. apply wp_bind.
  eapply (wp_new_array old get_import_array set_import_array no_blocks); [exact Hok|unfold get_import_array; by rewrite Hno
    |done|by vm_compute|done| |done].
  intros b s1 Hsz D1 M1 P1 Hok1 G1. assert (n <= 2 ^ 30) as Hb.
  { assert (1 <= sizeof WASMImport) by (by vm_compute). nia. }
  apply wp_bind, wp_getl. fold (pos s1). apply wp_bind. apply wp_scan_imports; [done| | |].
  { destruct s1 as [[] m1]. cbn in D1. unfold at_scan, set_counts, counts. cbn. subst m1.
    unfold set_import_array. cbn. by rewrite Hno. }
  2:{ intros msg ks q. by apply (at_scan_ok _ ks q) in Hok1. }
  intros ks q Hl Hk Ho Hsp. apply wp_bind, wp_modm, wp_bind, wp_set_p, wp_bind, wp_getm.
  set (s2 := goto _ _). assert (md_imports (md s2) = imported b ks nothing) as Hi.
  { cbn. rewrite D1. by apply placed. }
  rewrite Hi, first_cursors. apply wp_bind.
  assert (loads s b ks [] nothing s2) as Hl2.
  { constructor; [|exact G1|exact M1| |done|by intros; constructor].
    - apply (at_scan_ok _ ks q) in Hok1. eapply (ok_module _ _ _ _ Hok1); [| |done]; intros b' Hb'; [exact Hb'|by left].
    - exists (md_strings (md s)). rewrite <- Hi. cbn. rewrite D1. by destruct (md s). }
  replace (Z.to_nat n) with (length ks) by (unfold zlen in Hl; lia).
  eapply (wp_load_imports e s b ks ks []); [done|exact Hl2|done|done| |].
  - change (pos s2) with (pos s1). rewrite <- M1. exact Hsp.
  - intros D s3 Hl3. destruct (il_md _ _ _ _ _ _ Hl3) as [strs D3].
    eapply HQ; [apply Hl3|apply Hl3|exact D3|]. eapply loads_imports; [exact Hl3|done..|lia].
Qed.

Lemma wp_known_names s (k : K unit) (Q : unit → loading → Prop) :
  oks s → (∀ strs s', md s' = set_md_strings strs (md s) → oks s' → grows s s' → wp k Q oks s') →
  wp (const_str_list_insert (chars "env") ;+ const_str_list_insert (chars "wasi_unstable") ;+
      const_str_list_insert (chars "wasi_snapshot_preview1") ;+ k) Q oks s.
Proof.
  intros Hok HQ. apply wp_bind, (wp_const_str_list_insert old); [done| |done]. intros _ strs1 s1 D1 _ _ _ Hok1 G1.
  apply wp_bind, (wp_const_str_list_insert old); [done| |done]. intros _ strs2 s2 D2 _ _ _ Hok2 G2.
  apply wp_bind, (wp_const_str_list_insert old); [done| |done]. intros _ strs3 s3 D3 _ _ _ Hok3 G3.
  apply (HQ strs3); [by rewrite D3, D2, D1|done|]. eapply grows_trans; [exact G1|]. by eapply grows_trans.
Qed.

Lemma wp_load_import_section e s (Q : unit → loading → Prop) :
  oks s → md_imports (md s) = no_imports → types_ok (md_types (md s)) →
  (∀ i strs w s2, oks s2 → grows s s2 →
     md s2 = set_md_is_wasi w (set_md_strings strs (set_md_imports i (md s))) →
     imports_ok (md_types (md s)) i → Q tt s2) →
  wp (load_import_section statics resolve_symbol e) Q oks s.
Proof.
  intros Hok Hno Ht HQ. apply wp_known_names; [done|]. intros strs s1 D1 Hok1 G1.
  apply wp_bind, wp_section_leb; [|done]. intros n q _ Hn _. apply wp_bind.
  destruct (Z.eqb_spec n 0) as [->|Hne]; cbn [negb].
  - apply wp_ret, wp_section_end; [|done]. apply (HQ no_imports strs (md_is_wasi (md s))); [done|done| |apply no_imports_ok].
    cbn. rewrite D1, <- Hno. by destruct (md s).
  - apply wp_load_import_array; [exact Hok1|cbn; by rewrite D1|cbn; by rewrite D1|lia|].
    intros i strs2 s2 Hok2 G2 D2 Hi. cbn in D2, Hi. rewrite D1 in D2, Hi. apply wp_bind, wp_getm.
    assert (grows s s2) as G by (eapply grows_trans; [exact G1|exact G2]).
    destruct (existsb _ _).
    + apply wp_modm, wp_section_end.
      * apply (HQ i strs2 true); [|done|by cbn; rewrite D2|done]. apply (ok_module _ _ s2); [done|done|by left|done].
      * intros msg. apply (ok_module _ _ (err msg s2)); [done|done|by left|done].
    + apply wp_ret, wp_section_end; [|done]. apply (HQ i strs2 (md_is_wasi (md s))); [done|done| |done].
      rewrite D2. by destruct (md s).
Qed.

End section.

End proofs.
