(* ===== verification/FunctionProofs.v ===== *)
(** The function section: the locals of a function are read twice, the copy of its
    code in between; both passes see the same bytes. *)
From stdpp Require Import base gmap list numbers strings.
From Stdlib Require Import Strings.Byte ZArith Lia.
From S2P Require Import Prelude CMemory WasmTypes Opcodes Leb FindBlock LoaderCtx Validate Typing Wp.
From S2P Require Import LoaderInv LoaderStep LoaderModule MemInit Sections LoadModule LoadInv Loaded SectionProofs.

(** * Two memories with the same section *)

Definition same_in (p e : Z) (m m' : mem) : Prop := ∀ x, p <= x < e → m' !!! x = m !!! x.

Lemma same_in_load p e m m' a n : same_in p e m m' → p <= a → a + n <= e → load_Z m' a n = load_Z m a n.
Proof. intros Hs Ha Hn. unfold load_Z. f_equal. apply load_ext. intros x Hx. apply Hs. lia. Qed.

Lemma same_in_le p q e m m' : same_in p e m m' → p <= q → same_in q e m m'.
Proof. intros Hs Hq x Hx. apply Hs. lia. Qed.

Lemma leb_loop_same p e m m' maxbits : same_in p e m m' → ∀ fuel off bcnt r sh, 0 <= off →
  loader_leb_loop fuel m' p e maxbits off bcnt r sh = loader_leb_loop fuel m p e maxbits off bcnt r sh.
Proof.
  intros Hs. induction fuel as [|fuel IH]; intros off bcnt r sh Ho; [done|]. cbn [loader_leb_loop].
  destruct (_ <? _); [done|]. unfold check_buf. destruct (Z.ltb_spec e (p + (off + 1))); [done|]. cbn [negb].
  rewrite (same_in_load p e m m') by (done || lia). destruct (_ =? 0); [done|]. apply IH. lia.
Qed.

Lemma leb_same p q e m m' : same_in p e m m' → p <= q → loader_leb_uint32 m' q e = loader_leb_uint32 m q e.
Proof.
  intros Hs Hq. unfold loader_leb_uint32, loader_read_leb.
  by rewrite (leb_loop_same q e m m') by (done || by eapply same_in_le).
Qed.

(** * The locals *)

(** The groups of locals from [p] on: how many locals and the end. *)
Fixpoint groups (m : mem) (e p : Z) (n : nat) : option (Z * Z) :=
  match n with
  | O => Some (0, p)
  | S n =>
      '(c, p) ← loader_leb_uint32 m p e;
      if e <? p + 1 then None else '(total, q) ← groups m e (p + 1) n; Some (c + total, q)
  end.

Lemma groups_span m e n : ∀ p total q, groups m e p n = Some (total, q) → p <= q ∧ 0 <= total ∧ (p < q → q <= e).
Proof.
  induction n as [|n IH]; intros p total q; cbn [groups]; [intros [= <- <-]; lia|].
  destruct (loader_leb_uint32 m p e) as [[c p1]|] eqn:E; [|done]. cbn.
  destruct (loader_leb_uint32_span _ _ _ _ _ E). destruct (Z.ltb_spec e (p1 + 1)); [done|].
  destruct (groups m e (p1 + 1) n) as [[t q']|] eqn:Eg; [|done]. cbn. intros [= <- <-].
  destruct (IH _ _ _ Eg) as (?&?&?). split_and!; [lia|lia|]. intros _. destruct (decide (p1 + 1 < q')); lia.
Qed.

Lemma groups_same m m' e n : ∀ p, same_in p e m m' → groups m' e p n = groups m e p n.
Proof.
  induction n as [|n IH]; intros p Hs; [done|]. cbn [groups]. rewrite (leb_same p p e m m') by (done || lia).
  destruct (loader_leb_uint32 m p e) as [[c p1]|] eqn:E; [|done]. cbn.
  destruct (loader_leb_uint32_span _ _ _ _ _ E) as [? _]. destruct (_ <? _); [done|].
  rewrite IH; [done|]. eapply same_in_le; [done|lia].
Qed.

Lemma wp_count_locals e n : ∀ acc s (Q : Z → loading → Prop) (F : loading → Prop),
  0 <= acc →
  (∀ total q, groups (mem_of s) e (pos s) n = Some (total, q) → Q (acc + total) (goto q s)) →
  (∀ msg p, F (err msg (goto p s))) →
  wp (count_locals e n acc) Q F s.
Proof.
  induction n as [|n IH]; intros acc s Q F Ha HQ HF; cbn [count_locals groups] in *.
  - apply wp_ret. rewrite <- (goto_here s), <- (Z.add_0_r acc). by apply HQ.
  - apply wp_bind, wp_section_leb; [|intros msg; rewrite <- (goto_here s); apply HF]. intros c p1 E Hc _.
    rewrite E in HQ. cbn in HQ. destruct (_ <? c); [apply wp_kfail, HF|].
    apply wp_bind, wp_CHECK_BUF; [|intros; apply HF]. intros Hp. cbn in Hp. rewrite (proj2 (Z.ltb_ge _ _)) in HQ by lia.
    apply wp_bind, wp_read_byte; [cbn; lia|]. apply IH; [lia| |intros; apply (HF _ p)].
    intros total q Eg. change (groups (mem_of s) e (p1 + 1) n = Some (total, q)) in Eg. rewrite Eg in HQ.
    rewrite <- Z.add_assoc. by apply HQ.
Qed.

(** The first [i] of the types are read. *)
Definition some_types (count i : Z) (l : list Z) : Prop :=
  zlen l = count ∧ types_wf (take (Z.to_nat i) l).

Lemma some_types_fill count i c l t :
  some_types count i l → 0 <= i → 0 <= c → i + c <= count → is_value_type t = true →
  some_types count (i + c) (fill l i c t).
Proof.
  intros [Hl Hw] Hi Hc Hle Ht. unfold fill, some_types. unfold zlen in *. split.
  - rewrite !length_app, length_take, length_drop, length_replicate. lia.
  - rewrite take_app_ge by (rewrite length_take; lia).
    rewrite length_take, take_app_ge, length_replicate by (rewrite length_replicate; lia).
    replace (_ - _ - _)%nat with 0%nat by lia. rewrite take_0, app_nil_r.
    apply Forall_app_2; [done|]. apply Forall_forall. intros x [-> _]%elem_of_replicate. done.
Qed.

Lemma value_byte t : (t <? VALUE_TYPE_F64) || (VALUE_TYPE_I32 <? t) = false → is_value_type t = true.
Proof.
  unfold is_value_type. change VALUE_TYPE_F64 with 124. change VALUE_TYPE_I32 with 127.
  change VALUE_TYPE_I64 with 126. change VALUE_TYPE_F32 with 125. intros Hr.
  apply orb_false_iff in Hr as [H1%Z.ltb_ge H2%Z.ltb_ge].
  assert (t = 124 ∨ t = 125 ∨ t = 126 ∨ t = 127) as [-> |[-> |[-> | ->]]] by lia; done.
Qed.

Lemma wp_load_locals e n count : ∀ i l s (Q : list Z → loading → Prop) (F : loading → Prop) total q,
  groups (mem_of s) e (pos s) n = Some (total, q) → i + total = count → count < 2 ^ 32 → 0 <= i →
  some_types count i l →
  (∀ l, zlen l = count → types_wf l → Q l (goto q s)) → (∀ msg p, F (err msg (goto p s))) →
  wp (load_locals e n count i l) Q F s.
Proof.
  induction n as [|n IH]; intros i l s Q F total q Eg Htot Hc Hi Hl HQ HF; cbn [load_locals groups] in *.
  - injection Eg as <- <-. apply wp_ret. rewrite goto_here in HQ. destruct Hl as [Hz Hw].
    rewrite take_ge in Hw by (unfold zlen in Hz; lia). by apply HQ.
  - apply wp_bind, wp_section_leb; [|intros msg; rewrite <- (goto_here s); apply HF]. intros c p1 E Hcr _.
    rewrite E in Eg. cbn in Eg. destruct (Z.ltb_spec e (p1 + 1)); [done|].
    destruct (groups (mem_of s) e (p1 + 1) n) as [[t q']|] eqn:Eg'; [|done]. cbn in Eg. injection Eg as Et <-.
    destruct (groups_span _ _ _ _ _ _ Eg') as (_&Ht&_). destruct (_ || _); [apply wp_kfail, HF|].
    apply wp_bind, wp_CHECK_BUF; [|intros; apply HF]. intros Hp. apply wp_bind, wp_read_byte; [cbn; lia|].
    destruct (_ || _) eqn:Hv; [apply wp_kfail, (HF _ (p1 + 1))|].
    eapply IH; [exact Eg'|lia|done|lia| |exact HQ|intros; apply (HF _ p)].
    apply some_types_fill; [done|lia|lia|lia|]. by apply value_byte.
Qed.

Lemma function_ok_grows ts s s' f : grows s s' → function_ok ts (heap_of s) f → function_ok ts (heap_of s') f.
Proof.
  intros G [? ? ? ? ? ? ? (cb&Hcb&Hb)]. constructor; [done..|]. exists cb. split; [done|]. by eapply bytes_kept.
Qed.

Lemma cells_wrap ts : wrap 16 (uint32 (wasm_get_cell_num ts)) = wrap 16 (wasm_get_cell_num ts).
Proof. unfold uint32, wrap. apply Z.mod_mod_divide. by exists (2 ^ 16). Qed.

Section proofs.
Context `{PlacedPool} (old : before).

Abbreviation oks := (ok old []).
Abbreviation fillf := (filling old set_md_functions).

Lemma fill_function hand s n b done s1 x y f (Q : unit → loading → Prop) F :
  fillf hand s n b None (done ++ [Some x]) s1 → zlen done < n → y = Some f →
  (∀ z, z ∈ function_blocks (Some x) → z ∈ function_blocks y) →
  (∀ z, z ∈ function_blocks y → z ∈ hand ∨ z ∈ function_blocks (Some x)) →
  (∀ s2, ld s2 = ld s1 → fillf hand s n b None (done ++ [y]) s2 → Q tt s2) →
  wp (set_function (zlen done) f) Q F s1.
Proof.
  intros Hf Hd -> Hbl Hbl' HQ.
  eapply (wp_fill_again old md_functions set_md_functions function_blocks); [reflexivity..|exact Hf|exact Hd|exact Hbl|exact Hbl'|exact HQ].
Qed.

(** The offsets of the locals, and the last store of the function. *)
Lemma wp_init_offsets s n b done s1 f (Q : unit → loading → Prop) :
  fillf [] s n b None (done ++ [Some f]) s1 → zlen done < n → fn_offsets_block f = None →
  0 <= param_count (ty (fn_type f)) + local_count f →
  (∀ ob s2,
     let f' := mkFunctionObj (fn_type f) (local_count f) (fn_local_types f) (param_cell_num f) (ret_cell_num f)
       (local_cell_num f) (offsets_of (param_types (ty (fn_type f)) ++ fn_local_types f) 0)
       (fn_verdict f) (fn_code_size f) (fn_code f) (fn_block f) ob (fn_code_block f) in
     fillf [] s n b None (done ++ [Some f']) s2 → mem_of s2 = mem_of s1 → pos s2 = pos s1 → grows s1 s2 → Q tt s2) →
  wp (let+ f := init_function_local_offsets f in set_function (zlen done) f) Q oks s1.
Proof.
  intros Hf Hd Ho Hn HQ. apply wp_bind. unfold init_function_local_offsets.
  destruct (0 <? _).
  - eapply (wp_take old set_md_functions); [exact Hf|lia| |by intros s2 [? ? ? ?]].
    intros y a s2 Hf2 T. apply wp_ret. eapply fill_function; [exact Hf2|exact Hd|reflexivity| | |].
    1-2: intros z; cbn; rewrite Ho; cbn; set_solver.
    intros s3 E3 Hf3. apply (HQ (Some y)).
    + eapply (filling_settle old md_functions set_md_functions function_blocks); [reflexivity|exact Hf3| |].
      * cbn. set_solver.
      * unfold heap_of. rewrite E3. apply T.
    + unfold mem_of. rewrite E3. apply T.
    + unfold pos. rewrite E3. apply T.
    + destruct (tk_grows _ _ _ _ _ _ _ T). constructor; unfold heap_of, mem_of in *; by rewrite E3.
  - apply wp_ret. eapply fill_function; [exact Hf|exact Hd|reflexivity| | |].
    1-2: intros z; cbn; rewrite Ho; auto.
    intros s3 E3 Hf3. apply (HQ None); [exact Hf3|unfold mem_of; by rewrite E3|unfold pos; by rewrite E3|].
    constructor; unfold heap_of, mem_of; by rewrite E3.
Qed.

(** A section that is in a live block. *)
Definition in_block (h : scratch) (p e : Z) : Prop :=
  e - p <= 2 ^ 30 ∧ ∃ b r, block_at h b r ∧ r.1 <= p ∧ e <= r.1 + r.2.

Lemma in_block_grows s s' p e : grows s s' → in_block (heap_of s) p e → in_block (heap_of s') p e.
Proof. intros G (?&b&r&?&?). split; [done|]. exists b, r. split; [by eapply block_kept|done]. Qed.

Lemma in_block_same s s' p e : grows s s' → in_block (heap_of s) p e → same_in p e (mem_of s) (mem_of s').
Proof. intros [_ _ G] (_&b&r&Hb&?&?) x Hx. apply (G b r Hb). unfold in_region. lia. Qed.

(** The second pass over the locals, and the offsets. *)
Lemma wp_function_locals s n b done s1 be q sets q' locals t code csize cb fb (Q : Z → loading → Prop) p' :
  let func ts cells :=
    mkFunctionObj t locals ts (ty_param_cell_num t) (ty_ret_cell_num t) cells [] no_verdict csize code fb None (Some cb) in
  fillf [] s n b None (done ++ [Some (func (replicate (Z.to_nat locals) 0) 0)]) s1 → zlen done < n →
  groups (mem_of s1) be q sets = Some (locals, q') → 0 <= locals < 2 ^ 30 → type_ok t →
  (∀ f s2, types_wf (fn_local_types f) → zlen (fn_local_types f) = locals →
     (∃ ob, f = mkFunctionObj t locals (fn_local_types f) (ty_param_cell_num t) (ty_ret_cell_num t)
       (wrap 16 (wasm_get_cell_num (fn_local_types f)))
       (offsets_of (param_types (ty t) ++ fn_local_types f) 0) no_verdict csize code fb ob (Some cb)) →
     fillf [] s n b None (done ++ [Some f]) s2 → grows s1 s2 → Q p' s2) →
  wp (let+ local_types := at_cursor q (load_locals be sets locals 0 (replicate (Z.to_nat locals) 0)) in
      let f := func local_types.1 (wrap 16 (uint32 (wasm_get_cell_num local_types.1))) in
      set_function (zlen done) f ;+
      let+ f := init_function_local_offsets f in
      set_function (zlen done) f ;+
      lret p') Q oks s1.
Proof.
  intros func Hf Hd Hg Hl Ht HQ. apply wp_bind, wp_at_cursor.
  eapply (wp_load_locals be sets locals 0); [exact Hg|lia|lia|lia| | |intros; apply Hf].
  { split; [rewrite zlen_replicate; lia|]. rewrite take_0. constructor. }
  intros ts Hz Hw. cbn [fst]. rewrite cells_wrap. apply wp_bind. eapply fill_function; [exact Hf|exact Hd|done|done|by right|].
  intros s2 E2 Hf2. apply wp_bind_assoc. apply wp_bind. eapply wp_init_offsets; [exact Hf2|exact Hd|done| |].
  { cbn. destruct (to_params _ Ht). lia. }
  intros ob s3 f' Hf3 M3 P3 G3. apply wp_ret. apply (HQ f'); [exact Hw|exact Hz|by exists ob|exact Hf3|].
  eapply grows_trans; [|exact G3]. constructor; unfold heap_of, mem_of; by rewrite E2.
Qed.

(** Reading at another cursor. *)
Lemma back_here s p q : goto (pos s) (goto p (goto q s)) = s.
Proof. by destruct s as [[]]. Qed.

Lemma wp_leb_at q e s (Q : Z * Z → loading → Prop) (F : loading → Prop) :
  (∀ v q', loader_leb_uint32 (mem_of s) q e = Some (v, q') → 0 <= v < 2 ^ 32 → q < q' <= e → Q (v, q') s) →
  (∀ msg p, F (err msg (goto p s))) → wp (at_cursor q (LoaderModule.read_leb_uint32 e)) Q F s.
Proof.
  intros HQ HF. apply wp_at_cursor, wp_section_leb; [|intros; apply HF].
  intros v q' E Hv Hq. rewrite back_here. by apply HQ.
Qed.

Lemma wp_count_at q e n s (Q : Z * Z → loading → Prop) (F : loading → Prop) :
  (∀ total q', groups (mem_of s) e q n = Some (total, q') → Q (total, q') s) →
  (∀ msg p, F (err msg (goto p s))) → wp (at_cursor q (count_locals e n 0)) Q F s.
Proof.
  intros HQ HF. apply wp_at_cursor, wp_count_locals; [done| |intros; apply (HF _ p)].
  intros total q' E. change (pos (goto q' _)) with q'. rewrite back_here. by apply HQ.
Qed.

(** What one function adds. *)
Definition adds_function (s : loading) (n : Z) (b : nat) (done : list (option function_obj)) (s1 s2 : loading) : Prop :=
  grows s1 s2 ∧ ∃ f cb, fillf [] s n b None (done ++ [Some f]) s2
    ∧ function_ok (md_types (md s)) (heap_of s2) f ∧ fn_code_block f = Some cb ∧ live (heap_of s1) !! cb = None.

Lemma wp_load_function e buf be s n b done s1 p :
  fillf [] s n b None done s1 → zlen done < n → types_ok (md_types (md s)) → in_block (heap_of s) buf be → buf <= p →
  wp (load_function e be (zlen done) p) (fun p' s2 => buf <= p' ∧ adds_function s n b done s1 s2) oks s1.
Proof.
  intros Hf Hd Ht Hbuf Hp. pose proof (proj1 Hf) as Hok. assert (md_types (md s1) = md_types (md s)) as Et.
  { destruct Hf as (_&_&strs&->). done. }
  apply wp_bind, wp_section_leb; [|done]. intros ti q0 _ Hti _. apply wp_bind, wp_getm. cbn [goto md]. rewrite Et.
  destruct (Z.leb_spec (count (md_types (md s))) ti); [by apply wp_kfail|].
  destruct (loaded_index _ _ ti Ht) as (o&Ho&(tb&t&->&Htok)); [lia|].
  apply wp_bind, wp_leb_at; [|done]. intros size q1 _ Hsize Hq1. cbn [fst snd].
  destruct (Z.eqb_spec size 0); [by apply wp_kfail|].
  destruct (Z.ltb_spec be (q1 + size)) as [|Hend]; [by apply wp_kfail|]. cbn [orb].
  apply wp_bind, wp_leb_at; [|done]. intros sets q2 _ Hsets Hq2. cbn [fst snd].
  apply wp_bind, wp_count_at; [|done]. intros locals q3 Eg. cbn [fst snd].
  destruct (groups_span _ _ _ _ _ _ Eg) as (Hq3&Hlocals&Hq3').
  set (s2 := goto q0 s1) in *. assert (fillf [] s n b None done s2) as Hf2 by exact Hf.
  assert (in_block (heap_of s2) buf be) as Hbuf2 by (eapply (in_block_grows s); [apply Hf|done]).
  eapply (wp_take old set_md_functions); [exact Hf2|assert (0 <= sizeof WASMFunction) by (by vm_compute); lia
    | |by intros s3 [? ? ? ?]].
  intros y a s3 Hf3 T3. pose proof (tk_bound _ _ _ _ _ _ _ T3) as Hbound.
  assert (locals < 2 ^ 30) as Hlt by (assert (0 < sizeof WASMFunction) by (by vm_compute); lia).
  apply wp_bind. eapply wp_elem; [exact Ho|]. apply wp_bind. eapply wp_some; [done|]. cbn [snd].
  apply wp_bind.
  eapply (wp_fill_taken old md_functions set_md_functions function_blocks); [reflexivity..|exact Hf3|exact T3|exact Hd|reflexivity|reflexivity|].
  intros s4 E4 Hf4. pose proof (tk_grows _ _ _ _ _ _ _ T3) as G3.
  assert (grows s2 s4) as G4 by (destruct G3; constructor; unfold heap_of, mem_of in *; by rewrite E4).
  set (csize := uint32 (q1 + size - q3)). assert (0 <= csize < 2 ^ 32) as Hcs by (by apply wrap_range).
  eapply (wp_take old set_md_functions); [exact Hf4|lia| |by intros s5 [? ? ? ?]].
  intros cb ca s5 Hf5 T5. match type of Hf5 with filling _ _ _ _ _ _ _ ?l _ => set (fs := l) in * end.
  assert (fillf [] s n b None fs s5) as Hf6 by (eapply filling_bytes; [exact Hf5|exact T5]).
  assert (csize = q1 + size - q3) as Hexact.
  { pose proof (tk_bound _ _ _ _ _ _ _ T5) as Hb. destruct Hbuf as [Hb' _]. unfold csize, uint32, wrap in *.
    destruct (decide (q3 <= q1 + size)); [apply Z.mod_small; lia|].
    rewrite <- (Z.mod_add _ 1) in Hb by lia. rewrite Z.mod_small in Hb by lia. lia. }
  apply wp_bind, wp_at_cursor.
  assert (taken (goto q3 s4) cb ca csize uint8T csize (goto q3 s5)) as T6 by (by destruct T5).
  eapply (wp_fill_copy old set_md_functions []);
    [exact (Hf6 : fillf [] s n b None fs (goto q3 s5))|exact T6|apply Hf4|lia|cbn; lia|].
  intros s6 E6 M6 P6 Hf7 G6. cbn [fst]. apply wp_bind. eapply fill_function; [exact Hf7|exact Hd|done|done|by right|].
  set (s7 := goto _ s6). intros s8 E8 Hf8. assert (grows s4 s8) as G8.
  { destruct G6. constructor; unfold heap_of, mem_of in *; by rewrite E8. }
  assert (grows s2 s8) as G28 by (by eapply grows_trans).
  eapply (wp_function_locals s n b done s8 be q2 (Z.to_nat sets) q3 locals t ca csize cb y); [exact Hf8|exact Hd| |lia|exact Htok|].
  { rewrite <- Eg. apply groups_same. eapply same_in_le; [by eapply in_block_same|lia]. }
  intros f s9 Hw Hz (ob&Hfeq) Hf9 G9. split; [lia|]. split; [by eapply grows_trans; [exact G28|]|].
  assert (heap_of s8 = heap_of s5) as E85 by (unfold heap_of in *; by rewrite E8; cbn; rewrite E6).
  exists f, cb. split_and!; [exact Hf9| |by rewrite Hfeq|].
  - eapply function_ok_grows; [exact G9|]. rewrite E85. set (ts := fn_local_types f) in *. rewrite Hfeq.
    constructor; cbn [fn_type fn_local_types param_cell_num ret_cell_num local_cell_num local_count fn_local_offsets];
      [exists tb; by eapply index_in|done..|].
    exists cb. split; [done|]. split; apply T5.
  - pose proof (tk_new _ _ _ _ _ _ _ T5) as Hn. destruct (live (heap_of s1) !! cb) as [x|] eqn:El; [|done].
    pose proof (kh_live _ _ _ _ G4 cb) as Hk. change (heap_of s2) with (heap_of s1) in Hk.
    rewrite Hk, El in Hn by (by eexists). done.
Qed.


(** ** The functions *)

(** The functions that are loaded, each with its code in a block of its own. *)
Definition fns_ok (ts : types_array) (h : scratch) (l : list (option function_obj)) : Prop :=
  Forall (fun o => ∃ f, o = Some f ∧ function_ok ts h f) l
  ∧ ∀ i j f g, i ≠ j → l !! i = Some (Some f) → l !! j = Some (Some g) → fn_code_block f ≠ fn_code_block g.

Lemma fns_ok_grows ts s s' l : grows s s' → fns_ok ts (heap_of s) l → fns_ok ts (heap_of s') l.
Proof.
  intros G [HF Hd]. split; [|exact Hd]. eapply Forall_impl; [exact HF|]. intros o (f&->&Hf).
  exists f. split; [done|]. by eapply function_ok_grows.
Qed.

(** The block of the code of a function is live. *)
Lemma fns_ok_live ts h l i f cb :
  fns_ok ts h l → l !! i = Some (Some f) → fn_code_block f = Some cb → is_Some (live h !! cb).
Proof.
  intros [HF _] Hi Hcb. destruct (proj1 (Forall_lookup _ _) HF _ _ Hi) as (f'&[= <-]&Hf).
  destruct (fo_code _ _ _ Hf) as (cb'&Hcb'&[Hl _]). rewrite Hcb in Hcb'. injection Hcb' as <-. by eexists.
Qed.

Lemma fns_ok_snoc ts s s' l f cb :
  fns_ok ts (heap_of s) l → grows s s' → function_ok ts (heap_of s') f → fn_code_block f = Some cb →
  live (heap_of s) !! cb = None → fns_ok ts (heap_of s') (l ++ [Some f]).
Proof.
  intros Hl G Hf Hcb Hn. pose proof (fns_ok_grows _ _ _ _ G Hl) as [HF Hd].
  assert (∀ i g, l !! i = Some (Some g) → fn_code_block g ≠ fn_code_block f) as Hnew.
  { intros i g Hi Heq. rewrite Hcb in Heq. pose proof (fns_ok_live _ _ _ _ _ _ Hl Hi Heq) as [x Hx]. congruence. }
  split.
  - apply Forall_app_2; [done|]. constructor; [by exists f|constructor].
  - intros i j g g' Hne [Hi|[Li [Li' Ei]%list_lookup_singleton_Some]]%lookup_app_Some
      [Hj|[Lj [Lj' Ej]%list_lookup_singleton_Some]]%lookup_app_Some; [by eapply Hd| | |lia].
    + injection Ej as <-. by eapply Hnew.
    + injection Ei as <-. symmetry. by eapply Hnew.
Qed.


Lemma wp_load_functions e buf be s n b m : ∀ done s1 p (Q : unit → loading → Prop),
  fillf [] s n b None done s1 → fns_ok (md_types (md s)) (heap_of s1) done → zlen done + Z.of_nat m = n →
  types_ok (md_types (md s)) → in_block (heap_of s) buf be → buf <= p →
  (∀ done' s2, fillf [] s n b None done' s2 → zlen done' = n → fns_ok (md_types (md s)) (heap_of s2) done' → Q tt s2) →
  wp (load_functions e be m (zlen done) p) Q oks s1.
Proof.
  induction m as [|m IH]; intros done s1 p Q Hf Hl Hn Ht Hbuf Hp HQ; cbn [load_functions].
  - apply wp_ret. eapply HQ; [exact Hf|lia|done].
  - apply wp_bind. eapply wp_mono; [eapply wp_load_function; [exact Hf|lia|done|exact Hbuf|exact Hp]| |done].
    intros p' s2 (Hp'&G&f&cb&Hf2&Hok2&Hcb&Hnew). cbv beta. rewrite <- (zlen_snoc (Some f) done).
    eapply IH; [exact Hf2| |rewrite zlen_snoc; lia|done|done|exact Hp'|exact HQ]. by eapply fns_ok_snoc.
Qed.

Lemma wp_load_function_section e code s (Q : unit → loading → Prop) :
  oks s → md_functions (md s) = no_elems → types_ok (md_types (md s)) →
  (∀ buf be, code = Some (buf, be) → in_block (heap_of s) buf be) →
  (∀ c strs s2, oks s2 → grows s s2 → md s2 = set_md_strings strs (set_md_functions c (md s)) →
     functions_ok (md_types (md s)) (heap_of s2) c → Q tt s2) →
  wp (load_function_section e code) Q oks s.
Proof.
  intros Hok Hb Ht Hcode HQ. apply wp_bind, wp_section_leb; [|done]. intros n q _ Hn _. set (s1 := goto q s).
  assert (oks s1) as Hok1 by done.
  assert (∀ count p be, (n ≠ 0 → count = n → ∃ buf, in_block (heap_of s) buf be ∧ buf <= p) →
    wp (let code := (count, p, be) in
        if negb (n =? code.1.1)
        then fail "function and code section have inconsistent lengths or unexpected end"
        else (if negb (n =? 0) then
                new_array set_md_functions 8 n WASMFunctionTT None ;+
                load_functions e code.2 (Z.to_nat n) 0 code.1.2
              else lret tt) ;+ section_end e) Q oks s1) as Hend.
  { intros count p be Hpos. cbn [fst snd]. destruct (Z.eqb_spec n count) as [<-|]; cbn [negb]; [|by apply wp_kfail].
    apply wp_bind. destruct (Z.eqb_spec n 0) as [->|Hne]; cbn [negb].
    - apply wp_ret, wp_section_end; [|done]. apply (HQ no_elems (md_strings (md s))); [done|done| |].
      + rewrite <- Hb. by destruct s as [? []].
      + split; [apply loaded_none|]. intros i j f g _ Hi. done.
    - destruct (Hpos Hne eq_refl) as (buf&Hbuf&Hp). apply wp_bind.
      eapply (wp_new_array old md_functions set_md_functions function_blocks); [exact Hok1|change (md s1) with (md s); by rewrite Hb|done|lia|lia| |done].
      intros b s2 Hsz D M P Hok2 G.
      eapply (wp_load_functions e buf be s n b (Z.to_nat n) [] s2 p); [| |unfold zlen; cbn [length]; lia|done|exact Hbuf|exact Hp|].
      + split_and!; [done|exact G|]. exists (md_strings (md s)). rewrite partial_nil, D.
        change (md s1) with (md s). by destruct (md s).
      + split; [constructor|]. intros i j f g _ Hi. done.
      + intros done' s3 (Hok3&G3&strs&D3) Hl [HF Hd]. rewrite partial_full in D3 by done.
        apply wp_section_end; [|done]. eapply HQ; [exact Hok3|exact G3|exact D3|].
        split; [|exact Hd]. constructor; cbn [count elems array]; [lia|lia|done]. }
  apply wp_bind. destruct code as [[buf be]|].
  - apply wp_bind, wp_leb_at; [|done]. intros count q' _ Hc Hq'. apply wp_ret. apply (Hend count q' be).
    intros _ _. exists buf. split; [by apply Hcode|lia].
  - apply wp_ret. apply (Hend 0 NULL NULL). lia.
Qed.

End proofs.
