(* ===== verification/LoadProofs.v ===== *)
(** All sections: cutting the binary into sections, each in a block of its own and all
    in order; and loading one after the other, where each finds the parts it needs
    loaded and its own part empty. *)
From stdpp Require Import base gmap list numbers strings.
From Stdlib Require Import Strings.Byte ZArith Lia.
From S2P Require Import Prelude CMemory WasmTypes Opcodes Leb FindBlock LoaderCtx Validate Typing Wp.
From S2P Require Import LoaderInv LoaderStep LoaderModule MemInit Sections LoadModule LoadInv Loaded.
From S2P Require Import SectionProofs ImportProofs FunctionProofs.

(** * The module between two sections *)

(** The parts whose sections come behind section [t] are empty. *)
Record staged (t : Z) (h : scratch) (m : module_obj) : Prop := {
  sg_ok : module_ok h m;
  sg_types : t < 1 → md_types m = no_elems;
  sg_imports : t < 2 → md_imports m = no_imports;
  sg_functions : t < 3 → md_functions m = no_elems;
  sg_tables : t < 4 → md_tables m = no_elems;
  sg_memories : t < 5 → md_memories m = no_elems;
  sg_globals : t < 6 → md_globals m = no_elems;
  sg_exports : t < 7 → md_exports m = no_elems;
  sg_start : t < 8 → md_start_function m = UINT32_MAX;
  sg_segments : t < 9 → md_table_segments m = no_elems;
  sg_data : t < 11 → md_data_segments m = no_elems
}.

Lemma functions_ok_grows ts s s' c : grows s s' → functions_ok ts (heap_of s) c → functions_ok ts (heap_of s') c.
Proof.
  intros G [[H1 H2 HF] Hd]. destruct (fns_ok_grows ts s s' (elems c) G (conj HF Hd)) as [HF' _].
  split; [by constructor|done].
Qed.

Lemma module_ok_grows s s' m : grows s s' → module_ok (heap_of s) m → module_ok (heap_of s') m.
Proof. intros G []. constructor; try done. by eapply functions_ok_grows. Qed.

Lemma staged_grows t s s' m : grows s s' → staged t (heap_of s) m → staged t (heap_of s') m.
Proof. intros G []. constructor; try done. by eapply module_ok_grows. Qed.

Lemma staged_blank b h : staged 0 h (blank_module b).
Proof.
  constructor; try done. constructor; first [apply loaded_none|apply no_imports_ok|by left|by split; [apply loaded_none|]].
Qed.

Section sections.
Context `{PlacedPool} (old : before).
Context (statics : memory_statics) (resolve_symbol : list Z → list Z → type_obj → native_symbol).

Abbreviation oks := (ok old []).

(** After a section. *)
Definition section_done (t : Z) (s s' : loading) : Prop :=
  oks s' ∧ grows s s' ∧ staged t (heap_of s') (md s').

Lemma functions_none ts h : functions_ok ts h no_elems.
Proof. split; [apply loaded_none|]. by intros. Qed.

(** The parts of a module of which one is new; the others are as they were, or empty. *)
Ltac part :=
  match goal with
  | E : _ → ?x = no_elems |- loaded _ ?x => rewrite E by lia; apply loaded_none
  | E : _ → ?x = no_elems |- functions_ok _ _ ?x => rewrite E by lia; apply functions_none
  | E : _ → ?x = no_imports |- imports_ok _ ?x => rewrite E by lia; apply no_imports_ok
  | E : _ → ?x = no_elems |- loaded _ ?x ∧ _ => rewrite E by lia; split; [apply loaded_none|cbn]
  | E : _ → _ = UINT32_MAX |- start_ok _ => left; cbn; by rewrite E by lia
  | _ => idtac
  end.

Ltac stage Hs :=
  destruct Hs as [[]]; constructor; [constructor|..]; try assumption; try (intros; cbn; by auto with lia); try lia;
  cbn [md_types md_imports md_functions md_tables md_memories md_globals md_exports md_table_segments
    md_data_segments md_start_function set_md_types set_md_imports set_md_functions set_md_tables set_md_memories
    set_md_globals set_md_exports set_md_table_segments set_md_data_segments set_md_start_function set_md_strings
    set_md_is_wasi]; part.

Lemma staged_types t h m c strs :
  t < 1 → staged t h m → types_ok c → staged 1 h (set_md_strings strs (set_md_types c m)).
Proof. intros Ht Hs Hc. stage Hs. Qed.

Lemma staged_imports t h m i strs w :
  t < 2 → staged t h m → imports_ok (md_types m) i →
  staged 2 h (set_md_is_wasi w (set_md_strings strs (set_md_imports i m))).
Proof. intros Ht Hs Hc. destruct (imports_bounds _ _ Hc) as (_&?&?&_). stage Hs; lia. Qed.

Lemma staged_functions t h m c strs :
  t < 3 → staged t h m → functions_ok (md_types m) h c → staged 3 h (set_md_strings strs (set_md_functions c m)).
Proof. intros Ht Hs Hc. stage Hs. Qed.

Lemma staged_tables t h m c strs :
  t < 4 → staged t h m → loaded table_ok c → m_import_table_count (md_imports m) + count c <= 1 →
  staged 4 h (set_md_strings strs (set_md_tables c m)).
Proof. intros Ht Hs Hc Hn. stage Hs. Qed.

Lemma staged_memories t h m c strs :
  t < 5 → staged t h m → loaded memory_ok c → m_import_memory_count (md_imports m) + count c <= 1 →
  staged 5 h (set_md_strings strs (set_md_memories c m)).
Proof. intros Ht Hs Hc Hn. stage Hs. Qed.

Lemma staged_globals t h m c strs :
  t < 6 → staged t h m → loaded (global_ok (import_global_count (md_imports m))) c →
  staged 6 h (set_md_strings strs (set_md_globals c m)).
Proof. intros Ht Hs Hc. stage Hs. Qed.

Lemma staged_exports t h m c strs :
  t < 7 → staged t h m → loaded (export_ok m) c → staged 7 h (set_md_strings strs (set_md_exports c m)).
Proof. intros Ht Hs Hc. stage Hs. Qed.

Lemma staged_start t h m f :
  t < 8 → staged t h m → start_ok (set_md_start_function f m) → staged 8 h (set_md_start_function f m).
Proof. intros Ht Hs Hc. stage Hs. Qed.

Lemma staged_segments t h m c strs :
  t < 9 → staged t h m → loaded (segment_ok m) c → staged 9 h (set_md_strings strs (set_md_table_segments c m)).
Proof. intros Ht Hs Hc. stage Hs. Qed.

Lemma staged_code t h m : t < 10 → staged t h m → staged 10 h m.
Proof. intros Ht Hs. stage Hs. Qed.

Lemma staged_data t h m c strs :
  t < 11 → staged t h m → loaded (data_ok m) c → staged 11 h (set_md_strings strs (set_md_data_segments c m)).
Proof. intros Ht Hs Hc. stage Hs. Qed.

(** ** A section *)

Definition sections_live (h : scratch) (l : list section_obj) : Prop :=
  Forall (fun x => in_block h (section_range x).1 (section_range x).2) l.

Lemma sections_live_grows s s' l : grows s s' → sections_live (heap_of s) l → sections_live (heap_of s') l.
Proof. intros G Hl. eapply Forall_impl; [exact Hl|]. intros x. by apply in_block_grows. Qed.

Lemma find_section_live h t l : ∀ found p e,
  sections_live h l → (∀ p e, found = Some (p, e) → in_block h p e) →
  find_section t l found = Some (p, e) → in_block h p e.
Proof.
  induction l as [|x l IH]; intros found p e; [by auto|]. cbn [find_section].
  intros [Hx Hl]%Forall_cons Hf. apply IH; [done|]. destruct (_ =? t); [|exact Hf]. by intros ? ? [= <- <-].
Qed.

(** The order number behind a section. *)
Definition stage_after (l : Z) (x : section_obj) : Z := if section_type x =? SECTION_TYPE_USER then l else section_type x.

Lemma wp_load_section all x l s (Q : unit → loading → Prop) :
  oks s → staged l (heap_of s) (md s) → sections_live (heap_of s) all →
  (section_type x ≠ SECTION_TYPE_USER → l < section_type x) →
  (∀ s', section_done (stage_after l x) s s' → Q tt s') →
  wp (load_section statics resolve_symbol all x) Q oks s.
Proof.
  intros Hok Hs Hlive Hord HQ. unfold load_section, stage_after in *. apply wp_bind, wp_set_p.
  set (t := section_type x) in *. set (s1 := goto _ s). set (e := section_body x + section_body_size x).
  assert (∀ k s', t = k → k ≠ SECTION_TYPE_USER → oks s' → grows s1 s' → staged k (heap_of s') (md s') → Q tt s') as Hdone.
  { intros k s' Ht Hk Hok' G Hs'. apply HQ. rewrite (proj2 (Z.eqb_neq _ _)) by congruence. rewrite Ht. by split_and!. }
  assert (∀ s', grows s1 s' → staged l (heap_of s') (md s)) as Hg by (intros s' G; by apply (staged_grows l s)).
  destruct (Z.eqb_spec t SECTION_TYPE_USER) as [T0|T0]; cbn iota.
  { apply wp_load_user_section; [done|]. intros p. apply HQ. by split_and!. }
  specialize (Hord T0).
  destruct (Z.eqb_spec t SECTION_TYPE_TYPE) as [T|T1]; cbn iota.
  { rewrite T in Hord. apply (wp_load_type_section old); [done|apply (sg_types _ _ _ Hs); exact Hord|].
    intros c strs s2 Hok2 G D Hc. apply (Hdone 1); [done|done|done|done|]. rewrite D. by eapply staged_types; [exact Hord|apply Hg|]. }
  destruct (Z.eqb_spec t SECTION_TYPE_IMPORT) as [T|T2]; cbn iota.
  { rewrite T in Hord. apply (wp_load_import_section old); [done|apply (sg_imports _ _ _ Hs); exact Hord|apply (sg_ok _ _ _ Hs)|].
    intros i strs w s2 Hok2 G D Hc. apply (Hdone 2); [done|done|done|done|]. rewrite D.
    by eapply staged_imports; [exact Hord|apply Hg|]. }
  destruct (Z.eqb_spec t SECTION_TYPE_FUNC) as [T|T3]; cbn iota.
  { rewrite T in Hord. apply (wp_load_function_section old);
      [done|apply (sg_functions _ _ _ Hs); exact Hord|apply (sg_ok _ _ _ Hs)| |].
    - intros p q E. eapply (find_section_live _ _ all None); [exact Hlive|done|exact E].
    - intros c strs s2 Hok2 G D Hc. apply (Hdone 3); [done|done|done|done|]. rewrite D.
      by eapply staged_functions; [exact Hord|apply Hg|]. }
  pose proof (sg_ok _ _ _ Hs) as Hm. destruct (imports_bounds _ _ (ok_imports _ _ Hm)) as (Hif&Hit&Him&Hig&_).
  destruct (Z.eqb_spec t SECTION_TYPE_TABLE) as [T|T4]; cbn iota.
  { rewrite T in Hord. apply (wp_load_table_section old); [done|apply (sg_tables _ _ _ Hs); exact Hord|exact Hit|].
    intros c strs s2 Hok2 G D Hc Hn. apply (Hdone 4); [done|done|done|done|]. rewrite D.
    by eapply staged_tables; [exact Hord|apply Hg|..]. }
  destruct (Z.eqb_spec t SECTION_TYPE_MEMORY) as [T|T5]; cbn iota.
  { rewrite T in Hord. apply (wp_load_memory_section old); [done|apply (sg_memories _ _ _ Hs); exact Hord|exact Him|].
    intros c strs s2 Hok2 G D Hc Hn. apply (Hdone 5); [done|done|done|done|]. rewrite D.
    by eapply staged_memories; [exact Hord|apply Hg|..]. }
  destruct (Z.eqb_spec t SECTION_TYPE_GLOBAL) as [T|T6]; cbn iota.
  { rewrite T in Hord. apply (wp_load_global_section old); [done|apply (sg_globals _ _ _ Hs); exact Hord|].
    intros c strs s2 Hok2 G D Hc. apply (Hdone 6); [done|done|done|done|]. rewrite D.
    by eapply staged_globals; [exact Hord|apply Hg|]. }
  destruct (Z.eqb_spec t SECTION_TYPE_EXPORT) as [T|T7]; cbn iota.
  { rewrite T in Hord. apply (wp_load_export_section old); [done|apply (sg_exports _ _ _ Hs); exact Hord|].
    intros c strs s2 Hok2 G D Hc. apply (Hdone 7); [done|done|done|done|]. rewrite D.
    by eapply staged_exports; [exact Hord|apply Hg|]. }
  destruct (Z.eqb_spec t SECTION_TYPE_START) as [T|T8]; cbn iota.
  { rewrite T in Hord. apply (wp_load_start_section old); [done|apply Hm|apply Hm|apply Hm|].
    intros f p Hf. apply (Hdone 8); [done|done| |done|]; [apply (ok_module _ _ (goto p s1)); [done|done|by left|done]|].
    by eapply staged_start; [exact Hord|apply (Hg (goto p s1))|]. }
  assert (0 <= count (md_tables (md s)) ∧ 0 <= count (md_memories (md s))) as [Hct Hcm].
  { destruct (ok_tables _ _ Hm) as [[-> _ _] _], (ok_memories _ _ Hm) as [[-> _ _] _]. split; apply zlen_nonneg. }
  destruct (Z.eqb_spec t SECTION_TYPE_ELEM) as [T|T9]; cbn iota.
  { rewrite T in Hord. apply (wp_load_table_segment_section old);
      [done|apply (sg_segments _ _ _ Hs); exact Hord|apply Hm|apply Hit|exact Hct|].
    intros c strs s2 Hok2 G D Hc. apply (Hdone 9); [done|done|done|done|]. rewrite D.
    by eapply staged_segments; [exact Hord|apply Hg|]. }
  destruct (Z.eqb_spec t SECTION_TYPE_CODE) as [T|T10]; cbn iota.
  { rewrite T in Hord. apply (wp_load_code_section old); [done|]. intros p.
    apply (Hdone 10); [done|done|done|done|]. by eapply staged_code; [exact Hord|]. }
  destruct (Z.eqb_spec t SECTION_TYPE_DATA) as [T|T11]; cbn iota; [|by apply wp_kfail].
  rewrite T in Hord. apply (wp_load_data_segment_section old);
    [done|apply (sg_data _ _ _ Hs); exact Hord|apply Hm|apply Him|exact Hcm|].
  intros c strs s2 Hok2 G D Hc. apply (Hdone 11); [done|done|done|done|]. rewrite D.
  by eapply staged_data; [exact Hord|apply Hg|].
Qed.

(** ** All sections *)

(** The order of the sections after one of number [l]. *)
Fixpoint ordered (l : Z) (xs : list section_obj) : Prop :=
  match xs with
  | [] => True
  | x :: xs => (section_type x ≠ SECTION_TYPE_USER → l < section_type x) ∧ ordered (stage_after l x) xs
  end.

Lemma wp_load_sections all xs : ∀ l s (Q : unit → loading → Prop),
  oks s → staged l (heap_of s) (md s) → sections_live (heap_of s) all → ordered l xs →
  (∀ s', oks s' → grows s s' → module_ok (heap_of s') (md s') → Q tt s') →
  wp (lfor xs (load_section statics resolve_symbol all)) Q oks s.
Proof.
  induction xs as [|x xs IH]; intros l s Q Hok Hs Hl Hord HQ; cbn [lfor].
  - apply wp_ret, HQ; [done|apply grows_refl|apply Hs].
  - destruct Hord as [Hx Hord]. apply wp_bind. eapply wp_load_section; [done|exact Hs|done|exact Hx|].
    intros s1 (Hok1&G1&Hs1). eapply IH; [done|exact Hs1| |exact Hord|].
    + by eapply sections_live_grows.
    + intros s2 Hok2 G2 Hm. apply HQ; [done| |done]. by eapply grows_trans.
Qed.

End sections.

(** * Cutting the binary *)

(** The number in the order, 0 before the first section. *)
Definition order_of (last : Z) : Z := if last =? 255 then 0 else last.

Lemma section_index_of t : get_section_index t ≠ 255 → get_section_index t = t ∧ 0 <= t <= 11.
Proof.
  unfold get_section_index. cbn [section_index_from section_ids].
  repeat match goal with |- context [t =? ?k] => destruct (Z.eqb_spec t k) as [->|]; [by vm_compute|] end. done.
Qed.

Lemma ordered_snoc xs x : ∀ l,
  ordered l xs → (section_type x ≠ SECTION_TYPE_USER → foldl stage_after l xs < section_type x) →
  ordered l (xs ++ [x]).
Proof. induction xs as [|y xs IH]; intros l; cbn; [auto|]. intros [Hy Ho] Hx. split; [done|]. by apply IH. Qed.

Section cut.
Context `{PlacedPool} (old : before).

Definition recorded (h : scratch) (l : list nat) : Prop :=
  ∀ b, b ∈ l → live h !! b = Some (Some (WASMSectionT, 1)).

Lemma recorded_grows s s' l : grows s s' → recorded (heap_of s) l → recorded (heap_of s') l.
Proof. intros G Hl b Hb. rewrite (kh_live _ _ _ _ G); [by apply Hl|]. rewrite Hl by done. by eexists. Qed.

Lemma recorded_cons h b l : recorded h l → live h !! b = Some (Some (WASMSectionT, 1)) → recorded h (b :: l).
Proof. intros Hl Hb b' [->|?]%elem_of_cons; auto. Qed.

(** Some of the binary is cut off; [hand] has the structures of the sections. *)
Record cut (s : loading) (hand : list nat) (s' : loading) : Prop := {
  cu_ok : ok old hand s';
  cu_recorded : recorded (heap_of s') hand;
  cu_grows : grows s s';
  cu_md : md s' = md s
}.

Record section_fine (last : Z) (x : section_obj) (last' : Z) (s' : loading) : Prop := {
  sf_live : in_block (heap_of s') (section_range x).1 (section_range x).2;
  sf_order : section_type x ≠ SECTION_TYPE_USER → order_of last < section_type x;
  sf_last : order_of last' = stage_after (order_of last) x
}.

Lemma wp_create_section e last hand s0 s (Q : section_obj * Z → loading → Prop) (F : loading → Prop) :
  cut s0 hand s →
  (∀ x last' s', cut s0 (s_block x :: hand) s' → grows s s' → pos s < pos s' <= e → section_fine last x last' s' →
     Q (x, last') s') →
  (∀ hand' s', cut s0 hand' s' → F s') →
  wp (create_section e last) Q F s.
Proof.
  intros [C1 C2 C3 C4] HQ HF. assert (∀ msg p, F (err msg (goto p s))) as Herr.
  { intros msg p. by apply (HF hand). }
  assert (∀ msg, F (err msg s)) as Herr' by (intros msg; rewrite <- (goto_here s); apply Herr).
  apply wp_bind, wp_CHECK_BUF; [|done]. intros Hp. apply wp_bind, wp_read_byte; [lia|].
  set (t := load_Z _ _ _). cbv zeta. destruct (Z.eqb_spec (get_section_index t) 255) as [|Hi]; [apply wp_kfail, Herr|].
  destruct (section_index_of t Hi) as [Et Ht]. rewrite Et.
  destruct (_ && _) eqn:Hord; [apply wp_kfail, Herr|].
  apply wp_bind, wp_CHECK_BUF1; [|intros; apply Herr]. intros _.
  apply wp_bind, wp_section_leb; [|intros; apply Herr]. intros size q _ Hsize Hq.
  apply wp_bind, wp_CHECK_BUF1; [|intros; apply Herr]. intros Hend. set (s1 := goto q _).
  apply wp_bind. eapply (wp_malloc_full old _ hand); [exact C1|by vm_compute| |].
  2:{ intros s' Hok' G' D'. apply (HF hand). constructor; [done|by eapply recorded_grows|by eapply grows_trans|].
      by rewrite D'. }
  intros b a s2 B Hok2 G2. apply wp_bind.
  eapply (wp_alloc_info old b _ _ (b :: hand) s1); [apply B|by exists None; apply B|by eapply fresh_not_old, B|by left|exact Hok2|exact G2|].
  intros s3 L3 E3 M3 P3 D3 Hok3 G3.
  assert (recorded (heap_of s3) (b :: hand)) as R3 by (apply recorded_cons; [by eapply recorded_grows; [exact G3|]|done]).
  assert (cut s0 (b :: hand) s3) as K3.
  { constructor; [done|done|by eapply grows_trans|]. rewrite D3, (fb_md _ _ _ _ _ B). exact C4. }
  apply wp_bind. eapply (wp_malloc_full old _ (b :: hand)); [exact Hok3|lia| |].
  2:{ intros s' Hok' G' D'. apply (HF (b :: hand)). constructor; [done|by eapply recorded_grows| |by rewrite D'; apply K3].
      eapply grows_trans; [apply K3|done]. }
  intros bb ba s4 B4 Hok4 G4. apply wp_bind.
  eapply (wp_alloc_info old bb _ _ (bb :: b :: hand) s3);
    [apply B4|by exists None; apply B4|by eapply fresh_not_old, B4|by left|exact Hok4|exact G4|].
  intros s5 L5 E5 M5 P5 D5 Hok5 G5.
  assert (ok old (b :: hand) s5) as Hok5' by (eapply ok_settle; [exact Hok5|exact L5|by left]).
  assert (extents (heap_of s5) !! bb = Some (ba, size)) as X5 by (rewrite E5; apply B4).
  assert (pos s5 = q) as Eq by (rewrite P5, (fb_pos _ _ _ _ _ B4), P3; apply B).
  apply wp_bind.
  eapply (wp_copy_to old bb ba size e size (b :: hand) s3);
    [apply B4|split; [by eexists|exact X5]|lia|rewrite Eq; exact Hend|exact Hok5'|exact G5|].
  intros s6 H6 M6 P6 D6 Hok6 G6. apply wp_bind, wp_skip, wp_ret.
  assert (md s6 = md s0) as Ed by (rewrite D6, D5, (fb_md _ _ _ _ _ B4); apply K3).
  apply HQ; [constructor; [done| |by eapply grows_trans; [apply K3|]|done]| | |].
  - eapply recorded_grows; [exact G6|]. exact R3.
  - eapply grows_trans; [exact G3|exact G6].
  - cbn in Hq, Hend |- *. rewrite P6, Eq. lia.
  - constructor; unfold section_range, stage_after, order_of, SECTION_TYPE_USER in *;
      cbn [section_type section_body section_body_size fst snd].
    + split; [pose proof (fb_bound _ _ _ _ _ B4); lia|]. exists bb, (ba, size). split; [|cbn; lia].
      change (heap_of (goto _ s6)) with (heap_of s6). rewrite H6. split; [by eexists|done].
    + intros Ht0. rewrite (proj2 (Z.eqb_neq _ _)) in Hord by done. cbn in Hord.
      destruct (Z.eqb_spec last 255); cbn in Hord; [lia|]. by apply Z.leb_gt in Hord.
    + destruct (t =? 0); [done|]. by rewrite (proj2 (Z.eqb_neq t 255)) by lia.
Qed.

(** ** All sections *)

Lemma cut_hand s hand hand' s' : cut s hand s' → (∀ b, b ∈ hand ↔ b ∈ hand') → cut s hand' s'.
Proof.
  intros [C1 C2 C3 C4] Hh. constructor; [|by intros b Hb%Hh; auto|done|done].
  by eapply ok_hand.
Qed.

Lemma cut_here s0 hand s : cut s0 hand s → cut s hand s.
Proof. intros [C1 C2 C3 C4]. constructor; [done|done|apply grows_refl|done]. Qed.

Lemma cut_trans s0 hand s hand' s' : cut s0 hand s → cut s hand' s' → cut s0 hand' s'.
Proof. intros [_ _ C3 C4] [D1 D2 D3 D4]. constructor; [done|done|by eapply grows_trans|congruence]. Qed.

(** A cut that ends well, and one that fails. *)
Definition cut_well (s0 : loading) (xs : list section_obj) (s : loading) : Prop :=
  cut s0 (map s_block xs) s ∧ sections_live (heap_of s) xs ∧ ordered 0 xs.
Definition cut_short (s0 : loading) (xs : list section_obj) (s : loading) : Prop :=
  recorded (heap_of s) (map s_block xs) ∧ (∀ b, b ∈ map s_block xs → ¬ is_Some (was_live old !! b))
  ∧ ∃ hand, cut s0 hand s.

(** [fuel] is more than what is left, so that it is not used up. *)
Lemma create_sections_ok fuel e s0 : ∀ last acc s,
  e - pos s < Z.of_nat fuel → pos s <= e → cut_well s0 acc s → order_of last = foldl stage_after 0 acc →
  ∃ b xs s', create_sections fuel e last acc s = Ok (b, xs) s'
    ∧ if b : bool then cut_well s0 xs s' else cut_short s0 xs s'.
Proof.
  induction fuel as [|fuel IH]; intros last acc s Hfuel Hpos Hwell Hlast; cbn [create_sections]; [lia|].
  unfold mbind, gets. cbv beta. change (l_p (ld s)) with (pos s). destruct (Z.ltb_spec (pos s) e).
  2:{ by exists true, acc, s. }
  destruct Hwell as (Hc&Hl&Ho).
  pose proof (wp_create_section e last (map s_block acc) s s
    (fun r s' => cut s (s_block r.1 :: map s_block acc) s' ∧ pos s < pos s' <= e ∧ section_fine last r.1 r.2 s')
    (fun s' => ∃ hand, cut s hand s') (cut_here _ _ _ Hc)) as Hw. unfold wp in Hw.
  destruct (create_section e last s) as [[[x last']|] s'| |]; [| |exfalso; apply Hw; eauto..].
  - destruct Hw as (Hc'&Hp&[F1 F2 F3]); [by eauto|by eauto|]. cbn [fst snd] in *.
    apply IH; [lia|lia| |].
    + split_and!.
      * eapply cut_trans; [exact Hc|]. eapply cut_hand; [exact Hc'|]. intros b.
        rewrite map_app, elem_of_app, elem_of_cons. cbn. rewrite list_elem_of_singleton. tauto.
      * apply Forall_app_2; [eapply sections_live_grows; [apply Hc'|done]|by constructor].
      * apply ordered_snoc; [done|]. by rewrite <- Hlast.
    + by rewrite foldl_snoc, <- Hlast.
  - destruct Hw as [hand Hc']; [by eauto|by eauto|]. exists false, acc, s'. split; [done|]. split_and!.
    + eapply recorded_grows; [apply Hc'|apply Hc].
    + intros b Hb. apply (lo_mine _ _ _ _ (cu_ok _ _ _ Hc)). right. apply elem_of_app. by left.
    + exists hand. by eapply cut_trans.
Qed.

End cut.
