(* ===== verification/FinishProofs.v ===== *)
(** After the sections: what is resolved through the exports, the check of every
    function and the size of the memory. *)
From stdpp Require Import base gmap list numbers strings.
From Stdlib Require Import Strings.Byte ZArith Lia.
From S2P Require Import Prelude CMemory WasmTypes PoolInfo Opcodes Leb FindBlock LoaderCtx Validate Typing Wp.
From S2P Require Import LoaderInv LoaderOps LoaderStep LoaderBlocks LoaderLoop Dialects Validation LoaderModule MemInit.
From S2P Require Import Sections LoadModule LoadInv Loaded SectionProofs ImportProofs FunctionProofs LoadProofs.

(** * The exports *)

(** The two exports that tell of the heap are not of imported globals. *)
Definition aux_own (m : module_obj) : Prop :=
  ∀ e, e ∈ elems (md_exports m) → e_kind e = EXPORT_KIND_GLOBAL →
    strcmp (e_name e) (chars "__heap_base") || strcmp (e_name e) (chars "__data_end") = true →
    import_global_count (md_imports m) <= e_index e.

(** Only what is resolved is new. *)
Definition resolved (m m' : module_obj) : Prop := ∃ a r, m' = set_md_runtime r (set_md_aux a m).

Lemma resolved_refl m : resolved m m.
Proof. exists (md_aux m), (md_runtime m). by destruct m. Qed.

Lemma resolved_aux m m' a : resolved m m' → resolved m (set_md_aux a m').
Proof. intros (a'&r&->). by exists a, r. Qed.

Lemma resolved_runtime m m' r : resolved m m' → resolved m (set_md_runtime r m').
Proof. intros (a&r'&->). by exists a, r. Qed.

Section resolve.
Context (h : scratch) (m : module_obj) (Hm : module_ok h m).

(** The state in the module [m] but for what is resolved. *)
Definition resolving (s0 s : loading) : Prop := ld s = ld s0 ∧ resolved m (md s).

Lemma counts_small :
  0 <= count (md_functions m) <= 2 ^ 30 ∧ 0 <= count (md_globals m) <= 2 ^ 30
  ∧ 0 <= import_function_count (md_imports m) <= 2 ^ 30 ∧ 0 <= import_global_count (md_imports m) <= 2 ^ 30.
Proof using Hm.
  pose proof (imports_bounds _ _ (ok_imports _ _ Hm)).
  destruct (fs_loaded _ _ _ (ok_functions _ _ Hm)) as [F1 F2 _], (ok_globals _ _ Hm) as [G1 G2 _].
  rewrite F1, G1. split_and!; try apply zlen_nonneg; lia.
Qed.

Lemma wp_exported_global e s0 s (Q : global_obj → loading → Prop) F :
  resolving s0 s → export_ok m e → e_kind e = EXPORT_KIND_GLOBAL → import_global_count (md_imports m) <= e_index e →
  (∀ g, Q g s) → wp (exported_global e) Q F s.
Proof using Hm.
  intros [_ (a&r&Hs)] [_ (n&msg&He&Hi)] Hk Ho HQ. do 2 apply wp_bind, wp_getm. rewrite Hs. cbn.
  destruct counts_small as (_&Hg&_&Hig). rewrite Hk in He. injection He as <- _.
  unfold uint32 in *. rewrite wrap_small in Hi by lia. rewrite wrap_small by lia.
  destruct (loaded_index _ _ (e_index e - import_global_count (md_imports m)) (ok_globals _ _ Hm)) as (g&Hgl&_); [lia|].
  eapply wp_elem; [exact Hgl|]. apply HQ.
Qed.

Lemma wp_aux_const e o s0 s (Q : option (Z * Z) → loading → Prop) F :
  resolving s0 s → export_ok m e → e_kind e = EXPORT_KIND_GLOBAL → import_global_count (md_imports m) <= e_index e →
  (∀ o', Q o' s) → wp (aux_const e o) Q F s.
Proof using Hm. intros Hs He Hk Ho HQ. apply wp_bind. eapply wp_exported_global; [done..|]. intros g. apply wp_ret, HQ. Qed.

Lemma wp_resolve_aux es : ∀ d hb s0 s (Q : option Z → loading → Prop) F,
  resolving s0 s →
  Forall (fun e => export_ok m e ∧ (e_kind e = EXPORT_KIND_GLOBAL →
    strcmp (e_name e) (chars "__heap_base") || strcmp (e_name e) (chars "__data_end") = true →
    import_global_count (md_imports m) <= e_index e)) es →
  (∀ o s', resolving s0 s' → Q o s') →
  wp (resolve_aux es d hb) Q F s.
Proof using Hm.
  induction es as [|e es IH]; intros d hb s0 s Q F Hs He HQ; cbn [resolve_aux]; [by apply wp_ret, HQ|].
  apply Forall_cons in He as [[Heok Hown] He].
  destruct (Z.eqb_spec (e_kind e) EXPORT_KIND_GLOBAL) as [Hk|]; cbn [negb]; [|by eapply IH].
  assert (∀ found, wp (match found with
        | (Some (di, dv), Some (hi, hv)) =>
            if dv <=? hv then
              let+ gs := getm (fun m => elems (md_globals m)) in
              let+ ig := getm (fun m => import_global_count (md_imports m)) in
              let+ old := getm md_aux in
              match find_stack_top gs 0 hv with
              | Some (i, top) =>
                  modm (set_md_aux (mkAux di dv hi hv (uint32 (ig + i)) top (if dv <? top then top - dv else top))) ;+
                  lret (Some hv)
              | None =>
                  modm (set_md_aux (mkAux di dv hi hv (m_aux_stack_top_global_index old)
                                      (aux_stack_bottom old) (m_aux_stack_size old))) ;+
                  lret None
              end
            else resolve_aux es (found.1) (found.2)
        | (d, h) => resolve_aux es d h
        end) Q F s) as Hend.
  { intros [[[di dv]|] [[hi hv]|]]; cbn [fst snd]; try by eapply IH.
    destruct (dv <=? hv); [|by eapply IH]. do 3 apply wp_bind, wp_getm.
    destruct (find_stack_top _ _ _) as [[i top]|]; apply wp_bind, wp_modm, wp_ret, HQ;
      (split; [apply Hs|apply resolved_aux, Hs]). }
  apply wp_bind. destruct (strcmp _ (chars "__heap_base")) eqn:E1; [|destruct (strcmp _ (chars "__data_end")) eqn:E2].
  - apply wp_bind. eapply wp_aux_const; [done..|by apply Hown|]. intros o. apply wp_ret. exact (Hend (_, _)).
  - apply wp_bind. eapply wp_aux_const; [done..|by apply Hown|]. intros o. apply wp_ret. exact (Hend (_, _)).
  - apply wp_ret. exact (Hend (_, _)).
Qed.

(** ** The allocator of the module *)

Lemma wp_exported_type e s0 s (Q : func_type → loading → Prop) F :
  resolving s0 s → export_ok m e → e_kind e = EXPORT_KIND_FUNC → import_function_count (md_imports m) <= e_index e →
  (∀ t, Q t s) → wp (exported_type e) Q F s.
Proof using Hm.
  intros [_ (a&r&Hs)] [_ (n&msg&He&Hi)] Hk Ho HQ. do 2 apply wp_bind, wp_getm. rewrite Hs. cbn.
  destruct counts_small as (Hf&_&Hif&_). rewrite Hk in He. injection He as <- _.
  unfold uint32 in *. rewrite wrap_small in Hi by lia.
  destruct (loaded_index _ _ (e_index e - import_function_count (md_imports m)) (fs_loaded _ _ _ (ok_functions _ _ Hm)))
    as (o&Hgl&(f&->&_)); [lia|].
  apply wp_bind. eapply wp_elem; [exact Hgl|]. apply wp_bind. eapply wp_some; [done|]. apply wp_ret, HQ.
Qed.

Lemma wp_own e s0 s (Q : bool → loading → Prop) F :
  resolving s0 s → Q (import_function_count (md_imports m) <=? e_index e) s → wp (own_function e) Q F s.
Proof using. intros [_ (a&r&Hs)] HQ. apply wp_bind, wp_getm, wp_ret. by rewrite Hs. Qed.

Lemma wp_set_runtime f s0 s (Q : unit → loading → Prop) F :
  resolving s0 s → (∀ s', resolving s0 s' → Q tt s') → wp (set_runtime f) Q F s.
Proof using. intros [E Hs] HQ. apply wp_modm, HQ. split; [done|]. by apply resolved_runtime. Qed.

Lemma wp_find_retain es : ∀ s0 s (Q : bool → loading → Prop) F,
  resolving s0 s → Forall (export_ok m) es → (∀ b s', resolving s0 s' → Q b s') → wp (find_retain es) Q F s.
Proof using Hm.
  induction es as [|e es IH]; intros s0 s Q F Hs He HQ; cbn [find_retain]; [by apply wp_ret, HQ|].
  apply Forall_cons in He as [He Hes]. apply wp_bind. eapply wp_own; [exact Hs|].
  destruct (_ && _) eqn:E; [|by eapply IH]. apply andb_prop in E as [[Hk _]%andb_prop Ho].
  apply wp_bind. eapply wp_exported_type; [exact Hs|exact He|by apply Z.eqb_eq|by apply Z.leb_le|]. intros t.
  destruct (has_type _ _ _); [|by eapply IH]. apply wp_bind. eapply wp_set_runtime; [exact Hs|]. intros s' Hs'. by apply wp_ret, HQ.
Qed.

Lemma wp_runtime_export es e s0 s (Q : unit → loading → Prop) F :
  resolving s0 s → Forall (export_ok m) es → export_ok m e → (∀ s', resolving s0 s' → Q tt s') →
  wp (resolve_runtime_export es e) Q F s.
Proof using Hm.
  intros Hs Hes He HQ. unfold resolve_runtime_export.
  destruct (Z.eqb_spec (e_kind e) EXPORT_KIND_FUNC) as [Hk|]; cbn [negb]; [|by apply wp_ret, HQ].
  apply wp_bind. eapply wp_own; [exact Hs|].
  destruct (Z.leb_spec (import_function_count (md_imports m)) (e_index e)) as [Ho|]; rewrite ?andb_true_r, ?andb_false_r;
    [|by apply wp_ret, HQ].
  assert (∀ k : func_type → K unit, (∀ t, wp (k t) Q F s) → wp (let+ t := exported_type e in k t) Q F s) as Ht.
  { intros k Hk'. apply wp_bind. by eapply wp_exported_type. }
  destruct (strcmp _ (chars "malloc")); [|destruct (strcmp _ (chars "__new")); [|destruct (is_free_name _)]].
  - apply Ht. intros t. destruct (has_type _ _ _); [by eapply wp_set_runtime|by apply wp_ret, HQ].
  - apply Ht. intros t. destruct (has_type _ _ _); [|by apply wp_ret, HQ]. apply wp_bind.
    eapply wp_set_runtime; [exact Hs|]. intros s1 Hs1. apply wp_bind. eapply wp_find_retain; [exact Hs1|done|].
    intros b s2 Hs2. destruct b; [by apply wp_ret, HQ|by eapply wp_set_runtime].
  - apply Ht. intros t. destruct (has_type _ _ _); [by eapply wp_set_runtime|by apply wp_ret, HQ].
  - by apply wp_ret, HQ.
Qed.

Lemma wp_runtime_exports all es : ∀ s0 s (Q : unit → loading → Prop) F,
  resolving s0 s → Forall (export_ok m) all → Forall (export_ok m) es → (∀ s', resolving s0 s' → Q tt s') →
  wp (lfor es (resolve_runtime_export all)) Q F s.
Proof using Hm.
  induction es as [|e es IH]; intros s0 s Q F Hs Hall He HQ; cbn [lfor]; [by apply wp_ret, HQ|].
  apply Forall_cons in He as [He Hes]. apply wp_bind. eapply wp_runtime_export; [exact Hs|done|done|].
  intros s' Hs'. by eapply IH.
Qed.

Lemma wp_resolve s (Q : option Z → loading → Prop) F :
  md s = m → aux_own m → (∀ o s', resolving s s' → Q o s') → wp resolve Q F s.
Proof using Hm.
  intros Es Haux HQ. assert (resolving s s) as Hs by (split; [done|rewrite Es; apply resolved_refl]).
  assert (Forall (export_ok m) (elems (md_exports m))) as He by apply (ok_exports _ _ Hm).
  apply wp_bind, wp_getm, wp_bind, wp_modm, wp_bind, wp_getm. rewrite Es. apply wp_bind.
  eapply (wp_resolve_aux _ _ _ s).
  - split; [done|]. cbn. rewrite Es. apply resolved_aux, resolved_refl.
  - cbn. rewrite Es. apply Forall_forall. intros e Hin. split; [by apply (proj1 (Forall_forall _ _) He)|by apply Haux].
  - intros o s1 [E1 Hs1]. apply wp_bind, wp_modm. apply wp_bind.
    eapply (wp_runtime_exports _ _ s); [split; [done|by apply resolved_runtime]|cbn; by rewrite Es|cbn; by rewrite Es|].
    intros s2 Hs2. by apply wp_ret, HQ.
Qed.

End resolve.
