(* ===== verification/CheckProofs.v ===== *)
(** The check of all functions of a module: each is checked against what the module
    says, on the code as it was read, whatever the checks before it have rewritten;
    and the loop that checks them. *)
From stdpp Require Import base gmap list numbers strings.
From Stdlib Require Import Strings.Byte ZArith Lia.
From S2P Require Import Prelude CMemory WasmTypes PoolInfo Opcodes Leb FindBlock LoaderCtx Validate Typing Wp.
From S2P Require Import LoaderInv LoaderOps LoaderStep LoaderBlocks LoaderLoop Dialects Validation LoaderModule MemInit.
From S2P Require Import Sections LoadModule LoadInv Loaded SectionProofs ImportProofs FunctionProofs LoadProofs FinishProofs.

(** * Instructions in a stretch of code *)

Section same.
Context (e : Z) (m m' : mem).

Lemma read_leb_same p maxbits sign : same_in p e m m' →
  loader_read_leb m' p e maxbits sign = loader_read_leb m p e maxbits sign.
Proof. intros Hs. unfold loader_read_leb. by rewrite (leb_loop_same p e m m'). Qed.

Lemma imm_leb_same {B} p (k k' : Z → Z → option B) : same_in p e m m' →
  (∀ v q, p < q → k v q = k' v q) → imm (loader_leb_uint32 m' p e) k = imm (loader_leb_uint32 m p e) k'.
Proof.
  intros Hs Hk. rewrite (leb_same p p e m m') by (done || lia).
  destruct (loader_leb_uint32 m p e) as [[v q]|] eqn:E; [|done]. cbn [imm].
  apply loader_leb_uint32_span in E as [? _]. apply Hk. lia.
Qed.

Lemma decode_labels_same n : ∀ p, same_in p e m m' → decode_labels n m' e p = decode_labels n m e p.
Proof.
  induction n as [|n IH]; intros p Hs; [done|]. cbn [decode_labels]. apply imm_leb_same; [done|].
  intros v q Hq. rewrite IH; [done|]. eapply same_in_le; [done|lia].
Qed.

Lemma index_instr_same c p : same_in p e m m' → index_instr c m' e p = index_instr c m e p.
Proof. intros Hs. by apply imm_leb_same. Qed.

Lemma decode_br_table_same p : same_in p e m m' → decode_br_table m' e p = decode_br_table m e p.
Proof.
  intros Hs. apply imm_leb_same; [done|]. intros v q Hq. destruct (_ <? _); [done|].
  rewrite decode_labels_same; [done|]. eapply same_in_le; [done|lia].
Qed.

Lemma decode_block_type_same p r q : same_in p e m m' →
  decode_block_type m e p = Some (r, q) → q <= e → decode_block_type m' e p = Some (r, q).
Proof.
  intros Hs Hd Hq. assert (p < e) as Hp.
  { unfold decode_block_type in Hd. destruct (is_byte_a_type _); [injection Hd as _ <-; lia|].
    apply (imm_leb_span m e p (fun i q => Some (RawIndex i, q)) (fun b => p < b.2) _) in Hd; [cbn in Hd; lia|].
    intros v q' Hlt [= <-]. cbn. lia. }
  unfold decode_block_type in *. rewrite (same_in_load p e m m') by (done || lia).
  destruct (is_byte_a_type _); [done|]. rewrite <- Hd. by apply imm_leb_same.
Qed.

Lemma imm_block_same p label i q : same_in p e m m' →
  imm (decode_block_type m e p) (fun t q => Some (IBlock label t, q)) = Some (i, q) → q <= e →
  imm (decode_block_type m' e p) (fun t q => Some (IBlock label t, q)) = Some (i, q).
Proof.
  intros Hs Hd Hq. destruct (decode_block_type m e p) as [[r q']|] eqn:E; [|done]. cbn in Hd.
  injection Hd as <- <-. by rewrite (decode_block_type_same p r q').
Qed.

Lemma decode_op_same b p i q : same_in p e m m' →
  decode_op b m e p = Some (i, q) → q <= e → decode_op b m' e p = Some (i, q).
Proof.
  intros Hs. unfold decode_op. destruct (is_access b).
  { intros Hd Hq. rewrite <- Hd. apply imm_leb_same; [done|]. intros v q1 Hq1. apply imm_leb_same; [|done].
    eapply same_in_le; [done|lia]. }
  destruct (is_numeric b); [done|].
  rewrite !(read_leb_same p), (decode_br_table_same p), !index_instr_same by done.
  destruct b as [|b|b]; [done| |done].
  repeat match goal with |- context [match ?x with _ => _ end = Some (i, q)] => is_var x; destruct x; try done end;
    match goal with
    | |- imm (decode_block_type _ _ _) _ = _ → _ => intros; by apply imm_block_same
    | |- imm (loader_leb_uint32 _ _ _) _ = _ → _ => idtac
    | |- Some _ = _ → _ => intros E Hq; injection E as <- <-; by rewrite (same_in_load p e m m') by (done || lia)
    end.
  intros E Hq. rewrite <- E. apply imm_leb_same; [done|]. intros v q1 Hq1. unfold check_buf.
  destruct (Z.ltb_spec e (q1 + 1)); [done|]. by rewrite (same_in_load p e m m') by (done || lia).
Qed.

Lemma decode_same p i q : same_in p e m m' → decode m e p = Some (i, q) → q <= e → decode m' e p = Some (i, q).
Proof.
  intros Hs Hd Hq. pose proof (decode_span _ _ _ _ _ Hd). unfold decode in *.
  rewrite (same_in_load p e m m') by (done || lia). apply decode_op_same; [|done|done]. eapply same_in_le; [done|lia].
Qed.

(** The last instruction of a body is [end]. *)
Lemma type_closes d module func i f fs : type_instr d module func i (f :: fs) = Some [] → i = IEnd.
Proof.
  assert (∀ g, on_top g (f :: fs) = Some [] → False) as Hon.
  { intros g. cbn [on_top]. by destruct (g f). }
  destruct i; cbn [type_instr]; try done;
    repeat match goal with
    | |- on_top _ _ = _ → _ => intros []%Hon
    | |- match ?x with _ => _ end = _ → _ => destruct x; try done
    end.
  unfold enter_block. destruct (on_top _ _); [|done]. done.
Qed.

Lemma decode_end_span b p q : decode_op b m e p = Some (IEnd, q) → q = p.
Proof.
  unfold decode_op. destruct (is_access b).
  { repeat (destruct (loader_leb_uint32 _ _ _) as [[??]|]; [cbn [imm]|done]). done. }
  destruct (is_numeric b); [done|]. unfold index_instr, decode_br_table.
  destruct b as [|b|b]; [done| |done].
  repeat match goal with |- context [match ?x with _ => _ end = Some (IEnd, q)] => is_var x; destruct x; try done end;
  try by intros [= ->].
  all: unfold imm; repeat match goal with |- match ?x with _ => _ end = _ → _ => destruct x; try discriminate end.
Qed.

Lemma decodes_same_in d module func ins : ∀ p f fs r, same_in p e m m' →
  decodes m e p ins r → type_seq d module func ins (f :: fs) = Some [] → decodes m' e p ins r.
Proof.
  induction ins as [|i ins IH]; intros p f fs r Hs Hd Ht; [done|].
  inversion Hd as [|p' i' q ins' r' Hp Hi Hrest]; subst. cbn [type_seq] in Ht.
  destruct (type_instr d module func i (f :: fs)) as [st|] eqn:Est; [|done].
  pose proof (decode_span _ _ _ _ _ Hi) as Hpq.
  assert (q <= e) as Hq.
  { destruct (decide (q <= e)); [done|]. inversion Hrest; subst; [|lia]. injection Ht as ->.
    apply type_closes in Est as ->. apply decode_end_span in Hi. lia. }
  econstructor; [done|by eapply decode_same|]. destruct st as [|g gs].
  - destruct ins as [|j ins]; [inversion Hrest; constructor|]. cbn [type_seq] in Ht. by rewrite type_instr_nil in Ht.
  - eapply IH; [|exact Hrest|exact Ht]. eapply same_in_le; [done|lia].
Qed.



End same.

(** * What the check takes from the module *)

(** The types the sections do not check: the parameters and results of the function
    types, and the globals. *)
Record value_types (m : module_obj) : Prop := {
  vt_types t : in_types (md_types m) t → types_wf (types (ty t));
  vt_imports i t mu v :
    i ∈ imports_from (import_globals_at (md_imports m)) (import_global_count (md_imports m)) (md_imports m) →
    i_u i = ImportGlobal t mu v → is_value_type t = true;
  vt_globals g : g ∈ elems (md_globals m) → is_value_type (g_type g) = true
}.

Lemma mapM_all {A B} (f : A → option B) (P : B → Prop) l :
  (∀ a, a ∈ l → ∃ b, f a = Some b ∧ P b) → ∃ k, mapM f l = Some k ∧ Forall P k ∧ zlen k = zlen l.
Proof.
  induction l as [|a l IH]; intros Hl; [by exists []|].
  destruct (Hl a) as (b&Hb&HP); [by left|]. destruct IH as (k&Hk&HF&Hz); [intros; apply Hl; by right|].
  exists (b :: k). split_and!; [|by constructor|by rewrite !zlen_cons, Hz]. cbn. rewrite Hb. cbn. by rewrite Hk.
Qed.

Lemma Forall_in {A} (P : A → Prop) l a : Forall P l → a ∈ l → P a.
Proof. intros H. by apply (proj1 (Forall_forall _ _) H). Qed.

Section info.
Context (h : scratch) (m : module_obj) (Hm : module_ok h m) (Hv : value_types m).

Lemma type_obj_wf t : in_types (md_types m) t → type_wf (ty t).
Proof using Hm Hv.
  intros Ht. destruct (in_types_ok _ _ (ok_types _ _ Hm) Ht). constructor; try done. by apply (vt_types _ Hv).
Qed.

Lemma info_of_ok : ∃ info, info_of m = Some info ∧ module_wf info.
Proof using Hm Hv.
  pose proof (imports_bounds _ _ (ok_imports _ _ Hm)) as Hb.
  destruct (imports_functions _ _ (ok_imports _ _ Hm)) as (Hfl&HF&_).
  destruct (imports_globals _ _ (ok_imports _ _ Hm)) as (Hgl&HG).
  destruct (mapM_all (option_map (fun t => ty t.2)) type_wf (elems (md_types m))) as (ts&Ets&Hts&Lts).
  { intros o Ho. destruct (Forall_in _ _ _ (ld_elems _ _ (ok_types _ _ Hm)) Ho) as (b&t&->&_).
    exists (ty t). split; [done|]. apply type_obj_wf. by exists b. }
  destruct (mapM_all import_type type_wf
    (imports_from (import_functions_at (md_imports m)) (import_function_count (md_imports m)) (md_imports m)))
    as (fs&Efs&Hfs&Lfs).
  { intros i Hi. destruct (Forall_in _ _ _ HF Hi) as (t&l&Hu&Ht). exists (ty t).
    unfold import_type. rewrite Hu. split; [done|]. by apply type_obj_wf. }
  destruct (mapM_all (option_map (fun f => ty (fn_type f))) type_wf (elems (md_functions m))) as (os&Eos&Hos&Los).
  { intros o Ho. destruct (Forall_in _ _ _ (ld_elems _ _ (fs_loaded _ _ _ (ok_functions _ _ Hm))) Ho) as (f&->&Hf).
    exists (ty (fn_type f)). split; [done|]. by apply type_obj_wf, Hf. }
  destruct (mapM_all import_global (fun g => is_value_type g.1 = true)
    (imports_from (import_globals_at (md_imports m)) (import_global_count (md_imports m)) (md_imports m)))
    as (gs&Egs&Hgs&Lgs).
  { intros i Hi. destruct (Forall_in _ _ _ HG Hi) as (t&mu&v&Hu). exists (t, mu).
    unfold import_global. rewrite Hu. split; [done|]. by eapply (vt_imports _ Hv). }
  unfold info_of. rewrite Ets, Efs, Eos, Egs. eexists. split; [done|].
  destruct (counts_small h m Hm) as (?&?&?&?).
  destruct (fs_loaded _ _ _ (ok_functions _ _ Hm)) as [F1 F2 _], (ok_globals _ _ Hm) as [G1 G2 _].
  destruct (ok_tables _ _ Hm) as [[T1 T2 _] T4].
  constructor; cbn [m_types import_functions functions import_globals globals import_table_count table_count].
  - done.
  - by apply Forall_app_2.
  - rewrite zlen_app. lia.
  - apply Forall_app_2; [done|]. apply Forall_map, Forall_forall. intros g Hg. by apply (vt_globals _ Hv).
  - rewrite zlen_app. unfold zlen at 2. rewrite length_map. fold (zlen (elems (md_globals m))). lia.
  - pose proof (zlen_nonneg (elems (md_tables m))). lia.
Qed.

End info.

(** * The functions *)

Lemma zlen_offsets_of ts : ∀ o, zlen (offsets_of ts o) = zlen ts.
Proof. induction ts as [|t ts IH]; intros o; [done|]. cbn [offsets_of]. by rewrite !zlen_cons, IH. Qed.

Lemma func_info_wf h m f :
  module_ok h m → value_types m → heap_ok h → function_ok (md_types m) h f → func_wf (func_info_of f).
Proof.
  intros Hm Hv Hh [F1 F2 F3 F4 [F5 F5'] F6 F7 (cb&_&Hcb%bytes_block)]. pose proof (type_obj_wf h m Hm Hv _ F1) as Ht.
  destruct (ho_size _ Hh _ _ Hcb) as [Hp Hs]. cbn in Hp, Hs.
  constructor; cbn [func_info_of f_type local_types local_offsets code code_size]; [done|done| | |done].
  - destruct (tw_params _ Ht). lia.
  - by rewrite F7, zlen_offsets_of, zlen_app, (zlen_param_types _ Ht).
Qed.

(** An accepted body: on the code in [mm] it is well typed, and the sizes noted in the
    function bound the operands and the blocks before and after every instruction. *)
Definition checked (info : module_info) (mm : mem) (f : function_obj) : Prop :=
  ∃ ins q, decodes mm (p_end (func_info_of f)) (fn_code f) ins q
    ∧ well_typed Lenient info (func_info_of f) ins
    ∧ ∀ ins1 ins2 st, ins = ins1 ++ ins2 →
        type_seq Loader info (func_info_of f) ins1 (entry_state (func_info_of f)) = Some st →
        zlen (stack_cells st) <= max_stack_cells (fn_verdict f) ∧ zlen st <= max_block_num (fn_verdict f).

(** Only the verdict differs. *)
Definition same_function (o o' : option function_obj) : Prop :=
  ∃ f v, o = Some f ∧ o' = Some (with_verdict v f).

Definition same_functions (c c' : functions_array) : Prop :=
  count c' = count c ∧ match array c, array c' with
                       | Some (b, l), Some (b', l') => b' = b ∧ Forall2 same_function l l'
                       | None, None => True
                       | _, _ => False
                       end.

Lemma same_elems c c' : same_functions c c' → Forall2 same_function (elems c) (elems c').
Proof.
  destruct c as [n [[b l]|]], c' as [n' [[b' l']|]]; cbn; intros [_ H]; try done. apply H.
Qed.

Lemma same_functions_refl c : Forall (fun o => is_Some o) (elems c) → same_functions c c.
Proof.
  destruct c as [n [[b l]|]]; cbn; intros Hl; split; try done. split; [done|]. induction Hl as [|o l [f ->] _ IH]; [done|].
  constructor; [|done]. exists f, (fn_verdict f). split; [done|]. by destruct f.
Qed.

Lemma Forall2_index {A B} (R : A → B → Prop) l k i b :
  Forall2 R l k → index k i = Some b → ∃ a, index l i = Some a ∧ R a b.
Proof.
  rewrite !index_lookup. destruct (i <? 0); [done|]. intros HF Hi. by eapply Forall2_lookup_r.
Qed.

Lemma info_same m c pg :
  same_functions (md_functions m) c →
  info_of (set_md_possible_memory_grow pg (set_md_functions c m)) = info_of m.
Proof.
  intros Hs%same_elems. unfold info_of. cbn.
  assert (mapM (option_map (fun f => ty (fn_type f))) (elems c)
    = mapM (option_map (fun f => ty (fn_type f))) (elems (md_functions m))) as ->; [|done].
  induction Hs as [|o o' l l' (f&v&->&->) _ IH]; [done|]. cbn. by rewrite IH.
Qed.

Lemma function_ok_verdict ts h f v : function_ok ts h f → function_ok ts h (with_verdict v f).
Proof. by intros []. Qed.

Lemma block_at_same h h' b r : same_heap h h' → block_at h b r → block_at h' b r.
Proof. intros [S1 S2 S3] [Hl He]. split; [by rewrite S1|]. by rewrite S3. Qed.

Lemma heap_ok_same h h' : same_heap h h' → heap_ok h → heap_ok h'.
Proof.
  intros [S1 S2 S3] [W1 W2 W3].
  assert (∀ b r, block_at h' b r → block_at h b r) as Hb.
  { intros b r [Hl He]. rewrite S1 in Hl. split; [done|]. by rewrite <- S3. }
  constructor.
  - intros b Hl. rewrite S1 in Hl. split; [by apply S2|]. rewrite S3 by done. by apply W1.
  - intros b b' r r' Hne H1%Hb H2%Hb. by eapply W2.
  - intros b r H1%Hb. by eapply W3.
Qed.

(** The functions after the checks are those before. *)
Lemma functions_ok_same ts h h' c c' :
  same_heap h h' → same_functions c c' → functions_ok ts h c → functions_ok ts h' c'.
Proof.
  intros Hh Hc [[F1 F2 F3] Hd]. pose proof (same_elems _ _ Hc) as HF. destruct Hc as [Hn _].
  assert (zlen (elems c') = zlen (elems c)) as Hz by (unfold zlen; f_equal; symmetry; by eapply Forall2_length).
  split; [constructor; [by rewrite Hn, Hz|by rewrite Hz|]|].
  - apply Forall_forall. intros o [i Hi]%list_elem_of_lookup.
    destruct (Forall2_lookup_r _ _ _ _ _ HF Hi) as (o0&Hi0&f&v&->&->). exists (with_verdict v f). split; [done|].
    destruct (proj1 (Forall_lookup _ _) F3 _ _ Hi0) as (f'&[= <-]&Hf). apply function_ok_verdict.
    destruct Hf as [? ? ? ? ? ? ? (cb&?&?&?)]. constructor; try done. exists cb. split; [done|].
    destruct Hh as [S1 S2 S3]. split; [by rewrite S1|]. rewrite S3; [done|by eexists].
  - intros i j f g Hne Hi Hj.
    destruct (Forall2_lookup_r _ _ _ _ _ HF Hi) as (o0&Hi0&f0&v&->&[= ->]).
    destruct (Forall2_lookup_r _ _ _ _ _ HF Hj) as (o1&Hj0&g0&w&->&[= ->]). by eapply (Hd i j f0 g0).
Qed.

(** * All functions *)

Definition code_region (f : function_obj) : region := (fn_code f, fn_code_size f).

(** What the code must not have for the check to be right. *)
Definition tame_functions (m : module_obj) (mm : mem) : Prop :=
  ∀ f, Some f ∈ elems (md_functions m) → tame (func_info_of f) mm (fn_code f).

(** Two functions have different code. *)
Lemma code_disjoint h m i j f g :
  heap_ok h → functions_ok (md_types m) h (md_functions m) → i ≠ j →
  elems (md_functions m) !! i = Some (Some f) → elems (md_functions m) !! j = Some (Some g) →
  disjoint_region (code_region f) (code_region g).
Proof.
  intros Hh [[_ _ HF] Hd] Hne Hi Hj.
  destruct (proj1 (Forall_lookup _ _) HF _ _ Hi) as (f'&[= <-]&Hf).
  destruct (proj1 (Forall_lookup _ _) HF _ _ Hj) as (g'&[= <-]&Hg).
  destruct (fo_code _ _ _ Hf) as (cf&Ef&Bf), (fo_code _ _ _ Hg) as (cg&Eg&Bg). apply bytes_block in Bf, Bg.
  eapply (ho_disjoint _ Hh cf cg); [|exact Bf|exact Bg]. intros ->. apply (Hd i j f g); congruence.
Qed.

Lemma tame_same_in func p m m' : same_in p (p_end func) m m' → tame func m p → tame func m' p.
Proof.
  intros Hs Ht a v q Ha E. eapply (Ht a v q Ha). by rewrite <- (leb_same p a (p_end func) m m').
Qed.

Lemma wp_mbind_ok {A B} (c : M loading A) (k : A → K B) a s s' (Q : B → loading → Prop) F :
  c s = Ok a s' → wp (k a) Q F s' → wp (mbind c k) Q F s.
Proof. unfold wp, mbind. by intros ->. Qed.

Section prepare.
Context `{PlacedPool} (old : before).
Context (s0 : loading) (info : module_info).
Let m0 := md s0.
Let fs := elems (md_functions m0).
Context (Hok0 : ok old [] s0) (Hm0 : module_ok (heap_of s0) m0) (Hv0 : value_types m0).
Context (Hinfo : info_of m0 = Some info) (Htame : tame_functions m0 (mem_of s0)).

(** The first [i] functions are checked. *)
Record checking (i : Z) (s : loading) : Prop := {
  ck_ok : ok old [] s;
  ck_heap : same_heap (heap_of s0) (heap_of s);
  ck_md : ∃ pg c, md s = set_md_possible_memory_grow pg (set_md_functions c m0)
    ∧ same_functions (md_functions m0) c;
  ck_mem : unchanged_outside (omap (option_map code_region) fs) (mem_of s0) (mem_of s);
  ck_code j f : i <= j → index fs j = Some (Some f) →
    same_in (fn_code f) (fn_code f + fn_code_size f) (mem_of s0) (mem_of s);
  ck_checked j f : j < i → index (elems (md_functions (md s))) j = Some (Some f) → checked info (mem_of s0) f
}.

Lemma checking_start : checking 0 s0.
Proof using All.
  constructor; [done| | |by apply unchanged_refl|done|].
  - destruct (lo_heap _ _ _ _ Hok0) as [W1 _ _]. constructor; [done| |done]. intros i Hi. by apply W1.
  - exists (md_possible_memory_grow m0), (md_functions m0). split; [unfold m0; by destruct (md s0)|].
    apply same_functions_refl. eapply Forall_impl; [apply (fs_loaded _ _ _ (ok_functions _ _ Hm0))|].
    intros o (f&->&_). by eexists.
  - intros j f Hj Hi. apply index_range in Hi. lia.
Qed.

(** The check of a function: it leaves the heap as it was and rewrites only its code. *)
Lemma run_check_ok i s f v :
  checking i s → index fs i = Some (Some f) →
  ∃ b s', run_check info (with_verdict v f) s = Ok b s' ∧ md s' = md s ∧ ok old [] s' ∧ same_heap (heap_of s0) (heap_of s')
    ∧ if b : bool
      then checked info (mem_of s0) (with_verdict (l_verdict (ld s')) f)
           ∧ unchanged_outside [code_region f] (mem_of s) (mem_of s')
      else True.
Proof using All.
  intros [C1 C2 _ C4 C5 C6] Hi.
  destruct (Forall_in _ _ _ (ld_elems _ _ (fs_loaded _ _ _ (ok_functions _ _ Hm0))) (index_in _ _ _ Hi)) as (f'&[= <-]&Hf).
  destruct (info_of_ok _ _ Hm0 Hv0) as (info'&Ei&Hwf). rewrite Hinfo in Ei. injection Ei as <-.
  pose proof (func_info_wf _ _ _ Hm0 Hv0 (lo_heap _ _ _ _ Hok0) Hf) as Hfunc.
  assert (same_in (fn_code f) (fn_code f + fn_code_size f) (mem_of s0) (mem_of s)) as Hsame by (by apply (C5 i)).
  destruct (prepare_ok (heap_of s) info (func_info_of f) Hwf Hfunc (set_l_verdict (verdict_before (md s) (with_verdict v f)) (ld s)))
    as (b&l'&E&Hh&Hb).
  { apply owns_fresh. intros b Hb. by apply (ho_fresh _ (lo_heap _ _ _ _ C1)). }
  { eapply tame_same_in; [exact Hsame|]. by apply Htame, (index_in _ _ _ Hi). }
  exists b, (mkLoading l' (md s)). unfold run_check. change (func_info_of (with_verdict v f)) with (func_info_of f). rewrite E. split_and!; [done|done| | |].
  - destruct C1 as [W1 W2 W3 W4 W5 W6]. destruct Hh as [S1 S2 S3]. constructor.
    + eapply heap_ok_same; [|exact W1]. by constructor.
    + intros x Hx. unfold heap_of. cbn. rewrite S1. by apply W2.
    + intros x y Hx. unfold heap_of in Hx. cbn in Hx. rewrite S1 in Hx. by apply W3.
    + done.
    + done.
    + done.
  - destruct C2 as [T1 T2 T3], Hh as [S1 S2 S3]. constructor.
    + unfold heap_of at 1. cbn. by rewrite S1.
    + intros x Hx. apply S2. by rewrite T1.
    + intros x Hx. unfold heap_of at 1. cbn. rewrite S3 by (by rewrite T1). by apply T3.
  - destruct b; [|done]. destruct Hb as [(ins&q&Hd&Hty&Hbd) Hu]. split; [|exact Hu].
    exists ins, q. split_and!; [| |exact Hbd].
    + eapply decodes_same_in; [|exact Hd|exact Hty]. intros x Hx. symmetry. by apply Hsame.
    + by apply (lenient_ok Loader).
Qed.

Lemma wp_prepare_function i s :
  checking i s → 0 <= i < count (md_functions m0) →
  wp (prepare_function i) (fun _ => checking (i + 1)) (ok old []) s.
Proof using All.
  intros Hck Hi. pose proof Hck as [C1 C2 (pg&c&C3&C3') C4 C5 C6]. apply wp_bind, wp_getm.
  assert (md_functions (md s) = c) as Ec by (by rewrite C3). rewrite Ec.
  pose proof (same_elems _ _ C3') as HF. pose proof (fs_loaded _ _ _ (ok_functions _ _ Hm0)) as Hloaded.
  destruct (index_some (elems c) i) as [o' Ho'].
  { unfold zlen. rewrite <- (Forall2_length _ _ _ HF). fold (zlen (elems (md_functions m0))). by rewrite <- (ld_count _ _ Hloaded). }
  destruct (Forall2_index _ _ _ _ _ HF Ho') as (o&Ho&f&v&->&->).
  apply wp_bind. eapply wp_elem; [exact Ho'|]. apply wp_bind. eapply wp_some; [done|].
  apply wp_bind, wp_getm. apply wp_bind. eapply (wp_some _ info); [by rewrite C3, info_same|].
  destruct (run_check_ok i s f v Hck Ho) as (b&s1&E&D1&Hok1&Hh1&Hb).
  eapply wp_mbind_ok; [exact E|]. apply wp_bind, wp_getl. set (w := l_verdict (ld s1)) in *.
  destruct c as [n [[bl l]|]]; [|done]. cbn in Ho'. apply wp_bind.
  eapply (wp_put old md_functions set_md_functions function_blocks _ _ bl n l); [exact Hok1|by rewrite D1, Ec| | | |].
  { by apply index_range in Ho'. }
  { intros x y Hx Hy. rewrite Ho' in Hx. by injection Hx as <-. }
  { intros y Hy. right. exists (Some (with_verdict v f)). by split. }
  intros c' -> Hok2. apply wp_bind, wp_modm. set (s2 := with_md _ (with_md _ s1)).
  assert (ok old [] s2) as Hok3 by (eapply (ok_module _ _ _ _ Hok2); [intros y Hy; exact Hy|by left|done]).
  destruct b; [|exact Hok3]. destruct Hb as [Hchk Hu]. apply wp_ret.
  assert (same_functions (md_functions m0) (mkCounted n (Some (bl, <[Z.to_nat i:=Some (with_verdict w f)]> l)))) as Hsame.
  { destruct C3' as [Hn C3']. split; [done|]. destruct (array (md_functions m0)) as [[b0 l0]|] eqn:Ea; [|done].
    destruct C3' as [-> HF']. split; [done|]. unfold elems in Ho. rewrite Ea in Ho. rewrite index_lookup in Ho.
    rewrite (proj2 (Z.ltb_ge _ _)) in Ho by lia. rewrite <- (list_insert_id l0 _ _ Ho).
    apply Forall2_insert; [done|]. by exists f, w. }
  constructor; [exact Hok3|exact Hh1| | | |].
  - eexists _, _. split; [cbn; rewrite D1, C3; reflexivity|exact Hsame].
  - intros x Hx. change (mem_of s2) with (mem_of s1). rewrite Hu; [by apply C4|].
    intros r [<-|[]]. apply Hx. apply list_elem_of_In, list_elem_of_omap. exists (Some f). split; [|done].
    by eapply index_in.
  - intros j g Hj Hg x Hx. change (mem_of s2) with (mem_of s1). rewrite Hu; [by apply (C5 j g); [lia|..]|].
    intros r [<-|[]] Hin. rewrite index_lookup in Ho, Hg.
    rewrite (proj2 (Z.ltb_ge _ _)) in Ho by lia. rewrite (proj2 (Z.ltb_ge _ _)) in Hg by lia.
    assert (Z.to_nat i ≠ Z.to_nat j) as Hne by lia.
    destruct (code_disjoint _ _ _ _ _ _ (lo_heap _ _ _ _ Hok0) (ok_functions _ _ Hm0) Hne Ho Hg) as [Hd|Hd];
      unfold in_region, code_region in *; cbn in *; lia.
  - intros j g Hj Hg. cbn in Hg. rewrite index_lookup in Hg. destruct (Z.ltb_spec j 0); [done|].
    destruct (decide (j = i)) as [->|Hne].
    + rewrite list_lookup_insert_eq in Hg; [by injection Hg as <-|]. apply index_range in Ho'. unfold zlen in Ho'. lia.
    + rewrite list_lookup_insert_ne in Hg by lia. apply (C6 j g); [lia|]. rewrite Ec, index_lookup.
      by rewrite (proj2 (Z.ltb_ge _ _)) by lia.
Qed.

Lemma wp_prepare_functions (Q : unit → loading → Prop) :
  (∀ s, checking (count (md_functions m0)) s → Q tt s) →
  wp (count_to (count (md_functions m0)) prepare_function) Q (ok old []) s0.
Proof using All.
  intros HQ. destruct (counts_small _ _ Hm0) as (Hc&_).
  eapply (wp_count_to _ _ checking); [lia|apply checking_start| |exact HQ].
  intros j s Hj Hs. by apply wp_prepare_function.
Qed.

End prepare.
