(* ===== verification/ResetProofs.v ===== *)
(** The size of a memory that cannot grow, and all that comes behind the sections. *)
From stdpp Require Import base gmap list numbers strings.
From Stdlib Require Import Strings.Byte ZArith Lia.
From S2P Require Import Prelude CMemory WasmTypes PoolInfo Opcodes Leb FindBlock LoaderCtx Validate Typing Wp.
From S2P Require Import LoaderInv LoaderOps LoaderStep LoaderBlocks LoaderLoop Dialects Validation LoaderModule MemInit.
From S2P Require Import Sections LoadModule LoadInv Loaded SectionProofs ImportProofs FunctionProofs LoadProofs.
From S2P Require Import FinishProofs CheckProofs.

(** * Modules with the same parts *)

Lemma module_ok_resolved h m m' : resolved m m' → module_ok h m → module_ok h m'.
Proof. intros (a&r&->) []. by constructor. Qed.

Lemma value_types_resolved m m' : resolved m m' → value_types m → value_types m'.
Proof. intros (a&r&->) []. by constructor. Qed.

Lemma one_page_ok o m : memory_ok (one_page (shrink o m)).
Proof. right. split_and!; [by apply wrap_range|by apply wrap_range|done..]. Qed.

(** Another memory, of the module or imported. *)
Lemma module_ok_memories h m c :
  module_ok h m → loaded memory_ok c → count c = count (md_memories m) → module_ok h (set_md_memories c m).
Proof.
  intros [M1 M2 M3 M4 [M5 M5'] M6 M7 M8 M9 M10] Hc Hn. constructor; try done.
  - split; [done|]. cbn. by rewrite Hn.
  - destruct M7 as [E1 E2 E3]. constructor; [done|done|]. eapply Forall_impl; [exact E3|].
    intros e [He (n&msg&Hx&Hi)]. split; [done|]. exists n, msg. split; [|done]. rewrite <- Hx.
    unfold exported. cbn. by rewrite Hn.
  - destruct M10 as [E1 E2 E3]. constructor; [done|done|]. eapply Forall_impl; [exact E3|].
    intros d (d'&->&?&Hd&?). exists d'. split_and!; [done|done| |done]. cbn. by rewrite Hn.
Qed.

(** The functions with their verdicts. *)
Lemma type_at_same m c pg i :
  same_functions (md_functions m) c →
  type_at (set_md_possible_memory_grow pg (set_md_functions c m)) i = type_at m i.
Proof.
  intros Hs%same_elems. unfold type_at. cbn. destruct (index (imports_from _ _ _) i); [done|].
  rewrite !index_lookup. destruct (_ <? 0); [done|].
  destruct (elems c !! Z.to_nat (i - import_function_count (md_imports m))) as [o|] eqn:E.
  - destruct (Forall2_lookup_r _ _ _ _ _ Hs E) as (o'&->&f&v&->&->). done.
  - apply lookup_ge_None in E. rewrite <- (Forall2_length _ _ _ Hs) in E. by rewrite (proj2 (lookup_ge_None _ _)).
Qed.

Lemma module_ok_functions h h' m c pg :
  module_ok h m → same_heap h h' → same_functions (md_functions m) c →
  module_ok h' (set_md_possible_memory_grow pg (set_md_functions c m)).
Proof.
  intros [M1 M2 M3 M4 M5 M6 M7 M8 M9 M10] Hh Hs. pose proof Hs as [Hn _]. constructor; try done.
  - by eapply functions_ok_same.
  - destruct M7 as [A B C]. constructor; [done|done|]. eapply Forall_impl; [exact C|].
    intros e [He (n&msg&Hx&Hi)]. split; [done|]. exists n, msg. split; [|done]. rewrite <- Hx.
    unfold exported. cbn. by rewrite Hn.
  - unfold start_ok in *. by rewrite type_at_same.
  - destruct M9 as [A B C]. constructor; [done|done|]. eapply Forall_impl; [exact C|].
    intros t (T1&T2&T3&T4). split_and!; [done|done|done|]. unfold all_functions. cbn. by rewrite Hn.
Qed.

Section import.
Context (ts : types_array) (i : import_info) (Hok : imports_ok ts i).

(** The imported memory is replaced. *)
Lemma replace_import_memory at_ x y m b l :
  import_memories_at i = Some at_ → md_import_array i = mkCounted (zlen l) (Some (b, l)) →
  index l at_ = Some x → memory_ok m → i_u y = ImportMemory m →
  let c := mkCounted (zlen l) (Some (b, <[Z.to_nat at_ := y]> l)) in
  let i' := mkImportInfo c (import_function_count i) (m_import_table_count i) (m_import_memory_count i)
    (import_global_count i) (import_functions_at i) (import_tables_at i) (import_memories_at i) (import_globals_at i) in
  imports_ok ts i'
  ∧ imports_from (import_functions_at i') (import_function_count i') i'
    = imports_from (import_functions_at i) (import_function_count i) i
  ∧ imports_from (import_globals_at i') (import_global_count i') i'
    = imports_from (import_globals_at i) (import_global_count i) i.
Proof using Hok.
  intros Hat Harr Hx Hm Hy c i'.
  destruct Hok as [(fs&tabs&mems&globs&E&Hf&Ht&Hme&Hg&F1&F2&F3&F4) I2 I3 I4 I5 I6 I7 I8].
  rewrite Harr in E, I2, I3. cbn in E, I2, I3. rewrite I7 in Hat. unfold place_of in Hat.
  destruct (Z.eqb_spec (m_import_memory_count i) 0) as [|Hn]; [done|]. injection Hat as <-.
  destruct mems as [|z [|z' mems]]; [change (zlen []) with 0 in Hme; lia| |pose proof (zlen_nonneg mems); rewrite !zlen_cons in Hme; lia].
  assert (<[Z.to_nat (import_function_count i + m_import_table_count i) := y]> l = fs ++ tabs ++ [y] ++ globs) as El.
  { rewrite E, <- Hf, <- Ht, insert_above by apply zlen_nonneg. f_equal.
    rewrite <- (Z.add_0_r (zlen tabs)), insert_above by lia. done. }
  assert (imports_ok ts i') as Hi'.
  { constructor; try done.
    - exists fs, tabs, [y], globs. cbn. rewrite El. split_and!; try done. constructor; [by exists m|constructor].
    - cbn. unfold zlen. by rewrite length_insert.
    - cbn. unfold zlen in *. by rewrite length_insert. }
  split; [exact Hi'|]. unfold imports_from. cbn. rewrite Harr, El. cbn. rewrite E, I5, I8. unfold place_of.
  assert (∀ z, take (Z.to_nat (import_function_count i)) (drop (Z.to_nat 0) (fs ++ tabs ++ [z] ++ globs)) = fs
    ∧ take (Z.to_nat (import_global_count i))
        (drop (Z.to_nat (import_function_count i + m_import_table_count i + m_import_memory_count i))
          (fs ++ tabs ++ [z] ++ globs)) = globs) as Hparts.
  { intros w. split; [exact (part_drop [] fs _ _ (eq_sym Hf))|].
    pose proof (part_drop (fs ++ tabs ++ [w]) globs [] _ (eq_sym Hg)) as Hp.
    rewrite app_nil_r, !zlen_app, Hf, Ht, <- !app_assoc, Z.add_assoc in Hp.
    change (zlen [w]) with (zlen [z]) in Hp. by rewrite Hme in Hp. }
  destruct (Hparts y) as [P1 P2], (Hparts z) as [P3 P4]. cbn [app] in *. unfold place_of.
  destruct (import_function_count i =? 0), (import_global_count i =? 0); split; congruence.
Qed.

End import.

Lemma module_ok_imports h m i' :
  let i := md_imports m in
  module_ok h m → imports_ok (md_types m) i' →
  import_function_count i' = import_function_count i → m_import_table_count i' = m_import_table_count i →
  m_import_memory_count i' = m_import_memory_count i → import_global_count i' = import_global_count i →
  imports_from (import_functions_at i') (import_function_count i') i'
    = imports_from (import_functions_at i) (import_function_count i) i →
  module_ok h (set_md_imports i' m).
Proof.
  intros i [M1 M2 M3 M4 M5 M6 M7 M8 M9 M10] Hi' E1 E2 E3 E4 E5. constructor; try done.
  - cbn. by rewrite E2.
  - cbn. by rewrite E3.
  - cbn. by rewrite E4.
  - destruct M7 as [A B C]. constructor; [done|done|]. eapply Forall_impl; [exact C|].
    intros e [He (n&msg&Hx&Hi)]. split; [done|]. exists n, msg. split; [|done]. rewrite <- Hx.
    unfold exported. cbn. by rewrite E1, E2, E3, E4.
  - unfold start_ok, type_at in *. cbn. rewrite E5, E1. exact M8.
  - destruct M9 as [A B C]. constructor; [done|done|]. eapply Forall_impl; [exact C|].
    intros t (T1&T2&T3&T4). split_and!; [done| |done|].
    + cbn. by rewrite E2.
    + unfold all_functions. cbn. by rewrite E1.
  - destruct M10 as [A B C]. constructor; [done|done|]. eapply Forall_impl; [exact C|].
    intros d (d'&->&?&Hd&?). exists d'. split_and!; [done|done| |done]. cbn. by rewrite E3.
Qed.

Section reset.
Context `{PlacedPool} (old : before).

(** What [reset_memories] leaves. *)
Record reset (s s' : loading) : Prop := {
  rs_ok : ok old [] s';
  rs_ld : ld s' = ld s;
  rs_module : module_ok (heap_of s') (md s');
  rs_info : info_of (md s') = info_of (md s);
  rs_functions : md_functions (md s') = md_functions (md s)
}.

Lemma reset_refl s : ok old [] s → module_ok (heap_of s) (md s) → reset s s.
Proof. by constructor. Qed.

Lemma wp_reset_import o s (Q : unit → loading → Prop) F :
  ok old [] s → module_ok (heap_of s) (md s) → (∀ s', reset s s' → Q tt s') →
  wp (let+ i := getm md_imports in
      if negb (m_import_memory_count i =? 0) then
        let+ at_ := some (import_memories_at i) in
        let+ import := elem (md_import_array i) at_ in
        match i_u import with
        | ImportMemory m =>
            set_import (Some at_) (mkImportObj (i_kind import) (i_module_name import) (i_field_name import)
                                     (ImportMemory (one_page (shrink o m))))
        | _ => mstuck
        end
      else lret tt) Q F s.
Proof.
  intros Hok Hm HQ. apply wp_bind, wp_getm. destruct (Z.eqb_spec (m_import_memory_count (md_imports (md s))) 0) as [|Hn];
    cbn [negb]; [by apply wp_ret, HQ, reset_refl|].
  pose proof (ok_imports _ _ Hm) as Hi. destruct (imports_memory _ _ Hi Hn) as (at_&x&m&Hat&Hx&Hu&_).
  apply wp_bind. eapply wp_some; [exact Hat|]. apply wp_bind. eapply wp_elem; [exact Hx|]. rewrite Hu.
  pose proof (im_count _ _ Hi) as Hcnt.
  destruct (md_import_array (md_imports (md s))) as [n [[b l]|]] eqn:Ea; [|done]. cbn in Hx, Hcnt. subst n.
  destruct (replace_import_memory _ _ Hi at_ x
    (mkImportObj (i_kind x) (i_module_name x) (i_field_name x) (ImportMemory (one_page (shrink o m)))) _ b l Hat Ea Hx
    (one_page_ok o m) eq_refl) as (Hi'&Ef&Eg).
  apply wp_bind, wp_ret.
  eapply (wp_put old get_import_array set_import_array no_blocks _ _ b (zlen l) l);
    [exact Hok|exact Ea|by eapply index_range|done|by intros y Hy%not_elem_of_nil|].
  intros c -> Hok'. apply HQ. constructor; [exact Hok'|done| | |done].
  - by apply module_ok_imports.
  - unfold info_of. cbn in Ef, Eg |- *. by rewrite Ef, Eg.
Qed.

Lemma wp_reset_own o s (Q : unit → loading → Prop) F :
  ok old [] s → module_ok (heap_of s) (md s) → (∀ s', reset s s' → Q tt s') →
  wp (let+ c := getm md_memories in
      if negb (count c =? 0) then
        let+ m := elem c 0 in
        put md_memories set_md_memories 0 (one_page (shrink o m))
      else lret tt) Q F s.
Proof.
  intros Hok Hm HQ. apply wp_bind, wp_getm. destruct (Z.eqb_spec (count (md_memories (md s))) 0) as [|Hn]; cbn [negb];
    [by apply wp_ret, HQ, reset_refl|].
  destruct (ok_memories _ _ Hm) as [Hl _]. pose proof Hl as [L1 L2 L3].
  pose proof (zlen_nonneg (elems (md_memories (md s)))).
  destruct (index_some (elems (md_memories (md s))) 0) as [m Hx]; [lia|]. apply wp_bind. eapply wp_elem; [exact Hx|].
  destruct (md_memories (md s)) as [n [[b l]|]] eqn:Ea; [|done]. cbn in Hx, L1, L2, L3, Hn.
  eapply (wp_put old md_memories set_md_memories no_blocks _ _ b n l); [exact Hok|exact Ea|by eapply index_range|done|by intros y Hy%not_elem_of_nil|].
  intros c -> Hok'. apply HQ. constructor; [exact Hok'|done| | |done].
  - apply module_ok_memories; [done| |cbn; by rewrite Ea].
    constructor; cbn [count elems array]; rewrite ?zlen_insert; [done|done|]. apply Forall_insert; [done|]. apply one_page_ok.
  - unfold info_of. cbn. by rewrite Ea.
Qed.

Lemma wp_reset_memories o s (Q : unit → loading → Prop) F :
  ok old [] s → module_ok (heap_of s) (md s) → (∀ s', reset s s' → Q tt s') → wp (reset_memories o) Q F s.
Proof.
  intros Hok Hm HQ. unfold reset_memories. apply wp_bind_assoc, wp_bind.
  apply wp_reset_import; [done|done|]. intros s1 [R1 R2 R3 R4 R5].
  apply wp_reset_own; [done|done|]. intros s2 [T1 T2 T3 T4 T5]. apply HQ. constructor; [done|congruence|done|congruence..].
Qed.

(** ** Behind the sections *)

Definition after_sections : K unit :=
  let+ aux_heap_base := resolve in
  let+ c := getm md_functions in
  count_to (count c) prepare_function ;+
  let+ grow := getm md_possible_memory_grow in
  if grow : bool then lret tt else reset_memories aux_heap_base.

(** What the module must be for the loader to go right behind its sections. *)
Record checkable (m : module_obj) (mm : mem) : Prop := {
  ch_aux : aux_own m;
  ch_types : value_types m;
  ch_tame : tame_functions m mm
}.

(** A loaded module: it is well formed and all its functions are well typed. *)
Record valid_module (h : scratch) (m : module_obj) (mm : mem) : Prop := {
  vm_ok : module_ok h m;
  vm_functions : ∃ info, info_of m = Some info
    ∧ ∀ f, Some f ∈ elems (md_functions m) → checked info mm f
}.

(** The memory but for the code of the functions. *)
Definition code_regions (m : module_obj) : list region := omap (option_map code_region) (elems (md_functions m)).

Lemma code_regions_same m m' :
  same_functions (md_functions m) (md_functions m') → code_regions m' = code_regions m.
Proof.
  intros Hs%same_elems. unfold code_regions. by induction Hs as [|o o' l l' (f&v&->&->) _ IH]; [|cbn; rewrite IH].
Qed.

Lemma wp_after_sections s (Q : unit → loading → Prop) :
  ok old [] s → module_ok (heap_of s) (md s) → checkable (md s) (mem_of s) →
  (∀ s', ok old [] s' → same_heap (heap_of s) (heap_of s') → valid_module (heap_of s') (md s') (mem_of s) →
     code_regions (md s') = code_regions (md s) → unchanged_outside (code_regions (md s)) (mem_of s) (mem_of s') → Q tt s') →
  wp after_sections Q (ok old []) s.
Proof.
  intros Hok Hm [Ha Hv Ht] HQ. apply wp_bind. eapply wp_resolve; [exact Hm|done|done|].
  intros o s1 [E1 R1]. apply wp_bind, wp_getm.
  assert (heap_of s1 = heap_of s) as Eh by (unfold heap_of; by rewrite E1).
  assert (mem_of s1 = mem_of s) as Em by (unfold mem_of; by rewrite E1).
  assert (md_functions (md s1) = md_functions (md s)) as Ef by (by destruct R1 as (a&r&->)).
  assert (ok old [] s1) as Hok1.
  { destruct s1 as [l1 m1]. cbn in E1, R1. subst l1. destruct R1 as (a&r&->).
    apply (ok_module _ _ s (fun m => set_md_runtime r (set_md_aux a m))); [done|done|by left|done]. }
  pose proof (module_ok_resolved _ _ _ R1 Hm) as Hm1. rewrite <- Eh in Hm1.
  pose proof (value_types_resolved _ _ R1 Hv) as Hv1.
  assert (tame_functions (md s1) (mem_of s1)) as Ht1 by (unfold tame_functions; by rewrite Ef, Em).
  destruct (info_of_ok _ _ Hm1 Hv1) as (info&Hinfo&_). apply wp_bind.
  eapply (wp_prepare_functions old s1 info Hok1 Hm1 Hv1 Hinfo Ht1).
  intros s2 [C1 C2 (pg&c&C3&C3') C4 _ C6]. rewrite Eh in C2. apply wp_bind, wp_getm.
  assert (module_ok (heap_of s2) (md s2)) as Hm2.
  { rewrite C3. eapply module_ok_functions; [exact Hm1|by rewrite Eh|done]. }
  assert (∀ s3, reset s2 s3 → Q tt s3) as Hend.
  { intros s3 [T1 T2 T3 T4 T5]. apply HQ; [done| | | |].
    - unfold heap_of at 2. by rewrite T2.
    - split; [done|]. exists info. split; [by rewrite T4, C3, info_same|]. rewrite T5. intros f Hf.
      rewrite <- Em. apply list_elem_of_lookup in Hf as [j Hj]. apply (C6 (Z.of_nat j)).
      + rewrite (ld_count _ _ (fs_loaded _ _ _ (ok_functions _ _ Hm1))). apply lookup_lt_Some in Hj.
        rewrite C3 in Hj. unfold zlen. rewrite (Forall2_length _ _ _ (same_elems _ _ C3')). cbn in Hj. lia.
      + rewrite index_lookup, (proj2 (Z.ltb_ge _ _)), Nat2Z.id by lia. done.
    - rewrite (code_regions_same (md s1)) by (by rewrite T5, C3). unfold code_regions. by rewrite Ef.
    - unfold mem_of at 2. rewrite T2. unfold code_regions. rewrite <- Ef, <- Em. exact C4. }
  destruct (md_possible_memory_grow (md s2)); [by apply wp_ret, Hend, reset_refl|]. by apply wp_reset_memories.
Qed.

End reset.
