(* ===== verification/Loading.v ===== *)
(** Loading and unloading as a whole: from the bytes of a module to the blocks that
    are left when it is unloaded. *)
From stdpp Require Import base gmap list numbers strings.
From Stdlib Require Import Strings.Byte ZArith Lia.
From S2P Require Import Prelude CMemory WasmTypes PoolInfo Opcodes Leb FindBlock LoaderCtx Validate Typing Wp.
From S2P Require Import LoaderInv LoaderStep Validation LoaderModule MemInit Sections LoadModule LoadInv Loaded.
From S2P Require Import SectionProofs ImportProofs FunctionProofs LoadProofs FinishProofs CheckProofs.
From S2P Require Import ResetProofs.

(** * Freeing *)

Definition freed (l : list nat) (h : scratch) : scratch :=
  mkScratch (next_block h) (foldl (fun m b => delete b m) (live h) l) (extents h).

Lemma lookup_deletes {A} (l : list nat) : ∀ (m : gmap nat A) b,
  foldl (fun m b => delete b m) m l !! b = if decide (b ∈ l) then None else m !! b.
Proof.
  induction l as [|x l IH]; intros m b; [done|]. cbn [foldl]. rewrite IH.
  destruct (decide (b ∈ l)) as [Hl|Hl], (decide (b ∈ x :: l)) as [Hx|Hx]; [done|destruct Hx; by right| |].
  - apply elem_of_cons in Hx as [->|?]; [|done]. apply lookup_delete_eq.
  - apply lookup_delete_ne. intros ->. destruct Hx. by left.
Qed.

Lemma live_freed l h b : live (freed l h) !! b = if decide (b ∈ l) then None else live h !! b.
Proof. apply lookup_deletes. Qed.

Lemma still_live l h b i : live (freed l h) !! b = Some i → b ∉ l ∧ live h !! b = Some i.
Proof. rewrite live_freed. by destruct (decide (b ∈ l)). Qed.

Lemma freed_app l l' h : freed (l ++ l') h = freed l' (freed l h).
Proof. unfold freed. cbn. by rewrite foldl_app. Qed.

Lemma heap_ok_freed l h : heap_ok h → heap_ok (freed l h).
Proof.
  intros [W1 W2 W3]. assert (∀ b r, block_at (freed l h) b r → block_at h b r) as Hb.
  { intros b r [[i [_ Hi]%still_live] He]. split; [by exists i|done]. }
  constructor.
  - intros b [i [_ Hi]%still_live]. apply W1. by exists i.
  - intros b b' r r' Hne H1%Hb H2%Hb. by eapply W2.
  - intros b r H1%Hb. by eapply W3.
Qed.

(** A routine that frees the blocks [l], in this order. *)
Definition frees (c : L unit) (l : list nat) : Prop :=
  ∀ s, c s = Ok (Some tt) (set_l_heap (freed l (l_heap s)) s).

Lemma frees_one b : frees (LoaderCtx.wasm_runtime_free b) [b].
Proof. done. Qed.

Lemma frees_none : frees (lret tt) [].
Proof. intros s. by destruct s as [? ? ? []]. Qed.

Lemma frees_seq c c' l l' : frees c l → frees c' l' → frees (c ;+ c') (l ++ l').
Proof. intros Hc Hc' s. unfold lbind, mbind. by rewrite Hc, Hc', freed_app. Qed.

Lemma frees_for {A} (l : list A) (c : A → L unit) f :
  (∀ a, frees (c a) (f a)) → frees (lfor l c) (flat_map f l).
Proof.
  intros Hc. induction l as [|a l IH]; [apply frees_none|]. by apply frees_seq.
Qed.

Lemma frees_opt b : frees (free_opt b) (opt_block b).
Proof. destruct b; [apply frees_one|apply frees_none]. Qed.

(** The blocks of an array, those of its elements first. *)
Definition array_frees {A} (f : A → list nat) (c : counted A) : list nat :=
  match array c with Some (b, l) => flat_map f l ++ [b] | None => [] end.

Lemma frees_array {A} (c : counted A) body f :
  (∀ a, frees (body a) (f a)) → frees (free_array c body) (array_frees f c).
Proof.
  intros Hb. unfold free_array, array_frees. destruct (array c) as [[b l]|]; [|apply frees_none].
  apply frees_seq; [by apply frees_for|apply frees_one].
Qed.

Definition function_frees (f : option function_obj) : list nat :=
  match f with Some f => opt_block (fn_offsets_block f) ++ [fn_block f] | None => [] end.

Lemma frees_function f :
  frees match f with
        | Some f => free_opt (fn_offsets_block f) ;+ LoaderCtx.wasm_runtime_free (fn_block f)
        | None => lret tt
        end (function_frees f).
Proof. destruct f as [f|]; [|apply frees_none]. apply frees_seq; [apply frees_opt|apply frees_one]. Qed.

Lemma in_array_frees {A} (f g : A → list nat) c b :
  (∀ a b, b ∈ f a ↔ b ∈ g a) → b ∈ array_frees f c ↔ b ∈ array_blocks g c.
Proof.
  intros Hfg. unfold array_frees, array_blocks. destruct (array c) as [[b0 l]|]; [|done].
  rewrite elem_of_app, list_elem_of_singleton, elem_of_cons, !list_elem_of_In, !in_flat_map.
  setoid_rewrite <- list_elem_of_In. setoid_rewrite Hfg. tauto.
Qed.

(** What [wasm_loader_unload] frees is what the module owns. *)
Lemma unload_frees m : ∃ l, frees (wasm_loader_unload m) l ∧ ∀ b, b ∈ l ↔ b ∈ blocks_of m.
Proof.
  assert (∀ b, flat_map (fun node : nat * list Z => [node.1]) b = map fst b) as Hstr.
  { intros b. induction b as [|[]]; cbn; by f_equal. }
  eexists. split.
  - unfold wasm_loader_unload. repeat apply frees_seq;
      first [apply frees_array; intros; first [apply frees_function|apply frees_opt|apply frees_none]
            |apply frees_for; intros; apply frees_one|apply frees_one].
  - intros b. unfold blocks_of. rewrite !elem_of_app, Hstr.
    rewrite (in_array_frees function_frees function_blocks), !(in_array_frees _ _ _ _ (fun a b => iff_refl (b ∈ _))).
    + reflexivity.
    + intros [f|] b'; [|done]. cbn. rewrite elem_of_app, list_elem_of_singleton, elem_of_cons. tauto.
Qed.

(** ** The blocks the loader keeps for itself *)

Section freeing.
Context `{PlacedPool}.

Definition with_heap (h : scratch) (s : loading) : loading := mkLoading (set_l_heap h (ld s)) (md s).

Lemma destroy_frees xs s :
  destroy_sections xs s = Ok (Some tt) (with_heap (freed (map s_block xs) (heap_of s)) s).
Proof.
  revert s. induction xs as [|x xs IH]; intros s; [by destruct s as [[? ? ? [] ? ?] ?]|]. exact (IH _).
Qed.

(** What was in hand is kept for later. *)
Lemma ok_keep wl mb ks s : ok (mkBefore wl mb []) ks s → ok (mkBefore wl mb ks) [] s.
Proof. intros [W1 W2 W3 W4 W5 W6]. by constructor; rewrite ?app_nil_r in *. Qed.

(** And what is kept is freed. *)
Lemma ok_freed wl mb ks s :
  ok (mkBefore wl mb ks) [] s → ok (mkBefore wl mb []) [] (with_heap (freed ks (heap_of s)) s).
Proof.
  intros [W1 W2 W3 W4 W5 W6]. cbn in *. constructor; cbn [was_live module_block kept_blocks with_heap md].
  - by apply heap_ok_freed.
  - intros b Hb. change (live (freed ks (heap_of s)) !! b = wl !! b). rewrite live_freed.
    destruct (decide (b ∈ ks)); [|by apply W2]. exfalso. apply (W6 b); [by right|done].
  - intros b i [Hn Hl]%still_live. destruct (W3 b i Hl) as [?|[?|?]]; [by left|done|by right; right].
  - done.
  - done.
  - intros b [Hb|[]%not_elem_of_nil]. apply W6. by left.
Qed.

Lemma bytes_freed ks h b r : recorded h ks → bytes_at h b r → bytes_at (freed ks h) b r.
Proof.
  intros Hks [Hl He]. split; [|done]. rewrite live_freed. destruct (decide (b ∈ ks)) as [Hb|]; [|done].
  rewrite (Hks b Hb) in Hl. discriminate.
Qed.

(** The code of the functions is not freed. *)
Lemma module_ok_freed ks h m : recorded h ks → module_ok h m → module_ok (freed ks h) m.
Proof.
  intros Hks []. constructor; try done. destruct ok_functions as [[F1 F2 F3] Hd].
  split; [constructor; [done|done|]|done]. eapply Forall_impl; [exact F3|]. intros o (f&->&[]). exists f.
  split; [done|]. constructor; try done. destruct fo_code as (cb&?&?). exists cb. split; [done|]. by apply bytes_freed.
Qed.

Lemma recorded_same h h' ks : same_heap h h' → recorded h ks → recorded h' ks.
Proof. intros [S1 _ _] Hk b Hb. rewrite S1. by apply Hk. Qed.

End freeing.

(** * Loading *)

Section loading.
Context `{PlacedPool} (statics : memory_statics).
Context (wasm_native_resolve_symbol : list Z → list Z → type_obj → native_symbol).

Definition header (buf size : Z) : K unit :=
  set_p buf ;+
  CHECK_BUF1 (buf + size) 4 ;+
  let+ magic_number := read_uint32 in
  (if negb (magic_number =? WASM_MAGIC_NUMBER) then fail "magic header not detected" else lret tt) ;+
  CHECK_BUF1 (buf + size) 4 ;+
  let+ version := read_uint32 in
  if negb (version =? WASM_CURRENT_VERSION) then fail "unknown binary version" else lret tt.

(** [load] up to the end of the last section. *)
Definition load_sections (buf size : Z) : K unit :=
  header buf size ;+
  let* r := create_sections (S (Z.to_nat size)) (buf + size) 255 [] in
  if r.1 : bool then lfor r.2 (load_section statics wasm_native_resolve_symbol r.2) else mret None.

Lemma wp_header buf size s (Q : unit → loading → Prop) (F : loading → Prop) :
  (buf + 8 <= buf + size → Q tt (goto (buf + 8) s)) → (∀ msg p, F (err msg (goto p s))) →
  wp (header buf size) Q F s.
Proof.
  intros HQ HF. apply wp_bind, wp_set_p. apply wp_bind, wp_CHECK_BUF1; [|intros; apply HF]. intros _.
  assert (∀ p (Q' : Z → loading → Prop), (∀ v, Q' v (goto (p + 4) s)) → wp read_uint32 Q' F (goto p s)) as Hread.
  { intros p Q' HQ'. do 2 apply wp_bind, wp_getl. apply wp_bind, wp_skip, wp_ret. apply (HQ' _). }
  apply wp_bind, Hread. intros magic. apply wp_bind. destruct (negb _); [apply wp_kfail, HF|]. apply wp_ret.
  apply wp_bind, wp_CHECK_BUF1; [|intros; apply HF]. intros Hp. apply wp_bind, Hread. intros version.
  destruct (negb _); [apply wp_kfail, HF|]. apply wp_ret.
  replace (buf + 4 + 4) with (buf + 8) by lia. apply HQ. cbn in Hp. lia.
Qed.

(** [load] is what reads the sections, what comes behind them, and the freeing of the
    structures of the sections. *)
Lemma load_parts buf size s :
  load statics wasm_native_resolve_symbol buf size s
  = (header buf size ;+
     let* r := create_sections (S (Z.to_nat size)) (buf + size) 255 [] in
     let* o := (if r.1 : bool
                then lfor r.2 (load_section statics wasm_native_resolve_symbol r.2) ;+ after_sections
                else mret None) in
     destroy_sections r.2 ;+ mret o) s.
Proof.
  unfold load, header, lbind, mbind.
  destruct (set_p buf s) as [[[]|] s1| |]; [|done..].
  destruct (CHECK_BUF1 _ 4 s1) as [[[]|] s2| |]; [|done..].
  destruct (read_uint32 s2) as [[v|] s3| |]; [|done..]. destruct (negb _); [done|]. cbn [lret mret].
  destruct (CHECK_BUF1 _ 4 s3) as [[[]|] s4| |]; [|done..].
  destruct (read_uint32 s4) as [[w|] s5| |]; [|done..]. by destruct (negb _).
Qed.

(** ** What a load leaves *)

(** A module is under way: the live blocks are those there were, [wl], those of the
    module, copies of bytes, and structures of sections. *)
Record under_way (wl : gmap nat (option (Data_Type * Z))) (s : loading) : Prop := {
  uw_heap : heap_ok (heap_of s);
  uw_old b : is_Some (wl !! b) → live (heap_of s) !! b = wl !! b;
  uw_new b i : live (heap_of s) !! b = Some i →
    is_Some (wl !! b) ∨ b ∈ blocks_of (md s) ∨ (∃ n, i = Some (uint8T, n)) ∨ i = Some (WASMSectionT, 1);
  uw_mine b : b ∈ blocks_of (md s) → ¬ is_Some (wl !! b)
}.

(** No module is there: the blocks of [wl], copies of bytes and structures of
    sections. *)
Record left_over (wl : gmap nat (option (Data_Type * Z))) (h : scratch) : Prop := {
  le_heap : heap_ok h;
  le_old b : is_Some (wl !! b) → live h !! b = wl !! b;
  le_new b i : live h !! b = Some i →
    is_Some (wl !! b) ∨ (∃ n, i = Some (uint8T, n)) ∨ i = Some (WASMSectionT, 1)
}.

Lemma under_way_ok wl mb ks hand s :
  ok (mkBefore wl mb ks) hand s → recorded (heap_of s) (hand ++ ks) → under_way wl s.
Proof.
  intros [W1 W2 W3 W4 W5 W6] Hk. constructor; [done|done| |].
  - intros b i Hl. destruct (W3 b i Hl) as [?|[Hb|(t&n&->&[->|?])]]; eauto.
    rewrite (Hk b Hb) in Hl. injection Hl as <-. auto.
  - intros b Hb. apply W6. by left.
Qed.

Lemma under_way_done wl mb s : ok (mkBefore wl mb []) [] s → under_way wl s.
Proof. intros Hok. eapply (under_way_ok wl mb [] []); [done|]. by intros b []%not_elem_of_nil. Qed.

Lemma under_way_freed wl ks s :
  under_way wl s → (∀ b, b ∈ ks → ¬ is_Some (wl !! b)) → under_way wl (with_heap (freed ks (heap_of s)) s).
Proof.
  intros [W1 W2 W3 W4] Hk. constructor.
  - by apply heap_ok_freed.
  - intros b Hb. change (live (freed ks (heap_of s)) !! b = wl !! b). rewrite live_freed.
    destruct (decide (b ∈ ks)); [|by apply W2]. by destruct (Hk b).
  - intros b i [_ Hl]%still_live. by apply W3.
  - done.
Qed.

Lemma left_over_unloaded wl s l :
  under_way wl s → (∀ b, b ∈ l ↔ b ∈ blocks_of (md s)) → left_over wl (freed l (heap_of s)).
Proof.
  intros [W1 W2 W3 W4] Hl. constructor.
  - by apply heap_ok_freed.
  - intros b Hb. rewrite live_freed. destruct (decide (b ∈ l)) as [Hin|]; [|by apply W2].
    apply Hl in Hin. by destruct (W4 b Hin).
  - intros b i [Hn Hi]%still_live. destruct (W3 b i Hi) as [?|[Hb|?]]; [by left| |by right].
    by apply Hl in Hb.
Qed.

(** ** The sections *)

Abbreviation sections_loop xs := (lfor xs (load_section statics wasm_native_resolve_symbol xs)).

Lemma run_sections fuel e wl mb s :
  ok (mkBefore wl mb []) [] s → staged 0 (heap_of s) (md s) → pos s <= e -> e - pos s < Z.of_nat fuel →
  ∃ b xs s1, create_sections fuel e 255 [] s = Ok (b, xs) s1 ∧ recorded (heap_of s1) (map s_block xs)
    ∧ if b : bool
      then ok (mkBefore wl mb (map s_block xs)) [] s1
           ∧ wp (sections_loop xs)
               (fun _ s2 => ok (mkBefore wl mb (map s_block xs)) [] s2 ∧ grows s s2 ∧ grows s1 s2
                            ∧ module_ok (heap_of s2) (md s2))
               (ok (mkBefore wl mb (map s_block xs)) []) s1
      else under_way wl s1 ∧ ∀ b, b ∈ map s_block xs → ¬ is_Some (wl !! b).
Proof.
  intros Hok Hs Hp Hf.
  destruct (create_sections_ok (mkBefore wl mb []) fuel e s 255 [] s) as (b&xs&s1&E&Hb); [done|done| |done|].
  { split_and!; [|by constructor|done]. constructor; [done|by intros b []%not_elem_of_nil|apply grows_refl|done]. }
  exists b, xs, s1. split; [done|]. destruct b.
  - destruct Hb as ([C1 C2 C3 C4]&Hl&Ho). split; [done|]. apply ok_keep in C1. split; [done|].
    eapply (wp_load_sections (mkBefore wl mb (map s_block xs))); [exact C1| |exact Hl|exact Ho|].
    + rewrite C4. by eapply staged_grows.
    + intros s2 Hok2 G2 Hm. split_and!; [done|by eapply grows_trans|done|done].
  - destruct Hb as (Hr&Hn&hand&[C1 C2 C3 C4]). split; [done|]. split; [|done].
    apply (under_way_ok wl mb [] hand); [done|]. by rewrite app_nil_r.
Qed.

Lemma sections_outcome buf size wl mb s :
  ok (mkBefore wl mb []) [] s → staged 0 (heap_of s) (md s) → 0 <= size →
  ∃ o s', load_sections buf size s = Ok o s' ∧ (o = Some tt → grows s s' ∧ module_ok (heap_of s') (md s')).
Proof.
  intros Hok Hst Hsize. unfold load_sections.
  pose proof (wp_header buf size s (fun _ s' => buf + 8 <= buf + size ∧ s' = goto (buf + 8) s)
    (fun _ => True)) as Hw. unfold wp in Hw. unfold lbind, mbind.
  destruct (header buf size s) as [[[]|] s1| |]; [|by eexists None, _|destruct Hw; by eauto..].
  destruct Hw as [Hp ->]; [by eauto..|]. set (s1 := goto (buf + 8) s) in *.
  destruct (run_sections (S (Z.to_nat size)) (buf + size) wl mb s1) as (b&xs&s2&E&Hr&Hb);
    [exact Hok|exact Hst|exact Hp|cbn; lia|]. rewrite E. cbn [fst snd]. destruct b; [|by eexists None, _].
  destruct Hb as [Hok2 Hw]. unfold wp in Hw.
  destruct (lfor xs _ s2) as [[[]|] s3| |]; [|by eexists None, _|done..].
  eexists _, _. split; [done|]. intros _. destruct Hw as (_&G&_&Hm). split; [exact G|exact Hm].
Qed.

(** ** A whole load *)

(** A loaded module, on the memory [mm] there was when the last section was read: since
    then only code is rewritten. *)
Record loaded_from (wl : gmap nat (option (Data_Type * Z))) (mb : nat) (s s2 s' : loading) : Prop := {
  lf_ok : ok (mkBefore wl mb []) [] s';
  lf_valid : valid_module (heap_of s') (md s') (mem_of s2);
  lf_grows : grows s s2;
  lf_same : code_regions (md s') = code_regions (md s2);
  lf_code : unchanged_outside (code_regions (md s2)) (mem_of s2) (mem_of s')
}.

Lemma load_outcome buf size wl mb s :
  ok (mkBefore wl mb []) [] s → staged 0 (heap_of s) (md s) → 0 <= size →
  (∀ s2, load_sections buf size s = Ok (Some tt) s2 → checkable (md s2) (mem_of s2)) →
  ∃ o s', load statics wasm_native_resolve_symbol buf size s = Ok o s'
    ∧ match o with
      | Some _ => ∃ s2, load_sections buf size s = Ok (Some tt) s2 ∧ loaded_from wl mb s s2 s'
      | None => under_way wl s'
      end.
Proof.
  intros Hok Hst Hsize Hck. rewrite load_parts. unfold load_sections in Hck |- *.
  pose proof (wp_header buf size s (fun _ s' => buf + 8 <= buf + size ∧ s' = goto (buf + 8) s)
    (fun s' => ∃ msg p, s' = err msg (goto p s))) as Hw. unfold wp in Hw. unfold lbind, mbind in Hck |- *.
  destruct (header buf size s) as [[[]|] s1| |]; [| |destruct Hw; by eauto..].
  2:{ destruct Hw as (msg&p&->); [by eauto..|]. exists None, (err msg (goto p s)). split; [done|].
      by eapply under_way_done. }
  destruct Hw as [Hp ->]; [by eauto..|]. set (s1 := goto (buf + 8) s) in *.
  destruct (run_sections (S (Z.to_nat size)) (buf + size) wl mb s1) as (b&xs&s2&E&Hr&Hb);
    [exact Hok|exact Hst|exact Hp|cbn; lia|]. rewrite E in *. cbn [fst snd] in *. destruct b.
  2:{ cbn [mret]. unfold mret. rewrite destroy_frees. destruct Hb as [Hu Hn]. eexists None, _. split; [done|]. by apply under_way_freed. }
  destruct Hb as [Hok2 Hw]. unfold wp in Hw.
  destruct (lfor xs _ s2) as [[[]|] s3| |]; [| |done..]; cbn [mret].
  2:{ rewrite destroy_frees. eexists None, _. split; [done|]. apply ok_freed in Hw.
      by eapply under_way_done. }
  destruct Hw as (Hok3&G&G2&Hm). specialize (Hck s3 eq_refl).
  pose proof (wp_after_sections _ s3 (fun _ s' => same_heap (heap_of s3) (heap_of s')
    ∧ ok (mkBefore wl mb (map s_block xs)) [] s' ∧ valid_module (heap_of s') (md s') (mem_of s3)
    ∧ code_regions (md s') = code_regions (md s3)
    ∧ unchanged_outside (code_regions (md s3)) (mem_of s3) (mem_of s')) Hok3 Hm Hck) as Ha. unfold wp in Ha.
  destruct (after_sections s3) as [[[]|] s4| |]; [| |destruct Ha; by eauto..]; rewrite destroy_frees;
    eexists _, _; (split; [done|]); cbv beta iota.
  2:{ specialize (Ha (fun s' H1 H2 H3 H4 H5 => conj H2 (conj H1 (conj H3 (conj H4 H5))))). apply ok_freed in Ha.
      by eapply under_way_done. }
  destruct Ha as (Hh&Hok4&[V1 V2]&Hr4&Hc); [by auto|]. exists s3. split; [done|]. constructor; [by apply ok_freed|..].
  - split; [|exact V2]. apply module_ok_freed; [|exact V1]. eapply recorded_same; [exact Hh|].
    eapply recorded_grows; [exact G2|exact Hr].
  - exact G.
  - exact Hr4.
  - exact Hc.
Qed.

(** ** The block of the module *)

Lemma create_module_ok l :
  heap_ok (l_heap l) →
  (∃ b l1, create_module l = Ok (Some (blank_module b)) l1
     ∧ ok (mkBefore (live (l_heap l)) b []) [] (mkLoading l1 (blank_module b))
     ∧ kept_heap (l_heap l) (l_mem l) (l_heap l1) (l_mem l1))
  ∨ ∃ l1, create_module l = Ok None l1 ∧ live (l_heap l1) = live (l_heap l) ∧ heap_ok (l_heap l1).
Proof.
  intros Hh. set (b := next_block (l_heap l)). set (s := mkLoading l (blank_module b)).
  assert (live (l_heap l) !! b = None) as Hf by (apply eq_None_not_Some; intros [? _]%(ho_fresh _ Hh); unfold b in *; lia).
  unfold create_module, LoaderCtx.loader_malloc, LoaderCtx.wasm_runtime_malloc, lbind, mbind.
  destruct (_ <=? _); [right; by eexists|].
  destruct (grants (l_heap l) (sizeof WASMModule)) as [a|] eqn:Eg.
  2:{ right. eexists. split; [reflexivity|]. split; [done|by apply heap_bump]. }
  left. cbn [LoaderCtx.alloc_info lret mret]. set (l0 := set_l_heap _ l).
  assert (ok (mkBefore (live (l_heap l)) b []) [b] (mkLoading l0 (blank_module b))) as Hok.
  { constructor; cbn [was_live module_block kept_blocks md]; [by apply heap_malloc; [|by vm_compute|]| | |done|done|].
    - intros x Hx. apply lookup_insert_ne. intros <-. fold b in Hx. rewrite Hf in Hx. by destruct Hx.
    - intros x i Hx. cbn in Hx. destruct (decide (next_block (l_heap l) = x)) as [<-|Hne]; [right; left; by left|].
      rewrite lookup_insert_ne in Hx by done. left. by eexists.
    - intros x [Hx|Hx]; apply list_elem_of_singleton in Hx as ->; change (¬ is_Some (live (l_heap l) !! b)); rewrite Hf; by intros []. }
  assert (kept_heap (l_heap l) (l_mem l) (l_heap l0) (l_mem l0)) as Hk.
  { constructor; cbn; [| |done]; intros x Hx; apply lookup_insert_ne; intros <-; fold b in Hx; rewrite Hf in Hx; by destruct Hx. }
  pose proof (wp_alloc_info (mkBefore (live (l_heap l)) b []) b WASMModuleT 1 [b] s (mkLoading l0 (blank_module b))
    (fun _ s' => ok (mkBefore (live (l_heap l)) b []) [] s' ∧ md s' = blank_module b ∧ grows s s')
    (fun _ => False)) as Hw.
  destruct Hw as (Hok1&_&G); [done| | |by left|exact Hok|exact Hk| |].
  - exists None. cbn. by rewrite lookup_insert_eq.
  - cbn. rewrite Hf. by intros [].
  - intros s' L E M P D Hok' G. split_and!; [|done|done]. eapply ok_settle; [exact Hok'|exact L|]. right. rewrite D. by left.
  - exists b. eexists. split; [reflexivity|]. split; [exact Hok1|exact G].
Qed.

End loading.
