(* ===== verification/Utf8.v ===== *)
(** The names the loader accepts: they are the UTF-8 encodings of sequences of Unicode
    scalar values. *)
From stdpp Require Import base list numbers.
From Stdlib Require Import ZArith Lia.
From S2P Require Import Prelude LoaderModule.

(** A Unicode scalar value, and its bytes. *)
Definition scalar (c : Z) : Prop := 0 <= c < 0xD800 ∨ 0xE000 <= c < 0x110000.

Definition utf8 (c : Z) : list Z :=
  if c <? 0x80 then [c]
  else if c <? 0x800 then [0xC0 + c / 64; 0x80 + c mod 64]
  else if c <? 0x10000 then [0xE0 + c / 4096; 0x80 + c / 64 mod 64; 0x80 + c mod 64]
  else [0xF0 + c / 262144; 0x80 + c / 4096 mod 64; 0x80 + c / 64 mod 64; 0x80 + c mod 64].

Lemma byte_in_spec lo c hi : byte_in lo c hi = true ↔ lo <= c <= hi.
Proof. unfold byte_in. rewrite negb_true_iff, orb_false_iff, !Z.ltb_ge. lia. Qed.

Lemma utf8_two a b : 2 <= a < 32 → 0 <= b < 64 → utf8 (a * 64 + b) = [0xC0 + a; 0x80 + b].
Proof.
  intros Ha Hb. unfold utf8. repeat zcase; try lia. f_equal; [|f_equal]; Z.to_euclidean_division_equations; lia.
Qed.

Lemma utf8_three a b c :
  0 <= a < 16 → 0 <= b < 64 → 0 <= c < 64 → 32 <= a * 64 + b →
  utf8 (a * 4096 + b * 64 + c) = [0xE0 + a; 0x80 + b; 0x80 + c].
Proof.
  intros Ha Hb Hc Hab. unfold utf8. repeat zcase; try lia.
  repeat f_equal; Z.to_euclidean_division_equations; lia.
Qed.

Lemma utf8_four a b c d :
  0 <= a < 5 → 0 <= b < 64 → 0 <= c < 64 → 0 <= d < 64 → 16 <= a * 64 + b →
  utf8 (a * 262144 + b * 4096 + c * 64 + d) = [0xF0 + a; 0x80 + b; 0x80 + c; 0x80 + d].
Proof.
  intros Ha Hb Hc Hd Hab. unfold utf8. repeat zcase; try lia.
  repeat f_equal; Z.to_euclidean_division_equations; lia.
Qed.

(** One character. *)
Lemma utf8_step chr p :
  0 <= chr → check_utf8_str (chr :: p) = true →
  ∃ c rest, scalar c ∧ chr :: p = utf8 c ++ rest ∧ check_utf8_str rest = true.
Proof.
  intros H0. cbn [check_utf8_str]. destruct (Z.ltb_spec chr 0x80) as [Hc|Hc].
  { intros Hp. exists chr, p. split_and!; [left; lia| |done]. unfold utf8. by rewrite (proj2 (Z.ltb_lt _ _)). }
  destruct p as [|p1 p]; [done|]. unfold tail_byte. destruct (byte_in 0xC2 chr 0xDF) eqn:E2.
  { apply byte_in_spec in E2. intros [H1%byte_in_spec Hp]%andb_true_iff.
    exists ((chr - 0xC0) * 64 + (p1 - 0x80)), p. split_and!; [left; lia| |done].
    rewrite utf8_two by lia. cbn. repeat f_equal; lia. }
  destruct p as [|p2 p]; [done|]. destruct (byte_in 0xE0 chr 0xEF) eqn:E3.
  { apply byte_in_spec in E3. intros [H1 Hp]%andb_true_iff.
    exists ((chr - 0xE0) * 4096 + (p1 - 0x80) * 64 + (p2 - 0x80)), p.
    destruct (Z.eqb_spec chr 0xE0) as [->|]; [|destruct (Z.eqb_spec chr 0xED) as [->|]];
      apply andb_true_iff in H1 as [H1%byte_in_spec H2%byte_in_spec];
      (split_and!; [unfold scalar; lia| |done]; rewrite utf8_three by lia; cbn; repeat f_equal; lia). }
  destruct p as [|p3 p]; [done|]. destruct (byte_in 0xF0 chr 0xF4) eqn:E4; [|done].
  apply byte_in_spec in E4. intros [H1 Hp]%andb_true_iff.
  exists ((chr - 0xF0) * 262144 + (p1 - 0x80) * 4096 + (p2 - 0x80) * 64 + (p3 - 0x80)), p.
  destruct (Z.eqb_spec chr 0xF0) as [->|]; [|destruct (Z.eqb_spec chr 0xF4) as [->|]];
    apply andb_true_iff in H1 as [[H1%byte_in_spec H2%byte_in_spec]%andb_true_iff H3%byte_in_spec];
    (split_and!; [unfold scalar; lia| |done]; rewrite utf8_four by lia; cbn; repeat f_equal; lia).
Qed.

Ltac in_bytes := match goal with |- context [byte_in ?l ?c ?h] =>
  first [rewrite (proj2 (byte_in_spec l c h)) by lia
        |destruct (byte_in l c h) eqn:?; [exfalso; match goal with E : byte_in _ _ _ = true |- _ => apply byte_in_spec in E end; lia|]]
  end.

(** The bytes of a character are read over. *)
Lemma utf8_read c s : scalar c → check_utf8_str (utf8 c ++ s) = check_utf8_str s.
Proof.
  intros Hc. assert (0 <= c < 0x110000) as Hr by (destruct Hc; lia).
  destruct (Z.ltb_spec c 0x80) as [H1|H1].
  { unfold utf8. rewrite (proj2 (Z.ltb_lt _ _)) by done. cbn. by rewrite (proj2 (Z.ltb_lt _ _)). }
  destruct (Z.ltb_spec c 0x800) as [H2|H2].
  { rewrite (Z.div_mod c 64), (Z.mul_comm 64) by lia.
    assert (2 <= c / 64 < 32 ∧ 0 <= c mod 64 < 64) as [Ha Hb] by (Z.to_euclidean_division_equations; lia).
    rewrite utf8_two by done. cbn [app check_utf8_str]. unfold tail_byte. rewrite (proj2 (Z.ltb_ge _ _)) by lia.
    by repeat in_bytes. }
  assert (0 <= c mod 64 < 64 ∧ 0 <= c / 64 mod 64 < 64) as [Hl Hm] by (split; apply Z.mod_pos_bound; lia).
  destruct (Z.ltb_spec c 0x10000) as [H3|H3].
  { assert (c = c / 4096 * 4096 + c / 64 mod 64 * 64 + c mod 64 ∧ 0 <= c / 4096 < 16 ∧ 32 <= c / 4096 * 64 + c / 64 mod 64)
      as (Ec&Ha&Hab) by (Z.to_euclidean_division_equations; lia).
    rewrite Ec at 1. rewrite utf8_three by done. cbn [app check_utf8_str]. unfold tail_byte. rewrite (proj2 (Z.ltb_ge _ _)) by lia.
    unfold scalar in Hc. repeat (zcase; try lia); repeat in_bytes; done. }
  assert (0 <= c / 4096 mod 64 < 64) as Hh by (apply Z.mod_pos_bound; lia).
  assert (c = c / 262144 * 262144 + c / 4096 mod 64 * 4096 + c / 64 mod 64 * 64 + c mod 64 ∧ 0 <= c / 262144 < 5
    ∧ 16 <= c / 262144 * 64 + c / 4096 mod 64 < 272) as (Ec&Ha&Hab) by (Z.to_euclidean_division_equations; lia).
  rewrite Ec at 1. rewrite utf8_four by lia. cbn [app check_utf8_str]. unfold tail_byte. rewrite (proj2 (Z.ltb_ge _ _)) by lia.
  repeat (zcase; try lia); repeat in_bytes; done.
Qed.

(** C18: a name is accepted if and only if it is the UTF-8 encoding of a sequence of
    Unicode scalar values. *)
Theorem check_utf8_str_spec s :
  Forall (fun c => 0 <= c) s →
  check_utf8_str s = true ↔ ∃ cs, Forall scalar cs ∧ s = flat_map utf8 cs.
Proof.
  intros Hs. split.
  - remember (length s) as n eqn:Hn. revert s Hn Hs. induction n as [n IH] using lt_wf_ind. intros s -> Hs Hu.
    destruct s as [|chr p]; [by exists []|]. inversion Hs as [|? ? Hchr Hp]; subst.
    destruct (utf8_step chr p Hchr Hu) as (c&rest&Hc&E&Hr).
    assert (0 < length (utf8 c))%nat as Hl by (unfold utf8; repeat zcase; cbn; lia).
    rewrite E in Hs |- *. apply Forall_app in Hs as [_ Hs].
    destruct (IH (length rest)) with (s := rest) as (cs&Hcs&->); [rewrite E, length_app; lia|done..|].
    exists (c :: cs). by split; [constructor|].
  - intros (cs&Hcs&->). induction Hcs as [|c cs Hc _ IH]; [done|]. cbn [flat_map].
    rewrite utf8_read by done. apply IH. cbn [flat_map] in Hs. by apply Forall_app in Hs as [_ Hs].
Qed.

Lemma check_utf8_str_spec_witness :
  check_utf8_str [0x24; 0xC2; 0xA2; 0xE2; 0x82; 0xAC; 0xF0; 0x9F; 0x98; 0x80] = true
  ∧ ∃ cs, Forall scalar cs ∧ [0xC2; 0xA2] = flat_map utf8 cs.
Proof.
  split.
  - apply check_utf8_str_spec; [repeat constructor; lia|]. exists [0x24; 0xA2; 0x20AC; 0x1F600].
    split; [repeat constructor; unfold scalar; lia|reflexivity].
  - apply check_utf8_str_spec; [repeat constructor; lia|reflexivity].
Defined.
