(* ===== verification/LoadTheorems.v ===== *)
(** What loading a module promises: its sections are read without a step out of the
    binary or out of an array, what they leave is well formed, a module that is loaded
    is valid, and what is left in the heap when it is refused or unloaded. *)
From stdpp Require Import base gmap list numbers strings.
From Stdlib Require Import Strings.Byte ZArith Lia.
From S2P Require Import Prelude CMemory WasmTypes PoolInfo Memory Opcodes Leb FindBlock LoaderCtx Validate Typing Wp.
From S2P Require Import LoaderInv LoaderStep Validation LoaderModule MemInit Sections LoadModule LoadInv Loaded.
From S2P Require Import LoadProofs FinishProofs CheckProofs ResetProofs Loading.

(** * The theorems *)

Lemma kept_heap_trans h1 m1 h2 m2 h3 m3 :
  kept_heap h1 m1 h2 m2 → kept_heap h2 m2 h3 m3 → kept_heap h1 m1 h3 m3.
Proof.
  intros [A1 A2 A3] [B1 B2 B3]. constructor.
  - intros b Hb. rewrite B1, A1; [done..|]. by rewrite A1.
  - intros b Hb. rewrite B2, A2; [done..|]. by rewrite A1.
  - intros b r [Hl He] x Hx. rewrite (B3 b r), (A3 b r); [done|done|done| |done].
    split; [by rewrite A1|]. by rewrite A2.
Qed.

Lemma left_over_refl wl h : live h = wl → heap_ok h → left_over wl h.
Proof. intros <- Hh. constructor; [done|done|]. intros b i Hb. left. by exists i. Qed.

Lemma unloaded_ok wl mb s l :
  ok (mkBefore wl mb []) [] s → (∀ b, b ∈ l ↔ b ∈ blocks_of (md s)) →
  (∀ b, is_Some (wl !! b) → live (freed l (heap_of s)) !! b = wl !! b)
  ∧ (∀ b i, live (freed l (heap_of s)) !! b = Some i → is_Some (wl !! b) ∨ ∃ n, i = Some (uint8T, n)).
Proof.
  intros Hok Hl. pose proof (under_way_done _ _ _ Hok) as Hu. split.
  - apply (le_old _ _ (left_over_unloaded _ _ _ Hu Hl)).
  - intros b i [Hn Hi]%still_live. destruct Hok as [_ _ W3 _ _ _]. cbn in W3.
    destruct (W3 b i Hi) as [?|[[]%not_elem_of_nil|(t&n&->&[->|Hb])]]; [by left|right; by exists n|].
    by apply Hl in Hb.
Qed.

Section theorems.
Context `{PlacedPool} (statics : memory_statics).
Context (wasm_native_resolve_symbol : list Z → list Z → type_obj → native_symbol).

Abbreviation load_binary := (wasm_loader_load statics wasm_native_resolve_symbol).

(** [wasm_loader_load] up to the end of the last section. *)
Definition module_sections (buf size : Z) : L module_obj := fun l =>
  mbind create_module (fun o l =>
    match o with
    | Some m =>
        match load_sections statics wasm_native_resolve_symbol buf size (mkLoading l m) with
        | Ok (Some _) s => Ok (Some (md s)) (ld s)
        | Ok None s => Ok None (ld s)
        | Exited n => Exited n
        | Stuck => Stuck
        end
    | None => Ok None l
    end) l.

Lemma load_result buf size l :
  heap_ok (l_heap l) → 0 <= size →
  (∀ m l2, module_sections buf size l = Ok (Some m) l2 → checkable m (l_mem l2)) →
  ∃ o l', load_binary buf size l = Ok o l'
    ∧ match o with
      | Some m => ∃ m2 l2, module_sections buf size l = Ok (Some m2) l2
          ∧ kept_heap (l_heap l) (l_mem l) (l_heap l2) (l_mem l2)
          ∧ valid_module (l_heap l') m (l_mem l2)
          ∧ code_regions m = code_regions m2
          ∧ unchanged_outside (code_regions m2) (l_mem l2) (l_mem l')
          ∧ ∃ mb, ok (mkBefore (live (l_heap l)) mb []) [] (mkLoading l' m)
      | None => left_over (live (l_heap l)) (l_heap l')
      end.
Proof.
  intros Hh Hsize Hck. unfold module_sections, mbind at 1 in Hck. unfold wasm_loader_load, lbind, mbind at 1.
  destruct (create_module_ok l Hh) as [(b&l1&Ec&Hok&Hk)|(l1&->&El&Hh1)].
  2:{ eexists _, _. split; [reflexivity|]. by apply left_over_refl. }
  unfold module_sections, mbind. rewrite Ec in *. unfold loaded_or_not.
  destruct (load_outcome statics wasm_native_resolve_symbol buf size _ _ _ Hok (staged_blank b _) Hsize)
    as (o&s'&E&Ho).
  { intros s2 E. specialize (Hck (md s2) (ld s2)). rewrite E in Hck. exact (Hck eq_refl). }
  rewrite E. destruct o as [[]|].
  - destruct Ho as (s2&E2&[F1 F2 F3 F4 F5]). rewrite E2. eexists _, _. split; [reflexivity|].
    exists (md s2), (ld s2). split_and!; [done|by eapply kept_heap_trans|exact F2|exact F4|exact F5|].
    exists b. by destruct s'.
  - destruct (unload_frees (md s')) as (bs&Hf&Hbs). unfold mbind. rewrite Hf. eexists _, _. split; [reflexivity|].
    by apply left_over_unloaded.
Qed.

(** C15: whatever the bytes are, reading the sections of a module always answers: it
    never reads behind the section it is in or writes outside an array, it does not
    use up its fuel; and when it succeeds, every part of the module is well formed,
    and the blocks that were there are as they were, with what is in them. *)
Theorem sections_well_formed buf size l :
  heap_ok (l_heap l) → 0 <= size →
  ∃ o l', module_sections buf size l = Ok o l'
    ∧ ∀ m, o = Some m → module_ok (l_heap l') m
                        ∧ kept_heap (l_heap l) (l_mem l) (l_heap l') (l_mem l').
Proof.
  intros Hh Hsize. unfold module_sections, mbind at 1.
  destruct (create_module_ok l Hh) as [(b&l1&->&Hok&Hk)|(l1&->&_)]; [|by eexists _, _].
  destruct (sections_outcome statics wasm_native_resolve_symbol buf size _ _ _ Hok (staged_blank b _) Hsize)
    as (o&s'&E&Ho). rewrite E. destruct o as [[]|]; [|by eexists _, _].
  destruct (Ho eq_refl) as [G Hm]. eexists _, _. split; [reflexivity|]. intros m [= <-]. split; [exact Hm|].
  by eapply kept_heap_trans.
Qed.

(** C16: the load of a module always answers, if the module that its sections make is
    [checkable]; it is a null pointer only when all the blocks of the module are free
    again: what is live are the blocks that were there, copies of bytes, and structures
    of sections. *)
Theorem load_answers buf size l :
  heap_ok (l_heap l) → 0 <= size →
  (∀ m l2, module_sections buf size l = Ok (Some m) l2 → checkable m (l_mem l2)) →
  ∃ o l', load_binary buf size l = Ok o l' ∧ (o = None → left_over (live (l_heap l)) (l_heap l')).
Proof.
  intros Hh Hsize Hck. destruct (load_result buf size l Hh Hsize Hck) as (o&l'&E&Ho).
  exists o, l'. split; [exact E|]. by intros ->.
Qed.


(** C17: unloading a module frees all that its load took but copies of bytes: the
    bodies of its sections, the code of its functions and the data of its segments
    stay in the heap; the blocks that were there before are untouched. *)
Theorem unload_leaves_copies buf size l m l' :
  heap_ok (l_heap l) → 0 <= size →
  (∀ m l2, module_sections buf size l = Ok (Some m) l2 → checkable m (l_mem l2)) →
  load_binary buf size l = Ok (Some m) l' →
  ∃ l'', wasm_loader_unload m l' = Ok (Some tt) l''
    ∧ (∀ b, is_Some (live (l_heap l) !! b) → live (l_heap l'') !! b = live (l_heap l) !! b)
    ∧ (∀ b i, live (l_heap l'') !! b = Some i → is_Some (live (l_heap l) !! b) ∨ ∃ n, i = Some (uint8T, n)).
Proof.
  intros Hh Hsize Hck E. destruct (load_result buf size l Hh Hsize Hck) as (o&l1&E1&Ho).
  rewrite E in E1. injection E1 as <- <-. destruct Ho as (_&_&_&_&_&_&_&mb&Hok).
  destruct (unload_frees m) as (bs&Hf&Hbs). eexists. split; [apply Hf|].
  exact (unloaded_ok _ _ _ _ Hok Hbs).
Qed.

End theorems.

(** * Samples *)

(** A heap whose blocks are behind one another, from address 64 on. *)
Definition top (h : scratch) : Z := foldr (fun e a => Z.max a (e.2.1 + e.2.2)) 64 (map_to_list (extents h)).
#[local] Instance heap_pool : ScratchPool := fun h n => if n <=? 2 ^ 30 then Some (top h) else None.

#[local] Instance heap_pool_bounded : BoundedPool.
Proof. intros h n a. unfold grants, heap_pool. destruct (Z.leb_spec n (2 ^ 30)); [done|discriminate]. Qed.

Lemma top_above (l : list (nat * region)) b r :
  64 <= foldr (fun e a => Z.max a (e.2.1 + e.2.2)) 64 l
  ∧ ((b, r) ∈ l → r.1 + r.2 <= foldr (fun e a => Z.max a (e.2.1 + e.2.2)) 64 l).
Proof.
  induction l as [|e l [IH1 IH2]]; cbn [foldr]; [split; [lia|by intros ?%not_elem_of_nil]|]. split; [lia|].
  intros [<-|Hr%IH2]%elem_of_cons; cbn; lia.
Qed.

#[local] Instance heap_pool_placed : PlacedPool.
Proof.
  intros h n a. unfold grants, heap_pool. destruct (n <=? 2 ^ 30); [|done]. intros [= <-] Hn. split.
  - destruct (top_above (map_to_list (extents h)) 0 (0, 0)). unfold top. lia.
  - intros b r [_ He]. right. cbn. destruct (top_above (map_to_list (extents h)) b r) as [_ Hr].
    apply Hr. by apply elem_of_map_to_list.
Qed.

Definition no_native (m f : list Z) (t : type_obj) : native_symbol := mkNative 0 0 0 false.
Definition first_statics : memory_statics := mkStatics MEMORY_MODE_UNKNOWN 0 0 0 0.

(** The bytes of a module at address 64, in a block of their own. *)
Definition before_load (bs : list Z) : loader :=
  mkLoader (store ∅ 64 (map Z_byte bs)) 0 None
    (mkScratch 1 {[0%nat := None]} {[0%nat := (64, zlen bs)]}) None (mkVerdict false false false 0 0).

Abbreviation load_sample bs := (wasm_loader_load first_statics no_native 64 (zlen bs) (before_load bs)).
Abbreviation sample_sections bs := (module_sections first_statics no_native 64 (zlen bs) (before_load bs)).
Abbreviation was_live_before bs := (live (l_heap (before_load bs))).

Definition sample_header : list Z := [0; 0x61; 0x73; 0x6d; 1; 0; 0; 0].

(** A function of an i32 that gives it back, exported as "f"; a memory, a global. *)
Definition identity_module : list Z :=
  sample_header ++ [1; 6; 1; 0x60; 1; 0x7f; 1; 0x7f] ++ [3; 2; 1; 0] ++ [5; 3; 1; 0; 1]
  ++ [6; 6; 1; 0x7f; 0; 0x41; 42; 0x0b] ++ [7; 5; 1; 1; 0x66; 0; 0] ++ [10; 6; 1; 4; 0; 0x20; 0; 0x0b].

Lemma before_load_ok bs : heap_ok (l_heap (before_load bs)).
Proof.
  constructor; unfold block_at; cbn.
  - intros b [i [<- _]%lookup_singleton_Some]. split; [lia|]. exists (64, zlen bs). by rewrite lookup_singleton_eq.
  - intros b b' r r' Hne [[i [<- _]%lookup_singleton_Some] _] [[j [<- _]%lookup_singleton_Some] _]. done.
  - intros b r [_ [_ <-]%lookup_singleton_Some]. cbn. pose proof (zlen_nonneg bs). lia.
Qed.

(** What is asked of the module, as a check. *)
Definition checkable_b (m : module_obj) (mm : mem) : bool :=
  forallb (fun e => negb ((e_kind e =? EXPORT_KIND_GLOBAL)
                          && (strcmp (e_name e) (chars "__heap_base") || strcmp (e_name e) (chars "__data_end")))
                    || (import_global_count (md_imports m) <=? e_index e)) (elems (md_exports m))
  && forallb (fun o => match o with Some (_, t) => forallb is_value_type (types (ty t)) | None => true end)
       (elems (md_types m))
  && forallb (fun i => match i_u i with ImportGlobal t _ _ => is_value_type t | _ => true end)
       (imports_from (import_globals_at (md_imports m)) (import_global_count (md_imports m)) (md_imports m))
  && forallb (fun g => is_value_type (g_type g)) (elems (md_globals m))
  && forallb (fun o => match o with Some f => tame_b (func_info_of f) mm (fn_code f) | None => true end)
       (elems (md_functions m)).

Lemma forallb_elem {A} (f : A → bool) l : forallb f l = true → ∀ a, a ∈ l → f a = true.
Proof. rewrite forallb_forall. intros Hf a Ha. apply Hf. by apply list_elem_of_In. Qed.

Lemma checkable_of_b m mm : checkable_b m mm = true → checkable m mm.
Proof.
  unfold checkable_b. rewrite !andb_true_iff. intros [[[[He Ht] Hi] Hg] Hf].
  constructor; [|constructor|].
  - intros e Hin Hk Hn. specialize (forallb_elem _ _ He e Hin). cbv beta. rewrite Hk, Hn. apply Z.leb_le.
  - intros t [b Hin]. apply Forall_forall. exact (forallb_elem _ _ (forallb_elem _ _ Ht _ Hin)).
  - intros i t mu v Hin Hu. specialize (forallb_elem _ _ Hi i Hin). cbv beta. by rewrite Hu.
  - exact (forallb_elem _ _ Hg).
  - intros f Hin. exact (tame_of_b _ _ _ (forallb_elem _ _ Hf _ Hin)).
Qed.

Lemma identity_checkable m l2 :
  sample_sections identity_module = Ok (Some m) l2 → checkable m (l_mem l2).
Proof.
  intros E. apply checkable_of_b. revert E.
  assert (match sample_sections identity_module with
          | Ok (Some m) l2 => checkable_b m (l_mem l2) = true | _ => False end) as Hb by (by vm_compute).
  destruct (sample_sections identity_module) as [[m'|] l'| |]; [|done..]. by intros [= <- <-].
Qed.

Definition loaded_identity : module_obj * loader :=
  match load_sample identity_module with
  | Ok (Some m) l => (m, l)
  | _ => (blank_module 0, before_load [])
  end.

Lemma identity_loads : load_sample identity_module = Ok (Some loaded_identity.1) loaded_identity.2.
Proof.
  unfold loaded_identity.
  assert (match load_sample identity_module with Ok (Some _) _ => true | _ => false end = true) as Hb by (by vm_compute).
  by destruct (load_sample identity_module) as [[m|] l| |].
Qed.

(** The first half of the bytes of the module. *)
Definition half_module : list Z := take 20 identity_module.

Lemma half_checkable m l2 : sample_sections half_module = Ok (Some m) l2 → checkable m (l_mem l2).
Proof.
  assert (match sample_sections half_module with Ok None _ => true | _ => false end = true) as Hb by (by vm_compute).
  by destruct (sample_sections half_module) as [[m'|] l'| |].
Qed.

Lemma sections_well_formed_witness :
  ∃ o l', sample_sections identity_module = Ok o l'
    ∧ ∀ m, o = Some m → module_ok (l_heap l') m
        ∧ kept_heap (l_heap (before_load identity_module)) (l_mem (before_load identity_module)) (l_heap l') (l_mem l').
Proof.
  exact (sections_well_formed first_statics no_native 64 (zlen identity_module) _
           (before_load_ok identity_module) (zlen_nonneg identity_module)).
Defined.

Lemma load_answers_witness :
  (∃ o l', load_sample identity_module = Ok o l' ∧ (o = None → left_over (was_live_before identity_module) (l_heap l')))
  ∧ ∃ l', load_sample half_module = Ok None l' ∧ left_over (was_live_before half_module) (l_heap l').
Proof.
  split.
  - exact (load_answers first_statics no_native 64 (zlen identity_module) _
             (before_load_ok identity_module) (zlen_nonneg identity_module) identity_checkable).
  - destruct (load_answers first_statics no_native 64 (zlen half_module) _
             (before_load_ok half_module) (zlen_nonneg half_module) half_checkable) as (o&l'&E&Ho).
    assert (match load_sample half_module with Ok None _ => true | _ => false end = true) as Hb by (by vm_compute).
    rewrite E in Hb. destruct o as [m|]; [discriminate|].
    exists l'. split; [exact E|exact (Ho eq_refl)].
Defined.


Lemma unload_leaves_copies_witness :
  ∃ l'', wasm_loader_unload loaded_identity.1 loaded_identity.2 = Ok (Some tt) l''
    ∧ (∀ b, is_Some (was_live_before identity_module !! b) → live (l_heap l'') !! b = was_live_before identity_module !! b)
    ∧ (∀ b i, live (l_heap l'') !! b = Some i → is_Some (was_live_before identity_module !! b) ∨ ∃ n, i = Some (uint8T, n)).
Proof.
  exact (unload_leaves_copies first_statics no_native 64 (zlen identity_module) _ _ _
           (before_load_ok identity_module) (zlen_nonneg identity_module) identity_checkable identity_loads).
Defined.

(** * Modules the loader takes wrongly *)

(** An imported global, exported as "__heap_base". *)
Definition heap_base_import : list Z :=
  sample_header ++ [2; 8; 1; 1; 0x61; 1; 0x62; 3; 0x7f; 0] ++ [7; 15; 1; 11] ++ chars "__heap_base" ++ [3; 0].


Definition of_loaded {A} (f : module_obj → A) (bs : list Z) : option A :=
  match load_sample bs with Ok (Some m) _ => Some (f m) | _ => None end.

(** A function type whose parameter is of type 0. *)
Definition zero_typed : list Z := sample_header ++ [1; 5; 1; 0x60; 1; 0; 0].
(** A table of at least 2^31 elements. *)
Definition long_table : list Z := sample_header ++ [4; 8; 1; 0x70; 0; 0x80; 0x80; 0x80; 0x80; 0x08].
(** A memory of 65536 pages. *)
Definition full_memory : list Z := sample_header ++ [5; 5; 1; 0; 0x80; 0x80; 0x04].
(** Two exports of one name, whose second character is 0. *)
Definition twice_exported : list Z :=
  sample_header ++ [6; 6; 1; 0x7f; 0; 0x41; 42; 0x0b] ++ [7; 13; 2; 3; 0x61; 0; 0x62; 3; 0; 3; 0x61; 0; 0x62; 3; 0].
(** A function of 32768 locals of eight bytes. *)
Definition many_locals : list Z :=
  sample_header ++ [1; 4; 1; 0x60; 0; 0] ++ [3; 2; 1; 0] ++ [10; 8; 1; 6; 1; 0x80; 0x80; 2; 0x7e; 0x0b].


(** A custom section with an empty name, and a function with a group of no locals: both
    are valid. *)
Definition nameless_section : list Z := sample_header ++ [0; 1; 0].
Definition empty_group : list Z :=
  sample_header ++ [1; 4; 1; 0x60; 0; 0] ++ [3; 2; 1; 0] ++ [10; 6; 1; 4; 1; 0; 0x7f; 0x0b].

Definition refusal (bs : list Z) : option string :=
  match load_sample bs with Ok None l => l_error l | _ => None end.

(** What the loader refuses, with its message: bytes that are no module or of
    another version, an unknown section, a section out of order or longer than the
    binary, functions without code, bytes behind a section; and two valid modules. *)
Example refused_modules :
  refusal [0; 0x61; 0x73; 0x6e; 1; 0; 0; 0] = Some "WASM module load failed: magic header not detected"%string
  ∧ refusal [0; 0x61; 0x73; 0x6d; 2; 0; 0; 0] = Some "WASM module load failed: unknown binary version"%string
  ∧ refusal (sample_header ++ [12; 0]) = Some "WASM module load failed: invalid section id"%string
  ∧ refusal (sample_header ++ [3; 1; 0; 1; 1; 0]) = Some "WASM module load failed: junk after last section"%string
  ∧ refusal (sample_header ++ [1; 2; 0]) = Some "WASM module load failed: unexpected end"%string
  ∧ refusal (sample_header ++ [1; 4; 1; 0x60; 0; 0] ++ [3; 2; 1; 0])
    = Some "WASM module load failed: function and code section have inconsistent lengths or unexpected end"%string
  ∧ refusal (sample_header ++ [1; 2; 0; 0]) = Some "WASM module load failed: section size mismatch"%string
  ∧ refusal nameless_section = Some "WASM module load failed: unexpected end"%string
  ∧ refusal empty_group = Some "WASM module load failed: invalid local count"%string.
Proof. by vm_compute. Qed.
