(* ===== verification/Interp.v ===== *)
(** The interpreter (wasm_interp_classic.c): calls of host functions and of
    functions of the module, the dispatch of an opcode, the loop of
    [wasm_interp_call_func_bytecode] with its checkpoint and its restart, and
    [wasm_interp_call_wasm]. *)
From stdpp Require Import base gmap list numbers strings pretty.
From Stdlib Require Import Strings.Byte ZArith Lia.
From S2P Require Import Prelude CMemory WasmTypes PoolInfo ExecEnv Memory MemGrow Opcodes FindBlock.
From S2P Require Import Dump Regs InterpState Macros DataOps NumericOps Control.

(** A call of a host function: [wasm_runtime_invoke_native] and its variants. *)
Inductive call_conv := CApi | Native | NativeRaw.

Record native_call := mkNative {
  nc_conv : call_conv;
  nc_module_inst : Z;
  nc_exec_env : Z;
  nc_func_ptr : Z;
  nc_func_type : Z;
  nc_signature : Z;
  nc_with_env : Z;
  nc_attachment : Z;
  nc_argv : Z;
  nc_argc : Z
}.

(** What the interpreter calls: the memory of the process, the migration of a
    module's own heap, host functions (success and the two result cells), the
    NaNs of the floating-point unit, and the parts of a restart. *)
Record host := mkHost {
  h_memory : memory_state;
  h_migrate : Z → Z → Z → C Z;
  h_invoke : native_call → C (bool * Z * Z);
  h_nan32 : list Z → Z;
  h_nan64 : list Z → Z;
  h_init_wasi : C unit;
  h_resolve_symbol : mem → Z → Z → Z → Z * Z * Z * Z
}.

(** * Exceptions *)

Definition wasm_get_exception (module_inst : Z) : C bool :=
  let* c := ld 1 (FLD module_inst WASMModuleInstance "cur_exception") in
  mret (negb (c =? 0)).

(** Up to [n] bytes of a C string. *)
Fixpoint c_string (m : mem) (p : Z) (n : nat) : list byte :=
  match n with
  | O => []
  | S n => let b := m !!! p in if Byte.eqb b x00 then [] else b :: c_string m (p + 1) n
  end.

(** [snprintf(buf, 128, ...); wasm_set_exception(module, buf)]. *)
Definition set_exception_buf (module_inst : Z) (text : list byte) : C unit :=
  wasm_set_exception module_inst (Some (String.string_of_list_byte (take 127 text))).

Definition unlinked_text (m : mem) (func_import : Z) : list byte :=
  let name f := c_string m (load_Z m f 8) 128 in
  bytes_of_string "failed to call unlinked import function ("
  ++ name (FLD func_import WASMFunctionImport "module_name") ++ bytes_of_string ", "
  ++ name (FLD func_import WASMFunctionImport "field_name") ++ bytes_of_string ")".

(** * Frames *)

Definition wasm_interp_interp_frame_size (all_cell_num : Z) : Z :=
  align_uint (uint32 (OFS WASMInterpFrame "lp" + all_cell_num * 5)) 4.

Definition wasm_exec_env_wasm_stack_top (exec_env : Z) : C Z :=
  ld 8 (FLD exec_env WASMExecEnv "wasm_stack.s.top").

Section Interp.
Context (h : host).

(** * Host functions *)

Definition invoke_native (func_import module_inst exec_env cur_func frame : Z) : C (bool * Z * Z) :=
  let lp := FLD frame WASMInterpFrame "lp" in
  let* func_ptr := ld 8 (FLD func_import WASMFunctionImport "func_ptr_linked") in
  let* func_type := ld 8 (FLD func_import WASMFunctionImport "func_type") in
  let* signature := ld 8 (FLD func_import WASMFunctionImport "signature") in
  let* attachment := ld 8 (FLD func_import WASMFunctionImport "attachment") in
  let* raw := ld 1 (FLD func_import WASMFunctionImport "call_conv_raw") in
  let* c_api := ld 1 (FLD func_import WASMFunctionImport "call_conv_wasm_c_api") in
  let* with_env := ld 1 (FLD func_import WASMFunctionImport "wasm_c_api_with_env") in
  let* argc := ld 2 (FLD cur_func WASMFunctionInstance "param_cell_num") in
  let conv := if negb (c_api =? 0) then CApi else if raw =? 0 then Native else NativeRaw in
  let* r := h_invoke h (mkNative conv module_inst exec_env func_ptr func_type signature with_env
                          attachment lp argc) in
  match conv, r with
  | CApi, (true, _, _) =>
      let* v0 := ld 4 lp in let* v1 := ld 4 (lp + 4) in mret (true, v0, v1)
  | _, _ => mret r
  end.

Definition wasm_interp_call_func_native (module_inst exec_env cur_func prev_frame : Z) : C unit :=
  let* func_import := ld 8 (FLD cur_func WASMFunctionInstance "u") in
  let local_cell_num := 2 in
  let* frame := ALLOC_FRAME exec_env (wasm_interp_interp_frame_size local_cell_num) prev_frame in
  if frame =? NULL then skip
  else
    st 8 (FLD frame WASMInterpFrame "function") cur_func ;;;
    st 8 (FLD frame WASMInterpFrame "ip") NULL ;;;
    st 8 (FLD frame WASMInterpFrame "sp") (FLD frame WASMInterpFrame "lp" + local_cell_num * 4) ;;;
    wasm_exec_env_set_cur_frame exec_env frame ;;;
    let* func_ptr_linked := ld 8 (FLD func_import WASMFunctionImport "func_ptr_linked") in
    if func_ptr_linked =? NULL then
      let* text := gets (fun w => unlinked_text (wmem w) func_import) in
      set_exception_buf module_inst text
    else
      let* r := invoke_native func_import module_inst exec_env cur_func frame in
      let '(ok, v0, v1) := r in
      if negb ok then skip
      else
        let* ret_cell_num := ld 2 (FLD cur_func WASMFunctionInstance "ret_cell_num") in
        let* sp := ld 8 (FLD prev_frame WASMInterpFrame "sp") in
        (if ret_cell_num =? 1 then
           st 4 sp v0 ;;; st 8 (FLD prev_frame WASMInterpFrame "sp") (sp + 4)
         else if ret_cell_num =? 2 then
           st 4 sp v0 ;;; st 4 (sp + 4) v1 ;;; st 8 (FLD prev_frame WASMInterpFrame "sp") (sp + 8)
         else skip) ;;;
        FREE_FRAME exec_env frame ;;;
        wasm_exec_env_set_cur_frame exec_env prev_frame.

(** * Labels *)

(** What a turn of the loop ends with: the next turn, or the return of
    [wasm_interp_call_func_bytecode]. *)
Inductive turn_end := Next | Return.

Definition at_got_exception : R turn_end := SYNC_ALL ;;; mret Return.

Definition at_out_of_bounds : R turn_end :=
  let* module := reg module in
  lift (wasm_set_exception module (Some "out of bounds memory access"%string)) ;;;
  at_got_exception.

(** The call of an imported function at [call_func_from_entry]. *)
Definition enter_import : R turn_end :=
  let* module := reg module in
  let* env := reg exec_env in
  let* f := reg cur_func in
  let* prev := reg prev_frame in
  lift (wasm_interp_call_func_native module env f prev) ;;;
  let* frame := reg frame in
  let* prev := ldr 8 (FLD frame WASMInterpFrame "prev_frame") in
  assign set_prev_frame prev ;;;
  let* function := ldr 8 (FLD frame WASMInterpFrame "function") in
  assign set_cur_func function ;;;
  UPDATE_ALL_FROM_FRAME ;;;
  let* memory := ldr 8 (FLD module WASMModuleInstance "default_memory") in
  assign set_memory memory ;;;
  (if negb (memory =? NULL) then
     let* num_bytes_per_page := reg num_bytes_per_page in
     let* cur_page_count := ldr 4 (FLD memory WASMMemoryInstance "cur_page_count") in
     assign set_linear_mem_size (uint32 (num_bytes_per_page * cur_page_count))
   else skip) ;;;
  let* exception := lift (wasm_get_exception module) in
  if exception then at_got_exception else mret Next.

(** The new frame of a function of the module is filled in. *)
Definition init_frame (f frame : Z) : R unit :=
  str 8 (FLD frame WASMInterpFrame "function") f ;;;
  let* code := lift (wasm_get_func_code f) in
  assign set_frame_ip code ;;;
  let* e := lift (wasm_get_func_code_end f) in
  assign set_frame_ip_end e ;;;
  let lp := FLD frame WASMInterpFrame "lp" in
  assign set_frame_lp lp ;;;
  let* param_cell_num := ldr 2 (FLD f WASMFunctionInstance "param_cell_num") in
  let* local_cell_num := ldr 2 (FLD f WASMFunctionInstance "local_cell_num") in
  let sp_bottom := lp + (param_cell_num + local_cell_num) * 4 in
  str 8 (FLD frame WASMInterpFrame "sp_bottom") sp_bottom ;;;
  assign set_frame_sp sp_bottom ;;;
  let* func := ldr 8 (FLD f WASMFunctionInstance "u") in
  let* max_stack_cell_num := ldr 4 (FLD func WASMFunction "max_stack_cell_num") in
  let sp_boundary := sp_bottom + max_stack_cell_num * 4 in
  str 8 (FLD frame WASMInterpFrame "sp_boundary") sp_boundary ;;;
  str 8 (FLD frame WASMInterpFrame "csp_bottom") sp_boundary ;;;
  assign set_frame_csp sp_boundary ;;;
  let* max_block_num := ldr 4 (FLD func WASMFunction "max_block_num") in
  str 8 (FLD frame WASMInterpFrame "csp_boundary")
    (sp_boundary + max_block_num * SIZEOF WASMBranchBlock) ;;;
  lift (memset_zero (lp + param_cell_num * 4) (local_cell_num * 4)).

Definition enter_function : R turn_end :=
  let* f := reg cur_func in
  let* func := ldr 8 (FLD f WASMFunctionInstance "u") in
  let* func_type := ldr 8 (FLD func WASMFunction "func_type") in
  let* param_cell_num := ldr 2 (FLD f WASMFunctionInstance "param_cell_num") in
  let* local_cell_num := ldr 2 (FLD f WASMFunctionInstance "local_cell_num") in
  let* max_stack_cell_num := ldr 4 (FLD func WASMFunction "max_stack_cell_num") in
  let* max_block_num := ldr 4 (FLD func WASMFunction "max_block_num") in
  let all_cell_num := uint64 (param_cell_num + local_cell_num + max_stack_cell_num
                              + max_block_num * SIZEOF WASMBranchBlock / 4) in
  assign set_all_cell_num all_cell_num ;;;
  if 2 ^ 32 - 1 <=? all_cell_num then
    let* module := reg module in
    lift (wasm_set_exception module (Some "wasm operand stack overflow"%string)) ;;;
    at_got_exception
  else
    let frame_size := wasm_interp_interp_frame_size (uint32 all_cell_num) in
    assign set_frame_size frame_size ;;;
    let* env := reg exec_env in
    let* prev := reg prev_frame in
    let* frame := lift (ALLOC_FRAME env frame_size prev) in
    assign set_frame frame ;;;
    if frame =? NULL then assign set_frame prev ;;; at_got_exception
    else
      init_frame f frame ;;;
      let* cell_num := ldr 2 (FLD func_type WASMType "ret_cell_num") in
      assign set_cell_num cell_num ;;;
      let* e := reg frame_ip_end in
      PUSH_CSP LABEL_TYPE_FUNCTION cell_num (e - 1) ;;;
      lift (wasm_exec_env_set_cur_frame env frame) ;;;
      mret Next.

Definition at_call_func_from_entry : R turn_end :=
  let* f := reg cur_func in
  let* is_import_func := ldr 1 (FLD f WASMFunctionInstance "is_import_func") in
  if negb (is_import_func =? 0) then enter_import else enter_function.

(** The arguments are copied to where the locals of the next frame will be. *)
Definition at_call_func_from_interp : R turn_end :=
  let* env := reg exec_env in
  let* outs_area := lift (wasm_exec_env_wasm_stack_top env) in
  let* f := reg cur_func in
  let* param_cell_num := ldr 2 (FLD f WASMFunctionInstance "param_cell_num") in
  POP param_cell_num ;;;
  SYNC_ALL ;;;
  let* sp := reg frame_sp in
  lift (word_copy (FLD outs_area WASMInterpFrame "lp") sp param_cell_num) ;;;
  let* frame := reg frame in
  assign set_prev_frame frame ;;;
  at_call_func_from_entry.

Definition at_return_func : R turn_end :=
  let* env := reg exec_env in
  let* frame := reg frame in
  let* prev := reg prev_frame in
  lift (FREE_FRAME env frame) ;;;
  lift (wasm_exec_env_set_cur_frame env prev) ;;;
  let* ip := ldr 8 (FLD prev WASMInterpFrame "ip") in
  if ip =? NULL then mret Return
  else RECOVER_CONTEXT prev ;;; mret Next.

Definition follow (f : flow) : R turn_end :=
  match f with
  | HANDLE_OP_END => mret Next
  | call_func_from_interp => at_call_func_from_interp
  | call_func_from_entry => at_call_func_from_entry
  | return_func => at_return_func
  | out_of_bounds => at_out_of_bounds
  | got_exception => at_got_exception
  end.

(** * The loop *)

Fixpoint first_some {A} (l : list (option A)) : option A :=
  match l with
  | [] => None
  | Some a :: _ => Some a
  | None :: l => first_some l
  end.

(** [switch (opcode)]. *)
Definition handle_op (op : WASMOpcode) : R flow :=
  if decide (op = WASM_OP_MISC_PREFIX) then handle_misc
  else
    match first_some
      [handle_control op; handle_parametric op; handle_local op; handle_global op;
       handle_load op; handle_store op; handle_memory (h_memory h) (h_migrate h) op; handle_const op;
       handle_i32_comparison op; handle_i64_comparison op; handle_float_comparison op;
       handle_i32_numeric op; handle_i64_numeric op;
       handle_f32_numeric (h_nan32 h) (h_nan64 h) op; handle_f64_numeric (h_nan64 h) op;
       handle_int_conversion op; handle_float_conversion (h_nan32 h) (h_nan64 h) op]
    with
    | Some handler => handler
    | None => throw "unsupported opcode"%string
    end.

(** From the label [RESUME] to the end of the turn. *)
Definition resume : R turn_end :=
  let* b := reg opcode in
  match opcode_of b with
  | Some op => let* f := handle_op op in follow f
  | None => let* f := throw "unsupported opcode"%string in follow f
  end.

(** A turn of the loop; [None] when the condition of the loop is false. *)
Definition fetch : R bool :=
  let* ip := reg frame_ip in
  let* ip_end := reg frame_ip_end in
  if ip <? ip_end then
    let* b := ldr 1 ip in
    assign set_opcode b ;;;
    assign set_frame_ip (ip + 1) ;;;
    mret true
  else mret false.

(** The results of a run: the function returned; the process ended with a
    checkpoint, whose images are given; or the schedule ended first. *)
Inductive run_end := Returned | Checkpointed (pool_img interp_img : list byte) | Running.

(** The loop, for as many turns as the list has elements: an element says whether
    the signal has arrived when the opcode of its turn is fetched. *)
Fixpoint bytecode_loop (migr_flag : bool) (signals : list bool) : R run_end :=
  match signals with
  | [] => mret Running
  | sig_flag :: signals =>
      let* go := fetch in
      if negb go then mret Returned
      else if (sig_flag : bool) then
        let* l := gets fst in
        let* imgs := lift (interp_checkpoint migr_flag l) in
        mret (Checkpointed imgs.1 imgs.2)
      else
        let* e := resume in
        match e with Return => mret Returned | Next => bytecode_loop migr_flag signals end
  end.

(** The declarations at the start of the function.  The variables without an
    initialiser keep an indeterminate value, which [l0] gives; [imp] is the
    address of the variable [opcode_IMPDEP]. *)
Definition init_locals (l0 : locals) (imp module exec_env cur_func prev_frame : Z) : C locals :=
  st 1 imp (opcode_code WASM_OP_IMPDEP) ;;;
  let* memory := ld 8 (FLD module WASMModuleInstance "default_memory") in
  let* num_bytes_per_page :=
    (if negb (memory =? NULL) then ld 4 (FLD memory WASMMemoryInstance "num_bytes_per_page") else mret 0) in
  let* global_data := ld 8 (FLD module WASMModuleInstance "global_data") in
  let* linear_mem_size :=
    (if negb (memory =? NULL)
     then let* n := ld 4 (FLD memory WASMMemoryInstance "cur_page_count") in
          mret (uint32 (num_bytes_per_page * n))
     else mret 0) in
  let* wasm_module := ld 8 (FLD module WASMModuleInstance "module") in
  let* wasm_types := ld 8 (FLD wasm_module WASMModule "types") in
  let* globals := ld 8 (FLD module WASMModuleInstance "globals") in
  mret (mkLocals module exec_env cur_func prev_frame memory num_bytes_per_page global_data
    linear_mem_size wasm_types globals (global l0) (opcode_code WASM_OP_IMPDEP) NULL imp NULL NULL NULL
    (imp + 1) (opcode l0) (i_ l0) (depth l0) (cond l0) (count l0) (fidx l0) (tidx l0) (lidx l0) 0 0
    (val l0) (else_addr l0) (end_addr l0) NULL (local_idx l0) (local_offset l0) (global_idx l0)
    (local_type l0) (global_addr l0) (cache_index l0) (type_index l0) (cell_num l0) (value_type l0)
    (cache_items l0)).

Definition run_from {A} (l : locals) (c : R A) : C A := fun w =>
  match c (l, w) with
  | Ok a (_, w) => Ok a w
  | Exited n => Exited n
  | Stuck => Stuck
  end.

(** [wasm_interp_call_func_bytecode] with [migr_flag] false, and with the images of
    a checkpoint when it is true. *)
Definition wasm_interp_call_func_bytecode (l0 : locals) (imp : Z) (signals : list bool)
    (module exec_env cur_func prev_frame : Z) : C run_end :=
  let* l := init_locals l0 imp module exec_env cur_func prev_frame in
  run_from l (bytecode_loop false signals).

Definition wasm_interp_restore (l0 : locals) (signals : list bool) (pool_img interp_img : list byte) :
    C run_end :=
  let* l := interp_restart (h_memory h) (h_init_wasi h) (h_resolve_symbol h) l0 pool_img interp_img in
  run_from l (
    let* e := resume in
    match e with Return => mret Returned | Next => bytecode_loop true signals end).

(** * The call of a function from outside *)

Definition argc_text (argc param_cell_num : Z) : list byte :=
  bytes_of_string ("invalid argument count " +:+ pretty (int32 argc) +:+ ", expected "
                   +:+ pretty param_cell_num).

(** The results are read from below [sp] of the frame. *)
Definition read_results (frame ret_cell_num argv : Z) : C unit :=
  mfor (seqZ 0 ret_cell_num) (fun i =>
    let* sp := ld 8 (FLD frame WASMInterpFrame "sp") in
    let* v := ld 4 (sp + (i - ret_cell_num) * 4) in
    st 4 (argv + i * 4) v).

(** [native_sp] is the address of a local variable on the native stack. *)
Definition wasm_interp_call_wasm (l0 : locals) (imp native_sp : Z) (signals : list bool)
    (module_inst exec_env function argc argv : Z) : C run_end :=
  let* prev_frame := wasm_exec_env_get_cur_frame exec_env in
  let* ret_cell_num := ld 2 (FLD function WASMFunctionInstance "ret_cell_num") in
  let frame_size := wasm_interp_interp_frame_size (if 2 <? ret_cell_num then ret_cell_num else 2) in
  let* param_cell_num := ld 2 (FLD function WASMFunctionInstance "param_cell_num") in
  if negb (argc =? param_cell_num) then
    set_exception_buf module_inst (argc_text argc param_cell_num) ;;; mret Returned
  else
    let* boundary := ld 8 (FLD exec_env WASMExecEnv "native_stack_boundary") in
    if native_sp <? boundary then
      let* inst := ld 8 (FLD exec_env WASMExecEnv "module_inst") in
      wasm_set_exception inst (Some "native stack overflow"%string) ;;; mret Returned
    else
      let* frame := ALLOC_FRAME exec_env frame_size prev_frame in
      if frame =? NULL then mret Returned
      else
        let* outs_area := wasm_exec_env_wasm_stack_top exec_env in
        st 8 (FLD frame WASMInterpFrame "function") NULL ;;;
        st 8 (FLD frame WASMInterpFrame "ip") NULL ;;;
        st 8 (FLD frame WASMInterpFrame "sp") (FLD frame WASMInterpFrame "lp") ;;;
        (if 0 <? argc then word_copy (FLD outs_area WASMInterpFrame "lp") argv argc else skip) ;;;
        wasm_exec_env_set_cur_frame exec_env frame ;;;
        let* is_import_func := ld 1 (FLD function WASMFunctionInstance "is_import_func") in
        let* e :=
          (if negb (is_import_func =? 0)
           then wasm_interp_call_func_native module_inst exec_env function frame ;;; mret Returned
           else wasm_interp_call_func_bytecode l0 imp signals module_inst exec_env function frame) in
        match e with
        | Returned =>
            let* exception := wasm_get_exception module_inst in
            let* ret_cell_num := ld 2 (FLD function WASMFunctionInstance "ret_cell_num") in
            (if negb exception then read_results frame ret_cell_num argv else skip) ;;;
            wasm_exec_env_set_cur_frame exec_env prev_frame ;;;
            FREE_FRAME exec_env frame ;;;
            mret Returned
        | _ => mret e
        end.
End Interp.
