(* ===== verification/Sample.v ===== *)
(** A module instance with one function, which sums the numbers from its argument
    down to 1 in a loop; the theorems about the interpreter are evaluated on
    it. *)
From stdpp Require Import base gmap list numbers strings.
From Stdlib Require Import Strings.Byte ZArith Lia.
From S2P Require Import Prelude CMemory WasmTypes PoolInfo ExecEnv Memory Regs InterpState Interp.

(** [loop 0x40 local.get 1 local.get 0 i32.add local.set 1 local.get 0 i32.const 1
    i32.sub local.tee 0 br_if 0 end local.get 1 end]. *)
Definition sum_code : list Z :=
  [0x03; 0x40; 0x20; 1; 0x20; 0; 0x6a; 0x21; 1; 0x20; 0; 0x41; 1; 0x6b; 0x22; 0; 0x0d; 0; 0x0b;
   0x20; 1; 0x0b].

(** Where things are. *)
Definition s_inst : Z := 65536.
Definition s_module : Z := 66560.
Definition s_func : Z := 67584.
Definition s_wasm_func : Z := 68608.
Definition s_type : Z := 69632.
Definition s_code : Z := 70656.
Definition s_offsets : Z := 71680.
Definition s_types : Z := 71700.
Definition s_argv : Z := 72704.
Definition s_memory : Z := 73728.
Definition s_data : Z := 77824.
Definition s_imp : Z := 90000.
Definition s_env : Z := 131072.

Definition put_word (m : mem) (x : Z * Z * Z) : mem := let '(a, n, v) := x in store_Z m a n v.

Definition s_mem : mem :=
  foldl put_word (store ∅ s_code (map Z_byte sum_code))
    [(FLD s_inst WASMModuleInstance "module", 8, s_module);
     (FLD s_inst WASMModuleInstance "functions", 8, s_func);
     (FLD s_inst WASMModuleInstance "function_count", 4, 1);
     (FLD s_inst WASMModuleInstance "default_memory", 8, s_memory);
     (FLD s_memory WASMMemoryInstance "num_bytes_per_page", 4, 64);
     (FLD s_memory WASMMemoryInstance "cur_page_count", 4, 1);
     (FLD s_memory WASMMemoryInstance "max_page_count", 4, 4);
     (FLD s_memory WASMMemoryInstance "memory_data", 8, s_data);
     (FLD s_memory WASMMemoryInstance "memory_data_end", 8, s_data + 64);
     (FLD s_func WASMFunctionInstance "param_count", 2, 1);
     (FLD s_func WASMFunctionInstance "local_count", 2, 1);
     (FLD s_func WASMFunctionInstance "param_cell_num", 2, 1);
     (FLD s_func WASMFunctionInstance "ret_cell_num", 2, 1);
     (FLD s_func WASMFunctionInstance "local_cell_num", 2, 1);
     (FLD s_func WASMFunctionInstance "local_offsets", 8, s_offsets);
     (FLD s_func WASMFunctionInstance "param_types", 8, s_types);
     (FLD s_func WASMFunctionInstance "local_types", 8, s_types + 1);
     (FLD s_func WASMFunctionInstance "u", 8, s_wasm_func);
     (FLD s_wasm_func WASMFunction "func_type", 8, s_type);
     (FLD s_wasm_func WASMFunction "max_stack_cell_num", 4, 4);
     (FLD s_wasm_func WASMFunction "max_block_num", 4, 2);
     (FLD s_wasm_func WASMFunction "code_size", 4, 22);
     (FLD s_wasm_func WASMFunction "code", 8, s_code);
     (FLD s_type WASMType "ret_cell_num", 2, 1);
     (s_offsets, 2, 0); (s_offsets + 2, 2, 1); (s_types, 1, 0x7f); (s_types + 1, 1, 0x7f);
     (FLD s_env WASMExecEnv "module_inst", 8, s_inst);
     (FLD s_env WASMExecEnv "wasm_stack.s.top", 8, stack_bottom s_env);
     (FLD s_env WASMExecEnv "wasm_stack.s.top_boundary", 8, stack_bottom s_env + 4096);
     (s_argv, 4, 10)].

Definition s_world : world := mkWorld s_mem FClosed FClosed [] [] 65536 0 0 0 0 0 0.

(** A host that has no memory to give and no functions to call. *)
Definition no_memory : alloc_funcs := mkFuncs (fun _ => mret NULL) (fun _ _ => mret NULL) (fun _ => skip).
Definition s_host : host :=
  mkHost (mkMemory MEMORY_MODE_UNKNOWN no_memory no_memory false) (fun _ _ _ => mret 0)
    (fun _ => mret (true, 0, 0)) (fun _ => 0x7fc00000) (fun _ => 0x7ff8000000000000) skip
    (fun _ _ _ _ => (0, 0, 0, 0)).

Definition no_locals : locals :=
  mkLocals 0 0 0 0 0 0 0 0 0 0 0 0 0 0 0 0 0 0 0 0 0 0 0 0 0 0 0 0 0 0 0 0 0 0 0 0 0 0 0 0 0 0.

(** 10 + 9 + ... + 1, and the frames are given back. *)
Example sum_10 :
  match wasm_interp_call_wasm s_host no_locals s_imp 1000000 (replicate 100 false) s_inst s_env s_func
          1 s_argv s_world with
  | Ok e w => e = Returned ∧ load_Z (wmem w) s_argv 4 = 55 ∧ root_info w = []
              ∧ stack_top (wmem w) s_env = stack_bottom s_env
  | _ => False
  end.
Proof. by vm_compute. Qed.

(** The state of the interpreter when it starts, and after [k] turns. *)
Definition state_of {A} (r : outcome (locals * world) A) : locals * world :=
  match r with Ok _ s => s | _ => (no_locals, s_world) end.

(** The frame of the caller, and the argument in front of the next frame. *)
Definition s_caller : Z := stack_bottom s_env.
Definition s_entered : outcome world Z :=
  (let* f := ALLOC_FRAME s_env (wasm_interp_interp_frame_size 2) NULL in
   st 4 (FLD (s_caller + wasm_interp_interp_frame_size 2) WASMInterpFrame "lp") 10 ;;; mret f) s_world.
Definition s_start : locals * world :=
  match s_entered with
  | Ok f w => match init_locals no_locals s_imp s_inst s_env s_func f w with
              | Ok l w => (l, w)
              | _ => (no_locals, s_world)
              end
  | _ => (no_locals, s_world)
  end.

Definition s_after (k : nat) : locals * world :=
  state_of (bytecode_loop s_host false (replicate k false) s_start).

(** A result is known from its value: the state need not be computed. *)
Definition is_ok {A} (eqb : A → bool) (r : outcome (locals * world) A) : bool :=
  match r with Ok a _ => eqb a | _ => false end.

Lemma is_ok_eq {A} (eqb : A → bool) a (r : outcome (locals * world) A) :
  (∀ b, eqb b = true → b = a) → is_ok eqb r = true → r = Ok a (state_of r).
Proof. intros H. destruct r as [b s| |]; [|done..]. simpl. by intros <-%H. Qed.

Lemma running_eq r :
  is_ok (fun e => match e with Running => true | _ => false end) r = true → r = Ok Running (state_of r).
Proof. apply is_ok_eq. by intros []. Qed.

Lemma true_eq r : is_ok id r = true → r = Ok true (state_of r).
Proof. by apply is_ok_eq. Qed.
