(* ===== verification/Schedule.v ===== *)
(** Where a checkpoint can happen: between two instructions, in the state in which
    the interrupted opcode has been fetched and not executed; a restart goes on
    from there. *)
From stdpp Require Import base gmap list numbers strings.
From Stdlib Require Import ZArith Lia.
From S2P Require Import Prelude CMemory WasmTypes PoolInfo ExecEnv Memory Regs InterpState Macros Interp.
From S2P Require Import Opcodes Sample.

Section Schedule.
Context (h : host).

(** The rest of the loop after the turn in which [resume] runs. *)
Definition finish_turn (migr_flag : bool) (signals : list bool) : R run_end :=
  let* e := resume h in
  match e with Return => mret Returned | Next => bytecode_loop h migr_flag signals end.

Lemma loop_false migr rest s :
  bytecode_loop h migr (false :: rest) s
  = (let* go := fetch in if negb go then mret Returned else finish_turn migr rest) s.
Proof. cbn [bytecode_loop]. apply mbind_ext; [done|]. intros go s'. by destruct go. Qed.

(** A run without a signal does not depend on what comes later. *)
Lemma loop_app migr l rest s :
  (∀ b, In b l → b = false) →
  bytecode_loop h migr (l ++ rest) s
  = match bytecode_loop h migr l s with
    | Ok Running s' => bytecode_loop h migr rest s'
    | r => r
    end.
Proof.
  revert s. induction l as [|b l IH]; intros s Hl; [done|].
  rewrite (Hl b) by (by left). cbn [app]. rewrite !loop_false. unfold finish_turn, mbind.
  destruct (fetch s) as [[] s1| |]; [|done..]. cbn [negb].
  destruct (resume h s1) as [[] s2| |]; [|done..]. apply IH. intros b' Hb. apply Hl. by right.
Qed.

(** Without a signal the flag does not matter. *)
Lemma loop_flag migr migr' l s :
  (∀ b, In b l → b = false) → bytecode_loop h migr l s = bytecode_loop h migr' l s.
Proof.
  revert s. induction l as [|b l IH]; intros s Hl; [done|].
  rewrite (Hl b) by (by left). rewrite !loop_false. unfold finish_turn, mbind.
  destruct (fetch s) as [[] s1| |]; [|done..]. cbn [negb].
  destruct (resume h s1) as [[] s2| |]; [|done..]. apply IH. intros b' Hb. apply Hl. by right.
Qed.

Lemma in_replicate_false n b : In b (replicate n false) → b = false.
Proof. intros H. apply list_elem_of_In, elem_of_replicate in H. by destruct H. Qed.

(** The outcome of a run without the final values of the variables. *)
Definition forget {A} (r : outcome (locals * world) A) : outcome world A :=
  match r with Ok a (_, w) => Ok a w | Exited n => Exited n | Stuck => Stuck end.

End Schedule.

