(* ===== verification/Steps.v ===== *)
(** What the steps of an instruction handler do: reading and writing memory and
    registers, the operands of four or eight bytes on the operand stack, and
    the immediates of the code. *)
From stdpp Require Import base gmap list numbers strings.
From Stdlib Require Import Strings.Byte ZArith Lia.
From S2P Require Import Prelude CMemory WasmTypes PoolInfo ExecEnv Opcodes Numeric Leb.
From S2P Require Import Regs Macros DataOps.

(** * Steps of the monad *)

Lemma regs_set l v v' : set_frame_sp v' (set_frame_sp v l) = set_frame_sp v' l.
Proof. done. Qed.

Definition setm (m : mem) (s : locals * world) : locals * world := (s.1, set_mem m s.2).

Lemma ldr_ok n a l w : ldr n a (l, w) = Ok (load_Z (wmem w) a n) (l, w).
Proof. done. Qed.
Lemma str_ok n a v l w : str n a v (l, w) = Ok tt (l, set_mem (store_Z (wmem w) a n v) w).
Proof. done. Qed.
Lemma reg_ok f l w : reg f (l, w) = Ok (f l) (l, w).
Proof. done. Qed.
Lemma assign_ok f v l w : assign f v (l, w) = Ok tt (f v l, w).
Proof. done. Qed.
Lemma lift_ok {A} (c : C A) a w w' l : c w = Ok a w' → lift c (l, w) = Ok a (l, w').
Proof. intros H. unfold lift. cbn [fst snd]. by rewrite H. Qed.

(** Stores cut a value to the size of the word. *)
Lemma store_Z_mod m a n v v' : 0 <= n → v mod 256 ^ n = v' mod 256 ^ n → store_Z m a n v = store_Z m a n v'.
Proof.
  intros Hn E. unfold store_Z. f_equal.
  rewrite <- (le_bytes_mod (Z.to_nat n) v), <- (le_bytes_mod (Z.to_nat n) v'). by rewrite Z2Nat.id, E.
Qed.

(** * Operands of [n] bytes, four or eight *)

Definition pop_u (n : Z) : R Z := if n =? 4 then POP_U32 else POP_U64.
Definition pop_s (n : Z) : R Z := if n =? 4 then POP_I32 else POP_I64.
Definition push (n : Z) : Z → R unit := if n =? 4 then PUSH_I32 else PUSH_I64.

Definition cell (n : Z) : Prop := n = 4 ∨ n = 8.

Lemma cell_pow n : cell n → 256 ^ n = 2 ^ (8 * n).
Proof. by intros [-> | ->]. Qed.

Lemma operand_range m a n : cell n → 0 <= load_Z m a n < 2 ^ (8 * n).
Proof. intros Hn. rewrite <- cell_pow by done. apply load_Z_range. destruct Hn; lia. Qed.

Lemma pop_s_ok n l w : cell n →
  pop_s n (l, w) = Ok (swrap (8 * n) (load_Z (wmem w) (frame_sp l - n) n))
                     (set_frame_sp (frame_sp l - n) l, w).
Proof. by intros [-> | ->]. Qed.

Lemma pop_u_ok n l w : cell n →
  pop_u n (l, w) = Ok (load_Z (wmem w) (frame_sp l - n) n) (set_frame_sp (frame_sp l - n) l, w).
Proof.
  intros Hn. pose proof (operand_range (wmem w) (frame_sp l - n) n Hn) as Hr.
  assert (pop_u n = (let* v := pop_s n in mret (wrap (8 * n) v))) as -> by (by destruct Hn as [-> | ->]).
  rewrite (mbind_ok _ _ _ _ _ (pop_s_ok n l w Hn)). unfold mret.
  by rewrite wrap_swrap, wrap_small by (destruct Hn; lia).
Qed.

Lemma push_ok n v l w : cell n →
  push n v (l, w) = Ok tt (set_frame_sp (frame_sp l + n) l, set_mem (store_Z (wmem w) (frame_sp l) n v) w).
Proof.
  intros Hn. assert (push n v (l, w)
    = Ok tt (set_frame_sp (frame_sp l + n) l,
             set_mem (store_Z (wmem w) (frame_sp l) n (wrap (8 * n) v)) w)) as -> by (by destruct Hn as [-> | ->]).
  do 3 f_equal. apply store_Z_mod; [destruct Hn; lia|]. unfold wrap. rewrite cell_pow by done.
  by rewrite Z.mod_mod by (destruct Hn as [-> | ->]; lia).
Qed.

(** * Immediates *)

Lemma read_uint32_ok l w v p : leb_uint32 (wmem w) (frame_ip l) = Some (v, p) →
  read_leb_uint32 (l, w) = Ok v (set_frame_ip p l, w).
Proof. intros E. unfold read_leb_uint32, read_with, mbind, reg, gets. cbn [fst snd]. by rewrite E. Qed.

Lemma leb_uint32_range m p v q : leb_uint32 m p = Some (v, q) → 0 <= v < 2 ^ 32.
Proof.
  unfold leb_uint32. destruct (Z.land _ _ =? 0).
  - intros [= <- _]. pose proof (load_Z_range m p 1). lia.
  - destruct (read_leb m p 0 32 false) as [[res off]|]; [|done]. intros [= <- _]. by apply wrap_range.
Qed.
