(* ===== verification/IntOps.v ===== *)
(** The integer instructions of the interpreter compute the operators of the
    WebAssembly specification ([Numeric.spec_binop] and its kin), and trap where
    those do. *)
From stdpp Require Import base gmap list numbers strings.
From Stdlib Require Import Strings.Byte ZArith Lia.
From S2P Require Import Prelude CMemory WasmTypes PoolInfo ExecEnv Opcodes Numeric Leb.
From S2P Require Import Regs Macros DataOps NumericOps Control Interp Steps.

(** * Binary instructions *)

(** The operands of a binary instruction, and the state it leaves. *)
Definition opA (n : Z) (l : locals) (w : world) : Z := load_Z (wmem w) (frame_sp l - n - n) n.
Definition opB (n : Z) (l : locals) (w : world) : Z := load_Z (wmem w) (frame_sp l - n) n.

(** [r] replaces the operands. *)
Definition replaced (n : Z) (l : locals) (w : world) (k r : Z) : outcome (locals * world) flow :=
  Ok HANDLE_OP_END
    (set_frame_sp (frame_sp l - n - n + k) l,
     set_mem (store_Z (wmem w) (frame_sp l - n - n) k r) w).

(** The operands are gone and the exception is set. *)
Definition trapped (n : Z) (l : locals) (w : world) (msg : string) : outcome (locals * world) flow :=
  throw msg (set_frame_sp (frame_sp l - n - n) l, w).

Section Binary.
Context (n : Z) (l : locals) (w : world).
Hypothesis Hn : cell n.
Let a := opA n l w.
Let b := opB n l w.

Lemma pops {A} (k : Z → Z → R A) :
  (let* b := pop_u n in let* a := pop_u n in k b a) (l, w) = k b a (set_frame_sp (frame_sp l - n - n) l, w).
Proof.
  rewrite (mbind_ok _ _ _ _ _ (pop_u_ok n l w Hn)). cbv beta.
  by rewrite (mbind_ok _ _ _ _ _ (pop_u_ok n _ w Hn)).
Qed.

Lemma pops_signed {A} (k : Z → Z → R A) :
  (let* b := pop_s n in let* a := pop_s n in k b a) (l, w)
  = k (swrap (8 * n) b) (swrap (8 * n) a) (set_frame_sp (frame_sp l - n - n) l, w).
Proof.
  rewrite (mbind_ok _ _ _ _ _ (pop_s_ok n l w Hn)). cbv beta.
  by rewrite (mbind_ok _ _ _ _ _ (pop_s_ok n _ w Hn)).
Qed.

Lemma push_result v r : v mod 2 ^ (8 * n) = r mod 2 ^ (8 * n) →
  op_end (push n v) (set_frame_sp (frame_sp l - n - n) l, w) = replaced n l w n r.
Proof.
  intros E. unfold op_end. rewrite (mbind_ok _ _ _ _ _ (push_ok n v _ w Hn)). unfold replaced, mret.
  rewrite regs_set. do 3 f_equal. apply store_Z_mod; [destruct Hn; lia|]. by rewrite cell_pow.
Qed.

Lemma in_place f : DEF_OP_NUMERIC n f (l, w) = replaced n l w n (f a b).
Proof.
  unfold DEF_OP_NUMERIC. do 4 erewrite mbind_ok by reflexivity. unfold op_end.
  erewrite mbind_ok by reflexivity. unfold replaced, mret. fold (opA n l w) (opB n l w).
  replace (frame_sp l - n - n + n) with (frame_sp l - n) by lia. do 3 f_equal.
  apply store_Z_mod; [destruct Hn; lia|]. unfold wrap. rewrite cell_pow by done.
  by rewrite Z.mod_mod by (destruct Hn as [-> | ->]; lia).
Qed.

Lemma in_place_2 f r : f a (b mod (8 * n)) mod 2 ^ (8 * n) = r mod 2 ^ (8 * n) →
  DEF_OP_NUMERIC2 n f (l, w) = replaced n l w n r.
Proof.
  intros E. unfold DEF_OP_NUMERIC2. rewrite in_place. unfold replaced. do 3 f_equal.
  apply store_Z_mod; [destruct Hn; lia|]. by rewrite cell_pow.
Qed.
End Binary.

(** * Dispatch *)

Definition i_binop (w32 : bool) (op : binop) : WASMOpcode :=
  match op with
  | Add => if w32 then WASM_OP_I32_ADD else WASM_OP_I64_ADD
  | Sub => if w32 then WASM_OP_I32_SUB else WASM_OP_I64_SUB
  | Mul => if w32 then WASM_OP_I32_MUL else WASM_OP_I64_MUL
  | DivS => if w32 then WASM_OP_I32_DIV_S else WASM_OP_I64_DIV_S
  | DivU => if w32 then WASM_OP_I32_DIV_U else WASM_OP_I64_DIV_U
  | RemS => if w32 then WASM_OP_I32_REM_S else WASM_OP_I64_REM_S
  | RemU => if w32 then WASM_OP_I32_REM_U else WASM_OP_I64_REM_U
  | And => if w32 then WASM_OP_I32_AND else WASM_OP_I64_AND
  | Or => if w32 then WASM_OP_I32_OR else WASM_OP_I64_OR
  | Xor => if w32 then WASM_OP_I32_XOR else WASM_OP_I64_XOR
  | Shl => if w32 then WASM_OP_I32_SHL else WASM_OP_I64_SHL
  | ShrS => if w32 then WASM_OP_I32_SHR_S else WASM_OP_I64_SHR_S
  | ShrU => if w32 then WASM_OP_I32_SHR_U else WASM_OP_I64_SHR_U
  | Rotl => if w32 then WASM_OP_I32_ROTL else WASM_OP_I64_ROTL
  | Rotr => if w32 then WASM_OP_I32_ROTR else WASM_OP_I64_ROTR
  end.

Definition i_relop (w32 : bool) (op : relop) : WASMOpcode :=
  match op with
  | Eq => if w32 then WASM_OP_I32_EQ else WASM_OP_I64_EQ
  | Ne => if w32 then WASM_OP_I32_NE else WASM_OP_I64_NE
  | LtS => if w32 then WASM_OP_I32_LT_S else WASM_OP_I64_LT_S
  | LtU => if w32 then WASM_OP_I32_LT_U else WASM_OP_I64_LT_U
  | GtS => if w32 then WASM_OP_I32_GT_S else WASM_OP_I64_GT_S
  | GtU => if w32 then WASM_OP_I32_GT_U else WASM_OP_I64_GT_U
  | LeS => if w32 then WASM_OP_I32_LE_S else WASM_OP_I64_LE_S
  | LeU => if w32 then WASM_OP_I32_LE_U else WASM_OP_I64_LE_U
  | GeS => if w32 then WASM_OP_I32_GE_S else WASM_OP_I64_GE_S
  | GeU => if w32 then WASM_OP_I32_GE_U else WASM_OP_I64_GE_U
  end.

Definition i_unop (w32 : bool) (op : unop) : WASMOpcode :=
  match op with
  | Clz => if w32 then WASM_OP_I32_CLZ else WASM_OP_I64_CLZ
  | Ctz => if w32 then WASM_OP_I32_CTZ else WASM_OP_I64_CTZ
  | Popcnt => if w32 then WASM_OP_I32_POPCNT else WASM_OP_I64_POPCNT
  end.

(** The exception of a division that traps. *)
Definition trap_msg (b : Z) : string :=
  if b =? 0 then "integer divide by zero" else "integer overflow".

Definition bytes_of (w32 : bool) : Z := if w32 then 4 else 8.

Lemma bytes_of_cell w32 : cell (bytes_of w32).
Proof. destruct w32; [by left|by right]. Qed.

Lemma cell_width n : cell n → 8 * n = 32 ∨ 8 * n = 64.
Proof. intros [-> | ->]; [by left|by right]. Qed.

Lemma in_place_mod n l w f r : cell n →
  f (opA n l w) (opB n l w) mod 2 ^ (8 * n) = r mod 2 ^ (8 * n) →
  DEF_OP_NUMERIC n f (l, w) = replaced n l w n r.
Proof.
  intros Hn E. rewrite in_place by done. unfold replaced. do 3 f_equal.
  apply store_Z_mod; [destruct Hn; lia|]. by rewrite cell_pow.
Qed.

(** * Division *)

Lemma swrap_zero w b : 1 <= w → 0 <= b < 2 ^ w → (swrap w b =? 0) = (b =? 0).
Proof.
  intros Hw Hb. unfold swrap.
  assert (2 ^ w = 2 * 2 ^ (w - 1)) as E by (rewrite <- Z.pow_succ_r by lia; f_equal; lia).
  rewrite E in *. set (p := 2 ^ (w - 1)) in *. assert (0 < p) by (apply Z.pow_pos_nonneg; lia).
  destruct (Z.ltb_spec b p).
  - rewrite Z.mod_small by lia. f_equal. lia.
  - rewrite <- (Z.mod_add _ (-1)), Z.mod_small by lia. destruct (Z.eqb_spec b 0); [lia|].
    apply Z.eqb_neq. lia.
Qed.

Lemma quot_overflow p a b : 0 < p → - p <= a < p → b ≠ 0 →
  (Z.quot a b =? p) = (a =? - p) && (b =? -1).
Proof.
  intros Hp Ha Hb. apply Bool.eq_iff_eq_true. rewrite andb_true_iff, !Z.eqb_eq. split.
  - intros E. assert (Z.abs (Z.quot a b) = Z.abs a / Z.abs b) as E' by (by rewrite <- Z.quot_abs, Z.quot_div_nonneg by lia).
    rewrite E, (Z.abs_eq p) in E' by lia.
    assert (Z.abs b = 1) as Eb.
    { destruct (Z.le_gt_cases 2 (Z.abs b)); [|lia]. assert (Z.abs a / Z.abs b < p); [|lia].
      apply Z.div_lt_upper_bound; [lia|]. nia. }
    rewrite Eb, Z.div_1_r in E'. assert (b = 1 ∨ b = -1) as [-> | ->] by lia.
    + rewrite Z.quot_1_r in E. lia.
    + lia.
  - intros [-> ->]. change (-1) with (- (1)). by rewrite Z.quot_opp_opp, Z.quot_1_r by lia.
Qed.

Section Division.
Context (n : Z) (l : locals) (w : world).
Hypothesis Hn : cell n.
Let a := opA n l w.
Let b := opB n l w.

Lemma operands : 0 <= a < 2 ^ (8 * n) ∧ 0 <= b < 2 ^ (8 * n) ∧ 1 <= 8 * n.
Proof. unfold a, b, opA, opB. split_and!; [by apply operand_range..|destruct Hn; lia]. Qed.

Lemma div_s_ok :
  div_s_instr (8 * n) (pop_s n) (push n) (l, w)
  = match spec_binop (8 * n) DivS a b with
    | Some r => replaced n l w n r
    | None => trapped n l w (trap_msg b)
    end.
Proof.
  destruct operands as (Ha&Hb&Hw). unfold div_s_instr. rewrite pops_signed by done. fold a b.
  unfold spec_binop, trap_msg. cbv zeta. pose proof (swrap_range (8 * n) a Hw).
  assert (0 < 2 ^ (8 * n - 1)) by (apply Z.pow_pos_nonneg; lia).
  rewrite swrap_zero by done. destruct (Z.eqb_spec b 0) as [E|E].
  - assert ((swrap (8 * n) b =? -1) = false) as ->.
    { apply Z.eqb_neq. pose proof (swrap_zero (8 * n) b Hw Hb) as E'. rewrite E in *. zbool.
      rewrite Z.eqb_refl in E'. apply Z.eqb_eq in E'. lia. }
    by rewrite andb_false_r.
  - rewrite quot_overflow; [|lia|lia|].
    + destruct (_ && _); [done|]. apply push_result; [done|]. by rewrite Z.mod_mod by lia.
    + pose proof (swrap_zero (8 * n) b Hw Hb) as E'. rewrite (proj2 (Z.eqb_neq b 0)) in E' by done.
      by apply Z.eqb_neq.
Qed.

Lemma rem_s_ok :
  rem_s_instr (8 * n) (pop_s n) (push n) (l, w)
  = match spec_binop (8 * n) RemS a b with
    | Some r => replaced n l w n r
    | None => trapped n l w (trap_msg b)
    end.
Proof.
  destruct operands as (Ha&Hb&Hw). unfold rem_s_instr. rewrite pops_signed by done. fold a b.
  unfold spec_binop, trap_msg. cbv zeta. pose proof (swrap_zero (8 * n) b Hw Hb) as E'.
  assert (0 < 2 ^ (8 * n)) by (apply Z.pow_pos_nonneg; lia).
  destruct ((swrap (8 * n) a =? _) && (swrap (8 * n) b =? -1)) eqn:E.
  - apply andb_prop in E as [_ E%Z.eqb_eq]. rewrite E in *. change (-1 =? 0) with false in E'. rewrite <- E'.
    apply push_result; [done|]. change (-1) with (- (1)). by rewrite Z.rem_opp_r, Z.rem_1_r, Z.mod_mod by lia.
  - rewrite E'. destruct (b =? 0); [done|]. apply push_result; [done|]. by rewrite Z.mod_mod by lia.
Qed.

Lemma div_u_ok :
  div_u_instr (pop_u n) (push n) (l, w)
  = match spec_binop (8 * n) DivU a b with
    | Some r => replaced n l w n r
    | None => trapped n l w (trap_msg b)
    end.
Proof.
  unfold div_u_instr. rewrite pops by done. fold a b. unfold spec_binop, trap_msg. cbv zeta.
  destruct (b =? 0); [done|]. by apply push_result.
Qed.

Lemma rem_u_ok :
  rem_u_instr (pop_u n) (push n) (l, w)
  = match spec_binop (8 * n) RemU a b with
    | Some r => replaced n l w n r
    | None => trapped n l w (trap_msg b)
    end.
Proof.
  unfold rem_u_instr. rewrite pops by done. fold a b. unfold spec_binop, trap_msg. cbv zeta.
  destruct (b =? 0); [done|]. by apply push_result.
Qed.

Lemma binary_ok f op : Some (f a b) = spec_binop (8 * n) op a b →
  binary_instr (pop_u n) (push n) f (l, w)
  = match spec_binop (8 * n) op a b with
    | Some r => replaced n l w n r
    | None => trapped n l w (trap_msg b)
    end.
Proof.
  intros <-. unfold binary_instr. rewrite pops by done. fold a b. by apply push_result.
Qed.
End Division.

(** * Theorems *)

(** C23: every binary integer instruction of both widths replaces its operands by
    the result the WebAssembly specification gives, wrapped to the width; the
    divisions trap exactly where the specification does, with the exception of
    their case, and leave memory alone. *)
Theorem int_binop_correct h w32 op l w :
  let n := bytes_of w32 in
  handle_op h (i_binop w32 op) (l, w)
  = match spec_binop (8 * n) op (opA n l w) (opB n l w) with
    | Some r => replaced n l w n r
    | None => trapped n l w (trap_msg (opB n l w))
    end.
Proof.
  intros n. assert (cell n) as Hn by apply bytes_of_cell. destruct (operands n l w Hn) as (Ha&Hb&Hw).
  assert (0 < 2 ^ (8 * n)) by (apply Z.pow_pos_nonneg; lia).
  assert (0 <= opB n l w mod (8 * n)) by (apply Z.mod_pos_bound; lia).
  destruct op.
  - transitivity (DEF_OP_NUMERIC n Z.add (l, w)); [by destruct w32|]. apply in_place_mod; [done|].
    by rewrite Z.mod_mod by lia.
  - transitivity (DEF_OP_NUMERIC n Z.sub (l, w)); [by destruct w32|]. apply in_place_mod; [done|].
    by rewrite Z.mod_mod by lia.
  - transitivity (DEF_OP_NUMERIC n Z.mul (l, w)); [by destruct w32|]. apply in_place_mod; [done|].
    by rewrite Z.mod_mod by lia.
  - transitivity (div_s_instr (8 * n) (pop_s n) (push n) (l, w)); [by destruct w32|]. by apply div_s_ok.
  - transitivity (div_u_instr (pop_u n) (push n) (l, w)); [by destruct w32|]. by apply div_u_ok.
  - transitivity (rem_s_instr (8 * n) (pop_s n) (push n) (l, w)); [by destruct w32|]. by apply rem_s_ok.
  - transitivity (rem_u_instr (pop_u n) (push n) (l, w)); [by destruct w32|]. by apply rem_u_ok.
  - transitivity (DEF_OP_NUMERIC n Z.land (l, w)); [by destruct w32|]. by apply in_place_mod.
  - transitivity (DEF_OP_NUMERIC n Z.lor (l, w)); [by destruct w32|]. by apply in_place_mod.
  - transitivity (DEF_OP_NUMERIC n Z.lxor (l, w)); [by destruct w32|]. by apply in_place_mod.
  - transitivity (DEF_OP_NUMERIC2 n Z.shiftl (l, w)); [by destruct w32|]. apply in_place_2; [done|].
    by rewrite Z.shiftl_mul_pow2, Z.mod_mod by lia.
  - transitivity (DEF_OP_NUMERIC2 n (fun a b => Z.shiftr (swrap (8 * n) a) b) (l, w)); [by destruct w32|].
    apply in_place_2; [done|]. by rewrite Z.shiftr_div_pow2, Z.mod_mod by lia.
  - transitivity (DEF_OP_NUMERIC2 n Z.shiftr (l, w)); [by destruct w32|]. apply in_place_2; [done|].
    by rewrite Z.shiftr_div_pow2 by lia.
  - transitivity (binary_instr (pop_u n) (push n) (if w32 then rotl32 else rotl64) (l, w)); [by destruct w32|].
    apply binary_ok with (op := Rotl); [done|]. destruct w32; [by apply rotl32_ok|by apply rotl64_ok].
  - transitivity (binary_instr (pop_u n) (push n) (if w32 then rotr32 else rotr64) (l, w)); [by destruct w32|].
    apply binary_ok with (op := Rotr); [done|]. destruct w32; [by apply rotr32_ok|by apply rotr64_ok].
Qed.

(** ** Comparisons, bit counts and conversions *)

(** [r], of [k] bytes, replaces the one operand. *)
Definition replaced1 (n : Z) (l : locals) (w : world) (k r : Z) : outcome (locals * world) flow :=
  Ok HANDLE_OP_END
    (set_frame_sp (frame_sp l - n + k) l, set_mem (store_Z (wmem w) (frame_sp l - n) k r) w).

Lemma pop1 {A} n (k : Z → R A) l w : cell n →
  (let* a := pop_u n in k a) (l, w) = k (opB n l w) (set_frame_sp (frame_sp l - n) l, w).
Proof. intros Hn. by rewrite (mbind_ok _ _ _ _ _ (pop_u_ok n l w Hn)). Qed.

Lemma pop1_signed {A} n (k : Z → R A) l w : cell n →
  (let* a := pop_s n in k a) (l, w) = k (swrap (8 * n) (opB n l w)) (set_frame_sp (frame_sp l - n) l, w).
Proof. intros Hn. by rewrite (mbind_ok _ _ _ _ _ (pop_s_ok n l w Hn)). Qed.

Lemma push1 n k v r l w : cell k → v mod 2 ^ (8 * k) = r mod 2 ^ (8 * k) →
  op_end (push k v) (set_frame_sp (frame_sp l - n) l, w) = replaced1 n l w k r.
Proof.
  intros Hk E. unfold op_end. rewrite (mbind_ok _ _ _ _ _ (push_ok k v _ w Hk)). unfold replaced1, mret.
  rewrite regs_set. do 3 f_equal. apply store_Z_mod; [destruct Hk; lia|]. by rewrite cell_pow.
Qed.

Lemma cmp_ok n f l w : cell n →
  DEF_OP_CMP (pop_u n) f (l, w) = replaced n l w 4 (Z.b2z (f (opA n l w) (opB n l w))).
Proof.
  intros Hn. unfold DEF_OP_CMP. rewrite pops by done.
  unfold op_end. rewrite (mbind_ok _ _ _ _ _ (push_ok 4 _ _ w (or_introl eq_refl))). done.
Qed.

Lemma cmp_signed_ok n f l w : cell n →
  DEF_OP_CMP (pop_s n) f (l, w)
  = replaced n l w 4 (Z.b2z (f (swrap (8 * n) (opA n l w)) (swrap (8 * n) (opB n l w)))).
Proof.
  intros Hn. unfold DEF_OP_CMP. rewrite pops_signed by done.
  unfold op_end. rewrite (mbind_ok _ _ _ _ _ (push_ok 4 _ _ w (or_introl eq_refl))). done.
Qed.

Lemma swrap_mod_le k w a : 1 <= k <= w → swrap w a mod 2 ^ k = a mod 2 ^ k.
Proof.
  intros Hk. assert ((2 ^ k | 2 ^ w)) as Hd.
  { exists (2 ^ (w - k)). rewrite <- Z.pow_add_r by lia. f_equal. lia. }
  rewrite <- (Z.mod_mod_divide (swrap w a) (2 ^ w)), <- (Z.mod_mod_divide a (2 ^ w)) by done.
  f_equal. apply (wrap_swrap w). lia.
Qed.

Lemma swrap_swrap k w a : 1 <= k <= w → swrap k (swrap w a) = swrap k a.
Proof. intros Hk. by apply swrap_mod, swrap_mod_le. Qed.

Definition count_op (w32 : bool) (op : unop) : Z → option Z :=
  match op with
  | Clz => if w32 then clz32 else clz64
  | Ctz => if w32 then ctz32 else ctz64
  | Popcnt => if w32 then popcount32 else popcount64
  end.

Lemma count_ok w32 op x : 0 <= x < 2 ^ (8 * bytes_of w32) →
  count_op w32 op x = Some (spec_unop (if w32 then 32 else 64) op x).
Proof.
  destruct w32, op; intros Hx; [by apply clz32_ok|by apply ctz32_ok|by apply popcount32_ok
    |by apply clz64_ok|by apply ctz64_ok|by apply popcount64_ok].
Qed.

(** The instructions of one operand, with the bytes they pop and push. *)
Inductive cvt := Eqz (w32 : bool) | Count (w32 : bool) (op : unop) | Wrap | ExtendS | ExtendU
  | Extend8 (w32 : bool) | Extend16 (w32 : bool) | Extend32.

Definition i_cvt (c : cvt) : WASMOpcode * Z * Z :=
  match c with
  | Eqz w32 => (if w32 then WASM_OP_I32_EQZ else WASM_OP_I64_EQZ, bytes_of w32, 4)
  | Count w32 op => (i_unop w32 op, bytes_of w32, bytes_of w32)
  | Wrap => (WASM_OP_I32_WRAP_I64, 8, 4)
  | ExtendS => (WASM_OP_I64_EXTEND_S_I32, 4, 8)
  | ExtendU => (WASM_OP_I64_EXTEND_U_I32, 4, 8)
  | Extend8 w32 => (if w32 then WASM_OP_I32_EXTEND8_S else WASM_OP_I64_EXTEND8_S, bytes_of w32, bytes_of w32)
  | Extend16 w32 =>
      (if w32 then WASM_OP_I32_EXTEND16_S else WASM_OP_I64_EXTEND16_S, bytes_of w32, bytes_of w32)
  | Extend32 => (WASM_OP_I64_EXTEND32_S, 8, 8)
  end.

(** The result, to be taken modulo the width of the push. *)
Definition spec_cvt (c : cvt) (a : Z) : Z :=
  match c with
  | Eqz _ => Z.b2z (a =? 0)
  | Count w32 op => spec_unop (if w32 then 32 else 64) op a
  | Wrap => a mod 2 ^ 32
  | ExtendS => swrap 32 a
  | ExtendU => a
  | Extend8 _ => swrap 8 a
  | Extend16 _ => swrap 16 a
  | Extend32 => swrap 32 a
  end.

(** C26: every comparison of two integers pushes 1 or 0 as the specification says,
    and every instruction of one integer operand (test for zero, bit counts,
    wrapping and sign extension) replaces it by the result of the specification. *)
Theorem int_relop_unop_correct h l w :
  (∀ w32 op, let n := bytes_of w32 in
     handle_op h (i_relop w32 op) (l, w)
     = replaced n l w 4 (Z.b2z (spec_relop (8 * n) op (opA n l w) (opB n l w))))
  ∧ ∀ c, let '(opc, n, k) := i_cvt c in
      handle_op h opc (l, w) = replaced1 n l w k (spec_cvt c (opB n l w)).
Proof.
  split.
  - intros w32 op n. assert (cell n) as Hn by apply bytes_of_cell.
    destruct op.
    1-2: etransitivity; [|by apply cmp_ok]; by destruct w32.
    all: first [ transitivity (DEF_OP_CMP (pop_s n) Z.ltb (l, w)); [by destruct w32|by rewrite cmp_signed_ok]
               | transitivity (DEF_OP_CMP (pop_u n) Z.ltb (l, w)); [by destruct w32|by rewrite cmp_ok]
               | transitivity (DEF_OP_CMP (pop_s n) Z.leb (l, w)); [by destruct w32|by rewrite cmp_signed_ok]
               | transitivity (DEF_OP_CMP (pop_u n) Z.leb (l, w)); [by destruct w32|by rewrite cmp_ok]
               | transitivity (DEF_OP_CMP (pop_s n) Z.gtb (l, w)); [by destruct w32|by rewrite cmp_signed_ok, Z.gtb_ltb]
               | transitivity (DEF_OP_CMP (pop_u n) Z.gtb (l, w)); [by destruct w32|by rewrite cmp_ok, Z.gtb_ltb]
               | transitivity (DEF_OP_CMP (pop_s n) Z.geb (l, w)); [by destruct w32|by rewrite cmp_signed_ok, Z.geb_leb]
               | transitivity (DEF_OP_CMP (pop_u n) Z.geb (l, w)); [by destruct w32|by rewrite cmp_ok, Z.geb_leb] ].
  - intros c. pose proof (bytes_of_cell) as Hc. assert (cell 4) as H4 by by left. assert (cell 8) as H8 by by right.
    destruct c as [w32|w32 op| | | |w32|w32|]; cbn [i_cvt].
    + set (n := bytes_of w32). transitivity (DEF_OP_EQZ (pop_s n) (l, w)); [by destruct w32|].
      unfold DEF_OP_EQZ. rewrite pop1_signed by apply Hc. rewrite swrap_zero; [by apply (push1 n 4)| |].
      * destruct (Hc w32); unfold n; lia.
      * apply operand_range, Hc.
    + assert (handle_op h (i_unop w32 op)
              = DEF_OP_BIT_COUNT (pop_u (bytes_of w32)) (push (bytes_of w32)) (count_op w32 op)) as ->
        by (unfold pop_u, push; destruct w32, op; cbn [count_op i_unop bytes_of Z.eqb Pos.eqb]; reflexivity).
      unfold DEF_OP_BIT_COUNT. rewrite pop1, count_ok by (apply operand_range, Hc || apply Hc).
      by apply push1.
    + transitivity ((let* v := pop_s 8 in op_end (push 4 (int32 (Z.land v 0xFFFFFFFF)))) (l, w)); [done|].
      rewrite pop1_signed by done. apply (push1 8 4); [done|]. cbn [spec_cvt].
      change 0xFFFFFFFF with (Z.ones 32). rewrite Z.land_ones by lia. change (8 * 4) with 32.
      unfold int32.
      rewrite (swrap_mod_le 32 32), Z.mod_mod, (swrap_mod_le 32 (8 * 8)), Z.mod_mod by lia. done.
    + transitivity ((let* v := pop_s 4 in op_end (push 8 (id v))) (l, w)); [done|].
      rewrite pop1_signed by done. by apply (push1 4 8).
    + transitivity ((let* v := pop_s 4 in op_end (push 8 (uint32 v))) (l, w)); [done|].
      rewrite pop1_signed by done. apply (push1 4 8); [done|]. cbn [spec_cvt]. unfold uint32.
      change (8 * 4) with 32. rewrite wrap_swrap by lia. f_equal. apply wrap_small. by apply operand_range.
    + transitivity ((let* v := pop_s (bytes_of w32) in op_end (push (bytes_of w32) (swrap 8 v))) (l, w));
        [by destruct w32|].
      rewrite pop1_signed, swrap_swrap by (apply Hc || destruct w32; simpl; lia). by apply push1.
    + transitivity ((let* v := pop_s (bytes_of w32) in op_end (push (bytes_of w32) (swrap 16 v))) (l, w));
        [by destruct w32|].
      rewrite pop1_signed, swrap_swrap by (apply Hc || destruct w32; simpl; lia). by apply push1.
    + transitivity ((let* v := pop_s 8 in op_end (push 8 (swrap 32 v))) (l, w)); [done|].
      rewrite pop1_signed, swrap_swrap by (done || lia). by apply push1.
Qed.
