(* ===== verification/Branch.v ===== *)
(** Branches: the labels of the frame are popped, the results of the target label
    are moved down to the height of the operand stack at the label, and the run
    goes on at the target, which is found by a search when the label does not
    have it; the three instructions that branch choose the label as the
    specification says. *)
From stdpp Require Import base gmap list numbers strings.
From Stdlib Require Import Strings.Byte ZArith Lia.
From S2P Require Import Prelude CMemory WasmTypes PoolInfo ExecEnv Format Opcodes Leb FindBlock Blocks.
From S2P Require Import Regs Macros DataOps NumericOps Control Interp Sample Steps.

(** * Moving words *)

Lemma store_Z_load m dst src n : 0 <= n →
  store_Z m dst n (load_Z m src n) = store m dst (load m src (Z.to_nat n)).
Proof.
  intros Hn. unfold store_Z, load_Z. f_equal.
  by rewrite <- (length_load m src (Z.to_nat n)) at 1; rewrite le_bytes_Z.
Qed.

Lemma word_copy_ok n : ∀ dst src w, dst <= src ∨ src + 4 * Z.of_nat n <= dst →
  word_copy_n dst src n w = Ok tt (set_mem (store (wmem w) dst (load (wmem w) src (4 * n))) w).
Proof.
  induction n as [|n IH]; intros dst src w Hd.
  - by destruct w.
  - cbn [word_copy_n]. unfold ld, st, gets, modify, mbind at 1 2.
    rewrite store_Z_load by lia. rewrite IH by lia. cbn [wmem set_mem].
    change (Z.to_nat 4) with 4%nat.
    rewrite (load_store_ne _ dst) by (rewrite length_load; lia).
    replace (4 * S n)%nat with (4 + 4 * n)%nat by lia.
    rewrite load_app, store_app, length_load. reflexivity.
Qed.

(** * Labels *)

(** The fields of the label at [L]. *)
Definition label_begin (m : mem) (L : Z) : Z := load_Z m (FLD L WASMBranchBlock "begin_addr") 8.
Definition label_target (m : mem) (L : Z) : Z := load_Z m (FLD L WASMBranchBlock "target_addr") 8.
Definition label_sp (m : mem) (L : Z) : Z := load_Z m (FLD L WASMBranchBlock "frame_sp") 8.
Definition label_cells (m : mem) (L : Z) : Z := load_Z m (FLD L WASMBranchBlock "cell_num") 4.

(** The label [d] below the top of the label stack. *)
Definition label_addr (l : locals) (d : Z) : Z :=
  frame_csp l - d * SIZEOF WASMBranchBlock - SIZEOF WASMBranchBlock.

(** The results of the label, in bytes, and the memory with them moved. *)
Definition results_size (m : mem) (L : Z) : nat := (4 * Z.to_nat (label_cells m L))%nat.
Definition results_moved (m : mem) (L sp : Z) : mem :=
  store m (label_sp m L) (load m (sp - label_cells m L * 4) (results_size m L)).

Definition unwound (l : locals) (m : mem) (d : Z) : locals :=
  let L := label_addr l d in
  set_frame_sp (label_sp m L + label_cells m L * 4)
    (set_frame_ip (label_target m L) (set_frame_csp (L + SIZEOF WASMBranchBlock) l)).

Lemma cells_range m L : 0 <= label_cells m L < 2 ^ 32.
Proof. apply (load_Z_range m _ 4). lia. Qed.

Lemma results_size_Z m L : Z.of_nat (results_size m L) = label_cells m L * 4.
Proof. unfold results_size. pose proof (cells_range m L). lia. Qed.

Lemma pop_csp_n_ok d l w :
  let L := label_addr l d in
  label_sp (wmem w) L + label_cells (wmem w) L * 4 <= frame_sp l →
  POP_CSP_N d (l, w) = Ok tt (unwound l (wmem w) d, set_mem (results_moved (wmem w) L (frame_sp l)) w).
Proof.
  intros L Hsp. unfold POP_CSP_N. rewrite (mbind_ok _ _ _ _ _ (reg_ok _ l w)). cbv beta.
  rewrite (mbind_ok _ _ _ _ _ (reg_ok _ l w)). cbv beta zeta.
  rewrite (mbind_ok _ _ _ _ _ (assign_ok _ _ l w)). cbv beta. fold (label_addr l d). fold L.
  rewrite (mbind_ok _ _ _ _ _ (ldr_ok _ _ _ w)). cbv beta.
  rewrite (mbind_ok _ _ _ _ _ (assign_ok _ _ _ w)). cbv beta.
  rewrite (mbind_ok _ _ _ _ _ (ldr_ok _ _ _ w)). cbv beta.
  rewrite (mbind_ok _ _ _ _ _ (assign_ok _ _ _ w)). cbv beta.
  rewrite (mbind_ok _ _ _ _ _ (ldr_ok _ _ _ w)). cbv beta.
  fold (label_target (wmem w) L) (label_sp (wmem w) L) (label_cells (wmem w) L). pose proof (cells_range (wmem w) L).
  erewrite mbind_ok; [|apply lift_ok, word_copy_ok; lia]. cbv beta.
  unfold unwound. fold L. replace (L + 32) with (frame_csp l - d * 32) by (unfold L, label_addr; lia). reflexivity.
Qed.

(** Where a branch to the label goes: to its target, or to the end of its block
    when it has none yet. *)
Inductive branch_target (l : locals) (w : world) (L : Z) : Z → Prop :=
| known_target : label_target (wmem w) L ≠ NULL → branch_target l w L (label_target (wmem w) L)
| searched_target lo hi x e :
    let cache := FLD (exec_env l) WASMExecEnv "block_addr_cache" in
    label_target (wmem w) L = NULL →
    block_at (wmem w) (label_begin (wmem w) L) x e →
    lo <= label_begin (wmem w) L → e < hi → e < code_end_any →
    code_apart lo hi cache → cache_ok (wmem w) lo hi cache →
    (∀ r, r ∈ [(lo, hi - lo); (cache, 3072); (L, SIZEOF WASMBranchBlock)] →
       disjoint_region (label_sp (wmem w) L, label_cells (wmem w) L * 4) r) →
    branch_target l w L e.

Lemma cache_ok_ext m m' lo hi cache :
  cache_ok m lo hi cache → (∀ a, lo <= a < hi → m' !!! a = m !!! a) →
  (∀ a, cache <= a < cache + 3072 → m' !!! a = m !!! a) → cache_ok m' lo hi cache.
Proof.
  intros Hc Hcode Hcache i j Hi Hj b Hb.
  assert (slot_block m' (slot_at cache i j) = slot_block m (slot_at cache i j)) as E.
  { unfold BLOCK_ADDR_CACHE_SIZE, BLOCK_ADDR_CONFLICT_SIZE in *.
    unfold slot_block, ldp, load_Z. change (Z.to_nat 8) with 8%nat.
    f_equal; f_equal; apply load_ext; intros a Ha; apply Hcache; unfold slot_at in *; lia. }
  unfold b in *. rewrite E in *. destruct (Hc i j Hi Hj Hb) as [? ?]. split; [done|].
  by apply (block_in_ext m).
Qed.

(** The results come from above the height of the label, so moving them does not
    disturb what is apart from them. *)
Lemma moved_outside m L sp : unchanged_outside [(label_sp m L, label_cells m L * 4)] m (results_moved m L sp).
Proof.
  unfold results_moved. pose proof (unchanged_store m (label_sp m L)
    (load m (sp - label_cells m L * 4) (results_size m L))) as H.
  by rewrite length_load, results_size_Z in H.
Qed.

Lemma moved_apart m L sp a n :
  disjoint_region (label_sp m L, label_cells m L * 4) (a, n) →
  ∀ x, a <= x < a + n → results_moved m L sp !!! x = m !!! x.
Proof.
  intros Hd x Hx. apply moved_outside. intros r [<-|[]]. unfold disjoint_region, in_region in *. cbn in *. lia.
Qed.

(** C9: a branch pops the labels above its target, leaves the results of the
    target label on the operand stack at the height the stack had at the label,
    and goes on at the target address, or at the end of the block of a label
    that has no target yet; only the place of the results and the cache of block
    addresses are written. *)
Theorem branch_correct l w d t :
  let L := label_addr l d in
  let sp := label_sp (wmem w) L in
  let n := label_cells (wmem w) L * 4 in
  sp + n <= frame_sp l → branch_target l w L t →
  ∃ l' m', label_pop_csp_n d (l, w) = Ok HANDLE_OP_END (l', set_mem m' w)
    ∧ frame_ip l' = t ∧ frame_csp l' = L + SIZEOF WASMBranchBlock ∧ frame_sp l' = sp + n
    ∧ load m' sp (Z.to_nat n) = load (wmem w) (frame_sp l - n) (Z.to_nat n)
    ∧ unchanged_outside [(sp, n); (FLD (exec_env l) WASMExecEnv "block_addr_cache", 3072)] (wmem w) m'
    ∧ (∃ x e, l' = set_else_addr x (set_end_addr e (set_frame_ip t (unwound l (wmem w) d)))).
Proof.
  intros L sp n Hsp Ht. unfold label_pop_csp_n.
  rewrite (mbind_ok _ _ _ _ _ (pop_csp_n_ok d l w Hsp)). fold L.
  set (m1 := results_moved (wmem w) L (frame_sp l)).
  pose proof (moved_outside (wmem w) L (frame_sp l)) as Hu. fold m1 sp n in Hu.
  assert (load m1 sp (Z.to_nat n) = load (wmem w) (frame_sp l - n) (Z.to_nat n)) as Hl.
  { assert (Z.to_nat n = results_size (wmem w) L) as -> by (unfold n; by rewrite <- results_size_Z, Nat2Z.id).
    apply load_store_eq. by rewrite length_load. }
  rewrite (mbind_ok _ _ _ _ _ (reg_ok _ _ _)). cbv beta. cbn [frame_ip unwound set_frame_sp set_frame_ip].
  fold L. destruct Ht as [Hne|lo hi x e cache E0 Hb Hlo Hhi Hce Ha Hc Hd].
  - destruct (Z.eqb_spec (label_target (wmem w) L) NULL) as [|_]; [done|].
    exists (unwound l (wmem w) d), m1. split_and!; [done|done|done|done|done| |].
    + eapply unchanged_incl; [|exact Hu]. intros r [<-|[]]. by left.
    + by exists (else_addr l), (end_addr l).
  - rewrite E0, Z.eqb_refl. rewrite (mbind_ok _ _ _ _ _ (reg_ok _ _ _)). cbv beta.
    rewrite (mbind_ok _ _ _ _ _ (ldr_ok _ _ _ _)). cbv beta. cbn [frame_csp unwound set_frame_sp set_frame_ip set_frame_csp].
    fold L. replace (L + 32 - 32) with L by lia. cbn [wmem set_mem]. fold (label_begin m1 L).
    assert (∀ a k, (a, k) ∈ [(lo, hi - lo); (cache, 3072); (L, 32)] →
              ∀ y, a <= y < a + k → m1 !!! y = wmem w !!! y) as Hap.
    { intros a k Hin. by apply moved_apart, Hd. }
    assert (label_begin m1 L = label_begin (wmem w) L) as ->.
    { unfold label_begin, load_Z. f_equal. apply load_ext. intros y Hy. apply (Hap L 32); [|lia].
      by do 2 right; left. }
    assert (∀ y, lo <= y < hi → m1 !!! y = wmem w !!! y) as Hcode
      by (intros y Hy; apply (Hap lo (hi - lo)); [by left|lia]).
    unfold find_block. rewrite mbind_assoc, (mbind_ok _ _ _ _ _ (reg_ok _ _ _)). cbv beta.
    destruct (find_block_addr_ok lo hi cache (label_begin (wmem w) L) x e code_end_any LABEL_TYPE_BLOCK
      (set_mem m1 w)) as (o&m2&Ef&_&_&Hu2&_); [done| | |done|done|done|].
    { apply (cache_ok_ext (wmem w)); [done|done|]. intros y Hy. apply (Hap cache 3072); [|lia].
      by right; left. }
    { pose proof (block_at_le _ _ _ _ Hb) as [? _]. apply (block_at_ext (wmem w)); [done| |done].
      intros y Hy. apply Hcode. lia. }
    rewrite mbind_assoc, (mbind_ok _ _ _ _ _ (lift_ok _ _ _ _ _ Ef)). cbv beta iota zeta.
    cbn [wmem set_mem] in Hu2. fold cache in Hu2 |- *.
    exists (set_else_addr (match o with Some y => y | None => else_addr l end)
              (set_end_addr e (set_frame_ip e (unwound l (wmem w) d)))), m2.
    split; [by destruct o|]. split_and!; [done|done|done| | |by eexists _, _].
    + rewrite <- Hl. apply (unchanged_load [(cache, 3072)]); [done|]. intros r [<-|[]].
      assert (Z.of_nat (Z.to_nat n) = n) as -> by (unfold n; pose proof (cells_range (wmem w) L); lia).
      specialize (Hd (cache, 3072) ltac:(by right; left)). unfold disjoint_region in *. cbn in *. fold sp n in Hd. lia.
    + by apply (unchanged_trans [_] [_] _ m1).
Qed.

(** A label without a target at 20000 for the block of [sample_code], the height of
    the stack there 30000 and one result, which is at 30012 under the top. *)
Definition br_mem : mem :=
  foldl put_word sample_code
    [(FLD 20000 WASMBranchBlock "cell_num", 4, 1); (FLD 20000 WASMBranchBlock "begin_addr", 8, 4096);
     (FLD 20000 WASMBranchBlock "frame_sp", 8, 30000); (30012, 4, 77)].
Definition br_locals : locals :=
  set_frame_csp 20064 (set_frame_sp 30016
    (mkLocals 0 (8192 - (FLD 0 WASMExecEnv "block_addr_cache")) 0 0 0 0 0 0 0 0 0 0 0 0 0 0 0 0 0 0 0 0 0 0 0
       0 0 0 0 0 0 0 0 0 0 0 0 0 0 0 0 0)).

Lemma br_mem_low a : 0 <= a < 20000 → br_mem !!! a = sample_code !!! a.
Proof.
  intros Ha. unfold br_mem. cbn [foldl put_word]. unfold store_Z.
  rewrite !store_out by (rewrite length_le_bytes; lia). done.
Qed.

Lemma branch_correct_witness :
  ∃ l' m', label_pop_csp_n 1 (br_locals, set_mem br_mem sample_code_world)
           = Ok HANDLE_OP_END (l', set_mem m' (set_mem br_mem sample_code_world))
    ∧ frame_ip l' = 4106 ∧ frame_csp l' = 20032 ∧ frame_sp l' = 30004 ∧ load m' 30000 4 = le_bytes 4 77.
Proof.
  assert (label_addr br_locals 1 = 20000) as EL by reflexivity.
  assert (label_sp br_mem 20000 = 30000) as Esp by (by vm_compute).
  assert (label_cells br_mem 20000 = 1) as Ec by (by vm_compute).
  assert (label_begin br_mem 20000 = 4096) as Eb by (by vm_compute).
  destruct (branch_correct br_locals (set_mem br_mem sample_code_world) 1 4106)
    as (l'&m'&H1&H2&H3&H4&H5&_); cbn [wmem set_mem] in *; rewrite ?EL, ?Esp, ?Ec in *.
  - by vm_compute.
  - apply (searched_target _ _ _ 4096 4107 NULL); cbn [wmem set_mem]; rewrite ?Esp, ?Ec, ?Eb.
    + by vm_compute.
    + apply (block_at_ext sample_code); [apply sample_block| |done]. intros a Ha. apply br_mem_low. lia.
    + done.
    + done.
    + by vm_compute.
    + constructor; vm_compute; by (done || left || right).
    + change (FLD (exec_env br_locals) WASMExecEnv "block_addr_cache") with 8192.
      apply (cache_ok_ext sample_code); [apply sample_cache_ok|intros a Ha; apply br_mem_low; lia..].
    + intros r Hr. rewrite list_elem_of_In in Hr. destruct Hr as [<-|[<-|[<-|[]]]]; right; by vm_compute.
  - exists l', m'. split_and!; [done..|]. etransitivity; [exact H5|]. by vm_compute.
Defined.

(** * Which label *)

(** The integers from [p] on, each as the loader accepts it. *)
Inductive labels_at (m : mem) : Z → list Z → Prop :=
| labels_nil p : labels_at m p []
| labels_cons p bs ds : leb_string bs → bytes_at m p bs → (length bs <= 5)%nat → leb_value bs < 2 ^ 32 →
    labels_at m (p + Z.of_nat (length bs)) ds → labels_at m p (leb_value bs :: ds).

Lemma labels_head m p d ds : labels_at m p (d :: ds) →
  ∃ q, leb_uint32 m p = Some (d, q) ∧ skip_leb m p = Some q ∧ labels_at m q ds.
Proof.
  intros H. inversion H as [|p' bs ds' Hs Hm Hl Hv Ht]; subst. exists (p + Z.of_nat (length bs)).
  rewrite (leb_uint32_ok m p bs), (skip_leb_ok m p bs) by (done || lia).
  pose proof (leb_value_bound bs). unfold uint32. by rewrite wrap_small by lia.
Qed.

(** Skipping the first [k] labels, with [i] counting them. *)
Lemma skip_labels_loop w ds : ∀ k i l, (k < length ds)%nat → labels_at (wmem w) (frame_ip l) ds →
  ∃ q j, mfor (seqZ i (Z.of_nat k)) (fun i => assign set_i i ;;; skip_leb_ip) (l, w)
         = Ok tt (set_i j (set_frame_ip q l), w)
    ∧ labels_at (wmem w) q (drop k ds).
Proof.
  induction ds as [|d ds IH]; intros k i l Hk Hl; [simpl in Hk; lia|].
  destruct (labels_head _ _ _ _ Hl) as (q&_&Hq&Ht). destruct k as [|k].
  { exists (frame_ip l), (i_ l). split; [by destruct l|done]. }
  rewrite seqZ_cons by lia. cbn [mfor]. rewrite mbind_assoc, (mbind_ok _ _ _ _ _ (assign_ok _ _ l w)). cbv beta.
  assert (skip_leb_ip (set_i i l, w) = Ok tt (set_frame_ip q (set_i i l), w)) as Es.
  { unfold skip_leb_ip. rewrite (mbind_ok _ _ _ _ _ (reg_ok _ _ w)). unfold gets, mbind at 1.
    cbn [fst snd frame_ip set_i]. by rewrite Hq. }
  rewrite (mbind_ok _ _ _ _ _ Es). cbv beta.
  replace (Z.pred (Z.of_nat (S k))) with (Z.of_nat k) by lia.
  destruct (IH k (Z.succ i) (set_frame_ip q (set_i i l))) as (q'&j&->&Hd); [simpl in Hk; lia|done|].
  by exists q', j.
Qed.

(** The label that [br_table] takes for the operand [x]: the last one is for all
    operands beyond the others. *)
Definition table_label (ds : list Z) (x : Z) : Z :=
  ds !!! Nat.min (Z.to_nat x) (length ds - 1).

Definition after_table (l : locals) (n k q d : Z) : locals :=
  set_depth d (set_i k (set_lidx k (set_frame_sp (frame_sp l - 4) (set_count n (set_frame_ip q l))))).

(** C27: [br] takes the label of its immediate; [br_if] takes it when its operand is
    not zero and goes on behind it otherwise; [br_table] takes the label its
    operand selects from the table, the last one when it is out of range. *)
Theorem branch_selects h l w cs ds :
  leb_string cs → bytes_at (wmem w) (frame_ip l) cs → (length cs <= 5)%nat → leb_value cs < 2 ^ 32 →
  let d := leb_value cs in
  let q := frame_ip l + Z.of_nat (length cs) in
  let x := load_Z (wmem w) (frame_sp l - 4) 4 in
  handle_op h WASM_OP_BR (l, w) = label_pop_csp_n d (set_depth d (set_frame_ip q l), w)
  ∧ handle_op h WASM_OP_BR_IF (l, w)
    = (let l1 := set_cond x (set_frame_sp (frame_sp l - 4) (set_depth d (set_frame_ip q l))) in
       if x =? 0 then Ok HANDLE_OP_END (l1, w) else label_pop_csp_n d (l1, w))
  ∧ (Z.of_nat (length ds) = d + 1 → labels_at (wmem w) q ds →
     ∃ q', handle_op h WASM_OP_BR_TABLE (l, w)
           = label_pop_csp_n (table_label ds x) (after_table l d (Z.min x d) q' (table_label ds x), w)).
Proof.
  intros Hs Hm Hlen Hv d q x.
  assert (leb_uint32 (wmem w) (frame_ip l) = Some (d, q)) as Ed.
  { rewrite (leb_uint32_ok _ _ cs) by (done || lia). pose proof (leb_value_bound cs). unfold uint32.
    by rewrite wrap_small by lia. }
  assert (read_depth (l, w) = Ok d (set_depth d (set_frame_ip q l), w)) as Er.
  { unfold read_depth. by rewrite (mbind_ok _ _ _ _ _ (read_uint32_ok _ _ _ _ Ed)). }
  assert (0 <= x < 2 ^ 32) as Hx by apply (operand_range _ _ 4), or_introl, eq_refl.
  assert (∀ l1, frame_sp l1 = frame_sp l → POP_I32 (l1, w) = Ok (swrap 32 x) (set_frame_sp (frame_sp l - 4) l1, w)) as Ep.
  { intros l1 E. pose proof (pop_s_ok 4 l1 w (or_introl eq_refl)) as H. by rewrite E in H. }
  split_and!.
  - change (handle_op h WASM_OP_BR) with (let* depth := read_depth in label_pop_csp_n depth).
    by rewrite (mbind_ok _ _ _ _ _ Er).
  - change (handle_op h WASM_OP_BR_IF) with handle_br_if. unfold handle_br_if.
    rewrite (mbind_ok _ _ _ _ _ Er). cbv beta. rewrite (mbind_ok _ _ _ _ _ (Ep (set_depth d (set_frame_ip q l)) eq_refl)). cbv beta.
    rewrite (mbind_ok _ _ _ _ _ (assign_ok _ _ _ w)). cbv beta zeta. unfold uint32.
    rewrite wrap_swrap, wrap_small by (done || lia). by destruct (x =? 0).
  - intros Hn Ht. change (handle_op h WASM_OP_BR_TABLE) with handle_br_table. unfold handle_br_table.
    rewrite (mbind_ok _ _ _ _ _ (read_uint32_ok _ _ _ _ Ed)). cbv beta.
    rewrite (mbind_ok _ _ _ _ _ (assign_ok _ _ _ w)). cbv beta.
    rewrite (mbind_ok _ _ _ _ _ (Ep (set_count d (set_frame_ip q l)) eq_refl)). cbv beta zeta. unfold uint32.
    rewrite wrap_swrap, wrap_small by (done || lia).
    assert ((if d <? x then d else x) = Z.min x d) as -> by (destruct (Z.ltb_spec d x); lia).
    rewrite (mbind_ok _ _ _ _ _ (assign_ok _ _ _ w)). cbv beta.
    pose proof (leb_value_bound cs) as Hd. fold d in Hd.
    set (k := Z.to_nat (Z.min x d)). assert (Z.min x d = Z.of_nat k) as Ek by (unfold k; lia). rewrite Ek.
    set (l1 := set_lidx _ _).
    destruct (skip_labels_loop w ds k 0 l1) as (q1&j&E1&H1); [lia|exact Ht|].
    rewrite (mbind_ok _ _ _ _ _ E1). cbv beta. rewrite (mbind_ok _ _ _ _ _ (assign_ok _ _ _ w)). cbv beta.
    assert (ds !! k = Some (table_label ds x)) as Elk.
    { unfold table_label. replace (Nat.min (Z.to_nat x) (length ds - 1)) with k by (unfold k; lia).
      apply list_lookup_lookup_total_lt. lia. }
    rewrite (drop_S _ _ _ Elk) in H1. destruct (labels_head _ _ _ _ H1) as (q2&E2&_&_).
    unfold read_depth. rewrite mbind_assoc, (mbind_ok _ _ _ _ _ (read_uint32_ok (set_i _ (set_i j (set_frame_ip q1 l1))) w _ _ E2)).
    cbv beta. rewrite mbind_assoc, (mbind_ok _ _ _ _ _ (assign_ok _ _ _ w)). cbv beta. by exists q2.
Qed.

(** [br_table 3 1 0], a table of two labels and the rest, with the operand 1. *)
Definition tbl_world (op : WASMOpcode) : world :=
  set_mem (foldl put_word (store ∅ 7000 (map Z_byte [2; 3; 1; 0])) [(6000, 4, 1)]) s_world.

Lemma branch_selects_witness :
  let l := set_frame_sp 6004 (set_frame_ip 7000 no_locals) in
  ∃ q, handle_op s_host WASM_OP_BR_TABLE (l, tbl_world WASM_OP_BR_TABLE)
       = label_pop_csp_n 1 (after_table l 2 1 q 1, tbl_world WASM_OP_BR_TABLE).
Proof.
  intros l. assert (∀ b : Z, 0 <= b < 128 → leb_string [b]) as Hb by (intros; by constructor).
  destruct (branch_selects s_host l (tbl_world WASM_OP_BR_TABLE) [2] [3; 1; 0]) as (_&_&H);
    [apply Hb; lia|by vm_compute|simpl; lia|by vm_compute|].
  destruct H as (q&H); [done| |by exists q].
  apply (labels_cons _ _ [3]); [apply Hb; lia|by vm_compute|simpl; lia|by vm_compute|].
  apply (labels_cons _ _ [1]); [apply Hb; lia|by vm_compute|simpl; lia|by vm_compute|].
  apply (labels_cons _ _ [0]); [apply Hb; lia|by vm_compute|simpl; lia|by vm_compute|constructor].
Defined.
