(* ===== verification/Functions.v ===== *)
(** The functions of a module in memory, and facts that stay when words apart from
    them are written: regions, the fields of a function, the size of its frame. *)
From stdpp Require Import base gmap list numbers strings.
From Stdlib Require Import Strings.Byte ZArith Lia.
From S2P Require Import Prelude CMemory WasmTypes PoolInfo Table ExecEnv Memory MemGrow Format Opcodes Leb.
From S2P Require Import Dump Regs Macros DataOps NumericOps Control Interp Steps.

(** * Memory apart from what is written *)

(** A write of [n] bytes inside one of the regions [rs]. *)
Definition covered (a n : Z) (rs : list region) : Prop :=
  ∃ r, In r rs ∧ r.1 <= a ∧ a + n <= r.1 + r.2.

Lemma covered_head a n b k rs : b <= a → a + n <= b + k → covered a n ((b, k) :: rs).
Proof. intros. exists (b, k). split; [by left|done]. Qed.

Lemma covered_tail a n r rs : covered a n rs → covered a n (r :: rs).
Proof. intros (s&H1&H2). exists s. split; [by right|done]. Qed.

Lemma unchanged_put rs m m' a bs n :
  unchanged_outside rs m m' → Z.of_nat (length bs) = n → covered a n rs →
  unchanged_outside rs m (store m' a bs).
Proof.
  intros Hu Hn (r&Hr&Ha&Hb). eapply unchanged_incl;
    [|eapply unchanged_trans; [exact Hu|eapply (unchanged_weaken [(a, n)] [r])]].
  - intros s [Hs|[<-|[]]]%in_app_iff; done.
  - intros x s [<-|[]] Hx. exists r. split; [by left|]. unfold in_region in *. cbn in *. lia.
  - rewrite <- Hn. apply unchanged_store.
Qed.

Lemma unchanged_put_Z rs m m' a n v :
  unchanged_outside rs m m' → 0 <= n → covered a n rs → unchanged_outside rs m (store_Z m' a n v).
Proof.
  intros Hu Hn Hc. eapply unchanged_put; [exact Hu| |exact Hc]. rewrite length_le_bytes. lia.
Qed.

Lemma unchanged_comp rs m m' m'' :
  unchanged_outside rs m m' → unchanged_outside rs m' m'' → unchanged_outside rs m m''.
Proof.
  intros H1 H2. eapply unchanged_incl; [|by eapply unchanged_trans]. by intros r [Hr|Hr]%in_app_iff.
Qed.

(** A word apart from all of [rs]. *)
Definition apart (a n : Z) (rs : list region) : Prop := ∀ r, In r rs → disjoint_region r (a, n).

Lemma apart_sub a n b k rs : b <= a → a + n <= b + k → 0 <= n → apart b k rs → apart a n rs.
Proof. intros ??? H r Hr. specialize (H r Hr). unfold disjoint_region in *. cbn in *. lia. Qed.

Lemma unchanged_word rs m m' a n : unchanged_outside rs m m' → 0 <= n → apart a n rs →
  load_Z m' a n = load_Z m a n.
Proof.
  intros Hu Hn Ha. unfold load_Z. f_equal. apply (unchanged_load rs); [done|]. intros r Hr.
  rewrite Z2Nat.id by done. by apply Ha.
Qed.

(** The regions of a list are apart from a word, by computation. *)
Definition apartb (a n : Z) (rs : list region) : bool :=
  forallb (fun r => (r.1 + r.2 <=? a) || (a + n <=? r.1)) rs.

Lemma apartb_ok a n rs : apartb a n rs = true → apart a n rs.
Proof.
  unfold apartb. rewrite forallb_forall. intros H r Hr. specialize (H r Hr).
  apply orb_prop in H. unfold disjoint_region. cbn. destruct H; zbool; lia.
Qed.

(** Reads through the writes before. *)
Ltac mem_read :=
  repeat first [rewrite load_store_Z_ne by lia
    | rewrite load_Z_store_ne by (rewrite ?length_replicate; lia)
    | rewrite load_store_Z_eq by lia].

(** * Functions *)

(** Fields of a function: its results in cells, and the end of its code. *)
Definition fn_rets (m : mem) (f : Z) : Z := load_Z m (FLD f WASMFunctionInstance "ret_cell_num") 2.
Definition fn_import (m : mem) (f : Z) : Z := load_Z m (FLD f WASMFunctionInstance "is_import_func") 1.
Definition fn_body (m : mem) (f : Z) : Z := ldp m (FLD f WASMFunctionInstance "u.func").
Definition fn_code (m : mem) (f : Z) : Z := ldp m (FLD (fn_body m f) WASMFunction "code").
Definition fn_code_end (m : mem) (f : Z) : Z :=
  fn_code m f + load_Z m (FLD (fn_body m f) WASMFunction "code_size") 4.

(** What is read of a function of the module is apart from [rs]. *)
Record fn_apart (m : mem) (f : Z) (rs : list region) : Prop := {
  fa_inst : apart f (SIZEOF WASMFunctionInstance) rs;
  fa_body : apart (fn_body m f) (SIZEOF WASMFunction) rs
}.

Section Kept.
Context (m m' : mem) (f : Z) (rs : list region).
Hypothesis Hu : unchanged_outside rs m m'.
Hypothesis Hf : fn_apart m f rs.

Lemma fn_word_kept o n : 0 <= o → 0 <= n → o + n <= SIZEOF WASMFunctionInstance →
  load_Z m' (f + o) n = load_Z m (f + o) n.
Proof. intros. apply (unchanged_word rs); [done..|]. eapply apart_sub; [| | |apply (fa_inst _ _ _ Hf)]; lia. Qed.

Lemma fn_body_kept : fn_body m' f = fn_body m f.
Proof. apply fn_word_kept; lia. Qed.

Lemma body_word_kept o n : 0 <= o → 0 <= n → o + n <= SIZEOF WASMFunction →
  load_Z m' (fn_body m f + o) n = load_Z m (fn_body m f + o) n.
Proof. intros. apply (unchanged_word rs); [done..|]. eapply apart_sub; [| | |apply (fa_body _ _ _ Hf)]; lia. Qed.

Lemma fn_code_kept : fn_code m' f = fn_code m f.
Proof. unfold fn_code. rewrite fn_body_kept. apply body_word_kept; lia. Qed.

Lemma fn_code_end_kept : fn_code_end m' f = fn_code_end m f.
Proof. unfold fn_code_end. rewrite fn_code_kept, fn_body_kept. f_equal. apply body_word_kept; lia. Qed.
End Kept.

Lemma code_end_ok f w : fn_import (wmem w) f = 0 →
  wasm_get_func_code_end f w = Ok (fn_code_end (wmem w) f) w.
Proof.
  intros E. unfold wasm_get_func_code_end, ld, gets, mbind at 1.
  fold (fn_import (wmem w) f). by rewrite E.
Qed.

Lemma code_ok f w : fn_import (wmem w) f = 0 → wasm_get_func_code f w = Ok (fn_code (wmem w) f) w.
Proof.
  intros E. unfold wasm_get_func_code, ld, gets, mbind at 1.
  fold (fn_import (wmem w) f). by rewrite E.
Qed.

Definition fn_params (m : mem) (f : Z) : Z := load_Z m (FLD f WASMFunctionInstance "param_cell_num") 2.
Definition fn_locals (m : mem) (f : Z) : Z := load_Z m (FLD f WASMFunctionInstance "local_cell_num") 2.
Definition fn_stack (m : mem) (f : Z) : Z := load_Z m (FLD (fn_body m f) WASMFunction "max_stack_cell_num") 4.
Definition fn_blocks (m : mem) (f : Z) : Z := load_Z m (FLD (fn_body m f) WASMFunction "max_block_num") 4.

(** The frame of [f] at [T]: locals, operand stack, labels. *)
Definition locals_at (T : Z) : Z := FLD T WASMInterpFrame "lp".
Definition operands_at (m : mem) (f T : Z) : Z := locals_at T + (fn_params m f + fn_locals m f) * 4.
Definition labels_base (m : mem) (f T : Z) : Z := operands_at m f T + fn_stack m f * 4.

Lemma fn_fields_range m f :
  0 <= fn_params m f < 2 ^ 16 ∧ 0 <= fn_locals m f < 2 ^ 16 ∧ 0 <= fn_stack m f < 2 ^ 32
  ∧ 0 <= fn_blocks m f < 2 ^ 32.
Proof.
  split_and!; try (apply (load_Z_range m _ 2); lia); apply (load_Z_range m _ 4); lia.
Qed.

Section KeptSizes.
Context (m m' : mem) (f : Z) (rs : list region).
Hypothesis Hu : unchanged_outside rs m m'.
Hypothesis Hf : fn_apart m f rs.

Lemma fn_params_kept : fn_params m' f = fn_params m f.
Proof. apply (fn_word_kept m m' f rs); done || lia. Qed.
Lemma fn_locals_kept : fn_locals m' f = fn_locals m f.
Proof. apply (fn_word_kept m m' f rs); done || lia. Qed.
Lemma fn_stack_kept : fn_stack m' f = fn_stack m f.
Proof. unfold fn_stack. rewrite (fn_body_kept m m' f rs) by done. apply (body_word_kept m m' f rs); done || lia. Qed.
Lemma fn_blocks_kept : fn_blocks m' f = fn_blocks m f.
Proof. unfold fn_blocks. rewrite (fn_body_kept m m' f rs) by done. apply (body_word_kept m m' f rs); done || lia. Qed.
Lemma fn_import_kept : fn_import m' f = fn_import m f.
Proof. apply (fn_word_kept m m' f rs); done || lia. Qed.
End KeptSizes.
