(* ===== verification/Returns.v ===== *)
(** A return of the interpreter gives the frame of the function back, moves its
    results to the operand stack of the caller and restores the caller's registers. *)
From stdpp Require Import base gmap list numbers strings.
From Stdlib Require Import Strings.Byte ZArith Lia.
From S2P Require Import Prelude CMemory WasmTypes PoolInfo Table ExecEnv Memory MemGrow Format Opcodes Leb.
From S2P Require Import Dump Regs Macros DataOps NumericOps Control Interp Sample Steps Functions.

(** * Returns *)

(** The results go word by word to where the caller's [sp] points. *)
Definition return_cell (sp c i : Z) : R unit :=
  assign set_i i ;;;
  let* v := ldr 4 (sp + i * 4) in
  let* prev_sp := ldr 8 (FLD c WASMInterpFrame "sp") in
  str 8 (FLD c WASMInterpFrame "sp") (prev_sp + 4) ;;;
  str 4 prev_sp v.

Lemma return_cells_ok sp c : ∀ n k l w,
  let q := ldp (wmem w) (FLD c WASMInterpFrame "sp") in
  FLD c WASMInterpFrame "sp" + 8 <= q → q + 4 * Z.of_nat n <= sp + k * 4 → q + 4 * Z.of_nat n < 2 ^ 64 →
  ∃ j m', mfor (seqZ k (Z.of_nat n)) (return_cell sp c) (l, w) = Ok tt (set_i j l, set_mem m' w)
    ∧ ldp m' (FLD c WASMInterpFrame "sp") = q + 4 * Z.of_nat n
    ∧ load m' q (4 * n) = load (wmem w) (sp + k * 4) (4 * n)
    ∧ unchanged_outside [(q, 4 * Z.of_nat n); (FLD c WASMInterpFrame "sp", 8)] (wmem w) m'.
Proof.
  induction n as [|n IH]; intros k l w q Hc Hq Hsp.
  { exists (i_ l), (wmem w). split; [by destruct l, w|]. split; [unfold q; lia|]. split; [done|]. apply unchanged_refl. }
  rewrite seqZ_cons by lia. cbn [mfor]. unfold return_cell at 1. rewrite mbind_assoc.
  rewrite (mbind_ok _ _ _ _ _ (assign_ok _ _ l w)). cbv beta. rewrite mbind_assoc.
  rewrite (mbind_ok _ _ _ _ _ (ldr_ok _ _ _ w)). cbv beta. rewrite mbind_assoc.
  rewrite (mbind_ok _ _ _ _ _ (ldr_ok _ _ _ w)). cbv beta. fold (ldp (wmem w) (FLD c WASMInterpFrame "sp")). fold q.
  rewrite mbind_assoc, (mbind_ok _ _ _ _ _ (str_ok _ _ _ _ w)). cbv beta.
  rewrite (mbind_ok _ _ _ _ _ (str_ok _ _ _ _ _)). cbv beta. cbn [wmem set_mem].
  set (p := FLD c WASMInterpFrame "sp") in *. set (m1 := store_Z (wmem w) p 8 (q + 4)).
  set (m2 := store_Z m1 q 4 _). pose proof (load_Z_range (wmem w) p 8) as Hr. fold (ldp (wmem w) p) q in Hr.
  assert (ldp m2 p = q + 4) as E2.
  { unfold m2, m1, ldp. rewrite load_store_Z_ne, load_store_Z_eq by lia. apply Z.mod_small. lia. }
  assert (unchanged_outside [(q, 4 * Z.of_nat (S n)); (p, 8)] (wmem w) m2) as Hu2.
  { unfold m2, m1. apply unchanged_put_Z; [|lia|apply covered_head; lia].
    apply unchanged_put_Z; [apply unchanged_refl|lia|apply covered_tail, covered_head; lia]. }
  replace (Z.pred (Z.of_nat (S n))) with (Z.of_nat n) by lia.
  destruct (IH (Z.succ k) (set_i k l) (set_mem m2 (set_mem m1 w))) as (j&m'&->&H1&H2&H3);
    cbn [wmem set_mem]; fold (ldp m2 p); rewrite ?E2; [lia..|].
  cbn [wmem set_mem] in H1, H2, H3. rewrite E2 in H1, H2, H3.
  exists j, m'. split; [done|]. split; [lia|]. split.
  - replace (4 * S n)%nat with (4 + 4 * n)%nat by lia. rewrite !load_app. f_equal.
    + rewrite (unchanged_load [(q + 4, 4 * Z.of_nat n); (p, 8)] m2 m') by
        (done || intros r [<-|[<-|[]]]; unfold disjoint_region; cbn; lia).
      unfold m2. rewrite <- (le_bytes_Z (load (wmem w) _ 4)). unfold store_Z.
      rewrite load_store_eq by (by rewrite length_le_bytes). by rewrite length_load.
    + change (Z.of_nat 4) with 4. rewrite H2. replace (sp + Z.succ k * 4) with (sp + k * 4 + 4) by lia.
      apply (unchanged_load [(q, 4); (p, 8)]).
      * unfold m2, m1. apply unchanged_put_Z; [|lia|apply covered_head; lia].
        apply unchanged_put_Z; [apply unchanged_refl|lia|apply covered_tail, covered_head; lia].
      * intros r [<-|[<-|[]]]; unfold disjoint_region; cbn; lia.
  - eapply unchanged_weaken; [|eapply unchanged_trans; [exact Hu2|exact H3]].
    intros x r Hr' Hx. destruct Hr' as [<-|[<-|[<-|[<-|[]]]]]; unfold in_region in *; cbn in *.
    1,3: exists (q, 4 * Z.of_nat (S n)); split; [by left|cbn; lia].
    all: exists (p, 8); split; [by right; left|cbn; lia].
Qed.

(** The caller [c] of the function that runs, and what a return writes. *)
Definition caller_sp (l : locals) (w : world) : Z := ldp (wmem w) (FLD (prev_frame l) WASMInterpFrame "sp").
Definition return_words (l : locals) (w : world) : list region :=
  [(caller_sp l w, 4 * fn_rets (wmem w) (cur_func l)); (FLD (prev_frame l) WASMInterpFrame "sp", 8)]
  ++ env_words (exec_env l).

Record returning (l : locals) (w : world) (root : list Pool_Info) : Prop := {
  rt_env : stack_bottom (exec_env l) <= prev_frame l;
  rt_low : FLD (prev_frame l) WASMInterpFrame "lp" <= caller_sp l w;
  rt_fits : caller_sp l w + 4 * fn_rets (wmem w) (cur_func l) <= frame l;
  rt_frame : 0 <= frame l < 2 ^ 64;
  rt_sp : FLD (frame l) WASMInterpFrame "lp" <= frame_sp l - 4 * fn_rets (wmem w) (cur_func l);
  rt_caller : 0 <= prev_frame l;
  rt_ip : ldp (wmem w) (FLD (prev_frame l) WASMInterpFrame "ip") ≠ NULL;
  rt_code : fn_import (wmem w) (ldp (wmem w) (FLD (prev_frame l) WASMInterpFrame "function")) = 0;
  rt_apart : fn_apart (wmem w) (ldp (wmem w) (FLD (prev_frame l) WASMInterpFrame "function")) (return_words l w);
  rt_node : remove_raw (frame l) (root_info w) = Some root
}.

(** The registers of the caller, from its frame [c] in [m]. *)
Definition recovered (m : mem) (c : Z) (l : locals) : locals :=
  let f := ldp m (FLD c WASMInterpFrame "function") in
  set_frame_csp (ldp m (FLD c WASMInterpFrame "csp"))
    (set_frame_sp (ldp m (FLD c WASMInterpFrame "sp"))
      (set_frame_lp (FLD c WASMInterpFrame "lp")
        (set_frame_ip_end (fn_code_end m f)
          (set_frame_ip (ldp m (FLD c WASMInterpFrame "ip"))
            (set_prev_frame (ldp m (FLD c WASMInterpFrame "prev_frame"))
              (set_cur_func f (set_frame c l))))))).

Lemma recover_ok c l w : fn_import (wmem w) (ldp (wmem w) (FLD c WASMInterpFrame "function")) = 0 →
  RECOVER_CONTEXT c (l, w) = Ok tt (recovered (wmem w) c l, w).
Proof.
  intros E. unfold RECOVER_CONTEXT, RECOVER_FRAME_IP_END.
  rewrite (mbind_ok _ _ _ _ _ (assign_ok _ _ l w)). cbv beta.
  rewrite (mbind_ok _ _ _ _ _ (ldr_ok _ _ _ w)). cbv beta. fold (ldp (wmem w) (FLD c WASMInterpFrame "function")).
  set (f := ldp (wmem w) (FLD c WASMInterpFrame "function")) in *.
  rewrite (mbind_ok _ _ _ _ _ (assign_ok _ _ _ w)). cbv beta.
  rewrite (mbind_ok _ _ _ _ _ (ldr_ok _ _ _ w)). cbv beta.
  rewrite (mbind_ok _ _ _ _ _ (assign_ok _ _ _ w)). cbv beta.
  rewrite (mbind_ok _ _ _ _ _ (ldr_ok _ _ _ w)). cbv beta.
  rewrite (mbind_ok _ _ _ _ _ (assign_ok _ _ _ w)). cbv beta. rewrite mbind_assoc.
  rewrite (mbind_ok _ _ _ _ _ (reg_ok _ _ w)). cbv beta. cbn [cur_func set_frame_ip set_prev_frame set_cur_func].
  rewrite mbind_assoc, (mbind_ok _ _ _ _ _ (lift_ok _ _ _ _ _ (code_end_ok f w E))). cbv beta.
  rewrite (mbind_ok _ _ _ _ _ (assign_ok _ _ _ w)). reflexivity.
Qed.

(** [return_values], with the results at [frame_sp] less their size. *)
Lemma return_values_ok l w root : returning l w root →
  let n := 4 * fn_rets (wmem w) (cur_func l) in
  let q := caller_sp l w in
  ∃ j m', return_values (l, w) = Ok return_func (set_i j (set_frame_sp (frame_sp l - n) l), set_mem m' w)
    ∧ ldp m' (FLD (prev_frame l) WASMInterpFrame "sp") = q + n
    ∧ load m' q (Z.to_nat n) = load (wmem w) (frame_sp l - n) (Z.to_nat n)
    ∧ unchanged_outside [(q, n); (FLD (prev_frame l) WASMInterpFrame "sp", 8)] (wmem w) m'.
Proof.
  intros [? ? Hfit ? Hsp ? ? ? ? ?] n q. unfold return_values.
  set (R := fn_rets (wmem w) (cur_func l)) in *. assert (0 <= R) by (apply (load_Z_range (wmem w) _ 2); lia).
  rewrite (mbind_ok _ _ _ _ _ (reg_ok _ l w)). cbv beta.
  rewrite (mbind_ok _ _ _ _ _ (ldr_ok _ _ l w)). cbv beta. fold (fn_rets (wmem w) (cur_func l)). fold R.
  unfold POP. rewrite mbind_assoc, (mbind_ok _ _ _ _ _ (reg_ok _ l w)). cbv beta.
  rewrite (mbind_ok _ _ _ _ _ (assign_ok _ _ l w)). cbv beta.
  rewrite (mbind_ok _ _ _ _ _ (reg_ok _ _ w)). cbv beta.
  rewrite (mbind_ok _ _ _ _ _ (reg_ok _ _ w)). cbv beta. cbn [frame_sp prev_frame set_frame_sp].
  destruct (return_cells_ok (frame_sp l - R * 4) (prev_frame l) (Z.to_nat R) 0
    (set_frame_sp (frame_sp l - R * 4) l) w) as (j&m'&E&H1&H2&H3); fold (caller_sp l w); fold q; rewrite ?Z2Nat.id by lia.
  - unfold q. lia.
  - unfold q. lia.
  - unfold q. lia.
  - fold (caller_sp l w) in H1, H2, H3. fold q in H1, H2, H3. rewrite Z2Nat.id in E, H1, H3 by lia.
    unfold return_cell in E. rewrite (mbind_ok _ _ _ _ _ E). cbv beta.
    rewrite (mbind_ok _ _ _ _ _ (assign_ok _ _ _ _)). cbv beta. unfold mret.
    exists R, m'. split_and!.
    + replace (frame_sp l - n) with (frame_sp l - R * 4) by (unfold n; lia). reflexivity.
    + unfold n. exact H1.
    + replace (Z.to_nat n) with (4 * Z.to_nat R)%nat by (unfold n; lia). rewrite H2.
      f_equal. unfold n. lia.
    + exact H3.
Qed.

Lemma at_return_ok h l w root :
  let c := prev_frame l in
  remove_raw (frame l) (root_info w) = Some root →
  let m1 := store_Z (wmem w) (FLD (exec_env l) WASMExecEnv "wasm_stack.s.top") 8 (frame l) in
  let m' := store_Z m1 (FLD (exec_env l) WASMExecEnv "cur_frame") 8 c in
  ldp m' (FLD c WASMInterpFrame "ip") ≠ NULL →
  fn_import m' (ldp m' (FLD c WASMInterpFrame "function")) = 0 →
  follow h return_func (l, w) = Ok Next (recovered m' c l, set_root_info root (set_mem m' w)).
Proof.
  intros c Hroot m1 m' Hip Hf. cbn [follow]. unfold at_return_func.
  do 3 (rewrite (mbind_ok _ _ _ _ _ (reg_ok _ l w)); cbv beta). fold c.
  assert (FREE_FRAME (exec_env l) (frame l) w = Ok tt (set_root_info root (set_mem m1 w))) as Ef.
  { unfold FREE_FRAME. erewrite mbind_ok by reflexivity. unfold free_info. cbn [root_info set_mem]. by rewrite Hroot. }
  rewrite (mbind_ok _ _ _ _ _ (lift_ok _ _ _ _ _ Ef)). cbv beta.
  set (w' := set_root_info root (set_mem m' w)).
  assert (wasm_exec_env_set_cur_frame (exec_env l) c (set_root_info root (set_mem m1 w)) = Ok tt w') as Es by reflexivity.
  rewrite (mbind_ok _ _ _ _ _ (lift_ok _ _ _ _ _ Es)). cbv beta.
  rewrite (mbind_ok _ _ _ _ _ (ldr_ok _ _ l w')). cbv beta. change (wmem w') with m'.
  fold (ldp m' (FLD c WASMInterpFrame "ip")). destruct (Z.eqb_spec (ldp m' (FLD c WASMInterpFrame "ip")) NULL); [done|].
  rewrite (mbind_ok _ _ _ _ _ (recover_ok c l w' Hf)). reflexivity.
Qed.

(** C8: a return, or the end of the function, moves the results of the function
    word by word to where the caller's stack pointer was, gives the frame back
    to the stack and to the object table, and goes on in the caller with the
    registers its frame has kept; nothing else in memory changes. *)
Theorem return_correct h l w root op :
  op = WASM_OP_RETURN
  ∨ op = WASM_OP_END ∧ frame_csp l <= ldp (wmem w) (FLD (frame l) WASMInterpFrame "csp_bottom") + SIZEOF WASMBranchBlock →
  returning l w root →
  let c := prev_frame l in
  let f := ldp (wmem w) (FLD c WASMInterpFrame "function") in
  let q := caller_sp l w in
  let n := 4 * fn_rets (wmem w) (cur_func l) in
  ∃ l' m', (let* fl := handle_op h op in follow h fl) (l, w)
           = Ok Next (l', set_root_info root (set_mem m' w))
    ∧ frame l' = c ∧ cur_func l' = f ∧ frame_lp l' = FLD c WASMInterpFrame "lp" ∧ frame_sp l' = q + n
    ∧ frame_ip l' = ldp (wmem w) (FLD c WASMInterpFrame "ip")
    ∧ frame_csp l' = ldp (wmem w) (FLD c WASMInterpFrame "csp")
    ∧ prev_frame l' = ldp (wmem w) (FLD c WASMInterpFrame "prev_frame")
    ∧ frame_ip_end l' = fn_code_end (wmem w) f
    ∧ load m' q (Z.to_nat n) = load (wmem w) (frame_sp l - n) (Z.to_nat n)
    ∧ stack_top m' (exec_env l) = frame l ∧ ldp m' (FLD (exec_env l) WASMExecEnv "cur_frame") = c
    ∧ unchanged_outside (return_words l w) (wmem w) m'.
Proof.
  intros Hop Hr c f q n. pose proof Hr as [Henv Hlow Hfit Hfr Hsp Hc Hip Hcode Hap Hroot].
  assert (handle_op h op (l, w) = return_values (l, w)) as Eop.
  { destruct Hop as [-> |[-> Hcsp]]; [done|]. change (handle_op h WASM_OP_END) with handle_end. unfold handle_end.
    do 2 (rewrite (mbind_ok _ _ _ _ _ (reg_ok _ l w)); cbv beta).
    rewrite (mbind_ok _ _ _ _ _ (ldr_ok _ _ l w)). cbv beta.
    fold (ldp (wmem w) (FLD (frame l) WASMInterpFrame "csp_bottom")). by rewrite (proj2 (Z.ltb_ge _ _)). }
  destruct (return_values_ok l w root Hr) as (j&m1&Ev&H1&H2&Hu1). fold q n in Ev, H1, H2, Hu1.
  unfold mbind at 1. rewrite Eop, Ev. set (l1 := set_i j _).
  set (m2 := store_Z m1 (FLD (exec_env l) WASMExecEnv "wasm_stack.s.top") 8 (frame l)).
  set (m' := store_Z m2 (FLD (exec_env l) WASMExecEnv "cur_frame") 8 c).
  unfold stack_bottom in Henv. fold c in Henv, Hlow, Hc. fold q in Hlow, Hfit. fold n in Hfit.
  assert (0 <= n) by (pose proof (load_Z_range (wmem w) (FLD (cur_func l) WASMFunctionInstance "ret_cell_num") 2); unfold n, fn_rets; lia).
  assert (unchanged_outside (return_words l w) (wmem w) m') as Hu.
  { unfold m', m2. apply unchanged_put_Z; [|lia|by do 3 apply covered_tail; apply covered_head].
    apply unchanged_put_Z; [|lia|by do 2 apply covered_tail; apply covered_head].
    eapply unchanged_incl; [|exact Hu1]. intros r [<-|[<-|[]]]; [by left|by right; left]. }
  assert (∀ o, 0 <= o <= 32 ∨ 48 <= o <= 64 → ldp m' (c + o) = ldp (wmem w) (c + o)) as Hkeep.
  { intros o Ho. apply (unchanged_word (return_words l w)); [done|lia|]. unfold return_words. fold c q n.
    intros r [<-|[<-|[<-|[<-|[]]]]]; unfold disjoint_region; cbn; lia. }
  assert (ldp m' (FLD c WASMInterpFrame "sp") = q + n) as Esp.
  { rewrite <- H1. unfold m', m2, ldp. by rewrite !load_store_Z_ne by lia. }
  rewrite (at_return_ok h l1 (set_mem m1 w) root); cbn [prev_frame exec_env frame set_i set_frame_sp l1 wmem set_mem root_info].
  - fold c m2 m'. eexists _, m'. split; [reflexivity|]. cbn [recovered frame cur_func frame_lp frame_sp frame_ip
      frame_csp prev_frame frame_ip_end set_frame_csp set_frame_sp set_frame_lp set_frame_ip_end set_frame_ip
      set_prev_frame set_cur_func set_frame].
    rewrite (Hkeep 8), (Hkeep 16), (Hkeep 64), (Hkeep 0) by lia. fold f.
    split_and!; [done|done|done|exact Esp|done|done|done|by apply (fn_code_end_kept _ _ _ _ Hu)| | | |done].
    + rewrite <- H2. apply (unchanged_load (env_words (exec_env l)) m1).
      * unfold m', m2. apply unchanged_put_Z; [|lia|by apply covered_tail, covered_head].
        apply unchanged_put_Z; [apply unchanged_refl|lia|by apply covered_head].
      * intros r [<-|[<-|[]]]; unfold disjoint_region; cbn; lia.
    + unfold m', m2, stack_top. rewrite load_store_Z_ne, load_store_Z_eq by lia. apply Z.mod_small. lia.
    + unfold m', ldp. rewrite load_store_Z_eq by lia. apply Z.mod_small. lia.
  - done.
  - fold c m2 m'. by rewrite (Hkeep 16) by lia.
  - fold c m2 m'. rewrite (Hkeep 8) by lia. fold f.
    unfold fn_import. by rewrite (fn_word_kept (wmem w) m' f (return_words l w)) by (done || lia).
Qed.

(** The sample function calls itself: its frame is at the bottom of the stack with
    the argument 9 on its operand stack, the frame of the callee is 200 bytes
    further. *)
Definition c_caller : Z := stack_bottom s_env.
Definition c_callee : Z := c_caller + 200.

Definition c_locals (sp fr prev : Z) : locals :=
  set_frame_csp (c_caller + 150) (set_frame_ip (s_code + 5) (set_frame fr (set_frame_sp sp
    (mkLocals s_inst s_env s_func prev 0 0 0 0 0 0 0 0 0 0 0 0 0 0 0 0 0 0 0 0 0 0 0 0 0 0 0 0 0 0 0 0 0 0 0 0 0 0)))).

Definition c_world : world :=
  set_mem (foldl put_word s_mem
    [(FLD s_env WASMExecEnv "wasm_stack.s.top", 8, c_callee);
     (FLD c_caller WASMInterpFrame "function", 8, s_func);
     (FLD c_caller WASMInterpFrame "ip", 8, s_code + 5);
     (FLD c_caller WASMInterpFrame "sp", 8, c_caller + 80);
     (c_caller + 80, 4, 9); (c_callee + 100, 4, 55)]) s_world.

(** The callee returns with 55 on its operand stack. *)
Definition r_world : world :=
  set_root_info [mkInfo (mkElem 0 c_callee 160 WASMInterpFrameT) []] c_world.

Lemma return_correct_witness :
  ∃ l' m', (let* fl := handle_op s_host WASM_OP_RETURN in follow s_host fl)
             (c_locals (c_callee + 104) c_callee c_caller, r_world)
           = Ok Next (l', set_root_info [] (set_mem m' r_world))
    ∧ frame l' = c_caller ∧ frame_sp l' = c_caller + 84 ∧ frame_ip l' = s_code + 5
    ∧ load m' (c_caller + 80) 4 = le_bytes 4 55.
Proof.
  destruct (return_correct s_host (c_locals (c_callee + 104) c_callee c_caller) r_world [] WASM_OP_RETURN)
    as (l'&m'&H1&H2&_&_&H3&H4&_&_&_&H5&_); [by left| |].
  - constructor; [by vm_compute..| |by vm_compute]. by constructor; apply apartb_ok; vm_compute.
  - exists l', m'. split; [exact H1|]. split; [exact H2|]. split; [|split].
    + etransitivity; [exact H3|]. by vm_compute.
    + etransitivity; [exact H4|]. by vm_compute.
    + etransitivity; [exact H5|]. by vm_compute.
Defined.
