(* ===== verification/Entry.v ===== *)
(** Entering a function of the module: the size of its frame, and the frame with
    its header, cleared locals and first label. *)
From stdpp Require Import base gmap list numbers strings.
From Stdlib Require Import Strings.Byte ZArith Lia.
From S2P Require Import Prelude CMemory WasmTypes PoolInfo Table ExecEnv Memory MemGrow Format Opcodes Leb.
From S2P Require Import Dump Regs Macros DataOps NumericOps Control Interp Steps Branch Functions.

(** What the filling of a frame writes: its header behind [prev_frame], and the
    locals that are not arguments. *)
Definition init_words (m : mem) (f T : Z) : list region :=
  [(T + 8, 64); (locals_at T + fn_params m f * 4, fn_locals m f * 4)].

Definition initialised (m : mem) (f T : Z) (l : locals) : locals :=
  set_frame_csp (labels_base m f T) (set_frame_sp (operands_at m f T) (set_frame_lp (locals_at T)
    (set_frame_ip_end (fn_code_end m f) (set_frame_ip (fn_code m f) l)))).

Definition init_mem (m : mem) (f T : Z) : mem :=
  let m1 := store_Z m (FLD T WASMInterpFrame "function") 8 f in
  let m2 := store_Z m1 (FLD T WASMInterpFrame "sp_bottom") 8 (operands_at m f T) in
  let m3 := store_Z m2 (FLD T WASMInterpFrame "sp_boundary") 8 (labels_base m f T) in
  let m4 := store_Z m3 (FLD T WASMInterpFrame "csp_bottom") 8 (labels_base m f T) in
  let m5 := store_Z m4 (FLD T WASMInterpFrame "csp_boundary") 8
              (labels_base m f T + fn_blocks m f * SIZEOF WASMBranchBlock) in
  store m5 (locals_at T + fn_params m f * 4) (replicate (Z.to_nat (fn_locals m f * 4)) x00).

Ltac kept H :=
  repeat first [rewrite (fn_params_kept _ _ _ _ H) by done | rewrite (fn_locals_kept _ _ _ _ H) by done
    | rewrite (fn_stack_kept _ _ _ _ H) by done | rewrite (fn_blocks_kept _ _ _ _ H) by done
    | rewrite (fn_import_kept _ _ _ _ H) by done | rewrite (fn_body_kept _ _ _ _ H) by done
    | rewrite (fn_code_kept _ _ _ _ H) by done | rewrite (fn_code_end_kept _ _ _ _ H) by done].

Lemma init_frame_ok f T l w :
  fn_import (wmem w) f = 0 → fn_apart (wmem w) f (init_words (wmem w) f T) →
  init_frame f T (l, w) = Ok tt (initialised (wmem w) f T l, set_mem (init_mem (wmem w) f T) w).
Proof.
  intros Hi Ha. set (m := wmem w) in *. set (rs := init_words m f T) in *. unfold init_frame.
  set (m1 := store_Z m (FLD T WASMInterpFrame "function") 8 f).
  set (m2 := store_Z m1 (FLD T WASMInterpFrame "sp_bottom") 8 (operands_at m f T)).
  set (m3 := store_Z m2 (FLD T WASMInterpFrame "sp_boundary") 8 (labels_base m f T)).
  set (m4 := store_Z m3 (FLD T WASMInterpFrame "csp_bottom") 8 (labels_base m f T)).
  assert (unchanged_outside rs m m1) as U1
    by (apply unchanged_put_Z; [apply unchanged_refl|lia|apply covered_head; lia]).
  assert (unchanged_outside rs m m2) as U2 by (apply unchanged_put_Z; [done|lia|apply covered_head; lia]).
  assert (unchanged_outside rs m m3) as U3 by (apply unchanged_put_Z; [done|lia|apply covered_head; lia]).
  assert (unchanged_outside rs m m4) as U4 by (apply unchanged_put_Z; [done|lia|apply covered_head; lia]).
  rewrite (mbind_ok _ _ _ _ _ (str_ok _ _ _ l w)). cbv beta. fold m m1.
  assert (fn_import (wmem (set_mem m1 w)) f = 0) as Hi1 by (cbn [wmem set_mem]; kept U1; done).
  rewrite (mbind_ok _ _ _ _ _ (lift_ok _ _ _ _ _ (code_ok f (set_mem m1 w) Hi1))). cbv beta.
  rewrite (mbind_ok _ _ _ _ _ (assign_ok _ _ _ _)). cbv beta.
  rewrite (mbind_ok _ _ _ _ _ (lift_ok _ _ _ _ _ (code_end_ok f (set_mem m1 w) Hi1))). cbv beta.
  rewrite (mbind_ok _ _ _ _ _ (assign_ok _ _ _ _)). cbv beta zeta.
  rewrite (mbind_ok _ _ _ _ _ (assign_ok _ _ _ _)). cbv beta.
  do 2 (rewrite (mbind_ok _ _ _ _ _ (ldr_ok _ _ _ _)); cbv beta). cbn [wmem set_mem].
  fold (fn_params m1 f) (fn_locals m1 f). fold (locals_at T). kept U1. fold (operands_at m f T).
  rewrite (mbind_ok _ _ _ _ _ (str_ok _ _ _ _ _)). cbv beta. cbn [wmem set_mem]. fold m2.
  rewrite (mbind_ok _ _ _ _ _ (assign_ok _ _ _ _)). cbv beta.
  do 2 (rewrite (mbind_ok _ _ _ _ _ (ldr_ok _ _ _ _)); cbv beta). cbn [wmem set_mem].
  fold (ldp m2 (FLD f WASMFunctionInstance "u")). fold (fn_body m2 f). fold (fn_stack m2 f). kept U2.
  fold (labels_base m f T).
  do 2 (rewrite (mbind_ok _ _ _ _ _ (str_ok _ _ _ _ _)); cbv beta). cbn [wmem set_mem]. fold m3. fold m4.
  rewrite (mbind_ok _ _ _ _ _ (assign_ok _ _ _ _)). cbv beta.
  rewrite (mbind_ok _ _ _ _ _ (ldr_ok _ _ _ _)). cbv beta. cbn [wmem set_mem].
  replace (load_Z m4 (FLD (fn_body m f) WASMFunction "max_block_num") 4) with (fn_blocks m f)
    by (rewrite <- (fn_blocks_kept m m4 f rs U4 Ha); unfold fn_blocks; by kept U4).
  rewrite (mbind_ok _ _ _ _ _ (str_ok _ _ _ _ _)). cbv beta. reflexivity.
Qed.

Lemma init_mem_unchanged m f T : unchanged_outside (init_words m f T) m (init_mem m f T).
Proof.
  unfold init_mem. cbv zeta. destruct (fn_fields_range m f) as (?&?&?&?).
  eapply (unchanged_put _ _ _ _ _ (fn_locals m f * 4)); [| |apply covered_tail, covered_head; lia].
  2: { rewrite length_replicate. lia. }
  repeat (apply unchanged_put_Z; [|lia|apply covered_head; lia]). apply unchanged_refl.
Qed.

(** ** The size of a frame *)

Lemma land_align x : 0 <= x < 2 ^ 32 → Z.land x (2 ^ 32 - 4) = x / 4 * 4.
Proof.
  intros Hx. change (2 ^ 32 - 4) with (Z.shiftl (Z.ones 30) 2).
  replace (x / 4 * 4) with (Z.shiftl (Z.shiftr x 2) 2)
    by (rewrite Z.shiftl_mul_pow2, Z.shiftr_div_pow2 by lia; done).
  apply Z.bits_inj'. intros n Hn. rewrite Z.land_spec, !Z.shiftl_spec by lia.
  destruct (Z.lt_ge_cases n 2) as [Hl|Hl].
  - by rewrite !(Z.testbit_neg_r _ (n - 2)), andb_false_r by lia.
  - rewrite Z.shiftr_spec, Z.sub_add by lia. destruct (Z.lt_ge_cases (n - 2) 30).
    + by rewrite Z.ones_spec_low, andb_true_r by lia.
    + rewrite Z.ones_spec_high, andb_false_r by lia. symmetry.
      rewrite <- (Z.mod_small x (2 ^ 32)) by lia. apply Z.mod_pow2_bits_high. lia.
Qed.

Lemma frame_size_ok n : 0 <= n → n * 5 < 2 ^ 31 →
  let s := wasm_interp_interp_frame_size n in
  OFS WASMInterpFrame "lp" + n * 5 <= s < OFS WASMInterpFrame "lp" + n * 5 + 4.
Proof.
  intros H0 Hn. cbv zeta. unfold wasm_interp_interp_frame_size, align_uint, uint32.
  rewrite !(wrap_small 32 (_ + n * 5)), land_align by lia. rewrite wrap_small by lia. lia.
Qed.

Lemma alloc_frame_exact env sz prev w :
  stack_ok (wmem w) env → fits (wmem w) env sz →
  let T := stack_top (wmem w) env in
  ALLOC_FRAME env sz prev w
  = Ok T (alloc_node T WASMInterpFrameT sz
      (set_mem (store_Z (store_Z (wmem w) (FLD env WASMExecEnv "wasm_stack.s.top") 8 (T + sz))
                  (FLD T WASMInterpFrame "prev_frame") 8 prev) w)).
Proof.
  intros Hs Hf T. unfold ALLOC_FRAME. rewrite (mbind_ok _ _ _ _ _ (alloc_wasm_frame_ok env sz w Hs Hf)).
  fold T. destruct Hs as [He Ht _]. unfold stack_bottom in Ht.
  rewrite (proj2 (Z.eqb_neq T NULL)) by (unfold NULL; lia).
  unfold alloc_info_ex. by rewrite (proj2 (Z.eqb_neq T NULL)) by (unfold NULL; lia).
Qed.

(** ** Entering a function *)

Definition fn_cells (m : mem) (f : Z) : Z :=
  fn_params m f + fn_locals m f + fn_stack m f + fn_blocks m f * 8.
Definition fn_frame_size (m : mem) (f : Z) : Z := wasm_interp_interp_frame_size (fn_cells m f).
Definition fn_type (m : mem) (f : Z) : Z := ldp m (FLD (fn_body m f) WASMFunction "func_type").
Definition type_rets (m : mem) (t : Z) : Z := load_Z m (FLD t WASMType "ret_cell_num") 2.

Definition entry_words (m : mem) (f env : Z) : list region :=
  (stack_top m env, fn_frame_size m f) :: env_words env.

(** The label of the function, whose target is the last byte of its code. *)
Definition label_mem (m : mem) (L cells begin target sp : Z) : mem :=
  store_Z (store_Z (store_Z (store_Z m (FLD L WASMBranchBlock "cell_num") 4 cells)
    (FLD L WASMBranchBlock "begin_addr") 8 begin) (FLD L WASMBranchBlock "target_addr") 8 target)
    (FLD L WASMBranchBlock "frame_sp") 8 sp.

Definition entered_mem (m : mem) (f env prev : Z) : mem :=
  let T := stack_top m env in
  let m1 := store_Z (store_Z m (FLD env WASMExecEnv "wasm_stack.s.top") 8 (T + fn_frame_size m f))
              (FLD T WASMInterpFrame "prev_frame") 8 prev in
  let m2 := label_mem (init_mem m1 f T) (labels_base m f T) (type_rets m (fn_type m f)) (fn_code m f)
              (fn_code_end m f - 1) (operands_at m f T) in
  store_Z m2 (FLD env WASMExecEnv "cur_frame") 8 T.

Definition entered (m : mem) (f env : Z) (l : locals) : locals :=
  let T := stack_top m env in
  set_frame_csp (labels_base m f T + SIZEOF WASMBranchBlock) (set_cell_num (type_rets m (fn_type m f))
    (initialised m f T (set_frame T (set_frame_size (fn_frame_size m f) (set_all_cell_num (fn_cells m f) l))))).

(** The function [f] of the module can be entered: its frame fits, and it is
    not among what entering writes. *)
Record enterable (m : mem) (f env : Z) : Prop := {
  en_import : fn_import m f = 0;
  en_stack : stack_ok m env;
  en_cells : fn_cells m f * 5 < 2 ^ 31;
  en_fits : fits m env (fn_frame_size m f);
  en_apart : fn_apart m f (entry_words m f env);
  en_type : apart (fn_type m f) (SIZEOF WASMType) (entry_words m f env)
}.

Lemma push_csp_ok lt cells target l w :
  let L := frame_csp l in
  PUSH_CSP lt cells target (l, w)
  = Ok tt (set_frame_csp (L + SIZEOF WASMBranchBlock) l,
           set_mem (label_mem (wmem w) L cells (frame_ip l) target (frame_sp l)) w).
Proof. reflexivity. Qed.

Lemma frame_room m f env : enterable m f env →
  let T := stack_top m env in
  FLD T WASMInterpFrame "lp" + fn_cells m f * 4 <= T + fn_frame_size m f
  ∧ 0 <= fn_cells m f ∧ labels_base m f T + fn_blocks m f * 32 = FLD T WASMInterpFrame "lp" + fn_cells m f * 4
  ∧ T + fn_frame_size m f < 2 ^ 64 ∧ env + 3192 <= T ∧ 0 < env.
Proof.
  intros [_ [He Ht _] Hc [Hs Hf] _ _] T. destruct (fn_fields_range m f) as (?&?&?&?).
  assert (0 <= fn_cells m f) as Hn by (unfold fn_cells; lia).
  pose proof (frame_size_ok (fn_cells m f) Hn Hc) as Hz. fold (fn_frame_size m f) in Hz. cbv zeta in Hz.
  pose proof (stack_boundary_range m env). unfold stack_bottom in Ht. fold T in Ht, Hf.
  split_and!; try lia. unfold labels_base, operands_at, locals_at, fn_cells. lia.
Qed.

Lemma apart_weaken a n rs rs' : 0 <= n →
  (∀ r, In r rs → ∃ r', In r' rs' ∧ r'.1 <= r.1 ∧ r.1 + r.2 <= r'.1 + r'.2) → apart a n rs' → apart a n rs.
Proof.
  intros Hn H Ha r Hr. destruct (H r Hr) as (r'&Hr'&?&?). specialize (Ha r' Hr').
  unfold disjoint_region in *. cbn in *. lia.
Qed.

Lemma unchanged_sub rs rs' m m' :
  (∀ r, In r rs → ∃ r', In r' rs' ∧ r'.1 <= r.1 ∧ r.1 + r.2 <= r'.1 + r'.2) →
  unchanged_outside rs m m' → unchanged_outside rs' m m'.
Proof.
  intros H. apply unchanged_weaken. intros x r Hr Hx. destruct (H r Hr) as (r'&Hr'&?&?).
  exists r'. split; [done|]. unfold in_region in *. lia.
Qed.

Lemma init_inside m f env : enterable m f env →
  ∀ r, In r (init_words m f (stack_top m env)) →
    ∃ r', In r' (entry_words m f env) ∧ r'.1 <= r.1 ∧ r.1 + r.2 <= r'.1 + r'.2.
Proof.
  intros He r Hr. pose proof (frame_room m f env He) as (H1&H2&H3&_&_&_).
  destruct (fn_fields_range m f) as (?&?&?&?). unfold labels_base, operands_at, locals_at in H3.
  exists (stack_top m env, fn_frame_size m f). split; [by left|].
  destruct Hr as [<-|[<-|[]]]; unfold locals_at; cbn; lia.
Qed.

Lemma init_words_kept m m1 f env T : enterable m f env → unchanged_outside (entry_words m f env) m m1 →
  init_words m1 f T = init_words m f T.
Proof. intros [_ _ _ _ Ha _] U1. unfold init_words. by kept U1. Qed.

(** Filling the frame does not disturb the function either. *)
Lemma init_apart m m1 f env : enterable m f env → unchanged_outside (entry_words m f env) m m1 →
  fn_apart m1 f (init_words m1 f (stack_top m env)).
Proof.
  intros He U1. rewrite (init_words_kept m m1 f env) by done. pose proof He as [_ _ _ _ Ha _]. split.
  - eapply apart_weaken; [lia|by apply init_inside|apply Ha].
  - kept U1. eapply apart_weaken; [lia|by apply init_inside|apply Ha].
Qed.

Lemma enter_function_ok env f l w :
  cur_func l = f → exec_env l = env → enterable (wmem w) f env →
  enter_function (l, w)
  = Ok Next (entered (wmem w) f env l,
      alloc_node (stack_top (wmem w) env) WASMInterpFrameT (fn_frame_size (wmem w) f)
        (set_mem (entered_mem (wmem w) f env (prev_frame l)) w)).
Proof.
  intros Hf Henv He. pose proof (frame_room _ _ _ He) as (Hz&Hc0&Hl&Htop&He0&He1). pose proof He as [Hi Hs Hc Hfit Ha Ht].
  set (m := wmem w) in *. destruct (fn_fields_range m f) as (?&?&?&?). unfold enter_function.
  rewrite (mbind_ok _ _ _ _ _ (reg_ok _ l w)). cbv beta. rewrite Hf.
  do 6 (rewrite (mbind_ok _ _ _ _ _ (ldr_ok _ _ l w)); cbv beta). fold m. cbv zeta.
  fold (ldp m (FLD f WASMFunctionInstance "u")). fold (fn_body m f).
  fold (ldp m (FLD (fn_body m f) WASMFunction "func_type")). fold (fn_type m f).
  fold (fn_params m f) (fn_locals m f) (fn_stack m f) (fn_blocks m f).
  assert (uint64 (fn_params m f + fn_locals m f + fn_stack m f + fn_blocks m f * 32 / 4) = fn_cells m f) as Ec.
  { unfold uint64. rewrite wrap_small; unfold fn_cells in *; lia. }
  rewrite Ec, (mbind_ok _ _ _ _ _ (assign_ok _ _ l w)). cbv beta.
  rewrite (proj2 (Z.leb_gt (2 ^ 32 - 1) _)) by lia.
  assert (uint32 (fn_cells m f) = fn_cells m f) as Ec' by (unfold uint32; apply wrap_small; lia).
  rewrite Ec'. fold (fn_frame_size m f). rewrite (mbind_ok _ _ _ _ _ (assign_ok _ _ _ w)). cbv beta.
  do 2 (rewrite (mbind_ok _ _ _ _ _ (reg_ok _ _ w)); cbv beta).
  cbn [exec_env prev_frame set_frame_size set_all_cell_num]. rewrite Henv.
  rewrite (mbind_ok _ _ _ _ _ (lift_ok _ _ _ _ _ (alloc_frame_exact env _ (prev_frame l) w Hs Hfit))). cbv beta.
  fold m. set (T := stack_top m env) in *. rewrite (mbind_ok _ _ _ _ _ (assign_ok _ _ _ _)). cbv beta.
  rewrite (proj2 (Z.eqb_neq T NULL)) by (unfold NULL; lia).
  set (m1 := store_Z (store_Z m _ 8 _) _ 8 _). set (w1 := alloc_node T WASMInterpFrameT _ _).
  assert (wmem w1 = m1) as Ew by reflexivity.
  assert (unchanged_outside (entry_words m f env) m m1) as U1.
  { unfold m1. apply unchanged_put_Z; [|lia|apply covered_head; lia].
    apply unchanged_put_Z; [apply unchanged_refl|lia|by apply covered_tail, covered_head]. }
  assert (fn_import (wmem w1) f = 0) as Hi1 by (rewrite Ew; kept U1; done).
  assert (fn_apart (wmem w1) f (init_words (wmem w1) f T)) as Ha1 by (by apply init_apart).
  rewrite (mbind_ok _ _ _ _ _ (init_frame_ok f T _ w1 Hi1 Ha1)). cbv beta. rewrite Ew in *.
  set (m2 := init_mem m1 f T).
  assert (unchanged_outside (entry_words m f env) m m2) as U2.
  { pose proof (init_mem_unchanged m1 f T) as U. rewrite (init_words_kept m m1 f env) in U by done.
    apply (unchanged_sub _ (entry_words m f env)) in U; [|by apply init_inside].
    eapply unchanged_incl; [|eapply unchanged_trans; [exact U1|exact U]]. intros r Hr. by apply in_app_iff in Hr as [?|?]. }
  rewrite (mbind_ok _ _ _ _ _ (ldr_ok _ _ _ _)). cbv beta. cbn [wmem set_mem].
  assert (load_Z m2 (FLD (fn_type m f) WASMType "ret_cell_num") 2 = type_rets m (fn_type m f)) as ->.
  { apply (unchanged_word (entry_words m f env)); [done|lia|]. eapply apart_sub; [| | |exact Ht]; lia. }
  rewrite (mbind_ok _ _ _ _ _ (assign_ok _ _ _ _)). cbv beta.
  rewrite (mbind_ok _ _ _ _ _ (reg_ok _ _ _)). cbv beta.
  rewrite (mbind_ok _ _ _ _ _ (push_csp_ok _ _ _ _ _)). cbv beta.
  assert (initialised m1 f T = initialised m f T) as ->
    by (unfold initialised, labels_base, operands_at; by kept U1).
  unfold entered_mem. fold T. fold m1. fold m2.
  reflexivity.
Qed.

(** ** What a called function finds *)

(** The words entering writes, exactly. *)
Definition entered_words (m : mem) (f env : Z) : list region :=
  let T := stack_top m env in
  (T, 72) :: (locals_at T + fn_params m f * 4, fn_locals m f * 4)
  :: (labels_base m f T, SIZEOF WASMBranchBlock) :: env_words env.

Lemma entered_mem_unchanged m f env prev : enterable m f env →
  unchanged_outside (entered_words m f env) m (entered_mem m f env prev).
Proof.
  intros He. pose proof He as [_ _ _ _ Ha _]. unfold entered_mem, label_mem. cbv zeta.
  set (T := stack_top m env). set (m1 := store_Z (store_Z m _ 8 _) _ 8 _).
  assert (unchanged_outside (entry_words m f env) m m1) as U1.
  { pose proof (frame_room m f env He) as (?&?&_). fold T in H.
    unfold m1. apply unchanged_put_Z; [|lia|apply covered_head; lia].
    apply unchanged_put_Z; [apply unchanged_refl|lia|by apply covered_tail, covered_head]. }
  apply unchanged_put_Z; [|lia|by do 4 apply covered_tail; apply covered_head].
  do 4 (apply unchanged_put_Z; [|lia|do 2 apply covered_tail; apply covered_head; fold T; lia]).
  pose proof (init_mem_unchanged m1 f T) as U. rewrite (init_words_kept m m1 f env) in U by done.
  eapply (unchanged_sub _ (entered_words m f env)) in U.
  - eapply unchanged_incl; [|eapply (unchanged_trans (entered_words m f env)); [|exact U]].
    + by intros r [Hr|Hr]%in_app_iff.
    + unfold m1. apply unchanged_put_Z; [|lia|apply covered_head; fold T; lia].
      apply unchanged_put_Z; [apply unchanged_refl|lia|by do 3 apply covered_tail; apply covered_head].
  - intros r [<-|[<-|[]]].
    + exists (T, 72). split; [by left|cbn; lia].
    + exists (locals_at T + fn_params m f * 4, fn_locals m f * 4). split; [by right; left|done].
Qed.

Record entered_frame (m : mem) (f env prev : Z) (M : mem) : Prop := {
  ef_prev : ldp M (FLD (stack_top m env) WASMInterpFrame "prev_frame") = uint64 prev;
  ef_function : ldp M (FLD (stack_top m env) WASMInterpFrame "function") = uint64 f;
  ef_sp_bottom : ldp M (FLD (stack_top m env) WASMInterpFrame "sp_bottom") = operands_at m f (stack_top m env);
  ef_sp_boundary : ldp M (FLD (stack_top m env) WASMInterpFrame "sp_boundary") = labels_base m f (stack_top m env);
  ef_csp_bottom : ldp M (FLD (stack_top m env) WASMInterpFrame "csp_bottom") = labels_base m f (stack_top m env);
  ef_csp_boundary : ldp M (FLD (stack_top m env) WASMInterpFrame "csp_boundary")
                    = labels_base m f (stack_top m env) + fn_blocks m f * SIZEOF WASMBranchBlock;
  ef_cells : label_cells M (labels_base m f (stack_top m env)) = type_rets m (fn_type m f);
  ef_begin : label_begin M (labels_base m f (stack_top m env)) = uint64 (fn_code m f);
  ef_target : label_target M (labels_base m f (stack_top m env)) = uint64 (fn_code_end m f - 1);
  ef_label_sp : label_sp M (labels_base m f (stack_top m env)) = operands_at m f (stack_top m env);
  ef_locals : load M (locals_at (stack_top m env) + fn_params m f * 4) (Z.to_nat (fn_locals m f * 4))
              = replicate (Z.to_nat (fn_locals m f * 4)) x00;
  ef_top : stack_top M env = stack_top m env + fn_frame_size m f;
  ef_cur : ldp M (FLD env WASMExecEnv "cur_frame") = stack_top m env
}.

Lemma entered_mem_reads m f env prev : enterable m f env →
  entered_frame m f env prev (entered_mem m f env prev).
Proof.
  intros He. pose proof (frame_room m f env He) as (H1&H2&H3&H4&H5&H6). pose proof He as [_ _ _ _ Ha _].
  destruct (fn_fields_range m f) as (?&?&?&?).
  assert (0 <= type_rets m (fn_type m f) < 2 ^ 16) by (apply (load_Z_range m _ 2); lia).
  unfold entered_mem, label_mem, init_mem. cbv zeta.
  set (T := stack_top m env) in *. set (m1 := store_Z (store_Z m _ 8 _) (T + 0) 8 _).
  assert (unchanged_outside (entry_words m f env) m m1) as U1.
  { unfold m1. apply unchanged_put_Z; [|lia|apply covered_head; fold T; lia].
    apply unchanged_put_Z; [apply unchanged_refl|lia|by apply covered_tail, covered_head]. }
  assert (operands_at m1 f T = operands_at m f T) as -> by (unfold operands_at; by kept U1).
  assert (labels_base m1 f T = labels_base m f T) as -> by (unfold labels_base, operands_at; by kept U1).
  kept U1.
  assert (operands_at m f T = T + 72 + (fn_params m f + fn_locals m f) * 4) as Eo by reflexivity.
  assert (labels_base m f T = operands_at m f T + fn_stack m f * 4) as El by reflexivity.
  set (O := operands_at m f T) in *. set (L := labels_base m f T) in *. unfold locals_at.
  constructor; fold T; fold O; fold L; unfold ldp, label_cells, label_begin, label_target, label_sp, stack_top, uint64, wrap.
  1-10: mem_read; unfold m1; mem_read; try done; apply Z.mod_small; lia.
  - unfold locals_at, store_Z. do 5 rewrite load_store_ne by (rewrite length_le_bytes; lia).
    apply load_store_eq. by rewrite length_replicate.
  - mem_read. unfold m1. mem_read. apply Z.mod_small. lia.
  - mem_read. apply Z.mod_small. lia.
Qed.
