(* ===== verification/Calls.v ===== *)
(** A call inside the interpreter takes a frame whose locals are the arguments and
    zeros, and saves the registers of the caller in the caller's frame. *)
From stdpp Require Import base gmap list numbers strings.
From Stdlib Require Import Strings.Byte ZArith Lia.
From S2P Require Import Prelude CMemory WasmTypes PoolInfo Table ExecEnv Memory MemGrow Format Opcodes Leb.
From S2P Require Import Dump Regs Macros DataOps NumericOps Control Interp Sample Steps Functions Branch Returns Entry.

(** ** From the caller *)

(** The words of the caller's frame that keep its registers. *)
Definition saved_words (c : Z) : list region :=
  [(FLD c WASMInterpFrame "sp", 8); (FLD c WASMInterpFrame "ip", 8); (FLD c WASMInterpFrame "csp", 8)].

Record callable (l : locals) (w : world) : Prop := {
  cb_enter : enterable (wmem w) (cur_func l) (exec_env l);
  cb_block : 1 <= fn_blocks (wmem w) (cur_func l);
  cb_frame : stack_bottom (exec_env l) <= frame l;
  cb_low : FLD (frame l) WASMInterpFrame "lp" <= frame_sp l - 4 * fn_params (wmem w) (cur_func l);
  cb_high : frame_sp l <= stack_top (wmem w) (exec_env l);
  cb_apart : fn_apart (wmem w) (cur_func l) (saved_words (frame l));
  cb_type : apart (fn_type (wmem w) (cur_func l)) (SIZEOF WASMType) (saved_words (frame l))
}.

(** The memory when the arguments have been copied. *)
Definition args_mem (l : locals) (m : mem) : mem :=
  let sp := frame_sp l - fn_params m (cur_func l) * 4 in
  let m1 := store_Z (store_Z (store_Z m (FLD (frame l) WASMInterpFrame "sp") 8 sp)
              (FLD (frame l) WASMInterpFrame "ip") 8 (frame_ip l)) (FLD (frame l) WASMInterpFrame "csp") 8 (frame_csp l) in
  store m1 (locals_at (stack_top m (exec_env l))) (load m sp (4 * Z.to_nat (fn_params m (cur_func l)))).

Lemma args_unchanged l w : callable l w →
  let m := wmem w in
  unchanged_outside ((locals_at (stack_top m (exec_env l)), fn_params m (cur_func l) * 4) :: saved_words (frame l))
    m (args_mem l m).
Proof.
  intros Hc m. destruct (fn_fields_range m (cur_func l)) as (?&_). unfold args_mem, saved_words. cbv zeta.
  eapply (unchanged_put _ _ _ _ _ (fn_params m (cur_func l) * 4)); [|rewrite length_load; lia|by apply covered_head].
  apply unchanged_put_Z; [|lia|by do 3 apply covered_tail; apply covered_head].
  apply unchanged_put_Z; [|lia|by do 2 apply covered_tail; apply covered_head].
  apply unchanged_put_Z; [apply unchanged_refl|lia|by apply covered_tail, covered_head].
Qed.

Lemma to_function_ok h l w : fn_import (wmem w) (cur_func l) = 0 →
  at_call_func_from_entry h (l, w) = enter_function (l, w).
Proof.
  intros E. unfold at_call_func_from_entry. rewrite (mbind_ok _ _ _ _ _ (reg_ok _ l w)). cbv beta.
  rewrite (mbind_ok _ _ _ _ _ (ldr_ok _ _ l w)). cbv beta. fold (fn_import (wmem w) (cur_func l)). by rewrite E.
Qed.

Lemma copy_args_ok h l w : callable l w →
  let m := wmem w in
  follow h call_func_from_interp (l, w)
  = at_call_func_from_entry h
      (set_prev_frame (frame l) (set_frame_sp (frame_sp l - fn_params m (cur_func l) * 4) l),
       set_mem (args_mem l m) w).
Proof.
  intros [[_ [_ Hb _] _ _ _ _] _ Hfr Hlow Hhigh _ _] m. destruct (fn_fields_range m (cur_func l)) as (?&_).
  fold m in Hb, Hlow, Hhigh. unfold stack_bottom in *. cbn [follow]. unfold at_call_func_from_interp.
  rewrite (mbind_ok _ _ _ _ _ (reg_ok _ l w)). cbv beta.
  assert (wasm_exec_env_wasm_stack_top (exec_env l) w = Ok (stack_top m (exec_env l)) w) as Et by reflexivity.
  rewrite (mbind_ok _ _ _ _ _ (lift_ok _ _ _ _ _ Et)). cbv beta.
  rewrite (mbind_ok _ _ _ _ _ (reg_ok _ l w)). cbv beta.
  rewrite (mbind_ok _ _ _ _ _ (ldr_ok _ _ l w)). cbv beta. fold m. fold (fn_params m (cur_func l)).
  unfold POP. rewrite mbind_assoc, (mbind_ok _ _ _ _ _ (reg_ok _ l w)). cbv beta.
  rewrite (mbind_ok _ _ _ _ _ (assign_ok _ _ l w)). cbv beta. set (sp := frame_sp l - fn_params m (cur_func l) * 4).
  unfold SYNC_ALL. rewrite mbind_assoc. set (l1 := set_frame_sp sp l).
  set (m1 := store_Z (store_Z (store_Z m (FLD (frame l) WASMInterpFrame "sp") 8 sp)
               (FLD (frame l) WASMInterpFrame "ip") 8 (frame_ip l)) (FLD (frame l) WASMInterpFrame "csp") 8 (frame_csp l)).
  assert (SYNC_ALL_TO_FRAME l1 w = Ok tt (set_mem m1 w)) as Es by reflexivity.
  change (gets fst (l1, w)) with (Ok (S := locals * world) l1 (l1, w)). unfold mbind at 1. unfold gets at 1. cbn [fst].
  rewrite (mbind_ok _ _ _ _ _ (lift_ok _ _ _ _ _ Es)). cbv beta.
  rewrite (mbind_ok _ _ _ _ _ (reg_ok _ _ _)). cbv beta. cbn [frame_sp set_frame_sp l1].
  unfold word_copy. erewrite mbind_ok; [|apply lift_ok, word_copy_ok; unfold sp, locals_at in *; lia]. cbv beta.
  rewrite (mbind_ok _ _ _ _ _ (reg_ok _ _ _)). cbv beta.
  rewrite (mbind_ok _ _ _ _ _ (assign_ok _ _ _ _)). cbv beta.
  cbn [wmem set_mem]. assert (load m1 sp (4 * Z.to_nat (fn_params m (cur_func l)))
                              = load m sp (4 * Z.to_nat (fn_params m (cur_func l)))) as El.
  { unfold m1, store_Z. by do 3 rewrite load_store_ne by (rewrite length_le_bytes; unfold sp; lia). }
  rewrite El. reflexivity.
Qed.

(** The function can still be entered when words apart from it have changed. *)
Lemma enterable_kept m m1 f env rs : unchanged_outside rs m m1 →
  fn_apart m f rs → apart (fn_type m f) (SIZEOF WASMType) rs →
  apart (FLD env WASMExecEnv "wasm_stack.s.top_boundary") 8 rs → apart (FLD env WASMExecEnv "wasm_stack.s.top") 8 rs →
  enterable m f env →
  enterable m1 f env ∧ stack_top m1 env = stack_top m env ∧ fn_type m1 f = fn_type m f
  ∧ fn_frame_size m1 f = fn_frame_size m f.
Proof.
  intros Hu Hf Ht Hb Htop [Hi [Hs1 Hs2 Hs3] Hc [Hz Hfit] Ha Hat].
  assert (stack_top m1 env = stack_top m env) as Et by (by apply (unchanged_word rs); [|lia|]).
  assert (stack_boundary m1 env = stack_boundary m env) as Eb by (by apply (unchanged_word rs); [|lia|]).
  assert (fn_type m1 f = fn_type m f) as Ety.
  { unfold fn_type. kept Hu. apply (body_word_kept m m1 f rs); done || lia. }
  assert (fn_cells m1 f = fn_cells m f) as Ec by (unfold fn_cells; by kept Hu).
  assert (fn_frame_size m1 f = fn_frame_size m f) as Ez by (unfold fn_frame_size; by rewrite Ec).
  split_and!; [|done..]. assert (entry_words m1 f env = entry_words m f env) as Ew
    by (unfold entry_words; by rewrite Et, Ez).
  constructor.
  - by kept Hu.
  - by constructor; rewrite ?Et, ?Eb.
  - by rewrite Ec.
  - unfold fits. by rewrite Ez, Et, Eb.
  - destruct Ha. rewrite Ew. split; [done|]. by kept Hu.
  - by rewrite Ew, Ety.
Qed.

(** What [SYNC_ALL] stores is below the copied arguments. *)
Lemma args_mem_saved l m a : a + 8 <= locals_at (stack_top m (exec_env l)) →
  ldp (args_mem l m) a
  = load_Z (store_Z (store_Z (store_Z m (FLD (frame l) WASMInterpFrame "sp") 8
                               (frame_sp l - fn_params m (cur_func l) * 4))
              (FLD (frame l) WASMInterpFrame "ip") 8 (frame_ip l)) (FLD (frame l) WASMInterpFrame "csp") 8 (frame_csp l)) a 8.
Proof. intros Ha. unfold args_mem, ldp. rewrite load_Z_store_ne by lia. done. Qed.

Definition args_words (l : locals) (m : mem) : list region :=
  (locals_at (stack_top m (exec_env l)), fn_params m (cur_func l) * 4) :: saved_words (frame l).

Lemma apart_args l w a n : callable l w → 0 <= n →
  apart a n (entry_words (wmem w) (cur_func l) (exec_env l)) → apart a n (saved_words (frame l)) →
  apart a n (args_words l (wmem w)).
Proof.
  intros [He _ _ _ _ _ _] Hn H1 H2. destruct (frame_room _ _ _ He) as (Hz&_).
  destruct (fn_fields_range (wmem w) (cur_func l)) as (?&?&?&?). unfold fn_cells in Hz.
  intros r [<-|Hr]; [|by apply H2].
  specialize (H1 _ (or_introl eq_refl)). unfold disjoint_region, locals_at in *. cbn in *. lia.
Qed.

Lemma after_args l w : callable l w →
  let m := wmem w in
  let m1 := args_mem l m in
  let f := cur_func l in
  let env := exec_env l in
  unchanged_outside (args_words l m) m m1 ∧ fn_apart m f (args_words l m)
  ∧ enterable m1 f env ∧ stack_top m1 env = stack_top m env ∧ fn_type m1 f = fn_type m f
  ∧ fn_frame_size m1 f = fn_frame_size m f
  ∧ type_rets m1 (fn_type m f) = type_rets m (fn_type m f).
Proof.
  intros Hc m m1 f env. pose proof Hc as [He _ Hfr Hlow Hhigh Ha Ht].
  pose proof He as [_ [_ Hb _] _ _ Ha' Ht']. destruct (frame_room _ _ _ He) as (Hz&Hcells&_&_&Hbot&_).
  fold m f env in He, Hz, Hcells, Hbot, Ha, Ha', Ht, Ht', Hfr. unfold stack_bottom in *.
  assert (unchanged_outside (args_words l m) m m1) as Hu by (by apply args_unchanged).
  assert (apart (fn_type m f) 10 (args_words l m)) as Hat by (apply apart_args; done || lia).
  assert (fn_apart m f (args_words l m)) as Hfa.
  { destruct Ha, Ha'. split; apply apart_args; done || lia. }
  destruct (fn_fields_range m f) as (?&?&?&?).
  assert (∀ a, a + 8 <= env + 3192 → apart a 8 (args_words l m)) as Henv.
  { intros a Haa r [<-|[<-|[<-|[<-|[]]]]]; unfold disjoint_region, locals_at; cbn; fold env f m; lia. }
  destruct (enterable_kept m m1 f env (args_words l m)) as (K1&K2&K3&K4);
    [done|done|done|apply Henv; lia|apply Henv; lia|done|].
  split_and!; [done..|]. apply (unchanged_word (args_words l m)); [done|lia|].
  eapply apart_sub; [| | |exact Hat]; lia.
Qed.

Lemma entered_frame_kept m m1 f env prev rs M : unchanged_outside rs m m1 → fn_apart m f rs →
  stack_top m1 env = stack_top m env → fn_type m1 f = fn_type m f →
  fn_frame_size m1 f = fn_frame_size m f → type_rets m1 (fn_type m f) = type_rets m (fn_type m f) →
  entered_frame m1 f env prev M → entered_frame m f env prev M.
Proof.
  intros Hu Ha Et Ety Ez Er H.
  assert (operands_at m1 f (stack_top m env) = operands_at m f (stack_top m env)) as Eo
    by (unfold operands_at; by kept Hu).
  assert (labels_base m1 f (stack_top m env) = labels_base m f (stack_top m env)) as El
    by (unfold labels_base; rewrite Eo; by kept Hu).
  pose proof (fn_blocks_kept _ _ _ _ Hu Ha) as Eb. pose proof (fn_params_kept _ _ _ _ Hu Ha) as Ep.
  pose proof (fn_locals_kept _ _ _ _ Hu Ha) as Elo. pose proof (fn_code_kept _ _ _ _ Hu Ha) as Ecd.
  pose proof (fn_code_end_kept _ _ _ _ Hu Ha) as Ece.
  destruct H. rewrite ?Et, ?Ety, ?Ez, ?Eo, ?El, ?Eb, ?Ep, ?Elo, ?Ecd, ?Ece, ?Er in *. by constructor.
Qed.

(** C7: a call of a function of the module whose frame fits takes the frame from
    the top of the stack and records it, makes the arguments and zeros its
    locals, gives it an empty operand stack and the label of the function, and
    keeps the registers of the caller, without the arguments, in the caller's
    frame; nothing else in memory changes. *)
Theorem call_correct h l w : callable l w →
  let m := wmem w in
  let f := cur_func l in
  let env := exec_env l in
  let c := frame l in
  let T := stack_top m env in
  let n := 4 * fn_params m f in
  let sp := frame_sp l - n in
  ∃ l' M, follow h call_func_from_interp (l, w)
          = Ok Next (l', alloc_node T WASMInterpFrameT (fn_frame_size m f) (set_mem M w))
    ∧ frame l' = T ∧ prev_frame l' = c ∧ cur_func l' = f ∧ exec_env l' = env
    ∧ frame_ip l' = fn_code m f ∧ frame_ip_end l' = fn_code_end m f ∧ frame_lp l' = locals_at T
    ∧ frame_sp l' = operands_at m f T ∧ frame_csp l' = labels_base m f T + SIZEOF WASMBranchBlock
    ∧ load M (locals_at T) (Z.to_nat n) = load m sp (Z.to_nat n)
    ∧ entered_frame m f env c M
    ∧ ldp M (FLD c WASMInterpFrame "sp") = uint64 sp
    ∧ ldp M (FLD c WASMInterpFrame "ip") = uint64 (frame_ip l)
    ∧ ldp M (FLD c WASMInterpFrame "csp") = uint64 (frame_csp l)
    ∧ unchanged_outside ((T, fn_frame_size m f) :: env_words env ++ saved_words c) m M.
Proof.
  intros Hc m f env c T n sp. destruct (after_args l w Hc) as (Hu&Hfa&He1&Et&Ety&Ez&Er).
  pose proof Hc as [He Hblk Hfr Hlow Hhigh _ _]. fold m f env c in Hu, Hfa, He1, Et, Ety, Ez, Er, He, Hblk, Hfr, Hlow, Hhigh.
  set (m1 := args_mem l m) in *. set (M := entered_mem m1 f env c).
  pose proof (entered_mem_reads m1 f env c He1) as Hr. fold M in Hr.
  pose proof (entered_mem_unchanged m1 f env c He1) as HuM. fold M in HuM.
  destruct (frame_room _ _ _ He) as (Hz&Hcells&Hl&Hlim&Hbot&_). destruct (fn_fields_range m f) as (?&?&?&?).
  fold T in Et, Hz, Hl, Hlim, Hbot, Hhigh. unfold stack_bottom in *.
  eexists (entered m1 f env (set_prev_frame c (set_frame_sp (frame_sp l - fn_params m f * 4) l))), M. split.
  { rewrite (copy_args_ok h l w Hc). fold m f c. fold m1.
    rewrite to_function_ok; [|apply (en_import _ _ _ He1)].
    rewrite (enter_function_ok env f); [|done|done|exact He1]. cbn [wmem set_mem]. fold m1. rewrite Et, Ez. reflexivity. }
  cbn [entered initialised frame prev_frame cur_func exec_env frame_ip frame_ip_end frame_lp frame_sp frame_csp
    set_frame_csp set_cell_num set_frame_sp set_frame_lp set_frame_ip_end set_frame_ip set_frame set_frame_size
    set_all_cell_num set_prev_frame].
  assert (entered_words m1 f env = entered_words m f env) as Ew
    by (unfold entered_words, labels_base, operands_at; rewrite Et; by kept Hu).
  rewrite Ew in HuM. unfold labels_base, operands_at. rewrite Et. kept Hu. fold (operands_at m f T) (labels_base m f T).
  assert (∀ o, 0 <= o <= 64 → ldp M (c + o) = ldp m1 (c + o)) as Hsaved.
  { intros o Ho. apply (unchanged_word (entered_words m f env)); [done|lia|]. unfold entered_words. fold T.
    intros r [<-|[<-|[<-|[<-|[<-|[]]]]]]; unfold disjoint_region, labels_base, operands_at, locals_at in *; cbn; lia. }
  split_and!; try done.
  - assert (load m1 (locals_at T) (Z.to_nat n) = load m sp (Z.to_nat n)) as <-.
    { unfold m1, args_mem. fold m f env. fold T. replace (Z.to_nat n) with (4 * Z.to_nat (fn_params m f))%nat by (unfold n; lia).
      replace (frame_sp l - fn_params m f * 4) with sp by (unfold sp, n; lia).
      apply load_store_eq. by rewrite length_load. }
    apply (unchanged_load (entered_words m f env)); [done|]. unfold entered_words. fold T.
    intros r [<-|[<-|[<-|[<-|[<-|[]]]]]]; unfold disjoint_region, labels_base, operands_at, locals_at, n in *; cbn; lia.
  - by apply (entered_frame_kept m m1 f env c (args_words l m)).
  - rewrite (Hsaved 40) by lia. unfold m1. rewrite args_mem_saved by (unfold locals_at; fold env m T; lia).
    mem_read. unfold uint64, wrap. f_equal. unfold sp, n. fold m f. lia.
  - rewrite (Hsaved 16) by lia. unfold m1. rewrite args_mem_saved by (unfold locals_at; fold env m T; lia). by mem_read.
  - rewrite (Hsaved 64) by lia. unfold m1. rewrite args_mem_saved by (unfold locals_at; fold env m T; lia). by mem_read.
  - eapply unchanged_comp; (eapply unchanged_sub; [|first [exact Hu|exact HuM]]).
    + intros r [<-|Hin]; [|by exists r; split; [right; apply in_app_iff; right|lia]].
      exists (T, fn_frame_size m f). split; [by left|]. fold f env T. unfold fn_cells, locals_at in *. cbn. lia.
    + intros r [<-|[<-|[<-|Hin]]]; [| | |by exists r; split; [right; apply in_app_iff; left|lia]].
      all: exists (T, fn_frame_size m f); split; [by left|];
        unfold labels_base, operands_at, fn_cells, locals_at in *; fold T; cbn; lia.
Qed.

Lemma call_correct_witness :
  ∃ l' M, follow s_host call_func_from_interp (c_locals (c_caller + 84) c_caller 0, c_world)
          = Ok Next (l', alloc_node c_callee WASMInterpFrameT (fn_frame_size (wmem c_world) s_func) (set_mem M c_world))
    ∧ frame_lp l' = c_callee + 72 ∧ load M (c_callee + 72) 4 = le_bytes 4 9
    ∧ load M (c_callee + 76) 4 = replicate 4 x00
    ∧ label_target M (c_callee + 96) = s_code + 21 ∧ ldp M (FLD c_caller WASMInterpFrame "sp") = c_caller + 80.
Proof.
  destruct (call_correct s_host (c_locals (c_caller + 84) c_caller 0) c_world)
    as (l'&M&H1&_&_&_&_&_&_&H2&_&_&H3&H4&H5&_).
  - constructor; [|by vm_compute..| |].
    + constructor; [by vm_compute|by constructor; vm_compute|by vm_compute|by split; vm_compute| |].
      * by constructor; apply apartb_ok; vm_compute.
      * by apply apartb_ok; vm_compute.
    + by constructor; apply apartb_ok; vm_compute.
    + by apply apartb_ok; vm_compute.
  - exists l', M. split; [exact H1|]. split; [exact H2|]. destruct H4 as [_ _ _ _ _ _ _ _ K1 _ K2 _ _].
    split; [|split; [|split]].
    + etransitivity; [exact H3|]. by vm_compute.
    + exact K2.
    + etransitivity; [exact K1|]. by vm_compute.
    + etransitivity; [exact H5|]. by vm_compute.
Defined.
