(* ===== verification/Grow.v ===== *)
(** [memory.grow]: a request that the memory cannot take pushes -1 and changes
    nothing else; one that is served moves the contents of the linear memory,
    clears the new pages, records the new block in the object table and leaves
    the interpreter with the new size. *)
From stdpp Require Import base gmap list numbers strings.
From Stdlib Require Import Strings.Byte ZArith Lia.
From S2P Require Import Prelude CMemory WasmTypes PoolInfo Table ExecEnv Memory MemGrow Format Opcodes Leb.
From S2P Require Import Regs Macros DataOps NumericOps Control Interp Sample Steps Functions.

(** * The memory of a module *)

Definition inst_memory (m : mem) (module : Z) : Z := ldp m (FLD module WASMModuleInstance "default_memory").
Definition mi_data (m : mem) (i : Z) : Z := ldp m (FLD i WASMMemoryInstance "memory_data").
Definition mi_data_end (m : mem) (i : Z) : Z := ldp m (FLD i WASMMemoryInstance "memory_data_end").
Definition mi_heap (m : mem) (i : Z) : Z := ldp m (FLD i WASMMemoryInstance "heap_data").
Definition mi_heap_end (m : mem) (i : Z) : Z := ldp m (FLD i WASMMemoryInstance "heap_data_end").
Definition mi_pages (m : mem) (i : Z) : Z := load_Z m (FLD i WASMMemoryInstance "cur_page_count") 4.
Definition mi_max (m : mem) (i : Z) : Z := load_Z m (FLD i WASMMemoryInstance "max_page_count") 4.
Definition mi_page_size (m : mem) (i : Z) : Z := load_Z m (FLD i WASMMemoryInstance "num_bytes_per_page") 4.

Lemma mi_ranges m i :
  0 <= mi_pages m i < 2 ^ 32 ∧ 0 <= mi_max m i < 2 ^ 32 ∧ 0 <= mi_page_size m i < 2 ^ 32.
Proof. split_and!; apply (load_Z_range m _ 4); lia. Qed.

(** ** Requests that are refused *)

(** More than [delta] pages are not to be had: there is no memory, its maximum or
    the 32 bits of a size are exceeded, or neither [realloc] nor [malloc] has
    room. *)
Inductive refused (s : memory_state) (module delta : Z) (w : world) : mem → Prop :=
| no_memory_instance : inst_memory (wmem w) module = NULL → refused s module delta w (wmem w)
| too_many_pages i : i = inst_memory (wmem w) module → i ≠ NULL →
    Z.min (mi_max (wmem w) i) (2 ^ 32 - 1) < mi_pages (wmem w) i + delta →
    refused s module delta w (wmem w)
| too_many_bytes i : i = inst_memory (wmem w) module → i ≠ NULL →
    2 ^ 32 - 1 <= mi_page_size (wmem w) i * (mi_pages (wmem w) i + delta) →
    refused s module delta w (wmem w)
| no_room i m1 m2 : i = inst_memory (wmem w) module → i ≠ NULL →
    let n := mi_page_size (wmem w) i * (mi_pages (wmem w) i + delta) in
    mi_pages (wmem w) i + delta <= Z.min (mi_max (wmem w) i) (2 ^ 32 - 1) → n < 2 ^ 32 - 1 →
    wasm_runtime_realloc_internal s (mi_data (wmem w) i) (uint32 n) w = Ok NULL (set_mem m1 w) →
    wasm_runtime_malloc s n (set_mem m1 w) = Ok NULL (set_mem m2 w) →
    refused s module delta w m2.

Section Grow.
Context (s : memory_state) (migrate : Z → Z → Z → C Z).

(** The tests of the function, with the fields of the memory read. *)
Lemma enlarge_tests module delta w : 0 < delta < 2 ^ 32 →
  let m := wmem w in
  let i := inst_memory m module in
  i ≠ NULL →
  let total := mi_page_size m i * (mi_pages m i + delta) in
  wasm_enlarge_memory s migrate module delta w
  = if Z.min (mi_max m i) (2 ^ 32 - 1) <? mi_pages m i + delta then Ok false w
    else if 2 ^ 32 - 1 <=? total then Ok false w
    else
      (let heap_size := uint32 (mi_heap_end m i - mi_heap m i) in
       let size_old := uint32 (mi_data_end m i - mi_data m i) in
       let* p := grow_block s (mi_data m i) size_old total in
       if p =? NULL then mret false
       else
         alloc_info_buf p uint8T total ;;;
         memset_zero (p + size_old) (uint32 (total - size_old)) ;;;
         let* migrated :=
           if 0 <? heap_size
           then let* handle := ld 8 (FLD i WASMMemoryInstance "heap_handle") in
                migrate handle (mi_heap m i + (p - mi_data m i)) heap_size
           else mret 0 in
         if negb (migrated =? 0) then mret false
         else
           st 8 (FLD i WASMMemoryInstance "memory_data") p ;;;
           st 4 (FLD i WASMMemoryInstance "cur_page_count") (mi_pages m i + delta) ;;;
           st 8 (FLD i WASMMemoryInstance "heap_data") (mi_heap m i + (p - mi_data m i)) ;;;
           let* heap_data := ld 8 (FLD i WASMMemoryInstance "heap_data") in
           st 8 (FLD i WASMMemoryInstance "heap_data_end") (heap_data + heap_size) ;;;
           let* memory_data := ld 8 (FLD i WASMMemoryInstance "memory_data") in
           let* page_size := ld 4 (FLD i WASMMemoryInstance "num_bytes_per_page") in
           st 8 (FLD i WASMMemoryInstance "memory_data_end")
             (memory_data + uint32 (page_size * (mi_pages m i + delta))) ;;;
           mret true) w.
Proof.
  intros Hd m i Hi total. destruct (mi_ranges m i) as (Hp&Hx&Hz). unfold wasm_enlarge_memory.
  erewrite mbind_ok by reflexivity. fold m. fold (ldp m (FLD module WASMModuleInstance "default_memory")).
  fold (inst_memory m module). fold i. rewrite (proj2 (Z.eqb_neq i NULL)) by done.
  do 7 erewrite mbind_ok by reflexivity. fold m.
  fold (ldp m (FLD i WASMMemoryInstance "memory_data")). fold (mi_data m i).
  fold (ldp m (FLD i WASMMemoryInstance "heap_data")). fold (mi_heap m i).
  fold (ldp m (FLD i WASMMemoryInstance "heap_data_end")). fold (mi_heap_end m i).
  fold (ldp m (FLD i WASMMemoryInstance "memory_data_end")). fold (mi_data_end m i).
  fold (mi_pages m i). fold (mi_max m i). fold (mi_page_size m i). cbv zeta.
  rewrite (proj2 (Z.leb_gt delta 0)) by lia.
  destruct (Z.ltb_spec (Z.min (mi_max m i) (2 ^ 32 - 1)) (mi_pages m i + delta)) as [Ho|Ho].
  - assert ((uint32 (delta + mi_pages m i) <? mi_pages m i) || (mi_max m i <? uint32 (delta + mi_pages m i)) = true) as ->; [|done].
    apply orb_true_iff. rewrite !Z.ltb_lt. unfold uint32, wrap.
    destruct (Z.lt_ge_cases (delta + mi_pages m i) (2 ^ 32)); [right; rewrite Z.mod_small; lia|left].
    rewrite <- (Z.mod_add _ (-1)), Z.mod_small by lia. lia.
  - assert (uint32 (delta + mi_pages m i) = mi_pages m i + delta) as -> by (unfold uint32; rewrite wrap_small; lia).
    rewrite (proj2 (Z.ltb_ge (mi_pages m i + delta) _)), (proj2 (Z.ltb_ge (mi_max m i) _)) by lia. cbn [orb].
    assert (uint64 (mi_page_size m i * (mi_pages m i + delta)) = total) as ->; [|by destruct (_ <=? total)].
    unfold uint64, total. apply wrap_small. nia.
Qed.

Lemma set_mem_id w : set_mem (wmem w) w = w.
Proof. by destruct w. Qed.

Lemma enlarge_refused module delta w m' : 0 < delta < 2 ^ 32 → refused s module delta w m' →
  wasm_enlarge_memory s migrate module delta w = Ok false (set_mem m' w).
Proof.
  intros Hd [E|i -> Hi Ho|i -> Hi Ho|i m1 m2 -> Hi n Hp Hn E1 E2].
  - rewrite set_mem_id. unfold wasm_enlarge_memory. erewrite mbind_ok by reflexivity.
    fold (ldp (wmem w) (FLD module WASMModuleInstance "default_memory")). fold (inst_memory (wmem w) module).
    by rewrite E.
  - rewrite set_mem_id, enlarge_tests by done. by rewrite (proj2 (Z.ltb_lt _ _)) by done.
  - rewrite set_mem_id, enlarge_tests by done. destruct (_ <? _); [done|].
    by rewrite (proj2 (Z.leb_le _ _)) by done.
  - rewrite enlarge_tests by done. fold n. rewrite (proj2 (Z.ltb_ge _ _)), (proj2 (Z.leb_gt _ n)) by done. cbv zeta.
    assert (wasm_runtime_realloc s (mi_data (wmem w) (inst_memory (wmem w) module)) n w = Ok NULL (set_mem m1 w)) as E.
    { unfold wasm_runtime_realloc. by rewrite (mbind_ok _ _ _ _ _ E1). }
    unfold grow_block. rewrite mbind_assoc, (mbind_ok _ _ _ _ _ E). cbv beta.
    change (negb (NULL =? NULL)) with false. cbv iota.
    rewrite mbind_assoc, (mbind_ok _ _ _ _ _ E2). cbv beta. done.
Qed.

(** ** Requests that are served *)

Definition old_size (m : mem) (i : Z) : Z := mi_page_size m i * mi_pages m i.
Definition new_size (m : mem) (i delta : Z) : Z := mi_page_size m i * (mi_pages m i + delta).

(** The memory [i] has no heap of its own and its block is in the object table;
    [realloc] moves the bytes of the memory to the block at [p], and of the rest
    it only writes to its own words [A]. *)
Record growable (i delta : Z) (w : world) (A : list region) (p : Z) (m1 : mem) : Prop := {
  gr_size : mi_data_end (wmem w) i = mi_data (wmem w) i + old_size (wmem w) i;
  gr_heap : mi_heap (wmem w) i = mi_heap_end (wmem w) i;
  gr_pages : mi_pages (wmem w) i + delta <= Z.min (mi_max (wmem w) i) (2 ^ 32 - 1);
  gr_bytes : new_size (wmem w) i delta < 2 ^ 32 - 1;
  gr_realloc : wasm_runtime_realloc_internal s (mi_data (wmem w) i) (uint32 (new_size (wmem w) i delta)) w
               = Ok p (set_mem m1 w);
  gr_contents : load m1 p (Z.to_nat (old_size (wmem w) i))
                = load (wmem w) (mi_data (wmem w) i) (Z.to_nat (old_size (wmem w) i));
  gr_writes : unchanged_outside ((p, new_size (wmem w) i delta) :: A) (wmem w) m1;
  gr_block : 0 < p ∧ p + new_size (wmem w) i delta < 2 ^ 64;
  gr_apart : apart i (SIZEOF WASMMemoryInstance) ((p, new_size (wmem w) i delta) :: A);
  gr_data : mi_data (wmem w) i ≠ NULL;
  gr_table : table_ok (pool_allocator w) (root_info w);
  gr_node : (∃ nd, nd ∈ root_info w ∧ p_raw (head nd) = mi_data (wmem w) i);
  gr_near : near (pool_allocator w) p;
  gr_new : p = mi_data (wmem w) i ∨ p ∉ raws (root_info w)
}.

Lemma dropped w nd p :
  table_ok (pool_allocator w) (root_info w) → nd ∈ root_info w →
  (p = p_raw (head nd) ∨ p ∉ raws (root_info w)) →
  ∃ root, (∀ m, free_info (p_raw (head nd)) (set_mem m w) = Ok tt (set_root_info root (set_mem m w)))
    ∧ table_ok (pool_allocator w) root ∧ p ∉ raws root.
Proof.
  intros Hok Hin Hp. destruct (remove_raw_head (p_raw (head nd)) (root_info w)) as [root Hr]; [by exists nd|].
  destruct (remove_raw_some _ _ _ Hr) as (pre&j&post&E&->&Ej). rewrite E in Hok.
  destruct (table_ok_remove _ _ _ _ Hok) as [Hok' Hni]. exists (pre ++ post).
  split; [by intros m; unfold free_info; cbn [root_info set_mem]; rewrite Hr|]. split; [done|]. destruct Hp as [->|Hp]; [by rewrite <- Ej|].
  intros Ha. apply Hp. rewrite E. unfold raws in *. rewrite !all_elems_app, all_elems_cons in *.
  rewrite !fmap_app, !elem_of_app in *. tauto.
Qed.

(** The new pages are cleared and the fields of the instance are set. *)
Definition cleared (m : mem) (p n0 n : Z) : mem := store m (p + n0) (replicate (Z.to_nat (n - n0)) x00).
Definition instance_set (m : mem) (i p pages heap n : Z) : mem :=
  let m1 := store_Z m (FLD i WASMMemoryInstance "memory_data") 8 p in
  let m2 := store_Z m1 (FLD i WASMMemoryInstance "cur_page_count") 4 pages in
  let m3 := store_Z m2 (FLD i WASMMemoryInstance "heap_data") 8 heap in
  let m4 := store_Z m3 (FLD i WASMMemoryInstance "heap_data_end") 8 (uint64 heap) in
  store_Z m4 (FLD i WASMMemoryInstance "memory_data_end") 8 (p + n).

Record enlarged (i delta : Z) (w : world) (A : list region) (p : Z) (w' : world) : Prop := {
  en_data : mi_data (wmem w') i = p;
  en_data_end : mi_data_end (wmem w') i = p + new_size (wmem w) i delta;
  en_pages : mi_pages (wmem w') i = mi_pages (wmem w) i + delta;
  en_page_size : mi_page_size (wmem w') i = mi_page_size (wmem w) i;
  en_max : mi_max (wmem w') i = mi_max (wmem w) i;
  en_heap : mi_heap (wmem w') i = mi_heap_end (wmem w') i;
  en_contents : load (wmem w') p (Z.to_nat (old_size (wmem w) i))
                = load (wmem w) (mi_data (wmem w) i) (Z.to_nat (old_size (wmem w) i));
  en_zero : load (wmem w') (p + old_size (wmem w) i) (Z.to_nat (new_size (wmem w) i delta - old_size (wmem w) i))
            = replicate (Z.to_nat (new_size (wmem w) i delta - old_size (wmem w) i)) x00;
  en_table : table_ok (pool_allocator w') (root_info w');
  en_known : get_raw p w' = Ok (Some (mkInfo (mkElem (p - pool_allocator w) p
               (int32 (new_size (wmem w) i delta)) uint8T) [])) w';
  en_rest : unchanged_outside ((p, new_size (wmem w) i delta) :: (i, SIZEOF WASMMemoryInstance) :: A)
              (wmem w) (wmem w')
}.

Lemma enlarge_run module i delta w A p m1 : 0 < delta < 2 ^ 32 → i = inst_memory (wmem w) module → i ≠ NULL →
  growable i delta w A p m1 →
  let n0 := old_size (wmem w) i in
  let n := new_size (wmem w) i delta in
  ∃ root, table_ok (pool_allocator w) root ∧ (p ∉ raws root)
    ∧ wasm_enlarge_memory s migrate module delta w
      = Ok true (alloc_node p uint8T n (set_root_info root
          (set_mem (instance_set (cleared m1 p n0 n) i p (mi_pages (wmem w) i + delta)
                      (mi_heap (wmem w) i + (p - mi_data (wmem w) i)) n) w))).
Proof.
  intros Hd Ei Hi [Hsz Hheap Hpg Hby Hre _ Hw [Hp0 Hp1] Hap Hdata Htab (nd&Hnd&End) Hnear Hnew] n0 n.
  fold n in Hby, Hre, Hw, Hp1, Hap. set (m := wmem w) in *. destruct (mi_ranges m i) as (Hr1&_&Hr3).
  rewrite <- End in Hnew. destruct (dropped w nd p Htab Hnd Hnew) as (root&Hf&Hroot&Hni). rewrite End in Hf.
  exists root. split; [done|]. split; [done|].
  pose proof (enlarge_tests module delta w Hd) as E. cbv zeta in E. fold m in E. rewrite <- Ei in E.
  rewrite (E Hi). clear E. fold (new_size m i delta). fold n.
  rewrite (proj2 (Z.ltb_ge _ _)), (proj2 (Z.leb_gt _ n)) by done.
  assert (0 <= n0 <= n) as Hn0 by (unfold n0, n, old_size, new_size; nia).
  rewrite Hsz, Hheap, Z.sub_diag. change (uint32 0) with 0. fold n0.
  replace (mi_data m i + n0 - mi_data m i) with n0 by lia.
  assert (uint32 n0 = n0) as -> by (apply wrap_small; lia).
  set (w1 := set_root_info root (set_mem m1 w)).
  assert (wasm_runtime_realloc s (mi_data m i) n w = Ok p w1) as Er.
  { unfold wasm_runtime_realloc. rewrite (mbind_ok _ _ _ _ _ Hre). cbv beta.
    rewrite (proj2 (Z.eqb_neq p NULL)) by (unfold NULL; lia). cbn [negb].
    by rewrite (mbind_ok _ _ _ _ _ (Hf m1)). }
  unfold grow_block. rewrite mbind_assoc, (mbind_ok _ _ _ _ _ Er). cbv beta.
  rewrite (proj2 (Z.eqb_neq p NULL)) by (unfold NULL; lia). cbn [negb]. cbv iota.
  change (mbind (mret p) ?k w1) with (k p w1). cbv beta. rewrite (proj2 (Z.eqb_neq p NULL)) by (unfold NULL; lia).
  assert (alloc_info_buf p uint8T n w1 = Ok tt (alloc_node p uint8T n w1)) as Ea
    by (unfold alloc_info_buf; by rewrite (proj2 (Z.eqb_neq p NULL)) by (unfold NULL; lia)).
  rewrite (mbind_ok _ _ _ _ _ Ea). cbv beta.
  assert (uint32 (n - n0) = n - n0) as -> by (apply wrap_small; lia).
  set (m2 := cleared m1 p n0 n).
  set (w2 := set_mem m2 (alloc_node p uint8T n w1)).
  assert (memset_zero (p + n0) (n - n0) (alloc_node p uint8T n w1) = Ok tt w2) as Em by reflexivity.
  rewrite (mbind_ok _ _ _ _ _ Em). cbv beta. change (0 <? 0) with false. cbv iota.
  change (mbind (mret 0) ?k w2) with (k 0 w2). cbv beta. change (negb (0 =? 0)) with false. cbv iota.
  do 4 erewrite mbind_ok by reflexivity. cbv beta. cbn [wmem set_mem]. change (wmem w2) with m2.
  set (m5 := store_Z (store_Z (store_Z m2 _ 8 _) _ 4 _) _ 8 _).
  rewrite Z.add_0_r. do 3 erewrite mbind_ok by reflexivity. cbv beta. cbn [wmem set_mem].
  assert (unchanged_outside ((p, n) :: A) m m2) as U2.
  { apply (unchanged_put _ _ _ _ _ (n - n0)); [done|rewrite length_replicate; lia|apply covered_head; lia]. }
  assert (load_Z m2 (FLD i WASMMemoryInstance "num_bytes_per_page") 4 = mi_page_size m i) as Eps.
  { apply (unchanged_word ((p, n) :: A)); [done|lia|]. eapply apart_sub; [| | |exact Hap]; lia. }
  assert (load_Z m5 (i + 24) 8 = uint64 (mi_heap_end m i + (p - mi_data m i))) as Eh
    by (unfold m5; by rewrite load_store_Z_eq by lia).
  rewrite Eh. unfold instance_set. cbv zeta. fold m2 m5.
  set (m6 := store_Z m5 (i + 32) 8 _).
  assert (load_Z m6 (i + 56) 8 = p) as Ed.
  { unfold m6, m5. do 3 rewrite load_store_Z_ne by lia. rewrite load_store_Z_eq by lia. apply Z.mod_small. lia. }
  assert (load_Z m6 (i + 8) 4 = mi_page_size m i) as Ep.
  { rewrite <- Eps. unfold m6, m5. by do 4 rewrite load_store_Z_ne by lia. }
  rewrite Ed, Ep. assert (uint32 (mi_page_size m i * (mi_pages m i + delta)) = n) as ->; [|reflexivity].
  unfold n, new_size in *. apply wrap_small. nia.
Qed.

Lemma enlarge_ok module i delta w A p m1 : 0 < delta < 2 ^ 32 → i = inst_memory (wmem w) module → i ≠ NULL →
  growable i delta w A p m1 →
  ∃ w', wasm_enlarge_memory s migrate module delta w = Ok true w' ∧ enlarged i delta w A p w'.
Proof.
  intros Hd Ei Hi Hg. destruct (enlarge_run module i delta w A p m1 Hd Ei Hi Hg) as (root&Hroot&Hni&E).
  eexists. split; [exact E|]. destruct Hg as [Hsz Hheap Hpg Hby Hre Hct Hw [Hp0 Hp1] Hap Hdata Htab _ Hnear _].
  set (m := wmem w) in *. set (n0 := old_size m i) in *. set (n := new_size m i delta) in *.
  destruct (mi_ranges m i) as (Hr1&Hr2&Hr3).
  assert (0 <= n0 <= n) as Hn0 by (unfold n0, n, old_size, new_size; nia).
  set (h := mi_heap m i + (p - mi_data m i)) in *. set (m2 := cleared m1 p n0 n) in *.
  set (M := instance_set m2 i p _ h n). set (w1 := set_root_info root (set_mem M w)).
  assert (unchanged_outside ((p, n) :: A) m m2) as U2.
  { apply (unchanged_put _ _ _ _ _ (n - n0)); [done|rewrite length_replicate; lia|apply covered_head; lia]. }
  assert (unchanged_outside [(i, 64)] m2 M) as UM.
  { unfold M, instance_set. cbv zeta. do 5 (apply unchanged_put_Z; [|lia|apply covered_head; lia]). apply unchanged_refl. }
  assert (disjoint_region (p, n) (i, 64)) as Hpi by (apply Hap; by left).
  assert (∀ o k, 0 <= o → 0 <= k → o + k <= 64 → load_Z m2 (i + o) k = load_Z m (i + o) k) as Hkeep.
  { intros o k ???. apply (unchanged_word ((p, n) :: A)); [done|lia|]. eapply apart_sub; [| | |exact Hap]; lia. }
  assert (∀ k a, p <= a → a + Z.of_nat k <= p + n → load M a k = load m2 a k) as HM.
  { intros k a Ha1 Ha2. apply (unchanged_load [(i, 64)]); [done|].
    intros r [<-|[]]. unfold disjoint_region in *. cbn in *. lia. }
  constructor; change (wmem (alloc_node p uint8T n w1)) with M; fold m n0 n.
  - unfold mi_data, M, instance_set, ldp. mem_read. apply Z.mod_small. lia.
  - unfold mi_data_end, M, instance_set, ldp. mem_read. apply Z.mod_small. lia.
  - unfold mi_pages at 1. unfold M, instance_set. mem_read. apply Z.mod_small. lia.
  - unfold mi_page_size at 1. unfold M, instance_set. mem_read. by apply Hkeep.
  - unfold mi_max at 1. unfold M, instance_set. mem_read. by apply Hkeep.
  - unfold mi_heap, mi_heap_end, M, instance_set, ldp. mem_read. symmetry. by apply (wrap_wrap 64).
  - rewrite HM by lia. unfold m2, cleared. rewrite load_store_ne by lia. done.
  - rewrite HM by lia. apply load_store_eq. by rewrite length_replicate.
  - by apply (alloc_node_ok w1).
  - unfold get_raw. rewrite (proj2 (Z.eqb_neq p NULL)) by (unfold NULL; lia). cbn. rewrite Z.eqb_refl.
    rewrite int32_small; [done|]. unfold near in Hnear. lia.
  - eapply unchanged_comp; (eapply unchanged_incl; [|first [exact U2|exact UM]]).
    + intros r [<-|Hr]; [by left|by right; right].
    + intros r [<-|[]]. by right; left.
Qed.
End Grow.

(** * The instruction *)

Lemma grow_start h l w r p : leb_uint32 (wmem w) (frame_ip l) = Some (r, p) →
  let delta := load_Z (wmem w) (frame_sp l - 4) 4 in
  let l1 := set_frame_sp (frame_sp l - 4) (set_frame_ip p l) in
  handle_op h WASM_OP_MEMORY_GROW (l, w)
  = (let* ok := lift (wasm_enlarge_memory (h_memory h) (h_migrate h) (module l) delta) in
     if negb ok then op_end (PUSH_I32 (-1))
     else
       PUSH_I32 (mi_pages (wmem w) (memory l)) ;;;
       let* memory := ldr 8 (FLD (module l) WASMModuleInstance "default_memory") in
       assign set_memory memory ;;;
       let* num_bytes_per_page := reg num_bytes_per_page in
       let* cur_page_count := ldr 4 (FLD memory WASMMemoryInstance "cur_page_count") in
       op_end (assign set_linear_mem_size (uint32 (num_bytes_per_page * cur_page_count)))) (l1, w).
Proof.
  intros Er delta l1. change (handle_op h WASM_OP_MEMORY_GROW) with (memory_grow (h_memory h) (h_migrate h)).
  unfold memory_grow. rewrite (mbind_ok _ _ _ _ _ (reg_ok _ l w)). cbv beta.
  rewrite (mbind_ok _ _ _ _ _ (ldr_ok _ _ l w)). cbv beta.
  rewrite (mbind_ok _ _ _ _ _ (read_uint32_ok l w _ _ Er)). cbv beta.
  rewrite (mbind_ok _ _ _ _ _ (pop_s_ok 4 _ w (or_introl eq_refl))). cbv beta.
  rewrite (mbind_ok _ _ _ _ _ (reg_ok _ _ w)). cbv beta. cbn [frame_sp set_frame_ip].
  pose proof (operand_range (wmem w) (frame_sp l - 4) 4 (or_introl eq_refl)). unfold uint32.
  rewrite wrap_swrap, wrap_small by (done || lia). reflexivity.
Qed.


(** The memory of the sample module, which the embedder's [realloc] moves. *)
Definition g_moved : Z := 80000.
Definition g_moves : alloc_funcs :=
  mkFuncs (fun _ => mret NULL)
    (fun p _ => modify (fun w => set_mem (store (wmem w) g_moved (load (wmem w) p 64)) w) ;;; mret g_moved)
    (fun _ => skip).
Definition g_host : host :=
  mkHost (mkMemory MEMORY_MODE_ALLOCATOR no_memory g_moves true) (h_migrate s_host) (h_invoke s_host)
    (h_nan32 s_host) (h_nan64 s_host) (h_init_wasi s_host) (h_resolve_symbol s_host).

Definition g_locals : locals :=
  mkLocals s_inst 0 0 0 s_memory 64 0 64 0 0 0 0 0 7001 0 6004 0 0 0 0 0 0 0 0 0 0 0 0 0 0 0 0 0 0 0 0 0 0 0 0 0 0.
Definition g_world (delta : Z) : world :=
  set_root_info [mkInfo (mkElem (s_data - 65536) s_data 64 uint8T) []]
    (set_mem (foldl put_word (wmem s_world)
      [(7000, 1, opcode_code WASM_OP_MEMORY_GROW); (7001, 1, 0); (6000, 4, delta); (s_data + 7, 1, 0x2a)]) s_world).
Definition g_mem (delta : Z) : mem := store (wmem (g_world delta)) g_moved (load (wmem (g_world delta)) s_data 64).

