(* ===== verification/MemOps.v ===== *)
(** The loads and stores of the interpreter: the effective address is the sum of
    the operand and the offset of the code without wrapping, an access is made
    exactly when it lies in the linear memory, and it reads or writes the value
    the specification names. *)
From stdpp Require Import base gmap list numbers strings.
From Stdlib Require Import Strings.Byte ZArith Lia.
From S2P Require Import Prelude CMemory WasmTypes PoolInfo ExecEnv Opcodes Numeric Leb.
From S2P Require Import Regs Macros DataOps NumericOps Control Interp Sample Steps.

(** * Instructions *)

Inductive num_type := I32 | I64 | F32 | F64.

Definition bytes_of_type (t : num_type) : Z := match t with I32 | F32 => 4 | I64 | F64 => 8 end.

(** A load of a whole value, or of eight, sixteen or thirty-two bits, with the
    width of the result and whether they are signed. *)
Inductive load_op := Load (t : num_type) | Load8 (w32 s : bool) | Load16 (w32 s : bool) | Load32 (s : bool).
Inductive store_op := Store (t : num_type) | Store8 (w32 : bool) | Store16 (w32 : bool) | Store32.

Definition width (w32 : bool) : Z := if w32 then 4 else 8.

Definition load_opcode (o : load_op) : WASMOpcode :=
  match o with
  | Load I32 => WASM_OP_I32_LOAD | Load I64 => WASM_OP_I64_LOAD
  | Load F32 => WASM_OP_F32_LOAD | Load F64 => WASM_OP_F64_LOAD
  | Load8 true true => WASM_OP_I32_LOAD8_S | Load8 true false => WASM_OP_I32_LOAD8_U
  | Load8 false true => WASM_OP_I64_LOAD8_S | Load8 false false => WASM_OP_I64_LOAD8_U
  | Load16 true true => WASM_OP_I32_LOAD16_S | Load16 true false => WASM_OP_I32_LOAD16_U
  | Load16 false true => WASM_OP_I64_LOAD16_S | Load16 false false => WASM_OP_I64_LOAD16_U
  | Load32 true => WASM_OP_I64_LOAD32_S | Load32 false => WASM_OP_I64_LOAD32_U
  end.

(** Bytes read, bytes pushed, and the sign. *)
Definition load_bytes (o : load_op) : Z :=
  match o with Load t => bytes_of_type t | Load8 _ _ => 1 | Load16 _ _ => 2 | Load32 _ => 4 end.
Definition load_cell (o : load_op) : Z :=
  match o with Load t => bytes_of_type t | Load8 w32 _ | Load16 w32 _ => width w32 | Load32 _ => 8 end.
Definition load_signed (o : load_op) : bool :=
  match o with Load _ => false | Load8 _ s | Load16 _ s | Load32 s => s end.

(** The value of [n] bytes, extended. *)
Definition extend (s : bool) (n v : Z) : Z := if s then swrap (8 * n) v else v.

Definition store_opcode (o : store_op) : WASMOpcode :=
  match o with
  | Store I32 => WASM_OP_I32_STORE | Store I64 => WASM_OP_I64_STORE
  | Store F32 => WASM_OP_F32_STORE | Store F64 => WASM_OP_F64_STORE
  | Store8 true => WASM_OP_I32_STORE8 | Store8 false => WASM_OP_I64_STORE8
  | Store16 true => WASM_OP_I32_STORE16 | Store16 false => WASM_OP_I64_STORE16
  | Store32 => WASM_OP_I64_STORE32
  end.
Definition store_bytes (o : store_op) : Z :=
  match o with Store t => bytes_of_type t | Store8 _ => 1 | Store16 _ => 2 | Store32 => 4 end.
Definition store_cell (o : store_op) : Z :=
  match o with Store t => bytes_of_type t | Store8 w32 | Store16 w32 => width w32 | Store32 => 8 end.

(** * Addresses *)

Definition memory_data (l : locals) (w : world) : Z :=
  load_Z (wmem w) (FLD (memory l) WASMMemoryInstance "memory_data") 8.

(** The immediates of the instruction at [frame_ip]. *)
Definition memarg (l : locals) (w : world) (offset p : Z) : Prop :=
  ∃ flags q, leb_uint32 (wmem w) (frame_ip l) = Some (flags, q)
    ∧ leb_uint32 (wmem w) q = Some (offset, p).

Lemma memarg_ok {A} l w offset p (k : Z → R A) : memarg l w offset p →
  (let* _flags := read_leb_uint32 in let* offset := read_leb_uint32 in k offset) (l, w)
  = k offset (set_frame_ip p l, w).
Proof.
  intros (flags&q&E1&E2). rewrite (mbind_ok _ _ _ _ _ (read_uint32_ok _ _ _ _ E1)).
  by rewrite (mbind_ok _ _ _ _ _ (read_uint32_ok (set_frame_ip q l) w _ _ E2)).
Qed.

Lemma memarg_range l w offset p : memarg l w offset p → 0 <= offset < 2 ^ 32.
Proof. intros (?&?&_&E). by eapply leb_uint32_range. Qed.

Lemma check_ok offset addr bytes k l w : 0 <= offset < 2 ^ 32 → 0 <= addr < 2 ^ 32 → 0 <= bytes <= 8 →
  CHECK_MEMORY_OVERFLOW offset addr bytes k (l, w)
  = if addr + offset + bytes <=? linear_mem_size l
    then k (set_maddr (memory_data l w + (addr + offset)) l, w)
    else Ok out_of_bounds (l, w).
Proof.
  intros Ho Ha Hb. unfold CHECK_MEMORY_OVERFLOW. cbv zeta.
  rewrite (mbind_ok _ _ _ _ _ (reg_ok _ l w)). unfold uint64.
  rewrite (wrap_small 64 (offset + addr)), (wrap_small 64), (Z.add_comm offset) by lia.
  destruct (_ <=? _); [|done]. rewrite (mbind_ok _ _ _ _ _ (reg_ok _ l w)). cbv beta.
  by rewrite (mbind_ok _ _ _ _ _ (ldr_ok _ _ l w)), (mbind_ok _ _ _ _ _ (assign_ok _ _ l w)).
Qed.

(** * Loads *)

Lemma load_instr_ok bytes cell_bytes (f : Z → Z) l w offset p : cell cell_bytes → 0 <= bytes <= 8 →
  memarg l w offset p →
  let l1 := set_frame_sp (frame_sp l - 4) (set_frame_ip p l) in
  let ea := load_Z (wmem w) (frame_sp l - 4) 4 + offset in
  load_instr bytes (fun v => push cell_bytes (f v)) (l, w)
  = if ea + bytes <=? linear_mem_size l
    then let a := memory_data l w + ea in
         Ok HANDLE_OP_END (set_frame_sp (frame_sp l - 4 + cell_bytes) (set_maddr a l1),
           set_mem (store_Z (wmem w) (frame_sp l - 4) cell_bytes (f (load_Z (wmem w) a bytes))) w)
    else Ok out_of_bounds (l1, w).
Proof.
  intros Hc Hb Hm l1 ea. unfold load_instr. rewrite (memarg_ok l w offset p) by done.
  rewrite (mbind_ok _ _ _ _ _ (pop_s_ok 4 _ w (or_introl eq_refl))). cbv beta.
  pose proof (operand_range (wmem w) (frame_sp l - 4) 4 (or_introl eq_refl)) as Hr.
  unfold uint32. rewrite wrap_swrap, wrap_small by (done || lia).
  rewrite check_ok by (done || by eapply memarg_range). change (memory_data _ w) with (memory_data l w).
  cbn [frame_sp set_frame_ip linear_mem_size set_frame_sp]. fold ea.
  destruct (_ <=? _); [|done]. cbv zeta.
  rewrite (mbind_ok _ _ _ _ _ (reg_ok _ _ w)). cbv beta. rewrite (mbind_ok _ _ _ _ _ (ldr_ok _ _ _ w)).
  unfold op_end. by rewrite (mbind_ok _ _ _ _ _ (push_ok _ _ _ w Hc)).
Qed.

(** [i64.load32_s] keeps its opcode in the variable [opcode]. *)
Definition noted_opcode (o : load_op) (l : locals) (w : world) : locals :=
  match o with Load32 true => set_opcode (load_Z (wmem w) (frame_ip l - 1) 1) l | _ => l end.

Lemma noted_fields o l w :
  frame_ip (noted_opcode o l w) = frame_ip l ∧ frame_sp (noted_opcode o l w) = frame_sp l
  ∧ linear_mem_size (noted_opcode o l w) = linear_mem_size l ∧ memory (noted_opcode o l w) = memory l.
Proof. by destruct o as [| | |[]]. Qed.

Lemma load_cell_ok o : cell (load_cell o).
Proof. destruct o as [[]|[] ?|[] ?|?]; solve [by left|by right]. Qed.

(** The handler is the common part with the extension of the instruction. *)
Lemma handle_load_shape h o l w :
  handle_op h (load_opcode o) (l, w)
  = load_instr (load_bytes o) (fun v =>
      push (load_cell o) ((match o with
                           | Load8 true true => fun v => sign_ext_8_32 (swrap 8 v)
                           | Load8 false true => fun v => sign_ext_8_64 (swrap 8 v)
                           | Load16 true true => fun v => sign_ext_16_32 (swrap 16 v)
                           | Load16 false true => fun v => sign_ext_16_64 (swrap 16 v)
                           | Load32 true => fun v => sign_ext_32_64 (swrap 32 v)
                           | _ => fun v => v
                           end) v)) (noted_opcode o l w, w).
Proof. destruct o as [[]|[] []|[] []|[]]; reflexivity. Qed.

Lemma load_ext_ok o v :
  (match o with
   | Load8 true true => fun v => sign_ext_8_32 (swrap 8 v)
   | Load8 false true => fun v => sign_ext_8_64 (swrap 8 v)
   | Load16 true true => fun v => sign_ext_16_32 (swrap 16 v)
   | Load16 false true => fun v => sign_ext_16_64 (swrap 16 v)
   | Load32 true => fun v => sign_ext_32_64 (swrap 32 v)
   | _ => fun v => v
   end) v = extend (load_signed o) (load_bytes o) v.
Proof.
  destruct o as [[]|[] []|[] []|[]]; try done; unfold extend; cbn [load_signed load_bytes].
  - apply sign_ext_8_32_ok, (swrap_range 8). lia.
  - apply sign_ext_8_64_ok, (swrap_range 8). lia.
  - apply sign_ext_16_32_ok, (swrap_range 16). lia.
  - apply sign_ext_16_64_ok, (swrap_range 16). lia.
  - apply sign_ext_32_64_ok, (swrap_range 32). lia.
Qed.

(** C20: a load takes the value at the sum of its operand and its offset, which
    does not wrap, sign- or zero-extended to the width of its result, when all
    its bytes lie in the linear memory; otherwise it goes to the exception of
    an access out of bounds and reads nothing. *)
Theorem load_correct h o l w offset p :
  memarg l w offset p →
  let l1 := set_frame_sp (frame_sp l - 4) (set_frame_ip p (noted_opcode o l w)) in
  let ea := load_Z (wmem w) (frame_sp l - 4) 4 + offset in
  handle_op h (load_opcode o) (l, w)
  = if ea + load_bytes o <=? linear_mem_size l
    then let a := memory_data l w + ea in
         Ok HANDLE_OP_END
           (set_frame_sp (frame_sp l - 4 + load_cell o) (set_maddr a l1),
            set_mem (store_Z (wmem w) (frame_sp l - 4) (load_cell o)
                       (extend (load_signed o) (load_bytes o) (load_Z (wmem w) a (load_bytes o)))) w)
    else Ok out_of_bounds (l1, w).
Proof.
  intros Hm l1 ea. destruct (noted_fields o l w) as (Eip&Esp&Esz&Em).
  rewrite handle_load_shape, (load_instr_ok _ _ _ _ _ offset p).
  - unfold memory_data. rewrite Esp, Esz, Em. cbv zeta. fold ea.
    destruct (_ <=? _); [|done]. by rewrite load_ext_ok.
  - apply load_cell_ok.
  - destruct o as [[]|[] ?|[] ?|?]; simpl; lia.
  - unfold memarg. by rewrite Eip.
Qed.

(** * Stores *)

Definition store_result (o : store_op) (l : locals) (w : world) (offset p : Z) (l1 : locals) :
    outcome (locals * world) flow :=
  let k := store_cell o in
  let l1 := set_frame_sp (frame_sp l - k - 4) (set_frame_ip p l1) in
  let ea := load_Z (wmem w) (frame_sp l - k - 4) 4 + offset in
  if ea + store_bytes o <=? linear_mem_size l
  then let a := memory_data l w + ea in
       Ok HANDLE_OP_END (set_maddr a l1,
         set_mem (store_Z (wmem w) a (store_bytes o) (load_Z (wmem w) (frame_sp l - k) k)) w)
  else Ok out_of_bounds (l1, w).

(** Two words make a double word. *)
Lemma load_Z_split m a : load_Z m a 8 = load_Z m a 4 + 2 ^ 32 * load_Z m (a + 4) 4.
Proof.
  unfold load_Z. change (Z.to_nat 8) with (4 + 4)%nat. rewrite load_app.
  change (Z.to_nat 4) with 4%nat. change (Z.of_nat 4) with 4. cbn [load app le_Z]. lia.
Qed.

Lemma le_bytes_split n k v : le_bytes (n + k) v = le_bytes n v ++ le_bytes k (v / 256 ^ Z.of_nat n).
Proof.
  revert v. induction n as [|n IH]; intros v.
  - by rewrite Z.pow_0_r, Z.div_1_r.
  - change (le_bytes (S n + k) v) with (Z_byte v :: le_bytes (n + k) (v / 256)). rewrite IH.
    change (le_bytes (S n) v) with (Z_byte v :: le_bytes n (v / 256)).
    by rewrite Z.div_div, <- Z.pow_succ_r, Nat2Z.inj_succ by lia.
Qed.

Lemma store_Z_split m a v : store_Z (store_Z m a 4 v) (a + 4) 4 (v / 2 ^ 32) = store_Z m a 8 v.
Proof.
  unfold store_Z. change (Z.to_nat 8) with (4 + 4)%nat. change (Z.to_nat 4) with 4%nat.
  rewrite le_bytes_split, store_app, length_le_bytes. reflexivity.
Qed.

Lemma copy_cell_ok a b l w :
  copy_cell a b (l, w) = Ok tt (l, set_mem (store_Z (wmem w) a 4 (load_Z (wmem w) b 4)) w).
Proof. reflexivity. Qed.

Lemma store_operand_ok (t : num_type) l w offset p :
  memarg l w offset p →
  let k := bytes_of_type t in
  let ea := load_Z (wmem w) (frame_sp l - k - 4) 4 + offset in
  disjoint_region (memory_data l w + ea, k) (frame_sp l - k, k) →
  store_operand (k / 4) (l, w) = store_result (Store t) l w offset p l.
Proof.
  intros Hm k ea Hd. unfold store_operand. rewrite (memarg_ok l w offset p) by done.
  assert (k / 4 * 4 = k) as Hk by (by destruct t). assert (cell k) as Hc by (destruct t; solve [by left|by right]).
  unfold POP. rewrite mbind_assoc, (mbind_ok _ _ _ _ _ (reg_ok _ _ w)). cbv beta. rewrite Hk.
  rewrite (mbind_ok _ _ _ _ _ (assign_ok _ _ _ w)). cbv beta.
  rewrite (mbind_ok _ _ _ _ _ (pop_s_ok 4 _ w (or_introl eq_refl))). cbv beta.
  pose proof (operand_range (wmem w) (frame_sp l - k - 4) 4 (or_introl eq_refl)) as Hr.
  unfold uint32. cbn [frame_sp set_frame_sp set_frame_ip]. rewrite wrap_swrap, wrap_small by (done || lia).
  rewrite check_ok by (done || (by eapply memarg_range) || destruct Hc; lia).
  change (memory_data _ w) with (memory_data l w). unfold store_result. cbn [store_cell store_bytes]. fold k ea.
  cbn [linear_mem_size set_frame_sp set_frame_ip]. destruct (_ <=? _); [|done]. cbv zeta.
  rewrite (mbind_ok _ _ _ _ _ (reg_ok _ _ w)). cbv beta. rewrite (mbind_ok _ _ _ _ _ (reg_ok _ _ w)). cbv beta.
  cbn [maddr set_maddr frame_sp set_frame_sp]. set (a := memory_data l w + ea) in *.
  unfold op_end. rewrite mbind_assoc, (mbind_ok _ _ _ _ _ (copy_cell_ok _ _ _ w)). cbv beta.
  replace (frame_sp l - k - 4 + 4) with (frame_sp l - k) by lia.
  replace (frame_sp l - k - 4 + 8) with (frame_sp l - k + 4) by lia.
  destruct Hc as [E|E]; rewrite E; [done|]. change (8 / 4 =? 2) with true. cbv iota.
  rewrite (mbind_ok _ _ _ _ _ (copy_cell_ok _ _ _ _)). unfold mret. f_equal. f_equal.
  rewrite E in Hd. unfold disjoint_region in Hd. cbn [fst snd] in Hd.
  cbn [wmem set_mem]. rewrite load_store_Z_ne by lia. unfold set_mem. cbn. f_equal.
  rewrite <- (store_Z_split _ _ (load_Z (wmem w) (frame_sp l - 8) 8)), load_Z_split.
  pose proof (load_Z_range (wmem w) (frame_sp l - 8) 4). f_equal; [|lia].
  apply store_Z_mod; [lia|]. change (256 ^ 4) with (2 ^ 32). lia.
Qed.

Lemma store_narrow_ok k (bytes_of : Z → Z) n l w offset p : cell k →
  memarg l w offset p → bytes_of (load_Z (wmem w) (frame_ip l - 1) 1) = n → 0 <= n <= 4 →
  let ea := load_Z (wmem w) (frame_sp l - k - 4) 4 + offset in
  let l1 := set_frame_sp (frame_sp l - k - 4)
              (set_frame_ip p (set_opcode (load_Z (wmem w) (frame_ip l - 1) 1) l)) in
  store_narrow (pop_u k) bytes_of (l, w)
  = if ea + n <=? linear_mem_size l
    then let a := memory_data l w + ea in
         Ok HANDLE_OP_END (set_maddr a l1,
           set_mem (store_Z (wmem w) a n (load_Z (wmem w) (frame_sp l - k) k)) w)
    else Ok out_of_bounds (l1, w).
Proof.
  intros Hk Hm Hn Hb ea l1. unfold store_narrow, reload_opcode.
  rewrite mbind_assoc, (mbind_ok _ _ _ _ _ (reg_ok _ _ w)). cbv beta.
  rewrite mbind_assoc, (mbind_ok _ _ _ _ _ (ldr_ok _ _ _ w)). cbv beta.
  rewrite mbind_assoc, (mbind_ok _ _ _ _ _ (assign_ok _ _ _ w)). cbv beta.
  set (b := load_Z (wmem w) (frame_ip l - 1) 1) in *. unfold mret at 1. unfold mbind at 1.
  rewrite (memarg_ok _ _ offset p) by exact Hm.
  rewrite (mbind_ok _ _ _ _ _ (pop_u_ok _ _ w Hk)). cbv beta.
  rewrite (mbind_ok _ _ _ _ _ (pop_s_ok 4 _ w (or_introl eq_refl))). cbv beta.
  pose proof (operand_range (wmem w) (frame_sp l - k - 4) 4 (or_introl eq_refl)) as Hr.
  unfold uint32. cbn [frame_sp set_frame_sp set_frame_ip set_opcode].
  rewrite wrap_swrap, wrap_small by (done || lia). rewrite Hn.
  rewrite check_ok by (done || (by eapply memarg_range) || lia).
  change (memory_data _ w) with (memory_data l w). cbn [linear_mem_size set_frame_sp set_frame_ip set_opcode].
  fold ea. destruct (_ <=? _); [|done]. cbv zeta.
  rewrite (mbind_ok _ _ _ _ _ (reg_ok _ _ w)). cbv beta. unfold op_end.
  rewrite (mbind_ok _ _ _ _ _ (str_ok _ _ _ _ w)). cbn [maddr set_maddr]. unfold mret. do 3 f_equal.
  apply store_Z_mod; [lia|]. unfold wrap.
  assert (256 ^ n = 2 ^ (8 * n)) as -> by (by rewrite Z.pow_mul_r by lia).
  apply Z.mod_mod. pose proof (Z.pow_pos_nonneg 2 (8 * n)). lia.
Qed.

(** The narrow stores keep their opcode in the variable [opcode]. *)
Definition noted_store (o : store_op) (l : locals) : locals :=
  match o with Store _ => l | _ => set_opcode (opcode_code (store_opcode o)) l end.

(** C19: a store writes the low bytes of its operand at the sum of the address and
    the offset, which does not wrap, and no other byte, when all of them lie in
    the linear memory; otherwise it goes to the exception of an access out of
    bounds and the memory stays as it was. *)
Theorem store_correct h o l w offset p :
  memarg l w offset p →
  load_Z (wmem w) (frame_ip l - 1) 1 = opcode_code (store_opcode o) →
  let k := store_cell o in
  let ea := load_Z (wmem w) (frame_sp l - k - 4) 4 + offset in
  disjoint_region (memory_data l w + ea, k) (frame_sp l - k, k) →
  handle_op h (store_opcode o) (l, w) = store_result o l w offset p (noted_store o l)
  ∧ ∀ f l' w', handle_op h (store_opcode o) (l, w) = Ok f (l', w') →
      if ea + store_bytes o <=? linear_mem_size l
      then f = HANDLE_OP_END ∧ unchanged_outside [(memory_data l w + ea, store_bytes o)] (wmem w) (wmem w')
      else f = out_of_bounds ∧ w' = w.
Proof.
  intros Hm Hop k ea Hd.
  assert (handle_op h (store_opcode o) (l, w) = store_result o l w offset p (noted_store o l)) as E.
  { destruct o as [t|w32|w32|].
    - transitivity (store_operand (bytes_of_type t / 4) (l, w)); [by destruct t|]. by apply store_operand_ok.
    - destruct w32; (etransitivity; [apply (store_narrow_ok k _ 1); [solve [by left|by right]|done|by rewrite Hop|lia]
        |unfold store_result, noted_store; by rewrite <- Hop]).
    - destruct w32; (etransitivity; [apply (store_narrow_ok k _ 2); [solve [by left|by right]|done|by rewrite Hop|lia]
        |unfold store_result, noted_store; by rewrite <- Hop]).
    - etransitivity; [apply (store_narrow_ok k _ 4); [solve [by left|by right]|done|by rewrite Hop|lia]
        |unfold store_result, noted_store; by rewrite <- Hop]. }
  split; [done|]. intros f l' w'. rewrite E. unfold store_result. fold k ea. cbv zeta.
  destruct (_ <=? _); intros [= <- _ <-]; [|done]. split; [done|].
  unfold store_Z. cbn [wmem set_mem]. eapply unchanged_incl; [|apply unchanged_store].
  rewrite length_le_bytes. intros r. destruct o as [[]|[]|[]|]; simpl; auto.
Qed.

(** A frame that works on the sample memory: the operands are at 6000, the code is
    at 7000, and the offset of the instruction is 5. *)
Definition m_locals (sp : Z) : locals :=
  set_memory s_memory (set_linear_mem_size 64 (set_frame_sp sp (set_frame_ip 7001 no_locals))).
Definition m_world (op : WASMOpcode) (addr v : Z) : world :=
  set_mem (foldl put_word (wmem s_world)
    [(7000, 1, opcode_code op); (7001, 1, 2); (7002, 1, 5); (6000, 4, addr); (6004, 8, v);
     (s_data + 61, 2, 0xff7f)]) s_world.

(** Two bytes at the address 61 of 64 are loaded, four are not. *)
Lemma load_correct_witness :
  memarg (m_locals 6004) (m_world WASM_OP_I64_LOAD16_S 56 0) 5 7003
  ∧ match handle_op s_host WASM_OP_I64_LOAD16_S (m_locals 6004, m_world WASM_OP_I64_LOAD16_S 56 0) with
    | Ok f (l', w') => f = HANDLE_OP_END ∧ frame_sp l' = 6008 ∧ load_Z (wmem w') 6000 8 = 2 ^ 64 - 129
    | _ => False
    end
  ∧ match handle_op s_host WASM_OP_I32_LOAD (m_locals 6004, m_world WASM_OP_I32_LOAD 56 0) with
    | Ok f (l', w') => f = out_of_bounds ∧ frame_sp l' = 6000
    | _ => False
    end.
Proof.
  assert (∀ op, memarg (m_locals 6004) (m_world op 56 0) 5 7003) as Hm
    by (intros op; exists 2, 7002; destruct op; by vm_compute).
  split; [apply Hm|]. split.
  - change WASM_OP_I64_LOAD16_S with (load_opcode (Load16 false true)).
    rewrite (load_correct s_host _ _ _ 5 7003 (Hm _)). by vm_compute.
  - change WASM_OP_I32_LOAD with (load_opcode (Load I32)).
    rewrite (load_correct s_host _ _ _ 5 7003 (Hm _)). by vm_compute.
Defined.

(** The double word at 51 + 5 is written; at 52 + 5 it would end past the memory. *)
Lemma store_correct_witness :
  memarg (m_locals 6012) (m_world WASM_OP_I64_STORE 51 (2 ^ 64 - 2)) 5 7003
  ∧ match handle_op s_host WASM_OP_I64_STORE (m_locals 6012, m_world WASM_OP_I64_STORE 51 (2 ^ 64 - 2)) with
    | Ok f (l', w') => f = HANDLE_OP_END ∧ frame_sp l' = 6000 ∧ load_Z (wmem w') (s_data + 56) 8 = 2 ^ 64 - 2
    | _ => False
    end
  ∧ match handle_op s_host WASM_OP_I64_STORE (m_locals 6012, m_world WASM_OP_I64_STORE 52 7) with
    | Ok f (l', w') => f = out_of_bounds
    | _ => False
    end.
Proof.
  assert (memarg (m_locals 6012) (m_world WASM_OP_I64_STORE 51 (2 ^ 64 - 2)) 5 7003) as Hm
    by (exists 2, 7002; by vm_compute).
  assert (memarg (m_locals 6012) (m_world WASM_OP_I64_STORE 52 7) 5 7003) as Hm'
    by (exists 2, 7002; by vm_compute).
  split; [done|]. change WASM_OP_I64_STORE with (store_opcode (Store I64)). split.
  - destruct (store_correct s_host (Store I64) _ _ 5 7003 Hm) as [-> _]; [by vm_compute|by right; vm_compute|].
    by vm_compute.
  - destruct (store_correct s_host (Store I64) _ _ 5 7003 Hm') as [-> _]; [by vm_compute|by right; vm_compute|].
    by vm_compute.
Defined.
