(* ===== verification/Termination.v ===== *)
(** The loops that read an image end on every input, also on one that no
    checkpoint wrote: a turn that goes on has consumed bytes of its stream, so
    the length of the image bounds the number of turns.  This is what makes the
    bound of [restore_internal], [restore_table] and [restore_frame_loop]
    enough: a larger one gives the same result. *)
From stdpp Require Import base gmap list numbers strings.
From Stdlib Require Import Strings.Byte ZArith Lia.
From S2P Require Import Prelude CMemory WasmTypes PoolInfo ExecEnv Memory Dump Restore Checkpoint.

(** * Routines that do not put bytes back *)

Definition rest_len (s : stream) (w : world) : nat :=
  match get_file s w with FRead rest => length rest | _ => O end.

Definition forward {A} (c : C A) : Prop := ∀ w a w',
  c w = Ok a w' → ∀ s, (rest_len s w' <= rest_len s w)%nat.

Create HintDb forward discriminated.

Lemma forward_ret {A} (a : A) : forward (mret a).
Proof. intros w b w' H. by inversion H. Qed.
Lemma forward_exit {A} n : forward (A := A) (mexit n).
Proof. intros w b w' H. by inversion H. Qed.
Lemma forward_stuck {A} : forward (A := A) mstuck.
Proof. intros w b w' H. by inversion H. Qed.
Lemma forward_gets {A} (f : world → A) : forward (gets f).
Proof. intros w b w' H. by inversion H. Qed.
Lemma forward_modify f : (∀ s w, rest_len s (f w) = rest_len s w) → forward (modify f).
Proof. intros E w b w' H s. inversion H. by rewrite E. Qed.
Lemma forward_bind {A B} (c : C A) (k : A → C B) :
  forward c → (∀ a, forward (k a)) → forward (mbind c k).
Proof.
  intros Hc Hk w b w' H s. unfold mbind in H. destruct (c w) as [a w1| |] eqn:E; try done.
  specialize (Hc w a w1 E s). specialize (Hk a w1 b w' H s). lia.
Qed.
Lemma forward_mfor {X} (l : list X) (f : X → C unit) : (∀ x, forward (f x)) → forward (mfor l f).
Proof.
  intros Hf. induction l as [|x l IH]; [apply forward_ret|]. by apply forward_bind.
Qed.
Lemma forward_fwrite_bytes s bs : forward (fwrite_bytes s bs).
Proof.
  apply forward_modify. intros s' w. unfold rest_len.
  destruct (get_file s w) eqn:E; try done. destruct s, s'; simpl in *; by rewrite ?E.
Qed.
Lemma forward_fwrite s a sz n : forward (fwrite s a sz n).
Proof.
  intros w b w' H. unfold fwrite in H. destruct (n <? 0); [done|].
  by apply (forward_fwrite_bytes _ _ _ _ _ H).
Qed.

(** What is read is gone. *)
Lemma fread_bytes_len s n w bs w' :
  fread_bytes s n w = Ok bs w' →
  (rest_len s w' + Z.to_nat n = rest_len s w)%nat ∧ ∀ s', (rest_len s' w' <= rest_len s' w)%nat.
Proof.
  unfold fread_bytes, rest_len. destruct (get_file s w) as [| |rest] eqn:E; try done.
  destruct (_ || _) eqn:Eb; [done|]. intros H. inversion H; subst. apply orb_false_elim in Eb as [??].
  zbool. assert (length (drop (Z.to_nat n) rest) + Z.to_nat n = length rest)%nat
    by (rewrite length_drop; lia).
  split; [destruct s; simpl; lia|]. intros s'. destruct s, s'; simpl in *; rewrite ?E; lia.
Qed.

Lemma forward_fread_bytes s n : forward (fread_bytes s n).
Proof. intros w bs w' H s'. by apply (fread_bytes_len s n w bs w'). Qed.

Lemma forward_get_info abs : forward (get_info abs).
Proof.
  intros w i w' H. unfold get_info in H. repeat case_match; inversion H; by subst.
Qed.
Lemma forward_get_frame_info abs : forward (get_frame_info abs).
Proof.
  intros w i w' H. unfold get_frame_info in H. repeat case_match; inversion H; by subst.
Qed.

#[export] Hint Resolve forward_ret forward_exit forward_stuck forward_gets forward_fwrite_bytes
  forward_fwrite forward_fread_bytes forward_get_info forward_get_frame_info : forward.

(** Follows the structure of a routine. *)
Ltac go_forward :=
  repeat match goal with
  | |- forward (mbind _ _) => apply forward_bind; [|intros ?]
  | |- forward (mfor _ _) => apply forward_mfor; intros ?
  | |- forward (modify _) => by apply forward_modify; intros [] ?
  | |- forward (match ?x with _ => _ end) => destruct x
  | |- forward skip => apply forward_ret
  | |- forward _ => by auto with forward
  end.

(** * The restore routines *)

Lemma forward_fread_int s : forward (fread_int s).
Proof. unfold fread_int. go_forward. Qed.
Lemma forward_fread_uint s n : forward (fread_uint s n).
Proof. unfold fread_uint. go_forward. Qed.
Lemma forward_ld n a : forward (ld n a).
Proof. unfold ld. go_forward. Qed.
Lemma forward_st n a v : forward (st n a v).
Proof. unfold st. go_forward. Qed.
Lemma forward_fread s a sz n : forward (fread s a sz n).
Proof. unfold fread. go_forward. Qed.
Lemma forward_fwrite_int s v : forward (fwrite_int s v).
Proof. apply forward_fwrite_bytes. Qed.
#[export] Hint Resolve forward_fread_int forward_fread_uint forward_ld forward_st forward_fread
  forward_fwrite_int : forward.

Lemma forward_RESTORE_PTR s : forward (RESTORE_PTR_FROM s).
Proof. unfold RESTORE_PTR_FROM. go_forward. Qed.
#[export] Hint Resolve forward_RESTORE_PTR : forward.

Lemma forward_RESTORE_PTR_AT a : forward (RESTORE_PTR_AT a).
Proof. unfold RESTORE_PTR_AT. go_forward. Qed.
Lemma forward_check_p_abs e : forward (check_p_abs e).
Proof. unfold check_p_abs. go_forward. Qed.
Lemma forward_restore_name a : forward (restore_name a).
Proof. unfold restore_name. go_forward. Qed.
Lemma forward_init_value tag u : forward (restore_init_value tag u).
Proof. unfold restore_init_value. go_forward. Qed.
Lemma forward_global_value tag u : forward (restore_global_value tag u).
Proof. unfold restore_global_value. go_forward. Qed.
Lemma forward_cache_entry e : forward (restore_cache_entry e).
Proof. unfold restore_cache_entry. go_forward. Qed.
Lemma forward_get_func_code f : forward (wasm_get_func_code f).
Proof. unfold wasm_get_func_code. go_forward. Qed.
Lemma forward_fread_i64 s : forward (fread_i64 s).
Proof. unfold fread_i64. go_forward. Qed.
#[export] Hint Resolve forward_RESTORE_PTR_AT forward_check_p_abs forward_restore_name
  forward_init_value forward_global_value forward_cache_entry forward_get_func_code
  forward_fread_i64 : forward.

Lemma forward_init_expr e : forward (restore_init_expr e).
Proof. unfold restore_init_expr. go_forward. Qed.
Lemma forward_restore_rel a from item : forward (restore_rel a from item).
Proof. unfold restore_rel. go_forward. Qed.
#[export] Hint Resolve forward_init_expr forward_restore_rel : forward.

Lemma forward_branch_block f sp bb : forward (restore_branch_block f sp bb).
Proof. unfold restore_branch_block. go_forward. Qed.
#[export] Hint Resolve forward_branch_block : forward.

Lemma forward_restore_data t f i : restore_data t = Some f → forward (f i).
Proof.
  intros H. destruct t; inversion H; subst f; clear H;
    match goal with |- forward (?g _) => unfold g end;
    unfold restore_buffer, restore_ptrs, HEADER_RESTORE, HEADER_RESTORE_BUF, restore_block_addr_cache;
    go_forward.
Qed.

Lemma forward_call_restore t i : forward (call_restore t i).
Proof.
  unfold call_restore. destruct (type_of_code t) as [t'|]; [|apply forward_stuck].
  destruct (restore_data t') as [f|] eqn:E; [|apply forward_stuck].
  destruct i as [i|]; [|apply forward_stuck]. by eapply forward_restore_data.
Qed.

Lemma fread_int_len s w v w' :
  fread_int s w = Ok v w' → (rest_len s w' + 4 = rest_len s w)%nat.
Proof.
  unfold fread_int, mbind. destruct (fread_bytes s 4 w) as [bs w1| |] eqn:E; try done.
  intros H. inversion H; subst. by apply (fread_bytes_len _ _ _ _ _ E).
Qed.

(** A record takes twelve bytes for its header. *)
Lemma header_len {A} s (k : Z → C A) w a w' :
  (∀ t, forward (k t)) →
  (let* t := fread_int s in k t) w = Ok a w' → (rest_len s w' < rest_len s w)%nat.
Proof.
  intros Hk H. unfold mbind in H. destruct (fread_int s w) as [t w1| |] eqn:E; try done.
  apply fread_int_len in E. pose proof (Hk t w1 a w' H s). lia.
Qed.

Lemma restore_record_len w w' :
  restore_record w = Ok tt w' → (rest_len FP w' < rest_len FP w)%nat.
Proof.
  apply header_len. intros t. repeat (apply forward_bind; [by auto with forward|intros ?]).
  apply forward_call_restore.
Qed.

Lemma restore_frame_record_len w w' :
  restore_frame_record w = Ok tt w' → (rest_len GP w' < rest_len GP w)%nat.
Proof.
  apply header_len. intros t. repeat (apply forward_bind; [by auto with forward|intros ?]).
  destruct a1; [|apply forward_stuck]. by apply (forward_restore_data WASMInterpFrameT).
Qed.

(** * The loops *)

(** A loop that reads records until the stream is at its end. *)
Section Loop.
Context (s : stream) (record : C unit) (loop : nat → C unit).
Context (Hloop : ∀ n w, loop (S n) w
  = (let* eof := at_eof s in if (eof : bool) then skip else record ;;; loop n) w).
Context (Hlen : ∀ w w', record w = Ok tt w' → (rest_len s w' < rest_len s w)%nat).

Lemma loop_fuel n : ∀ k w,
  (rest_len s w < n)%nat → (rest_len s w < k)%nat → loop n w = loop k w.
Proof.
  induction n as [|n IH]; intros [|k] w H1 H2; try lia. rewrite !Hloop.
  assert (∃ b, at_eof s w = Ok b w) as [b E] by (by eexists).
  rewrite !(mbind_ok _ _ _ _ _ E). destruct b; [done|]. unfold mbind.
  destruct (record w) as [[] w1| |] eqn:Er; try done. specialize (Hlen _ _ Er). apply IH; lia.
Qed.
End Loop.

(** Whatever the file dump.img holds, the loop of [restore_internal] ends
    within the number of turns the length of the file gives: with any larger
    bound it has the same result. *)
Lemma restore_internal_terminates w n :
  (rest_len FP w < n)%nat → restore_loop n w = restore_internal w.
Proof.
  intros H. unfold restore_internal. erewrite mbind_ok by reflexivity.
  apply (loop_fuel FP restore_record restore_loop (fun _ _ => eq_refl) restore_record_len); [done|].
  unfold rest_len. simpl. lia.
Qed.

(** The loop over frame.img ends within the bound its length gives. *)
Lemma restore_frame_loop_terminates w n :
  (rest_len GP w < n)%nat → restore_frame_loop n w = restore_frame_loop (S (rest_len GP w)) w.
Proof.
  intros H.
  apply (loop_fuel GP restore_frame_record restore_frame_loop (fun _ _ => eq_refl)
           restore_frame_record_len); lia.
Qed.

(** ** pool_info.img *)

Lemma take_int_len img v rest :
  take_int img = Some (v, rest) → (length rest + 4 = length img)%nat.
Proof.
  unfold take_int. destruct (_ <? 4) eqn:E; [done|]. intros H. inversion H; subst. zbool.
  rewrite length_drop. lia.
Qed.

Lemma read_chain_len k : ∀ i p d t img es rest,
  read_chain k i p d t img = Some (es, rest) → (length rest <= length img)%nat.
Proof.
  induction k as [|k IH]; intros i p d t img es rest H; simpl in H; [by inversion H|].
  destruct (take_int img) as [[abs img1]|] eqn:E1; [|done].
  destruct (read_chain k (i + 1) p d t img1) as [[es1 img2]|] eqn:E2; [|done].
  inversion H; subst. apply take_int_len in E1. apply IH in E2. lia.
Qed.

Lemma restore_entry_len s abs sz t img w img' w' :
  restore_entry s abs sz t img w = Ok img' w' → (length img' <= length img)%nat.
Proof.
  assert (∀ (c : C unit) w img' w', (c ;;; mret img) w = Ok img' w' → img' = img) as Hc.
  { intros c w0 i0 w1. unfold mbind. destruct (c w0); [|done|done]. intros H. by inversion H. }
  unfold restore_entry. destruct (class_of t); try (intros ->%Hc; lia);
    try (intros H; inversion H; lia); destruct (data_size t) as [d|]; try done;
    try (intros ->%Hc; lia).
  unfold restore_array. destruct (_ =? 0); [done|]. unfold mbind.
  destruct (wasm_runtime_malloc s (d * sz) w) as [p w1| |]; try done.
  destruct (decide (t = WASMModuleT)); cbn [modify skip mret].
  all: unfold modify.
  all: destruct (read_chain _ 1 p d t img) as [[es rest]|] eqn:E; try done.
  all: intros H; inversion H; subst; by eapply read_chain_len.
Qed.

Lemma restore_table_fuel s n : ∀ k img w,
  (length img < n)%nat → (length img < k)%nat → restore_table s n img w = restore_table s k img w.
Proof.
  induction n as [|n IH]; intros [|k] img w H1 H2; try lia. cbn [restore_table].
  destruct (take_int img) as [[abs i1]|] eqn:E1; [|done]. apply take_int_len in E1.
  destruct (take_int i1) as [[t i2]|] eqn:E2; [|done]. apply take_int_len in E2.
  destruct (take_int i2) as [[sz i3]|] eqn:E3; [|done]. apply take_int_len in E3.
  destruct (type_of_code t) as [ty|]; [|done]. unfold mbind.
  destruct (restore_entry s abs sz ty i3 w) as [i4 w1| |] eqn:E4; try done.
  apply restore_entry_len in E4. apply IH; lia.
Qed.

(** Reading pool_info.img ends on every input, whatever the allocator does. *)
Lemma restore_table_terminates s n img w :
  (length img < n)%nat → restore_table s n img w = restore_table s (S (length img)) img w.
Proof. intros. apply restore_table_fuel; lia. Qed.

(** C31: the three loops of a restart over the image files (dump.img, frame.img,
    pool_info.img) end on every input, whatever the files hold and the allocator
    does: the length of the file bounds the turns, any larger bound gives the same
    result. *)
Theorem restart_terminates s img w n m k :
  (rest_len FP w < n)%nat → (rest_len GP w < m)%nat → (length img < k)%nat →
  restore_loop n w = restore_internal w
  ∧ restore_frame_loop m w = restore_frame_loop (S (rest_len GP w)) w
  ∧ restore_table s k img w = restore_table s (S (length img)) img w.
Proof.
  intros Hn Hm Hk. split_and!;
    [by apply restore_internal_terminates|by apply restore_frame_loop_terminates|by apply restore_table_terminates].
Qed.

(** A text of three bytes, and a file that ends in the middle of a record. *)
Definition short_file : world :=
  mkWorld ∅ (FRead (le_bytes 4 0 ++ le_bytes 4 3 ++ le_bytes 4 16 ++ [x61; x62; x63] ++ [x00]))
    FClosed [mkInfo (mkElem 16 4112 3 charT) []] [] 4096 0 0 0 0 0 0.

Lemma restart_terminates_witness :
  let s := mkMemory MEMORY_MODE_ALLOCATOR
             (mkFuncs bump_malloc (fun _ _ => mret NULL) (fun _ => skip))
             (mkFuncs bump_malloc (fun _ _ => mret NULL) (fun _ => skip)) true in
  (restore_loop 100 short_file = restore_internal short_file
   ∧ restore_frame_loop 9 short_file = restore_frame_loop (S (rest_len GP short_file)) short_file
   ∧ restore_table s 9 (le_bytes 4 8) short_file
     = restore_table s (S (length (le_bytes 4 8))) (le_bytes 4 8) short_file)
  ∧ ∃ w, restore_internal short_file = Ok tt w ∧ load (wmem w) 4112 3 = [x61; x62; x63].
Proof.
  intros s. split.
  - apply (restart_terminates s (le_bytes 4 8) short_file 100 9 9); vm_compute; lia.
  - clear s. eexists. split; vm_compute; reflexivity.
Defined.
